(* ===== verification/_CoqProject ===== *)
-Q . S2P
Prelude.v
Types.v
Protect.v
Str.v
Device.v
Boot.v
Apic.v
Mp.v
Spinlock.v
Queue.v
Kalloc.v
Sched.v
Policy.v
Context.v
Sleeplock.v
Pipe.v
Bio.v
Log.v
Console.v
Vm.v
Paging.v
Reclaim.v
Copy.v
Fs.v
Fsdata.v
FsSpec.v
Dir.v
Balloc.v
File.v
Proc.v
Life.v
Fork.v
Syscall.v
Exec.v
Sysfile.v
Ide.v
Pio.v
Consio.v
Kbd.v
Panic.v
Main.v
Startup.v
Userinit.v
Editor.v
Trap.v
Ulib.v
Umalloc.v
Sh.v
Grep.v
Programs.v
Usertests.v
Mkfs.v
System.v
