(* ===== verification/Prelude.v ===== *)
(** * Verification of the xv6 kernel with an MLFQ scheduler

    This library models the operating system under [src/xv6-modularized]: the
    xv6 kernel for the x86 ([kernel/]), whose round-robin scheduler is replaced
    by a multi-level feedback queue, its user library ([libs/]) and its user
    programs ([user/]).  The C functions are Rocq functions
    of the same name, transcribed statement by statement; the theorems are
    about these functions.

    ** The program

    The boot loader ([bootmain.c]) reads the kernel from the disk; the kernel
    finds the processors ([mp.c]), programs the interrupt controllers
    ([lapic.c], [ioapic.c]), and fills the tables through which the processor
    enters it ([seginit], [tvinit]); [main] calls these and the other
    initialisations in order, starts the other processors and makes the first
    process.
    A process enters the kernel by a trap ([trap.c]): a system call, which
    fetches its arguments from user memory ([syscall.c]) and goes to the process
    calls ([sysproc.c]) or the file calls ([sysfile.c]); or an interrupt of the
    clock, the disk ([ide.c]), the keyboard ([kbd.c]) or the serial port
    ([uart.c]).  The clock charges the running process a tick and preempts it
    when its quantum is over.  Processes ([proc.c]) wait in one linked queue per
    priority; [scheduler] switches to the head of the first non-empty queue,
    [yield] demotes, and [priority_boost] periodically brings everybody back to
    the top.  Processes sleep on channels and are woken by [wakeup].  Spin locks
    ([spinlock.c]) protect kernel data, sleep locks ([sleeplock.c]) buffers and
    inodes.  Memory comes from the page allocator ([kalloc.c]) and is mapped by
    page tables ([vm.c]); [exec.c] loads programs.  The file system ([fs.c])
    stores files in blocks that it changes in transactions ([log.c]) over a
    buffer cache ([bio.c]) over a disk driver ([ide.c] or [memide.c]); open
    files ([file.c]) refer to inodes or pipes ([pipe.c]), and an inode may name
    the console ([console.c]).

    ** How it is modelled

    The state of the machine is the record [kernel] of [Types]: the CPUs with
    their registers and the spin locks ([hw]), physical memory as a map from
    addresses to bytes, and one field for every static variable of the kernel.
    Pointers into static tables are indices, pages are addresses; C integers
    are [Z] with their wrap-around written out ([u32], [i32], [u16], [u8], ...).

    A routine is a computation [K A = kernel -> outcome kernel A] (below): it
    returns ([Done]), stops the machine ([Stop]: [panic], an access outside an
    object, spinning on a lock, an exhausted loop bound) or gives the CPU away
    in [swtch] ([Switch]) and continues from whatever state it is resumed in.
    [wp P o Q] states the behaviour of an outcome under a protocol [P]: what the
    routine guarantees at every switch, what it may rely on when resumed, and
    which stops are acceptable.  [atomic] allows none of these, so a theorem
    [wp atomic (m s) Q] says that [m] returns.  [wp] lets a routine return
    without a switch; [switches G R o F] does not: the outcome is a switch, in a
    state that satisfies [G], and [F] holds of how the routine goes on from every
    state of [R].  Routines that have to give the CPU away ([yield], [sleep],
    [exit], a round of [scheduler], the end of a quantum) are specified with it.
    [Context] adds [runs], for
    routines that run in a process without giving the CPU away.  Interleaving
    is thus explicit: other processes and CPUs act at switches, where they may
    change everything the protocol's rely condition does not fix, and between
    switches the locks held exclude them.

    [main.c], which runs both kinds of code below, is a computation over a [board]
    ([Main]): the kernel, the devices on the bus and the descriptor tables.  A
    processor that is being started runs while the boot processor polls for it,
    and then runs rounds of its scheduler between the steps of [main] as a
    schedule, a parameter, says.

    Code that drives a device is a computation over memory and an I/O bus
    ([Device]): the reactions of the device to reads and writes of its ports and
    registers are an instance of the class [Bus], and the theorems are about
    models of the disk controller, the I/O APIC and the clock, written from
    their manuals.

    Interfaces are type classes.  [Disk] is the driver as the buffer cache calls
    it and [DiskOk] the contract its theorems rely on, discharged for [memide.c]
    by the instance [memide_ok]; [DevSw] is the device switch, [TrapOps] the
    handlers that [trap] dispatches to, [Linkage] the addresses the linker
    fixes, [Serial] whether a serial port was found, [Ide] what the IDE
    controller reports, [Initcode] the assembled first program, [Image] the
    other things the build links into the kernel, [Responsive] that the devices
    [main] waits for answer, [Input] the sources of characters, and [Arena] the
    memory the user allocator obtains by [sbrk].

    ** The files

    Kernel basics.  [Prelude]: machine integers, computations, protocols.
    [Types]: constants and data structures.  [Str]: byte memory and [string.c].
    [Protect]: segments, gates and the task state, and what the processor does
    with them.
    [Spinlock]: spin locks, [pushcli]/[popcli], CPU identity.  [Kalloc]: the
    page allocator.  [Context]: rules for code that runs in a process.
    [Sleeplock]: sleep locks.

    Devices.  [Device]: ports and registers, the disk controller.  [Boot]:
    [bootmain.c].  [Apic]: [ioapic.c], [lapic.c] with the CMOS clock, [picirq.c],
    [uart.c].  [Mp]: [mp.c].  [Pio]: the part of [ide.c] that talks to the
    controller.  [Kbd]: [kbdgetc] at the ports of the keyboard controller.

    Start-up.  [Main]: [main.c] and the end of [entryother.S]; [Startup]: the
    initialisations on one processor, before and after the allocator takes its
    lock, and the other processors; [Userinit]: the first process, and [main] as
    a whole.

    Scheduling.  [Queue]: [enqueue], [dequeue], the body of [priority_boost] and
    [wakeup1] on the linked queues of [ptable], refined to abstract queues.
    [Sched]: [allocproc], [scheduler], [sched], [yield], [sleep], [wakeup],
    [kill] with locks and context switches.  [Policy]: sequences of critical
    sections as a step relation; the queue invariant, the choice of the best
    process, and freedom from starvation after a boost.  [Trap]: [trap], with
    the clock tick, the quantum and the end of a faulting program.  [Proc]: [userinit], [growproc], [fork],
    [exit], [wait], [forkret]; [Fork]: what [fork] creates; [Life]: what [exit]
    leaves behind and what [wait] collects.

    Memory.  [Vm]: all of [vm.c] over memory, with the page walk of the
    hardware; [Paging]: [walkpgdir] and [mappages] against that walk; [Reclaim]:
    [deallocuvm] and [freevm] against the allocator; [Copy]: [setupkvm] and
    [copyuvm].  [Exec]: [exec.c].
    [Syscall]: argument fetching and [sysproc.c].

    Storage.  [Bio]: buffer cache and memory disk.  [Ide]: the IDE request
    queue.  [Log]: transactions, commit, recovery, and their crash safety.
    [Fs]: all of [fs.c]; [FsSpec]: reading and writing files; [Dir]: looking up and
    entering names; [Balloc]: the block allocator; [Fsdata]: path elements, directory entries, inode records.
    [File]: open files; [Pipe]: pipes; [Sysfile]: the file calls and the system
    call table.

    Console.  [Console]: [cprintf], the screen, the line editor [consoleintr],
    [procdump]; [Consio]: the device functions and the keyboard; [Editor]: the
    editor against an abstract one; [Panic]: the report of [panic].

    User programs.  [Ulib]: the library over a type of system-calling programs;
    [Umalloc]: [malloc] and [free]; [Sh]: the shell; [Grep]: grep; [Programs]:
    [cat], [wc], [ls], [init] and the other small programs.  [Usertests]: the
    test suite [usertests.c].  [Mkfs]: the host tool that builds the disk image.
    [System]: the system call as a user program makes it, through [trap] with the
    modelled handlers; the kernel on an image of [mkfs] running the tests.

    ** What the theorems show

    Scheduling: every operation on the linked queues implements the operation
    on abstract queues, in all positions and with all corner cases; from boot,
    each queue holds exactly the runnable processes of its priority; the
    scheduler switches to the first process of the best priority, and switches
    nowhere only if all queues are empty; [yield] switches away, demoted and with
    a new quantum; a clock interrupt takes the CPU from a process exactly when its
    [2^priority] ticks are used up; after a boost every runnable
    process runs within [NPROC] dispatches, also if processes are killed or
    change parents meanwhile; [sleep] gives up the CPU and its lock and comes
    back with the lock; [acquiresleep] waits as long as the lock is held; [wakeup],
    [kill], [allocproc], [fork], [exit] and [wait] do what their callers rely on;
    a program that faults is reported and killed.

    Storage: the cache returns the last written contents of a block; pipes are
    FIFO queues across the wrap of their counters and writers never overrun
    them; a transaction is atomic and durable whatever write the machine stops
    after, and recovery may itself be interrupted; [readi] and [writei] read and
    replace exactly the bytes of a file through direct and indirect blocks;
    [balloc] returns the first free block; [dirlink] enters a name that
    [dirlookup] then finds; the IDE queue is served in order, and each request
    moves the block it names between memory and the controller; the
    image [mkfs] builds is a consistent file system that holds the given files.

    Memory: [mappages] and [freevm] against the paging hardware and the page
    allocator; [copyuvm] copies every page of an address space, or gives back
    all it took, which it does only for want of memory; [argptr] accepts exactly the pointers whose whole object lies in
    the process.  Console: [cprintf] sends the formatted text; the line editor
    refines an abstract editor; the keyboard state machine is type-correct and a
    key leaves only its own flags changed.
    Programs: the shell's parser ends on every line, and the words it
    terminates are the words of the line; grep's matcher decides the language of
    its regular expression; [cat] copies and [wc] counts its input in whatever
    chunks it arrives; [malloc] and [free] keep the heap a partition into
    disjoint blocks in use and an ordered free list, and [malloc] fails only if
    [sbrk] does (for requests below 2 GB; [malloc_huge] shows the rest).

    The whole: [main] sets up the processors, the page tables,
    the page allocator, the queues and the first process in the state their
    components ask for, whatever rounds the other processors' schedulers run
    meanwhile ([main_boots]); as an example, on the image that [mkfs] builds, the
    kernel passes the tests of
    [usertests.c] that need no second process ([file_tests_pass]); the
    test [pipe1] reports success exactly when the bytes out of the pipe are those
    put in ([pipe1_checks]).

    Start-up and devices: [bootmain] puts every segment of the kernel where its
    header says; an [int] instruction of a user program enters the kernel through
    the system-call gate or as a protection fault, faults and interrupts enter
    through their own gates, all on the stack of the process, and ports cannot be
    used; the I/O APIC delivers exactly the
    interrupts that were enabled; [cmostime] returns a date the clock showed;
    [mpinit] learns the processors of a well-formed table.

    ** Loop bounds

    Loops whose bound the code fixes recurse on it ([NPROC], [NBUF], [NINODE],
    [BPB], the words of a block, the pages of a range), or on a list.  A loop
    that ends for a semantic reason takes a bound that the data imply, and the
    theorems that say the routine returns prove that it is enough: the pages
    between two addresses in [mappages], [deallocuvm] and [freerange], the blocks
    of a transfer in [readi] and [writei], the bitmap blocks in [balloc], the
    length of the line in [parsecmd], the bytes to append in [iappend], the
    entries of a table of at most 65535 bytes in [mpinit], the free blocks in
    [malloc] and [free].  Loops
    that wait for another process have
    no bound in the code; they take the parameter [Fuel], results that do not
    wait hold for every value of it (0 included), and results that wait state
    what is guaranteed at every switch, with [NoFuel] as an acceptable stop.
    Loops that poll a device take the parameter [Patience]; the theorems ask that
    it exceeds the delays of the device, or a number of reads that they state.
    [wait_started], which waits for another processor, takes it too: one turn
    of that processor is enough.

    ** Not modelled

    The benchmark [cpubench.c]: floating-point arithmetic.  The assembly before
    [main] and around [trap], except where the C code depends on it (the words
    [entryother.S] reads, the registers [alltraps] saves, [swtch] as a change of
    process).  During start-up the other processors run whole rounds of their
    schedulers between the calls of [main] and while it waits, not in the
    middle of [kinit2] or [userinit], and no device interrupts them; after
    [userinit], [main_boots] follows the boot processor only for the case that it
    goes on first.  The tests
    of [usertests.c] that fork are programs of [Usertests] but are not run on the
    kernel.  [panic] in the middle of a routine: the routine stops the machine,
    and [Panic] says what is printed then.

    ** Further work

    Files that grow in [writei]; path lookup over several directories; [exec] on
    every failure path; the tests that need several processes, over a
    scheduler that interleaves them. *)
From Stdlib Require Export ZArith Lia.
From stdpp Require Export base strings countable gmap list.

Declare Scope xv6_scope.
Delimit Scope xv6_scope with xv6.
Open Scope xv6_scope.
Open Scope Z_scope.

Create HintDb xv6 discriminated.
Create Rewrite HintDb u32.

(** ** Machine integers *)

(** [u32 x] is the value of the C expression [x] of type [uint]; [i32] and
    [i16] reinterpret as [int] and [short], [u8] and [u16] as [uchar] and [ushort]. *)
Definition u32 (x : Z) : Z := x mod 2 ^ 32.
Definition u16 (x : Z) : Z := x mod 2 ^ 16.
Definition u8 (x : Z) : Z := x mod 2 ^ 8.
Definition i32 (x : Z) : Z := (x + 2 ^ 31) mod 2 ^ 32 - 2 ^ 31.
Definition i16 (x : Z) : Z := (x + 2 ^ 15) mod 2 ^ 16 - 2 ^ 15.
Definition i8 (x : Z) : Z := (x + 2 ^ 7) mod 2 ^ 8 - 2 ^ 7.

Lemma u32_small x : 0 <= x < 2 ^ 32 -> u32 x = x.
Proof. intros ?. by apply Z.mod_small. Qed.

Lemma u32_range x : 0 <= u32 x < 2 ^ 32.
Proof. by apply Z.mod_pos_bound. Qed.

Lemma u32_u32 x : u32 (u32 x) = u32 x.
Proof. apply u32_small, u32_range. Qed.

Lemma u32_eq_iff x y : u32 x = u32 y <-> exists k, x = y + k * 2 ^ 32.
Proof.
  unfold u32. split.
  - intros H. exists (x / 2 ^ 32 - y / 2 ^ 32).
    pose proof (Z.div_mod x (2 ^ 32)). pose proof (Z.div_mod y (2 ^ 32)). lia.
  - intros [k ->]. by rewrite Z.mod_add.
Qed.

Lemma u32_add_l x y : u32 (u32 x + y) = u32 (x + y).
Proof. unfold u32. by rewrite Zplus_mod_idemp_l. Qed.

Lemma u32_add_r x y : u32 (x + u32 y) = u32 (x + y).
Proof. unfold u32. by rewrite Zplus_mod_idemp_r. Qed.

Lemma u32_sub_l x y : u32 (u32 x - y) = u32 (x - y).
Proof. unfold u32. by rewrite Zminus_mod_idemp_l. Qed.

Lemma u32_sub_r x y : u32 (x - u32 y) = u32 (x - y).
Proof. unfold u32. by rewrite Zminus_mod_idemp_r. Qed.

Lemma i32_small x : - 2 ^ 31 <= x < 2 ^ 31 -> i32 x = x.
Proof. intros ?. unfold i32. rewrite Z.mod_small; lia. Qed.

#[export] Hint Resolve u32_range : xv6.
#[export] Hint Rewrite u32_u32 u32_add_l u32_add_r u32_sub_l u32_sub_r : u32.

(** ** Kernel computations

    A kernel routine is a function of the kernel state.  It either returns
    ([Done]), stops the machine ([Stop]: a call of [panic], a memory error the
    C code does not guard against, a spin on a lock another CPU holds, or an
    exhausted loop bound of the model), or gives the CPU away by [swtch]
    ([Switch]) and continues from whatever state it is resumed in. *)
Inductive stop :=
  | Panic (msg : string)
  | Fault (what : string)
  | Spin
  | NoFuel.

Inductive outcome (S A : Type) :=
  | Done (a : A) (s : S)
  | Stop (e : stop)
  | Switch (s : S) (k : S -> outcome S A).
Arguments Done {_ _} _ _.
Arguments Stop {_ _} _.
Arguments Switch {_ _} _ _.

Section monad.
Context {S : Type}.

Fixpoint obind {A B} (f : A -> S -> outcome S B) (o : outcome S A) : outcome S B :=
  match o with
  | Done a s => f a s
  | Stop e => Stop e
  | Switch s k => Switch s (fun s' => obind f (k s'))
  end.

Definition ret {A} (a : A) : S -> outcome S A := fun s => Done a s.

Definition bind {A B} (m : S -> outcome S A) (f : A -> S -> outcome S B) : S -> outcome S B :=
  fun s => obind f (m s).

Definition get : S -> outcome S S := fun s => Done s s.
Definition modify (f : S -> S) : S -> outcome S unit := fun s => Done tt (f s).
Definition gets {A} (f : S -> A) : S -> outcome S A := fun s => Done (f s) s.
Definition stopm {A} (e : stop) : S -> outcome S A := fun _ => Stop e.
Definition panic {A} (msg : string) : S -> outcome S A := stopm (Panic msg).

(** [of_option what o]: the value of a memory access that faults outside the object. *)
Definition of_option {A} (what : string) (o : option A) : S -> outcome S A :=
  match o with Some a => ret a | None => stopm (Fault what) end.

Definition whenm (b : bool) (m : S -> outcome S unit) : S -> outcome S unit :=
  if b then m else ret tt.

End monad.

Notation "x <- m ;; k" := (bind m (fun x => k))
  (at level 100, m at next level, right associativity) : xv6_scope.
Notation "'let*' p ':=' m 'in' k" := (bind m (fun p => k))
  (at level 100, p pattern, m at next level, k at level 200, right associativity) : xv6_scope.
Notation "m ;; k" := (bind m (fun _ => k))
  (at level 100, k at level 200, right associativity) : xv6_scope.

(** ** Reasoning about computations that give the CPU away

    A protocol says what a routine guarantees when it calls [swtch], what it
    may rely on when it is resumed, and which stops are acceptable. *)
Record protocol (S : Type) := Protocol {
  p_guar : S -> Prop;
  p_rely : S -> S -> Prop;
  p_stop : stop -> Prop
}.
Arguments Protocol {_} _ _ _.
Arguments p_guar {_} _ _.
Arguments p_rely {_} _ _ _.
Arguments p_stop {_} _ _.

(** The protocol of a routine that never gives the CPU away and never stops. *)
Definition atomic {S} : protocol S :=
  Protocol (fun _ => False) (fun _ _ => False) (fun _ => False).

Section wp.
Context {S : Type}.

Fixpoint wp {A} (P : protocol S) (o : outcome S A) (Q : A -> S -> Prop) : Prop :=
  match o with
  | Done a s => Q a s
  | Stop e => p_stop P e
  | Switch s k => p_guar P s /\ forall s', p_rely P s s' -> wp P (k s') Q
  end.

Lemma wp_mono {A} P (o : outcome S A) (Q Q' : A -> S -> Prop) :
  wp P o Q -> (forall a s, Q a s -> Q' a s) -> wp P o Q'.
Proof.
  induction o as [a s|e|s k IH]; simpl; auto.
  intros [HG HR] HQ. split; [done|]. intros s' Hs'. by apply IH; [apply HR|].
Qed.

Lemma wp_obind {A B} P (o : outcome S A) (f : A -> S -> outcome S B) Q :
  wp P o (fun a s => wp P (f a s) Q) -> wp P (obind f o) Q.
Proof.
  induction o as [a s|e|s k IH]; simpl; auto.
  intros [HG HR]. split; auto.
Qed.

Lemma wp_bind {A B} P (m : S -> outcome S A) (f : A -> S -> outcome S B) s Q :
  wp P (m s) (fun a s' => wp P (f a s') Q) -> wp P ((x <- m ;; f x) s) Q.
Proof. apply wp_obind. Qed.

Lemma wp_protocol {A} P P' (o : outcome S A) Q :
  (forall s, p_guar P s -> p_guar P' s) ->
  (forall s s', p_guar P s -> p_rely P' s s' -> p_rely P s s') ->
  (forall e, p_stop P e -> p_stop P' e) ->
  wp P o Q -> wp P' o Q.
Proof.
  intros HG HR HE. induction o as [a s|e|s k IH]; simpl; auto.
  intros [? H]. split; auto.
Qed.

Lemma wp_atomic {A} P (o : outcome S A) Q : wp atomic o Q -> wp P o Q.
Proof. apply wp_protocol; simpl; tauto. Qed.

(** Under [atomic] the outcome is a plain return. *)
Lemma wp_atomic_done {A} (o : outcome S A) Q :
  wp atomic o Q <-> exists a s, o = Done a s /\ Q a s.
Proof.
  destruct o as [a s|e|s k]; simpl.
  - split; [eauto|]. intros (? & ? & [= <- <-] & ?). done.
  - split; [done|]. by intros (? & ? & ? & ?).
  - split; [tauto|]. by intros (? & ? & ? & ?).
Qed.

Lemma bind_done {A B} (m : S -> outcome S A) (f : A -> S -> outcome S B) s a s' :
  m s = Done a s' -> (x <- m ;; f x) s = f a s'.
Proof. intros E. unfold bind. by rewrite E. Qed.

Lemma bind_stop {A B} (m : S -> outcome S A) (f : A -> S -> outcome S B) s e :
  m s = Stop e -> (x <- m ;; f x) s = Stop e.
Proof. intros E. unfold bind. by rewrite E. Qed.

End wp.

(** [wp] allows a routine to return without a switch; [switches] does not.
    The routine gives the CPU away, in a state that satisfies [G], and what it
    does when it is resumed in a state that satisfies [R] satisfies [F]. *)
Section switches.
Context {S : Type}.

Definition switches {A} (G R : S -> Prop) (o : outcome S A) (F : S -> outcome S A -> Prop) : Prop :=
  match o with
  | Switch s k => G s /\ forall s', R s' -> F s' (k s')
  | _ => False
  end.

Lemma switches_mono {A} (G G' R R' : S -> Prop) (o : outcome S A) (F F' : S -> outcome S A -> Prop) :
  switches G R o F -> (forall s, G s -> G' s) -> (forall s, R' s -> R s) ->
  (forall s o, R' s -> F s o -> F' s o) -> switches G' R' o F'.
Proof. destruct o as [|e|s k]; simpl; [done..|]. intros [? HF] HG HR HFF. split; [auto|]. intros s' Hs'. by apply HFF, HF, HR. Qed.

(** Statements before the switch, and after it. *)
Lemma switches_before {A B} G R (m : S -> outcome S A) (f : A -> S -> outcome S B) s F :
  wp atomic (m s) (fun a s' => switches G R (f a s') F) -> switches G R ((x <- m ;; f x) s) F.
Proof. intros (a & s' & E & HF)%wp_atomic_done. by rewrite (bind_done _ _ _ _ _ E). Qed.

Lemma switches_after {A B} G R (m : S -> outcome S A) (f : A -> S -> outcome S B) s F :
  switches G R (m s) (fun s' o => wp atomic o (fun a s'' => F s' (f a s''))) -> switches G R ((x <- m ;; f x) s) F.
Proof.
  unfold bind. destruct (m s) as [|e|s1 k]; simpl; [done..|]. intros [HG HF]. split; [done|]. intros s' Hs'.
  destruct (proj1 (wp_atomic_done _ _) (HF s' Hs')) as (a & s'' & -> & ?). done.
Qed.

Lemma switches_assoc {A B C} G R (m : S -> outcome S A) (f : A -> S -> outcome S B) (g : B -> S -> outcome S C) s F :
  switches G R (m s) (fun s' o => wp atomic o (fun a s'' => F s' ((y <- f a ;; g y) s''))) ->
  switches G R ((y <- (x <- m ;; f x) ;; g y) s) F.
Proof.
  unfold bind. destruct (m s) as [|e|s1 k]; simpl; [done..|]. intros [HG HF]. split; [done|]. intros s' Hs'.
  destruct (proj1 (wp_atomic_done _ _) (HF s' Hs')) as (a & s'' & -> & ?). done.
Qed.

(** The weaker statement, under a protocol. *)
Lemma switches_wp {A} P G R (o : outcome S A) Q :
  switches G R o (fun _ o' => wp P o' Q) -> (forall s, G s -> p_guar P s) ->
  (forall s s', G s -> p_rely P s s' -> R s') -> wp P o Q.
Proof. destruct o as [|e|s k]; simpl; [done..|]. intros [HG HF] HP HR. split; [auto|]. intros s' Hs'. by eapply HF, HR. Qed.
End switches.

(** Rules for the basic statements, and a tactic that runs them. *)
Section rules.
Context {S A : Type} (P : protocol S).
Implicit Types (s : S) (Q : A -> S -> Prop).

Lemma wp_gets {B} (f : S -> B) (k : B -> S -> outcome S A) s Q :
  wp P (k (f s) s) Q -> wp P ((x <- gets f ;; k x) s) Q.
Proof. done. Qed.

Lemma wp_modify (f : S -> S) (k : unit -> S -> outcome S A) s Q :
  wp P (k tt (f s)) Q -> wp P ((x <- modify f ;; k x) s) Q.
Proof. done. Qed.

Lemma wp_ret (a : A) s Q : Q a s -> wp P (ret a s) Q.
Proof. done. Qed.

Lemma wp_assoc {B C} (m : S -> outcome S B) (f : B -> S -> outcome S C) (g : C -> S -> outcome S A) s Q :
  wp P ((x <- m ;; y <- f x ;; g y) s) Q -> wp P ((y <- (x <- m ;; f x) ;; g y) s) Q.
Proof.
  unfold bind. generalize (m s). intros o. induction o as [a s'|e|s' k IH]; simpl; auto.
  intros [? H]. split; auto.
Qed.

Lemma wp_ret_bind {B} (b : B) (k : B -> S -> outcome S A) s Q :
  wp P (k b s) Q -> wp P ((x <- ret b ;; k x) s) Q.
Proof. done. Qed.

Lemma wp_get (k : S -> S -> outcome S A) s Q :
  wp P (k s s) Q -> wp P ((x <- get ;; k x) s) Q.
Proof. done. Qed.

Lemma wp_of_option {B} what (o : option B) b (k : B -> S -> outcome S A) s Q :
  o = Some b -> wp P (k b s) Q -> wp P ((x <- of_option what o ;; k x) s) Q.
Proof. by intros -> ?. Qed.

Lemma wp_when_true (m : S -> outcome S unit) (k : unit -> S -> outcome S A) s Q :
  wp P ((x <- m ;; k x) s) Q -> wp P ((x <- whenm true m ;; k x) s) Q.
Proof. done. Qed.

Lemma wp_when_false (m : S -> outcome S unit) (k : unit -> S -> outcome S A) s Q :
  wp P (k tt s) Q -> wp P ((x <- whenm false m ;; k x) s) Q.
Proof. done. Qed.

(** A routine in tail position, as the first statement of an empty sequence. *)
Lemma wp_tail (m : S -> outcome S A) s Q :
  wp P ((x <- m ;; ret x) s) Q -> wp P (m s) Q.
Proof.
  unfold bind. generalize (m s). intros o. induction o as [a s'|e|s' k IH]; simpl; auto.
  intros [? H]. split; auto.
Qed.

End rules.

Ltac wp_run := cbv beta; repeat (lazymatch goal with
  | |- wp _ (bind (bind _ _) _ _) _ => apply wp_assoc
  | |- wp _ (bind (gets _) _ _) _ => apply wp_gets
  | |- wp _ (bind (modify _) _ _) _ => apply wp_modify
  | |- wp _ (bind (ret _) _ _) _ => apply wp_ret_bind
  | |- wp _ (bind get _ _) _ => apply wp_get
  | |- wp _ (bind (of_option _ (Some _)) _ _) _ => apply wp_ret_bind
  | |- wp _ (bind (whenm true _) _ _) _ => apply wp_when_true
  | |- wp _ (bind (whenm false _) _ _) _ => apply wp_when_false
  | |- wp _ (ret _ _) _ => apply wp_ret
  end; cbv beta).
(** The next statement does not switch. *)
Ltac sw_step tac := apply switches_before, wp_tail; tac.

(** ** Lists *)
Section lists.
Context {A : Type}.

Lemma lookup_snoc_eq (l : list A) x : (l ++ [x]) !! length l = Some x.
Proof. by rewrite lookup_app_r, Nat.sub_diag by lia. Qed.

Lemma lookup_snoc_S (l : list A) x k :
  (k < length l)%nat -> S k <> length l -> (l ++ [x]) !! S k = l !! S k.
Proof. intros ??. apply lookup_app_l. lia. Qed.

Lemma NoDup_lookup_eq (l : list A) i j x :
  NoDup l -> l !! i = Some x -> l !! j = Some x -> i = j.
Proof. intros ???. by eapply NoDup_lookup. Qed.

Lemma filter_all (P : A -> Prop) `{forall x, Decision (P x)} (l : list A) :
  (forall x, x ∈ l -> P x) -> filter P l = l.
Proof.
  induction l as [|x l IH]; intros HP; [done|].
  rewrite filter_cons_True by (apply HP; left). f_equal. apply IH. intros y Hy. apply HP. by right.
Qed.

End lists.
