(* ===== verification/Types.v ===== *)
(** * Data of the kernel

    The constants of [libs/param.h], [kernel/mmu.h], [kernel/memlayout.h] and
    [libs/traps.h] the modelled code uses, and the kernel's data structures:
    [struct proc], [struct cpu], [struct spinlock], [struct sleeplock],
    [struct pipe], [struct file], [ptable], [kmem], [ftable].  A pointer into
    one of the kernel's static tables is the index of the entry, and the null
    pointer is [None]; pages handed out by [kalloc] are addresses ([Z], null is 0). *)
From S2P Require Import Prelude.

(** ** Constants *)
Definition NPROC : nat := 64.
Definition BOOSTTIMER : Z := 100.
Definition NPRIO : nat := 3.
Definition KSTACKSIZE : Z := 4096.
Definition NOFILE : nat := 16.
Definition NFILE : nat := 100.

Definition KERNBASE : Z := 0x80000000.
Definition EXTMEM : Z := 0x100000.
Definition PHYSTOP : Z := 0xE000000.
Definition DEVSPACE : Z := 0xFE000000.
Definition KERNLINK : Z := KERNBASE + EXTMEM.
Definition V2P (a : Z) : Z := u32 (a - KERNBASE).
Definition P2V (a : Z) : Z := u32 (a + KERNBASE).

Definition PGSIZE : Z := 4096.
Definition PGROUNDUP (sz : Z) : Z := Z.land (u32 (sz + PGSIZE - 1)) (u32 (Z.lnot (PGSIZE - 1))).
Definition PGROUNDDOWN (a : Z) : Z := Z.land (u32 a) (u32 (Z.lnot (PGSIZE - 1))).

(** Masking with [~(PGSIZE-1)] rounds down to a page boundary. *)
Lemma page_mask a :
  Z.land (u32 a) (u32 (Z.lnot (PGSIZE - 1))) = u32 a / PGSIZE * PGSIZE.
Proof.
  change (PGSIZE - 1) with (Z.ones 12). unfold u32 at 2. rewrite <- Z.land_ones by lia.
  rewrite Z.land_assoc, <- Z.ldiff_land, Z.ldiff_ones_r by lia.
  rewrite Z.land_ones, Z.shiftr_div_pow2, Z.shiftl_mul_pow2 by lia. change (2 ^ 12) with PGSIZE.
  apply Z.mod_small. pose proof (u32_range a). unfold PGSIZE.
  pose proof (Z.div_mod (u32 a) 4096 ltac:(lia)). pose proof (Z.mod_pos_bound (u32 a) 4096 ltac:(lia)). lia.
Qed.

Lemma PGROUNDUP_spec a :
  0 <= a <= 2 ^ 32 - PGSIZE ->
  PGROUNDUP a mod PGSIZE = 0 /\ a <= PGROUNDUP a < a + PGSIZE.
Proof.
  unfold PGROUNDUP, PGSIZE. intros Ha. fold PGSIZE. rewrite <- u32_u32, page_mask, u32_u32.
  rewrite u32_small by (unfold PGSIZE; lia). unfold PGSIZE. rewrite Z.mod_mul by lia.
  pose proof (Z.div_mod (a + 4096 - 1) 4096 ltac:(lia)).
  pose proof (Z.mod_pos_bound (a + 4096 - 1) 4096 ltac:(lia)). lia.
Qed.

Lemma PGROUNDDOWN_spec a :
  0 <= a < 2 ^ 32 -> PGROUNDDOWN a mod PGSIZE = 0 /\ PGROUNDDOWN a <= a < PGROUNDDOWN a + PGSIZE.
Proof.
  intros Ha. unfold PGROUNDDOWN. rewrite page_mask, u32_small by done. unfold PGSIZE.
  rewrite Z.mod_mul by lia.
  pose proof (Z.div_mod a 4096 ltac:(lia)). pose proof (Z.mod_pos_bound a 4096 ltac:(lia)). lia.
Qed.

Definition DPL_USER : Z := 3.
Definition SEG_UCODE : Z := 3.
Definition SEG_UDATA : Z := 4.
Definition FL_IF : Z := 0x200.

Definition T_SYSCALL : Z := 64.
Definition T_IRQ0 : Z := 32.
Definition IRQ_TIMER : Z := 0.
Definition IRQ_KBD : Z := 1.
Definition IRQ_COM1 : Z := 4.
Definition IRQ_IDE : Z := 14.
Definition IRQ_SPURIOUS : Z := 31.

(** ** Addresses used as names

    [lockid] is the address of a spin lock, [chan] the address a process
    sleeps on.  They are only ever compared for equality. *)
Inductive sleepid := SL_buf (i : nat) | SL_inode (i : nat).
#[export] Instance sleepid_eq_dec : EqDecision sleepid.
Proof. solve_decision. Defined.

Definition sleepid_enc (l : sleepid) : bool * nat :=
  match l with SL_buf i => (true, i) | SL_inode i => (false, i) end.
Definition sleepid_dec (c : bool * nat) : option sleepid :=
  match c with (true, i) => Some (SL_buf i) | (false, i) => Some (SL_inode i) end.
#[export] Program Instance sleepid_countable : Countable sleepid :=
  inj_countable sleepid_enc sleepid_dec _.
Next Obligation.
  by intros [].
Qed.

Inductive lockid :=
  | L_ptable | L_tickslock | L_kmem | L_ftable | L_cons | L_log | L_icache
  | L_bcache | L_idelock | L_pipe (p : Z) | L_sleep (l : sleepid).
#[export] Instance lockid_eq_dec : EqDecision lockid.
Proof. solve_decision. Defined.

Definition lockid_enc (l : lockid) : Z + (bool * nat) :=
  match l with
  | L_ptable => inl (-1) | L_tickslock => inl (-2) | L_kmem => inl (-3)
  | L_ftable => inl (-4) | L_cons => inl (-5) | L_log => inl (-6)
  | L_icache => inl (-7) | L_bcache => inl (-8) | L_idelock => inl (-9)
  | L_pipe p => inl (if decide (0 <= p) then p else p - 10)
  | L_sleep (SL_buf i) => inr (true, i)
  | L_sleep (SL_inode i) => inr (false, i)
  end.

Definition lockid_dec (c : Z + (bool * nat)) : option lockid :=
  match c with
  | inl z =>
      if decide (0 <= z) then Some (L_pipe z)
      else if decide (z < -9) then Some (L_pipe (z + 10))
      else Some (match z with
        | -1 => L_ptable | -2 => L_tickslock | -3 => L_kmem | -4 => L_ftable
        | -5 => L_cons | -6 => L_log | -7 => L_icache | -8 => L_bcache
        | _ => L_idelock end)
  | inr (true, i) => Some (L_sleep (SL_buf i))
  | inr (false, i) => Some (L_sleep (SL_inode i))
  end.

#[export] Program Instance lockid_countable : Countable lockid :=
  inj_countable lockid_enc lockid_dec _.
Next Obligation.
  intros [| | | | | | | | |p|[i|i]]; simpl; try reflexivity.
  repeat case_decide; try lia; try done; repeat f_equal; lia.
Qed.

Inductive chan :=
  | C_proc (p : nat) | C_ticks | C_nread (p : Z) | C_nwrite (p : Z) | C_log
  | C_input_r | C_buf (b : nat) | C_sleep (l : sleepid).
#[export] Instance chan_eq_dec : EqDecision chan.
Proof. solve_decision. Defined.

(** ** Locks and CPUs ([kernel/spinlock.h], [kernel/proc.h]) *)

(** [struct spinlock] without the debugging call stack [pcs]. *)
Record spinlock := mkSpinlock { locked : bool; lk_name : string; lk_cpu : option nat }.
#[export] Instance spinlock_inhabited : Inhabited spinlock :=
  populate (mkSpinlock false "" None).

(** [struct cpu]: the local APIC id, the [pushcli] depth, the saved interrupt
    flag, the process running on the CPU, and the kernel stack top installed
    in its task state segment. *)
Record cpu := mkCpu {
  apicid : Z; ncli : Z; intena : bool; c_proc : option nat; ts_esp0 : Z }.

(** What the executing CPU sees: its interrupt flag, its APIC id, its page
    table base register, the [cpus] array, [ncpu], and the spin locks. *)
Record hw := mkHw {
  h_if : bool; h_lapicid : Z; h_cr3 : Z;
  h_cpus : list cpu; h_ncpu : nat; h_locks : gmap lockid spinlock }.

(** ** Processes *)
Inductive procstate := UNUSED | EMBRYO | SLEEPING | RUNNABLE | RUNNING | ZOMBIE.
#[export] Instance procstate_eq_dec : EqDecision procstate.
Proof. solve_decision. Defined.

Record proc := mkProc {
  sz : Z; pgdir : Z; kstack : Z; state : procstate; pid : Z;
  parent : option nat; tf : Z; context : Z; p_chan : option chan; killed : Z;
  ofile : list (option nat); cwd : option nat; p_name : list Z;
  priority : Z; ticks_running : Z; next_proc : option nat }.

(** A process slot as the zeroed [ptable] has it at boot. *)
Definition proc_zero : proc :=
  mkProc 0 0 0 UNUSED 0 None 0 0 None 0 (replicate NOFILE None) None
    (replicate 16 0) 0 0 None.

(** The anonymous struct [ptable] without its lock, which is [L_ptable]. *)
Record ptable := mkPtable {
  pt_proc : list proc; queue_first : list (option nat); queue_last : list (option nat) }.

Definition ptable_zero : ptable :=
  mkPtable (replicate NPROC proc_zero) (replicate NPRIO None) (replicate NPRIO None).

(** ** Pipes and open files ([kernel/pipe.c], [kernel/file.h]) *)
Definition PIPESIZE : Z := 512.
Record pipe := mkPipe {
  p_data : list Z; nread : Z; nwrite : Z; readopen : bool; writeopen : bool }.

Inductive fdtype := FD_NONE | FD_PIPE | FD_INODE.
#[export] Instance fdtype_eq_dec : EqDecision fdtype.
Proof. solve_decision. Defined.

Record file := mkFile {
  f_type : fdtype; f_ref : Z; readable : Z; writable : Z;
  f_pipe : Z; f_ip : option nat; f_off : Z }.
Definition file_zero : file := mkFile FD_NONE 0 0 0 0 None 0.

(** ** The file system ([libs/fs.h], [kernel/buf.h], [kernel/file.h], [kernel/log.c]) *)
Definition ROOTINO : Z := 1.
Definition ROOTDEV : Z := 1.
Definition BSIZE : Z := 512.
Definition NDIRECT : nat := 12.
Definition NINDIRECT : Z := BSIZE / 4.
Definition MAXFILE : Z := Z.of_nat NDIRECT + NINDIRECT.
Definition IPB : Z := BSIZE / 64.
Definition BPB : Z := BSIZE * 8.
Definition DIRSIZ : nat := 14.
Definition NINODE : nat := 50.
Definition NDEV : Z := 10.
Definition MAXOPBLOCKS : Z := 10.
Definition LOGSIZE : Z := MAXOPBLOCKS * 3.
Definition NBUF : nat := 30.
Definition FSSIZE : Z := 1000.
Definition B_VALID : Z := 2.
Definition B_DIRTY : Z := 4.
Definition T_DIR : Z := 1.
Definition T_FILE : Z := 2.
Definition T_DEV : Z := 3.

Record sleeplock := mkSleeplock { sl_locked : bool; sl_name : string; sl_pid : Z }.
#[export] Instance sleeplock_inhabited : Inhabited sleeplock :=
  populate (mkSleeplock false "" 0).

(** [struct buf]; its sleep lock is [SL_buf] of its index.  The links [b_prev]
    and [b_next] are indices, and the list head [bcache.head] has index [NBUF]. *)
Record buf := mkBuf {
  b_flags : Z; b_dev : Z; blockno : Z; refcnt : Z;
  b_prev : nat; b_next : nat; qnext : option nat; b_data : list Z }.
Definition buf_zero : buf := mkBuf 0 0 0 0 NBUF NBUF None (replicate 512 0).

(** [struct log] with its header. *)
Record log := mkLog {
  l_start : Z; l_size : Z; outstanding : Z; committing : bool; l_dev : Z;
  lh_n : Z; lh_block : list Z }.
Definition log_zero : log := mkLog 0 0 0 false 0 0 (replicate 30 0).

Record superblock := mkSuperblock {
  sb_size : Z; nblocks : Z; ninodes : Z; nlog : Z; logstart : Z; inodestart : Z; bmapstart : Z }.

(** The in-memory [struct inode]; its sleep lock is [SL_inode] of its index. *)
Record inode := mkInode {
  i_dev : Z; inum : Z; i_ref : Z; i_valid : bool;
  i_type : Z; major : Z; minor : Z; nlink : Z; i_size : Z; addrs : list Z }.
Definition inode_zero : inode := mkInode 0 0 0 false 0 0 0 0 0 (replicate 13 0).

(** ** The console ([kernel/console.c]) *)
Definition INPUT_BUF : Z := 128.

(** The line buffer [input], the flags [cons.locking] and [panicked], the CGA
    cells with the cursor register, and the bytes sent to the serial port. *)
Record console := mkConsole {
  in_buf : list Z; in_r : Z; in_w : Z; in_e : Z;
  c_locking : bool; panicked : bool; crt : list Z; crt_pos : Z; uart_out : list Z }.
Definition console_zero : console :=
  mkConsole (replicate 128 0) 0 0 0 false false (replicate 2048 0) 0 [].

(** ** The kernel state *)
Record kernel := mkKernel {
  k_hw : hw;
  k_mem : gmap Z Z;                  (* physical memory, by kernel virtual address *)
  k_use_lock : bool;                 (* kmem.use_lock *)
  k_freelist : Z;                    (* kmem.freelist *)
  k_pt : ptable;
  k_initproc : option nat;
  k_nextpid : Z;
  k_first : bool;                    (* forkret's static [first] *)
  k_ticks : Z;
  k_kpgdir : Z;                      (* the kernel-only page table *)
  k_pipes : gmap Z pipe;             (* the pages in use as [struct pipe] *)
  k_ftable : list file;
  k_sleeplocks : gmap sleepid sleeplock;
  k_bufs : list buf;                 (* bcache.buf, and bcache.head last *)
  k_disk : list (list Z);            (* the blocks of the disk *)
  k_writes : list (Z * list Z);      (* history: the block writes the disk has completed *)
  k_idequeue : option nat;
  k_log : log;
  k_sb : superblock;
  k_icache : list inode;
  k_cons : console }.

(** ** Field updates: [set_f x r] is [r] after the assignment [r.f = x]. *)
Definition set_locked x (r : spinlock) : spinlock :=
  mkSpinlock x (lk_name r) (lk_cpu r).
Definition set_lk_cpu x (r : spinlock) : spinlock :=
  mkSpinlock (locked r) (lk_name r) x.
Definition set_ncli x (r : cpu) : cpu :=
  mkCpu (apicid r) x (intena r) (c_proc r) (ts_esp0 r).
Definition set_intena x (r : cpu) : cpu :=
  mkCpu (apicid r) (ncli r) x (c_proc r) (ts_esp0 r).
Definition set_c_proc x (r : cpu) : cpu :=
  mkCpu (apicid r) (ncli r) (intena r) x (ts_esp0 r).
Definition set_ts_esp0 x (r : cpu) : cpu :=
  mkCpu (apicid r) (ncli r) (intena r) (c_proc r) x.
Definition set_h_if x (r : hw) : hw :=
  mkHw x (h_lapicid r) (h_cr3 r) (h_cpus r) (h_ncpu r) (h_locks r).
Definition set_h_cr3 x (r : hw) : hw :=
  mkHw (h_if r) (h_lapicid r) x (h_cpus r) (h_ncpu r) (h_locks r).
Definition set_h_cpus x (r : hw) : hw :=
  mkHw (h_if r) (h_lapicid r) (h_cr3 r) x (h_ncpu r) (h_locks r).
Definition set_h_locks x (r : hw) : hw :=
  mkHw (h_if r) (h_lapicid r) (h_cr3 r) (h_cpus r) (h_ncpu r) x.
Definition set_sz x (r : proc) : proc :=
  mkProc x (pgdir r) (kstack r) (state r) (pid r) (parent r) (tf r) (context r) (p_chan r) (killed r) (ofile r) (cwd r) (p_name r) (priority r) (ticks_running r) (next_proc r).
Definition set_pgdir x (r : proc) : proc :=
  mkProc (sz r) x (kstack r) (state r) (pid r) (parent r) (tf r) (context r) (p_chan r) (killed r) (ofile r) (cwd r) (p_name r) (priority r) (ticks_running r) (next_proc r).
Definition set_kstack x (r : proc) : proc :=
  mkProc (sz r) (pgdir r) x (state r) (pid r) (parent r) (tf r) (context r) (p_chan r) (killed r) (ofile r) (cwd r) (p_name r) (priority r) (ticks_running r) (next_proc r).
Definition set_state x (r : proc) : proc :=
  mkProc (sz r) (pgdir r) (kstack r) x (pid r) (parent r) (tf r) (context r) (p_chan r) (killed r) (ofile r) (cwd r) (p_name r) (priority r) (ticks_running r) (next_proc r).
Definition set_pid x (r : proc) : proc :=
  mkProc (sz r) (pgdir r) (kstack r) (state r) x (parent r) (tf r) (context r) (p_chan r) (killed r) (ofile r) (cwd r) (p_name r) (priority r) (ticks_running r) (next_proc r).
Definition set_parent x (r : proc) : proc :=
  mkProc (sz r) (pgdir r) (kstack r) (state r) (pid r) x (tf r) (context r) (p_chan r) (killed r) (ofile r) (cwd r) (p_name r) (priority r) (ticks_running r) (next_proc r).
Definition set_tf x (r : proc) : proc :=
  mkProc (sz r) (pgdir r) (kstack r) (state r) (pid r) (parent r) x (context r) (p_chan r) (killed r) (ofile r) (cwd r) (p_name r) (priority r) (ticks_running r) (next_proc r).
Definition set_context x (r : proc) : proc :=
  mkProc (sz r) (pgdir r) (kstack r) (state r) (pid r) (parent r) (tf r) x (p_chan r) (killed r) (ofile r) (cwd r) (p_name r) (priority r) (ticks_running r) (next_proc r).
Definition set_p_chan x (r : proc) : proc :=
  mkProc (sz r) (pgdir r) (kstack r) (state r) (pid r) (parent r) (tf r) (context r) x (killed r) (ofile r) (cwd r) (p_name r) (priority r) (ticks_running r) (next_proc r).
Definition set_killed x (r : proc) : proc :=
  mkProc (sz r) (pgdir r) (kstack r) (state r) (pid r) (parent r) (tf r) (context r) (p_chan r) x (ofile r) (cwd r) (p_name r) (priority r) (ticks_running r) (next_proc r).
Definition set_ofile x (r : proc) : proc :=
  mkProc (sz r) (pgdir r) (kstack r) (state r) (pid r) (parent r) (tf r) (context r) (p_chan r) (killed r) x (cwd r) (p_name r) (priority r) (ticks_running r) (next_proc r).
Definition set_cwd x (r : proc) : proc :=
  mkProc (sz r) (pgdir r) (kstack r) (state r) (pid r) (parent r) (tf r) (context r) (p_chan r) (killed r) (ofile r) x (p_name r) (priority r) (ticks_running r) (next_proc r).
Definition set_p_name x (r : proc) : proc :=
  mkProc (sz r) (pgdir r) (kstack r) (state r) (pid r) (parent r) (tf r) (context r) (p_chan r) (killed r) (ofile r) (cwd r) x (priority r) (ticks_running r) (next_proc r).
Definition set_priority x (r : proc) : proc :=
  mkProc (sz r) (pgdir r) (kstack r) (state r) (pid r) (parent r) (tf r) (context r) (p_chan r) (killed r) (ofile r) (cwd r) (p_name r) x (ticks_running r) (next_proc r).
Definition set_ticks_running x (r : proc) : proc :=
  mkProc (sz r) (pgdir r) (kstack r) (state r) (pid r) (parent r) (tf r) (context r) (p_chan r) (killed r) (ofile r) (cwd r) (p_name r) (priority r) x (next_proc r).
Definition set_next_proc x (r : proc) : proc :=
  mkProc (sz r) (pgdir r) (kstack r) (state r) (pid r) (parent r) (tf r) (context r) (p_chan r) (killed r) (ofile r) (cwd r) (p_name r) (priority r) (ticks_running r) x.
Definition set_pt_proc x (r : ptable) : ptable :=
  mkPtable x (queue_first r) (queue_last r).
Definition set_queue_first x (r : ptable) : ptable :=
  mkPtable (pt_proc r) x (queue_last r).
Definition set_queue_last x (r : ptable) : ptable :=
  mkPtable (pt_proc r) (queue_first r) x.
Definition set_p_data x (r : pipe) : pipe :=
  mkPipe x (nread r) (nwrite r) (readopen r) (writeopen r).
Definition set_nread x (r : pipe) : pipe :=
  mkPipe (p_data r) x (nwrite r) (readopen r) (writeopen r).
Definition set_nwrite x (r : pipe) : pipe :=
  mkPipe (p_data r) (nread r) x (readopen r) (writeopen r).
Definition set_readopen x (r : pipe) : pipe :=
  mkPipe (p_data r) (nread r) (nwrite r) x (writeopen r).
Definition set_writeopen x (r : pipe) : pipe :=
  mkPipe (p_data r) (nread r) (nwrite r) (readopen r) x.
Definition set_f_type x (r : file) : file :=
  mkFile x (f_ref r) (readable r) (writable r) (f_pipe r) (f_ip r) (f_off r).
Definition set_f_ref x (r : file) : file :=
  mkFile (f_type r) x (readable r) (writable r) (f_pipe r) (f_ip r) (f_off r).
Definition set_readable x (r : file) : file :=
  mkFile (f_type r) (f_ref r) x (writable r) (f_pipe r) (f_ip r) (f_off r).
Definition set_writable x (r : file) : file :=
  mkFile (f_type r) (f_ref r) (readable r) x (f_pipe r) (f_ip r) (f_off r).
Definition set_f_pipe x (r : file) : file :=
  mkFile (f_type r) (f_ref r) (readable r) (writable r) x (f_ip r) (f_off r).
Definition set_f_ip x (r : file) : file :=
  mkFile (f_type r) (f_ref r) (readable r) (writable r) (f_pipe r) x (f_off r).
Definition set_f_off x (r : file) : file :=
  mkFile (f_type r) (f_ref r) (readable r) (writable r) (f_pipe r) (f_ip r) x.
Definition set_sl_locked x (r : sleeplock) : sleeplock :=
  mkSleeplock x (sl_name r) (sl_pid r).
Definition set_sl_pid x (r : sleeplock) : sleeplock :=
  mkSleeplock (sl_locked r) (sl_name r) x.
Definition set_b_flags x (r : buf) : buf :=
  mkBuf x (b_dev r) (blockno r) (refcnt r) (b_prev r) (b_next r) (qnext r) (b_data r).
Definition set_b_dev x (r : buf) : buf :=
  mkBuf (b_flags r) x (blockno r) (refcnt r) (b_prev r) (b_next r) (qnext r) (b_data r).
Definition set_blockno x (r : buf) : buf :=
  mkBuf (b_flags r) (b_dev r) x (refcnt r) (b_prev r) (b_next r) (qnext r) (b_data r).
Definition set_refcnt x (r : buf) : buf :=
  mkBuf (b_flags r) (b_dev r) (blockno r) x (b_prev r) (b_next r) (qnext r) (b_data r).
Definition set_b_prev x (r : buf) : buf :=
  mkBuf (b_flags r) (b_dev r) (blockno r) (refcnt r) x (b_next r) (qnext r) (b_data r).
Definition set_b_next x (r : buf) : buf :=
  mkBuf (b_flags r) (b_dev r) (blockno r) (refcnt r) (b_prev r) x (qnext r) (b_data r).
Definition set_qnext x (r : buf) : buf :=
  mkBuf (b_flags r) (b_dev r) (blockno r) (refcnt r) (b_prev r) (b_next r) x (b_data r).
Definition set_b_data x (r : buf) : buf :=
  mkBuf (b_flags r) (b_dev r) (blockno r) (refcnt r) (b_prev r) (b_next r) (qnext r) x.
Definition set_l_start x (r : log) : log :=
  mkLog x (l_size r) (outstanding r) (committing r) (l_dev r) (lh_n r) (lh_block r).
Definition set_l_size x (r : log) : log :=
  mkLog (l_start r) x (outstanding r) (committing r) (l_dev r) (lh_n r) (lh_block r).
Definition set_outstanding x (r : log) : log :=
  mkLog (l_start r) (l_size r) x (committing r) (l_dev r) (lh_n r) (lh_block r).
Definition set_committing x (r : log) : log :=
  mkLog (l_start r) (l_size r) (outstanding r) x (l_dev r) (lh_n r) (lh_block r).
Definition set_l_dev x (r : log) : log :=
  mkLog (l_start r) (l_size r) (outstanding r) (committing r) x (lh_n r) (lh_block r).
Definition set_lh_n x (r : log) : log :=
  mkLog (l_start r) (l_size r) (outstanding r) (committing r) (l_dev r) x (lh_block r).
Definition set_lh_block x (r : log) : log :=
  mkLog (l_start r) (l_size r) (outstanding r) (committing r) (l_dev r) (lh_n r) x.
Definition set_i_dev x (r : inode) : inode :=
  mkInode x (inum r) (i_ref r) (i_valid r) (i_type r) (major r) (minor r) (nlink r) (i_size r) (addrs r).
Definition set_inum x (r : inode) : inode :=
  mkInode (i_dev r) x (i_ref r) (i_valid r) (i_type r) (major r) (minor r) (nlink r) (i_size r) (addrs r).
Definition set_i_ref x (r : inode) : inode :=
  mkInode (i_dev r) (inum r) x (i_valid r) (i_type r) (major r) (minor r) (nlink r) (i_size r) (addrs r).
Definition set_i_valid x (r : inode) : inode :=
  mkInode (i_dev r) (inum r) (i_ref r) x (i_type r) (major r) (minor r) (nlink r) (i_size r) (addrs r).
Definition set_i_type x (r : inode) : inode :=
  mkInode (i_dev r) (inum r) (i_ref r) (i_valid r) x (major r) (minor r) (nlink r) (i_size r) (addrs r).
Definition set_major x (r : inode) : inode :=
  mkInode (i_dev r) (inum r) (i_ref r) (i_valid r) (i_type r) x (minor r) (nlink r) (i_size r) (addrs r).
Definition set_minor x (r : inode) : inode :=
  mkInode (i_dev r) (inum r) (i_ref r) (i_valid r) (i_type r) (major r) x (nlink r) (i_size r) (addrs r).
Definition set_nlink x (r : inode) : inode :=
  mkInode (i_dev r) (inum r) (i_ref r) (i_valid r) (i_type r) (major r) (minor r) x (i_size r) (addrs r).
Definition set_i_size x (r : inode) : inode :=
  mkInode (i_dev r) (inum r) (i_ref r) (i_valid r) (i_type r) (major r) (minor r) (nlink r) x (addrs r).
Definition set_addrs x (r : inode) : inode :=
  mkInode (i_dev r) (inum r) (i_ref r) (i_valid r) (i_type r) (major r) (minor r) (nlink r) (i_size r) x.
Definition set_in_buf x (r : console) : console :=
  mkConsole x (in_r r) (in_w r) (in_e r) (c_locking r) (panicked r) (crt r) (crt_pos r) (uart_out r).
Definition set_in_r x (r : console) : console :=
  mkConsole (in_buf r) x (in_w r) (in_e r) (c_locking r) (panicked r) (crt r) (crt_pos r) (uart_out r).
Definition set_in_w x (r : console) : console :=
  mkConsole (in_buf r) (in_r r) x (in_e r) (c_locking r) (panicked r) (crt r) (crt_pos r) (uart_out r).
Definition set_in_e x (r : console) : console :=
  mkConsole (in_buf r) (in_r r) (in_w r) x (c_locking r) (panicked r) (crt r) (crt_pos r) (uart_out r).
Definition set_c_locking x (r : console) : console :=
  mkConsole (in_buf r) (in_r r) (in_w r) (in_e r) x (panicked r) (crt r) (crt_pos r) (uart_out r).
Definition set_panicked x (r : console) : console :=
  mkConsole (in_buf r) (in_r r) (in_w r) (in_e r) (c_locking r) x (crt r) (crt_pos r) (uart_out r).
Definition set_crt x (r : console) : console :=
  mkConsole (in_buf r) (in_r r) (in_w r) (in_e r) (c_locking r) (panicked r) x (crt_pos r) (uart_out r).
Definition set_crt_pos x (r : console) : console :=
  mkConsole (in_buf r) (in_r r) (in_w r) (in_e r) (c_locking r) (panicked r) (crt r) x (uart_out r).
Definition set_uart_out x (r : console) : console :=
  mkConsole (in_buf r) (in_r r) (in_w r) (in_e r) (c_locking r) (panicked r) (crt r) (crt_pos r) x.
Definition set_k_hw x (r : kernel) : kernel :=
  mkKernel x (k_mem r) (k_use_lock r) (k_freelist r) (k_pt r) (k_initproc r) (k_nextpid r) (k_first r) (k_ticks r) (k_kpgdir r) (k_pipes r) (k_ftable r) (k_sleeplocks r) (k_bufs r) (k_disk r) (k_writes r) (k_idequeue r) (k_log r) (k_sb r) (k_icache r) (k_cons r).
Definition set_k_mem x (r : kernel) : kernel :=
  mkKernel (k_hw r) x (k_use_lock r) (k_freelist r) (k_pt r) (k_initproc r) (k_nextpid r) (k_first r) (k_ticks r) (k_kpgdir r) (k_pipes r) (k_ftable r) (k_sleeplocks r) (k_bufs r) (k_disk r) (k_writes r) (k_idequeue r) (k_log r) (k_sb r) (k_icache r) (k_cons r).
Definition set_k_use_lock x (r : kernel) : kernel :=
  mkKernel (k_hw r) (k_mem r) x (k_freelist r) (k_pt r) (k_initproc r) (k_nextpid r) (k_first r) (k_ticks r) (k_kpgdir r) (k_pipes r) (k_ftable r) (k_sleeplocks r) (k_bufs r) (k_disk r) (k_writes r) (k_idequeue r) (k_log r) (k_sb r) (k_icache r) (k_cons r).
Definition set_k_freelist x (r : kernel) : kernel :=
  mkKernel (k_hw r) (k_mem r) (k_use_lock r) x (k_pt r) (k_initproc r) (k_nextpid r) (k_first r) (k_ticks r) (k_kpgdir r) (k_pipes r) (k_ftable r) (k_sleeplocks r) (k_bufs r) (k_disk r) (k_writes r) (k_idequeue r) (k_log r) (k_sb r) (k_icache r) (k_cons r).
Definition set_k_pt x (r : kernel) : kernel :=
  mkKernel (k_hw r) (k_mem r) (k_use_lock r) (k_freelist r) x (k_initproc r) (k_nextpid r) (k_first r) (k_ticks r) (k_kpgdir r) (k_pipes r) (k_ftable r) (k_sleeplocks r) (k_bufs r) (k_disk r) (k_writes r) (k_idequeue r) (k_log r) (k_sb r) (k_icache r) (k_cons r).
Definition set_k_initproc x (r : kernel) : kernel :=
  mkKernel (k_hw r) (k_mem r) (k_use_lock r) (k_freelist r) (k_pt r) x (k_nextpid r) (k_first r) (k_ticks r) (k_kpgdir r) (k_pipes r) (k_ftable r) (k_sleeplocks r) (k_bufs r) (k_disk r) (k_writes r) (k_idequeue r) (k_log r) (k_sb r) (k_icache r) (k_cons r).
Definition set_k_nextpid x (r : kernel) : kernel :=
  mkKernel (k_hw r) (k_mem r) (k_use_lock r) (k_freelist r) (k_pt r) (k_initproc r) x (k_first r) (k_ticks r) (k_kpgdir r) (k_pipes r) (k_ftable r) (k_sleeplocks r) (k_bufs r) (k_disk r) (k_writes r) (k_idequeue r) (k_log r) (k_sb r) (k_icache r) (k_cons r).
Definition set_k_first x (r : kernel) : kernel :=
  mkKernel (k_hw r) (k_mem r) (k_use_lock r) (k_freelist r) (k_pt r) (k_initproc r) (k_nextpid r) x (k_ticks r) (k_kpgdir r) (k_pipes r) (k_ftable r) (k_sleeplocks r) (k_bufs r) (k_disk r) (k_writes r) (k_idequeue r) (k_log r) (k_sb r) (k_icache r) (k_cons r).
Definition set_k_ticks x (r : kernel) : kernel :=
  mkKernel (k_hw r) (k_mem r) (k_use_lock r) (k_freelist r) (k_pt r) (k_initproc r) (k_nextpid r) (k_first r) x (k_kpgdir r) (k_pipes r) (k_ftable r) (k_sleeplocks r) (k_bufs r) (k_disk r) (k_writes r) (k_idequeue r) (k_log r) (k_sb r) (k_icache r) (k_cons r).
Definition set_k_kpgdir x (r : kernel) : kernel :=
  mkKernel (k_hw r) (k_mem r) (k_use_lock r) (k_freelist r) (k_pt r) (k_initproc r) (k_nextpid r) (k_first r) (k_ticks r) x (k_pipes r) (k_ftable r) (k_sleeplocks r) (k_bufs r) (k_disk r) (k_writes r) (k_idequeue r) (k_log r) (k_sb r) (k_icache r) (k_cons r).
Definition set_k_pipes x (r : kernel) : kernel :=
  mkKernel (k_hw r) (k_mem r) (k_use_lock r) (k_freelist r) (k_pt r) (k_initproc r) (k_nextpid r) (k_first r) (k_ticks r) (k_kpgdir r) x (k_ftable r) (k_sleeplocks r) (k_bufs r) (k_disk r) (k_writes r) (k_idequeue r) (k_log r) (k_sb r) (k_icache r) (k_cons r).
Definition set_k_ftable x (r : kernel) : kernel :=
  mkKernel (k_hw r) (k_mem r) (k_use_lock r) (k_freelist r) (k_pt r) (k_initproc r) (k_nextpid r) (k_first r) (k_ticks r) (k_kpgdir r) (k_pipes r) x (k_sleeplocks r) (k_bufs r) (k_disk r) (k_writes r) (k_idequeue r) (k_log r) (k_sb r) (k_icache r) (k_cons r).
Definition set_k_sleeplocks x (r : kernel) : kernel :=
  mkKernel (k_hw r) (k_mem r) (k_use_lock r) (k_freelist r) (k_pt r) (k_initproc r) (k_nextpid r) (k_first r) (k_ticks r) (k_kpgdir r) (k_pipes r) (k_ftable r) x (k_bufs r) (k_disk r) (k_writes r) (k_idequeue r) (k_log r) (k_sb r) (k_icache r) (k_cons r).
Definition set_k_bufs x (r : kernel) : kernel :=
  mkKernel (k_hw r) (k_mem r) (k_use_lock r) (k_freelist r) (k_pt r) (k_initproc r) (k_nextpid r) (k_first r) (k_ticks r) (k_kpgdir r) (k_pipes r) (k_ftable r) (k_sleeplocks r) x (k_disk r) (k_writes r) (k_idequeue r) (k_log r) (k_sb r) (k_icache r) (k_cons r).
Definition set_k_disk x (r : kernel) : kernel :=
  mkKernel (k_hw r) (k_mem r) (k_use_lock r) (k_freelist r) (k_pt r) (k_initproc r) (k_nextpid r) (k_first r) (k_ticks r) (k_kpgdir r) (k_pipes r) (k_ftable r) (k_sleeplocks r) (k_bufs r) x (k_writes r) (k_idequeue r) (k_log r) (k_sb r) (k_icache r) (k_cons r).
Definition set_k_writes x (r : kernel) : kernel :=
  mkKernel (k_hw r) (k_mem r) (k_use_lock r) (k_freelist r) (k_pt r) (k_initproc r) (k_nextpid r) (k_first r) (k_ticks r) (k_kpgdir r) (k_pipes r) (k_ftable r) (k_sleeplocks r) (k_bufs r) (k_disk r) x (k_idequeue r) (k_log r) (k_sb r) (k_icache r) (k_cons r).
Definition set_k_idequeue x (r : kernel) : kernel :=
  mkKernel (k_hw r) (k_mem r) (k_use_lock r) (k_freelist r) (k_pt r) (k_initproc r) (k_nextpid r) (k_first r) (k_ticks r) (k_kpgdir r) (k_pipes r) (k_ftable r) (k_sleeplocks r) (k_bufs r) (k_disk r) (k_writes r) x (k_log r) (k_sb r) (k_icache r) (k_cons r).
Definition set_k_log x (r : kernel) : kernel :=
  mkKernel (k_hw r) (k_mem r) (k_use_lock r) (k_freelist r) (k_pt r) (k_initproc r) (k_nextpid r) (k_first r) (k_ticks r) (k_kpgdir r) (k_pipes r) (k_ftable r) (k_sleeplocks r) (k_bufs r) (k_disk r) (k_writes r) (k_idequeue r) x (k_sb r) (k_icache r) (k_cons r).
Definition set_k_sb x (r : kernel) : kernel :=
  mkKernel (k_hw r) (k_mem r) (k_use_lock r) (k_freelist r) (k_pt r) (k_initproc r) (k_nextpid r) (k_first r) (k_ticks r) (k_kpgdir r) (k_pipes r) (k_ftable r) (k_sleeplocks r) (k_bufs r) (k_disk r) (k_writes r) (k_idequeue r) (k_log r) x (k_icache r) (k_cons r).
Definition set_k_icache x (r : kernel) : kernel :=
  mkKernel (k_hw r) (k_mem r) (k_use_lock r) (k_freelist r) (k_pt r) (k_initproc r) (k_nextpid r) (k_first r) (k_ticks r) (k_kpgdir r) (k_pipes r) (k_ftable r) (k_sleeplocks r) (k_bufs r) (k_disk r) (k_writes r) (k_idequeue r) (k_log r) (k_sb r) x (k_cons r).
Definition set_k_cons x (r : kernel) : kernel :=
  mkKernel (k_hw r) (k_mem r) (k_use_lock r) (k_freelist r) (k_pt r) (k_initproc r) (k_nextpid r) (k_first r) (k_ticks r) (k_kpgdir r) (k_pipes r) (k_ftable r) (k_sleeplocks r) (k_bufs r) (k_disk r) (k_writes r) (k_idequeue r) (k_log r) (k_sb r) (k_icache r) x.

(** A kernel routine that returns an [A]. *)
Definition K (A : Type) : Type := kernel -> outcome kernel A.

Definition upd_hw (f : hw -> hw) (s : kernel) : kernel := set_k_hw (f (k_hw s)) s.

(** Updates of different components of the state commute with lookups of the others. *)
Lemma set_k_hw_twice h h' s : set_k_hw h' (set_k_hw h s) = set_k_hw h' s.
Proof. done. Qed.

Lemma set_k_hw_id s : set_k_hw (k_hw s) s = s.
Proof. by destruct s. Qed.

Lemma set_k_pt_id s : set_k_pt (k_pt s) s = s.
Proof. by destruct s. Qed.

(** Addresses fixed by the linker script [kernel.ld]: the end of the kernel
    image, the start of its writable data, and the code addresses stored in
    the first context of a process.  The kernel is linked above [KERNLINK]. *)
Class Linkage := {
  kend : Z;
  data_sym : Z;
  trapret_addr : Z;
  forkret_addr : Z;
  kend_range : KERNLINK < kend < KERNBASE + PHYSTOP;
  data_range : KERNLINK < data_sym <= kend;
  data_aligned : data_sym mod PGSIZE = 0 }.

Definition upd_mem (f : gmap Z Z -> gmap Z Z) (s : kernel) : kernel := set_k_mem (f (k_mem s)) s.

(** The kernel's data as the loader leaves it, on the machine [h]. *)
Definition kernel_zero (h : hw) : kernel :=
  mkKernel h ∅ false 0 ptable_zero None 1 true 0 0 ∅ (replicate NFILE file_zero)
    ∅ (replicate (S NBUF) buf_zero) [] [] None log_zero (mkSuperblock 0 0 0 0 0 0 0)
    (replicate NINODE inode_zero) console_zero.

(** A linkage with the kernel image in the first megabytes. *)
Definition demo_linkage : Linkage.
Proof.
  refine {| kend := 0x801154a8; data_sym := 0x80109000; trapret_addr := 0x80105a2e;
            forkret_addr := 0x80103ae0 |}; 
    first [reflexivity | unfold KERNLINK, PHYSTOP, KERNBASE, EXTMEM; lia].
Defined.
