(* ===== verification/Protect.v ===== *)
(** * Protection: segments, gates and the task state

    The descriptors of [kernel/mmu.h], and the code that fills the tables the
    processor consults when it enters the kernel: [seginit] and the task state
    of [switchuvm] ([kernel/vm.c]), [tvinit] and [idtinit] ([kernel/trap.c]).
    The tables are lists of C structs; [pack] lays the bit fields out in the 64
    bits the processor reads.  The processor's side is written down from its
    manual: which fields of a descriptor it looks at, what it checks, and where
    it continues.  The theorems say which entries a user program can use. *)
From S2P Require Import Prelude Types.

Section code.
Implicit Types (base lim dpl off sel : Z).

(** ** [mmu.h] *)
Definition SEG_KCODE : Z := 1.
Definition SEG_KDATA : Z := 2.
Definition SEG_TSS : Z := 5.
Definition NSEGS : nat := 6.
Definition STA_X : Z := 0x8.
Definition STA_W : Z := 0x2.
Definition STA_R : Z := 0x2.
Definition STS_T32A : Z := 0x9.
Definition STS_IG32 : Z := 0xE.
Definition STS_TG32 : Z := 0xF.

Record segdesc := mkSegdesc {
  sd_lim_15_0 : Z; sd_base_15_0 : Z; sd_base_23_16 : Z; sd_type : Z; sd_s : Z; sd_dpl : Z; sd_p : Z;
  sd_lim_19_16 : Z; sd_avl : Z; sd_rsv1 : Z; sd_db : Z; sd_g : Z; sd_base_31_24 : Z }.
Definition SEG type base lim dpl : segdesc :=
  mkSegdesc (Z.land (Z.shiftr lim 12) 0xffff) (Z.land (u32 base) 0xffff) (Z.land (Z.shiftr (u32 base) 16) 0xff) type 1 dpl 1
    (Z.shiftr (u32 lim) 28) 0 0 1 1 (Z.shiftr (u32 base) 24).
Definition SEG16 type base lim dpl : segdesc :=
  mkSegdesc (Z.land lim 0xffff) (Z.land (u32 base) 0xffff) (Z.land (Z.shiftr (u32 base) 16) 0xff) type 1 dpl 1
    (Z.shiftr (u32 lim) 16) 0 0 1 0 (Z.shiftr (u32 base) 24).

Record gatedesc := mkGatedesc {
  gd_off_15_0 : Z; gd_cs : Z; gd_args : Z; gd_rsv1 : Z; gd_type : Z; gd_s : Z; gd_dpl : Z; gd_p : Z; gd_off_31_16 : Z }.
Definition SETGATE (istrap : bool) sel off (d : Z) : gatedesc :=
  mkGatedesc (Z.land (u32 off) 0xffff) sel 0 0 (if istrap then STS_TG32 else STS_IG32) 0 d 1 (Z.shiftr (u32 off) 16).

(** [struct taskstate]: the fields the kernel sets, of 104 bytes. *)
Record taskstate := mkTaskstate { ts_esp0 : Z; ts_ss0 : Z; ts_iomb : Z }.
Definition sizeof_taskstate : Z := 104.

(** ** [trap.c] and [vm.c] *)
Fixpoint fill_idt (vectors : Z -> Z) (n : nat) (i : Z) (idt : list gatedesc) : list gatedesc :=
  match n with
  | O => idt
  | S n' => fill_idt vectors n' (i + 1) (<[Z.to_nat i := SETGATE false (Z.shiftl SEG_KCODE 3) (vectors i) 0]> idt)
  end.
(** The table; the initialisation of [tickslock] is left out. *)
Definition tvinit (vectors : Z -> Z) (idt : list gatedesc) : list gatedesc :=
  <[Z.to_nat T_SYSCALL := SETGATE true (Z.shiftl SEG_KCODE 3) (vectors T_SYSCALL) DPL_USER]> (fill_idt vectors 256 0 idt).

(** The limit that [lidt] and [lgdt] load: [pd[0]]. *)
Definition table_limit (size : Z) : Z := (size - 1) mod 2 ^ 16.
Definition idtinit (idt : list gatedesc) : Z := table_limit (8 * Z.of_nat (length idt)).

Definition seginit (gdt : list segdesc) : list segdesc * Z :=
  let gdt := <[Z.to_nat SEG_KCODE := SEG (Z.lor STA_X STA_R) 0 0xffffffff 0]> gdt in
  let gdt := <[Z.to_nat SEG_KDATA := SEG STA_W 0 0xffffffff 0]> gdt in
  let gdt := <[Z.to_nat SEG_UCODE := SEG (Z.lor STA_X STA_R) 0 0xffffffff DPL_USER]> gdt in
  let gdt := <[Z.to_nat SEG_UDATA := SEG STA_W 0 0xffffffff DPL_USER]> gdt in
  (gdt, table_limit (8 * Z.of_nat (length gdt))).

(** [switchuvm]: the descriptor of the task state at address [ts], the task
    state, and the selector [ltr] loads. *)
Definition set_sd_s (v : Z) (d : segdesc) : segdesc :=
  mkSegdesc (sd_lim_15_0 d) (sd_base_15_0 d) (sd_base_23_16 d) (sd_type d) v (sd_dpl d) (sd_p d)
    (sd_lim_19_16 d) (sd_avl d) (sd_rsv1 d) (sd_db d) (sd_g d) (sd_base_31_24 d).
Definition set_tss (ts kstack : Z) (gdt : list segdesc) : list segdesc * taskstate * Z :=
  let gdt := <[Z.to_nat SEG_TSS := SEG16 STS_T32A ts (sizeof_taskstate - 1) 0]> gdt in
  let gdt := alter (set_sd_s 0) (Z.to_nat SEG_TSS) gdt in
  (gdt, mkTaskstate (u32 (kstack + KSTACKSIZE)) (Z.shiftl SEG_KDATA 3) 0xFFFF, Z.shiftl SEG_TSS 3).
End code.

(** ** Bit fields *)
(** Fields of a width and a value, the first in the lowest bits. *)
Fixpoint pack (l : list (Z * Z)) : Z :=
  match l with [] => 0 | (w, v) :: l' => v mod 2 ^ w + 2 ^ w * pack l' end.
Definition seg_word (d : segdesc) : Z :=
  pack [(16, sd_lim_15_0 d); (16, sd_base_15_0 d); (8, sd_base_23_16 d); (4, sd_type d); (1, sd_s d); (2, sd_dpl d); (1, sd_p d);
    (4, sd_lim_19_16 d); (1, sd_avl d); (1, sd_rsv1 d); (1, sd_db d); (1, sd_g d); (8, sd_base_31_24 d)].
Definition gate_word (g : gatedesc) : Z :=
  pack [(16, gd_off_15_0 g); (16, gd_cs g); (5, gd_args g); (3, gd_rsv1 g); (4, gd_type g); (1, gd_s g); (2, gd_dpl g); (1, gd_p g); (16, gd_off_31_16 g)].

(** ** The processor *)
Definition bits (w lo n : Z) : Z := (w / 2 ^ lo) mod 2 ^ n.
(** A segment descriptor: its base, the last byte it covers, its type with the
    bit that tells segments of programs, its privilege level, and presence. *)
Definition x_base (w : Z) : Z := bits w 16 16 + 2 ^ 16 * bits w 32 8 + 2 ^ 24 * bits w 56 8.
Definition x_limit (w : Z) : Z :=
  let l := bits w 0 16 + 2 ^ 16 * bits w 48 4 in if bits w 55 1 =? 1 then l * 4096 + 4095 else l.
Definition x_type (w : Z) : Z := bits w 40 5.
Definition x_dpl (w : Z) : Z := bits w 45 2.
Definition x_present (w : Z) : bool := bits w 47 1 =? 1.
(** A gate: the selector and the address of its handler. *)
Definition x_sel (w : Z) : Z := bits w 16 16.
Definition x_off (w : Z) : Z := bits w 0 16 + 2 ^ 16 * bits w 48 16.

(** The processor: its tables and their limits, the task register, and the
    task states in memory, by linear address. *)
Record x86 := mkX86 { x_idt : list Z; x_idt_limit : Z; x_gdt : list Z; x_gdt_limit : Z; x_tr : Z; x_mem : gmap Z taskstate }.
Record xregs := mkXregs { r_cs : Z; r_eip : Z; r_ss : Z; r_esp : Z; r_if : bool; r_iopl : Z }.
Definition cpl (r : xregs) : Z := r_cs r mod 4.

Definition lookup_desc (t : list Z) (limit i : Z) : option Z :=
  if (0 <=? i) && (8 * i + 7 <=? limit) then t !! Z.to_nat i else None.
(** The task state is read at the base of a present descriptor of a 32-bit task. *)
Definition x_task (c : x86) : option taskstate :=
  w ← lookup_desc (x_gdt c) (x_gdt_limit c) (x_tr c / 8);
  if x_present w && ((x_type w =? 9) || (x_type w =? 11)) && (103 <=? x_limit w) then x_mem c !! x_base w else None.

(** A stack segment for privilege level [l]: present, writable data of that level. *)
Definition x_stack_ok (c : x86) (ss l : Z) : bool :=
  match lookup_desc (x_gdt c) (x_gdt_limit c) (ss / 8) with
  | Some w => x_present w && (x_type w / 8 =? 2) && (x_type w / 2 mod 2 =? 1) && (x_dpl w =? l) && (ss mod 4 =? l)
  | None => false
  end.

(** Delivery of interrupt [n], by an [int] instruction if [soft]: the registers
    the handler starts with, or the number of the exception that is raised
    instead. *)
Definition deliver (c : x86) (soft : bool) (n : Z) (r : xregs) : xregs + Z :=
  match lookup_desc (x_idt c) (x_idt_limit c) n with
  | None => inr 13
  | Some g =>
      if negb ((x_type g =? 14) || (x_type g =? 15)) then inr 13 else
      if soft && (x_dpl g <? cpl r) then inr 13 else
      if negb (x_present g) then inr 11 else
      if x_sel g / 4 =? 0 then inr 13 else
      match lookup_desc (x_gdt c) (x_gdt_limit c) (x_sel g / 8) with
      | None => inr 13
      | Some d =>
          if negb (24 <=? x_type d) || (cpl r <? x_dpl d) then inr 13 else
          if negb (x_present d) then inr 11 else
          let level := if 28 <=? x_type d then cpl r else x_dpl d in
          let intr := r_if r && negb (x_type g =? 14) in
          let cs := x_sel g / 4 * 4 + level in
          if level <? cpl r then
            match x_task c with
            | Some t =>
                if x_stack_ok c (ts_ss0 t) level then inl (mkXregs cs (x_off g) (ts_ss0 t) (ts_esp0 t) intr (r_iopl r)) else inr 10
            | None => inr 10
            end
          else inl (mkXregs cs (x_off g) (r_ss r) (r_esp r) intr (r_iopl r))
      end
  end.
(** An exception is delivered in its turn. *)
Definition user_int (c : x86) (n : Z) (r : xregs) : xregs + Z :=
  match deliver c true n r with inl r' => inl r' | inr e => deliver c false e r end.
(** Whether a port may be used: by privilege, or by the bit map, which has to lie
    within the task state. *)
Definition io_possible (c : x86) (port : Z) (r : xregs) : bool :=
  (cpl r <=? r_iopl r) ||
  match lookup_desc (x_gdt c) (x_gdt_limit c) (x_tr c / 8) with
  | Some w => match x_mem c !! x_base w with Some t => ts_iomb t + port / 8 + 1 <=? x_limit w | None => false end
  | None => false
  end.

(** ** What the tables say *)
Section tables.
Implicit Types (l : list (Z * Z)) (w v lo n : Z).

Definition offset l (k : nat) : Z := foldr Z.add 0 (take k l).*1.
Lemma offset_nonneg l k : Forall (fun p => 0 <= p.1) l -> 0 <= offset l k.
Proof.
  intros Hl. revert k. induction Hl as [|[w v] l Hw _ IH]; intros [|k]; cbn; [lia..|]. specialize (IH k). unfold offset in IH. cbn in Hw. lia.
Qed.
Lemma bits_pack l : Forall (fun p => 0 <= p.1) l -> forall k w v, l !! k = Some (w, v) -> bits (pack l) (offset l k) w = v mod 2 ^ w.
Proof.
  intros Hl. induction Hl as [|[w0 v0] l Hw Hl IH]; intros k w v Hk; [done|]. cbn [fst] in Hw.
  assert (0 < 2 ^ w0) as Hp by (apply Z.pow_pos_nonneg; lia). unfold bits. destruct k as [|k].
  - injection Hk as <- <-. cbn [offset pack]. change (offset ((w0, v0) :: l) 0) with 0. rewrite Z.div_1_r.
    rewrite Z.mul_comm, Z_mod_plus_full. by apply Z.mod_mod; lia.
  - change (offset ((w0, v0) :: l) (S k)) with (w0 + offset l k). pose proof (offset_nonneg l k Hl).
    rewrite Z.pow_add_r by lia. rewrite <- Z.div_div by (apply Z.pow_nonzero || apply Z.pow_pos_nonneg; lia).
    cbn [pack]. rewrite (Z.mul_comm (2 ^ w0)), Z.div_add, (Z.div_small (v0 mod 2 ^ w0)), Z.add_0_l by (try apply Z.mod_pos_bound; lia).
    by apply IH.
Qed.
Lemma bits_field l k lo w v : l !! k = Some (w, v) -> lo = offset l k -> Forall (fun p => 0 <= p.1) l -> bits (pack l) lo w = v mod 2 ^ w.
Proof. intros Hk -> Hl. by apply bits_pack. Qed.
(** Adjacent fields, read together. *)
Lemma bits_join w lo (a b : Z) : 0 <= lo -> 0 <= a -> 0 <= b -> bits w lo (a + b) = bits w lo a + 2 ^ a * bits w (lo + a) b.
Proof.
  intros H1 H2 H3. unfold bits. rewrite !Z.pow_add_r by lia. rewrite <- Z.div_div by (apply Z.pow_nonzero || apply Z.pow_pos_nonneg; lia).
  rewrite Z.rem_mul_r by (apply Z.pow_nonzero || apply Z.pow_pos_nonneg; lia). done.
Qed.
End tables.

(** Reads field [k], of [w] bits from bit [lo] on, of a packed word. *)
Ltac field k lo w := erewrite (bits_field _ k lo w); [|reflexivity|reflexivity|repeat constructor; cbn; lia].

Lemma split_word (x : Z) : 0 <= x < 2 ^ 32 ->
  (Z.land x 0xffff mod 2 ^ 16) + 2 ^ 16 * (Z.shiftr x 16 mod 2 ^ 16) = x.
Proof.
  intros Hx. rewrite Z.shiftr_div_pow2 by lia. rewrite (Z.land_ones _ 16), Z.mod_mod by lia.
  rewrite (Z.mod_small (x / 2 ^ 16)) by (split; [apply Z.div_pos; lia|apply Z.div_lt_upper_bound; lia]).
  pose proof (Z.div_mod x (2 ^ 16)). lia.
Qed.

Lemma split_base (x : Z) : 0 <= x < 2 ^ 32 ->
  Z.land x 0xffff mod 2 ^ 16 + 2 ^ 16 * (Z.land (Z.shiftr x 16) 0xff mod 2 ^ 8) + 2 ^ 24 * (Z.shiftr x 24 mod 2 ^ 8) = x.
Proof.
  intros Hx. rewrite !Z.shiftr_div_pow2 by lia. rewrite (Z.land_ones _ 16), (Z.land_ones _ 8), !Z.mod_mod by lia.
  change (2 ^ 24) with (2 ^ 16 * 2 ^ 8). rewrite <- Z.div_div by lia. change (2 ^ 16) with 65536. change (2 ^ 8) with 256.
  pose proof (Z.div_mod x 65536). pose proof (Z.div_mod (x / 65536) 256). pose proof (Z.mod_pos_bound x 65536).
  pose proof (Z.mod_pos_bound (x / 65536) 256). rewrite (Z.mod_small (x / 65536 / 256)) by lia. lia.
Qed.

(** A gate as the processor sees it. *)
Lemma gate_seen t sel off d : 0 <= sel < 2 ^ 16 -> 0 <= d < 4 -> let g := gate_word (SETGATE t sel off d) in
  x_type g = (if t then 15 else 14) /\ x_dpl g = d /\ x_present g = true /\ x_sel g = sel /\ x_off g = u32 off.
Proof.
  intros Hs Hd g. unfold g, gate_word, SETGATE. cbn [gd_off_15_0 gd_cs gd_args gd_rsv1 gd_type gd_s gd_dpl gd_p gd_off_31_16].
  unfold x_type, x_dpl, x_present, x_sel, x_off. rewrite (bits_join _ 40 4 1) by lia. change (40 + 4) with 44.
  field 4%nat 40 4. field 5%nat 44 1. field 6%nat 45 2. field 7%nat 47 1. field 1%nat 16 16. field 0%nat 0 16. field 8%nat 48 16.
  rewrite split_word by apply u32_range. rewrite (Z.mod_small sel), (Z.mod_small d) by (cbn; lia). by destruct t.
Qed.
(** The descriptor of the task state. *)
Lemma tss_seen ts : let w := seg_word (set_sd_s 0 (SEG16 STS_T32A ts (sizeof_taskstate - 1) 0)) in
  x_type w = 9 /\ x_present w = true /\ x_limit w = 103 /\ x_base w = u32 ts.
Proof.
  intros w. unfold w, seg_word, SEG16, set_sd_s.
  cbn [sd_lim_15_0 sd_base_15_0 sd_base_23_16 sd_type sd_s sd_dpl sd_p sd_lim_19_16 sd_avl sd_rsv1 sd_db sd_g sd_base_31_24].
  unfold x_type, x_present, x_limit, x_base. rewrite (bits_join _ 40 4 1) by lia. change (40 + 4) with 44.
  field 3%nat 40 4. field 4%nat 44 1. field 6%nat 47 1. field 0%nat 0 16. field 7%nat 48 4. field 11%nat 55 1.
  field 1%nat 16 16. field 2%nat 32 8. field 12%nat 56 8. split_and!; [done..|]. apply split_base, u32_range.
Qed.

Lemma fill_idt_length vectors n : forall i idt, length (fill_idt vectors n i idt) = length idt.
Proof. induction n as [|n IH]; intros i idt; [done|]. cbn [fill_idt]. by rewrite IH, length_insert. Qed.
Lemma fill_idt_lookup vectors n : forall i idt k, 0 <= i -> i + Z.of_nat n <= Z.of_nat (length idt) ->
  fill_idt vectors n i idt !! k = if decide (i <= Z.of_nat k < i + Z.of_nat n) then Some (SETGATE false 8 (vectors (Z.of_nat k)) 0) else idt !! k.
Proof.
  induction n as [|n IH]; intros i idt k Hi Hn; cbn [fill_idt]; [by rewrite decide_False by lia|].
  rewrite IH by (rewrite ?length_insert; lia). destruct (decide (i + 1 <= Z.of_nat k < i + 1 + Z.of_nat n)).
  - by rewrite decide_True by lia.
  - destruct (decide (k = Z.to_nat i)) as [->|Hk].
    + rewrite decide_True by lia. rewrite list_lookup_insert_eq by lia. by rewrite Z2Nat.id by lia.
    + rewrite decide_False by lia. rewrite list_lookup_insert_ne by done. done.
Qed.

(** A processor after [tvinit], [idtinit], [seginit] and [switchuvm] to a process
    with the kernel stack [kstack]; [ts] is the address of its task state, in a
    memory that may hold others. *)
Definition booted (vectors : Z -> Z) (ts kstack : Z) (idt : list gatedesc) (gdt : list segdesc) (mem : gmap Z taskstate) : x86 :=
  let idt := tvinit vectors idt in
  let '(gdt, limit) := seginit gdt in
  let '(gdt, tss, tr) := set_tss ts kstack gdt in
  mkX86 (gate_word <$> idt) (idtinit idt) (seg_word <$> gdt) limit tr (<[ts := tss]> mem).

Section booted.
Context (vectors : Z -> Z) (ts kstack : Z) (idt : list gatedesc) (gdt : list segdesc) (mem : gmap Z taskstate).
Hypothesis idt_256 : length idt = 256%nat.
Hypothesis gdt_6 : length gdt = NSEGS.
Hypothesis ts_range : 0 <= ts < 2 ^ 32.
Let c := booted vectors ts kstack idt gdt mem.

Lemma booted_gate n : 0 <= n < 256 -> exists g, lookup_desc (x_idt c) (x_idt_limit c) n = Some g /\
  x_type g = (if n =? T_SYSCALL then 15 else 14) /\ x_dpl g = (if n =? T_SYSCALL then 3 else 0) /\ x_present g = true /\ x_sel g = 8 /\ x_off g = u32 (vectors n).
Proof.
  intros Hn. exists (gate_word (SETGATE (n =? T_SYSCALL) 8 (vectors n) (if n =? T_SYSCALL then 3 else 0))). split.
  - unfold c, booted. cbn [x_idt x_idt_limit seginit set_tss]. unfold idtinit, tvinit, lookup_desc. rewrite length_insert, fill_idt_length, idt_256.
    change (table_limit (8 * Z.of_nat 256)) with 2047. rewrite (proj2 (Z.leb_le 0 n)), (proj2 (Z.leb_le (8 * n + 7) 2047)) by lia. cbn [andb].
    rewrite list_lookup_fmap. destruct (Z.eqb_spec n T_SYSCALL) as [->|Hne].
    + rewrite list_lookup_insert_eq by (rewrite fill_idt_length, idt_256; vm_compute; lia). done.
    + rewrite list_lookup_insert_ne by (unfold T_SYSCALL in *; lia). rewrite fill_idt_lookup, decide_True by (rewrite ?idt_256; lia). by rewrite Z2Nat.id by lia.
  - pose proof (gate_seen (n =? T_SYSCALL) 8 (vectors n) (if n =? T_SYSCALL then 3 else 0)) as Hg. destruct (n =? T_SYSCALL); apply Hg; lia.
Qed.

Lemma booted_seg : exists w0 wu wd, x_gdt c = [w0; seg_word (SEG 10 0 0xffffffff 0); seg_word (SEG 2 0 0xffffffff 0); wu; wd;
    seg_word (set_sd_s 0 (SEG16 STS_T32A ts (sizeof_taskstate - 1) 0))] /\ x_gdt_limit c = 47.
Proof.
  unfold c, booted. unfold NSEGS in gdt_6. destruct gdt as [|g0 [|g1 [|g2 [|g3 [|g4 [|g5 [|g6 l]]]]]]]; cbn in gdt_6; try lia.
  eexists _, _, _. split; reflexivity.
Qed.
Lemma kcode_seen : lookup_desc (x_gdt c) (x_gdt_limit c) 1 = Some (seg_word (SEG 10 0 0xffffffff 0)).
Proof. destruct booted_seg as (w0 & wu & wd & -> & ->). done. Qed.
Lemma kstack_seen : x_stack_ok c 16 0 = true.
Proof. unfold x_stack_ok. destruct booted_seg as (w0 & wu & wd & -> & ->). vm_compute. done. Qed.
Lemma task_seen : x_tr c / 8 = 5 /\ exists w, lookup_desc (x_gdt c) (x_gdt_limit c) 5 = Some w /\ x_type w = 9 /\ x_present w = true /\ x_limit w = 103 /\ x_base w = ts.
Proof.
  split; [done|]. destruct booted_seg as (w0 & wu & wd & -> & ->). eexists. split; [reflexivity|].
  rewrite <- (u32_small ts ts_range) at 5. apply tss_seen.
Qed.
Lemma tss_contents : x_mem c !! ts = Some (mkTaskstate (u32 (kstack + KSTACKSIZE)) 16 0xFFFF).
Proof. apply lookup_insert_eq. Qed.
Lemma booted_task : x_task c = Some (mkTaskstate (u32 (kstack + KSTACKSIZE)) 16 0xFFFF).
Proof.
  destruct task_seen as [Et (w & Hw & E1 & E2 & E3 & E4)]. unfold x_task. rewrite Et, Hw. cbn [mbind option_bind]. by rewrite E1, E2, E3, E4, tss_contents.
Qed.

(** The handler of [n], entered with the registers [r]. *)
Definition entered (n : Z) (r : xregs) : xregs :=
  let user := cpl r =? 3 in
  mkXregs 8 (u32 (vectors n)) (if user then 16 else r_ss r) (if user then u32 (kstack + KSTACKSIZE) else r_esp r)
    (r_if r && (n =? T_SYSCALL)) (r_iopl r).

Lemma deliver_enters soft n r : 0 <= n < 256 -> cpl r = 0 \/ cpl r = 3 ->
  deliver c soft n r = if soft && (cpl r =? 3) && negb (n =? T_SYSCALL) then inr 13 else inl (entered n r).
Proof.
  intros Hn Hr. destruct (booted_gate n Hn) as (g & Eg & Et & Ed & Ep & Es & Eo). unfold deliver. rewrite Eg, Et, Ed, Ep, Es, Eo.
  change (8 / 4 =? 0) with false. change (8 / 8) with 1. change (8 / 4 * 4) with 8. rewrite kcode_seen. cbv zeta.
  assert (let d := seg_word (SEG 10 0 0xffffffff 0) in x_type d = 26 /\ x_dpl d = 0 /\ x_present d = true) as (-> & -> & ->) by (by vm_compute).
  rewrite booted_task. cbn [ts_ss0 ts_esp0]. change (28 <=? 26) with false. cbv iota. rewrite kstack_seen. unfold entered.
  destruct Hr as [Hr|Hr]; rewrite Hr; destruct soft, (n =? T_SYSCALL); done.
Qed.

Lemma no_ports port r : 0 <= port -> cpl r = 3 -> r_iopl r = 0 -> io_possible c port r = false.
Proof.
  intros Hp Hr Hi. unfold io_possible. rewrite Hr, Hi. destruct task_seen as [Et (w & Hw & _ & _ & El & Eb)].
  rewrite Et, Hw, El, Eb, tss_contents. cbn [ts_iomb Z.leb orb Z.compare Pos.compare Pos.compare_cont]. apply Z.leb_gt. pose proof (Z.div_pos port 8). lia.
Qed.
End booted.

(** C38: how the processor enters the kernel from a user program, once [tvinit],
    [seginit] and [switchuvm] have set it up, whatever the tables and the memory
    held before: by an [int n] instruction, only the system-call gate can be
    used, which enters its handler with interrupts as they were; any other [n]
    becomes a general protection fault.  An exception that the processor raises
    itself (a divide error, a page fault) and a device's interrupt enter the
    handler of their own vector, with interrupts off (vector 64, which neither
    uses, apart).  In every case the kernel runs in kernel mode at the top of the
    stack of the process, found through the descriptor of the task state; an
    interrupt taken in the kernel stays on the stack it finds.  With an I/O
    privilege level of 0, as [userinit] sets it up, no port can be used in user
    mode. *)
Theorem user_entry_points vectors ts kstack idt gdt mem n r :
  length idt = 256%nat -> length gdt = NSEGS -> 0 <= ts < 2 ^ 32 -> 0 <= n < 256 ->
  let c := booted vectors ts kstack idt gdt mem in
  (cpl r = 3 -> user_int c n r = inl (entered vectors kstack (if n =? T_SYSCALL then n else 13) r)) /\
  (cpl r = 0 \/ cpl r = 3 -> deliver c false n r = inl (entered vectors kstack n r)) /\
  (cpl r = 3 -> r_iopl r = 0 -> forall port, 0 <= port -> io_possible c port r = false).
Proof.
  intros Hi Hg Hts Hn c. split_and!.
  - intros Hr. unfold user_int, c. rewrite deliver_enters by (done || by right). rewrite Hr. cbn [andb Z.eqb Pos.eqb].
    destruct (n =? T_SYSCALL); cbn [negb]; [done|]. by rewrite deliver_enters by (done || by right).
  - intros Hr. unfold c. by rewrite deliver_enters.
  - intros Hr Hio port Hp. by apply no_ports.
Qed.

Definition demo_booted : x86 :=
  booted (fun n => 0x80106000 + 16 * n) 0x80112000 0x8dff0000 (replicate 256 (SETGATE true 0 0 3)) (replicate NSEGS (SEG 0 0 0 3)) ∅.
Lemma user_entry_points_witness :
  user_int demo_booted 14 (mkXregs 27 0x100 35 0x2000 true 0) = inl (mkXregs 8 0x801060d0 16 0x8dff1000 false 0) /\
  user_int demo_booted 64 (mkXregs 27 0x100 35 0x2000 true 0) = inl (mkXregs 8 0x80106400 16 0x8dff1000 true 0) /\
  deliver demo_booted false 14 (mkXregs 27 0x100 35 0x2000 true 0) = inl (mkXregs 8 0x801060e0 16 0x8dff1000 false 0).
Proof.
  pose proof (fun n => user_entry_points (fun n => 0x80106000 + 16 * n) 0x80112000 0x8dff0000 (replicate 256 (SETGATE true 0 0 3))
    (replicate NSEGS (SEG 0 0 0 3)) ∅ n (mkXregs 27 0x100 35 0x2000 true 0) eq_refl eq_refl ltac:(lia)) as He.
  split_and!; [apply (He 14)|apply (He 64)|apply (He 14)]; (lia || reflexivity || (right; reflexivity)).
Defined.
