(* ===== verification/Str.v ===== *)
(** * Memory and the string routines ([kernel/string.c])

    Memory is a finite map from addresses to bytes.  The section [code]
    transcribes the loops of [string.c] over it, and the theorems relate them
    to reference descriptions of the bytes they leave behind. *)
From S2P Require Import Prelude.

(** ** Memory *)
Definition load8 (m : gmap Z Z) (a : Z) : Z := default 0 (m !! a).
Definition store8 (a v : Z) (m : gmap Z Z) : gmap Z Z := <[a := u8 v]> m.

(** Little-endian 32-bit accesses. *)
Definition load32 (m : gmap Z Z) (a : Z) : Z :=
  load8 m a + 2 ^ 8 * load8 m (a + 1) + 2 ^ 16 * load8 m (a + 2) + 2 ^ 24 * load8 m (a + 3).
Definition store32 (a v : Z) (m : gmap Z Z) : gmap Z Z :=
  store8 (a + 3) (v / 2 ^ 24) (store8 (a + 2) (v / 2 ^ 16) (store8 (a + 1) (v / 2 ^ 8) (store8 a v m))).

(** All bytes are bytes. *)
Definition mem_ok (m : gmap Z Z) : Prop := map_Forall (fun _ v => 0 <= v < 256) m.

(** ** The code of [string.c] *)
Section code.
Implicit Types (m : gmap Z Z) (n : nat).

(** [stosb] and [stosl] of [x86.h]: [rep stosb] and [rep stosl]. *)
Fixpoint stosb (dst c : Z) n m : gmap Z Z :=
  match n with
  | O => m
  | S n' => stosb (dst + 1) c n' (store8 dst c m)
  end.
Fixpoint stosl (dst c : Z) n m : gmap Z Z :=
  match n with
  | O => m
  | S n' => stosl (dst + 4) c n' (store32 dst c m)
  end.

Definition memset (dst c : Z) (n : Z) m : gmap Z Z :=
  if (Z.rem (i32 dst) 4 =? 0) && (n mod 4 =? 0) then
    let c := Z.land c 0xFF in
    let w := Z.lor (Z.lor (Z.lor (Z.shiftl c 24) (Z.shiftl c 16)) (Z.shiftl c 8)) c in
    stosl dst w (Z.to_nat (n / 4)) m
  else stosb dst c (Z.to_nat n) m.

Fixpoint memcmp (s1 s2 : Z) n m : Z :=
  match n with
  | O => 0
  | S n' =>
      if negb (load8 m s1 =? load8 m s2) then load8 m s1 - load8 m s2
      else memcmp (s1 + 1) (s2 + 1) n' m
  end.

(** The backward loop [while(n-- > 0) *--d = *--s;] and the forward one. *)
Fixpoint move_down (d s : Z) n m : gmap Z Z :=
  match n with
  | O => m
  | S n' => move_down (d - 1) (s - 1) n' (store8 (d - 1) (load8 m (s - 1)) m)
  end.
Fixpoint move_up (d s : Z) n m : gmap Z Z :=
  match n with
  | O => m
  | S n' => move_up (d + 1) (s + 1) n' (store8 d (load8 m s) m)
  end.

Definition memmove (dst src : Z) n m : gmap Z Z :=
  if (src <? dst) && (dst <? src + Z.of_nat n) then
    move_down (dst + Z.of_nat n) (src + Z.of_nat n) n m
  else move_up dst src n m.

Definition memcpy (dst src : Z) n m : gmap Z Z := memmove dst src n m.

Fixpoint strncmp (p q : Z) n m : Z :=
  match n with
  | O => 0
  | S n' =>
      if negb (load8 m p =? 0) && (load8 m p =? load8 m q) then strncmp (p + 1) (q + 1) n' m
      else load8 m p - load8 m q
  end.

(** The padding loop of [strncpy]: [while(n-- > 0) *s++ = 0;]. *)
Definition zero_fill (s : Z) n m : gmap Z Z := stosb s 0 n m.

Fixpoint strncpy_loop (s t : Z) n m : gmap Z Z :=
  match n with
  | O => m
  | S n' =>
      let c := load8 m t in
      let m := store8 s c m in
      if c =? 0 then zero_fill (s + 1) n' m else strncpy_loop (s + 1) (t + 1) n' m
  end.
Definition strncpy (s t : Z) (n : Z) m : gmap Z Z := strncpy_loop s t (Z.to_nat n) m.

Fixpoint safestrcpy_loop (s t : Z) n m : gmap Z Z :=
  match n with
  | O => store8 s 0 m
  | S n' =>
      let c := load8 m t in
      let m := store8 s c m in
      if c =? 0 then store8 (s + 1) 0 m else safestrcpy_loop (s + 1) (t + 1) n' m
  end.
Definition safestrcpy (s t : Z) (n : Z) m : gmap Z Z :=
  if n <=? 0 then m else safestrcpy_loop s t (Z.to_nat (n - 1)) m.

(** [strlen], with a bound on the number of bytes examined. *)
Fixpoint strlen_from (fuel : nat) (s : Z) (i : Z) m : option Z :=
  match fuel with
  | O => None
  | S fuel' => if load8 m (s + i) =? 0 then Some i else strlen_from fuel' s (i + 1) m
  end.
Definition strlen (fuel : nat) (s : Z) m : option Z := strlen_from fuel s 0 m.

End code.

(** ** Reading back what was stored *)
Section memory.
Implicit Types (m : gmap Z Z) (a b v : Z).

Lemma load8_store8 m a b v :
  load8 (store8 a v m) b = if decide (a = b) then u8 v else load8 m b.
Proof.
  unfold load8, store8. case_decide; [subst; by rewrite lookup_insert_eq|by rewrite lookup_insert_ne].
Qed.

Lemma load8_range m a : mem_ok m -> 0 <= load8 m a < 256.
Proof.
  intros Hm. unfold load8. destruct (m !! a) as [v|] eqn:E; simpl; [|lia]. by apply (Hm a v).
Qed.

Lemma u8_range v : 0 <= u8 v < 256.
Proof. by apply Z.mod_pos_bound. Qed.

Lemma u8_small v : 0 <= v < 256 -> u8 v = v.
Proof. intros. by apply Z.mod_small. Qed.

Lemma store8_mem_ok m a v : mem_ok m -> mem_ok (store8 a v m).
Proof. intros Hm. apply map_Forall_insert_2; [apply u8_range|done]. Qed.

Lemma store32_mem_ok m a v : mem_ok m -> mem_ok (store32 a v m).
Proof. intros Hm. unfold store32. auto using store8_mem_ok. Qed.

Lemma u8_shift v k : 0 <= k -> u8 (v / 2 ^ k) = v / 2 ^ k mod 2 ^ 8.
Proof. done. Qed.

(** The four bytes of a word. *)
Lemma load8_store32 m a v b :
  load8 (store32 a v m) b =
    if decide (a <= b < a + 4) then u8 (v / 2 ^ (8 * (b - a))) else load8 m b.
Proof.
  unfold store32. rewrite !load8_store8.
  destruct (decide (a <= b < a + 4)) as [Hb|Hb].
  - assert (b = a \/ b = a + 1 \/ b = a + 2 \/ b = a + 3) as [-> | [-> | [-> | ->]]] by lia;
      repeat (rewrite decide_False by lia); rewrite decide_True by lia.
    + by rewrite Z.sub_diag, Z.div_1_r.
    + by replace (a + 1 - a) with 1 by lia.
    + by replace (a + 2 - a) with 2 by lia.
    + by replace (a + 3 - a) with 3 by lia.
  - by repeat (rewrite decide_False by lia).
Qed.

Lemma word_bytes v :
  u8 v + 2 ^ 8 * u8 (v / 2 ^ 8) + 2 ^ 16 * u8 (v / 2 ^ 16) + 2 ^ 24 * u8 (v / 2 ^ 24) = u32 v.
Proof.
  unfold u8, u32. change (2 ^ 32) with (2 ^ 8 * (2 ^ 8 * (2 ^ 8 * 2 ^ 8))).
  rewrite !Z.rem_mul_r, !Z.div_div by lia. change (2 ^ 8 * 2 ^ 8) with (2 ^ 16).
  change (2 ^ 16 * 2 ^ 8) with (2 ^ 24). change (2 ^ 8 * 2 ^ 16) with (2 ^ 24). lia.
Qed.

Lemma load32_store32_eq m a v : load32 (store32 a v m) a = u32 v.
Proof.
  unfold load32. rewrite !load8_store32. repeat (rewrite decide_True by lia).
  rewrite <- word_bytes, Z.sub_diag, Z.div_1_r.
  replace (a + 1 - a) with 1 by lia. replace (a + 2 - a) with 2 by lia.
  by replace (a + 3 - a) with 3 by lia.
Qed.

Lemma load32_ext m m' a :
  (forall b, a <= b < a + 4 -> load8 m' b = load8 m b) -> load32 m' a = load32 m a.
Proof. intros H. unfold load32. by rewrite !H by lia. Qed.

Lemma load32_store32_ne m a b v :
  a + 4 <= b \/ b + 4 <= a -> load32 (store32 a v m) b = load32 m b.
Proof.
  intros H. apply load32_ext. intros c Hc. rewrite load8_store32, decide_False; [done|lia].
Qed.

End memory.

(** ** [memset], [memmove] *)
Section blocks.
Implicit Types (m : gmap Z Z) (n : nat).

Lemma stosb_load8 c n : forall dst m a,
  load8 (stosb dst c n m) a =
    if decide (dst <= a < dst + Z.of_nat n) then u8 c else load8 m a.
Proof.
  induction n as [|n IH]; intros dst m a; simpl stosb.
  { by rewrite decide_False by lia. }
  rewrite IH, load8_store8. by repeat case_decide; try lia.
Qed.

Lemma stosl_load8 w n : forall dst m a,
  load8 (stosl dst w n m) a =
    if decide (dst <= a < dst + 4 * Z.of_nat n) then u8 (w / 2 ^ (8 * ((a - dst) mod 4)))
    else load8 m a.
Proof.
  induction n as [|n IH]; intros dst m a; simpl stosl.
  { by rewrite decide_False by lia. }
  rewrite IH, load8_store32. repeat case_decide; try lia; try done.
  - do 4 f_equal. replace (a - dst) with (a - (dst + 4) + 1 * 4) by lia. by rewrite Z.mod_add.
  - do 3 f_equal. rewrite Z.mod_small; lia.
Qed.

(** Every byte of the word [memset] stores is the fill byte. *)
Lemma fill_word c k :
  0 <= c < 256 -> 0 <= k < 4 ->
  u8 (Z.lor (Z.lor (Z.lor (Z.shiftl c 24) (Z.shiftl c 16)) (Z.shiftl c 8)) c / 2 ^ (8 * k)) = c.
Proof.
  intros Hc Hk. unfold u8. rewrite <- Z.shiftr_div_pow2 by lia. rewrite <- Z.land_ones by lia.
  apply Z.bits_inj'. intros j Hj.
  assert (forall i, 8 <= i -> Z.testbit c i = false) as Hhi.
  { intros i Hi. apply Z.bits_above_log2; [lia|]. destruct (decide (c = 0)) as [->|].
    - rewrite Z.log2_nonpos; lia.
    - assert (Z.log2 c < 8) by (apply Z.log2_lt_pow2; lia). lia. }
  assert (forall i, i < 0 -> Z.testbit c i = false) as Hlo by (intros; by apply Z.testbit_neg_r).
  rewrite Z.land_spec, Z.shiftr_spec, Z.testbit_ones_nonneg, !Z.lor_spec, !Z.shiftl_spec by lia.
  destruct (Z.ltb_spec j 8); [|by rewrite andb_false_r, Hhi by lia].
  rewrite andb_true_r. assert (k = 0 \/ k = 1 \/ k = 2 \/ k = 3) as [-> | [-> | [-> | ->]]] by lia.
  - rewrite (Hlo (j + 8 * 0 - 24)), (Hlo (j + 8 * 0 - 16)), (Hlo (j + 8 * 0 - 8)) by lia.
    simpl. f_equal; lia.
  - rewrite (Hlo (j + 8 * 1 - 24)), (Hlo (j + 8 * 1 - 16)), (Hhi (j + 8 * 1)) by lia.
    rewrite orb_false_r. simpl. f_equal; lia.
  - rewrite (Hlo (j + 8 * 2 - 24)), (Hhi (j + 8 * 2 - 8)), (Hhi (j + 8 * 2)) by lia.
    rewrite !orb_false_r. simpl. f_equal; lia.
  - rewrite (Hhi (j + 8 * 3 - 16)), (Hhi (j + 8 * 3 - 8)), (Hhi (j + 8 * 3)) by lia.
    rewrite !orb_false_r. f_equal; lia.
Qed.

Lemma memset_load8 dst c (n : Z) m a :
  0 <= n ->
  load8 (memset dst c n m) a = if decide (dst <= a < dst + n) then u8 c else load8 m a.
Proof.
  intros Hn. unfold memset. destruct (_ && _) eqn:E.
  - apply andb_true_iff in E as [_ E%Z.eqb_eq].
    assert (n = 4 * (n / 4)) as Hd by (pose proof (Z.div_mod n 4); lia).
    rewrite stosl_load8, Z2Nat.id by (apply Z.div_pos; lia). rewrite <- Hd.
    change 0xFF with (Z.ones 8). rewrite Z.land_ones by lia. fold (u8 c).
    case_decide; [|done]. apply fill_word; [apply u8_range|]. by apply Z.mod_pos_bound.
  - rewrite stosb_load8, Z2Nat.id by done. done.
Qed.

Lemma stosb_mem_ok c n : forall dst m, mem_ok m -> mem_ok (stosb dst c n m).
Proof. induction n; simpl; auto using store8_mem_ok. Qed.

Lemma memset_mem_ok dst c (n : Z) m : mem_ok m -> mem_ok (memset dst c n m).
Proof.
  assert (forall w k d m, mem_ok m -> mem_ok (stosl d w k m)) as H.
  { intros w k. induction k; simpl; auto using store32_mem_ok. }
  intros Hm. unfold memset. destruct (_ && _); auto using stosb_mem_ok.
Qed.

(** A forward copy is right when the destination does not run into the rest of
    the source, a backward copy when the source does not run into the rest of
    the destination. *)
Lemma move_up_load8 n : forall d s m a,
  mem_ok m -> d <= s \/ s + Z.of_nat n <= d ->
  load8 (move_up d s n m) a =
    if decide (d <= a < d + Z.of_nat n) then load8 m (s + (a - d)) else load8 m a.
Proof.
  induction n as [|n IH]; intros d s m a Hm Hds; simpl move_up.
  { by rewrite decide_False by lia. }
  rewrite IH by (auto using store8_mem_ok || lia). rewrite !load8_store8.
  rewrite u8_small by (by apply load8_range).
  repeat case_decide; try lia; try done; f_equal; lia.
Qed.

Lemma move_down_load8 n : forall d s m a,
  mem_ok m -> s <= d \/ d <= s - Z.of_nat n ->
  load8 (move_down d s n m) a =
    if decide (d - Z.of_nat n <= a < d) then load8 m (s - (d - a)) else load8 m a.
Proof.
  induction n as [|n IH]; intros d s m a Hm Hds; simpl move_down.
  { by rewrite decide_False by lia. }
  rewrite IH by (auto using store8_mem_ok || lia). rewrite !load8_store8.
  rewrite u8_small by (by apply load8_range).
  repeat case_decide; try lia; try done; f_equal; lia.
Qed.

Lemma memmove_load8 dst src n m a :
  mem_ok m ->
  load8 (memmove dst src n m) a =
    if decide (dst <= a < dst + Z.of_nat n) then load8 m (src + (a - dst)) else load8 m a.
Proof.
  intros Hm. unfold memmove. destruct (_ && _) eqn:E.
  - apply andb_true_iff in E as [?%Z.ltb_lt ?%Z.ltb_lt].
    rewrite move_down_load8 by (done || lia). repeat case_decide; try lia; try done. f_equal. lia.
  - apply andb_false_iff in E. rewrite move_up_load8; [done|done|].
    destruct E as [?%Z.ltb_ge|?%Z.ltb_ge]; lia.
Qed.

Lemma memmove_mem_ok dst src n m : mem_ok m -> mem_ok (memmove dst src n m).
Proof.
  assert (forall k d s m, mem_ok m -> mem_ok (move_up d s k m)) as H1.
  { induction k; simpl; auto using store8_mem_ok. }
  assert (forall k d s m, mem_ok m -> mem_ok (move_down d s k m)) as H2.
  { induction k; simpl; auto using store8_mem_ok. }
  intros. unfold memmove. destruct (_ && _); auto.
Qed.

End blocks.

(** ** Comparison and bounded string copies *)
Section strings.
Implicit Types (m : gmap Z Z) (n : nat).

(** The bytes of the string at [p], at most [n] of them, without the NUL. *)
Fixpoint cstr (p : Z) n m : list Z :=
  match n with
  | O => []
  | S n' => if load8 m p =? 0 then [] else load8 m p :: cstr (p + 1) n' m
  end.

Lemma memcmp_zero_iff m n : forall s1 s2,
  memcmp s1 s2 n m = 0 <->
  forall i, 0 <= i < Z.of_nat n -> load8 m (s1 + i) = load8 m (s2 + i).
Proof.
  induction n as [|n IH]; intros s1 s2; simpl memcmp; [split; intros; lia|].
  destruct (Z.eqb_spec (load8 m s1) (load8 m s2)) as [E|E]; simpl.
  - rewrite IH. split; intros H i Hi.
    + destruct (decide (i = 0)) as [->|]; [by rewrite !Z.add_0_r|].
      specialize (H (i - 1) ltac:(lia)). by replace (s1 + i) with (s1 + 1 + (i - 1)) by lia;
        replace (s2 + i) with (s2 + 1 + (i - 1)) by lia.
    + specialize (H (i + 1) ltac:(lia)). by replace (s1 + 1 + i) with (s1 + (i + 1)) by lia;
        replace (s2 + 1 + i) with (s2 + (i + 1)) by lia.
  - split; [lia|]. intros H. specialize (H 0 ltac:(lia)). rewrite !Z.add_0_r in H. done.
Qed.

Lemma strncmp_zero m n : forall p q,
  strncmp p q n m = 0 <-> cstr p n m = cstr q n m.
Proof.
  induction n as [|n IH]; intros p q; simpl; [done|].
  destruct (Z.eqb_spec (load8 m p) 0) as [Ep|Ep]; simpl.
  - rewrite Ep. destruct (Z.eqb_spec (load8 m q) 0) as [Eq|Eq]; split; intros; [done|lia|lia|done].
  - destruct (Z.eqb_spec (load8 m p) (load8 m q)) as [E|E].
    + rewrite IH, <- E. destruct (Z.eqb_spec (load8 m p) 0); [done|].
      split; [by intros ->|by intros [= ->]].
    + split; [lia|]. destruct (Z.eqb_spec (load8 m q) 0); [done|]. intros [= ?]. done.
Qed.

(** [strncpy] between disjoint buffers: the string, then zeros. *)
Lemma strncpy_loop_load8 n : forall s t m i,
  mem_ok m -> t + Z.of_nat n <= s \/ s + Z.of_nat n <= t ->
  ~ 0 <= i < Z.of_nat n -> load8 (strncpy_loop s t n m) (s + i) = load8 m (s + i).
Proof.
  induction n as [|n IH]; intros s t m i Hm Hd Hi; simpl strncpy_loop; [done|].
  destruct (_ =? _).
  - unfold zero_fill. rewrite stosb_load8, decide_False, load8_store8, decide_False by lia. done.
  - replace (s + i) with (s + 1 + (i - 1)) by lia.
    rewrite IH by (auto using store8_mem_ok || lia). rewrite load8_store8, decide_False by lia. done.
Qed.

Lemma strncpy_loop_copy n : forall s t m i,
  mem_ok m -> t + Z.of_nat n <= s \/ s + Z.of_nat n <= t -> 0 <= i < Z.of_nat n ->
  (forall j, 0 <= j <= i -> load8 m (t + j) <> 0) ->
  load8 (strncpy_loop s t n m) (s + i) = load8 m (t + i).
Proof.
  induction n as [|n IH]; intros s t m i Hm Hd Hi Hnz; [lia|]. simpl strncpy_loop.
  pose proof (Hnz 0 ltac:(lia)) as H0. rewrite Z.add_0_r in H0.
  destruct (Z.eqb_spec (load8 m t) 0); [done|].
  destruct (decide (i = 0)) as [->|].
  - replace (s + 0) with (s + 1 + (-1)) by lia.
    rewrite strncpy_loop_load8 by (auto using store8_mem_ok || lia).
    rewrite load8_store8, decide_True, u8_small, Z.add_0_r by (lia || by apply load8_range). done.
  - replace (s + i) with (s + 1 + (i - 1)) by lia. rewrite IH; auto using store8_mem_ok; [|lia|lia|].
    + rewrite load8_store8, decide_False by lia. f_equal. lia.
    + intros j Hj. rewrite load8_store8, decide_False by lia.
      replace (t + 1 + j) with (t + (j + 1)) by lia. apply Hnz. lia.
Qed.

Lemma strncpy_loop_pad n : forall s t m i k,
  mem_ok m -> t + Z.of_nat n <= s \/ s + Z.of_nat n <= t -> 0 <= k <= i -> i < Z.of_nat n ->
  load8 m (t + k) = 0 -> load8 (strncpy_loop s t n m) (s + i) = 0.
Proof.
  induction n as [|n IH]; intros s t m i k Hm Hd Hk Hi Hz; [lia|]. simpl strncpy_loop.
  destruct (Z.eqb_spec (load8 m t) 0) as [E|E].
  - unfold zero_fill. rewrite stosb_load8. case_decide; [done|].
    rewrite load8_store8. rewrite decide_True by lia. by rewrite E.
  - destruct (decide (k = 0)) as [->|]; [by rewrite Z.add_0_r in Hz|].
    replace (s + i) with (s + 1 + (i - 1)) by lia.
    apply (IH _ _ _ _ (k - 1)); auto using store8_mem_ok; try lia.
    rewrite load8_store8, decide_False by lia. by replace (t + 1 + (k - 1)) with (t + k) by lia.
Qed.

(** [safestrcpy] always leaves a NUL inside the buffer and writes nothing outside it. *)
Lemma safestrcpy_loop_nul n : forall s t m,
  exists k, 0 <= k <= Z.of_nat n /\ load8 (safestrcpy_loop s t n m) (s + k) = 0.
Proof.
  induction n as [|n IH]; intros s t m; simpl safestrcpy_loop.
  { exists 0. split; [lia|]. by rewrite load8_store8, decide_True by lia. }
  destruct (Z.eqb_spec (load8 m t) 0) as [E|E].
  - exists 0. split; [lia|]. rewrite E, !load8_store8, decide_False, decide_True by lia. done.
  - destruct (IH (s + 1) (t + 1) (store8 s (load8 m t) m)) as (k & Hk & Hz).
    exists (k + 1). split; [lia|]. by replace (s + (k + 1)) with (s + 1 + k) by lia.
Qed.

Lemma safestrcpy_loop_frame n : forall s t m a,
  ~ s <= a <= s + Z.of_nat n -> load8 (safestrcpy_loop s t n m) a = load8 m a.
Proof.
  induction n as [|n IH]; intros s t m a Ha; simpl safestrcpy_loop.
  { by rewrite load8_store8, decide_False by lia. }
  destruct (_ =? _).
  - by rewrite !load8_store8, !decide_False by lia.
  - rewrite IH by lia. by rewrite load8_store8, decide_False by lia.
Qed.

Lemma cstr_ext n : forall p q m m',
  (forall i, 0 <= i < Z.of_nat n -> load8 m (p + i) = load8 m' (q + i)) -> cstr p n m = cstr q n m'.
Proof.
  induction n as [|n IH]; intros p q m m' He; [done|]. cbn [cstr].
  pose proof (He 0 ltac:(lia)) as H0. rewrite !Z.add_0_r in H0. rewrite H0.
  rewrite (IH (p + 1) (q + 1) m m'); [done|]. intros i Hi. rewrite <- !Z.add_assoc. apply He. lia.
Qed.

(** The string [safestrcpy] leaves at its destination. *)
Lemma safestrcpy_loop_cstr n : forall s t m,
  mem_ok m -> t + Z.of_nat (S n) <= s \/ s + Z.of_nat (S n) <= t ->
  cstr s (S n) (safestrcpy_loop s t n m) = cstr t n m.
Proof.
  induction n as [|n IH]; intros s t m Hm Hd.
  { cbn [safestrcpy_loop cstr]. by rewrite load8_store8, decide_True. }
  cbn [safestrcpy_loop]. pose proof (load8_range m t Hm) as Hr.
  assert (forall m', load8 m' s = load8 m t ->
    cstr s (S (S n)) m' = if load8 m t =? 0 then [] else load8 m t :: cstr (s + 1) (S n) m') as Hs.
  { intros m' E. cbn [cstr]. by rewrite E. }
  destruct (Z.eqb_spec (load8 m t) 0) as [E|E].
  - rewrite Hs.
    + cbn [cstr]. by rewrite E.
    + rewrite !load8_store8, decide_False, decide_True by lia. by apply u8_small.
  - rewrite Hs.
    + rewrite IH; [|by apply store8_mem_ok|lia]. cbn [cstr]. destruct (Z.eqb_spec (load8 m t) 0); [done|].
      f_equal. apply cstr_ext. intros i Hi. rewrite load8_store8, decide_False by lia. done.
    + rewrite safestrcpy_loop_frame by lia. rewrite load8_store8, decide_True by done. by apply u8_small.
Qed.

Lemma strlen_from_ok m s fuel : forall i k,
  0 <= i <= k -> (forall j, i <= j < k -> load8 m (s + j) <> 0) -> load8 m (s + k) = 0 ->
  k - i < Z.of_nat fuel -> strlen_from fuel s i m = Some k.
Proof.
  induction fuel as [|fuel IH]; intros i k Hik Hnz Hz Hf; [lia|]. simpl strlen_from.
  destruct (decide (i = k)) as [->|]; [by rewrite Hz|].
  destruct (Z.eqb_spec (load8 m (s + i)) 0); [by destruct (Hnz i ltac:(lia))|].
  apply IH; auto with lia.
Qed.

End strings.

(** ** The main properties *)
Section properties.
Implicit Types (m : gmap Z Z).

(** [memset]: whichever of its two loops runs, the word loop for an aligned
    block or the byte loop, the memory is the same: the byte [c] in the block
    and everything else unchanged. *)
Theorem memset_fills dst c n m a :
  0 <= n ->
  load8 (memset dst c n m) a = (if decide (dst <= a < dst + n) then u8 c else load8 m a) /\
  load8 (memset dst c n m) a = load8 (stosb dst c (Z.to_nat n) m) a.
Proof.
  intros Hn. rewrite memset_load8, stosb_load8, Z2Nat.id by lia. done.
Qed.

Lemma memset_fills_witness : load8 (memset 4096 0x1ff 8 ∅) 4100 = 255 /\
  load8 (memset 4097 7 5 ∅) 4100 = 7.
Proof.
  split.
  - rewrite (proj1 (memset_fills 4096 0x1ff 8 ∅ 4100 ltac:(lia))). reflexivity.
  - rewrite (proj1 (memset_fills 4097 7 5 ∅ 4100 ltac:(lia))). reflexivity.
Defined.

(** [memmove] copies correctly also when the blocks overlap, in either
    direction, and writes nothing outside the destination. *)
Theorem memmove_copies dst src n m a :
  mem_ok m ->
  load8 (memmove dst src n m) a =
    if decide (dst <= a < dst + Z.of_nat n) then load8 m (src + (a - dst)) else load8 m a.
Proof. apply memmove_load8. Qed.

Lemma memmove_copies_witness :
  load8 (memmove 101 100 3 (store8 100 1 (store8 101 2 (store8 102 3 ∅)))) 103 = 3.
Proof.
  rewrite memmove_copies.
  - reflexivity.
  - repeat apply store8_mem_ok. apply map_Forall_empty.
Defined.

(** [safestrcpy(s, t, n)] with room for [n] bytes, [n > 0], writes only into
    those bytes, always leaves a NUL among them, and copies the string at [t]
    up to its NUL or to the last byte but one. *)
Theorem safestrcpy_terminates s t n m :
  mem_ok m -> 0 < n -> t + n <= s \/ s + n <= t ->
  let m' := safestrcpy s t n m in
  (exists k, 0 <= k < n /\ load8 m' (s + k) = 0) /\
  (forall a, ~ s <= a < s + n -> load8 m' a = load8 m a) /\
  cstr s (Z.to_nat n) m' = cstr t (Z.to_nat (n - 1)) m.
Proof.
  intros Hm Hn Hd. cbv zeta. unfold safestrcpy. destruct (Z.leb_spec n 0); [lia|].
  pose proof (Z2Nat.id (n - 1) ltac:(lia)) as En. split_and!.
  - destruct (safestrcpy_loop_nul (Z.to_nat (n - 1)) s t m) as (k & Hk & E). exists k. split; [lia|done].
  - intros a Ha. apply safestrcpy_loop_frame. lia.
  - replace (Z.to_nat n) with (S (Z.to_nat (n - 1))) by lia. apply safestrcpy_loop_cstr; [done|lia].
Qed.

Lemma safestrcpy_terminates_witness :
  cstr 50 3 (safestrcpy 50 100 3 (store8 100 105 (store8 101 110 (store8 102 105 ∅)))) = [105; 110].
Proof.
  destruct (safestrcpy_terminates 50 100 3 (store8 100 105 (store8 101 110 (store8 102 105 ∅)))) as (_ & _ & E).
  - repeat apply store8_mem_ok. apply map_Forall_empty.
  - lia.
  - lia.
  - exact E.
Defined.

(** [strncmp] answers 0 exactly when the two strings agree up to their NUL or
    to [n] bytes, and [memcmp] exactly when all [n] bytes agree. *)
Theorem compare_zero p q n m :
  (strncmp p q n m = 0 <-> cstr p n m = cstr q n m) /\
  (memcmp p q n m = 0 <-> forall i, 0 <= i < Z.of_nat n -> load8 m (p + i) = load8 m (q + i)).
Proof. split; [apply strncmp_zero|apply memcmp_zero_iff]. Qed.

End properties.
