(* ===== verification/Device.v ===== *)
(** * Devices

    Code that drives a device sees memory and an I/O bus: ports read and
    written by [in] and [out] ([kernel/x86.h]) and device registers at physical
    addresses.  What is behind the bus is a type [D] with its reactions to
    reads and writes ([Bus]); the drivers are proved against models of the
    devices they drive. *)
From S2P Require Import Prelude Types Str.

Inductive ioaddr := Port8 (p : Z) | Port32 (p : Z) | Mmio (a : Z).

(** The value a read returns may depend on, and change, the device. *)
Class Bus (D : Type) := {
  bus_read : ioaddr -> D -> Z * D;
  bus_write : ioaddr -> Z -> D -> D }.

Record mach (D : Type) := mkMach { m_mem : gmap Z Z; m_dev : D }.
Arguments mkMach {D}.
Arguments m_mem {D}.
Arguments m_dev {D}.

Section bus.
Context {D : Type} `{!Bus D}.
Definition IO (A : Type) : Type := mach D -> outcome (mach D) A.

Definition io_read (a : ioaddr) : IO Z := fun s =>
  let '(v, d) := bus_read a (m_dev s) in Done v (mkMach (m_mem s) d).
Definition io_write (a : ioaddr) (v : Z) : IO unit := fun s =>
  Done tt (mkMach (m_mem s) (bus_write a v (m_dev s))).

Definition inb (port : Z) : IO Z := v <- io_read (Port8 port) ;; ret (u8 v).
Definition outb (port v : Z) : IO unit := io_write (Port8 port) (u8 v).

(** [insl], [outsl] and [stosb]: [cnt] words to or from memory, bytes into memory. *)
Fixpoint insl (port addr : Z) (cnt : nat) : IO unit :=
  match cnt with
  | O => ret tt
  | S cnt' =>
      v <- io_read (Port32 port) ;;
      modify (fun s => mkMach (store32 addr v (m_mem s)) (m_dev s)) ;;
      insl port (addr + 4) cnt'
  end.
Fixpoint outsl (port addr : Z) (cnt : nat) : IO unit :=
  match cnt with
  | O => ret tt
  | S cnt' =>
      v <- gets (fun s => load32 (m_mem s) addr) ;;
      io_write (Port32 port) v ;;
      outsl port (addr + 4) cnt'
  end.
Definition io_stosb (addr data : Z) (cnt : nat) : IO unit :=
  modify (fun s => mkMach (stosb addr data cnt (m_mem s)) (m_dev s)).

(** ** Rules *)
Lemma wp_io_read {A} P a (k : Z -> IO A) s Q :
  wp P (k (bus_read a (m_dev s)).1 (mkMach (m_mem s) (bus_read a (m_dev s)).2)) Q -> wp P ((x <- io_read a ;; k x) s) Q.
Proof. unfold io_read, bind. by destruct (bus_read a (m_dev s)). Qed.
Lemma wp_io_write {A} P a v (k : unit -> IO A) s Q :
  wp P (k tt (mkMach (m_mem s) (bus_write a v (m_dev s)))) Q -> wp P ((x <- io_write a v ;; k x) s) Q.
Proof. done. Qed.
Lemma wp_inb {A} P p (k : Z -> IO A) s Q :
  wp P (k (u8 (bus_read (Port8 p) (m_dev s)).1) (mkMach (m_mem s) (bus_read (Port8 p) (m_dev s)).2)) Q -> wp P ((x <- inb p ;; k x) s) Q.
Proof. intros Hk. unfold inb. by apply wp_assoc, wp_io_read, wp_ret_bind. Qed.
Lemma wp_outb {A} P p v (k : unit -> IO A) s Q :
  wp P (k tt (mkMach (m_mem s) (bus_write (Port8 p) (u8 v) (m_dev s)))) Q -> wp P ((x <- outb p v ;; k x) s) Q.
Proof. done. Qed.
End bus.

Ltac io_step := repeat (first
  [apply wp_inb | apply wp_outb | apply wp_io_read | apply wp_io_write | apply wp_assoc | apply wp_ret_bind | apply wp_gets | apply wp_modify]; cbv beta).

(** ** Bytes of memory *)
Definition mem_bytes (m : gmap Z Z) (p : Z) (n : nat) : list Z := (fun k => load8 m (p + Z.of_nat k)) <$> seq 0 n.
Lemma mem_bytes_S (m : gmap Z Z) (p : Z) (n : nat) : mem_bytes m p (S n) = load8 m p :: mem_bytes m (p + 1) n.
Proof.
  unfold mem_bytes. cbn [seq]. rewrite fmap_cons. f_equal; [f_equal; lia|]. rewrite <- fmap_S_seq, <- list_fmap_compose.
  apply list_fmap_ext. intros ? k ?. cbn. f_equal. lia.
Qed.
Lemma mem_bytes_length (m : gmap Z Z) (p : Z) (n : nat) : length (mem_bytes m p n) = n.
Proof. unfold mem_bytes. by rewrite length_fmap, length_seq. Qed.
Lemma mem_bytes_lookup (m : gmap Z Z) (p : Z) (n k : nat) : (k < n)%nat -> mem_bytes m p n !!! k = load8 m (p + Z.of_nat k).
Proof. intros Hk. apply list_lookup_total_correct. unfold mem_bytes. rewrite list_lookup_fmap, lookup_seq_lt by done. done. Qed.

(** ** The disk controller

    The PIO registers of an ATA controller with two drives, as the drivers use
    them: the task file, a status that shows busy for some reads after a
    command ([latency]), and a data register that delivers the words of the
    sector a read command names, or takes those of a write command. *)
Record ata := mkAta {
  a_count : Z; a_lba0 : Z; a_lba1 : Z; a_lba2 : Z; a_drive : Z;
  a_busy : nat; a_latency : nat;
  a_out : list Z; a_in : option (list Z);
  a_sectors : gmap (Z * Z) (list Z) }.

(** The drive and the sector the task file names. *)
Definition ata_lba (d : ata) : Z :=
  a_lba0 d + 2 ^ 8 * a_lba1 d + 2 ^ 16 * a_lba2 d + 2 ^ 24 * Z.land (a_drive d) 15.
Definition ata_unit (d : ata) : Z := Z.land (Z.shiftr (a_drive d) 4) 1.
Definition ata_sector (d : ata) (u lba : Z) : list Z := default (replicate 512 0) (a_sectors d !! (u, lba)).

Definition words_of (l : list Z) : list Z :=
  (fun k => l !!! (4 * k)%nat + 2 ^ 8 * l !!! (4 * k + 1)%nat + 2 ^ 16 * l !!! (4 * k + 2)%nat + 2 ^ 24 * l !!! (4 * k + 3)%nat) <$> seq 0 128.
Definition bytes_of (ws : list Z) : list Z := concat ((fun w => [u8 w; u8 (w / 2 ^ 8); u8 (w / 2 ^ 16); u8 (w / 2 ^ 24)]) <$> ws).

Definition ata_read (a : ioaddr) (d : ata) : Z * ata :=
  match a with
  | Port8 0x1f7 =>
      match a_busy d with
      | O => (0x40, d)
      | S n => (0x80, mkAta (a_count d) (a_lba0 d) (a_lba1 d) (a_lba2 d) (a_drive d) n (a_latency d) (a_out d) (a_in d) (a_sectors d))
      end
  | Port32 0x1f0 =>
      match a_out d with
      | [] => (0, d)
      | w :: ws => (w, mkAta (a_count d) (a_lba0 d) (a_lba1 d) (a_lba2 d) (a_drive d) (a_busy d) (a_latency d) ws (a_in d) (a_sectors d))
      end
  | _ => (0xff, d)
  end.
Definition ata_write (a : ioaddr) (v : Z) (d : ata) : ata :=
  match a with
  | Port8 0x1f2 => mkAta v (a_lba0 d) (a_lba1 d) (a_lba2 d) (a_drive d) (a_busy d) (a_latency d) (a_out d) (a_in d) (a_sectors d)
  | Port8 0x1f3 => mkAta (a_count d) v (a_lba1 d) (a_lba2 d) (a_drive d) (a_busy d) (a_latency d) (a_out d) (a_in d) (a_sectors d)
  | Port8 0x1f4 => mkAta (a_count d) (a_lba0 d) v (a_lba2 d) (a_drive d) (a_busy d) (a_latency d) (a_out d) (a_in d) (a_sectors d)
  | Port8 0x1f5 => mkAta (a_count d) (a_lba0 d) (a_lba1 d) v (a_drive d) (a_busy d) (a_latency d) (a_out d) (a_in d) (a_sectors d)
  | Port8 0x1f6 => mkAta (a_count d) (a_lba0 d) (a_lba1 d) (a_lba2 d) v (a_busy d) (a_latency d) (a_out d) (a_in d) (a_sectors d)
  | Port8 0x1f7 =>
      if v =? 0x20 then
        mkAta (a_count d) (a_lba0 d) (a_lba1 d) (a_lba2 d) (a_drive d) (a_latency d) (a_latency d)
          (words_of (ata_sector d (ata_unit d) (ata_lba d))) None (a_sectors d)
      else if v =? 0x30 then
        mkAta (a_count d) (a_lba0 d) (a_lba1 d) (a_lba2 d) (a_drive d) (a_latency d) (a_latency d) [] (Some []) (a_sectors d)
      else d
  | Port32 0x1f0 =>
      match a_in d with
      | None => d
      | Some ws =>
          let ws := ws ++ [v] in
          if (length ws =? 128)%nat then
            mkAta (a_count d) (a_lba0 d) (a_lba1 d) (a_lba2 d) (a_drive d) (a_busy d) (a_latency d) (a_out d) None
              (<[(ata_unit d, ata_lba d) := bytes_of ws]> (a_sectors d))
          else mkAta (a_count d) (a_lba0 d) (a_lba1 d) (a_lba2 d) (a_drive d) (a_busy d) (a_latency d) (a_out d) (Some ws) (a_sectors d)
      end
  | _ => d
  end.
#[export] Instance ata_bus : Bus ata := { bus_read := ata_read; bus_write := ata_write }.
