(* ===== verification/Boot.v ===== *)
(** * The boot loader ([kernel/bootmain.c])

    [bootmain] reads the kernel, an ELF image that starts at sector 1 of the
    boot disk, through the disk controller of [Device], and jumps to its entry
    point.  The loops that wait for the controller take the bound [patience];
    the theorems need it to exceed the latency of the disk. *)
From S2P Require Import Prelude Types Str Device.

Definition SECTSIZE : Z := 512.
Definition ELF_MAGIC_ : Z := 0x464C457F.
Class Patience := patience : nat.

Section code.
Context {D : Type} `{!Bus D} `{!Patience}.
#[local] Abbreviation IO := (@IO D).

Fixpoint waitdisk_loop (n : nat) : IO unit :=
  r <- inb 0x1F7 ;;
  if Z.land r 0xC0 =? 0x40 then ret tt else
  match n with O => stopm NoFuel | S n' => waitdisk_loop n' end.
Definition waitdisk : IO unit := waitdisk_loop patience.

Definition readsect (dst offset : Z) : IO unit :=
  waitdisk ;;
  outb 0x1F2 1 ;;
  outb 0x1F3 offset ;;
  outb 0x1F4 (Z.shiftr offset 8) ;;
  outb 0x1F5 (Z.shiftr offset 16) ;;
  outb 0x1F6 (Z.lor (Z.shiftr offset 24) 0xE0) ;;
  outb 0x1F7 0x20 ;;
  waitdisk ;;
  insl 0x1F0 dst (Z.to_nat (SECTSIZE / 4)).

Fixpoint readseg_loop (n : nat) (pa epa offset : Z) : IO unit :=
  if negb (pa <? epa) then ret tt else
  readsect pa offset ;;
  match n with
  | O => stopm NoFuel
  | S n' => readseg_loop n' (u32 (pa + SECTSIZE)) epa (u32 (offset + 1))
  end.
Definition readseg (pa count offset : Z) : IO unit :=
  let epa := u32 (pa + count) in
  let pa := u32 (pa - offset mod SECTSIZE) in
  let offset := u32 (offset / SECTSIZE + 1) in
  readseg_loop (S (Z.to_nat ((epa - pa) / SECTSIZE))) pa epa offset.

(** Fields of the ELF header and of a program header in memory. *)
Definition word_at (a : Z) : IO Z := gets (fun s => load32 (m_mem s) a).
Definition short_at (a : Z) : IO Z := gets (fun s => load8 (m_mem s) a + 2 ^ 8 * load8 (m_mem s) (a + 1)).

(** The loop over the [n] program headers from [ph]. *)
Fixpoint load_segs (n : nat) (ph : Z) : IO unit :=
  match n with
  | O => ret tt
  | S n' =>
      pa <- word_at (ph + 12) ;;
      filesz <- word_at (ph + 16) ;;
      off <- word_at (ph + 4) ;;
      readseg pa filesz off ;;
      memsz <- word_at (ph + 20) ;;
      filesz <- word_at (ph + 16) ;;
      whenm (filesz <? memsz)
        (io_stosb (u32 (pa + filesz)) 0 (Z.to_nat (memsz - filesz))) ;;
      load_segs n' (ph + 32)
  end.

(** The address [bootmain] jumps to; [None] when the image is not ELF. *)
Definition bootmain : IO (option Z) :=
  let elf := 0x10000 in
  readseg elf 4096 0 ;;
  magic <- word_at elf ;;
  if negb (magic =? ELF_MAGIC_) then ret None else
  phoff <- word_at (elf + 28) ;;
  phnum <- short_at (elf + 44) ;;
  load_segs (Z.to_nat phnum) (u32 (elf + phoff)) ;;
  entry <- word_at (elf + 24) ;;
  ret (Some entry).
End code.

(** ** Reading a sector *)
Section sectors.
Context `{!Patience}.
Implicit Types (d : ata) (m : gmap Z Z) (a : Z).

Definition idle d : ata :=
  mkAta (a_count d) (a_lba0 d) (a_lba1 d) (a_lba2 d) (a_drive d) 0 (a_latency d) (a_out d) (a_in d) (a_sectors d).

Lemma wp_waitdisk_loop {A} P (k : unit -> IO A) Q (n : nat) : forall s, (a_busy (m_dev s) <= n)%nat ->
  wp P (k tt (mkMach (m_mem s) (idle (m_dev s)))) Q -> wp P ((x <- waitdisk_loop n ;; k x) s) Q.
Proof.
  induction n as [|n IH]; intros [m d] Hn Hk; cbn [waitdisk_loop]; apply wp_assoc, wp_inb; cbn in *.
  - destruct d as [? ? ? ? ? bz ? ? ? ?]. cbn in *. destruct bz; [|lia]. cbn. exact Hk.
  - destruct d as [? ? ? ? ? bz ? ? ? ?]. cbn in *. destruct bz as [|bz]; cbn; [exact Hk|]. apply IH; [cbn; lia|exact Hk].
Qed.

(** The words a read leaves in memory. *)
Fixpoint put_words a (ws : list Z) m : gmap Z Z :=
  match ws with [] => m | w :: ws' => put_words (a + 4) ws' (store32 a w m) end.

Lemma wp_insl {A} P (k : unit -> IO A) Q (ws : list Z) : forall a m d, a_out d = ws ->
  wp P (k tt (mkMach (put_words a ws m)
    (mkAta (a_count d) (a_lba0 d) (a_lba1 d) (a_lba2 d) (a_drive d) (a_busy d) (a_latency d) [] (a_in d) (a_sectors d)))) Q ->
  wp P ((x <- insl 0x1F0 a (length ws) ;; k x) (mkMach m d)) Q.
Proof.
  induction ws as [|w ws IH]; intros a m d Ho Hk; cbn [insl length].
  - apply wp_ret_bind. destruct d. cbn in *. by subst.
  - apply wp_assoc, wp_io_read, wp_assoc, wp_modify. cbn. rewrite Ho. cbn. by apply IH.
Qed.

Lemma load8_put_words (ws : list Z) : forall a m b,
  load8 (put_words a ws m) b =
    match ws !! Z.to_nat ((b - a) / 4) with
    | Some w => if decide (a <= b) then u8 (w / 2 ^ (8 * ((b - a) mod 4))) else load8 m b
    | None => load8 m b
    end.
Proof.
  induction ws as [|w ws IH]; intros a m b; [done|]. cbn [put_words]. rewrite IH, load8_store32.
  destruct (decide (a <= b)) as [Hab|Hab].
  - destruct (decide (a <= b < a + 4)) as [H4|H4].
    + rewrite (Z.div_small (b - a)), (Z.mod_small (b - a)) by lia. cbn [Z.to_nat lookup list_lookup].
      destruct (ws !! Z.to_nat ((b - (a + 4)) / 4)); rewrite ?(decide_False (P := a + 4 <= b)) by lia; done.
    + replace (b - a) with (b - (a + 4) + 1 * 4) by lia. rewrite Z.div_add, Z_mod_plus_full by lia.
      pose proof (Z.div_pos (b - (a + 4)) 4 ltac:(lia) ltac:(lia)). replace (Z.to_nat ((b - (a + 4)) / 4 + 1)) with (S (Z.to_nat ((b - (a + 4)) / 4))) by lia.
      cbn. destruct (ws !! Z.to_nat ((b - (a + 4)) / 4)); [|done]. by rewrite !decide_True by lia.
  - rewrite (decide_False (P := a <= b < a + 4)) by lia.
    destruct (ws !! Z.to_nat ((b - (a + 4)) / 4)), ((w :: ws) !! Z.to_nat ((b - a) / 4)); rewrite ?(decide_False (P := a + 4 <= b)) by lia; done.
Qed.
Definition bytes_ok (l : list Z) : Prop := length l = 512%nat /\ Forall (fun v => 0 <= v < 256) l.
Record disk_ok d : Prop := {
  do_sectors : forall k l, a_sectors d !! k = Some l -> bytes_ok l;
  do_busy : (a_busy d <= patience)%nat /\ (a_latency d <= patience)%nat }.
Definition same_disk d d' : Prop := a_sectors d' = a_sectors d /\ a_latency d' = a_latency d /\ (a_busy d' <= patience)%nat.

Lemma sector_ok d u n : disk_ok d -> bytes_ok (ata_sector d u n).
Proof.
  intros [Hs _]. unfold ata_sector. destruct (a_sectors d !! (u, n)) as [l|] eqn:E; cbn [default from_option id]; [by apply (Hs (u, n))|].
  split; [apply length_replicate|]. apply Forall_replicate. lia.
Qed.

Lemma word_byte (v0 v1 v2 v3 r : Z) : 0 <= v0 < 256 -> 0 <= v1 < 256 -> 0 <= v2 < 256 -> 0 <= v3 < 256 -> 0 <= r < 4 ->
  u8 ((v0 + 2 ^ 8 * v1 + 2 ^ 16 * v2 + 2 ^ 24 * v3) / 2 ^ (8 * r)) = if r =? 0 then v0 else if r =? 1 then v1 else if r =? 2 then v2 else v3.
Proof.
  intros H0 H1 H2 H3 Hr. unfold u8. set (w := v0 + _ + _ + _). assert (r = 0 \/ r = 1 \/ r = 2 \/ r = 3) as [->|[->|[->| ->]]] by lia; cbn [Z.eqb Pos.eqb Z.mul].
  - rewrite Z.div_1_r. symmetry. apply (Z.mod_unique _ _ (v1 + 2 ^ 8 * v2 + 2 ^ 16 * v3)); unfold w; lia.
  - replace (w / 2 ^ (8 * 1)) with (v1 + 2 ^ 8 * v2 + 2 ^ 16 * v3) by (apply (Z.div_unique _ _ _ v0); unfold w; lia).
    symmetry. apply (Z.mod_unique _ _ (v2 + 2 ^ 8 * v3)); lia.
  - replace (w / 2 ^ (8 * 2)) with (v2 + 2 ^ 8 * v3) by (apply (Z.div_unique _ _ _ (v0 + 2 ^ 8 * v1)); unfold w; lia).
    symmetry. apply (Z.mod_unique _ _ v3); lia.
  - replace (w / 2 ^ (8 * 3)) with v3 by (apply (Z.div_unique _ _ _ (v0 + 2 ^ 8 * v1 + 2 ^ 16 * v2)); unfold w; lia).
    apply Z.mod_small. lia.
Qed.

(** A sector in memory. *)
Definition put_sector a (l : list Z) m : gmap Z Z := put_words a (words_of l) m.
Lemma load8_put_sector a l m b : bytes_ok l ->
  load8 (put_sector a l m) b = if decide (a <= b < a + 512) then l !!! Z.to_nat (b - a) else load8 m b.
Proof.
  intros [Hl Hv]. unfold put_sector. rewrite load8_put_words. unfold words_of.
  assert (forall j, (j < 512)%nat -> 0 <= l !!! j < 256) as Hr.
  { intros j Hj. destruct (lookup_lt_is_Some_2 l j ltac:(lia)) as [v E]. rewrite (list_lookup_total_correct _ _ _ E). by apply (proj1 (Forall_lookup _ _) Hv j). }
  destruct (decide (a <= b)) as [Hab|Hab].
  2: { rewrite decide_False by lia. by destruct (((fun k => _) <$> seq 0 128) !! _). }
  pose proof (Z.div_pos (b - a) 4 ltac:(lia) ltac:(lia)) as Hq. pose proof (Z.div_mod (b - a) 4 ltac:(lia)) as Hdm. pose proof (Z.mod_pos_bound (b - a) 4 ltac:(lia)) as Hm.
  rewrite list_lookup_fmap. destruct (decide (b < a + 512)) as [Hb|Hb].
  - rewrite decide_True by lia. rewrite lookup_seq_lt by lia. cbn [fmap option_fmap option_map]. set (q := (b - a) / 4) in *. set (r := (b - a) mod 4) in *. clearbody q r.
    rewrite word_byte by (try apply Hr; lia). assert (r = 0 \/ r = 1 \/ r = 2 \/ r = 3) as Hr4 by lia.
    assert (Z.to_nat (b - a) = (4 * (0 + Z.to_nat q) + Z.to_nat r)%nat) as -> by lia.
    destruct Hr4 as [->|[->|[->| ->]]]; cbn [Z.eqb Pos.eqb]; match goal with |- l !!! ?x = l !!! ?y => replace y with x by lia end; done.
  - rewrite decide_False by lia. by rewrite lookup_seq_ge by lia.
Qed.

Lemma low_bits (x : Z) : 0 <= x < 16 -> Z.land (u8 (Z.lor x 0xE0)) 15 = x /\ Z.land (Z.shiftr (u8 (Z.lor x 0xE0)) 4) 1 = 0.
Proof.
  intros Hx. assert (forallb (fun k => (Z.land (u8 (Z.lor (Z.of_nat k) 0xE0)) 15 =? Z.of_nat k) && (Z.land (Z.shiftr (u8 (Z.lor (Z.of_nat k) 0xE0)) 4) 1 =? 0)) (seq 0 16) = true) as Hall by reflexivity.
  rewrite forallb_forall in Hall. specialize (Hall (Z.to_nat x) (proj2 (in_seq 16 0 (Z.to_nat x)) ltac:(lia))). rewrite Z2Nat.id in Hall by lia.
  apply andb_true_iff in Hall as [H1 H2]. split; by apply Z.eqb_eq.
Qed.

Lemma wp_readsect {A} P (k : unit -> IO A) Q dst off m d : disk_ok d -> 0 <= off < 2 ^ 28 ->
  (forall d', same_disk d d' -> wp P (k tt (mkMach (put_sector dst (ata_sector d 0 off) m) d')) Q) ->
  wp P ((x <- readsect dst off ;; k x) (mkMach m d)) Q.
Proof.
  intros [_ [Hb1 Hb2]] Ho Hk. unfold readsect. rewrite !Z.shiftr_div_pow2 by lia. apply wp_assoc. apply wp_waitdisk_loop; [done|]. do 6 apply wp_assoc, wp_outb.
  cbn [m_mem m_dev bus_write ata_bus]. set (d1 := ata_write (Port8 0x1f6) _ _).
  assert (ata_lba d1 = off /\ ata_unit d1 = 0) as [El Eu].
  { assert (0 <= off / 2 ^ 24 < 16) as H24 by (split; [apply Z.div_pos; lia|apply Z.div_lt_upper_bound; lia]).
    destruct (low_bits (off / 2 ^ 24) H24) as [L1 L2]. unfold ata_lba, ata_unit, d1. cbn [ata_write a_lba0 a_lba1 a_lba2 a_drive idle]. rewrite L1. split; [|exact L2].
    pose proof (word_bytes off) as Hw. rewrite (u32_small off) in Hw by lia. unfold u8 in Hw at 4. rewrite (Z.mod_small (off / 2 ^ 24)) in Hw by lia. exact Hw. }
  unfold ata_write at 1. cbn [Z.eqb Pos.eqb u8 Z.modulo]. change (u8 32 =? 32) with true. cbn iota. rewrite El, Eu.
  assert (ata_sector d1 0 off = ata_sector d 0 off) as -> by done.
  apply wp_assoc. apply wp_waitdisk_loop; [done|]. cbn [m_mem m_dev idle a_count a_lba0 a_lba1 a_lba2 a_drive a_latency a_out a_in a_sectors].
  change (Z.to_nat (SECTSIZE / 4)) with (length (words_of (ata_sector d 0 off))).
  apply wp_insl; [done|]. apply Hk. split_and!; [done|done|cbn; lia].
Qed.
Lemma same_disk_ok d d' : disk_ok d -> same_disk d d' -> disk_ok d' /\ forall u n, ata_sector d' u n = ata_sector d u n.
Proof.
  intros [Hs Hb] (Es & El & Hb'). split; [split; [by rewrite Es|lia]|]. intros u n. unfold ata_sector. by rewrite Es.
Qed.
Lemma same_disk_trans d d1 d2 : same_disk d d1 -> same_disk d1 d2 -> same_disk d d2.
Proof. intros (? & ? & ?) (? & ? & ?). split_and!; [congruence|congruence|done]. Qed.

(** *** Reading a range *)
(** The bytes from address [a] up to the end of the sector that reaches [e]. *)
Definition covered a e b : Prop := a <= b /\ a + (b - a) / 512 * 512 < e.
#[local] Instance covered_dec a e b : Decision (covered a e b).
Proof. unfold covered. apply _. Defined.
Definition loaded d a e q m m' : Prop := forall b,
  load8 m' b = if decide (covered a e b) then ata_sector d 0 (q + (b - a) / 512) !!! Z.to_nat ((b - a) mod 512) else load8 m b.

Lemma loaded_step d a e q m m' : disk_ok d -> a < e ->
  loaded d (a + 512) e (q + 1) (put_sector a (ata_sector d 0 q) m) m' -> loaded d a e q m m'.
Proof.
  intros Hd Hae Hl b. rewrite Hl. rewrite (load8_put_sector a (ata_sector d 0 q) m b) by (by apply sector_ok).
  destruct (decide (a <= b < a + 512)) as [Hb|Hb].
  - rewrite decide_False by (unfold covered; lia). rewrite (Z.mod_small (b - a) 512) by lia.
    rewrite decide_True by (unfold covered; rewrite (Z.div_small (b - a) 512) by lia; lia). by rewrite (Z.div_small (b - a) 512), Z.add_0_r by lia.
  - destruct (decide (a <= b)) as [Hab|Hab]; [|by rewrite !decide_False by (unfold covered; lia)].
    assert ((b - a) / 512 = (b - (a + 512)) / 512 + 1 /\ (b - a) mod 512 = (b - (a + 512)) mod 512) as [E1 E2].
    { replace (b - a) with (b - (a + 512) + 1 * 512) by lia. by rewrite Z.div_add, Z_mod_plus_full by lia. }
    assert (covered (a + 512) e b <-> covered a e b) as Hc by (unfold covered; rewrite E1; lia).
    rewrite E1, E2. destruct (decide (covered (a + 512) e b)) as [H1|H1].
    + rewrite decide_True by (by apply Hc). f_equal. f_equal. lia.
    + by rewrite decide_False by (by rewrite <- Hc).
Qed.

Lemma wp_readseg_loop {A} P (k : unit -> IO A) Q e (f : nat) : forall a q m d, disk_ok d ->
  0 <= a -> e + 512 < 2 ^ 32 -> 0 <= q -> q + Z.of_nat f < 2 ^ 28 -> e <= a + 512 * Z.of_nat f ->
  (forall m' d', same_disk d d' -> loaded d a e q m m' -> wp P (k tt (mkMach m' d')) Q) ->
  wp P ((x <- readseg_loop f a e q ;; k x) (mkMach m d)) Q.
Proof.
  assert (forall d, disk_ok d -> same_disk d d) as Hrefl by (intros d [_ [? ?]]; done).
  induction f as [|f IH]; intros a q m d Hd Ha He Hq Hqf Hf Hk; cbn [readseg_loop];
    (destruct (Z.ltb_spec a e) as [Hlt|Hge]; cbn [negb]; [|apply wp_ret_bind, Hk; [by apply Hrefl|]; intros b; rewrite decide_False; [done|];
       intros [H1 H2]; pose proof (Z.div_pos (b - a) 512 ltac:(lia) ltac:(lia)); lia]).
  - lia.
  - apply wp_assoc, wp_readsect; [done|lia|]. intros d1 Hd1. destruct (same_disk_ok d d1 Hd Hd1) as [Hok1 Es].
    unfold SECTSIZE. rewrite !u32_small by lia. apply IH; [done|lia|lia|lia|lia|lia|].
    intros m' d' Hd' Hl. apply Hk; [by eapply same_disk_trans|]. apply loaded_step; [done|done|]. intros b. rewrite Hl. by rewrite Es.
Qed.

(** Byte [o] of the kernel image. *)
Definition image_byte d o : Z := ata_sector d 0 (o / 512 + 1) !!! Z.to_nat (o mod 512).
(** The addresses [readseg] changes besides those it is asked for. *)
Definition spill a n off b : Prop := covered (a - off mod 512) (a + n) b.

(** What [readseg] of [n] bytes of the image at [off] leaves at [a]. *)
Record segment_read d a n off m m' : Prop := {
  sr_bytes : forall j, 0 <= j < n -> load8 m' (a + j) = image_byte d (off + j);
  sr_rest : forall b, ~ spill a n off b -> load8 m' b = load8 m b }.

Lemma loaded_segment d a n off m m' : 0 <= off -> loaded d (a - off mod 512) (a + n) (off / 512 + 1) m m' -> segment_read d a n off m m'.
Proof.
  intros Ho Hl. pose proof (Z.mod_pos_bound off 512 ltac:(lia)) as Hm. pose proof (Z.div_mod off 512 ltac:(lia)) as Hdm. split.
  - intros j Hj. rewrite Hl. replace (a + j - (a - off mod 512)) with (off mod 512 + j) by lia.
    assert (0 <= (off mod 512 + j) / 512) by (apply Z.div_pos; lia). pose proof (Z.div_mod (off mod 512 + j) 512 ltac:(lia)). pose proof (Z.mod_pos_bound (off mod 512 + j) 512 ltac:(lia)).
    rewrite decide_True by (unfold covered; replace (a + j - (a - off mod 512)) with (off mod 512 + j) by lia; lia).
    unfold image_byte. replace (off + j) with (off mod 512 + j + off / 512 * 512) by lia. rewrite Z.div_add, Z_mod_plus_full by lia. f_equal. f_equal. lia.
  - intros b Hb. rewrite Hl. by rewrite decide_False.
Qed.

Lemma wp_readseg {A} P (k : unit -> IO A) Q a n off m d : disk_ok d ->
  512 <= a -> 0 <= n -> a + n + 512 < 2 ^ 32 -> 0 <= off -> off + n < 2 ^ 36 ->
  (forall m' d', same_disk d d' -> segment_read d a n off m m' -> wp P (k tt (mkMach m' d')) Q) ->
  wp P ((x <- readseg a n off ;; k x) (mkMach m d)) Q.
Proof.
  intros Hd Ha Hn Hend Ho Hoff Hk. unfold readseg, SECTSIZE. pose proof (Z.mod_pos_bound off 512 ltac:(lia)) as Hm.
  pose proof (Z.div_mod off 512 ltac:(lia)) as Hdm. assert (0 <= off / 512 < 2 ^ 27) as Hq by (split; [apply Z.div_pos; lia|apply Z.div_lt_upper_bound; lia]).
  rewrite !u32_small by lia. set (e := a + n). set (a0 := a - off mod 512).
  pose proof (Z.div_mod (e - a0) 512 ltac:(lia)). pose proof (Z.mod_pos_bound (e - a0) 512 ltac:(lia)). pose proof (Z.div_pos (e - a0) 512 ltac:(lia) ltac:(lia)).
  assert ((e - a0) / 512 < 2 ^ 24) by (apply Z.div_lt_upper_bound; lia).
  apply wp_readseg_loop; [done|lia|lia|lia|lia|lia|]. intros m' d' Hd' Hl. apply Hk; [done|]. by apply loaded_segment.
Qed.
(** ** The kernel image *)
Record seg := mkSeg { s_pa : Z; s_filesz : Z; s_off : Z; s_memsz : Z }.
Definition image_word d o : Z :=
  image_byte d o + 2 ^ 8 * image_byte d (o + 1) + 2 ^ 16 * image_byte d (o + 2) + 2 ^ 24 * image_byte d (o + 3).

(** The addresses that loading a segment changes, and those it is for. *)
Definition touches (g : seg) b : Prop :=
  spill (s_pa g) (s_filesz g) (s_off g) b \/ s_pa g + s_filesz g <= b < s_pa g + s_memsz g.
Definition inside (g : seg) b : Prop := s_pa g <= b < s_pa g + Z.max (s_filesz g) (s_memsz g).
Definition in_page b : Prop := 0x10000 <= b < 0x11000.

Record seg_ok (g : seg) : Prop := {
  sg_range : 512 <= s_pa g /\ 0 <= s_filesz g /\ 0 <= s_memsz g /\ s_pa g + s_filesz g + 512 < 2 ^ 32 /\ s_pa g + s_memsz g < 2 ^ 32;
  sg_off : 0 <= s_off g /\ s_off g + s_filesz g < 2 ^ 36;
  sg_page : forall b, touches g b -> ~ in_page b }.

(** The disk holds an ELF kernel with these segments; no segment, loaded in
    whole sectors, reaches into one loaded before it. *)
Record kernel_image d (entry : Z) (gs : list seg) : Prop := {
  ki_magic : image_word d 0 = ELF_MAGIC_;
  ki_entry : image_word d 24 = entry;
  ki_phnum : image_byte d 44 + 2 ^ 8 * image_byte d 45 = Z.of_nat (length gs);
  ki_phdrs : exists phoff, image_word d 28 = phoff /\ 0 <= phoff /\ phoff + 32 * Z.of_nat (length gs) <= 4096 /\
    forall (k : nat) g, gs !! k = Some g -> let ph := phoff + 32 * Z.of_nat k in
      image_word d (ph + 12) = s_pa g /\ image_word d (ph + 16) = s_filesz g /\
      image_word d (ph + 4) = s_off g /\ image_word d (ph + 20) = s_memsz g;
  ki_segs : Forall seg_ok gs;
  ki_order : forall (i k : nat) g h, (i < k)%nat -> gs !! i = Some g -> gs !! k = Some h -> forall b, touches h b -> ~ inside g b }.

(** A loaded segment: the bytes of the file, then zeroes. *)
Definition seg_loaded d (g : seg) m : Prop := forall j,
  (0 <= j < s_filesz g -> load8 m (s_pa g + j) = image_byte d (s_off g + j)) /\
  (s_filesz g <= j < s_memsz g -> load8 m (s_pa g + j) = 0).
Definition page_read d m : Prop := forall o, 0 <= o < 4096 -> load8 m (0x10000 + o) = image_byte d o.

Lemma page_word d m o : page_read d m -> 0 <= o -> o + 4 <= 4096 -> load32 m (0x10000 + o) = image_word d o.
Proof.
  intros Hp Ho Ho4. unfold load32, image_word. rewrite <- !(Hp (o + _)), <- (Hp o) by lia.
  by replace (0x10000 + (o + 1)) with (0x10000 + o + 1) by lia; replace (0x10000 + (o + 2)) with (0x10000 + o + 2) by lia; replace (0x10000 + (o + 3)) with (0x10000 + o + 3) by lia.
Qed.
Lemma image_same d d' o : disk_ok d -> same_disk d d' -> image_byte d' o = image_byte d o.
Proof. intros Hd Hs. unfold image_byte. by rewrite (proj2 (same_disk_ok d d' Hd Hs)). Qed.
Lemma segment_read_same d d' a n off m m' : disk_ok d -> same_disk d d' -> segment_read d' a n off m m' -> segment_read d a n off m m'.
Proof. intros Hd Hs [H1 H2]. split; [|done]. intros j Hj. rewrite <- (image_same d d') by done. by apply H1. Qed.

(** One segment: read, then the rest of its memory cleared. *)
Definition after_seg (g : seg) m m' : Prop := forall b,
  load8 m' b = if decide (s_pa g + s_filesz g <= b < s_pa g + s_memsz g) then 0 else load8 m b.
Lemma after_seg_loaded d g m m1 m2 : seg_ok g -> segment_read d (s_pa g) (s_filesz g) (s_off g) m m1 -> after_seg g m1 m2 ->
  seg_loaded d g m2 /\ forall b, ~ touches g b -> load8 m2 b = load8 m b.
Proof.
  intros _ [Hb Hr] Ha. split.
  - intros j. rewrite Ha. split; intros Hj; [rewrite decide_False by lia; by apply Hb|by rewrite decide_True by lia].
  - intros b Hn. unfold touches in Hn. rewrite Ha, decide_False by tauto. apply Hr. tauto.
Qed.

Lemma wp_load_segs {A} P (k : unit -> IO A) Q entry gs d phoff : disk_ok d -> kernel_image d entry gs -> image_word d 28 = phoff ->
  forall (rest pre : list seg), gs = pre ++ rest -> forall m d1, same_disk d d1 -> page_read d m -> Forall (fun g => seg_loaded d g m) pre ->
  (forall m' d', page_read d m' -> Forall (fun g => seg_loaded d g m') gs -> wp P (k tt (mkMach m' d')) Q) ->
  wp P ((x <- load_segs (length rest) (0x10000 + (phoff + 32 * Z.of_nat (length pre))) ;; k x) (mkMach m d1)) Q.
Proof.
  intros Hd [_ _ _ (ph & Ep & Hp0 & Hpe & Hph) Hok Hord] Eph. rewrite Eph in Ep. subst ph.
  induction rest as [|g rest IH]; intros pre Egs m d1 Hs Hpg Hpre Hk; cbn [length load_segs].
  { apply wp_ret_bind, Hk; [done|]. by rewrite Egs, app_nil_r. }
  assert (gs !! length pre = Some g) as Hg by (by rewrite Egs, list_lookup_middle).
  destruct (Hph (length pre) g Hg) as (E12 & E16 & E4 & E20). cbv zeta in *. set (o := phoff + 32 * Z.of_nat (length pre)) in *.
  assert (length gs = length pre + S (length rest))%nat as Hlen by (by rewrite Egs, length_app).
  destruct (same_disk_ok d d1 Hd Hs) as [Hd1 _]. pose proof (proj1 (Forall_lookup _ _) Hok _ _ Hg) as Hgok. pose proof Hgok as [(R1 & R2 & R3 & R4 & R5) [R6 R7] Rp].
  assert (forall m i w, page_read d m -> 0 <= i -> i + 4 <= 32 -> image_word d (o + i) = w -> load32 m (0x10000 + o + i) = w) as Hw.
  { intros m0 i w Hp Hi Hi4 <-. rewrite <- Z.add_assoc. apply page_word; [done|lia|lia]. }
  unfold word_at. do 3 apply wp_assoc, wp_gets. cbn [m_mem]. rewrite (Hw m 12 _ Hpg ltac:(lia) ltac:(lia) E12), (Hw m 16 _ Hpg ltac:(lia) ltac:(lia) E16), (Hw m 4 _ Hpg ltac:(lia) ltac:(lia) E4).
  apply wp_assoc, wp_readseg; try done. intros m1 d2 Hs2 Hsr. apply (segment_read_same d d1) in Hsr; [|done|done].
  assert (forall b, in_page b -> load8 m1 b = load8 m b) as Hk1.
  { intros b Hb. apply Hsr. intros Hsp. apply (Rp b); [by left|done]. }
  assert (page_read d m1) as Hpg1 by (intros i Hi; rewrite Hk1 by (unfold in_page; lia); by apply Hpg).
  do 2 apply wp_assoc, wp_gets. cbn [m_mem]. rewrite (Hw m1 20 _ Hpg1 ltac:(lia) ltac:(lia) E20), (Hw m1 16 _ Hpg1 ltac:(lia) ltac:(lia) E16).
  assert (forall m2, after_seg g m1 m2 -> wp P ((x <- load_segs (length rest) (0x10000 + o + 32) ;; k x) (mkMach m2 d2)) Q) as Hrest.
  { intros m2 Ha. destruct (after_seg_loaded d g m m1 m2 Hgok Hsr Ha) as [Hld Hkeep].
    replace (0x10000 + o + 32) with (0x10000 + (phoff + 32 * Z.of_nat (length (pre ++ [g])))) by (rewrite length_app; unfold o; cbn; lia).
    apply IH; [by rewrite <- app_assoc|by eapply same_disk_trans| | |done].
    - intros i Hi. rewrite Hkeep; [by apply Hpg|]. intros Ht. apply (Rp _ Ht). unfold in_page. lia.
    - apply Forall_app. split; [|by constructor]. apply Forall_lookup. intros i h Hh. pose proof (lookup_lt_Some _ _ _ Hh) as Hil.
      pose proof (proj1 (Forall_lookup _ _) Hpre i h Hh) as Hhl.
      assert (forall b, inside h b -> load8 m2 b = load8 m b) as Hkh.
      { intros b Hb. apply Hkeep. intros Ht. eapply (Hord i (length pre) h g); [done| |done|exact Ht|done]. rewrite Egs. by apply lookup_app_l_Some. }
      assert (seg_ok h) as [(_ & Hf0 & _) _ _] by (apply (proj1 (Forall_lookup _ _) Hok i); rewrite Egs; by apply lookup_app_l_Some).
      intros j. specialize (Hhl j). split; intros Hj; (rewrite Hkh; [by apply Hhl|]); unfold inside; lia. }
  destruct (Z.ltb_spec (s_filesz g) (s_memsz g)) as [Hlt|Hge].
  - apply wp_assoc, wp_when_true. unfold io_stosb. apply wp_modify. cbn [m_mem m_dev]. apply Hrest. intros b.
    rewrite stosb_load8, u32_small by lia. rewrite Z2Nat.id by lia. replace (s_pa g + s_filesz g + (s_memsz g - s_filesz g)) with (s_pa g + s_memsz g) by lia. done.
  - apply wp_assoc, wp_when_false. apply Hrest. intros b. by rewrite decide_False by lia.
Qed.

(** C39: what [bootmain] does with a disk that holds an ELF kernel: whatever the
    memory holds and however the disk delays (within the bound), it jumps to
    the entry point of the header, and every segment is in memory: the bytes
    of the file, in spite of the whole sectors that are read, and zeroes up to
    its size in memory. *)
Theorem bootmain_loads entry gs m d : disk_ok d -> kernel_image d entry gs ->
  wp atomic (bootmain (mkMach m d)) (fun r s => r = Some entry /\ Forall (fun g => seg_loaded d g (m_mem s)) gs).
Proof.
  intros Hd Hki. pose proof Hki as [Km Ke Kn (phoff & Ep & Hp0 & Hpe & _) _ _]. unfold bootmain. cbv zeta.
  apply wp_readseg; [done|lia|lia|lia|lia|lia|]. intros m1 d1 Hs1 [Hb _].
  assert (page_read d m1) as Hpg by (intros o Ho; apply (Hb o); lia).
  unfold word_at, short_at. apply wp_gets. cbn [m_mem].
  assert (load32 m1 0x10000 = image_word d 0) as -> by exact (page_word d m1 0 Hpg ltac:(lia) ltac:(lia)). rewrite Km. cbn [negb Z.eqb Pos.eqb ELF_MAGIC_].
  do 2 apply wp_gets. cbn [m_mem]. rewrite (page_word d m1 28 Hpg), Ep by lia.
  replace (0x10000 + 44 + 1) with (0x10000 + 45) by lia. rewrite (Hpg 44), (Hpg 45), Kn, Nat2Z.id by lia. rewrite u32_small by lia.
  replace (0x10000 + phoff) with (0x10000 + (phoff + 32 * Z.of_nat (length (@nil seg)))) by (cbn; lia).
  eapply (wp_load_segs _ _ _ entry gs d phoff Hd Hki Ep gs []); [done|done|done|done|]. intros m2 d2 Hpg2 Hall.
  apply wp_gets, wp_ret. cbn [m_mem]. rewrite (page_word d m2 24 Hpg2), Ke by lia. done.
Qed.
End sectors.

(** ** A kernel of two segments on a slow disk *)
Definition demo_header : list Z :=
  [ELF_MAGIC_; 0; 0; 0; 0; 0; 0x10000c; 52; 0; 0; 0; 2; 0;
   1; 4096; 0x80100000; 0x100000; 700; 1000; 0; 0;
   1; 5120; 0x80101000; 0x101000; 10; 10; 0; 0].
Definition demo_boot_disk : ata :=
  mkAta 0 0 0 0 0 3 5 [] None {[(0, 1) := bytes_of demo_header ++ replicate 396 0]}.
Definition demo_segs : list seg := [mkSeg 0x100000 700 4096 1000; mkSeg 0x101000 10 5120 10].

Lemma demo_boot_disk_ok `{!Patience} : (5 <= patience)%nat -> disk_ok demo_boot_disk.
Proof.
  intros Hp. split; [|cbn; lia]. intros k l Hl. cbn [a_sectors demo_boot_disk] in Hl. apply lookup_singleton_Some in Hl as [<- <-]. split; [reflexivity|].
  apply Forall_app. split; [|apply Forall_replicate; lia]. apply Forall_forall. intros v Hv.
  assert (forallb (fun v => (0 <=? v) && (v <? 256)) (bytes_of demo_header) = true) as Hall by (vm_compute; reflexivity).
  rewrite forallb_forall in Hall. specialize (Hall v (proj1 (list_elem_of_In _ _) Hv)). lia.
Qed.
Lemma bootmain_loads_witness : let _ : Patience := 8%nat in
  wp atomic (bootmain (mkMach ∅ demo_boot_disk)) (fun r s => r = Some 0x10000c /\ Forall (fun g => seg_loaded demo_boot_disk g (m_mem s)) demo_segs).
Proof.
  intros pt. apply (@bootmain_loads pt 0x10000c demo_segs ∅ demo_boot_disk).
  - apply demo_boot_disk_ok. unfold patience, pt. lia.
  - split; [vm_compute; reflexivity|vm_compute; reflexivity|vm_compute; reflexivity| | |].
    + exists 52. split; [vm_compute; reflexivity|]. split; [lia|]. split; [cbn; lia|]. intros k g Hg.
      destruct k as [|[|k]]; [injection Hg as <-|injection Hg as <-|discriminate Hg]; vm_compute; repeat split.
    + apply Forall_cons. split; [|apply Forall_cons; split; [|apply Forall_nil_2]].
      all: split; [cbn; lia|cbn; lia|]. all: unfold touches, spill, covered, in_page; cbn [s_pa s_off s_filesz s_memsz]; change (4096 mod 512) with 0; change (5120 mod 512) with 0; intros b [[Hb _]|Hb]; lia.
    + intros i k g h Hik Hg Hh b. destruct i as [|[|i]], k as [|[|k]]; try lia; try discriminate Hh; try discriminate Hg.
      injection Hg as <-. injection Hh as <-. unfold touches, spill, covered, inside. cbn [s_pa s_off s_filesz s_memsz].
      change (4096 mod 512) with 0. change (5120 mod 512) with 0. intros [[Hb _]|Hb]; lia.
Defined.
