(* ===== verification/Apic.v ===== *)
(** * Interrupt controllers, clock and serial port

    [kernel/ioapic.c], [kernel/lapic.c], [kernel/picirq.c] and
    [kernel/uart.c], as accesses to the I/O bus.  The theorems are about
    models of the devices: the redirection table of the I/O APIC, and the
    real-time clock behind the CMOS ports. *)
From stdpp Require Import functions.
From S2P Require Import Prelude Types Str Device Boot.

Section code.
Context {D : Type} `{!Bus D} `{!Patience}.
#[local] Abbreviation IO := (@IO D).

(** ** [ioapic.c] *)
Definition IOAPIC : Z := 0xFEC00000.
Definition REG_ID : Z := 0.
Definition REG_VER : Z := 1.
Definition REG_TABLE : Z := 0x10.
Definition INT_DISABLED : Z := 0x10000.

Definition ioapicread (reg : Z) : IO Z :=
  io_write (Mmio IOAPIC) reg ;;
  io_read (Mmio (IOAPIC + 16)).
Definition ioapicwrite (reg data : Z) : IO unit :=
  io_write (Mmio IOAPIC) reg ;;
  io_write (Mmio (IOAPIC + 16)) data.

Fixpoint mask_all (n : nat) (i : Z) : IO unit :=
  match n with
  | O => ret tt
  | S n' =>
      ioapicwrite (REG_TABLE + 2 * i) (Z.lor INT_DISABLED (T_IRQ0 + i)) ;;
      ioapicwrite (REG_TABLE + 2 * i + 1) 0 ;;
      mask_all n' (i + 1)
  end.
(** Whether the id is not the one [mpinit] found, for which [ioapicinit]
    prints a warning. *)
Definition ioapicinit (ioapicid : Z) : IO bool :=
  v <- ioapicread REG_VER ;;
  let maxintr := Z.land (Z.shiftr v 16) 0xFF in
  v <- ioapicread REG_ID ;;
  let id := Z.shiftr v 24 in
  mask_all (Z.to_nat (maxintr + 1)) 0 ;;
  ret (negb (id =? ioapicid)).
Definition ioapicenable (irq cpunum : Z) : IO unit :=
  ioapicwrite (REG_TABLE + 2 * irq) (T_IRQ0 + irq) ;;
  ioapicwrite (REG_TABLE + 2 * irq + 1) (u32 (Z.shiftl cpunum 24)).

(** ** [picirq.c] *)
Definition picinit : IO unit :=
  outb 0x21 0xFF ;;
  outb 0xA1 0xFF.

(** ** [lapic.c]: the registers at the address [lapic] that [mpinit] found *)
Definition ID : Z := 0x20.
Definition VER : Z := 0x30.
Definition TPR : Z := 0x80.
Definition EOI : Z := 0xB0.
Definition SVR : Z := 0xF0.
Definition ESR : Z := 0x280.
Definition ICRLO : Z := 0x300.
Definition ICRHI : Z := 0x310.
Definition TIMER : Z := 0x320.
Definition PCINT : Z := 0x340.
Definition LINT0 : Z := 0x350.
Definition LINT1 : Z := 0x360.
Definition LERROR : Z := 0x370.
Definition TICR : Z := 0x380.
Definition TDCR : Z := 0x3E0.
Definition IRQ_ERROR : Z := 19.
Definition ENABLE : Z := 0x100.
Definition INIT : Z := 0x500.
Definition STARTUP : Z := 0x600.
Definition DELIVS : Z := 0x1000.
Definition ASSERT : Z := 0x4000.
Definition LEVEL : Z := 0x8000.
Definition BCAST : Z := 0x80000.
Definition X1 : Z := 0xB.
Definition PERIODIC : Z := 0x20000.
Definition MASKED : Z := 0x10000.

Definition lapicw (lapic index value : Z) : IO unit :=
  io_write (Mmio (lapic + index)) value ;;
  io_read (Mmio (lapic + ID)) ;;
  ret tt.
Fixpoint wait_delivered (n : nat) (lapic : Z) : IO unit :=
  v <- io_read (Mmio (lapic + ICRLO)) ;;
  if Z.land v DELIVS =? 0 then ret tt else
  match n with O => stopm NoFuel | S n' => wait_delivered n' lapic end.
Definition lapicinit (lapic : Z) : IO unit :=
  if lapic =? 0 then ret tt else
  lapicw lapic SVR (Z.lor ENABLE (T_IRQ0 + IRQ_SPURIOUS)) ;;
  lapicw lapic TDCR X1 ;;
  lapicw lapic TIMER (Z.lor PERIODIC (T_IRQ0 + IRQ_TIMER)) ;;
  lapicw lapic TICR 10000000 ;;
  lapicw lapic LINT0 MASKED ;;
  lapicw lapic LINT1 MASKED ;;
  v <- io_read (Mmio (lapic + VER)) ;;
  (if 4 <=? Z.land (Z.shiftr v 16) 0xFF then lapicw lapic PCINT MASKED else ret tt) ;;
  lapicw lapic LERROR (T_IRQ0 + IRQ_ERROR) ;;
  lapicw lapic ESR 0 ;;
  lapicw lapic ESR 0 ;;
  lapicw lapic EOI 0 ;;
  lapicw lapic ICRHI 0 ;;
  lapicw lapic ICRLO (Z.lor (Z.lor BCAST INIT) LEVEL) ;;
  wait_delivered patience lapic ;;
  lapicw lapic TPR 0.
Definition lapicid (lapic : Z) : IO Z :=
  if lapic =? 0 then ret 0 else
  v <- io_read (Mmio (lapic + ID)) ;;
  ret (Z.shiftr v 24).
Definition lapiceoi (lapic : Z) : IO unit :=
  if lapic =? 0 then ret tt else lapicw lapic EOI 0.

Definition CMOS_PORT : Z := 0x70.
Definition CMOS_RETURN : Z := 0x71.

Fixpoint startup_ipis (n : nat) (lapic apicid addr : Z) : IO unit :=
  match n with
  | O => ret tt
  | S n' =>
      lapicw lapic ICRHI (u32 (Z.shiftl apicid 24)) ;;
      lapicw lapic ICRLO (Z.lor STARTUP (Z.shiftr addr 12)) ;;
      startup_ipis n' lapic apicid addr
  end.
Definition lapicstartap (lapic apicid addr : Z) : IO unit :=
  outb CMOS_PORT 0xF ;;
  outb (CMOS_PORT + 1) 0x0A ;;
  let wrv := P2V (Z.lor (Z.shiftl 0x40 4) 0x67) in
  modify (fun s => mkMach (store8 (wrv + 3) (Z.shiftr addr 4 / 2 ^ 8) (store8 (wrv + 2) (Z.shiftr addr 4)
    (store8 (wrv + 1) 0 (store8 wrv 0 (m_mem s))))) (m_dev s)) ;;
  lapicw lapic ICRHI (u32 (Z.shiftl apicid 24)) ;;
  lapicw lapic ICRLO (Z.lor (Z.lor INIT LEVEL) ASSERT) ;;
  lapicw lapic ICRLO (Z.lor INIT LEVEL) ;;
  startup_ipis 2 lapic apicid addr.

(** *** The clock *)
Definition CMOS_STATA : Z := 0x0a.
Definition CMOS_STATB : Z := 0x0b.
Definition CMOS_UIP : Z := 0x80.

Definition cmos_read (reg : Z) : IO Z :=
  outb CMOS_PORT reg ;;
  inb CMOS_RETURN.

(** [struct rtcdate]. *)
Record rtcdate := mkDate { second : Z; minute : Z; hour : Z; day : Z; month : Z; year : Z }.
#[export] Instance rtcdate_eq_dec : EqDecision rtcdate.
Proof. solve_decision. Defined.

Definition fill_rtcdate : IO rtcdate :=
  s <- cmos_read 0x00 ;;
  mi <- cmos_read 0x02 ;;
  h <- cmos_read 0x04 ;;
  d <- cmos_read 0x07 ;;
  mo <- cmos_read 0x08 ;;
  y <- cmos_read 0x09 ;;
  ret (mkDate s mi h d mo y).

(** The loop of [cmostime]: a date read twice with no update in between. *)
Fixpoint stable_date (n : nat) : IO rtcdate :=
  t1 <- fill_rtcdate ;;
  a <- cmos_read CMOS_STATA ;;
  let again := match n with O => stopm NoFuel | S n' => stable_date n' end in
  if negb (Z.land a CMOS_UIP =? 0) then again else
  t2 <- fill_rtcdate ;;
  if bool_decide (t1 = t2) then ret t1 else again.

Definition CONV (x : Z) : Z := u32 (Z.shiftr x 4 * 10 + Z.land x 0xf).
Definition conv_date (t : rtcdate) : rtcdate :=
  mkDate (CONV (second t)) (CONV (minute t)) (CONV (hour t)) (CONV (day t)) (CONV (month t)) (CONV (year t)).
Definition cmostime : IO rtcdate :=
  sb <- cmos_read CMOS_STATB ;;
  let bcd := Z.land sb 4 =? 0 in
  t1 <- stable_date patience ;;
  let t := if bcd then conv_date t1 else t1 in
  ret (mkDate (second t) (minute t) (hour t) (day t) (month t) (u32 (year t + 2000))).

(** ** [uart.c]: [uart] tells whether there is a serial port *)
Definition COM1 : Z := 0x3f8.
Fixpoint wait_sent (n : nat) : IO unit :=
  match n with
  | O => ret tt
  | S n' =>
      v <- inb (COM1 + 5) ;;
      if Z.land v 0x20 =? 0 then wait_sent n' else ret tt
  end.
Definition uart_putc (uart : bool) (c : Z) : IO unit :=
  if negb uart then ret tt else
  wait_sent 128 ;;
  outb COM1 c.
Fixpoint uart_puts (uart : bool) (l : list Z) : IO unit :=
  match l with [] => ret tt | c :: l' => uart_putc uart c ;; uart_puts uart l' end.
Definition uartgetc (uart : bool) : IO Z :=
  if negb uart then ret (-1) else
  v <- inb (COM1 + 5) ;;
  if Z.land v 0x01 =? 0 then ret (-1) else
  inb COM1.
(** Whether a port was found: the value of [uart] afterwards. *)
Definition uartinit : IO bool :=
  outb (COM1 + 2) 0 ;;
  outb (COM1 + 3) 0x80 ;;
  outb COM1 (115200 / 9600) ;;
  outb (COM1 + 1) 0 ;;
  outb (COM1 + 3) 0x03 ;;
  outb (COM1 + 4) 0 ;;
  outb (COM1 + 1) 0x01 ;;
  v <- inb (COM1 + 5) ;;
  if v =? 0xFF then ret false else
  inb (COM1 + 2) ;;
  inb COM1 ;;
  ioapicenable IRQ_COM1 0 ;;
  uart_puts true [120; 118; 54; 46; 46; 46; 10] ;;
  ret true.
End code.

(** ** The I/O APIC

    An index register of eight bits and the registers it selects: the id, the
    version with the number of the last entry (which cannot be written), and
    two words for each entry of the redirection table. *)
Record ioapic := mkIoapic { ia_sel : Z; ia_regs : Z -> Z }.
Definition ioapic_read (a : ioaddr) (d : ioapic) : Z * ioapic :=
  match a with
  | Mmio a => (if a =? IOAPIC then ia_sel d else if a =? IOAPIC + 16 then ia_regs d (ia_sel d) else 0, d)
  | _ => (0xff, d)
  end.
Definition ioapic_write (a : ioaddr) (v : Z) (d : ioapic) : ioapic :=
  match a with
  | Mmio a =>
      if a =? IOAPIC then mkIoapic (u8 v) (ia_regs d) else
      if (a =? IOAPIC + 16) && negb (ia_sel d =? REG_VER) then mkIoapic (ia_sel d) (<[ia_sel d := v]> (ia_regs d)) else d
  | _ => d
  end.
#[export] Instance ioapic_bus : Bus ioapic := { bus_read := ioapic_read; bus_write := ioapic_write }.

Definition maxintr (d : ioapic) : Z := Z.land (Z.shiftr (ia_regs d REG_VER) 16) 0xFF.
(** Where interrupt [i] goes: a vector and a processor, or nowhere. *)
Definition route (d : ioapic) (i : Z) : option (Z * Z) :=
  let lo := ia_regs d (REG_TABLE + 2 * i) in
  if Z.testbit lo 16 then None else Some (Z.land lo 0xFF, Z.shiftr (ia_regs d (REG_TABLE + 2 * i + 1)) 24).
(** The last processor a list of requests names for [i]. *)
Fixpoint requested (es : list (Z * Z)) (i : Z) : option Z :=
  match es with
  | [] => None
  | (irq, c) :: es' => match requested es' i with Some c' => Some c' | None => if irq =? i then Some c else None end
  end.
Fixpoint enable_all (es : list (Z * Z)) : @IO ioapic unit :=
  match es with [] => ret tt | (irq, c) :: es' => ioapicenable irq c ;; enable_all es' end.

Section ioapic.
Implicit Types (d : ioapic) (m : gmap Z Z) (i j : Z).

Lemma wp_ioapicwrite {A} P reg v (k : unit -> IO A) m d Q : 0 <= reg < 256 -> reg <> REG_VER ->
  wp P (k tt (mkMach m (mkIoapic reg (<[reg := v]> (ia_regs d))))) Q -> wp P ((x <- ioapicwrite reg v ;; k x) (mkMach m d)) Q.
Proof.
  intros Hr Hv Hk. unfold ioapicwrite. io_step. cbn [m_mem m_dev bus_write ioapic_bus ioapic_write].
  rewrite Z.eqb_refl. rewrite (proj2 (Z.eqb_neq (IOAPIC + 16) IOAPIC)) by (unfold IOAPIC; lia).
  cbn [ia_sel ia_regs]. rewrite u8_small by done. rewrite Z.eqb_refl, (proj2 (Z.eqb_neq reg REG_VER)) by done. exact Hk.
Qed.
Lemma wp_ioapicread {A} P reg (k : Z -> IO A) m d Q : 0 <= reg < 256 ->
  wp P (k (ia_regs d reg) (mkMach m (mkIoapic reg (ia_regs d)))) Q -> wp P ((x <- ioapicread reg ;; k x) (mkMach m d)) Q.
Proof.
  intros Hr Hk. unfold ioapicread. io_step. cbn [m_mem m_dev bus_write bus_read ioapic_bus ioapic_write ioapic_read fst snd].
  rewrite Z.eqb_refl. rewrite (proj2 (Z.eqb_neq (IOAPIC + 16) IOAPIC)) by (unfold IOAPIC; lia).
  cbn [ia_sel ia_regs]. rewrite u8_small by done. rewrite Z.eqb_refl. exact Hk.
Qed.

(** The words of an entry. *)
Definition entry d i : Z * Z := (ia_regs d (REG_TABLE + 2 * i), ia_regs d (REG_TABLE + 2 * i + 1)).
Definition wired (d : ioapic) i (w : Z * Z) (d' : ioapic) : Prop :=
  entry d' i = w /\ (forall j, j <> i -> entry d' j = entry d j) /\ ia_regs d' REG_VER = ia_regs d REG_VER.

Lemma entry_reg i : 0 <= i < 120 -> (0 <= REG_TABLE + 2 * i < 256 /\ REG_TABLE + 2 * i <> REG_VER) /\
  0 <= REG_TABLE + 2 * i + 1 < 256 /\ REG_TABLE + 2 * i + 1 <> REG_VER.
Proof. unfold REG_TABLE, REG_VER. lia. Qed.
Lemma wired_writes r d i lo hi :
  0 <= i -> wired d i (lo, hi) (mkIoapic r (<[REG_TABLE + 2 * i + 1 := hi]> (<[REG_TABLE + 2 * i := lo]> (ia_regs d)))).
Proof.
  intros Hi. unfold wired, entry. cbn [ia_regs].
  split; [|split; [intros j Hj|]]; repeat first [rewrite fn_lookup_insert | rewrite fn_lookup_insert_ne by (unfold REG_TABLE, REG_VER; lia)]; done.
Qed.
(** The two writes of an entry; [assoc] brings the second to the head. *)
Ltac wire i assoc :=
  apply wp_ioapicwrite; [apply (entry_reg i); lia|apply (entry_reg i); lia|]; assoc;
  apply wp_ioapicwrite; [apply (entry_reg i); lia|apply (entry_reg i); lia|]; cbn [ia_regs];
  match goal with |- context [mkMach _ (mkIoapic ?r (<[_ := ?hi]> (<[_ := ?lo]> (ia_regs ?d))))] =>
    generalize (wired_writes r d i lo hi ltac:(lia));
    generalize (mkIoapic r (<[REG_TABLE + 2 * i + 1 := hi]> (<[REG_TABLE + 2 * i := lo]> (ia_regs d)))) end.

Lemma route_masked d i : 0 <= i -> i < 120 -> entry d i = (Z.lor INT_DISABLED (T_IRQ0 + i), 0) -> route d i = None.
Proof.
  intros H0 H1 [= E1 E2]. unfold route. rewrite E1. unfold INT_DISABLED. rewrite Z.lor_spec. done.
Qed.
Lemma route_wired d i c : 0 <= i < 120 -> 0 <= c < 256 ->
  entry d i = (T_IRQ0 + i, u32 (Z.shiftl c 24)) -> route d i = Some (T_IRQ0 + i, c).
Proof.
  intros Hi Hc [= E1 E2]. unfold route. rewrite E1, E2. unfold T_IRQ0.
  rewrite Z.bits_above_log2 by (try lia; apply Z.log2_lt_pow2; lia).
  rewrite (Z.land_ones _ 8), Z.mod_small by lia.
  rewrite Z.shiftl_mul_pow2, Z.shiftr_div_pow2, u32_small, Z.div_mul by lia. done.
Qed.

Lemma wp_mask_all {A} P (k : unit -> IO A) Q m (n : nat) : forall i d, 0 <= i -> i + Z.of_nat n <= 120 ->
  (forall d', (forall j, i <= j < i + Z.of_nat n -> entry d' j = (Z.lor INT_DISABLED (T_IRQ0 + j), 0)) ->
    (forall j, j < i -> entry d' j = entry d j) -> ia_regs d' REG_VER = ia_regs d REG_VER -> wp P (k tt (mkMach m d')) Q) ->
  wp P ((x <- mask_all n i ;; k x) (mkMach m d)) Q.
Proof.
  induction n as [|n IH]; intros i d Hi Hn Hk; cbn [mask_all].
  { apply wp_ret_bind, Hk; [lia|done|done]. }
  apply wp_assoc. wire i ltac:(apply wp_assoc). intros d1 (Ei & Ho & Ev).
  apply IH; [lia|lia|]. intros d2 Hin Hlt Ev2. apply Hk; [|intros j Hj; rewrite Hlt, Ho by lia; done|by rewrite Ev2].
  intros j Hj. destruct (decide (j = i)) as [->|Hne]; [rewrite Hlt by lia; done|apply Hin; lia].
Qed.

Lemma wp_enable_all {A} P (k : unit -> IO A) Q m es : forall d,
  Forall (fun e => 0 <= e.1 < 120 /\ 0 <= e.2 < 256) es ->
  (forall d', (forall i, 0 <= i < 120 -> route d' i = match requested es i with Some c => Some (T_IRQ0 + i, c) | None => route d i end) ->
    ia_regs d' REG_VER = ia_regs d REG_VER -> wp P (k tt (mkMach m d')) Q) ->
  wp P ((x <- enable_all es ;; k x) (mkMach m d)) Q.
Proof.
  induction es as [|[irq c] es IH]; intros d Hes Hk; cbn [enable_all].
  { apply wp_ret_bind, Hk; done. }
  inversion Hes as [|? ? [Hirq Hc] Hes']; subst. cbn [fst snd] in *.
  unfold ioapicenable. do 2 apply wp_assoc. wire irq idtac. intros d1 (Ei & Ho & Ev).
  apply IH; [done|]. intros d2 Hr Ev2. apply Hk; [|by rewrite Ev2].
  intros i Hi. rewrite Hr by done. cbn [requested]. destruct (requested es i); [done|].
  destruct (irq =? i) eqn:E; [apply Z.eqb_eq in E; subst i; by apply route_wired|].
  specialize (Ho i ltac:(lia)). unfold entry in Ho. injection Ho as E1 E2. unfold route. by rewrite E1, E2.
Qed.

(** the interrupt table the drivers see: after [ioapicinit], then any calls of
    [ioapicenable], interrupt [i] is delivered as vector [T_IRQ0 + i] to the
    processor the last call for [i] names, and is masked if there is none,
    whatever the table held before. *)
Theorem ioapic_routes ioapicid es m d : maxintr d < 120 ->
  Forall (fun e => 0 <= e.1 <= maxintr d /\ 0 <= e.2 < 256) es ->
  wp atomic ((ioapicinit ioapicid ;; enable_all es) (mkMach m d)) (fun _ s => m_mem s = m /\
    forall i, 0 <= i <= maxintr d -> route (m_dev s) i = (fun c => (T_IRQ0 + i, c)) <$> requested es i).
Proof.
  intros Hmax Hes. unfold ioapicinit.
  assert (0 <= maxintr d) as H0 by (apply Z.land_nonneg; right; lia).
  apply wp_assoc, wp_ioapicread; [done|]. apply wp_assoc, wp_ioapicread; [done|]. cbn [ia_regs].
  fold (maxintr d). apply wp_assoc, wp_mask_all; [lia|lia|]. intros d1 Hin _ Ev. apply wp_ret_bind.
  apply wp_tail, wp_enable_all; [eapply Forall_impl; [exact Hes|]; intros [? ?]; cbn; lia|].
  intros d2 Hr _. apply wp_ret. cbn [m_mem m_dev]. split; [done|]. intros i Hi. rewrite Hr by lia.
  destruct (requested es i); [done|]. apply route_masked; [lia|lia|]. apply Hin; lia.
Qed.
End ioapic.

(** Twenty-four entries; the keyboard and the disk go to processors 0 and 3. *)
Definition demo_ioapic : ioapic := mkIoapic 0 (fun r => if r =? REG_VER then 0x170011 else 7).
Lemma ioapic_routes_witness :
  wp atomic ((@ioapicinit ioapic _ 0 ;; enable_all [(IRQ_KBD, 0); (IRQ_IDE, 3)]) (mkMach ∅ demo_ioapic)) (fun _ s =>
    route (m_dev s) IRQ_KBD = Some (33, 0) /\ route (m_dev s) IRQ_IDE = Some (46, 3) /\ route (m_dev s) IRQ_COM1 = None).
Proof.
  eapply wp_mono.
  - apply (ioapic_routes 0 [(IRQ_KBD, 0); (IRQ_IDE, 3)] ∅ demo_ioapic); [vm_compute; reflexivity|].
    repeat constructor; vm_compute; congruence.
  - intros [] s [_ Hr]. rewrite !Hr by (vm_compute; split; congruence). split; [reflexivity|]. split; reflexivity.
Defined.

(** ** The real-time clock

    Two ports: an index and the byte it selects.  Time passes with every read:
    [r_clock t] is the date (with a year of two digits) the clock shows at the
    [t]-th read, [r_updating t] whether it announces an update.  The fields
    are in binary or in BCD, which status register B tells. *)
Record rtc := mkRtc { r_sel : Z; r_time : nat; r_clock : nat -> rtcdate; r_updating : nat -> bool; r_binary : bool }.

Definition bcd (x : Z) : Z := 16 * (x / 10) + x mod 10.
Definition shown (d : rtc) (x : Z) : Z := if r_binary d then x else bcd x.
Definition rtc_reg (d : rtc) (reg : Z) : Z :=
  let now := r_clock d (r_time d) in
  if reg =? 0 then shown d (second now) else
  if reg =? 2 then shown d (minute now) else
  if reg =? 4 then shown d (hour now) else
  if reg =? 7 then shown d (day now) else
  if reg =? 8 then shown d (month now) else
  if reg =? 9 then shown d (year now) else
  if reg =? 0x0a then (if r_updating d (r_time d) then 0xa6 else 0x26) else
  if reg =? 0x0b then (if r_binary d then 6 else 2) else 0.
Definition tick (d : rtc) : rtc := mkRtc (r_sel d) (S (r_time d)) (r_clock d) (r_updating d) (r_binary d).
Definition rtc_read (a : ioaddr) (d : rtc) : Z * rtc :=
  match a with
  | Port8 p => if p =? 0x71 then (rtc_reg d (r_sel d), tick d) else (0xff, d)
  | _ => (0xff, d)
  end.
Definition rtc_write (a : ioaddr) (v : Z) (d : rtc) : rtc :=
  match a with
  | Port8 p => if p =? 0x70 then mkRtc v (r_time d) (r_clock d) (r_updating d) (r_binary d) else d
  | _ => d
  end.
#[export] Instance rtc_bus : Bus rtc := { bus_read := rtc_read; bus_write := rtc_write }.

Definition digits2 (x : Z) : Prop := 0 <= x < 100.
Definition date_ok (t : rtcdate) : Prop :=
  digits2 (second t) /\ digits2 (minute t) /\ digits2 (hour t) /\ digits2 (day t) /\ digits2 (month t) /\ digits2 (year t).

(** What the clock promises: as long as no update is announced, the next six
    reads see the date of this moment. *)
Record rtc_ok (d : rtc) : Prop := mkRtcOk {
  ro_date : forall t, date_ok (r_clock d t);
  ro_still : forall t k, r_updating d t = false -> (k <= 6)%nat -> r_clock d (t + k) = r_clock d t }.
(** No update is announced in the 25 reads from [q] on. *)
Definition quiet (d : rtc) (q : nat) : Prop := forall k, (k < 25)%nat -> r_updating d (q + k) = false.

(** The date of the program. *)
Definition full_date (t : rtcdate) : rtcdate :=
  mkDate (second t) (minute t) (hour t) (day t) (month t) (year t + 2000).

Section clock.
Implicit Types (d : rtc) (m : gmap Z Z) (x : Z) (t : nat).

Lemma CONV_bcd x : digits2 x -> CONV (bcd x) = x.
Proof.
  unfold digits2, CONV, bcd. intros Hx.
  assert (Z.shiftr (16 * (x / 10) + x mod 10) 4 = x / 10) as -> by (rewrite Z.shiftr_div_pow2 by lia; change (2 ^ 4) with 16; Z.to_euclidean_division_equations; lia).
  rewrite (Z.land_ones _ 4) by lia. change (2 ^ 4) with 16. rewrite u32_small; Z.to_euclidean_division_equations; lia.
Qed.
Lemma shown_byte d x : digits2 x -> u8 (shown d x) = shown d x.
Proof. unfold digits2, shown, bcd. intros Hx. apply u8_small. destruct (r_binary d); Z.to_euclidean_division_equations; lia. Qed.
Lemma shown_inj d x y : digits2 x -> digits2 y -> shown d x = shown d y -> x = y.
Proof.
  unfold shown. intros Hx Hy. destruct (r_binary d); [done|]. intros E%(f_equal CONV). by rewrite !CONV_bcd in E.
Qed.

(** The clock [t] reads later. *)
Definition later (d : rtc) t (d' : rtc) : Prop :=
  r_time d' = (r_time d + t)%nat /\ r_clock d' = r_clock d /\ r_updating d' = r_updating d /\ r_binary d' = r_binary d.

Lemma wp_cmos_read {A} P reg (k : Z -> IO A) m d Q : 0 <= reg < 256 ->
  (forall d', later d 1 d' -> wp P (k (u8 (rtc_reg d reg)) (mkMach m d')) Q) ->
  wp P ((x <- cmos_read reg ;; k x) (mkMach m d)) Q.
Proof.
  intros Hr Hk. unfold cmos_read. io_step. cbn [m_mem m_dev bus_read bus_write rtc_bus rtc_read rtc_write].
  rewrite (u8_small reg) by done. change (CMOS_PORT =? 0x70) with true. change (CMOS_RETURN =? 0x71) with true. cbv iota. cbn [fst snd].
  apply Hk. unfold later, tick. cbn. split; [lia|done].
Qed.

(** The fields of the dates at six consecutive reads. *)
Definition torn (d : rtc) t : rtcdate :=
  mkDate (shown d (second (r_clock d t))) (shown d (minute (r_clock d (t + 1)))) (shown d (hour (r_clock d (t + 2))))
    (shown d (day (r_clock d (t + 3)))) (shown d (month (r_clock d (t + 4)))) (shown d (year (r_clock d (t + 5)))).

Lemma rtc_reg_later d t d' reg : later d t d' -> rtc_reg d' reg = rtc_reg (mkRtc (r_sel d) (r_time d + t) (r_clock d) (r_updating d) (r_binary d)) reg.
Proof. intros (Et & Ec & Eu & Eb). unfold rtc_reg, shown. cbn. by rewrite Et, Ec, Eu, Eb. Qed.
Lemma later_trans d t d' t' d'' : later d t d' -> later d' t' d'' -> later d (t + t') d''.
Proof. intros (Et & Ec & Eu & Eb) (Et' & Ec' & Eu' & Eb'). unfold later. rewrite Et', Et, Ec', Eu', Eb'. split; [lia|done]. Qed.

Lemma wp_fill_rtcdate {A} P (k : rtcdate -> IO A) m d Q : rtc_ok d ->
  (forall d', later d 6 d' -> wp P (k (torn d (r_time d)) (mkMach m d')) Q) ->
  wp P ((x <- fill_rtcdate ;; k x) (mkMach m d)) Q.
Proof.
  intros [Hd _] Hk. unfold fill_rtcdate.
  apply wp_assoc, wp_cmos_read; [done|]. intros d1 L1.
  apply wp_assoc, wp_cmos_read; [done|]. intros d2 L2%(later_trans _ _ _ _ _ L1).
  apply wp_assoc, wp_cmos_read; [done|]. intros d3 L3%(later_trans _ _ _ _ _ L2).
  apply wp_assoc, wp_cmos_read; [done|]. intros d4 L4%(later_trans _ _ _ _ _ L3).
  apply wp_assoc, wp_cmos_read; [done|]. intros d5 L5%(later_trans _ _ _ _ _ L4).
  apply wp_assoc, wp_cmos_read; [done|]. intros d6 L6%(later_trans _ _ _ _ _ L5).
  apply wp_ret_bind. rewrite (rtc_reg_later _ _ _ _ L1), (rtc_reg_later _ _ _ _ L2), (rtc_reg_later _ _ _ _ L3), (rtc_reg_later _ _ _ _ L4), (rtc_reg_later _ _ _ _ L5).
  unfold rtc_reg. cbn [Z.eqb Pos.eqb r_clock r_time r_binary]. cbn [Nat.add] in *.
  change (shown (mkRtc (r_sel d) _ (r_clock d) (r_updating d) (r_binary d))) with (shown d).
  rewrite !shown_byte by apply Hd. by apply Hk.
Qed.

Definition shown_date (d : rtc) (c : rtcdate) : rtcdate :=
  mkDate (shown d (second c)) (shown d (minute c)) (shown d (hour c)) (shown d (day c)) (shown d (month c)) (shown d (year c)).

Lemma later_ok d t d' : later d t d' -> rtc_ok d -> rtc_ok d'.
Proof. intros (Et & Ec & Eu & Eb) [H1 H2]. split; rewrite ?Ec, ?Eu; done. Qed.
Lemma later_torn d t d' (u : nat) : later d t d' -> torn d' u = torn d u.
Proof. intros (Et & Ec & Eu & Eb). unfold torn, shown. by rewrite Ec, Eb. Qed.
Lemma torn_still d t : rtc_ok d -> r_updating d t = false -> torn d (t + 1) = shown_date d (r_clock d t).
Proof.
  intros [_ Hs] Hu. unfold torn. rewrite <- !Nat.add_assoc. cbn [Nat.add].
  by rewrite (Hs t 1%nat), (Hs t 2%nat), (Hs t 3%nat), (Hs t 4%nat), (Hs t 5%nat), (Hs t 6%nat) by (done || lia).
Qed.
(** In a quiet time both readings agree. *)
Lemma torn_quiet d t q : rtc_ok d -> quiet d q -> (q <= t <= q + 12)%nat ->
  r_updating d (t + 6) = false /\ torn d t = torn d (t + 6 + 1).
Proof.
  intros Ho Hq Ht. pose proof Ho as [_ Hs].
  assert (forall k, (k <= 12)%nat -> r_updating d (t + k) = false) as Hu.
  { intros k Hk. replace (t + k)%nat with (q + (t - q + k))%nat by lia. apply Hq. lia. }
  assert (forall k, (k <= 12)%nat -> r_clock d (t + k) = r_clock d t) as Hc.
  { induction k as [|k IH]; intros Hk; [by rewrite Nat.add_0_r|]. rewrite <- IH by lia.
    replace (t + S k)%nat with (t + k + 1)%nat by lia. apply Hs; [apply Hu; lia|lia]. }
  split; [apply Hu; lia|]. rewrite torn_still by (try done; apply Hu; lia). unfold torn. by rewrite !Hc by lia.
Qed.

Lemma stata_bit d : Z.land (u8 (rtc_reg d CMOS_STATA)) CMOS_UIP = if r_updating d (r_time d) then 128 else 0.
Proof. unfold rtc_reg, CMOS_STATA. cbn [Z.eqb Pos.eqb]. by destruct (r_updating d (r_time d)). Qed.

(** The loop ends with a date the clock showed meanwhile. *)
Lemma wp_stable_date {A} P (k : rtcdate -> IO A) m Q q n : forall d,
  rtc_ok d -> quiet d q -> (r_time d <= q + 12)%nat -> (q <= r_time d + 7 * n)%nat ->
  (forall d' t u, later d u d' -> (t < u)%nat -> wp P (k (shown_date d (r_clock d (r_time d + t))) (mkMach m d')) Q) ->
  wp P ((x <- stable_date n ;; k x) (mkMach m d)) Q.
Proof.
  induction n as [|n IH]; intros d Ho Hq Hlo Hhi Hk; cbn [stable_date]; cbv zeta.
  all: apply wp_assoc, wp_fill_rtcdate; [done|]; intros d1 L1.
  all: apply wp_assoc, wp_cmos_read; [done|]; intros d2 L2%(later_trans _ _ _ _ _ L1).
  all: rewrite stata_bit; pose proof L1 as (Et & Ec & Eu & Eb); rewrite Et, Eu; pose proof L2 as (Et2 & Ec2 & Eu2 & Eb2).
  all: destruct (decide (q <= r_time d)%nat) as [Hge|Hlt]; [|try lia].
  1,2: destruct (torn_quiet d (r_time d) q Ho Hq ltac:(lia)) as [Hu Ht]; rewrite Hu; cbn [Z.eqb negb].
  1,2: apply wp_assoc, wp_fill_rtcdate; [by eapply later_ok|]; intros d3 L3%(later_trans _ _ _ _ _ L2).
  1,2: rewrite (later_torn _ _ _ _ L2), Et2; rewrite bool_decide_true by (rewrite Ht; f_equal; lia).
  1,2: apply wp_ret_bind; rewrite Ht, torn_still by done; eapply Hk; [exact L3|lia].
  assert (forall d3 j, later d j d3 -> (7 <= j <= 13)%nat -> wp P ((x <- stable_date n ;; k x) (mkMach m d3)) Q) as Hag.
  { intros d3 j (Ej & Ecj & Euj & Ebj) Hj. apply IH; [split; rewrite ?Ecj, ?Euj; apply Ho| |lia|lia|].
    - intros i Hi. rewrite Euj. by apply Hq.
    - intros d' t u (E4 & Ec4 & Eu4 & Eb4) Htu. rewrite Ecj, Ej, <- Nat.add_assoc.
      unfold shown_date, shown. rewrite Ebj. apply (Hk d' (j + t)%nat (j + u)%nat); [|lia].
      unfold later. rewrite E4, Ec4, Eu4, Eb4. repeat split; [lia|done..]. }
  destruct (r_updating d (r_time d + 6)) eqn:Hu; cbn [Z.eqb negb]; [eapply Hag; [eassumption|lia]|].
  apply wp_assoc, wp_fill_rtcdate; [by eapply later_ok|]. intros d3 L3%(later_trans _ _ _ _ _ L2).
  rewrite (later_torn _ _ _ _ L2), Et2. case_bool_decide as Heq; [|eapply Hag; [eassumption|lia]].
  apply wp_ret_bind. rewrite Heq. replace (r_time d + (6 + 1))%nat with (r_time d + 6 + 1)%nat by lia.
  rewrite torn_still by done. eapply Hk; [exact L3|lia].
Qed.

Lemma conv_shown d c : date_ok c -> (if r_binary d then shown_date d c else conv_date (shown_date d c)) = c.
Proof.
  intros (H1 & H2 & H3 & H4 & H5 & H6). destruct c. unfold shown_date, shown, conv_date. cbn in *.
  destruct (r_binary d); [done|]. cbn. by rewrite !CONV_bcd.
Qed.

Context `{!Patience}.

(** [cmostime] returns a date that the clock really showed during the call,
    never a mixture of two, in either encoding, if no update is announced
    during 25 reads that begin within the bound on the loop. *)
Theorem cmostime_reads q m d : rtc_ok d -> quiet d q -> (r_time d < q <= r_time d + 7 * patience)%nat ->
  wp atomic (cmostime (mkMach m d)) (fun r s => exists t, (r_time d < t < r_time (m_dev s))%nat /\ r = full_date (r_clock d t)).
Proof.
  intros Ho Hq Hw. unfold cmostime. apply wp_cmos_read; [done|]. intros d1 L1. pose proof L1 as (E1 & Ec & Eu & Eb).
  assert ((Z.land (u8 (rtc_reg d CMOS_STATB)) 4 =? 0) = negb (r_binary d)) as -> by (unfold rtc_reg, CMOS_STATB; cbn [Z.eqb Pos.eqb]; by destruct (r_binary d)).
  eapply (wp_stable_date _ _ _ _ q); [by eapply later_ok|intros k Hk; rewrite Eu; by apply Hq|lia|lia|].
  intros d2 t u (E2 & _) Htu. apply wp_ret. cbn [m_dev]. exists (r_time d1 + t)%nat. split; [lia|].
  destruct (ro_date d Ho (r_time d1 + t)%nat) as (? & ? & ? & ? & ? & Hy).
  pose proof (conv_shown d1 (r_clock d1 (r_time d1 + t))) as Hc. rewrite Ec, Eb in Hc. rewrite Ec.
  destruct (r_binary d); cbn [negb]; rewrite Hc by done; unfold full_date; rewrite u32_small by (unfold digits2 in *; lia); done.
Qed.
End clock.

(** A BCD clock that passes midnight at its twentieth read. *)
Definition demo_rtc : rtc := mkRtc 0 0
  (fun t => if (t <? 20)%nat then mkDate 59 59 23 31 12 21 else mkDate 0 0 0 1 1 22)
  (fun t => (14 <=? t)%nat && (t <? 20)%nat) false.
Lemma cmostime_reads_witness : let _ : Patience := 5%nat in
  wp atomic (cmostime (mkMach ∅ demo_rtc)) (fun r s => exists t, (0 < t < r_time (m_dev s))%nat /\ r = full_date (r_clock demo_rtc t)).
Proof.
  intros pt. apply (@cmostime_reads pt 20%nat ∅ demo_rtc).
  - split.
    + intros t. unfold demo_rtc. cbn [r_clock]. destruct (t <? 20)%nat; vm_compute; intuition congruence.
    + unfold demo_rtc. cbn [r_clock r_updating]. intros t k Hu Hk.
      destruct (Nat.leb_spec 14 t), (Nat.ltb_spec t 20), (Nat.ltb_spec (t + k) 20); try discriminate Hu; try reflexivity; lia.
  - intros k Hk. unfold demo_rtc. cbn [r_updating]. destruct (Nat.ltb_spec (20 + k) 20); [lia|]. apply andb_false_r.
  - unfold patience, pt. cbn [r_time demo_rtc]. lia.
Defined.
