(* ===== verification/Mp.v ===== *)
(** * Processor discovery ([kernel/mp.c], [kernel/mp.h])

    The BIOS leaves a floating structure in one of three areas, which points
    to a configuration table with an entry for every processor, bus, I/O APIC
    and interrupt source.  [mpinit] looks for both and records the local APIC
    ids of the processors, the id of the I/O APIC and the address of the local
    APIC.

    The functions that only read memory are functions of it.  The regions that
    are searched lie in the first 64 megabytes, so their addresses cannot wrap
    around; the table's address comes from the BIOS and is kept to 32 bits. *)
From S2P Require Import Prelude Types Str Device Boot Apic.

Section code.
Implicit Types (m : gmap Z Z) (a p e len : Z) (n : nat).

Definition NCPU : Z := 8.
Definition MPPROC : Z := 0x00.
Definition MPBUS : Z := 0x01.
Definition MPIOAPIC : Z := 0x02.
Definition MPIOINTR : Z := 0x03.
Definition MPLINTR : Z := 0x04.

(** [struct mp]: 16 bytes. *)
Definition sizeof_mp : Z := 16.
Definition mp_physaddr : Z := 4.
Definition mp_imcrp : Z := 12.
(** [struct mpconf]: 44 bytes. *)
Definition sizeof_mpconf : Z := 44.
Definition mpconf_length : Z := 4.
Definition mpconf_version : Z := 6.
Definition mpconf_lapicaddr : Z := 36.
(** [struct mpproc] and [struct mpioapic]; the id is the second byte of both. *)
Definition sizeof_mpproc : Z := 20.
Definition sizeof_mpioapic : Z := 8.
Definition mp_apicid : Z := 1.

Fixpoint sum_loop n addr m (acc : Z) : Z :=
  match n with O => acc | S n' => sum_loop n' (addr + 1) m (acc + load8 m addr) end.
Definition sum m addr len : Z := u8 (sum_loop (Z.to_nat len) addr m 0).

(** [memcmp] of memory with a string constant. *)
Fixpoint memcmp_const m p (l : list Z) : Z :=
  match l with
  | [] => 0
  | c :: l' => if negb (load8 m p =? c) then load8 m p - c else memcmp_const m (p + 1) l'
  end.
(** ["_MP_"] and ["PCMP"]. *)
Definition mp_sig : list Z := [95; 77; 80; 95].
Definition pcmp_sig : list Z := [80; 67; 77; 80].

Fixpoint mpsearch1_loop n p e m : Z :=
  match n with
  | O => 0
  | S n' =>
      if negb (p <? e) then 0 else
      if (memcmp_const m p mp_sig =? 0) && (sum m p sizeof_mp =? 0) then p
      else mpsearch1_loop n' (p + sizeof_mp) e m
  end.
Definition mpsearch1 m a len : Z :=
  let addr := P2V a in
  mpsearch1_loop (S (Z.to_nat (len / sizeof_mp))) addr (addr + len) m.

Definition mpsearch m : Z :=
  let bda := P2V 0x400 in
  let p := Z.shiftl (Z.lor (Z.shiftl (load8 m (bda + 0x0F)) 8) (load8 m (bda + 0x0E))) 4 in
  let last := mpsearch1 m 0xF0000 0x10000 in
  if negb (p =? 0) then
    let mp := mpsearch1 m p 1024 in
    if negb (mp =? 0) then mp else last
  else
    let p := Z.lor (Z.shiftl (load8 m (bda + 0x14)) 8) (load8 m (bda + 0x13)) * 1024 in
    let mp := mpsearch1 m (u32 (p - 1024)) 1024 in
    if negb (mp =? 0) then mp else last.

Definition load16 m a : Z := load8 m a + 2 ^ 8 * load8 m (a + 1).

(** The table and the floating structure, if they are found. *)
Definition mpconfig m : option (Z * Z) :=
  let mp := mpsearch m in
  if (mp =? 0) || (load32 m (mp + mp_physaddr) =? 0) then None else
  let conf := P2V (load32 m (mp + mp_physaddr)) in
  if negb (memcmp_const m conf pcmp_sig =? 0) then None else
  let version := load8 m (conf + mpconf_version) in
  if negb (version =? 1) && negb (version =? 4) then None else
  if negb (sum m conf (load16 m (conf + mpconf_length)) =? 0) then None else
  Some (conf, mp).

(** The globals [mpinit] sets: [lapic], the [apicid]s of the first [ncpu]
    members of [cpus], and [ioapicid]. *)
Record mpinfo := mkMpinfo { mi_lapic : Z; mi_apicids : list Z; mi_ioapicid : Z }.
Definition ncpu (i : mpinfo) : Z := Z.of_nat (length (mi_apicids i)).

Context {D : Type} `{!Bus D}.
#[local] Abbreviation IO := (@IO D).

(** The loop over the entries; [ismp] and what has been recorded.  [break] in
    the default case leaves the [switch] and not the loop. *)
Fixpoint mp_entries n p e (ismp : bool) (i : mpinfo) : IO (bool * mpinfo) :=
  match n with
  | O => stopm NoFuel
  | S n' =>
      if negb (p <? e) then ret (ismp, i) else
      let* t := gets (fun s => load8 (m_mem s) p) in
      if t =? MPPROC then
        let* id := gets (fun s => load8 (m_mem s) (p + mp_apicid)) in
        let i := if ncpu i <? NCPU then mkMpinfo (mi_lapic i) (mi_apicids i ++ [id]) (mi_ioapicid i) else i in
        mp_entries n' (u32 (p + sizeof_mpproc)) e ismp i
      else if t =? MPIOAPIC then
        let* id := gets (fun s => load8 (m_mem s) (p + mp_apicid)) in
        mp_entries n' (u32 (p + sizeof_mpioapic)) e ismp (mkMpinfo (mi_lapic i) (mi_apicids i) id)
      else if (t =? MPBUS) || (t =? MPIOINTR) || (t =? MPLINTR) then
        mp_entries n' (u32 (p + 8)) e ismp i
      else mp_entries n' p e false i
  end.

(** At most [n] entries are visited. *)
Definition mpinit n : IO mpinfo :=
  let* c := gets (fun s => mpconfig (m_mem s)) in
  match c with
  | None => stopm (Panic "Expect to run on an SMP")
  | Some (conf, mp) =>
      let* lapic := gets (fun s => load32 (m_mem s) (conf + mpconf_lapicaddr)) in
      let* len := gets (fun s => load16 (m_mem s) (conf + mpconf_length)) in
      let* r := mp_entries n (u32 (conf + sizeof_mpconf)) (u32 (conf + len)) true (mkMpinfo lapic [] 0) in
      let '(ismp, i) := r in
      if negb ismp then stopm (Panic "Didn't find a suitable machine") else
      let* imcrp := gets (fun s => load8 (m_mem s) (mp + mp_imcrp)) in
      (if negb (imcrp =? 0) then
        outb 0x22 0x70 ;;
        let* v := inb 0x23 in
        outb 0x23 (Z.lor v 1)
      else ret tt) ;;
      ret i
  end.
End code.

(** ** The search *)
Section search.
Implicit Types (m : gmap Z Z) (a p len : Z).

(** Bytes at an address. *)
Definition bytes_at m p (l : list Z) : Prop := forall (k : nat) v, l !! k = Some v -> load8 m (p + Z.of_nat k) = v.
Definition checksum (l : list Z) : Z := foldr Z.add 0 l mod 256.

(** A floating structure: its signature, and its bytes add up to 0. *)
Definition mp_valid m p : Prop := mem_bytes m p 4 = mp_sig /\ checksum (mem_bytes m p 16) = 0.
#[export] Instance mp_valid_dec m p : Decision (mp_valid m p).
Proof. unfold mp_valid. apply _. Defined.

(** Where the specification says it may be: paragraphs of the first kilobyte of
    the extended BIOS data area, or of the last kilobyte of base memory if
    there is none, and then of the BIOS. *)
Definition paragraphs a len : list Z := (fun k => P2V a + 16 * Z.of_nat k) <$> seq 0 (Z.to_nat (len / 16)).
Definition ebda m : Z := 16 * load16 m (P2V 0x40E).
Definition basemem m : Z := 1024 * load16 m (P2V 0x413).
Definition mp_areas m : list Z :=
  (if ebda m =? 0 then paragraphs (u32 (basemem m - 1024)) 1024 else paragraphs (ebda m) 1024) ++ paragraphs 0xF0000 0x10000.
Definition first_mp m (l : list Z) : option Z := head (filter (mp_valid m) l).

Lemma sum_loop_spec m n : forall p acc, sum_loop n p m acc = acc + foldr Z.add 0 (mem_bytes m p n).
Proof. induction n as [|n IH]; intros p acc; [cbn; lia|]. rewrite mem_bytes_S. cbn [sum_loop foldr]. rewrite IH. lia. Qed.
Lemma sum_spec m p len : sum m p len = checksum (mem_bytes m p (Z.to_nat len)).
Proof. unfold sum, checksum. by rewrite sum_loop_spec. Qed.
Lemma memcmp_const_spec m l : forall p, memcmp_const m p l = 0 <-> mem_bytes m p (length l) = l.
Proof.
  induction l as [|c l IH]; intros p; [done|]. cbn [memcmp_const length]. rewrite mem_bytes_S.
  destruct (Z.eqb_spec (load8 m p) c) as [->|Hc]; cbn [negb]; [rewrite IH; split; congruence|].
  split; [lia|congruence].
Qed.

Lemma mp_test m p : (memcmp_const m p mp_sig =? 0) && (sum m p sizeof_mp =? 0) = bool_decide (mp_valid m p).
Proof.
  apply eq_bool_prop_intro. rewrite andb_True, bool_decide_spec, !Is_true_true, !Z.eqb_eq, memcmp_const_spec, sum_spec. done.
Qed.
Lemma mpsearch1_loop_S n p e m : mpsearch1_loop (S n) p e m =
  if negb (p <? e) then 0 else if bool_decide (mp_valid m p) then p else mpsearch1_loop n (p + 16) e m.
Proof. rewrite <- mp_test. done. Qed.
Lemma mpsearch1_loop_spec m e n : forall p, e = p + 16 * Z.of_nat n ->
  mpsearch1_loop (S n) p e m = default 0 (first_mp m ((fun k => p + 16 * Z.of_nat k) <$> seq 0 n)).
Proof.
  induction n as [|n IH]; intros p He; rewrite mpsearch1_loop_S.
  - destruct (Z.ltb_spec p e); [lia|done].
  - destruct (Z.ltb_spec p e); [cbn [negb]|lia]. cbn [seq]. rewrite fmap_cons.
    replace (p + 16 * Z.of_nat 0) with p by lia. unfold first_mp. rewrite filter_cons. case_bool_decide; [by rewrite decide_True|].
    rewrite decide_False by done. rewrite IH by lia. unfold first_mp. do 3 f_equal.
    rewrite <- fmap_S_seq, <- list_fmap_compose. apply list_fmap_ext. intros ? k ?. cbn. lia.
Qed.
Lemma mpsearch1_spec m a len : 0 <= len -> len mod 16 = 0 -> mpsearch1 m a len = default 0 (first_mp m (paragraphs a len)).
Proof.
  intros H0 Hm. unfold mpsearch1. apply mpsearch1_loop_spec. unfold sizeof_mp. pose proof (Z.div_mod len 16). lia.
Qed.
Lemma first_mp_app m l l' : first_mp m (l ++ l') = match first_mp m l with Some p => Some p | None => first_mp m l' end.
Proof. unfold first_mp. rewrite filter_app. by destruct (filter _ l). Qed.
Lemma first_mp_elem m l p : first_mp m l = Some p -> p ∈ l /\ mp_valid m p.
Proof.
  intros Hf. unfold first_mp in Hf. destruct (filter _ _) as [|q l'] eqn:E; [done|]. injection Hf as ->.
  assert (p ∈ filter (mp_valid m) l) as Hp by (rewrite E; left). by apply list_elem_of_filter in Hp as [? ?].
Qed.
Lemma first_mp_pos m a len p : 0 < P2V a -> first_mp m (paragraphs a len) = Some p -> p <> 0.
Proof. intros Ha [(k & -> & _)%list_elem_of_fmap _]%first_mp_elem. lia. Qed.

Lemma lor_bytes hi lo : 0 <= lo < 256 -> Z.lor (Z.shiftl hi 8) lo = lo + 2 ^ 8 * hi.
Proof.
  intros Hlo. rewrite Z.shiftl_mul_pow2 by lia. rewrite <- Z.add_nocarry_lor; [lia|].
  apply Z.bits_inj'. intros i Hi. rewrite Z.land_spec, Z.bits_0. destruct (decide (i < 8)).
  - rewrite Z.mul_pow2_bits_low by lia. done.
  - rewrite (Z.bits_above_log2 lo), andb_false_r; [done|lia|]. destruct (decide (lo = 0)) as [->|]; [cbn; lia|].
    apply Z.log2_lt_pow2; [lia|]. pose proof (Z.pow_le_mono_r 2 8 i). lia.
Qed.

Lemma areas_pos m : mem_ok m -> 0 < P2V (ebda m) /\ 0 < P2V (u32 (basemem m - 1024)).
Proof.
  intros Hm. pose proof (load8_range m) as Hb. split.
  - pose proof (Hb (P2V 0x40E) Hm). pose proof (Hb (P2V 0x40E + 1) Hm). unfold P2V at 1. rewrite u32_small; unfold ebda, load16, KERNBASE; lia.
  - pose proof (Hb (P2V 0x413) Hm). pose proof (Hb (P2V 0x413 + 1) Hm). set (b := basemem m).
    assert (0 <= b < 2 ^ 27) as Hr by (unfold b, basemem, load16; lia). assert (b = 0 \/ 1024 <= b) as [->|Hge] by (unfold b, basemem in *; lia); [done|].
    rewrite (u32_small (b - 1024)) by lia. unfold P2V. rewrite u32_small; unfold KERNBASE; lia.
Qed.
Lemma first_area_pos m p : mem_ok m -> first_mp m (mp_areas m) = Some p -> p <> 0.
Proof.
  intros Hm. destruct (areas_pos m Hm) as [He Hbm]. unfold mp_areas. rewrite first_mp_app. intros Hf.
  destruct (first_mp m (if ebda m =? 0 then _ else _)) as [q|] eqn:E; [injection Hf as ->|by eapply first_mp_pos in Hf].
  destruct (ebda m =? 0); by eapply first_mp_pos in E.
Qed.

Lemma mpsearch_spec m : mem_ok m -> mpsearch m = default 0 (first_mp m (mp_areas m)).
Proof.
  intros Hm. unfold mpsearch. cbv zeta. rewrite !lor_bytes by (by apply load8_range).
  change (P2V 0x400 + 0x0E) with (P2V 0x40E). change (P2V 0x400 + 0x0F) with (P2V 0x40E + 1).
  change (P2V 0x400 + 0x13) with (P2V 0x413). change (P2V 0x400 + 0x14) with (P2V 0x413 + 1).
  fold (load16 m (P2V 0x40E)) (load16 m (P2V 0x413)).
  rewrite Z.shiftl_mul_pow2 by lia. change (2 ^ 4) with 16. rewrite (Z.mul_comm _ 16), (Z.mul_comm _ 1024). fold (ebda m) (basemem m).
  rewrite !mpsearch1_spec by done. unfold mp_areas.
  destruct (areas_pos m Hm) as [He Hbm].
  destruct (ebda m =? 0); cbn [negb]; rewrite first_mp_app.
  - destruct (first_mp m (paragraphs (u32 _) 1024)) as [p|] eqn:E; [|done]. change (default 0 (Some p)) with p.
    apply first_mp_pos in E; [|done]. by rewrite (proj2 (Z.eqb_neq p 0)).
  - destruct (first_mp m (paragraphs (ebda m) 1024)) as [p|] eqn:E; [|done]. change (default 0 (Some p)) with p.
    apply first_mp_pos in E; [|done]. by rewrite (proj2 (Z.eqb_neq p 0)).
Qed.
End search.

(** ** The table *)
Section table.
Implicit Types (m : gmap Z Z) (p conf lapic : Z) (i : mpinfo).

(** Entries, with the bytes that are not looked at. *)
Inductive mpentry :=
  | Processor (apicid : Z) (rest : list Z)
  | IoApic (apicno : Z) (rest : list Z)
  | Plain (type : Z) (rest : list Z).
Implicit Types (x : mpentry) (es : list mpentry).
Definition encode x : list Z :=
  match x with
  | Processor id rest => MPPROC :: id :: rest
  | IoApic id rest => MPIOAPIC :: id :: rest
  | Plain t rest => t :: rest
  end.
Definition entry_ok x : Prop :=
  match x with
  | Processor _ rest => length rest = 18%nat
  | IoApic _ rest => length rest = 6%nat
  | Plain t rest => (t = MPBUS \/ t = MPIOINTR \/ t = MPLINTR) /\ length rest = 7%nat
  end.
Definition size es : Z := Z.of_nat (length (concat (encode <$> es))).

Definition processors es : list Z := omap (fun x => match x with Processor id _ => Some id | _ => None end) es.
Definition ioapics es : list Z := omap (fun x => match x with IoApic id _ => Some id | _ => None end) es.
(** What the kernel should know of the machine. *)
Definition described lapic es : mpinfo :=
  mkMpinfo lapic (take 8 (processors es)) (default 0 (last (ioapics es))).

(** A configuration table of [len] bytes that begins with the entries [es]. *)
Record table_at m conf lapic es (len : Z) : Prop := mkTable {
  ta_sig : mem_bytes m conf 4 = pcmp_sig;
  ta_version : load8 m (conf + 6) = 1 \/ load8 m (conf + 6) = 4;
  ta_len : load16 m (conf + 4) = len;
  ta_sum : checksum (mem_bytes m conf (Z.to_nat len)) = 0;
  ta_lapic : load32 m (conf + 36) = lapic;
  ta_entries : bytes_at m (conf + 44) (concat (encode <$> es));
  ta_ok : Forall entry_ok es;
  ta_fits : 0 <= conf /\ 44 + size es <= len /\ conf + len < 2 ^ 32 }.
(** The floating structure the search finds points to it. *)
Definition mp_points m conf : Prop :=
  exists mp, first_mp m (mp_areas m) = Some mp /\ load32 m (mp + 4) <> 0 /\ conf = P2V (load32 m (mp + 4)).

Lemma bytes_at_app m p l l' : bytes_at m p (l ++ l') <-> bytes_at m p l /\ bytes_at m (p + Z.of_nat (length l)) l'.
Proof.
  unfold bytes_at. split.
  - intros H. split; intros k v Hv.
    + apply H. rewrite lookup_app_l by (by eapply lookup_lt_Some). done.
    + rewrite <- (H (length l + k)%nat); [f_equal; lia|]. rewrite lookup_app_r by lia. by replace (length l + k - length l)%nat with k by lia.
  - intros [H1 H2] k v Hv. apply lookup_app_Some in Hv as [Hv|[Hk Hv]]; [by apply H1|].
    rewrite <- (H2 _ _ Hv). f_equal. lia.
Qed.
Lemma size_nil : size [] = 0.
Proof. done. Qed.
Lemma size_cons x es : size (x :: es) = Z.of_nat (length (encode x)) + size es.
Proof. unfold size. cbn [fmap list_fmap concat]. rewrite length_app. lia. Qed.
Lemma size_nonneg es : 0 <= size es.
Proof. unfold size. lia. Qed.
Lemma entry_size x : entry_ok x -> Z.of_nat (length (encode x)) = match x with Processor _ _ => 20 | _ => 8 end.
Proof. destruct x; cbn; lia. Qed.
Lemma entries_bound es : Forall entry_ok es -> 8 * Z.of_nat (length es) <= size es.
Proof.
  induction 1 as [|x es Hx _ IH]; [done|]. rewrite size_cons, entry_size by done. cbn [length]. destruct x; lia.
Qed.

Definition record i x : mpinfo :=
  match x with
  | Processor id _ => if ncpu i <? NCPU then mkMpinfo (mi_lapic i) (mi_apicids i ++ [id]) (mi_ioapicid i) else i
  | IoApic id _ => mkMpinfo (mi_lapic i) (mi_apicids i) id
  | Plain _ _ => i
  end.
Lemma foldl_record es : forall i, (length (mi_apicids i) <= 8)%nat -> foldl record i es =
  mkMpinfo (mi_lapic i) (take 8 (mi_apicids i ++ processors es)) (default (mi_ioapicid i) (last (ioapics es))).
Proof.
  induction es as [|x es IH]; intros i Hi; cbn [foldl].
  { cbn. rewrite app_nil_r, take_ge by lia. by destruct i. }
  destruct x as [id rest|id rest|t rest]; cbn [record]; unfold processors, ioapics; cbn [omap list_omap]; fold (processors es) (ioapics es).
  - unfold ncpu, NCPU. destruct (Z.ltb_spec (Z.of_nat (length (mi_apicids i))) 8).
    + rewrite IH by (cbn; rewrite length_app; cbn; lia). cbn. by rewrite <- app_assoc.
    + rewrite IH by done. f_equal. by rewrite !take_app_le, !take_ge by lia.
  - rewrite IH by done. cbn [mi_lapic mi_apicids mi_ioapicid]. rewrite last_cons. f_equal. by destruct (last (ioapics es)).
  - by apply IH.
Qed.

Context {D : Type} `{!Bus D}.

(** One turn of the loop. *)
Lemma mp_entries_step m (d : D) x n p e ismp i : entry_ok x -> bytes_at m p (encode x) -> p + Z.of_nat (length (encode x)) <= e -> 0 <= p -> e < 2 ^ 32 ->
  mp_entries (S n) p e ismp i (mkMach m d) = mp_entries n (p + Z.of_nat (length (encode x))) e ismp (record i x) (mkMach m d).
Proof.
  intros Hx Hb He Hp He2. rewrite entry_size in * by done.
  assert (load8 m p = match x with Processor _ _ => MPPROC | IoApic _ _ => MPIOAPIC | Plain t _ => t end) as Ht.
  { rewrite <- (Z.add_0_r p). destruct x; by apply (Hb 0%nat). }
  assert (match x with Plain _ _ => True | Processor id _ => load8 m (p + 1) = id | IoApic id _ => load8 m (p + 1) = id end) as Hid.
  { destruct x; [by apply (Hb 1%nat)|by apply (Hb 1%nat)|done]. }
  cbn [mp_entries]. destruct (Z.ltb_spec p e); [cbn [negb]|destruct x; lia]. unfold bind, gets, mp_apicid. cbn [obind m_mem]. rewrite Ht.
  destruct x as [id rest|id rest|t rest]; cbn [Z.eqb Pos.eqb MPPROC MPIOAPIC record].
  - unfold bind, gets. cbn [obind m_mem]. rewrite Hid. unfold sizeof_mpproc. by rewrite u32_small by lia.
  - unfold bind, gets. cbn [obind m_mem]. rewrite Hid. unfold sizeof_mpioapic. by rewrite u32_small by lia.
  - destruct Hx as [[-> | [-> | ->]] _]; cbn; by rewrite u32_small by lia.
Qed.
Lemma mp_entries_all m (d : D) es n : forall p ismp i, Forall entry_ok es -> bytes_at m p (concat (encode <$> es)) -> 0 <= p -> p + size es < 2 ^ 32 -> (length es < n)%nat ->
  mp_entries n p (p + size es) ismp i (mkMach m d) = Done (ismp, foldl record i es) (mkMach m d).
Proof.
  revert n. induction es as [|x es IH]; intros n p ismp i Hok Hb Hp He Hn; (destruct n as [|n]; [cbn in Hn; lia|]).
  { rewrite size_nil, Z.add_0_r. cbn [mp_entries]. by rewrite Z.ltb_irrefl. }
  inversion Hok; subst. cbn [fmap list_fmap concat] in Hb. apply bytes_at_app in Hb as [Hb1 Hb2]. rewrite size_cons in *. pose proof (size_nonneg es).
  rewrite (mp_entries_step m d x) by (done || lia). rewrite Z.add_assoc. apply IH; [done|done|lia|lia|cbn in Hn; lia].
Qed.
(** A byte that is no entry type: the loop stays there. *)
Lemma mp_entries_stuck m (d : D) n : forall es p e ismp i, Forall entry_ok es -> bytes_at m p (concat (encode <$> es)) -> 0 <= p ->
  p + size es < e -> e < 2 ^ 32 -> 4 < load8 m (p + size es) -> mp_entries n p e ismp i (mkMach m d) = Stop NoFuel.
Proof.
  induction n as [|n IH]; intros es p e ismp i Hok Hb Hp He He2 Ht; [done|]. destruct es as [|x es].
  - rewrite size_nil, Z.add_0_r in *. cbn [mp_entries]. destruct (Z.ltb_spec p e); [cbn [negb]|lia].
    unfold bind, gets. cbn [obind m_mem]. unfold MPPROC, MPIOAPIC, MPBUS, MPIOINTR, MPLINTR.
    rewrite !(proj2 (Z.eqb_neq (load8 m p) _)) by lia. cbn [orb]. apply (IH []); rewrite ?size_nil, ?Z.add_0_r; done.
  - inversion Hok; subst. cbn [fmap list_fmap concat] in Hb. apply bytes_at_app in Hb as [Hb1 Hb2]. rewrite size_cons, Z.add_assoc in *. pose proof (size_nonneg es).
    rewrite (mp_entries_step m d x) by (done || lia). apply (IH es); done || lia.
Qed.

Lemma mpconfig_finds m conf lapic es len : mem_ok m -> mp_points m conf -> table_at m conf lapic es len ->
  exists mp, mpconfig m = Some (conf, mp).
Proof.
  intros Hm (mp & Hf & Hpa & ->) [Hs Hv Hl Hc _ _ _ _]. exists mp. unfold mpconfig. rewrite mpsearch_spec, Hf by done.
  change (default 0 (Some mp)) with mp. unfold mp_physaddr, mpconf_version, mpconf_length.
  rewrite (proj2 (Z.eqb_neq mp 0)), (proj2 (Z.eqb_neq (load32 m (mp + 4)) 0)) by (done || by eapply first_area_pos). cbn [orb]. cbv zeta.
  rewrite (proj2 (memcmp_const_spec m pcmp_sig _) Hs). rewrite sum_spec, Hl, Hc. cbn [Z.eqb negb]. by destruct Hv as [-> | ->].
Qed.

(** [mpinit] learns what the BIOS describes: if the first floating structure
    of the three areas points to a table that is made of entries of the known
    types, it records the address of the local APIC, the ids of the first
    [NCPU] processors in the order of the table, and the id of the last I/O
    APIC.  The loop visits at most 8192 entries, as the length of the table is a
    [ushort]. *)
Theorem mpinit_discovers n m conf lapic es (d : D) : mem_ok m -> mp_points m conf -> table_at m conf lapic es (44 + size es) -> 8192 <= Z.of_nat n ->
  wp atomic (mpinit n (mkMach m d)) (fun i s => i = described lapic es /\ m_mem s = m).
Proof.
  intros Hm Hp Ht Hn. destruct (mpconfig_finds _ _ _ _ _ Hm Hp Ht) as [mp Hc]. destruct Ht as [_ _ Hl _ Hla Hb Hok (Hc0 & _ & Hc32)].
  pose proof (size_nonneg es) as Hs. assert (length es < n)%nat as Hlen.
  { pose proof (entries_bound es Hok). pose proof (load8_range m (conf + 4) Hm). pose proof (load8_range m (conf + 4 + 1) Hm). unfold load16 in Hl. lia. }
  unfold mpinit. apply wp_gets. cbn [m_mem]. rewrite Hc. do 2 apply wp_gets. cbn [m_mem]. unfold mpconf_lapicaddr, mpconf_length, sizeof_mpconf. rewrite Hl, Hla.
  rewrite !u32_small by lia. rewrite Z.add_assoc. apply wp_bind. rewrite mp_entries_all by (done || lia). cbn [wp].
  rewrite foldl_record by (cbn; lia). cbn [negb]. apply wp_gets. destruct (negb _).
  - io_step. apply wp_ret. done.
  - apply wp_ret_bind, wp_ret. done.
Qed.

(** an entry of an unknown type is not reported: whatever the bound on the
    loop, it is exhausted, so that [mpinit] never reaches the panic "Didn't
    find a suitable machine". *)
Theorem mpinit_unknown_entry n m conf lapic es len (d : D) : mem_ok m -> mp_points m conf -> table_at m conf lapic es len ->
  44 + size es < len -> 4 < load8 m (conf + 44 + size es) -> mpinit n (mkMach m d) = Stop NoFuel.
Proof.
  intros Hm Hp Ht Hlt Hbad. destruct (mpconfig_finds _ _ _ _ _ Hm Hp Ht) as [mp Hc]. destruct Ht as [_ _ Hl _ Hla Hb Hok (Hc0 & _ & Hc32)].
  pose proof (size_nonneg es) as Hs. unfold mpinit, bind, gets. cbn [obind m_mem]. rewrite Hc.
  unfold bind, gets. cbn [obind m_mem]. unfold mpconf_length, sizeof_mpconf. rewrite Hl, !u32_small by lia.
  by rewrite (mp_entries_stuck m d n es) by (done || lia).
Qed.
End table.

(** ** A machine of two processors, and one with an entry of type 9 *)
Fixpoint put_bytes (p : Z) (l : list Z) (m : gmap Z Z) : gmap Z Z :=
  match l with [] => m | c :: l' => put_bytes (p + 1) l' (store8 p c m) end.
Definition demo_mp : list Z := mp_sig ++ [0; 0x10; 0; 0] ++ [1; 4; 0x90; 0; 0; 0; 0; 0].
Definition demo_entries : list mpentry :=
  [Processor 0 (replicate 18 0); Processor 5 (replicate 18 0); Plain 1 (replicate 7 0); IoApic 2 (replicate 6 0)].
Definition demo_conf (len chk : Z) : list Z :=
  pcmp_sig ++ [len; 0; 4; chk] ++ replicate 28 0 ++ [0; 0; 0xe0; 0xfe] ++ replicate 4 0.
Definition demo_mem (len chk : Z) (tail : list Z) : gmap Z Z :=
  put_bytes (P2V 0x1000) (demo_conf len chk ++ concat (encode <$> demo_entries) ++ tail) (put_bytes (P2V 0xF0020) demo_mp ∅).

Lemma demo_mem_ok len chk tail : mem_ok (demo_mem len chk tail).
Proof.
  assert (forall l p m, mem_ok m -> mem_ok (put_bytes p l m)) as Hp.
  { induction l as [|c l IH]; intros p m Hm; [done|]. apply IH. apply map_Forall_insert_2; [apply u8_range|done]. }
  apply Hp, Hp, map_Forall_empty.
Qed.
Lemma demo_points len chk tail : first_mp (demo_mem len chk tail) (mp_areas (demo_mem len chk tail)) = Some (P2V 0xF0020) -> 
  load32 (demo_mem len chk tail) (P2V 0xF0024) = 0x1000 -> mp_points (demo_mem len chk tail) (P2V 0x1000).
Proof. intros H1 H2. exists (P2V 0xF0020). change (P2V 0xF0020 + 4) with (P2V 0xF0024). by rewrite H2. Qed.

(** The bytes of a list, checked one by one. *)
Definition bytes_atb (m : gmap Z Z) (p : Z) (l : list Z) : bool := bool_decide (mem_bytes m p (length l) = l).
Lemma bytes_atb_spec m p l : bytes_atb m p l = true -> bytes_at m p l.
Proof.
  intros H%bool_decide_eq_true k v Hv. rewrite <- H in Hv. unfold mem_bytes in Hv.
  by apply list_lookup_fmap_Some in Hv as (j & -> & [-> _]%lookup_seq).
Qed.

Lemma mpinit_discovers_witness :
  wp atomic (mpinit (Z.to_nat 8192) (mkMach (demo_mem 100 128 []) demo_ioapic)) (fun i s => i = mkMpinfo 0xfee00000 [0; 5] 2 /\ m_mem s = demo_mem 100 128 []).
Proof.
  apply (mpinit_discovers (Z.to_nat 8192) _ (P2V 0x1000) 0xfee00000 demo_entries demo_ioapic).
  - apply demo_mem_ok.
  - apply demo_points; vm_compute; reflexivity.
  - split; [vm_compute; reflexivity|right; vm_compute; reflexivity|vm_compute; reflexivity|vm_compute; reflexivity|vm_compute; reflexivity| | |].
    + apply bytes_atb_spec. vm_compute. reflexivity.
    + repeat constructor.
    + split; [|split]; vm_compute; (reflexivity || discriminate).
  - lia.
Defined.
Lemma mpinit_unknown_entry_witness :
  mpinit 1000 (mkMach (demo_mem 108 111 (9 :: replicate 7 0)) demo_ioapic) = Stop NoFuel.
Proof.
  apply (mpinit_unknown_entry 1000 _ (P2V 0x1000) 0xfee00000 demo_entries 108 demo_ioapic).
  - apply demo_mem_ok.
  - apply demo_points; vm_compute; reflexivity.
  - split; [vm_compute; reflexivity|right; vm_compute; reflexivity|vm_compute; reflexivity|vm_compute; reflexivity|vm_compute; reflexivity| | |].
    + apply bytes_atb_spec. vm_compute. reflexivity.
    + repeat constructor.
    + split; [|split]; vm_compute; (reflexivity || discriminate).
  - vm_compute. reflexivity.
  - vm_compute. reflexivity.
Defined.
