(* ===== verification/Spinlock.v ===== *)
(** * Spin locks and the interrupt flag ([kernel/spinlock.c], [mycpu]/[cpuid]/[myproc] of [kernel/proc.c])

    The executing CPU is found by its APIC id, [pushcli]/[popcli] nest, and a
    lock records the CPU that holds it.  [hw_ok h c L b] says that CPU [c]
    executes, holds exactly the locks [L], and had interrupts [b] before it
    took the first of them; every routine is specified by how it changes [L]. *)
From S2P Require Import Prelude Types.

(** ** The code *)
Definition cli : K unit := modify (upd_hw (set_h_if false)).
Definition sti : K unit := modify (upd_hw (set_h_if true)).

(** The loop of [mycpu] over [cpus[0..ncpu-1]]. *)
Fixpoint find_cpu (id : Z) (i : nat) (l : list cpu) : option nat :=
  match l with
  | [] => None
  | c :: l' => if apicid c =? id then Some i else find_cpu id (S i) l'
  end.

Definition mycpu : K nat :=
  h <- gets k_hw ;;
  if h_if h then panic "mycpu called with interrupts enabled"
  else match find_cpu (h_lapicid h) 0 (take (h_ncpu h) (h_cpus h)) with
       | Some i => ret i
       | None => panic "unknown apicid"
       end.

Definition cpuid : K nat := mycpu.

(** [mycpu()->f] for reading and for writing. *)
Definition cpu_read {A} (f : cpu -> A) : K A :=
  c <- mycpu ;;
  h <- gets k_hw ;;
  of_option "cpus" (f <$> h_cpus h !! c).
Definition cpu_write (f : cpu -> cpu) : K unit :=
  c <- mycpu ;;
  modify (upd_hw (fun h => set_h_cpus (alter f c (h_cpus h)) h)).

Definition pushcli : K unit :=
  eflags <- gets (fun s => h_if (k_hw s)) ;;
  cli ;;
  n <- cpu_read ncli ;;
  whenm (n =? 0) (cpu_write (set_intena eflags)) ;;
  cpu_write (fun c => set_ncli (ncli c + 1) c).

Definition popcli : K unit :=
  eflags <- gets (fun s => h_if (k_hw s)) ;;
  if eflags : bool then panic "popcli - interruptible" else
  cpu_write (fun c => set_ncli (ncli c - 1) c) ;;
  n <- cpu_read ncli ;;
  if n <? 0 then panic "popcli" else
  i <- cpu_read intena ;;
  whenm ((n =? 0) && i) sti.

Definition the_lock (lk : lockid) (s : kernel) : spinlock := h_locks (k_hw s) !!! lk.
Definition set_lock (lk : lockid) (f : spinlock -> spinlock) : K unit :=
  modify (upd_hw (fun h => set_h_locks (<[lk := f (h_locks h !!! lk)]> (h_locks h)) h)).

Definition initlock (lk : lockid) (name : string) : K unit :=
  set_lock lk (fun _ => mkSpinlock false name None).

Definition holding (lk : lockid) : K bool :=
  pushcli ;;
  r <- (l <- gets (the_lock lk) ;;
        c <- mycpu ;;
        ret (locked l && bool_decide (lk_cpu l = Some c))) ;;
  popcli ;;
  ret r.

(** The [xchg] loop ends at once when the lock is free; when another CPU holds
    it this CPU spins. *)
Definition acquire (lk : lockid) : K unit :=
  pushcli ;;
  h <- holding lk ;;
  if h : bool then panic "acquire" else
  l <- gets (the_lock lk) ;;
  if locked l then stopm Spin else
  set_lock lk (set_locked true) ;;
  c <- mycpu ;;
  set_lock lk (set_lk_cpu (Some c)).

Definition release (lk : lockid) : K unit :=
  h <- holding lk ;;
  if negb h then panic "release" else
  set_lock lk (set_lk_cpu None) ;;
  set_lock lk (set_locked false) ;;
  popcli.

Definition myproc : K (option nat) :=
  pushcli ;;
  p <- cpu_read c_proc ;;
  popcli ;;
  ret p.

(** [getcallerpcs]: the ten return addresses found along the saved frame
    pointers, read by [ld] from kernel memory; the chain ends at a frame
    pointer outside kernel space and the rest is zero. *)
Fixpoint callerpcs (ld : Z -> Z) (n : nat) (ebp : Z) : list Z :=
  match n with
  | O => []
  | S n' =>
      if (ebp =? 0) || (ebp <? KERNBASE) || (ebp =? 0xffffffff) then replicate n 0
      else ld (u32 (ebp + 4)) :: callerpcs ld n' (ld ebp)
  end.
Definition getcallerpcs (ld : Z -> Z) (v : Z) : list Z := callerpcs ld 10 (u32 (v - 8)).

(** ** The lock discipline of the executing CPU *)
Record hw_ok (h : hw) (c : nat) (L : list lockid) (b : bool) : Prop := {
  ho_cpu : find_cpu (h_lapicid h) 0 (take (h_ncpu h) (h_cpus h)) = Some c;
  ho_rec : exists r, h_cpus h !! c = Some r /\ ncli r = Z.of_nat (length L)
                     /\ (L <> [] -> intena r = b);
  ho_if : h_if h = match L with [] => b | _ => false end;
  ho_free : forall lk, lk ∉ L -> locked (h_locks h !!! lk) = false;
  ho_own : forall lk, lk ∈ L ->
    locked (h_locks h !!! lk) = true /\ lk_cpu (h_locks h !!! lk) = Some c;
  ho_nodup : NoDup L }.

(** What taking and releasing locks leaves alone. *)
Definition cpu_id (r : cpu) : Z * option nat * Z := (apicid r, c_proc r, ts_esp0 r).
Definition hw_id (h : hw) : Z * Z * nat * list (Z * option nat * Z) :=
  (h_lapicid h, h_cr3 h, h_ncpu h, cpu_id <$> h_cpus h).

(** The process the executing CPU runs. *)
Definition cur (h : hw) : option nat :=
  match find_cpu (h_lapicid h) 0 (take (h_ncpu h) (h_cpus h)) with
  | Some c => h_cpus h !! c ≫= c_proc
  | None => None
  end.

Arguments mycpu : simpl never.
Arguments cpu_read : simpl never.
Arguments cpu_write : simpl never.
Arguments pushcli : simpl never.
Arguments popcli : simpl never.
Arguments holding : simpl never.
Arguments acquire : simpl never.
Arguments release : simpl never.
Arguments myproc : simpl never.

(** ** Properties *)
Section cpu.
Implicit Types (s : kernel) (h : hw) (c : nat) (r : cpu).

Definition at_cpu h c r : Prop :=
  find_cpu (h_lapicid h) 0 (take (h_ncpu h) (h_cpus h)) = Some c /\ h_cpus h !! c = Some r.

Definition put_cpu c r h : hw := set_h_cpus (<[c := r]> (h_cpus h)) h.

Lemma alter_lookup_insert {A} (f : A -> A) (l : list A) i x :
  l !! i = Some x -> alter f i l = <[i := f x]> l.
Proof.
  intros Hi. apply list_eq. intros j. destruct (decide (i = j)) as [->|].
  - rewrite list_lookup_alter_eq, list_lookup_insert_eq, Hi; [done|].
    by eapply lookup_lt_Some.
  - by rewrite list_lookup_alter_ne, list_lookup_insert_ne.
Qed.

Lemma find_cpu_ext id l : forall l' i,
  apicid <$> l = apicid <$> l' -> find_cpu id i l = find_cpu id i l'.
Proof.
  induction l as [|x l IH]; intros [|x' l'] i; simpl; intros [=]; [done|].
  replace (apicid x') with (apicid x). destruct (_ =? _); auto.
Qed.

Lemma fmap_insert_id {A B} (f : A -> B) (l : list A) i x y :
  l !! i = Some x -> f y = f x -> f <$> <[i := y]> l = f <$> l.
Proof.
  intros Hi E. rewrite list_fmap_insert, E. apply list_insert_id.
  by rewrite list_lookup_fmap, Hi.
Qed.

Lemma at_cpu_put h c r r' : at_cpu h c r -> apicid r' = apicid r -> at_cpu (put_cpu c r' h) c r'.
Proof.
  intros [Hf Hr] E. split; simpl.
  - rewrite <- Hf. apply find_cpu_ext.
    rewrite !fmap_take. f_equal. by eapply fmap_insert_id.
  - apply list_lookup_insert_eq. by eapply lookup_lt_Some.
Qed.

Lemma put_cpu_put h c r r' : put_cpu c r' (put_cpu c r h) = put_cpu c r' h.
Proof. unfold put_cpu, set_h_cpus. simpl. f_equal. apply list_insert_insert_eq. Qed.

Lemma hw_id_put h c r r' :
  h_cpus h !! c = Some r -> cpu_id r' = cpu_id r -> hw_id (put_cpu c r' h) = hw_id h.
Proof. intros Hr E. unfold hw_id. simpl. f_equal. by eapply fmap_insert_id. Qed.

Lemma mycpu_ok s c r : at_cpu (k_hw s) c r -> h_if (k_hw s) = false -> mycpu s = Done c s.
Proof. intros [Hf _] Hi. unfold mycpu, gets, bind. simpl. by rewrite Hi, Hf. Qed.

Lemma cpu_read_ok {A} (f : cpu -> A) s c r :
  at_cpu (k_hw s) c r -> h_if (k_hw s) = false -> cpu_read f s = Done (f r) s.
Proof.
  intros H Hi. unfold cpu_read. rewrite (bind_done _ _ _ _ _ (mycpu_ok _ _ _ H Hi)).
  unfold gets, bind. simpl. by rewrite (proj2 H).
Qed.

Lemma cpu_write_ok f s c r :
  at_cpu (k_hw s) c r -> h_if (k_hw s) = false ->
  cpu_write f s = Done tt (set_k_hw (put_cpu c (f r) (k_hw s)) s).
Proof.
  intros H Hi. unfold cpu_write. rewrite (bind_done _ _ _ _ _ (mycpu_ok _ _ _ H Hi)).
  unfold modify, upd_hw, put_cpu. by rewrite (alter_lookup_insert f _ _ _ (proj2 H)).
Qed.

(** [pushcli] on CPU [c] with record [r]. *)
Definition pushed (i : bool) (r : cpu) : cpu :=
  set_ncli (ncli r + 1) (if ncli r =? 0 then set_intena i r else r).

Lemma pushcli_ok s c r :
  at_cpu (k_hw s) c r ->
  pushcli s = Done tt (set_k_hw (put_cpu c (pushed (h_if (k_hw s)) r) (set_h_if false (k_hw s))) s).
Proof.
  intros H. unfold pushcli, cli, gets, bind, modify, upd_hw, whenm. simpl.
  rewrite (cpu_read_ok ncli _ c r) by done. simpl. unfold pushed.
  destruct (ncli r =? 0); simpl.
  - rewrite (cpu_write_ok _ _ c r) by done. simpl.
    rewrite (cpu_write_ok _ _ c (set_intena (h_if (k_hw s)) r)).
    + by simpl; rewrite put_cpu_put.
    + by apply at_cpu_put with r.
    + done.
  - by rewrite (cpu_write_ok _ _ c r).
Qed.

Lemma popcli_ok s c r :
  at_cpu (k_hw s) c r -> h_if (k_hw s) = false -> 1 <= ncli r ->
  popcli s = Done tt (set_k_hw
    (set_h_if ((ncli r =? 1) && intena r) (put_cpu c (set_ncli (ncli r - 1) r) (k_hw s))) s).
Proof.
  intros H Hi Hn. unfold popcli, gets, bind. simpl. rewrite Hi. simpl.
  rewrite (cpu_write_ok _ _ c r) by done. simpl.
  set (r' := set_ncli (ncli r - 1) r).
  rewrite (cpu_read_ok ncli _ c r') by (done || by apply at_cpu_put with r). simpl.
  destruct (Z.ltb_spec (ncli r - 1) 0); [lia|].
  rewrite (cpu_read_ok intena _ c r') by (done || by apply at_cpu_put with r). simpl.
  replace (ncli r - 1 =? 0) with (ncli r =? 1) by (destruct (Z.eqb_spec (ncli r) 1), (Z.eqb_spec (ncli r - 1) 0); lia).
  unfold whenm, sti, modify, upd_hw, ret. destruct ((ncli r =? 1) && intena r) eqn:E; simpl; [done|].
  unfold set_h_if, put_cpu, set_h_cpus, set_k_hw; simpl. by rewrite Hi.
Qed.

(** A [pushcli]/[popcli] pair restores the interrupt flag. *)
Lemma push_pop s c r :
  at_cpu (k_hw s) c r -> 0 <= ncli r -> (0 < ncli r -> h_if (k_hw s) = false) ->
  exists r', cpu_id r' = cpu_id r /\ ncli r' = ncli r /\ (0 < ncli r -> r' = r) /\
  (pushcli ;; popcli) s = Done tt (set_k_hw (put_cpu c r' (k_hw s)) s).
Proof.
  intros H Hn Hi. rewrite (bind_done _ _ _ _ _ (pushcli_ok _ _ _ H)).
  exists (set_ncli (ncli r) (pushed (h_if (k_hw s)) r)).
  unfold pushed. split_and!.
  - by destruct (ncli r =? 0).
  - done.
  - intros ?. destruct (Z.eqb_spec (ncli r) 0); [lia|]. by destruct r.
  - rewrite (popcli_ok _ c (pushed (h_if (k_hw s)) r)).
    + simpl. rewrite put_cpu_put, set_k_hw_twice. do 2 f_equal. unfold pushed.
      destruct (Z.eqb_spec (ncli r) 0) as [E|E]; simpl.
      * rewrite E. simpl. unfold set_h_if, put_cpu, set_h_cpus. done.
      * destruct (Z.eqb_spec (ncli r + 1) 1); [lia|]. simpl.
        replace (ncli r + 1 - 1) with (ncli r) by lia.
        unfold set_h_if, put_cpu, set_h_cpus. simpl.
        rewrite (Hi ltac:(lia)). by destruct r.
    + simpl. apply at_cpu_put with r; [done|]. unfold pushed. by destruct (_ =? _).
    + done.
    + unfold pushed. simpl. lia.
Qed.

End cpu.

Section discipline.
Implicit Types (s : kernel) (h : hw) (c : nat) (r : cpu) (L : list lockid) (b : bool).

(** The idiom [pushcli(); r = m; popcli(); return r;]. *)
Lemma cli_bracket {A} (m : K A) a s c r :
  at_cpu (k_hw s) c r -> 0 <= ncli r -> (0 < ncli r -> h_if (k_hw s) = false) ->
  (forall s', at_cpu (k_hw s') c (pushed (h_if (k_hw s)) r) -> h_if (k_hw s') = false ->
    h_locks (k_hw s') = h_locks (k_hw s) -> m s' = Done a s') ->
  exists r', cpu_id r' = cpu_id r /\ ncli r' = ncli r /\ (0 < ncli r -> r' = r) /\
  (pushcli ;; x <- m ;; popcli ;; ret x) s = Done a (set_k_hw (put_cpu c r' (k_hw s)) s).
Proof.
  intros H Hn Hi Hm. destruct (push_pop s c r H Hn Hi) as (r' & ? & ? & ? & E).
  exists r'. split_and!; [done..|].
  pose proof (pushcli_ok s c r H) as Ep.
  rewrite (bind_done _ _ _ _ _ Ep) in E. rewrite (bind_done _ _ _ _ _ Ep).
  erewrite bind_done; [|apply Hm; [|done..]].
  2:{ simpl. apply at_cpu_put with r; [done|]. unfold pushed. by destruct (_ =? _). }
  by rewrite (bind_done _ _ _ _ _ E).
Qed.

Lemma hw_ok_at h c L b : hw_ok h c L b ->
  exists r, at_cpu h c r /\ ncli r = Z.of_nat (length L) /\ (L <> [] -> intena r = b)
    /\ (0 < ncli r -> h_if h = false).
Proof.
  intros []. destruct ho_rec0 as (r & Hr & Hn & Hb). exists r. split_and!; try done.
  rewrite ho_if0. destruct L; [simpl in Hn; lia|done].
Qed.

Lemma hw_ok_put h c r r' L b :
  hw_ok h c L b -> at_cpu h c r -> cpu_id r' = cpu_id r -> ncli r' = ncli r ->
  (0 < ncli r -> r' = r) -> hw_ok (put_cpu c r' h) c L b.
Proof.
  intros Hok Hat Hid Hn Hr. injection Hid as Hap _ _.
  destruct (hw_ok_at _ _ _ _ Hok) as (r0 & Hat0 & Hn0 & Hb0 & _).
  assert (r0 = r) as -> by (destruct Hat, Hat0; congruence).
  destruct (at_cpu_put h c r r' Hat Hap) as [Hf' Hr']. destruct Hok. split; try done.
  exists r'. split_and!; [done|by rewrite Hn|]. intros HL. rewrite Hr; [by apply Hb0|].
  destruct L; [done|simpl in Hn0; lia].
Qed.

Lemma cli_bracket_ok {A} (m : K A) a s c L b :
  hw_ok (k_hw s) c L b ->
  (forall r s', at_cpu (k_hw s') c (pushed (h_if (k_hw s)) r) -> h_cpus (k_hw s) !! c = Some r ->
    h_if (k_hw s') = false -> h_locks (k_hw s') = h_locks (k_hw s) -> m s' = Done a s') ->
  exists h', (pushcli ;; x <- m ;; popcli ;; ret x) s = Done a (set_k_hw h' s) /\
    hw_ok h' c L b /\ hw_id h' = hw_id (k_hw s) /\ h_locks h' = h_locks (k_hw s).
Proof.
  intros Hok Hm. destruct (hw_ok_at _ _ _ _ Hok) as (r & Hat & Hn & Hb & Hi).
  destruct (cli_bracket m a s c r Hat ltac:(lia) Hi) as (r' & ? & ? & ? & E).
  { intros s' ???. apply (Hm r); [done|apply Hat|done|done]. }
  exists (put_cpu c r' (k_hw s)). split_and!; [done| |by apply hw_id_put with r; [apply Hat|]|done].
  by eapply hw_ok_put.
Qed.

Lemma pushed_c_proc i r : c_proc (pushed i r) = c_proc r.
Proof. unfold pushed. by destruct (_ =? _). Qed.

(** [myproc] returns the process of the executing CPU and changes no lock. *)
Lemma myproc_ok s c L b :
  hw_ok (k_hw s) c L b ->
  exists h', myproc s = Done (cur (k_hw s)) (set_k_hw h' s) /\
    hw_ok h' c L b /\ hw_id h' = hw_id (k_hw s).
Proof.
  intros Hok. destruct (cli_bracket_ok (cpu_read c_proc) (cur (k_hw s)) s c L b Hok)
    as (h' & ? & ? & ? & _); [|by exists h'].
  intros r s' Hat Hr Hi _. rewrite (cpu_read_ok _ _ _ _ Hat Hi). f_equal.
  rewrite pushed_c_proc. unfold cur. rewrite (ho_cpu _ _ _ _ Hok), Hr. done.
Qed.

Lemma holding_ok lk s c L b :
  hw_ok (k_hw s) c L b ->
  exists h', holding lk s = Done (bool_decide (lk ∈ L)) (set_k_hw h' s) /\
    hw_ok h' c L b /\ hw_id h' = hw_id (k_hw s) /\ h_locks h' = h_locks (k_hw s).
Proof.
  intros Hok. apply cli_bracket_ok; [done|].
  intros r s' Hat Hr Hi HL. unfold gets, bind. simpl.
  rewrite (mycpu_ok _ _ _ Hat Hi). simpl. unfold ret. f_equal.
  unfold the_lock. rewrite HL. destruct (decide (lk ∈ L)) as [E|E].
  - destruct (ho_own _ _ _ _ Hok lk E) as [-> ->].
    rewrite (bool_decide_eq_true_2 (lk ∈ L)) by done. by rewrite bool_decide_eq_true_2.
  - rewrite (ho_free _ _ _ _ Hok lk E). by rewrite (bool_decide_eq_false_2 (lk ∈ L)).
Qed.

Lemma put_cpu_id h c r : h_cpus h !! c = Some r -> put_cpu c r h = h.
Proof. intros Hr. unfold put_cpu, set_h_cpus. rewrite list_insert_id by done. by destruct h. Qed.

(** [holding] with interrupts already off by an enclosing [pushcli]. *)
Lemma holding_inner lk s c r :
  at_cpu (k_hw s) c r -> 0 < ncli r -> h_if (k_hw s) = false ->
  holding lk s = Done (locked (the_lock lk s) && bool_decide (lk_cpu (the_lock lk s) = Some c)) s.
Proof.
  intros Hat Hn Hi.
  destruct (cli_bracket (l <- gets (the_lock lk) ;; c0 <- mycpu ;;
      ret (locked l && bool_decide (lk_cpu l = Some c0)))
    (locked (the_lock lk s) && bool_decide (lk_cpu (the_lock lk s) = Some c)) s c r Hat
    ltac:(lia) ltac:(done)) as (r' & _ & _ & Hr' & E).
  - intros s' Hat' Hi' HL. unfold gets, bind. simpl.
    rewrite (mycpu_ok _ _ _ Hat' Hi'). simpl. unfold ret, the_lock. by rewrite HL.
  - unfold holding. rewrite E, Hr', put_cpu_id, set_k_hw_id by (done || apply Hat). done.
Qed.

Lemma pushed_id i r : cpu_id (pushed i r) = cpu_id r.
Proof. unfold pushed. by destruct (_ =? _). Qed.

Lemma pushed_ncli i r : ncli (pushed i r) = ncli r + 1.
Proof. unfold pushed. by destruct (_ =? _). Qed.

(** The state after [acquire] takes a free lock. *)
Definition acquired lk c r h : hw :=
  set_h_locks (<[lk := mkSpinlock true (lk_name (h_locks h !!! lk)) (Some c)]> (h_locks h))
    (put_cpu c (pushed (h_if h) r) (set_h_if false h)).

Lemma acquire_at lk s c r :
  at_cpu (k_hw s) c r -> 0 <= ncli r ->
  acquire lk s =
    if locked (the_lock lk s) then
      if bool_decide (lk_cpu (the_lock lk s) = Some c) then Stop (Panic "acquire") else Stop Spin
    else Done tt (set_k_hw (acquired lk c r (k_hw s)) s).
Proof.
  intros Hat Hn. unfold acquire.
  rewrite (bind_done _ _ _ _ _ (pushcli_ok _ _ _ Hat)).
  set (s1 := set_k_hw _ s).
  assert (at_cpu (k_hw s1) c (pushed (h_if (k_hw s)) r)) as Hat1.
  { apply at_cpu_put with r; [done|]. unfold pushed. by destruct (_ =? _). }
  rewrite (bind_done _ _ _ _ _ (holding_inner lk s1 c _ Hat1
    ltac:(rewrite pushed_ncli; lia) eq_refl)).
  unfold gets, bind. change (the_lock lk s1) with (the_lock lk s).
  destruct (locked (the_lock lk s)) eqn:El; simpl.
  { case_bool_decide; simpl; [done|]. change (the_lock lk s1) with (the_lock lk s). by rewrite El. }
  change (the_lock lk s1) with (the_lock lk s). rewrite El. simpl.
  rewrite (mycpu_ok _ c (pushed (h_if (k_hw s)) r)) by (done || apply Hat1). simpl.
  unfold set_lock, modify, upd_hw, acquired, set_k_hw, set_h_locks. simpl. do 3 f_equal.
  rewrite lookup_total_insert_eq, insert_insert_eq. done.
Qed.

Lemma hw_id_acquired lk c r h : h_cpus h !! c = Some r -> hw_id (acquired lk c r h) = hw_id h.
Proof.
  intros Hr. unfold hw_id. simpl. f_equal. eapply fmap_insert_id; [done|apply pushed_id].
Qed.

Lemma acquire_ok lk s c L b :
  hw_ok (k_hw s) c L b -> lk ∉ L ->
  exists h', acquire lk s = Done tt (set_k_hw h' s) /\
    hw_ok h' c (lk :: L) b /\ hw_id h' = hw_id (k_hw s).
Proof.
  intros Hok HlL. destruct (hw_ok_at _ _ _ _ Hok) as (r & Hat & Hn & Hb & Hi).
  exists (acquired lk c r (k_hw s)). split_and!.
  - rewrite (acquire_at _ _ _ _ Hat) by lia. unfold the_lock.
    by rewrite (ho_free _ _ _ _ Hok lk HlL).
  - destruct (at_cpu_put (set_h_if false (k_hw s)) c r (pushed (h_if (k_hw s)) r)) as [Hf Hr];
      [by destruct Hat|by unfold pushed; destruct (_ =? _)|].
    destruct Hok. split; simpl; try done.
    + eexists. split_and!; [exact Hr|rewrite pushed_ncli; lia|].
      intros _. unfold pushed. destruct (Z.eqb_spec (ncli r) 0) as [E|E]; simpl.
      * rewrite ho_if0. destruct L; [done|simpl in Hn; lia].
      * apply Hb. by intros ->.
    + intros lk' [Hne Hni]%not_elem_of_cons. rewrite lookup_total_insert_ne by done. auto.
    + intros lk' Hin. destruct (decide (lk = lk')) as [->|Hne].
      * by rewrite lookup_total_insert_eq.
      * rewrite lookup_total_insert_ne by done. apply ho_own0. by apply elem_of_cons in Hin as [->|].
    + by constructor.
  - by apply hw_id_acquired, Hat.
Qed.

#[export] Instance hw_ok_proper h c : Proper (Permutation ==> eq ==> iff) (hw_ok h c).
Proof.
  assert (forall L L' b, L ≡ₚ L' -> hw_ok h c L b -> hw_ok h c L' b) as H.
  { intros L L' b HP []. split; try done.
    - destruct ho_rec0 as (r & ? & Hn & Hi). exists r. split_and!; [done|by rewrite <- HP|].
      intros HL'. apply Hi. intros ->. by apply HL'; symmetry; apply Permutation_nil_l.
    - rewrite ho_if0. destruct L as [|x L]; [by apply Permutation_nil_l in HP as <-|].
      destruct L'; [by apply Permutation_nil_r in HP|done].
    - intros lk. rewrite <- HP. auto.
    - intros lk. rewrite <- HP. auto.
    - by rewrite <- HP. }
  intros L L' HP ? b ->. split; apply H; [done|by symmetry].
Qed.

Lemma release_ok lk s c L b :
  hw_ok (k_hw s) c (lk :: L) b ->
  exists h', release lk s = Done tt (set_k_hw h' s) /\
    hw_ok h' c L b /\ hw_id h' = hw_id (k_hw s).
Proof.
  intros Hok. destruct (hw_ok_at _ _ _ _ Hok) as (r & Hat & Hn & Hb & Hi).
  simpl in Hn. specialize (Hi ltac:(lia)). specialize (Hb ltac:(done)).
  destruct (ho_own _ _ _ _ Hok lk ltac:(left)) as [Hl Hc].
  unfold release.
  rewrite (bind_done _ _ _ _ _ (holding_inner lk s c r Hat ltac:(lia) Hi)).
  unfold the_lock. rewrite Hl, Hc, bool_decide_eq_true_2 by done. simpl.
  unfold set_lock, modify, upd_hw, bind. simpl.
  rewrite (popcli_ok _ c r) by (simpl; done || lia). simpl.
  eexists. split; [by rewrite !set_k_hw_twice|]. split.
  - destruct (at_cpu_put (k_hw s) c r (set_ncli (ncli r - 1) r) Hat eq_refl) as [Hf Hr].
    destruct Hok. apply NoDup_cons in ho_nodup0 as [Hnin Hnd]. split; simpl; try done.
    + eexists. split_and!; [exact Hr|simpl; lia|done].
    + rewrite Hb. destruct L; simpl in *; [by rewrite Hn|].
      by destruct (Z.eqb_spec (ncli r) 1); [lia|].
    + intros lk' Hni. destruct (decide (lk = lk')) as [->|Hne].
      * by rewrite lookup_total_insert_eq.
      * rewrite !lookup_total_insert_ne by done. apply ho_free0. by apply not_elem_of_cons.
    + intros lk' Hin. assert (lk <> lk') by (intros ->; done).
      rewrite !lookup_total_insert_ne by done. apply ho_own0. by right.
  - unfold hw_id. simpl. f_equal. by eapply fmap_insert_id; [apply Hat|].
Qed.

End discipline.

(** ** Rules for the weakest precondition *)
Section rules.
Context {A : Type} (P : protocol kernel).
Implicit Types (s : kernel) (Q : A -> kernel -> Prop) (L : list lockid).

Lemma cur_hw_id h h' : hw_id h = hw_id h' -> cur h = cur h'.
Proof.
  intros [= Hl _ Hn Hc]. unfold cur. rewrite Hl, Hn.
  rewrite (find_cpu_ext _ _ (take (h_ncpu h') (h_cpus h')) 0).
  2:{ rewrite !fmap_take. f_equal. apply (f_equal (fmap (fun x => x.1.1))) in Hc.
      by rewrite <- !list_fmap_compose in Hc. }
  destruct (find_cpu _ _ _) as [c|]; [|done].
  apply (f_equal (.!! c)) in Hc. rewrite !list_lookup_fmap in Hc.
  unfold cpu_id in Hc. destruct (h_cpus h !! c), (h_cpus h' !! c); simpl in *; congruence.
Qed.

Lemma wp_acquire lk (f : unit -> K A) s Q c L b :
  hw_ok (k_hw s) c L b -> lk ∉ L ->
  (forall h', hw_ok h' c (lk :: L) b -> hw_id h' = hw_id (k_hw s) ->
    wp P (f tt (set_k_hw h' s)) Q) ->
  wp P ((x <- acquire lk ;; f x) s) Q.
Proof.
  intros Hok Hl H. destruct (acquire_ok lk s c L b Hok Hl) as (h' & E & ? & ?).
  rewrite (bind_done _ _ _ _ _ E). auto.
Qed.

Lemma wp_release lk (f : unit -> K A) s Q c L L' b :
  hw_ok (k_hw s) c L b -> L ≡ₚ lk :: L' ->
  (forall h', hw_ok h' c L' b -> hw_id h' = hw_id (k_hw s) ->
    wp P (f tt (set_k_hw h' s)) Q) ->
  wp P ((x <- release lk ;; f x) s) Q.
Proof.
  intros Hok Hl H. rewrite Hl in Hok. destruct (release_ok lk s c L' b Hok) as (h' & E & ? & ?).
  rewrite (bind_done _ _ _ _ _ E). auto.
Qed.

Lemma wp_myproc (f : option nat -> K A) s Q c L b :
  hw_ok (k_hw s) c L b ->
  (forall h', hw_ok h' c L b -> hw_id h' = hw_id (k_hw s) ->
    wp P (f (cur (k_hw s)) (set_k_hw h' s)) Q) ->
  wp P ((x <- myproc ;; f x) s) Q.
Proof.
  intros Hok H. destruct (myproc_ok s c L b Hok) as (h' & E & ? & ?).
  rewrite (bind_done _ _ _ _ _ E). auto.
Qed.

Lemma wp_holding lk (f : bool -> K A) s Q c L b :
  hw_ok (k_hw s) c L b ->
  (forall h', hw_ok h' c L b -> hw_id h' = hw_id (k_hw s) ->
    wp P (f (bool_decide (lk ∈ L)) (set_k_hw h' s)) Q) ->
  wp P ((x <- holding lk ;; f x) s) Q.
Proof.
  intros Hok H. destruct (holding_ok lk s c L b Hok) as (h' & E & ? & ? & _).
  rewrite (bind_done _ _ _ _ _ E). auto.
Qed.

End rules.

Section intena.
Context {A : Type} (P : protocol kernel).

Lemma hw_ok_inside h c L b : hw_ok h c L b -> L <> [] -> h_if h = false.
Proof. intros [] HL. rewrite ho_if0. by destruct L. Qed.

(** Reading a field of the executing CPU with a lock held. *)
Lemma wp_cpu_read {B} (f : cpu -> B) (k : B -> K A) s Q c L b r :
  hw_ok (k_hw s) c L b -> L <> [] -> h_cpus (k_hw s) !! c = Some r ->
  wp P (k (f r) s) Q -> wp P ((x <- cpu_read f ;; k x) s) Q.
Proof.
  intros Hok HL Hr Hk. rewrite (bind_done _ _ _ (f r) s); [done|].
  eapply cpu_read_ok; [split; [apply (ho_cpu _ _ _ _ Hok)|done]|by eapply hw_ok_inside].
Qed.

(** Restoring [intena] sets the interrupt state the last [release] will restore. *)
Lemma wp_set_intena (k : unit -> K A) s Q c L b b' :
  hw_ok (k_hw s) c L b -> L <> [] ->
  (forall h', hw_ok h' c L b' -> hw_id h' = hw_id (k_hw s) -> wp P (k tt (set_k_hw h' s)) Q) ->
  wp P ((x <- cpu_write (set_intena b') ;; k x) s) Q.
Proof.
  intros Hok HL Hk. destruct (hw_ok_at _ _ _ _ Hok) as (r & Hat & Hn & _ & _).
  rewrite (bind_done _ _ _ _ _ (cpu_write_ok (set_intena b') s c r Hat
    (hw_ok_inside _ _ _ _ Hok HL))).
  apply Hk; [|by apply hw_id_put with r; [apply Hat|]].
  destruct (at_cpu_put _ c r (set_intena b' r) Hat eq_refl) as [Hf Hr].
  destruct Hok. split; try done.
  - eexists. split_and!; [exact Hr|done|done].
  - simpl. rewrite ho_if0. by destruct L.
Qed.

End intena.

(** ** Writes to the CPU structure that do not concern locks *)
Section cpu_fields.
Implicit Types (s : kernel) (h : hw) (c : nat) (r : cpu) (L : list lockid) (b : bool).

(** The lock discipline only depends on the identity, depth and saved flag of the CPU. *)
Lemma hw_ok_cpu h h' c L b r r' :
  hw_ok h c L b -> at_cpu h c r -> at_cpu h' c r' ->
  ncli r' = ncli r -> intena r' = intena r -> h_if h' = h_if h -> h_locks h' = h_locks h ->
  hw_ok h' c L b.
Proof.
  intros Hok [Hf Hr] [Hf' Hr'] Hn Hi Hif Hl. destruct Hok. destruct ho_rec0 as (r0 & Hr0 & Hn0 & Hi0).
  assert (r0 = r) as -> by congruence.
  split; rewrite ?Hl, ?Hif; try done. exists r'. split_and!; [done|by rewrite Hn|by rewrite Hi].
Qed.

Lemma cur_at h c r : at_cpu h c r -> cur h = c_proc r.
Proof. intros [Hf Hr]. unfold cur. by rewrite Hf, Hr. Qed.

(** [pushcli(); <writes to the CPU>; lcr3(v); popcli();] with a lock held. *)
Lemma cli_write_ok f v s c L b :
  hw_ok (k_hw s) c L b -> L <> [] ->
  (forall r, apicid (f r) = apicid r /\ ncli (f r) = ncli r /\ intena (f r) = intena r
     /\ c_proc (f r) = c_proc r) ->
  exists h', (pushcli ;; cpu_write f ;; modify (upd_hw (set_h_cr3 v)) ;; popcli) s
      = Done tt (set_k_hw h' s)
    /\ hw_ok h' c L b /\ cur h' = cur (k_hw s) /\ h_cr3 h' = v.
Proof.
  intros Hok HL Hf. destruct (hw_ok_at _ _ _ _ Hok) as (r & Hat & Hn & Hb & Hi).
  assert (0 < ncli r) as Hpos by (destruct L; [done|simpl in Hn; lia]). specialize (Hi Hpos).
  rewrite (bind_done _ _ _ _ _ (pushcli_ok s c r Hat)).
  assert (pushed (h_if (k_hw s)) r = set_ncli (ncli r + 1) r) as Ep.
  { unfold pushed. destruct (Z.eqb_spec (ncli r) 0); [lia|done]. }
  rewrite Ep. set (r1 := set_ncli (ncli r + 1) r). set (h1 := put_cpu c r1 (set_h_if false (k_hw s))).
  assert (at_cpu h1 c r1) as Hat1 by (apply at_cpu_put with r; [by destruct Hat|done]).
  rewrite (bind_done _ _ _ _ _ (cpu_write_ok f (set_k_hw h1 s) c r1 Hat1 eq_refl)).
  destruct (Hf r1) as (Ha & Hn1 & Hi1 & Hp1).
  assert (at_cpu (put_cpu c (f r1) h1) c (f r1)) as Hat2 by (by apply at_cpu_put with r1).
  unfold modify, bind, upd_hw. cbn [obind].
  rewrite (popcli_ok _ c (f r1)); [|done|done|rewrite Hn1; simpl; lia].
  rewrite Hn1, Hi1. simpl. destruct (Z.eqb_spec (ncli r + 1) 1); [lia|]. simpl.
  eexists. split; [by rewrite !set_k_hw_twice|]. set (h2 := set_h_if _ _).
  assert (at_cpu h2 c (set_ncli (ncli r + 1 - 1) (f r1))) as Hat3.
  { apply (at_cpu_put (set_h_cr3 v (put_cpu c (f r1) h1)) c (f r1)); [done|done]. }
  split_and!.
  - eapply hw_ok_cpu; [done|apply Hat|done|simpl; lia|simpl; by rewrite Hi1|simpl; by rewrite Hi|done].
  - rewrite (cur_at _ _ _ Hat3), (cur_at _ _ _ Hat). simpl. by rewrite Hp1.
  - done.
Qed.

(** [c->proc = p] on the executing CPU. *)
Lemma hw_ok_set_proc h c L b x :
  hw_ok h c L b ->
  hw_ok (set_h_cpus (alter (set_c_proc x) c (h_cpus h)) h) c L b
  /\ cur (set_h_cpus (alter (set_c_proc x) c (h_cpus h)) h) = x.
Proof.
  intros Hok. destruct (hw_ok_at _ _ _ _ Hok) as (r & Hat & _).
  rewrite (alter_lookup_insert _ _ _ _ (proj2 Hat)). fold (put_cpu c (set_c_proc x r) h).
  assert (at_cpu (put_cpu c (set_c_proc x r) h) c (set_c_proc x r)) as Hat'
    by (by apply at_cpu_put with r).
  split; [by eapply hw_ok_cpu|by rewrite (cur_at _ _ _ Hat')].
Qed.

End cpu_fields.

(** ** A machine with one CPU

    It runs [po], holds the locks [L], and would have interrupts [b] outside
    of critical sections. *)
Definition demo_hw (L : list lockid) (b : bool) (po : option nat) : hw :=
  mkHw (match L with [] => b | _ => false end) 0 0
    [mkCpu 0 (Z.of_nat (length L)) b po 0] 1
    (list_to_map ((fun lk => (lk, mkSpinlock true "" (Some 0%nat))) <$> L)).

Lemma demo_hw_ok L b po : NoDup L -> hw_ok (demo_hw L b po) 0 L b.
Proof.
  intros HL. split; [done| |by destruct L| | |done].
  - eexists. split; [done|]. done.
  - intros lk Hlk. unfold lookup_total, map_lookup_total. simpl. rewrite not_elem_of_list_to_map_1; [done|].
    rewrite <- list_fmap_compose. simpl. by rewrite list_fmap_id.
  - intros lk Hlk. unfold lookup_total, map_lookup_total. simpl.
    rewrite (elem_of_list_to_map_1 _ lk (mkSpinlock true "" (Some 0%nat))); [done| |].
    + rewrite <- list_fmap_compose. simpl. by rewrite list_fmap_id.
    + apply list_elem_of_fmap. by exists lk.
Qed.

(** ** The main properties *)
Section properties.
Implicit Types (s : kernel) (h : hw) (c : nat) (r : cpu) (L : list lockid) (b : bool).

(** A critical section: on a CPU that holds the locks [L], [acquire] of
    another free lock returns with interrupts off and the lock held, and the
    [release] that follows restores the locks, the [pushcli] depth and the
    interrupt flag. *)
Theorem critical_section lk s c L b :
  hw_ok (k_hw s) c L b -> lk ∉ L ->
  exists h1 h2,
    acquire lk s = Done tt (set_k_hw h1 s) /\ hw_ok h1 c (lk :: L) b /\ h_if h1 = false /\
    holding lk (set_k_hw h1 s) = Done true (set_k_hw h1 s) /\
    release lk (set_k_hw h1 s) = Done tt (set_k_hw h2 s) /\ hw_ok h2 c L b /\
    h_if h2 = h_if (k_hw s) /\ hw_id h2 = hw_id (k_hw s).
Proof.
  intros Hok Hlk. destruct (acquire_ok lk s c L b Hok Hlk) as (h1 & E1 & Hok1 & Hid1).
  destruct (release_ok lk (set_k_hw h1 s) c L b Hok1) as (h2 & E2 & Hok2 & Hid2).
  exists h1, h2. split_and!; try done.
  - apply (ho_if _ _ _ _ Hok1).
  - destruct (hw_ok_at _ _ _ _ Hok1) as (r & Hat & Hn & _ & Hi).
    rewrite (holding_inner lk (set_k_hw h1 s) c r Hat); simpl; [|rewrite Hn; simpl; lia|apply Hi; rewrite Hn; simpl; lia].
    destruct (ho_own _ _ _ _ Hok1 lk) as [E3 E4]; [left|]. unfold the_lock. simpl.
    by rewrite E3, E4, bool_decide_eq_true_2.
  - by rewrite (ho_if _ _ _ _ Hok2), (ho_if _ _ _ _ Hok).
  - by rewrite Hid2.
Qed.

Lemma critical_section_witness :
  exists h1 h2, acquire L_ptable (kernel_zero (demo_hw [L_tickslock] true None))
      = Done tt (set_k_hw h1 (kernel_zero (demo_hw [L_tickslock] true None)))
    /\ hw_ok h2 0 [L_tickslock] true.
Proof.
  destruct (critical_section L_ptable (kernel_zero (demo_hw [L_tickslock] true None)) 0 [L_tickslock] true)
    as (h1 & h2 & E & _ & _ & _ & _ & H & _).
  - apply demo_hw_ok. apply NoDup_singleton.
  - by intros ?%list_elem_of_singleton.
  - exists h1, h2. by split.
Defined.

(** The misuse of a spin lock is caught: [acquire] of a lock the CPU already
    holds panics, of a lock another CPU holds spins, of a free lock takes it;
    [release] of a lock the CPU does not hold panics. *)
Theorem lock_errors lk s c r :
  at_cpu (k_hw s) c r -> 0 < ncli r -> h_if (k_hw s) = false ->
  acquire lk s =
    (if locked (the_lock lk s) then
       if bool_decide (lk_cpu (the_lock lk s) = Some c) then Stop (Panic "acquire") else Stop Spin
     else Done tt (set_k_hw (acquired lk c r (k_hw s)) s)) /\
  (~ (locked (the_lock lk s) = true /\ lk_cpu (the_lock lk s) = Some c) ->
    release lk s = Stop (Panic "release")).
Proof.
  intros Hat Hn Hi. split; [apply acquire_at; [done|lia]|]. intros Hno. unfold release.
  rewrite (bind_done _ _ _ _ _ (holding_inner lk s c r Hat Hn Hi)).
  destruct (locked _); [|done]. rewrite bool_decide_eq_false_2; [done|tauto].
Qed.

Lemma lock_errors_witness :
  acquire L_kmem (kernel_zero (demo_hw [L_kmem] true None)) = Stop (Panic "acquire").
Proof.
  rewrite (proj1 (lock_errors L_kmem (kernel_zero (demo_hw [L_kmem] true None)) 0
    (mkCpu 0 1 true None 0) ltac:(by split) ltac:(simpl; lia) eq_refl)).
  by vm_compute.
Defined.

End properties.
