(* ===== verification/Queue.v ===== *)
(** * The scheduling queues of the MLFQ scheduler ([kernel/proc.c], lines 10-78 and 425-471)

    [ptable] threads one singly linked queue per priority level through the
    [next_proc] fields of its processes.  The section [code] transcribes
    [enqueue], [dequeue] and the body of [priority_boost]; [queues_ok t qs]
    says that the pointers of [t] represent the abstract queues [qs] and that
    these hold exactly the [RUNNABLE] processes, by priority. *)
From S2P Require Import Prelude Types.

(** ** The code

    [None] is an access through a null pointer or outside an array. *)
Section code.
Implicit Types (t : ptable) (p : nat).

Definition get_proc p t : option proc := pt_proc t !! p.
Definition upd_proc p (f : proc -> proc) t : option ptable :=
  pr ← pt_proc t !! p;
  Some (set_pt_proc (<[p := f pr]> (pt_proc t)) t).
Definition upd_first (i : nat) (x : option nat) t : option ptable :=
  _ ← queue_first t !! i;
  Some (set_queue_first (<[i := x]> (queue_first t)) t).
Definition upd_last (i : nat) (x : option nat) t : option ptable :=
  _ ← queue_last t !! i;
  Some (set_queue_last (<[i := x]> (queue_last t)) t).

(** [p->priority] as an index into the arrays of [NPRIO] queues. *)
Definition prio p t : option nat := (fun pr => Z.to_nat (priority pr)) <$> get_proc p t.

Definition enqueue p t : option ptable :=
  i ← prio p t;
  last ← queue_last t !! i;
  t ← match last with
      | Some l => upd_proc l (set_next_proc (Some p)) t
      | None => upd_first i (Some p) t
      end;
  t ← upd_proc p (set_next_proc None) t;
  t ← upd_last i (Some p) t;
  upd_proc p (set_state RUNNABLE) t.

(** The loop [while(previous_p->next_proc != p) previous_p = previous_p->next_proc;].
    A queue holds at most [NPROC] processes, which bounds the search. *)
Fixpoint find_previous (fuel : nat) (prev : option nat) p t : option nat :=
  match fuel with
  | O => None
  | S fuel' =>
      q ← prev;
      pr ← get_proc q t;
      if decide (next_proc pr = Some p) then Some q
      else find_previous fuel' (next_proc pr) p t
  end.

Definition dequeue p t : option ptable :=
  i ← prio p t;
  pr ← get_proc p t;
  first ← queue_first t !! i;
  '(previous_p, t) ←
    (if decide (first = Some p) then
       t ← upd_first i (next_proc pr) t; Some (None, t)
     else
       q ← find_previous (S NPROC) first p t;
       t ← upd_proc q (set_next_proc (next_proc pr)) t; Some (Some q, t));
  last ← queue_last t !! i;
  if decide (last = Some p) then upd_last i previous_p t else Some t.

(** The first non-empty queue, [NPRIO] when there is none. *)
Fixpoint first_non_empty (l : list (option nat)) : nat :=
  match l with
  | [] => O
  | None :: l' => S (first_non_empty l')
  | Some _ :: _ => O
  end.

(** The loop that links each non-empty queue after the last process seen. *)
Fixpoint link_queues (idx : list nat) (last : option nat) t : option (option nat * ptable) :=
  match idx with
  | [] => Some (last, t)
  | i :: idx' =>
      fi ← queue_first t !! i;
      match fi with
      | None => link_queues idx' last t
      | Some _ =>
          l ← last;
          t ← upd_proc l (set_next_proc fi) t;
          li ← queue_last t !! i;
          link_queues idx' li t
      end
  end.

Fixpoint clear_queues (idx : list nat) t : option ptable :=
  match idx with
  | [] => Some t
  | i :: idx' =>
      t ← upd_first i None t;
      t ← upd_last i None t;
      clear_queues idx' t
  end.

(** The critical section of [priority_boost]. *)
Definition boost t : option ptable :=
  let t := set_pt_proc (set_priority 0 <$> pt_proc t) t in
  let n := first_non_empty (take NPRIO (queue_first t)) in
  t ← (if decide (n < NPRIO)%nat then
         fi ← queue_first t !! n;
         t ← upd_first 0 fi t;
         li ← queue_last t !! n;
         '(last, t) ← link_queues (seq (S n) (NPRIO - S n)) li t;
         upd_last 0 last t
       else Some t);
  clear_queues (seq 1 (NPRIO - 1)) t.

(** The loop of [wakeup1] over [ptable.proc]. *)
Fixpoint wakeup_from (n : nat) p (c : option chan) t : option ptable :=
  match n with
  | O => Some t
  | S n' =>
      pr ← get_proc p t;
      t ← (if decide (state pr = SLEEPING /\ p_chan pr = c) then enqueue p t else Some t);
      wakeup_from n' (S p) c t
  end.

Definition wakeup1 (c : option chan) t : option ptable := wakeup_from NPROC 0 c t.

End code.

(** ** The abstract queues *)
Definition aqueues := nat -> list nat.
Definition aempty : aqueues := fun _ => [].
Definition aenqueue (i p : nat) (qs : aqueues) : aqueues :=
  fun j => if decide (j = i) then qs i ++ [p] else qs j.
Definition adequeue (i p : nat) (qs : aqueues) : aqueues :=
  fun j => if decide (j = i) then filter (fun q => q <> p) (qs i) else qs j.
Definition aboost (qs : aqueues) : aqueues :=
  fun j => if decide (j = 0%nat) then mjoin (qs <$> seq 0 NPRIO) else [].

(** ** The representation invariant *)
Record links_ok (t : ptable) (qs : aqueues) : Prop := {
  lo_procs : length (pt_proc t) = NPROC;
  lo_firsts : length (queue_first t) = NPRIO;
  lo_lasts : length (queue_last t) = NPRIO;
  lo_head : forall i, (i < NPRIO)%nat -> queue_first t !! i = Some (qs i !! 0%nat);
  lo_tail : forall i, (i < NPRIO)%nat -> queue_last t !! i = Some (last (qs i));
  lo_chain : forall i k p, (i < NPRIO)%nat -> qs i !! k = Some p ->
    exists pr, pt_proc t !! p = Some pr /\ next_proc pr = qs i !! S k;
  lo_nodup : forall i, (i < NPRIO)%nat -> NoDup (qs i);
  lo_disj : forall i j p, (i < NPRIO)%nat -> (j < NPRIO)%nat -> p ∈ qs i -> p ∈ qs j -> i = j }.

(** A process apart from its queue link. *)
Definition data (pr : proc) : proc := set_next_proc None pr.
Definition pt_data (t : ptable) : list proc := data <$> pt_proc t.

(** The queues hold exactly the runnable processes, by priority. *)
Definition mem_ok (ps : list proc) (qs : aqueues) : Prop :=
  forall i p pr, (i < NPRIO)%nat -> ps !! p = Some pr ->
    (p ∈ qs i <-> state pr = RUNNABLE /\ priority pr = Z.of_nat i).
Definition prio_ok (ps : list proc) : Prop :=
  Forall (fun pr => 0 <= priority pr < Z.of_nat NPRIO) ps.

Definition queues_ok (t : ptable) (qs : aqueues) : Prop :=
  links_ok t qs /\ mem_ok (pt_data t) qs /\ prio_ok (pt_data t).

Section links.
Implicit Types (t : ptable) (qs : aqueues) (p q i : nat) (pr : proc).

Lemma pt_data_lookup t p pr :
  pt_proc t !! p = Some pr -> pt_data t !! p = Some (data pr).
Proof. intros H. unfold pt_data. by rewrite list_lookup_fmap, H. Qed.

Lemma pt_data_lookup_inv t p d :
  pt_data t !! p = Some d -> exists pr, pt_proc t !! p = Some pr /\ d = data pr.
Proof. unfold pt_data. rewrite list_lookup_fmap. intros (pr & -> & ?)%fmap_Some. eauto. Qed.

Lemma mem_lookup t qs i p :
  links_ok t qs -> (i < NPRIO)%nat -> p ∈ qs i -> exists pr, pt_proc t !! p = Some pr.
Proof.
  intros H Hi [k Hk]%list_elem_of_lookup. destruct (lo_chain _ _ H i k p Hi Hk) as (? & ? & _). eauto.
Qed.

Lemma upd_proc_ok t p pr (f : proc -> proc) :
  pt_proc t !! p = Some pr ->
  upd_proc p f t = Some (set_pt_proc (<[p := f pr]> (pt_proc t)) t).
Proof. intros H. unfold upd_proc. by rewrite H. Qed.

(** Changing anything but the link of one process keeps the links. *)
Lemma links_ok_data t qs ps :
  links_ok t qs -> next_proc <$> ps = next_proc <$> pt_proc t -> links_ok (set_pt_proc ps t) qs.
Proof.
  intros [] E. split; simpl; try done.
  - by rewrite <- lo_procs0, <- (length_fmap next_proc), E, length_fmap.
  - intros i k p Hi Hk. destruct (lo_chain0 i k p Hi Hk) as (pr & Hp & Hn).
    apply (f_equal (.!! p)) in E. rewrite !list_lookup_fmap, Hp in E.
    destruct (ps !! p) as [pr'|]; simplify_eq/=. exists pr'. split; congruence.
Qed.

Lemma pt_data_length t : length (pt_data t) = length (pt_proc t).
Proof. apply length_fmap. Qed.

Lemma prio_bound t p pr :
  prio_ok (pt_data t) -> pt_proc t !! p = Some pr -> 0 <= priority pr < Z.of_nat NPRIO.
Proof.
  intros H Hp. apply (Forall_lookup_1 _ _ p (data pr) H). by apply pt_data_lookup.
Qed.

(** A process that is not runnable is in no queue. *)
Lemma not_in_queue t qs p pr i :
  queues_ok t qs -> pt_proc t !! p = Some pr -> state pr <> RUNNABLE -> (i < NPRIO)%nat -> p ∉ qs i.
Proof.
  intros (_ & Hm & _) Hp Hs Hi Hin.
  by apply (Hm i p (data pr) Hi (pt_data_lookup _ _ _ Hp)) in Hin as [? _].
Qed.

(** The length of a queue is at most [NPROC]. *)
Lemma queue_length t qs i : links_ok t qs -> (i < NPRIO)%nat -> (length (qs i) <= NPROC)%nat.
Proof.
  intros H Hi. rewrite <- (lo_procs _ _ H), <- (length_seq (length (pt_proc t)) 0).
  apply submseteq_length, NoDup_submseteq; [by apply (lo_nodup _ _ H)|].
  intros p Hp. destruct (mem_lookup _ _ _ _ H Hi Hp) as (pr & Hpr).
  apply elem_of_seq. apply lookup_lt_Some in Hpr. lia.
Qed.

End links.

(** ** [enqueue] *)
Section enqueue.
Variables (t : ptable) (qs : aqueues) (p i : nat) (pr : proc).
Hypothesis Hok : links_ok t qs.
Hypothesis Hp : pt_proc t !! p = Some pr.
Hypothesis Hi : Z.to_nat (priority pr) = i.
Hypothesis Hlt : (i < NPRIO)%nat.
Hypothesis Hfresh : forall j, (j < NPRIO)%nat -> p ∉ qs j.

(** The links after [enqueue p], given that the former last process points to [p]. *)
Lemma enqueue_links_aux procs firsts lasts :
  length procs = NPROC -> length firsts = NPRIO -> length lasts = NPRIO ->
  firsts = (match qs i with [] => <[i := Some p]> (queue_first t) | _ => queue_first t end) ->
  lasts = <[i := Some p]> (queue_last t) ->
  (exists d, procs !! p = Some d /\ next_proc d = None) ->
  (forall q d, q <> p -> pt_proc t !! q = Some d -> exists d', procs !! q = Some d' /\
     next_proc d' = if decide (last (qs i) = Some q) then Some p else next_proc d) ->
  links_ok (mkPtable procs firsts lasts) (aenqueue i p qs).
Proof.
  intros Hl1 Hl2 Hl3 -> -> (dp & Hdp & Hnp) Hoth.
  assert (forall j, (j < NPRIO)%nat -> p ∈ qs j -> False) as Hf by (intros; by eapply Hfresh).
  split; simpl; try done; unfold aenqueue.
  - intros j Hj. pose proof (lo_head _ _ Hok j Hj) as E. case_decide as Eji.
    + subst j. destruct (qs i) as [|x l]; simpl in *.
      * apply list_lookup_insert_eq. by rewrite (lo_firsts _ _ Hok).
      * done.
    + destruct (qs i); [|done]. by rewrite list_lookup_insert_ne.
  - intros j Hj. case_decide as Eji.
    + subst j. rewrite last_snoc. apply list_lookup_insert_eq. by rewrite (lo_lasts _ _ Hok).
    + rewrite list_lookup_insert_ne by done. by apply (lo_tail _ _ Hok).
  - intros j k q Hj Hk. case_decide as Eji.
    + subst j. apply lookup_app_Some in Hk as [Hk|[Hge Hk]].
      * assert (q <> p) as Hqp by (intros ->; eapply Hf, list_elem_of_lookup_2; eauto).
        destruct (lo_chain _ _ Hok i k q Hj Hk) as (d & Hd & Hn).
        destruct (Hoth q d Hqp Hd) as (d' & Hd' & Hn'). exists d'. split; [done|]. rewrite Hn'.
        pose proof (lookup_lt_Some _ _ _ Hk) as Hkl. case_decide as El.
        -- rewrite last_lookup in El.
           rewrite (NoDup_lookup_eq _ _ _ _ (lo_nodup _ _ Hok i Hj) Hk El).
           replace (S (pred (length (qs i)))) with (length (qs i)) by lia. by rewrite lookup_snoc_eq.
        -- rewrite Hn, lookup_app_l; [done|]. destruct (decide (S k = length (qs i))) as [E|]; [|lia].
           exfalso. apply El. rewrite last_lookup, <- E. done.
      * apply list_lookup_singleton_Some in Hk as [Hk <-]. exists dp. split; [done|]. rewrite Hnp.
        symmetry. apply lookup_ge_None_2. rewrite length_app. simpl. lia.
    + assert (q <> p) as Hqp by (intros ->; eapply (Hf j), list_elem_of_lookup_2; eauto).
      destruct (lo_chain _ _ Hok j k q Hj Hk) as (d & Hd & Hn).
      destruct (Hoth q d Hqp Hd) as (d' & Hd' & Hn'). exists d'. split; [done|]. rewrite Hn'.
      case_decide as El; [|done]. exfalso. apply Eji, (lo_disj _ _ Hok j i q); try done.
      * by eapply list_elem_of_lookup_2.
      * rewrite last_lookup in El. by eapply list_elem_of_lookup_2.
  - intros j Hj. case_decide; [|by apply (lo_nodup _ _ Hok)].
    apply NoDup_app. split_and!; [by apply (lo_nodup _ _ Hok)| |apply NoDup_singleton].
    intros x Hx ->%list_elem_of_singleton. by apply (Hf i).
  - assert (forall j q, (j < NPRIO)%nat -> q ∈ (if decide (j = i) then qs i ++ [p] else qs j) ->
      if decide (q = p) then j = i else q ∈ qs j) as Hin.
    { intros j q Hj Hq. destruct (decide (q = p)) as [->|], (decide (j = i)) as [->|]; try done.
      - by apply (Hf j) in Hq.
      - by apply elem_of_app in Hq as [?|?%list_elem_of_singleton]. }
    intros j k q Hj Hk Hqj%Hin Hqk%Hin; try done.
    case_decide; [congruence|]. by eapply (lo_disj _ _ Hok).
Qed.

Lemma enqueue_links :
  exists t', enqueue p t = Some t' /\ links_ok t' (aenqueue i p qs) /\
    pt_data t' = <[p := data (set_state RUNNABLE pr)]> (pt_data t).
Proof.
  pose proof (lookup_lt_Some _ _ _ Hp) as Hpl.
  unfold enqueue, prio, get_proc. rewrite Hp. simpl. rewrite Hi, (lo_tail _ _ Hok i Hlt). simpl.
  destruct (last (qs i)) as [z|] eqn:Ez.
  - assert (z ∈ qs i) as Hz by (rewrite last_lookup in Ez; by eapply list_elem_of_lookup_2).
    assert (z <> p) as Hzp by (intros ->; by eapply Hfresh).
    destruct (mem_lookup _ _ _ _ Hok Hlt Hz) as (dz & Hdz).
    rewrite (upd_proc_ok _ _ _ _ Hdz). simpl.
    rewrite (upd_proc_ok _ _ pr); [|simpl; by rewrite list_lookup_insert_ne]. simpl.
    unfold upd_last. simpl. rewrite (lo_tail _ _ Hok i Hlt). simpl.
    erewrite upd_proc_ok; [|simpl; apply list_lookup_insert_eq; by rewrite length_insert]. simpl.
    eexists. split; [done|]. simpl. rewrite list_insert_insert_eq. split.
    + apply enqueue_links_aux; simpl; try done.
      * rewrite !length_insert. apply (lo_procs _ _ Hok).
      * apply (lo_firsts _ _ Hok).
      * rewrite length_insert. apply (lo_lasts _ _ Hok).
      * by destruct (qs i).
      * eexists. split; [apply list_lookup_insert_eq; by rewrite length_insert|done].
      * intros q d Hq Hd. rewrite list_lookup_insert_ne by done. rewrite Ez.
        destruct (decide (z = q)) as [->|].
        -- eexists. rewrite list_lookup_insert_eq by (by eapply lookup_lt_Some).
           split; [done|]. by rewrite decide_True.
        -- rewrite list_lookup_insert_ne by done. eexists. split; [done|].
           rewrite decide_False; congruence.
    + unfold pt_data. simpl. rewrite !list_fmap_insert. f_equal.
      apply list_insert_id. by rewrite list_lookup_fmap, Hdz.
  - apply last_None in Ez. unfold upd_first. rewrite (lo_head _ _ Hok i Hlt). simpl.
    rewrite (upd_proc_ok _ _ pr) by done. simpl.
    unfold upd_last. simpl. rewrite (lo_tail _ _ Hok i Hlt). simpl.
    erewrite upd_proc_ok; [|simpl; by apply list_lookup_insert_eq]. simpl.
    eexists. split; [done|]. simpl. rewrite list_insert_insert_eq. split.
    + apply enqueue_links_aux; simpl; try done.
      * rewrite length_insert. apply (lo_procs _ _ Hok).
      * rewrite length_insert. apply (lo_firsts _ _ Hok).
      * rewrite length_insert. apply (lo_lasts _ _ Hok).
      * by rewrite Ez.
      * eexists. split; [by apply list_lookup_insert_eq|done].
      * intros q d Hq Hd. rewrite list_lookup_insert_ne by done. rewrite Ez. simpl. eauto.
    + unfold pt_data. simpl. by rewrite list_fmap_insert.
Qed.

End enqueue.

(** ** [dequeue] *)
Section dequeue.
Variables (t : ptable) (qs : aqueues) (p i : nat) (pr : proc) (l1 l2 : list nat).
Hypothesis Hok : links_ok t qs.
Hypothesis Hp : pt_proc t !! p = Some pr.
Hypothesis Hi : Z.to_nat (priority pr) = i.
Hypothesis Hlt : (i < NPRIO)%nat.
Hypothesis Hq : qs i = l1 ++ p :: l2.

Lemma queue_nodup : (p ∉ l1) /\ (p ∉ l2) /\ (forall q, q ∈ l1 -> q ∈ l2 -> False) /\ NoDup (l1 ++ l2).
Proof.
  pose proof (lo_nodup _ _ Hok i Hlt) as H. rewrite Hq in H.
  apply NoDup_app in H as (H1 & H2 & [H3 H4]%NoDup_cons). split_and!; try done.
  - intros ?. by apply (H2 p); [|left].
  - intros q ??. apply (H2 q); [done|by right].
  - apply NoDup_app. split_and!; try done. intros q ??. apply (H2 q); [done|by right].
Qed.

Lemma adequeue_split j : adequeue i p qs j = if decide (j = i) then l1 ++ l2 else qs j.
Proof.
  unfold adequeue. case_decide; [|done]. rewrite Hq.
  destruct queue_nodup as (H1 & H2 & _).
  rewrite filter_app, filter_cons_False by tauto.
  f_equal; apply filter_all; intros x Hx ->; done.
Qed.

(** The next process of [p] is the head of the rest of its queue. *)
Lemma next_of_p : next_proc pr = l2 !! 0%nat.
Proof.
  destruct (lo_chain _ _ Hok i (length l1) p Hlt) as (pr' & Hp' & Hn).
  - by rewrite Hq, lookup_app_r, Nat.sub_diag by lia.
  - assert (pr' = pr) as -> by congruence. rewrite Hn, Hq, lookup_app_r by lia.
    by replace (S (length l1) - length l1)%nat with 1%nat by lia.
Qed.

Arguments find_previous : simpl never.

Lemma find_previous_S fuel q :
  find_previous (S fuel) (Some q) p t =
    (d ← get_proc q t;
     if decide (next_proc d = Some p) then Some q else find_previous fuel (next_proc d) p t).
Proof. done. Qed.

Lemma find_previous_ok fuel : forall k q,
  l1 !! k = Some q -> (length l1 <= fuel + k)%nat ->
  find_previous fuel (Some q) p t = last l1.
Proof.
  induction fuel as [|fuel IH]; intros k q Hk Hf.
  { apply lookup_lt_Some in Hk. lia. }
  rewrite find_previous_S.
  destruct (lo_chain _ _ Hok i k q Hlt) as (d & Hd & Hn).
  { rewrite Hq. by apply lookup_app_l_Some. }
  unfold get_proc. rewrite Hd. simpl. rewrite Hq in Hn.
  pose proof (lookup_lt_Some _ _ _ Hk) as Hkl.
  destruct (decide (S k = length l1)) as [E|E].
  - rewrite lookup_app_r, E, Nat.sub_diag in Hn by lia. simpl in Hn.
    rewrite decide_True by done. by rewrite last_lookup, <- E.
  - destruct (lookup_lt_is_Some_2 l1 (S k)) as [q' Hq']; [lia|].
    rewrite lookup_app_l, Hq' in Hn by lia. rewrite Hn, decide_False.
    + eapply IH; [done|lia].
    + intros [= ->]. apply (proj1 queue_nodup). by eapply list_elem_of_lookup_2.
Qed.

Lemma dequeue_links_aux procs firsts lasts :
  length procs = NPROC ->
  firsts = <[i := (l1 ++ l2) !! 0%nat]> (queue_first t) ->
  lasts = <[i := last (l1 ++ l2)]> (queue_last t) ->
  (forall q d, q <> p -> pt_proc t !! q = Some d -> exists d', procs !! q = Some d' /\
     next_proc d' = if decide (last l1 = Some q) then l2 !! 0%nat else next_proc d) ->
  links_ok (mkPtable procs firsts lasts) (adequeue i p qs).
Proof.
  intros Hl -> -> Hoth. destruct queue_nodup as (Hp1 & Hp2 & Hdisj & Hnd).
  assert (forall q, q ∈ l1 ++ l2 -> q ∈ qs i /\ q <> p) as Hsub.
  { intros q [|]%elem_of_app; rewrite Hq; (split; [|intros ->; done]); apply elem_of_app; auto.
    right. by right. }
  split; simpl; try done.
  - rewrite length_insert. apply (lo_firsts _ _ Hok).
  - rewrite length_insert. apply (lo_lasts _ _ Hok).
  - intros j Hj. rewrite adequeue_split. case_decide as Ej; [subst j|].
    + apply list_lookup_insert_eq. by rewrite (lo_firsts _ _ Hok).
    + rewrite list_lookup_insert_ne by done. by apply (lo_head _ _ Hok).
  - intros j Hj. rewrite adequeue_split. case_decide as Ej; [subst j|].
    + apply list_lookup_insert_eq. by rewrite (lo_lasts _ _ Hok).
    + rewrite list_lookup_insert_ne by done. by apply (lo_tail _ _ Hok).
  - intros j k q Hj. rewrite adequeue_split. case_decide as Ej; [subst j|]; intros Hk.
    + destruct (Hsub q ltac:(by eapply list_elem_of_lookup_2)) as [_ Hqp].
      apply lookup_app_Some in Hk as [Hk|[Hge Hk]].
      * pose proof (lookup_lt_Some _ _ _ Hk) as Hkl.
        destruct (lo_chain _ _ Hok i k q Hlt) as (d & Hd & Hn); [rewrite Hq; by apply lookup_app_l_Some|].
        destruct (Hoth q d Hqp Hd) as (d' & Hd' & Hn'). exists d'. split; [done|]. rewrite Hn'.
        apply NoDup_app in Hnd as (Hnd1 & _ & _).
        case_decide as El.
        -- rewrite last_lookup in El. rewrite (NoDup_lookup_eq _ _ _ _ Hnd1 Hk El).
           rewrite lookup_app_r by lia. f_equal. lia.
        -- rewrite Hn, Hq. destruct (decide (S k = length l1)) as [E|].
           ++ exfalso. apply El. by rewrite last_lookup, <- E.
           ++ by rewrite !lookup_app_l by lia.
      * destruct (lo_chain _ _ Hok i (S k) q Hlt) as (d & Hd & Hn).
        { rewrite Hq, lookup_app_r by lia.
          by replace (S k - length l1)%nat with (S (k - length l1))%nat by lia. }
        destruct (Hoth q d Hqp Hd) as (d' & Hd' & Hn'). exists d'. split; [done|]. rewrite Hn'.
        rewrite decide_False, Hn, Hq, !lookup_app_r by (lia || (intros El; apply (Hdisj q);
          [rewrite last_lookup in El; by eapply list_elem_of_lookup_2|by eapply list_elem_of_lookup_2])).
        by replace (S (S k) - length l1)%nat with (S (S k - length l1))%nat by lia.
    + assert (q ∈ qs j) as Hqj by (by eapply list_elem_of_lookup_2).
      assert (p ∈ qs i) as Hpi by (rewrite Hq; apply elem_of_app; right; left).
      assert (q <> p) as Hqp by (intros ->; apply Ej; by eapply (lo_disj _ _ Hok)).
      destruct (lo_chain _ _ Hok j k q Hj Hk) as (d & Hd & Hn).
      destruct (Hoth q d Hqp Hd) as (d' & Hd' & Hn'). exists d'. split; [done|]. rewrite Hn'.
      rewrite decide_False; [done|]. intros El. apply Ej, (lo_disj _ _ Hok j i q); try done.
      rewrite last_lookup in El. apply Hsub. apply elem_of_app. left. by eapply list_elem_of_lookup_2.
  - intros j Hj. rewrite adequeue_split. case_decide; [done|]. by apply (lo_nodup _ _ Hok).
  - assert (forall j q, q ∈ adequeue i p qs j -> q ∈ qs j) as Hin.
    { intros j q. rewrite adequeue_split. destruct (decide (j = i)) as [->|]; [apply Hsub|done]. }
    intros j k q Hj Hk Hqj%Hin Hqk%Hin. by apply (lo_disj _ _ Hok j k q).
Qed.

Lemma queue_last_after x :
  x = last l1 ->
  (if decide (last (qs i) = Some p) then Some (<[i := x]> (queue_last t)) else Some (queue_last t))
    = Some (<[i := last (l1 ++ l2)]> (queue_last t)).
Proof.
  intros ->. destruct queue_nodup as (Hp1 & Hp2 & _). rewrite Hq.
  destruct l2 as [|y l2' _] using rev_ind.
  - rewrite last_snoc, app_nil_r, decide_True by done. done.
  - rewrite app_comm_cons, !app_assoc, !last_snoc, decide_False.
    + f_equal. symmetry. apply list_insert_id.
      by rewrite (lo_tail _ _ Hok i Hlt), Hq, app_comm_cons, app_assoc, last_snoc.
    + intros [= ->]. apply Hp2, elem_of_app. right. by left.
Qed.

Lemma dequeue_links :
  exists t', dequeue p t = Some t' /\ links_ok t' (adequeue i p qs) /\ pt_data t' = pt_data t.
Proof.
  pose proof (lo_procs _ _ Hok) as Hlen. pose proof next_of_p as Hn.
  unfold dequeue, prio, get_proc. rewrite Hp. simpl.
  rewrite Hi, (lo_head _ _ Hok i Hlt). simpl. rewrite Hq.
  pose proof (queue_last_after _ eq_refl) as E.
  destruct queue_nodup as (Hp1 & _). destruct (last l1) as [z|] eqn:Ez.
  - assert (z ∈ l1) as Hz1 by (rewrite last_lookup in Ez; by eapply list_elem_of_lookup_2).
    destruct (lookup_lt_is_Some_2 l1 0) as [q0 Hq0]; [by destruct l1; [inversion Hz1|simpl; lia]|].
    assert (q0 <> p) as Hq0p by (intros ->; by apply Hp1; eapply list_elem_of_lookup_2).
    rewrite (lookup_app_l_Some _ _ _ _ Hq0), decide_False by congruence.
    rewrite (find_previous_ok (S NPROC) 0 q0), Ez; [|done|].
    2:{ pose proof (queue_length _ _ _ Hok Hlt) as Hl. rewrite Hq, length_app in Hl. lia. }
    simpl. assert (z ∈ qs i) as Hz by (rewrite Hq; apply elem_of_app; by left).
    destruct (mem_lookup _ _ _ _ Hok Hlt Hz) as (dz & Hdz).
    rewrite (upd_proc_ok _ _ _ _ Hdz). simpl. rewrite (lo_tail _ _ Hok i Hlt). simpl.
    unfold upd_last. simpl. rewrite (lo_tail _ _ Hok i Hlt). simpl.
    exists (mkPtable (<[z := set_next_proc (next_proc pr) dz]> (pt_proc t)) (queue_first t)
      (<[i := last (l1 ++ l2)]> (queue_last t))). split_and!.
    + case_decide; injection E as <-; done.
    + apply dequeue_links_aux; rewrite ?length_insert; try done.
      * symmetry. apply list_insert_id.
        by rewrite (lo_head _ _ Hok i Hlt), Hq, !(lookup_app_l_Some _ _ _ _ Hq0).
      * intros q d Hqp Hd. rewrite Ez. destruct (decide (z = q)) as [->|].
        -- eexists. rewrite list_lookup_insert_eq by (by eapply lookup_lt_Some).
           split; [done|]. by rewrite decide_True.
        -- rewrite list_lookup_insert_ne by done. eexists. split; [done|].
           rewrite decide_False; congruence.
    + unfold pt_data. simpl. rewrite list_fmap_insert. apply list_insert_id.
      by rewrite list_lookup_fmap, Hdz.
  - pose proof (proj1 (last_None l1) Ez) as El1. rewrite El1. simpl. rewrite decide_True by done.
    unfold upd_first. rewrite (lo_head _ _ Hok i Hlt). simpl.
    rewrite (lo_tail _ _ Hok i Hlt). simpl. unfold upd_last. simpl. rewrite (lo_tail _ _ Hok i Hlt). simpl.
    exists (mkPtable (pt_proc t) (<[i := next_proc pr]> (queue_first t))
      (<[i := last (l1 ++ l2)]> (queue_last t))). split_and!; [| |done].
    + case_decide; injection E as <-; done.
    + rewrite Hn. apply dequeue_links_aux; rewrite ?El1; try done.
      intros q d _ Hd. exists d. by rewrite decide_False.
Qed.

End dequeue.

(** ** [priority_boost] *)
Definition chain (ps : list proc) (l : list nat) : Prop :=
  forall k p, l !! k = Some p -> exists pr, ps !! p = Some pr /\ next_proc pr = l !! S k.

Section boost.
Implicit Types (ps : list proc) (t : ptable) (l : list nat) (qs : aqueues).

Lemma chain_frame ps p pr l : chain ps l -> p ∉ l -> chain (<[p := pr]> ps) l.
Proof.
  intros H Hp k q Hk. rewrite list_lookup_insert_ne; [by apply H|].
  intros ->. by apply Hp, list_elem_of_lookup_2 with k.
Qed.

(** Pointing the last process of a queue at the head of another one concatenates them. *)
Lemma chain_app ps l1 l2 z dz :
  chain ps l1 -> chain ps l2 -> NoDup (l1 ++ l2) -> last l1 = Some z -> ps !! z = Some dz ->
  chain (<[z := set_next_proc (l2 !! 0%nat) dz]> ps) (l1 ++ l2).
Proof.
  intros H1 H2 (Hn1 & Hd & _)%NoDup_app Hz Hdz k q Hk. rewrite last_lookup in Hz.
  apply lookup_app_Some in Hk as [Hk|[Hge Hk]].
  - destruct (H1 k q Hk) as (d & Hd' & Hn). pose proof (lookup_lt_Some _ _ _ Hk) as Hkl.
    destruct (decide (z = q)) as [->|Hzq].
    + rewrite list_lookup_insert_eq by (by eapply lookup_lt_Some). eexists. split; [done|].
      rewrite (NoDup_lookup_eq _ _ _ _ Hn1 Hk Hz), lookup_app_r by lia. simpl. f_equal. lia.
    + rewrite list_lookup_insert_ne by done. exists d. split; [done|]. rewrite Hn, lookup_app_l; [done|].
      destruct (decide (S k = length l1)) as [E|]; [|lia]. rewrite <- E in Hz. simpl in Hz. congruence.
  - destruct (H2 _ q Hk) as (d & Hd' & Hn).
    rewrite list_lookup_insert_ne.
    + exists d. split; [done|]. rewrite Hn, lookup_app_r by lia. f_equal. lia.
    + intros ->. apply (Hd q); by eapply list_elem_of_lookup_2.
Qed.

Lemma link_queues_ok qs idx : forall t l,
  l <> [] -> chain (pt_proc t) l ->
  (forall i, i ∈ idx -> chain (pt_proc t) (qs i)
     /\ queue_first t !! i = Some (qs i !! 0%nat) /\ queue_last t !! i = Some (last (qs i))) ->
  NoDup (l ++ mjoin (qs <$> idx)) ->
  exists t', link_queues idx (last l) t = Some (last (l ++ mjoin (qs <$> idx)), t')
    /\ chain (pt_proc t') (l ++ mjoin (qs <$> idx)) /\ pt_data t' = pt_data t
    /\ queue_first t' = queue_first t /\ queue_last t' = queue_last t.
Proof.
  induction idx as [|i idx IH]; intros t l Hl Hc Hq Hnd; simpl.
  { rewrite app_nil_r. eauto 10. }
  destruct (Hq i ltac:(left)) as (Hci & Hfi & Hli). rewrite Hfi. simpl in *.
  assert (forall j, j ∈ idx -> chain (pt_proc t) (qs j)
    /\ queue_first t !! j = Some (qs j !! 0%nat) /\ queue_last t !! j = Some (last (qs j))) as Hq'.
  { intros j Hj. apply Hq. by right. }
  destruct (qs i) as [|x li] eqn:Eqi; simpl.
  { by apply IH. }
  destruct (last l) as [z|] eqn:Ez; [|by apply last_None in Ez]. simpl.
  assert (z ∈ l) as Hzl by (rewrite last_lookup in Ez; by eapply list_elem_of_lookup_2).
  pose proof Ez as Ez'. rewrite last_lookup in Ez'. destruct (Hc _ _ Ez') as (dz & Hdz & _).
  rewrite (upd_proc_ok _ _ _ _ Hdz). simpl. rewrite Hli. simpl.
  rewrite app_assoc in Hnd. pose proof Hnd as Hnd0.
  apply NoDup_app in Hnd0 as (Hnd1 & Hnd2 & Hnd3).
  edestruct (IH (set_pt_proc (<[z:=set_next_proc (Some x) dz]> (pt_proc t)) t) (l ++ x :: li))
    as (t' & E & Hc' & Hd' & Hf' & Hl'); try done.
  - by destruct l.
  - simpl. by apply (chain_app (pt_proc t) l (x :: li)).
  - intros j Hj. destruct (Hq' j Hj) as (Hcj & ? & ?). split_and!; try done. simpl.
    apply chain_frame; [done|]. intros Hzj. apply (Hnd2 z); [apply elem_of_app; by left|].
    apply list_elem_of_join. exists (qs j). split; [done|]. by apply list_elem_of_fmap_2.
  - rewrite last_app in E. destruct (last (x :: li)) as [y|] eqn:Ey; [|by apply last_None in Ey].
    exists t'. rewrite app_comm_cons, app_assoc. split_and!; try done.
    rewrite Hd'. unfold pt_data. simpl. rewrite list_fmap_insert. apply list_insert_id.
    by rewrite list_lookup_fmap, Hdz.
Qed.

Lemma first_non_empty_spec qs n : forall i (l : list (option nat)),
  (forall k, (k < n)%nat -> l !! k = Some (qs (i + k)%nat !! 0%nat)) -> length l = n ->
  let m := first_non_empty l in
  (m <= n)%nat /\ mjoin (qs <$> seq i m) = [] /\ ((m < n)%nat -> qs (i + m)%nat <> []).
Proof.
  induction n as [|n IH]; intros i [|x l] Hl Hn; simplify_eq/=; [split_and!; lia || done|].
  pose proof (Hl 0%nat ltac:(lia)) as H0. simpl in H0. injection H0 as ->. rewrite Nat.add_0_r.
  destruct (qs i) as [|y li] eqn:Ei; simpl.
  - destruct (IH (S i) l) as (? & Hj & ?); [|done|].
    + intros k Hk. specialize (Hl (S k) ltac:(lia)). simpl in Hl.
      by replace (S i + k)%nat with (i + S k)%nat by lia.
    + rewrite Ei. simpl. split_and!; [lia|done|]. intros ?.
      replace (i + S (first_non_empty l))%nat with (S i + first_non_empty l)%nat by lia. auto with lia.
  - split_and!; [lia|done|]. rewrite Nat.add_0_r, Ei. done.
Qed.


Lemma queues_nodup t qs : links_ok t qs -> NoDup (mjoin (qs <$> seq 0 NPRIO)).
Proof.
  intros Hok. assert (forall n m, (m + n <= NPRIO)%nat -> NoDup (mjoin (qs <$> seq m n))) as H.
  { induction n as [|n IH]; intros m Hm; simpl; [constructor|].
    apply NoDup_app. split_and!; [apply (lo_nodup _ _ Hok); lia| |apply IH; lia].
    intros x Hx (l & Hl & (j & -> & Hj)%list_elem_of_fmap)%list_elem_of_join.
    apply elem_of_seq in Hj.
    pose proof (lo_disj _ _ Hok m j x ltac:(lia) ltac:(lia) Hx Hl). lia. }
  by apply H.
Qed.

(** The links after [priority_boost]: one queue, the concatenation of all. *)
Lemma boosted_links t qs ps f0 :
  links_ok t qs -> length ps = NPROC -> chain ps (mjoin (qs <$> seq 0 NPRIO)) ->
  f0 = mjoin (qs <$> seq 0 NPRIO) ->
  links_ok (mkPtable ps [f0 !! 0%nat; None; None] [last f0; None; None]) (aboost qs).
Proof.
  intros Hok Hl Hc ->. unfold aboost. split; simpl; try done.
  - intros [|[|[|i]]] Hi; try done. unfold NPRIO in Hi. lia.
  - intros [|[|[|i]]] Hi; try done. unfold NPRIO in Hi. lia.
  - intros i k p Hi. case_decide; [apply Hc|done].
  - intros i Hi. case_decide; [|constructor]. by apply (queues_nodup t).
  - intros i j p _ _ Hpi Hpj. destruct (decide (i = 0%nat)), (decide (j = 0%nat)); subst; try done;
      by apply elem_of_nil in Hpi || by apply elem_of_nil in Hpj.
Qed.

Lemma clear_queues_ok t (f0 l0 : option nat) :
  length (queue_first t) = NPRIO -> length (queue_last t) = NPRIO ->
  queue_first t !! 0%nat = Some f0 -> queue_last t !! 0%nat = Some l0 ->
  clear_queues (seq 1 (NPRIO - 1)) t = Some (mkPtable (pt_proc t) [f0; None; None] [l0; None; None]).
Proof.
  destruct t as [ps [|a0 [|a1 [|a2 [|]]]] [|b0 [|b1 [|b2 [|]]]]]; intros ????; by simplify_eq/=.
Qed.

Lemma boost_ok t qs :
  links_ok t qs ->
  exists t', boost t = Some t' /\ links_ok t' (aboost qs)
    /\ pt_data t' = set_priority 0 <$> pt_data t.
Proof.
  intros Hok. pose proof (queues_nodup t qs Hok) as Hnd.
  set (t0 := set_pt_proc (set_priority 0 <$> pt_proc t) t).
  assert (links_ok t0 qs) as Hok0.
  { apply links_ok_data; [done|]. by rewrite <- list_fmap_compose. }
  assert (pt_data t0 = set_priority 0 <$> pt_data t) as Hd0.
  { unfold pt_data. simpl. by rewrite <- !list_fmap_compose. }
  assert (forall i, (i < NPRIO)%nat -> chain (pt_proc t0) (qs i)) as Hch.
  { intros i Hi k p Hk. by apply (lo_chain _ _ Hok0 i k p Hi). }
  unfold boost. fold t0. rewrite <- Hd0. clearbody t0. clear t Hok Hd0.
  rename t0 into t, Hok0 into Hok.
  pose proof (lo_firsts _ _ Hok) as Hlf. pose proof (lo_lasts _ _ Hok) as Hll.
  destruct (first_non_empty_spec qs NPRIO 0 (take NPRIO (queue_first t))) as (Hn & Hpre & Hne).
  { intros k Hk. rewrite lookup_take_lt by done. by apply (lo_head _ _ Hok). }
  { rewrite length_take, Hlf. done. }
  set (n := first_non_empty (take NPRIO (queue_first t))) in *. clearbody n.
  destruct (decide (n < NPRIO)%nat) as [Hlt|Hge].
  - assert (mjoin (qs <$> seq 0 NPRIO) = qs n ++ mjoin (qs <$> seq (S n) (NPRIO - S n))) as Eq.
    { replace NPRIO with (n + S (NPRIO - S n))%nat at 1 by lia.
      rewrite seq_app, fmap_app, join_app, Hpre. done. }
    rewrite (lo_head _ _ Hok n Hlt). unfold upd_first at 1.
    rewrite (lo_head _ _ Hok 0%nat) by (unfold NPRIO; lia). cbn [mbind option_bind].
    rewrite Eq in Hnd. cbn [queue_last set_queue_first]. rewrite (lo_tail _ _ Hok n Hlt).
    cbn [mbind option_bind].
    destruct (link_queues_ok qs (seq (S n) (NPRIO - S n))
      (set_queue_first (<[0%nat := qs n !! 0%nat]> (queue_first t)) t) (qs n))
      as (t' & E & Hc & Hd & Hf & Hl); [by apply Hne|by apply Hch| |done|].
    { intros i Hi%elem_of_seq. simpl. rewrite list_lookup_insert_ne by lia.
      split_and!; [apply Hch|apply (lo_head _ _ Hok)|apply (lo_tail _ _ Hok)]; lia. }
    rewrite E. cbn [mbind option_bind]. simpl in Hf, Hl. unfold upd_last at 1.
    rewrite Hl, (lo_tail _ _ Hok 0%nat) by (unfold NPRIO; lia). cbn [mbind option_bind].
    rewrite (clear_queues_ok _ (qs n !! 0%nat) (last (qs n ++ mjoin (qs <$> seq (S n) (NPRIO - S n))))).
    + eexists. split; [done|]. split; [|exact Hd].
      simpl. pose proof (boosted_links t qs (pt_proc t') (mjoin (qs <$> seq 0 NPRIO)) Hok) as HB.
      rewrite Eq in HB. specialize (HB ltac:(rewrite <- pt_data_length, Hd, pt_data_length; apply (lo_procs _ _ Hok)) Hc eq_refl).
      rewrite lookup_app_l in HB; [done|]. destruct (qs n) eqn:En; [by destruct (Hne Hlt)|simpl; lia].
    + simpl. by rewrite Hf, length_insert.
    + simpl. by rewrite ?Hl, length_insert.
    + simpl. rewrite Hf. apply list_lookup_insert_eq. rewrite Hlf. unfold NPRIO. lia.
    + simpl. rewrite ?Hl. apply list_lookup_insert_eq. rewrite Hll. unfold NPRIO. lia.
  - assert (n = NPRIO) as -> by lia. clear Hge Hn Hne. cbn [mbind option_bind].
    rewrite (clear_queues_ok _ (qs 0%nat !! 0%nat) (last (qs 0%nat))); try done.
    + eexists. split; [done|]. split; [|done].
      pose proof (boosted_links t qs (pt_proc t) [] Hok (lo_procs _ _ Hok)) as HB. rewrite Hpre in HB.
      simpl in Hpre. apply app_nil in Hpre as [-> _]. by apply HB.
    + apply (lo_head _ _ Hok). unfold NPRIO. lia.
    + apply (lo_tail _ _ Hok). unfold NPRIO. lia.
Qed.

End boost.

(** ** The invariant is preserved *)
Section invariant.
Implicit Types (t : ptable) (qs : aqueues) (p q i : nat) (pr : proc) (ps : list proc).

Lemma mem_ok_insert ps qs qs' p d d' :
  mem_ok ps qs -> ps !! p = Some d ->
  (forall i, (i < NPRIO)%nat -> p ∈ qs' i <-> state d' = RUNNABLE /\ priority d' = Z.of_nat i) ->
  (forall q i, q <> p -> (i < NPRIO)%nat -> q ∈ qs' i <-> q ∈ qs i) ->
  mem_ok (<[p := d']> ps) qs'.
Proof.
  intros Hm Hp Hp' Hq i q dq Hi. destruct (decide (p = q)) as [->|Hne].
  - rewrite list_lookup_insert_eq by (by eapply lookup_lt_Some). intros [= <-]. auto.
  - rewrite list_lookup_insert_ne by done. intros Hdq. rewrite Hq by done. by apply Hm.
Qed.

Lemma prio_ok_insert ps p d :
  prio_ok ps -> 0 <= priority d < Z.of_nat NPRIO -> prio_ok (<[p := d]> ps).
Proof. intros. by apply Forall_insert. Qed.

Lemma enqueue_ok t qs p pr :
  queues_ok t qs -> pt_proc t !! p = Some pr -> state pr <> RUNNABLE ->
  exists t', enqueue p t = Some t' /\ queues_ok t' (aenqueue (Z.to_nat (priority pr)) p qs)
    /\ pt_data t' = <[p := data (set_state RUNNABLE pr)]> (pt_data t).
Proof.
  intros Hok Hp Hs. pose proof (prio_bound t p pr (proj2 (proj2 Hok)) Hp) as Hb.
  assert (Z.to_nat (priority pr) < NPRIO)%nat as Hi by lia.
  assert (forall j, (j < NPRIO)%nat -> p ∉ qs j) as Hfr by (intros; by eapply not_in_queue).
  destruct (enqueue_links t qs p _ pr (proj1 Hok) Hp eq_refl Hi Hfr) as (t' & E & Hl & Hd).
  exists t'. split_and!; [done| |done]. destruct Hok as (_ & Hm & Hpr).
  split; [done|]. rewrite Hd. split; [|by apply prio_ok_insert].
  eapply mem_ok_insert; [done|by apply pt_data_lookup| |]; unfold aenqueue; simpl.
  - intros j Hj. case_decide as E'; [subst j|].
    + split; [intros _; split; [done|lia]|]. intros _. apply elem_of_app. right. by left.
    + split; [by intros ?%Hfr|]. intros [_ ?]. lia.
  - intros q j Hq Hj. case_decide; [subst j|done]. rewrite elem_of_app, list_elem_of_singleton. tauto.
Qed.

(** Updating a process that is not, and does not become, runnable. *)
Lemma upd_idle_ok t qs p pr (f : proc -> proc) :
  queues_ok t qs -> pt_proc t !! p = Some pr -> state pr <> RUNNABLE ->
  state (f pr) <> RUNNABLE -> 0 <= priority (f pr) < Z.of_nat NPRIO ->
  next_proc (f pr) = next_proc pr ->
  exists t', upd_proc p f t = Some t' /\ queues_ok t' qs
    /\ pt_proc t' = <[p := f pr]> (pt_proc t).
Proof.
  intros Hok Hp Hs Hs' Hb Hn. rewrite (upd_proc_ok _ _ _ _ Hp). eexists. split_and!; [done| |done].
  pose proof (fun i => not_in_queue t qs p pr i Hok Hp Hs) as Hfr. destruct Hok as (Hl & Hm & Hpr).
  split.
  - apply links_ok_data; [done|]. rewrite list_fmap_insert, Hn. apply list_insert_id.
    by rewrite list_lookup_fmap, Hp.
  - unfold pt_data. simpl. rewrite list_fmap_insert. split; [|by apply prio_ok_insert].
    eapply mem_ok_insert; [done|by apply pt_data_lookup| |done]. simpl.
    intros i Hi. split; [by intros ?%Hfr|tauto].
Qed.

(** Updating the fields of any process that the queues do not depend on. *)
Lemma upd_data_ok t qs p pr (f : proc -> proc) :
  queues_ok t qs -> pt_proc t !! p = Some pr ->
  state (f pr) = state pr -> priority (f pr) = priority pr -> next_proc (f pr) = next_proc pr ->
  exists t', upd_proc p f t = Some t' /\ queues_ok t' qs /\ pt_proc t' = <[p := f pr]> (pt_proc t).
Proof.
  intros Hok Hp Hs Hpri Hn. rewrite (upd_proc_ok _ _ _ _ Hp). eexists. split_and!; [done| |done].
  pose proof (prio_bound t p pr (proj2 (proj2 Hok)) Hp) as Hb. destruct Hok as (Hl & Hm & Hpr).
  split.
  - apply links_ok_data; [done|]. rewrite list_fmap_insert, Hn. apply list_insert_id.
    by rewrite list_lookup_fmap, Hp.
  - unfold pt_data. simpl. rewrite list_fmap_insert. split.
    + eapply mem_ok_insert; [done|by apply pt_data_lookup| |done]. simpl. rewrite Hs, Hpri.
      intros i Hi. by apply (Hm i p (data pr) Hi), pt_data_lookup.
    + apply prio_ok_insert; [done|]. simpl. by rewrite Hpri.
Qed.

(** [dequeue(p); p->state = RUNNING;] of [scheduler]. *)
Lemma dequeue_run_ok t qs p i :
  queues_ok t qs -> (i < NPRIO)%nat -> p ∈ qs i ->
  exists t' t'' pr, dequeue p t = Some t' /\ upd_proc p (set_state RUNNING) t' = Some t''
    /\ pt_proc t !! p = Some pr /\ state pr = RUNNABLE
    /\ queues_ok t'' (adequeue i p qs)
    /\ pt_data t'' = <[p := data (set_state RUNNING pr)]> (pt_data t).
Proof.
  intros Hok Hi Hin. destruct (mem_lookup _ _ _ _ (proj1 Hok) Hi Hin) as (pr & Hp).
  destruct (proj1 (proj1 (proj2 Hok) i p _ Hi (pt_data_lookup _ _ _ Hp)) Hin) as [Hs Hpi].
  destruct (list_elem_of_split _ _ Hin) as (l1 & l2 & Hq).
  destruct (dequeue_links t qs p i pr l1 l2 (proj1 Hok) Hp) as (t' & E & Hl & Hd);
    [simpl in Hpi; lia|done|done|].
  assert (exists pr', pt_proc t' !! p = Some pr') as (pr' & Hp').
  { apply lookup_lt_is_Some. rewrite <- pt_data_length, Hd, pt_data_length. by eapply lookup_lt_Some. }
  assert (data pr' = data pr) as Ed.
  { apply pt_data_lookup in Hp, Hp'. rewrite Hd in Hp'. congruence. }
  exists t'. rewrite (upd_proc_ok _ _ _ _ Hp'). do 2 eexists. split_and!; try done.
  - destruct Hok as (Hl0 & Hm & Hpr). split.
    + apply links_ok_data; [done|]. rewrite list_fmap_insert. apply list_insert_id.
      by rewrite list_lookup_fmap, Hp'.
    + unfold pt_data. simpl. rewrite list_fmap_insert. fold (pt_data t'). rewrite Hd. split.
      * eapply mem_ok_insert; [done|by apply pt_data_lookup| |]; simpl.
        -- intros j Hj. split; [|by intros [? _]]. intros Hj'. exfalso. unfold adequeue in Hj'.
           case_decide as Ej; [by apply list_elem_of_filter in Hj' as [? _]|].
           by apply Ej, (lo_disj _ _ Hl0 j i p).
        -- intros q j Hq' Hj. unfold adequeue. case_decide; [subst j|done].
           rewrite list_elem_of_filter. tauto.
      * apply prio_ok_insert; [done|]. simpl.
        change (priority (data pr')) with (priority pr'). 
        replace (priority pr') with (priority pr); [|by injection Ed]. by eapply prio_bound.
  - unfold pt_data. simpl. rewrite list_fmap_insert. fold (pt_data t'). rewrite Hd. f_equal.
    change (set_state RUNNING (data pr') = set_state RUNNING (data pr)). by rewrite Ed.
Qed.

Lemma boost_queues_ok t qs :
  queues_ok t qs ->
  exists t', boost t = Some t' /\ queues_ok t' (aboost qs)
    /\ pt_data t' = set_priority 0 <$> pt_data t.
Proof.
  intros Hok. destruct (boost_ok t qs (proj1 Hok)) as (t' & E & Hl & Hd).
  exists t'. split_and!; [done| |done]. destruct Hok as (Hl0 & Hm & Hpr). split; [done|]. rewrite Hd. split.
  - intros i p d Hi. rewrite list_lookup_fmap. intros (d0 & Hd0 & ->)%fmap_Some. simpl.
    pose proof (Forall_lookup_1 _ _ _ _ Hpr Hd0) as Hb. simpl in Hb.
    unfold aboost. case_decide as Ei.
    + subst i. rewrite list_elem_of_join. split.
      * intros (l & Hp & (j & -> & Hj)%list_elem_of_fmap). apply elem_of_seq in Hj.
        by apply (Hm j p d0 ltac:(lia) Hd0) in Hp as [-> _].
      * intros [Hs _]. exists (qs (Z.to_nat (priority d0))). split.
        -- apply (Hm _ p d0); [lia|done|]. split; [done|lia].
        -- apply list_elem_of_fmap. eexists. split; [done|]. apply elem_of_seq. lia.
    + split; [by intros ?%elem_of_nil|]. intros [_ ?]. lia.
  - apply Forall_fmap, Forall_true. intros d. simpl. unfold NPRIO. lia.
Qed.

End invariant.

(** ** [wakeup1]: the sleepers on a channel are appended, in table order, to
    the queues of their priorities. *)
Definition wake (c : option chan) (d : proc) : proc :=
  if decide (state d = SLEEPING /\ p_chan d = c) then set_state RUNNABLE d else d.

Fixpoint awaken (c : option chan) (ps : list proc) (l : list nat) (qs : aqueues) : aqueues :=
  match l with
  | [] => qs
  | p :: l' =>
      awaken c ps l'
        match ps !! p with
        | Some d => if decide (state d = SLEEPING /\ p_chan d = c)
                    then aenqueue (Z.to_nat (priority d)) p qs else qs
        | None => qs
        end
  end.

Section wakeup.
Implicit Types (t : ptable) (qs : aqueues) (p : nat) (c : option chan).

Lemma awaken_ext c ps ps' l : forall qs,
  (forall p, p ∈ l -> ps !! p = ps' !! p) -> awaken c ps l qs = awaken c ps' l qs.
Proof.
  induction l as [|p l IH]; intros qs H; simpl; [done|].
  rewrite (H p) by left. apply IH. intros q Hq. apply H. by right.
Qed.

Lemma wakeup_from_ok c n : forall p t qs,
  queues_ok t qs -> (p + n <= NPROC)%nat ->
  exists t', wakeup_from n p c t = Some t'
    /\ queues_ok t' (awaken c (pt_data t) (seq p n) qs)
    /\ forall q, pt_data t' !! q =
         (if decide (p <= q < p + n)%nat then wake c <$> pt_data t !! q else pt_data t !! q).
Proof.
  induction n as [|n IH]; intros p t qs Hok Hle; simpl.
  { exists t. split_and!; try done. intros q. by rewrite decide_False by lia. }
  destruct (lookup_lt_is_Some_2 (pt_proc t) p) as [pr Hp];
    [rewrite (lo_procs _ _ (proj1 Hok)); lia|].
  unfold get_proc. rewrite Hp, (pt_data_lookup _ _ _ Hp). simpl.
  case_decide as Es.
  - destruct (enqueue_ok t qs p pr Hok Hp) as (t1 & E1 & Hok1 & Hd1); [by destruct Es as [-> _]|].
    rewrite E1. simpl. destruct (IH (S p) t1 _ Hok1 ltac:(lia)) as (t' & E & Hok' & Hq).
    exists t'. split_and!; [done| |].
    + erewrite awaken_ext; [done|]. intros q Hq'%elem_of_seq.
      by rewrite Hd1, list_lookup_insert_ne by lia.
    + intros q. rewrite Hq, Hd1. destruct (decide (p = q)) as [<-|].
      * rewrite decide_False, decide_True by lia. rewrite (pt_data_lookup _ _ _ Hp).
        rewrite list_lookup_insert_eq by (rewrite pt_data_length; by eapply lookup_lt_Some).
        simpl. unfold wake. by rewrite decide_True.
      * rewrite list_lookup_insert_ne by done. by repeat case_decide; try lia.
  - simpl. destruct (IH (S p) t _ Hok ltac:(lia)) as (t' & E & Hok' & Hq).
    exists t'. split_and!; [done..|].
    intros q. rewrite Hq. destruct (decide (p = q)) as [<-|]; [|by repeat case_decide; try lia].
    rewrite decide_False, decide_True by lia. rewrite (pt_data_lookup _ _ _ Hp). simpl.
    unfold wake. by rewrite decide_False.
Qed.

(** The queues after waking the sleepers of a list of slots. *)
Lemma awaken_queue c ps i l : forall qs, exists woken, awaken c ps l qs i = qs i ++ woken /\
  forall p, p ∈ woken <-> p ∈ l /\ exists d, ps !! p = Some d /\ state d = SLEEPING /\
    p_chan d = c /\ Z.to_nat (priority d) = i.
Proof.
  induction l as [|q l IH]; intros qs.
  { exists []. split; [by rewrite app_nil_r|]. intros p. split; [by intros ?%elem_of_nil|].
    by intros [?%elem_of_nil _]. }
  cbn [awaken]. set (qs1 := match ps !! q with Some _ => _ | None => _ end).
  destruct (IH qs1) as (woken & E & Hw).
  set (here := match ps !! q with Some d =>
    if decide ((state d = SLEEPING /\ p_chan d = c) /\ Z.to_nat (priority d) = i) then [q] else []
    | None => [] end).
  exists (here ++ woken). split.
  - rewrite E, app_assoc. f_equal. unfold qs1, here. destruct (ps !! q) as [d|]; [|by rewrite app_nil_r].
    case_decide as H1; case_decide as H2; try tauto; rewrite ?app_nil_r; try done; unfold aenqueue.
    + destruct H2 as [_ <-]. by rewrite decide_True.
    + rewrite decide_False; [done|]. intros ->. tauto.
  - intros p. rewrite elem_of_app, elem_of_cons, Hw. unfold here. split.
    + intros [Hp|(? & ?)]; [|by split; [right|]].
      destruct (ps !! q) as [d|] eqn:Eq; [|by apply elem_of_nil in Hp].
      case_decide as H1; [|by apply elem_of_nil in Hp]. apply list_elem_of_singleton in Hp as ->.
      split; [by left|]. exists d. tauto.
    + intros [[->|Hp] (d & Hd & Hc)]; [|by right; split; [|exists d]].
      left. rewrite Hd, decide_True by tauto. by apply list_elem_of_singleton.
Qed.

Lemma wakeup1_ok c t qs :
  queues_ok t qs ->
  exists t', wakeup1 c t = Some t' /\ queues_ok t' (awaken c (pt_data t) (seq 0 NPROC) qs)
    /\ pt_data t' = wake c <$> pt_data t.
Proof.
  intros Hok. destruct (wakeup_from_ok c NPROC 0 t qs Hok ltac:(lia)) as (t' & E & Hok' & Hq).
  exists t'. split_and!; [done..|]. apply list_eq. intros q. rewrite Hq, list_lookup_fmap.
  case_decide as Hd; [done|]. rewrite (lookup_ge_None_2 (pt_data t)); [done|].
  rewrite pt_data_length, (lo_procs _ _ (proj1 Hok)). lia.
Qed.

End wakeup.

(** ** Deciding the invariant

    [queues_check t ql] evaluates the invariant on a concrete table, with the
    queues given as a list of [NPRIO] lists. *)
Section check.
Implicit Types (t : ptable) (ql : list (list nat)).

Definition qs_of ql : aqueues := fun i => default [] (ql !! i).

Definition queue_check t ql (i : nat) : bool :=
  bool_decide (queue_first t !! i = Some (qs_of ql i !! 0%nat)) &&
  bool_decide (queue_last t !! i = Some (last (qs_of ql i))) &&
  forallb (fun k => match qs_of ql i !! k with
                    | Some p => bool_decide (next_proc <$> pt_proc t !! p = Some (qs_of ql i !! S k))
                    | None => false end) (seq 0 (length (qs_of ql i))) &&
  forallb (fun p => match pt_proc t !! p with
                    | Some pr => Bool.eqb (bool_decide (p ∈ qs_of ql i))
                        (bool_decide (state pr = RUNNABLE /\ priority pr = Z.of_nat i))
                    | None => false end) (seq 0 NPROC).

Definition queues_check t ql : bool :=
  bool_decide (length (pt_proc t) = NPROC) && bool_decide (length (queue_first t) = NPRIO) &&
  bool_decide (length (queue_last t) = NPRIO) && bool_decide (NoDup (mjoin (qs_of ql <$> seq 0 NPRIO))) &&
  forallb (fun pr => (0 <=? priority pr) && (priority pr <? Z.of_nat NPRIO)) (pt_proc t) &&
  forallb (queue_check t ql) (seq 0 NPRIO).

Lemma NoDup_join_seq (qs : aqueues) n : forall m,
  NoDup (mjoin (qs <$> seq m n)) ->
  (forall i, (m <= i < m + n)%nat -> NoDup (qs i)) /\
  (forall i j p, (m <= i < m + n)%nat -> (m <= j < m + n)%nat -> p ∈ qs i -> p ∈ qs j -> i = j).
Proof.
  induction n as [|n IH]; intros m; simpl; [split; intros; lia|].
  intros (H1 & H2 & H3)%NoDup_app. destruct (IH (S m) H3) as [HA HB].
  assert (forall j p, (S m <= j < S m + n)%nat -> p ∈ qs m -> p ∈ qs j -> False) as Hx.
  { intros j p Hj Hm Hp. apply (H2 p Hm). apply list_elem_of_join. exists (qs j). split; [done|].
    apply list_elem_of_fmap_2, elem_of_seq. lia. }
  split.
  - intros i Hi. destruct (decide (i = m)) as [->|]; [done|]. apply HA. lia.
  - intros i j p Hi Hj Hpi Hpj. destruct (decide (i = m)) as [->|], (decide (j = m)) as [->|]; try done.
    + exfalso. eapply (Hx j p); [lia|done..].
    + exfalso. eapply (Hx i p); [lia|done..].
    + eapply HB; [lia|lia|done..].
Qed.

Lemma queue_check_spec t ql i :
  queue_check t ql i = true ->
  queue_first t !! i = Some (qs_of ql i !! 0%nat) /\ queue_last t !! i = Some (last (qs_of ql i)) /\
  (forall k, In k (seq 0 (length (qs_of ql i))) ->
    match qs_of ql i !! k with
    | Some p => bool_decide (next_proc <$> pt_proc t !! p = Some (qs_of ql i !! S k))
    | None => false end = true) /\
  (forall p, In p (seq 0 NPROC) ->
    match pt_proc t !! p with
    | Some pr => Bool.eqb (bool_decide (p ∈ qs_of ql i))
        (bool_decide (state pr = RUNNABLE /\ priority pr = Z.of_nat i))
    | None => false end = true).
Proof.
  unfold queue_check. intros [[[H1 H2]%andb_true_iff H3]%andb_true_iff H4]%andb_true_iff.
  apply bool_decide_eq_true in H1, H2. split_and!; [done|done|by apply forallb_forall|by apply forallb_forall].
Qed.

Lemma queues_check_ok t ql : queues_check t ql = true -> queues_ok t (qs_of ql).
Proof.
  unfold queues_check. rewrite !andb_true_iff, !bool_decide_eq_true, !forallb_forall.
  intros (((((Hl1 & Hl2) & Hl3) & Hnd) & Hpr) & Hq).
  apply NoDup_join_seq in Hnd as [Hnd Hdisj].
  assert (forall i, (i < NPRIO)%nat -> queue_check t ql i = true) as Hc0.
  { intros i Hi. apply Hq, in_seq. lia. }
  pose proof (fun i Hi => queue_check_spec t ql i (Hc0 i Hi)) as Hc. split; [|split].
  - split; try done.
    + intros i Hi. by apply (Hc i Hi).
    + intros i Hi. by apply (Hc i Hi).
    + intros i k p Hi Hk. destruct (Hc i Hi) as (_ & _ & Hch & _).
      specialize (Hch k ltac:(apply in_seq; apply lookup_lt_Some in Hk; lia)). rewrite Hk in Hch.
      apply bool_decide_eq_true, fmap_Some in Hch as (pr & ? & ?). by exists pr.
    + intros i Hi. apply Hnd. lia.
    + intros i j p Hi Hj. apply Hdisj; lia.
  - intros i p d Hi (pr & Hp & ->)%pt_data_lookup_inv. destruct (Hc i Hi) as (_ & _ & _ & Hm).
    specialize (Hm p ltac:(apply in_seq; apply lookup_lt_Some in Hp; lia)). rewrite Hp in Hm.
    apply eqb_prop in Hm. simpl. by rewrite <- (bool_decide_eq_true (p ∈ _)), Hm, bool_decide_eq_true.
  - apply Forall_fmap, Forall_forall. intros pr Hin%list_elem_of_In. specialize (Hpr pr Hin). simpl. lia.
Qed.

End check.

Lemma queues_ok_ext t qs qs' :
  queues_ok t qs -> (forall i, (i < NPRIO)%nat -> qs i = qs' i) -> queues_ok t qs'.
Proof.
  intros (Hl & Hm & Hp) E. split; [|split]; [|intros i p pr Hi; rewrite <- (E i Hi); by apply Hm|done].
  destruct Hl as [????? Hc Hn Hd]. split; try done.
  - intros i Hi. rewrite <- (E i Hi). auto.
  - intros i Hi. rewrite <- (E i Hi). auto.
  - intros i k p Hi. rewrite <- (E i Hi). by apply Hc.
  - intros i Hi. rewrite <- (E i Hi). auto.
  - intros i j p Hi Hj. rewrite <- (E i Hi), <- (E j Hj). by apply Hd.
Qed.

(** A concrete table: processes 1 and 2 wait at priority 1, process 4 at
    priority 2, process 0 runs, process 3 sleeps on [&ticks]. *)
Definition demo_proc (st : procstate) (pi pri : Z) (ch : option chan) (nx : option nat) : proc :=
  set_next_proc nx (set_priority pri (set_p_chan ch (set_pid pi (set_state st
    (set_kstack 0x80500000 (set_pgdir 0x80600000 proc_zero)))))).
Definition demo_ptable : ptable :=
  mkPtable ([demo_proc RUNNING 1 0 None None; demo_proc RUNNABLE 2 1 None (Some 2%nat);
             demo_proc RUNNABLE 3 1 None None; demo_proc SLEEPING 4 0 (Some C_ticks) None;
             demo_proc RUNNABLE 5 2 None None] ++ replicate 59 proc_zero)
    [None; Some 1%nat; Some 4%nat] [None; Some 2%nat; Some 4%nat].
Definition demo_queues : list (list nat) := [[]; [1%nat; 2%nat]; [4%nat]].

Lemma demo_queues_ok : queues_ok demo_ptable (qs_of demo_queues).
Proof. apply queues_check_ok. vm_compute. reflexivity. Qed.

(** ** The main properties *)
Section properties.
Implicit Types (t : ptable) (qs : aqueues) (p : nat) (pr : proc).

(** [enqueue(p)] of a process that is not runnable appends it to the queue of
    its priority and makes it [RUNNABLE]; no other process changes except for
    its queue link, and the queues stay in order. *)
Theorem enqueue_refines t qs p pr :
  queues_ok t qs -> get_proc p t = Some pr -> state pr <> RUNNABLE ->
  exists t', enqueue p t = Some t' /\ queues_ok t' (aenqueue (Z.to_nat (priority pr)) p qs)
    /\ pt_data t' = <[p := data (set_state RUNNABLE pr)]> (pt_data t).
Proof. apply enqueue_ok. Qed.

Lemma enqueue_refines_witness : exists t', enqueue 3 demo_ptable = Some t' /\
  queues_ok t' (aenqueue 0 3 (qs_of demo_queues)).
Proof.
  destruct (enqueue_refines demo_ptable (qs_of demo_queues) 3 (demo_proc SLEEPING 4 0 (Some C_ticks) None)
    demo_queues_ok eq_refl ltac:(done)) as (t' & E & H & _).
  by exists t'.
Defined.

(** C26: [dequeue(p)] of a queued process, wherever in its queue it is, and the
    assignment [p->state = RUNNING] that follows it in [scheduler]: the
    process leaves its queue, the others keep their order, and nothing but
    its state and the queue links changes. *)
Theorem dequeue_refines t qs p pr :
  queues_ok t qs -> get_proc p t = Some pr -> state pr = RUNNABLE ->
  exists t1 t2, dequeue p t = Some t1 /\ pt_data t1 = pt_data t /\
    upd_proc p (set_state RUNNING) t1 = Some t2 /\
    queues_ok t2 (adequeue (Z.to_nat (priority pr)) p qs) /\
    pt_data t2 = <[p := data (set_state RUNNING pr)]> (pt_data t).
Proof.
  intros Hok Hp Hst. pose proof (prio_bound t p pr (proj2 (proj2 Hok)) Hp) as Hb.
  assert (p ∈ qs (Z.to_nat (priority pr))) as Hin.
  { apply (proj1 (proj2 Hok) _ p (data pr)); [lia|by apply pt_data_lookup|].
    split; [done|]. simpl. by rewrite Z2Nat.id by lia. }
  assert (Z.to_nat (priority pr) < NPRIO)%nat as Hi by lia.
  destruct (dequeue_run_ok t qs p _ Hok Hi Hin) as (t1 & t2 & pr' & E1 & E2 & Hp' & _ & Hok2 & Hd2).
  assert (pr' = pr) as -> by (unfold get_proc in Hp; congruence).
  exists t1, t2. split_and!; try done. apply list_elem_of_split in Hin as (l1 & l2 & Hl).
  destruct (dequeue_links t qs p (Z.to_nat (priority pr)) pr l1 l2) as (t1' & E1' & _ & Hd1); try done; [apply Hok|].
  congruence.
Qed.

Lemma dequeue_refines_witness : exists t1 t2, dequeue 2 demo_ptable = Some t1 /\
  upd_proc 2 (set_state RUNNING) t1 = Some t2 /\ queues_ok t2 (adequeue 1 2 (qs_of demo_queues)).
Proof.
  destruct (dequeue_refines demo_ptable (qs_of demo_queues) 2 (demo_proc RUNNABLE 3 1 None None)
    demo_queues_ok eq_refl eq_refl) as (t1 & t2 & E1 & _ & E2 & H & _).
  by exists t1, t2.
Defined.

(** C27: [priority_boost]'s critical section: every process gets priority 0, and
    the lower queues are appended, in order, to the top one and emptied. *)
Theorem boost_refines t qs :
  queues_ok t qs ->
  exists t', boost t = Some t' /\ queues_ok t' (aboost qs) /\
    pt_data t' = set_priority 0 <$> pt_data t /\
    (forall p pr, get_proc p t' = Some pr -> state pr = RUNNABLE -> p ∈ aboost qs 0%nat).
Proof.
  intros Hok. destruct (boost_queues_ok t qs Hok) as (t' & E & Hok' & Hd). exists t'. split_and!; try done.
  intros p pr Hp Hst. apply (proj1 (proj2 Hok') 0%nat p (data pr)); [unfold NPRIO; lia|by apply pt_data_lookup|].
  split; [done|]. apply pt_data_lookup in Hp. rewrite Hd in Hp.
  apply list_lookup_fmap_Some in Hp as (d & E' & _). by rewrite E'.
Qed.

Lemma boost_refines_witness : exists t', boost demo_ptable = Some t' /\
  queues_ok t' (aboost (qs_of demo_queues)) /\ aboost (qs_of demo_queues) 0%nat = [1; 2; 4]%nat.
Proof.
  destruct (boost_refines demo_ptable (qs_of demo_queues) demo_queues_ok) as (t' & E & H & _).
  by exists t'.
Defined.

(** [wakeup1(chan)] makes exactly the processes that sleep on [chan]
    runnable and appends each of them to the queue of its priority. *)
Theorem wakeup1_refines ch t qs :
  queues_ok t qs ->
  exists t' qs', wakeup1 ch t = Some t' /\ queues_ok t' qs' /\
    pt_data t' = wake ch <$> pt_data t /\
    forall i, (i < NPRIO)%nat -> exists woken, qs' i = qs i ++ woken /\
      forall p, p ∈ woken <-> exists pr, get_proc p t = Some pr /\ state pr = SLEEPING /\
        p_chan pr = ch /\ priority pr = Z.of_nat i.
Proof.
  intros Hok. destruct (wakeup1_ok ch t qs Hok) as (t' & E & Hok' & Hd).
  exists t', (awaken ch (pt_data t) (seq 0 NPROC) qs). split_and!; try done. intros i Hi.
  destruct (awaken_queue ch (pt_data t) i (seq 0 NPROC) qs) as (woken & Ew & Hw).
  exists woken. split; [done|]. intros p. clear Ew Hok' Hd E. rewrite Hw. split.
  - intros (_ & d & Hd' & Hs & Hc & Hp). apply pt_data_lookup_inv in Hd' as (pr & Hpr & ->).
    exists pr. split; [exact Hpr|]. split; [exact Hs|]. split; [exact Hc|]. simpl in Hp.
    pose proof (prio_bound t p pr (proj2 (proj2 Hok)) Hpr). lia.
  - intros (pr & Hpr & Hs & Hc & Hp). split.
    + apply lookup_lt_Some in Hpr. rewrite (lo_procs _ _ (proj1 Hok)) in Hpr. apply elem_of_seq. lia.
    + exists (data pr). split_and!; try done; [by apply pt_data_lookup|]. simpl. lia.
Qed.

Lemma wakeup1_refines_witness : exists t' qs', wakeup1 (Some C_ticks) demo_ptable = Some t' /\ queues_ok t' qs'.
Proof.
  destruct (wakeup1_refines (Some C_ticks) demo_ptable (qs_of demo_queues) demo_queues_ok)
    as (t' & qs' & E & H & _).
  by exists t', qs'.
Defined.

End properties.
