(* ===== verification/Kalloc.v ===== *)
(** * The physical page allocator ([kernel/kalloc.c])

    The free pages form a list threaded through their own first words.
    [free_pages s l] says that [kmem.freelist] represents the pages [l]; the
    allocator is a stack of pages: [kfree] pushes, [kalloc] pops. *)
From S2P Require Import Prelude Types Str Spinlock.

Section code.
Context `{Linkage}.

(** [kfree]: the page is filled with junk and pushed on the free list. *)
Definition kfree (v : Z) : K unit :=
  if negb (v mod PGSIZE =? 0) || (v <? kend) || (PHYSTOP <=? V2P v) then panic "kfree" else
  modify (upd_mem (memset v 1 PGSIZE)) ;;
  use_lock <- gets k_use_lock ;;
  whenm use_lock (acquire L_kmem) ;;
  modify (fun s => upd_mem (store32 v (k_freelist s)) s) ;;
  modify (set_k_freelist v) ;;
  use_lock <- gets k_use_lock ;;
  whenm use_lock (release L_kmem).

Definition kalloc : K Z :=
  use_lock <- gets k_use_lock ;;
  whenm use_lock (acquire L_kmem) ;;
  r <- gets k_freelist ;;
  whenm (negb (r =? 0)) (modify (fun s => set_k_freelist (load32 (k_mem s) r) s)) ;;
  use_lock <- gets k_use_lock ;;
  whenm use_lock (release L_kmem) ;;
  ret r.

(** [for(; p + PGSIZE <= vend; p += PGSIZE) kfree(p);], at most [fuel] times. *)
Fixpoint freerange_loop (fuel : nat) (p vend : Z) : K unit :=
  if p + PGSIZE <=? vend then
    match fuel with
    | O => stopm NoFuel
    | S fuel' => kfree p ;; freerange_loop fuel' (p + PGSIZE) vend
    end
  else ret tt.

(** The loop frees at most [(vend - vstart) / PGSIZE] pages. *)
Definition freerange (vstart vend : Z) : K unit :=
  let p := PGROUNDUP vstart in
  freerange_loop (Z.to_nat ((vend - p) / PGSIZE)) p vend.

Definition kinit1 (vstart vend : Z) : K unit :=
  initlock L_kmem "kmem" ;;
  modify (set_k_use_lock false) ;;
  freerange vstart vend.

Definition kinit2 (vstart vend : Z) : K unit :=
  freerange vstart vend ;;
  modify (set_k_use_lock true).

End code.

Section allocator.
Context `{Linkage}.
Implicit Types (s : kernel) (m : gmap Z Z) (l : list Z) (v : Z).

(** A page [kfree] accepts. *)
Definition page_ok v : Prop := v mod PGSIZE = 0 /\ kend <= v < KERNBASE + PHYSTOP.

Fixpoint freelist_ok m (head : Z) l : Prop :=
  match l with
  | [] => head = 0
  | p :: l' => head = p /\ page_ok p /\ freelist_ok m (load32 m p) l'
  end.

Definition free_pages s l : Prop := freelist_ok (k_mem s) (k_freelist s) l /\ NoDup l.

Lemma page_range v : page_ok v -> KERNBASE < v < 2 ^ 32 /\ V2P v = v - KERNBASE.
Proof.
  intros [_ Hv]. pose proof kend_range. unfold V2P, u32, KERNLINK, EXTMEM, PHYSTOP, KERNBASE in *.
  rewrite Z.mod_small; lia.
Qed.

Lemma pages_disjoint v v' : v mod PGSIZE = 0 -> v' mod PGSIZE = 0 -> v <> v' ->
  v + PGSIZE <= v' \/ v' + PGSIZE <= v.
Proof.
  unfold PGSIZE. intros Hv Hv' Hne.
  pose proof (Z.div_mod v 4096 ltac:(lia)). pose proof (Z.div_mod v' 4096 ltac:(lia)). lia.
Qed.

(** The free list does not depend on memory outside its pages. *)
Lemma freelist_ok_ext m m' l : forall head,
  (forall p a, p ∈ l -> p <= a < p + PGSIZE -> load8 m' a = load8 m a) ->
  freelist_ok m head l -> freelist_ok m' head l.
Proof.
  induction l as [|p l IH]; intros head Hm; simpl; [done|].
  intros (-> & Hp & Hl). split_and!; [done..|].
  rewrite (load32_ext m m') by (intros b Hb; apply (Hm p); [left|unfold PGSIZE; lia]).
  apply IH; [|done]. intros q a Hq. apply Hm. by right.
Qed.

Lemma freelist_pages m l : forall head, freelist_ok m head l -> forall p, p ∈ l -> page_ok p.
Proof.
  induction l as [|q l IH]; intros head Hf p Hp; [by apply elem_of_nil in Hp|].
  destruct Hf as (_ & Hq & Hf). apply elem_of_cons in Hp as [->|Hp]; eauto.
Qed.

Lemma freelist_nonzero m l head : freelist_ok m head l -> head = 0 <-> l = [].
Proof.
  destruct l as [|p l]; simpl; [tauto|]. intros (-> & Hp & _). split; [|done].
  intros ->. destruct (page_range 0 Hp). unfold KERNBASE in *. lia.
Qed.

(** The page after [kfree] and the memory around it. *)
Definition freed_mem v (head : Z) m : gmap Z Z := store32 v head (memset v 1 PGSIZE m).

Lemma freed_mem_frame v head m a :
  ~ v <= a < v + PGSIZE -> load8 (freed_mem v head m) a = load8 m a.
Proof.
  intros Ha. unfold freed_mem. rewrite load8_store32, decide_False by (unfold PGSIZE in *; lia).
  by rewrite memset_load8, decide_False by (unfold PGSIZE in *; lia).
Qed.

Lemma freed_mem_head v head m : load32 (freed_mem v head m) v = u32 head.
Proof. apply load32_store32_eq. Qed.

Lemma freed_list s v l :
  free_pages s l -> page_ok v -> v ∉ l ->
  free_pages (set_k_freelist v (upd_mem (freed_mem v (k_freelist s)) s)) (v :: l).
Proof.
  intros [Hf Hnd] Hv Hvl. split; [|by constructor]. simpl. split_and!; [done..|].
  rewrite freed_mem_head.
  assert (u32 (k_freelist s) = k_freelist s) as ->.
  { apply u32_small. destruct l as [|p l]; simpl in Hf; [lia|]. destruct Hf as (-> & Hp & _).
    destruct (page_range _ Hp). unfold KERNBASE in *. lia. }
  eapply freelist_ok_ext; [|done]. intros p a Hp Ha. apply freed_mem_frame.
  destruct (pages_disjoint v p); [apply Hv|by eapply freelist_pages|by intros ->|lia|lia].
Qed.

Lemma kfree_ok s v l c L b :
  hw_ok (k_hw s) c L b -> L_kmem ∉ L -> free_pages s l -> page_ok v -> v ∉ l ->
  exists h', kfree v s = Done tt (set_k_hw h' (set_k_freelist v (upd_mem (freed_mem v (k_freelist s)) s)))
    /\ hw_ok h' c L b /\ hw_id h' = hw_id (k_hw s).
Proof.
  intros Hhw HL Hf Hv Hvl. unfold kfree.
  destruct (page_range v Hv) as [Hr Hvp]. destruct Hv as [Hal Hb].
  rewrite Hal, Hvp. destruct (Z.ltb_spec v kend); [lia|].
  destruct (Z.leb_spec PHYSTOP (v - KERNBASE)); [lia|]. simpl.
  unfold gets, modify, bind, whenm, ret. simpl. destruct (k_use_lock s) eqn:Eu; simpl.
  - destruct (acquire_ok L_kmem (upd_mem (memset v 1 PGSIZE) s) c L b Hhw HL) as (h1 & -> & Hhw1 & Hid1).
    simpl. rewrite Eu. simpl.
    destruct (release_ok L_kmem (set_k_freelist v (upd_mem (store32 v (k_freelist s))
      (set_k_hw h1 (upd_mem (memset v 1 PGSIZE) s)))) c L b Hhw1) as (h2 & E2 & Hhw2 & Hid2).
    exists h2. rewrite E2. split_and!; [done|done|]. by rewrite Hid2.
  - rewrite Eu. simpl. exists (k_hw s). split_and!; [by destruct s|done..].
Qed.

Lemma kalloc_ok s l c L b :
  hw_ok (k_hw s) c L b -> L_kmem ∉ L -> free_pages s l ->
  exists h', kalloc s = Done (k_freelist s)
      (set_k_hw h' (set_k_freelist (match l with [] => 0 | _ => load32 (k_mem s) (k_freelist s) end) s))
    /\ hw_ok h' c L b /\ hw_id h' = hw_id (k_hw s).
Proof.
  intros Hhw HL [Hf _]. pose proof (freelist_nonzero _ _ _ Hf) as Hz.
  assert (forall s1, k_freelist s1 = k_freelist s -> k_mem s1 = k_mem s ->
    whenm (negb (k_freelist s =? 0)) (modify (fun s0 =>
      set_k_freelist (load32 (k_mem s0) (k_freelist s)) s0)) s1 =
    Done tt (set_k_freelist (match l with [] => 0 | _ => load32 (k_mem s) (k_freelist s) end) s1)) as Hw.
  { intros s1 E1 E2. unfold whenm, modify, ret. destruct (Z.eqb_spec (k_freelist s) 0) as [E|E]; simpl.
    - rewrite (proj1 Hz E). destruct s1. simpl in *. unfold set_k_freelist. simpl. by rewrite E1, E.
    - destruct l; [by destruct E; apply Hz|]. by rewrite E2. }
  unfold kalloc, gets, bind. simpl. unfold whenm at 1. destruct (k_use_lock s) eqn:Eu; simpl.
  - destruct (acquire_ok L_kmem s c L b Hhw HL) as (h1 & -> & Hhw1 & Hid1). simpl.
    rewrite Hw by done. simpl. rewrite Eu. simpl.
    destruct (release_ok L_kmem (set_k_freelist (match l with [] => 0 | _ => load32 (k_mem s) (k_freelist s) end)
      (set_k_hw h1 s)) c L b Hhw1) as (h2 & E2 & Hhw2 & Hid2).
    rewrite E2. simpl. exists h2. split_and!; [done|done|]. by rewrite Hid2.
  - rewrite Hw by done. simpl. rewrite Eu. simpl. exists (k_hw s). split_and!; [by destruct s|done..].
Qed.

Lemma popped_list s p l :
  free_pages s (p :: l) ->
  k_freelist s = p /\ free_pages (set_k_freelist (load32 (k_mem s) (k_freelist s)) s) l.
Proof.
  intros [(-> & Hp & Hf) [_ Hnd]%NoDup_cons]. done.
Qed.

(** [n] consecutive pages from [p]. *)
Fixpoint pages (p : Z) (n : nat) : list Z :=
  match n with
  | O => []
  | S n' => p :: pages (p + PGSIZE) n'
  end.

Lemma freerange_loop_ok c L b n : forall p vend s l,
  hw_ok (k_hw s) c L b -> L_kmem ∉ L -> free_pages s l ->
  p mod PGSIZE = 0 -> kend <= p -> vend <= KERNBASE + PHYSTOP ->
  p + PGSIZE * Z.of_nat n <= vend < p + PGSIZE * (Z.of_nat n + 1) ->
  (forall q, q ∈ l -> q < p \/ vend <= q) ->
  exists s', freerange_loop n p vend s = Done tt s'
    /\ hw_ok (k_hw s') c L b /\ hw_id (k_hw s') = hw_id (k_hw s)
    /\ free_pages s' (reverse (pages p n) ++ l)
    /\ (forall a, ~ p <= a < vend -> load8 (k_mem s') a = load8 (k_mem s) a)
    /\ k_use_lock s' = k_use_lock s.
Proof.
  induction n as [|n IH]; intros p vend s l Hhw HL Hf Hal Hlo Hhi Hn Hd.
  - exists s. simpl. unfold PGSIZE in *. destruct (Z.leb_spec (p + 4096) vend); [lia|]. done.
  - cbn [freerange_loop]. destruct (Z.leb_spec (p + PGSIZE) vend); [|unfold PGSIZE in *; lia].
    destruct (kfree_ok s p l c L b Hhw HL Hf) as (h' & E & Hhw' & Hid').
    { unfold PGSIZE in *. split; [done|]. lia. } { intros Hp%Hd. unfold PGSIZE in *. lia. }
    rewrite (bind_done _ _ _ _ _ E).
    assert (p ∉ l) as Hpl by (intros Hp%Hd; unfold PGSIZE in *; lia).
    pose proof (freed_list s p l Hf ltac:(unfold PGSIZE in *; split; [done|lia]) Hpl) as Hf'.
    destruct (IH (p + PGSIZE) vend (set_k_hw h' (set_k_freelist p (upd_mem (freed_mem p (k_freelist s)) s)))
      (p :: l)) as (s' & E' & Hhw'' & Hid'' & Hf'' & Hm & Hu); try done.
    + unfold PGSIZE in *. rewrite <- Z.add_mod_idemp_r, Z.mod_same, Z.add_0_r by lia. done.
    + unfold PGSIZE in *. lia.
    + unfold PGSIZE in *. lia.
    + intros q [->|Hq%Hd]%elem_of_cons; unfold PGSIZE in *; lia.
    + exists s'. split_and!; [done|done|by rewrite Hid''| |  |done].
      * cbn [pages]. by rewrite reverse_cons, <- app_assoc.
      * intros a Ha. rewrite Hm by (unfold PGSIZE in *; lia). simpl. apply freed_mem_frame. unfold PGSIZE in *. lia.
Qed.

End allocator.

Arguments kfree : simpl never.
Arguments kalloc : simpl never.

(** ** The main properties *)
Section properties.
Context `{Linkage}.
Implicit Types (s : kernel) (l : list Z) (v : Z).

(** A page given to [kfree] is the one the next [kalloc] returns; the free
    list is then what it was, and memory outside the page is unchanged. *)
Theorem kfree_kalloc s v l c L b :
  hw_ok (k_hw s) c L b -> L_kmem ∉ L -> free_pages s l -> page_ok v -> v ∉ l ->
  exists s1 s2, kfree v s = Done tt s1 /\ free_pages s1 (v :: l) /\
    kalloc s1 = Done v s2 /\ free_pages s2 l /\ hw_ok (k_hw s2) c L b /\
    (forall a, ~ v <= a < v + PGSIZE -> load8 (k_mem s2) a = load8 (k_mem s) a).
Proof.
  intros Hhw HL Hf Hv Hvl. destruct (kfree_ok s v l c L b Hhw HL Hf Hv Hvl) as (h1 & E1 & Hhw1 & _).
  pose proof (freed_list s v l Hf Hv Hvl) as Hf1.
  destruct (kalloc_ok (set_k_hw h1 (set_k_freelist v (upd_mem (freed_mem v (k_freelist s)) s)))
    (v :: l) c L b Hhw1 HL Hf1) as (h2 & E2 & Hhw2 & _).
  destruct (popped_list _ v l Hf1) as [_ Hf2].
  do 2 eexists. split_and!; [exact E1|exact Hf1|exact E2|exact Hf2|done|].
  intros a Ha. by apply freed_mem_frame.
Qed.

(** [kalloc] hands out the pages of the free list one by one, each a page of
    the managed range, and 0 once there is none left. *)
Theorem kalloc_pages s l c L b :
  hw_ok (k_hw s) c L b -> L_kmem ∉ L -> free_pages s l ->
  exists r s', kalloc s = Done r s' /\ hw_ok (k_hw s') c L b /\ k_mem s' = k_mem s /\
    match l with
    | [] => r = 0 /\ free_pages s' []
    | p :: l' => r = p /\ page_ok p /\ (p ∉ l') /\ free_pages s' l'
    end.
Proof.
  intros Hhw HL Hf. destruct (kalloc_ok s l c L b Hhw HL Hf) as (h' & E & Hhw' & _).
  do 2 eexists. split_and!; [exact E|done|done|]. destruct l as [|p l].
  - destruct Hf as [Hf Hnd]. simpl in Hf. done.
  - destruct (popped_list s p l Hf) as [-> Hf2]. destruct Hf as [(_ & Hp & _) [Hn _]%NoDup_cons]. done.
Qed.

(** [freerange] puts exactly the whole pages of its range on the free list,
    last page first, and writes only to them. *)
Theorem freerange_pages s l vstart vend c L b :
  hw_ok (k_hw s) c L b -> L_kmem ∉ L -> free_pages s l ->
  kend <= vstart < KERNBASE + PHYSTOP -> PGROUNDUP vstart <= vend <= KERNBASE + PHYSTOP ->
  (forall q, q ∈ l -> q < vstart \/ vend <= q) ->
  let first := PGROUNDUP vstart in
  exists s', freerange vstart vend s = Done tt s' /\ hw_ok (k_hw s') c L b /\
    free_pages s' (reverse (pages first (Z.to_nat ((vend - first) / PGSIZE))) ++ l) /\
    (forall a, ~ first <= a < vend -> load8 (k_mem s') a = load8 (k_mem s) a).
Proof.
  intros Hhw HL Hf Hlo Hhi Hd first. pose proof kend_range as Hk.
  destruct (PGROUNDUP_spec vstart) as [Hal Hr].
  { unfold KERNLINK, KERNBASE, EXTMEM, PHYSTOP, PGSIZE in *. lia. }
  fold first in Hal, Hr, Hhi. unfold freerange. fold first.
  set (n := Z.to_nat ((vend - first) / PGSIZE)).
  assert (Z.of_nat n = (vend - first) / PGSIZE) as En.
  { unfold n. rewrite Z2Nat.id; [done|]. apply Z.div_pos; unfold PGSIZE; lia. }
  destruct (freerange_loop_ok c L b n first vend s l) as (s' & E & Hhw' & _ & Hf' & Hm & _); try done; [lia|lia| |..].
  - rewrite En. unfold PGSIZE. pose proof (Z.div_mod (vend - first) 4096 ltac:(lia)).
    pose proof (Z.mod_pos_bound (vend - first) 4096 ltac:(lia)). lia.
  - intros q Hq. destruct (Hd q Hq); [left; lia|by right].
  - by exists s'.
Qed.

End properties.

(** A machine with two free pages. *)
Definition demo_mem : gmap Z Z := store32 0x80300000 0x80301000 (store32 0x80301000 0 ∅).
Definition demo_kalloc (L : list lockid) : kernel :=
  set_k_mem demo_mem (set_k_freelist 0x80300000 (set_k_use_lock true
    (kernel_zero (demo_hw L true (Some 0%nat))))).

Lemma demo_free_pages L : @free_pages demo_linkage (demo_kalloc L) [0x80300000; 0x80301000].
Proof.
  split.
  - vm_compute. repeat split; intros [=].
  - apply NoDup_cons. split; [by intros ?%list_elem_of_singleton|apply NoDup_singleton].
Qed.

Lemma kfree_kalloc_witness : exists s1 s2,
  @kfree demo_linkage 0x80305000 (demo_kalloc []) = Done tt s1 /\ kalloc s1 = Done 0x80305000 s2.
Proof.
  destruct (@kfree_kalloc demo_linkage (demo_kalloc []) 0x80305000 [0x80300000; 0x80301000] 0 [] true)
    as (s1 & s2 & E1 & _ & E2 & _).
  - apply demo_hw_ok. apply NoDup_nil_2.
  - apply not_elem_of_nil.
  - apply demo_free_pages.
  - vm_compute. repeat split; intros [=].
  - intros [?|?%list_elem_of_singleton]%elem_of_cons; lia.
  - by exists s1, s2.
Defined.

Lemma kalloc_pages_witness : exists s', kalloc (demo_kalloc []) = Done 0x80300000 s'
  /\ @free_pages demo_linkage s' [0x80301000].
Proof.
  destruct (@kalloc_pages demo_linkage (demo_kalloc []) [0x80300000; 0x80301000] 0 [] true)
    as (r & s' & E & _ & _ & Er & _ & _ & H).
  - apply demo_hw_ok. apply NoDup_nil_2.
  - apply not_elem_of_nil.
  - apply demo_free_pages.
  - exists s'. by rewrite E, Er.
Defined.

Lemma freerange_pages_witness : exists s', @freerange demo_linkage 0x80400010 0x80403000 (demo_kalloc []) = Done tt s'
  /\ @free_pages demo_linkage s' [0x80402000; 0x80401000; 0x80300000; 0x80301000].
Proof.
  destruct (@freerange_pages demo_linkage (demo_kalloc []) [0x80300000; 0x80301000] 0x80400010 0x80403000 0 [] true)
    as (s' & E & _ & H & _).
  - apply demo_hw_ok. apply NoDup_nil_2.
  - apply not_elem_of_nil.
  - apply demo_free_pages.
  - vm_compute. split; [intros [=]|done].
  - vm_compute. split; intros [=].
  - intros q [->| ->%list_elem_of_singleton]%elem_of_cons; left; lia.
  - by exists s'.
Defined.
