(* ===== verification/Sched.v ===== *)
(** * Processes and the MLFQ scheduler ([kernel/proc.c])

    The routines of [proc.c] that use only the process table, the locks and
    the page allocator: [allocproc], [scheduler], [priority_boost], [sched],
    [yield], [sleep], [wakeup], [kill].  [proc_protocol], [resumed] and [came_back]
    are the two sides of the context switch: what a process and the scheduler
    guarantee to each other when they call [swtch]. *)
From S2P Require Import Prelude Types Str Spinlock Queue Kalloc.

(** ** The code *)
Section code.
Context `{Linkage}.

(** Statements that read or update [ptable]. *)
Definition pt_do (f : ptable -> option ptable) : K unit :=
  s <- get ;;
  t <- of_option "ptable" (f (k_pt s)) ;;
  modify (set_k_pt t).
Definition proc_get {A} (p : nat) (f : proc -> A) : K A :=
  s <- get ;;
  of_option "proc" (f <$> get_proc p (k_pt s)).
Definition proc_set (p : nat) (f : proc -> proc) : K unit := pt_do (upd_proc p f).

(** [myproc()] where the code dereferences the result. *)
Definition curproc : K nat :=
  p <- myproc ;;
  of_option "myproc" p.

Definition pinit : K unit := initlock L_ptable "ptable".

(** [swtch]: give the CPU to the other side and continue when it comes back. *)
Definition swtch : K unit := fun s => Switch s (fun s' => Done tt s').

(** The first slot of [ptable.proc] that satisfies [f]. *)
Fixpoint find_proc (f : proc -> bool) (i : nat) (l : list proc) : option nat :=
  match l with
  | [] => None
  | pr :: l' => if f pr then Some i else find_proc f (S i) l'
  end.

(** Sizes of [struct trapframe] and [struct context], offset of [context->eip]. *)
Definition sizeof_trapframe : Z := 76.
Definition sizeof_context : Z := 20.
Definition context_eip : Z := 16.

Definition allocproc : K (option nat) :=
  acquire L_ptable ;;
  t <- gets k_pt ;;
  match find_proc (fun pr => bool_decide (state pr = UNUSED)) 0 (pt_proc t) with
  | None => release L_ptable ;; ret None
  | Some p =>
      proc_set p (set_state EMBRYO) ;;
      n <- gets k_nextpid ;;
      proc_set p (set_pid n) ;;
      modify (set_k_nextpid (i32 (n + 1))) ;;
      proc_set p (set_priority 0) ;;
      release L_ptable ;;
      ks <- kalloc ;;
      proc_set p (set_kstack ks) ;;
      if ks =? 0 then
        proc_set p (set_state UNUSED) ;; ret None
      else
        let sp := ks + KSTACKSIZE - sizeof_trapframe in
        proc_set p (set_tf sp) ;;
        let sp := sp - 4 in
        modify (upd_mem (store32 sp trapret_addr)) ;;
        let sp := sp - sizeof_context in
        proc_set p (set_context sp) ;;
        modify (upd_mem (memset sp 0 sizeof_context)) ;;
        modify (upd_mem (store32 (sp + context_eip) forkret_addr)) ;;
        ret (Some p)
  end.

(** [switchuvm] and [switchkvm] of [kernel/vm.c]: the kernel stack in the task
    state segment and the page table base register. *)
Definition lcr3 (v : Z) : K unit := modify (upd_hw (set_h_cr3 v)).
Definition switchuvm (po : option nat) : K unit :=
  match po with
  | None => panic "switchuvm: no process"
  | Some p =>
      ks <- proc_get p kstack ;;
      if ks =? 0 then panic "switchuvm: no kstack" else
      pd <- proc_get p pgdir ;;
      if pd =? 0 then panic "switchuvm: no pgdir" else
      pushcli ;;
      cpu_write (set_ts_esp0 (ks + KSTACKSIZE)) ;;
      lcr3 (V2P pd) ;;
      popcli
  end.
Definition switchkvm : K unit :=
  pd <- gets k_kpgdir ;;
  lcr3 (V2P pd).

(** [c->proc = p] for the CPU structure the scheduler runs on. *)
Definition set_cpu_proc (c : nat) (p : option nat) : K unit :=
  modify (upd_hw (fun h => set_h_cpus (alter (set_c_proc p) c (h_cpus h)) h)).

(** The loop of [scheduler] over the priority levels. *)
Fixpoint pick (c : nat) (levels : list nat) : K unit :=
  match levels with
  | [] => ret tt
  | i :: levels' =>
      s <- get ;;
      first <- of_option "queue_first" (queue_first (k_pt s) !! i) ;;
      match first with
      | None => pick c levels'
      | Some p =>
          set_cpu_proc c (Some p) ;;
          switchuvm (Some p) ;;
          pt_do (dequeue p) ;;
          proc_set p (set_state RUNNING) ;;
          swtch ;;
          switchkvm ;;
          set_cpu_proc c None
      end
  end.

(** One round of the [for(;;)] of [scheduler] on CPU [c]. *)
Definition scheduler_round (c : nat) : K unit :=
  sti ;;
  acquire L_ptable ;;
  pick c (seq 0 NPRIO) ;;
  release L_ptable.

Fixpoint scheduler_loop (rounds : nat) (c : nat) : K unit :=
  match rounds with
  | O => stopm NoFuel
  | S r => scheduler_round c ;; scheduler_loop r c
  end.

Definition scheduler (rounds : nat) : K unit :=
  c <- mycpu ;;
  set_cpu_proc c None ;;
  scheduler_loop rounds c.

Definition priority_boost : K unit :=
  acquire L_ptable ;;
  pt_do boost ;;
  release L_ptable.

Definition sched : K unit :=
  p <- myproc ;;
  h <- holding L_ptable ;;
  if negb h then panic "sched ptable.lock" else
  n <- cpu_read ncli ;;
  if negb (n =? 1) then panic "sched locks" else
  p <- of_option "myproc" p ;;
  st <- proc_get p state ;;
  if bool_decide (st = RUNNING) then panic "sched running" else
  i <- gets (fun s => h_if (k_hw s)) ;;
  if i : bool then panic "sched interruptible" else
  intena <- cpu_read intena ;;
  swtch ;;
  cpu_write (set_intena intena).

Definition yield : K unit :=
  acquire L_ptable ;;
  p <- curproc ;;
  proc_set p (fun pr => set_priority
    (u32 (priority pr + (if priority pr =? Z.of_nat NPRIO - 1 then 0 else 1))) pr) ;;
  p <- curproc ;;
  proc_set p (set_ticks_running 0) ;;
  p <- curproc ;;
  pt_do (enqueue p) ;;
  sched ;;
  release L_ptable.

Definition sleep (ch : option chan) (lk : option lockid) : K unit :=
  p <- myproc ;;
  match p with
  | None => panic "sleep"
  | Some p =>
      match lk with
      | None => panic "sleep without lk"
      | Some lk =>
          whenm (bool_decide (lk <> L_ptable)) (acquire L_ptable ;; release lk) ;;
          proc_set p (set_p_chan ch) ;;
          proc_set p (set_state SLEEPING) ;;
          sched ;;
          proc_set p (set_p_chan None) ;;
          whenm (bool_decide (lk <> L_ptable)) (release L_ptable ;; acquire lk)
      end
  end.

Definition wakeup (ch : option chan) : K unit :=
  acquire L_ptable ;;
  pt_do (wakeup1 ch) ;;
  release L_ptable.

Definition kill (i : Z) : K Z :=
  acquire L_ptable ;;
  t <- gets k_pt ;;
  match find_proc (fun pr => pid pr =? i) 0 (pt_proc t) with
  | Some p =>
      proc_set p (set_killed 1) ;;
      st <- proc_get p state ;;
      whenm (bool_decide (st = SLEEPING)) (pt_do (enqueue p)) ;;
      release L_ptable ;;
      ret 0
  | None => release L_ptable ;; ret (-1)
  end.

End code.

Arguments swtch : simpl never.
Arguments sched : simpl never.
Arguments switchuvm : simpl never.

(** ** Rules *)
Section rules.
Context {A : Type} (P : protocol kernel).
Implicit Types (s : kernel) (Q : A -> kernel -> Prop).

Lemma wp_pt_do f (k : unit -> K A) s t' Q :
  f (k_pt s) = Some t' -> wp P (k tt (set_k_pt t' s)) Q -> wp P ((x <- pt_do f ;; k x) s) Q.
Proof. intros E Hk. unfold pt_do, bind, get, modify. simpl. by rewrite E. Qed.

Lemma wp_proc_set p f (k : unit -> K A) s t' Q :
  upd_proc p f (k_pt s) = Some t' -> wp P (k tt (set_k_pt t' s)) Q ->
  wp P ((x <- proc_set p f ;; k x) s) Q.
Proof. apply wp_pt_do. Qed.

Lemma wp_proc_get {B} p (f : proc -> B) (k : B -> K A) s pr Q :
  get_proc p (k_pt s) = Some pr -> wp P (k (f pr) s) Q -> wp P ((x <- proc_get p f ;; k x) s) Q.
Proof. intros E Hk. unfold proc_get, bind, get. simpl. by rewrite E. Qed.

Lemma wp_curproc (k : nat -> K A) s Q c L b p :
  hw_ok (k_hw s) c L b -> cur (k_hw s) = Some p ->
  (forall h', hw_ok h' c L b -> hw_id h' = hw_id (k_hw s) -> wp P (k p (set_k_hw h' s)) Q) ->
  wp P ((x <- curproc ;; k x) s) Q.
Proof.
  intros Hok Hc Hk. unfold curproc. wp_run. eapply wp_myproc; [done|].
  intros h' ??. rewrite Hc. simpl. by apply Hk.
Qed.

End rules.

(** ** The context-switch protocol *)
Definition sched_inv (s : kernel) : Prop := exists qs, queues_ok (k_pt s) qs.

(** CPU [c] runs process [p], holds only [ptable.lock], and [p] is in state [st]. *)
Definition on_cpu (p : nat) (c : nat) (b : bool) (s : kernel) (P : procstate -> Prop) : Prop :=
  hw_ok (k_hw s) c [L_ptable] b /\ cur (k_hw s) = Some p /\
  exists pr, get_proc p (k_pt s) = Some pr /\ P (state pr).

(** A process that calls [swtch] has left the state [RUNNING] and the queues
    are in order; when it is resumed it is [RUNNING] again and they still are.
    [G] is whatever else a particular routine guarantees at the switch, [I] an
    invariant of other kernel data that all processes maintain. *)
Definition proc_protocol (p : nat) (I G : kernel -> Prop) : protocol kernel := {|
  p_guar s := sched_inv s /\ (exists c b, on_cpu p c b s (fun st => st <> RUNNING)) /\ I s /\ G s;
  p_rely _ s' := sched_inv s' /\ (exists c b, on_cpu p c b s' (fun st => st = RUNNING)) /\ I s';
  p_stop _ := False |}.

(** An invariant of data other than the process table and the locks. *)
Class Stable (I : kernel -> Prop) : Prop :=
  stable s h t : I s -> I (set_k_hw h (set_k_pt t s)).

#[export] Instance stable_true : Stable (fun _ => True).
Proof. done. Qed.

Lemma stable_hw I `{!Stable I} s h : I s -> I (set_k_hw h s).
Proof. intros H. rewrite <- (set_k_pt_id s). by apply stable. Qed.

Lemma stable_pt I `{!Stable I} s t : I s -> I (set_k_pt t s).
Proof. intros H. rewrite <- (set_k_hw_id (set_k_pt t s)). by apply (stable s). Qed.

(** A process has come back to the scheduler of CPU [c]: it has left the state
    [RUNNING] and holds only [ptable.lock]. *)
Definition came_back (c : nat) (s : kernel) : Prop :=
  sched_inv s /\ exists p b, on_cpu p c b s (fun st => st <> RUNNING).

Section switch.
Context {A : Type}.
Implicit Types (s : kernel) (Q : A -> kernel -> Prop).

Lemma wp_swtch P (k : unit -> K A) s Q :
  p_guar P s -> (forall s', p_rely P s s' -> wp P (k tt s') Q) ->
  wp P ((x <- swtch ;; k x) s) Q.
Proof. intros. by split. Qed.

(** [sched] switches in the state it is called in, up to the CPU's registers,
    and returns, when it is resumed, in the state of the resumption with
    [intena] as it was. *)
Definition resumed (p : nat) (s : kernel) : Prop :=
  sched_inv s /\ exists c b, on_cpu p c b s (fun st => st = RUNNING).

Lemma sched_switches s c b p :
  on_cpu p c b s (fun st => st <> RUNNING) ->
  switches (fun s1 => exists h, s1 = set_k_hw h s /\ hw_id h = hw_id (k_hw s) /\ hw_ok h c [L_ptable] b) (resumed p) (sched s)
    (fun s' o => wp atomic o (fun _ s'' => exists h c', s'' = set_k_hw h s' /\ on_cpu p c' b s'' (fun st => st = RUNNING))).
Proof.
  intros (Hhw & Hcur & pr & Hpr & Hst). unfold sched.
  sw_step ltac:(eapply wp_myproc; [done|]). intros h1 Hhw1 Hid1. wp_run. rewrite Hcur.
  sw_step ltac:(eapply wp_holding; [done|]). intros h2 Hhw2 Hid2. wp_run. simpl in Hid2.
  rewrite bool_decide_eq_true_2 by (left; done). simpl negb. cbv iota.
  destruct (ho_rec _ _ _ _ Hhw2) as (r & Hr & Hn & Hi). simpl in Hn.
  sw_step ltac:(eapply wp_cpu_read; [done|done|done|]). wp_run. rewrite Hn. change (negb (Z.of_nat 1 =? 1)) with false. cbv iota.
  apply switches_before, wp_ret.
  sw_step ltac:(apply wp_proc_get with pr; [done|]). wp_run.
  rewrite bool_decide_eq_false_2 by done. apply switches_before, wp_tail. wp_run.
  change (h_if (k_hw (set_k_hw h2 (set_k_hw h1 s)))) with (h_if h2).
  rewrite (hw_ok_inside _ _ _ _ Hhw2) by done.
  sw_step ltac:(eapply wp_cpu_read; [done|done|done|]). wp_run. rewrite (Hi ltac:(done)). split.
  - exists h2. split_and!; [by destruct s|by rewrite Hid2|done].
  - intros s' (_ & c' & b' & Hhw' & Hcur' & pr' & Hpr' & Hst'). simpl.
    apply wp_tail. eapply wp_set_intena; [done|done|]. intros h' Hhw'' Hid''. apply wp_ret. exists h', c'. split; [done|].
    split_and!; [done| |by exists pr']. simpl. by rewrite (cur_hw_id _ _ Hid'').
Qed.

Lemma wp_sched I `{!Stable I} G (k : unit -> K A) s Q c b p :
  sched_inv s -> on_cpu p c b s (fun st => st <> RUNNING) -> I s ->
  (forall h, hw_id h = hw_id (k_hw s) -> G (set_k_hw h s)) ->
  (forall s' c', sched_inv s' -> on_cpu p c' b s' (fun st => st = RUNNING) -> I s' ->
    wp (proc_protocol p I G) (k tt s') Q) ->
  wp (proc_protocol p I G) ((x <- sched ;; k x) s) Q.
Proof.
  intros Hinv Hon HI HG Hk. apply wp_bind.
  apply switches_wp with (G := fun s1 => exists h, s1 = set_k_hw h s /\ hw_id h = hw_id (k_hw s) /\ hw_ok h c [L_ptable] b)
    (R := fun s' => resumed p s' /\ I s').
  - eapply switches_mono; [by apply (sched_switches s c b p)|done|by intros ? [? _]|]. simpl.
    intros s' o [[Hinv' _] HI'] Ho. eapply wp_mono; [apply wp_atomic, Ho|]. intros [] s'' (h & c' & -> & Hon').
    apply (Hk _ c'); [done|done|by apply (stable_hw I)].
  - intros s1 (h & -> & Hid & Hh). destruct Hon as (Hhw & Hcur & Hpr). split_and!; [done| |by apply (stable_hw I)|by apply HG].
    exists c, b. split_and!; [done|simpl; by rewrite (cur_hw_id _ _ Hid)|done].
  - intros s1 s' _ (Hinv' & Hon' & HI'). by split.
Qed.

End switch.

(** ** Running as a process

    [at_proc s c L b p pr qs]: CPU [c] runs process [p], whose entry is [pr],
    holds the locks [L], and the queues represent [qs]. *)
Record at_proc (s : kernel) (c : nat) (L : list lockid) (b : bool) (p : nat) (pr : proc)
    (qs : aqueues) : Prop := {
  ap_hw : hw_ok (k_hw s) c L b;
  ap_cur : cur (k_hw s) = Some p;
  ap_proc : get_proc p (k_pt s) = Some pr;
  ap_queues : queues_ok (k_pt s) qs }.

Section at_proc.
Context {A : Type} (P : protocol kernel).
Implicit Types (s : kernel) (h : hw) (Q : A -> kernel -> Prop) (L : list lockid) (qs : aqueues).

Lemma at_proc_hw s c L b p pr qs h L' b' :
  at_proc s c L b p pr qs -> hw_ok h c L' b' -> hw_id h = hw_id (k_hw s) ->
  at_proc (set_k_hw h s) c L' b' p pr qs.
Proof. intros [] ? Hid. split; try done. simpl. by rewrite (cur_hw_id _ _ Hid). Qed.

Lemma wp_ap_acquire lk (k : unit -> K A) s Q c L b p pr qs :
  at_proc s c L b p pr qs -> lk ∉ L ->
  (forall h, at_proc (set_k_hw h s) c (lk :: L) b p pr qs -> wp P (k tt (set_k_hw h s)) Q) ->
  wp P ((x <- acquire lk ;; k x) s) Q.
Proof.
  intros Hap Hl Hk. eapply wp_acquire; [apply Hap|done|]. intros h ??. by eapply Hk, at_proc_hw.
Qed.

Lemma wp_ap_release lk (k : unit -> K A) s Q c L L' b p pr qs :
  at_proc s c L b p pr qs -> L ≡ₚ lk :: L' ->
  (forall h, at_proc (set_k_hw h s) c L' b p pr qs -> wp P (k tt (set_k_hw h s)) Q) ->
  wp P ((x <- release lk ;; k x) s) Q.
Proof.
  intros Hap Hl Hk. eapply wp_release; [apply Hap|done|]. intros h ??. by eapply Hk, at_proc_hw.
Qed.

Lemma wp_ap_myproc (k : option nat -> K A) s Q c L b p pr qs :
  at_proc s c L b p pr qs ->
  (forall h, at_proc (set_k_hw h s) c L b p pr qs -> wp P (k (Some p) (set_k_hw h s)) Q) ->
  wp P ((x <- myproc ;; k x) s) Q.
Proof.
  intros Hap Hk. eapply wp_myproc; [apply Hap|]. intros h ??. rewrite (ap_cur _ _ _ _ _ _ _ Hap).
  by eapply Hk, at_proc_hw.
Qed.

Lemma wp_ap_curproc (k : nat -> K A) s Q c L b p pr qs :
  at_proc s c L b p pr qs ->
  (forall h, at_proc (set_k_hw h s) c L b p pr qs -> wp P (k p (set_k_hw h s)) Q) ->
  wp P ((x <- curproc ;; k x) s) Q.
Proof.
  intros Hap Hk. unfold curproc. wp_run. eapply wp_ap_myproc; [done|]. intros h Hap'. wp_run. by apply Hk.
Qed.

(** A statement [p->f = x] on the current process while it is not in a queue. *)
Lemma wp_ap_set f (k : unit -> K A) s Q c L b p pr qs :
  at_proc s c L b p pr qs -> state pr <> RUNNABLE -> state (f pr) <> RUNNABLE ->
  0 <= priority (f pr) < Z.of_nat NPRIO -> next_proc (f pr) = next_proc pr ->
  (forall t, at_proc (set_k_pt t s) c L b p (f pr) qs -> pt_proc t = <[p := f pr]> (pt_proc (k_pt s)) ->
    wp P (k tt (set_k_pt t s)) Q) ->
  wp P ((x <- proc_set p f ;; k x) s) Q.
Proof.
  intros [? ? Hp Hq] ???? Hk. destruct (upd_idle_ok _ _ _ _ f Hq Hp) as (t & E & Hqt & Ht); try done.
  apply wp_proc_set with t; [done|]. apply Hk; [|done]. split; try done.
  unfold get_proc in *. simpl. rewrite Ht. apply list_lookup_insert_eq. by eapply lookup_lt_Some.
Qed.

(** [enqueue(p)] of the current process. *)
Lemma wp_ap_enqueue (k : unit -> K A) s Q c L b p pr qs :
  at_proc s c L b p pr qs -> state pr <> RUNNABLE ->
  (forall t pr', at_proc (set_k_pt t s) c L b p pr' (aenqueue (Z.to_nat (priority pr)) p qs) ->
    data pr' = data (set_state RUNNABLE pr) ->
    pt_data t = <[p := data (set_state RUNNABLE pr)]> (pt_data (k_pt s)) ->
    wp P (k tt (set_k_pt t s)) Q) ->
  wp P ((x <- pt_do (enqueue p) ;; k x) s) Q.
Proof.
  intros [? ? Hp Hq] ? Hk. destruct (enqueue_ok _ _ _ _ Hq Hp) as (t & E & Hqt & Ht); [done|].
  apply wp_pt_do with t; [done|].
  assert (pt_data t !! p = Some (data (set_state RUNNABLE pr))) as Hl.
  { rewrite Ht. apply list_lookup_insert_eq. rewrite pt_data_length. by eapply lookup_lt_Some. }
  apply pt_data_lookup_inv in Hl as (pr' & Hp' & E').
  apply (Hk t pr'); [|done|done]. by split.
Qed.

(** [sched()] by a process that has left the state [RUNNING]. *)
Lemma ap_sched_switches s c b p pr qs :
  at_proc s c [L_ptable] b p pr qs -> state pr <> RUNNING ->
  switches (fun s1 => exists h, s1 = set_k_hw h s /\ at_proc s1 c [L_ptable] b p pr qs) (resumed p) (sched s)
    (fun s' o => wp atomic o (fun _ s'' => exists h c' pr' qs', s'' = set_k_hw h s' /\
       at_proc s'' c' [L_ptable] b p pr' qs' /\ state pr' = RUNNING)).
Proof.
  intros Hap Hst. pose proof Hap as [? ? Hp Hq].
  eapply switches_mono; [apply (sched_switches s c b p); by split_and!; [..|exists pr]| |done|].
  - intros s1 (h & -> & Hid & Hh). exists h. split; [done|]. by eapply at_proc_hw.
  - intros s' o [[qs' Hq'] _] Ho. eapply wp_mono; [exact Ho|]. intros [] s'' (h & c' & -> & ? & ? & pr' & ? & ?).
    by exists h, c', pr', qs'.
Qed.

Lemma wp_ap_sched I `{!Stable I} G (k : unit -> K A) s Q c b p pr qs :
  at_proc s c [L_ptable] b p pr qs -> state pr <> RUNNING -> I s ->
  (forall h, hw_id h = hw_id (k_hw s) -> G (set_k_hw h s)) ->
  (forall s' c' pr' qs', at_proc s' c' [L_ptable] b p pr' qs' -> state pr' = RUNNING -> I s' ->
    wp (proc_protocol p I G) (k tt s') Q) ->
  wp (proc_protocol p I G) ((x <- sched ;; k x) s) Q.
Proof.
  intros [? ? Hp Hq] Hst HI HG Hk. eapply wp_sched; [done|by exists qs|by split_and!; [..|exists pr]|done|done|].
  intros s' c' [qs' Hq'] (? & ? & pr' & ? & ?) HI'. by eapply (Hk s' c' pr' qs').
Qed.

End at_proc.

(** Invariants that ignore the CPU and the process table, through updates of those. *)
Ltac stable_tac := repeat first [eassumption | apply stable_hw; [typeclasses eauto|] | apply stable_pt; [typeclasses eauto|]].

(** ** What each routine does *)
Section specs.
Implicit Types (s : kernel) (qs : aqueues) (p : nat) (pr : proc).

(** The effect of [yield] on the current process: one level down, a fresh quantum. *)
Definition demote pr : proc :=
  set_ticks_running 0 (set_priority
    (if priority pr =? Z.of_nat NPRIO - 1 then priority pr else priority pr + 1) pr).

Lemma demote_prio pr : 0 <= priority pr < Z.of_nat NPRIO -> 0 <= priority (demote pr) < Z.of_nat NPRIO.
Proof. intros. simpl. destruct (Z.eqb_spec (priority pr) (Z.of_nat NPRIO - 1)); lia. Qed.

Lemma ap_prio s c L b p pr qs :
  at_proc s c L b p pr qs -> 0 <= priority pr < Z.of_nat NPRIO.
Proof. intros [? ? Hp Hq]. by apply (prio_bound _ _ _ (proj2 (proj2 Hq)) Hp). Qed.

(** A process that returns from a routine with the locks [L] held is running. *)
Definition returned p L b s : Prop :=
  exists c pr qs, at_proc s c L b p pr qs /\ state pr = RUNNING.

(** The state [s1] at a switch of process [p] on CPU [c], called in [s]: the
    process table and the CPU's registers and locks apart, nothing has changed. *)
Definition at_switch p c b s s1 : Prop :=
  on_cpu p c b s1 (fun st => st <> RUNNING) /\ exists h t, s1 = set_k_hw h (set_k_pt t s).

Lemma yield_once s c b p pr qs :
  at_proc s c [] b p pr qs -> state pr = RUNNING ->
  switches (fun s1 => at_switch p c b s s1 /\
        queues_ok (k_pt s1) (aenqueue (Z.to_nat (priority (demote pr))) p qs) /\
        pt_data (k_pt s1) = <[p := data (set_state RUNNABLE (demote pr))]> (pt_data (k_pt s)))
    (resumed p) (yield s)
    (fun s' o => wp atomic o (fun _ s'' => returned p [] b s'' /\ exists h, s'' = set_k_hw h s')).
Proof.
  intros Hap Hst. pose proof (ap_prio _ _ _ _ _ _ _ Hap) as Hb. unfold yield.
  sw_step ltac:(eapply wp_ap_acquire; [done|by apply not_elem_of_nil|]). clear Hap. intros h1 Hap. wp_run.
  sw_step ltac:(eapply wp_ap_curproc; [done|]). clear Hap. intros h2 Hap. wp_run.
  set (f := fun pr => set_priority _ pr).
  assert (f pr = set_priority (priority (demote pr)) pr) as Ef.
  { unfold f, demote. simpl. f_equal.
    destruct (Z.eqb_spec (priority pr) (Z.of_nat NPRIO - 1)); rewrite u32_small; unfold NPRIO in *; lia. }
  sw_step ltac:(eapply (wp_ap_set _ f); [done|by rewrite Hst|by rewrite Ef; simpl; rewrite Hst|..]).
  { rewrite Ef. by apply demote_prio. } { by rewrite Ef. }
  rewrite Ef. clear Hap. intros t1 Hap Ht1. wp_run. sw_step ltac:(eapply wp_ap_curproc; [done|]). clear Hap. intros h3 Hap. wp_run.
  sw_step ltac:(eapply wp_ap_set; [done|by simpl; rewrite Hst|by simpl; rewrite Hst|by apply demote_prio|done|]).
  clear Hap. intros t2 Hap Ht2. wp_run. sw_step ltac:(eapply wp_ap_curproc; [done|]). clear Hap. intros h4 Hap. wp_run.
  sw_step ltac:(eapply wp_ap_enqueue; [done|by simpl; rewrite Hst|]). clear Hap. intros t3 pr3 Hap Hpr3 Ht3. wp_run.
  apply switches_after. eapply switches_mono; [eapply ap_sched_switches; [exact Hap|by injection Hpr3 as _ _ _ ->]| |done|].
  - intros s1 (h & -> & Hap1). pose proof Hap1 as [? ? Hp1 ?]. split; [split|split; [done|]].
    + split_and!; [done|done|]. exists pr3. split; [done|]. by injection Hpr3 as _ _ _ ->.
    + exists h, t3. by destruct s.
    + simpl in *. rewrite Ht3. unfold pt_data at 1.
      rewrite Ht2. simpl. rewrite Ht1, !list_fmap_insert, !list_insert_insert_eq. done.
  - intros s' o _ Ho. eapply wp_mono; [exact Ho|]. intros [] s'' (h & c' & pr' & qs' & -> & Hap' & Hst').
    apply wp_tail. eapply wp_ap_release; [done|done|]. intros h' Hap''. apply wp_ret.
    split; [by exists c', pr', qs'|]. exists h'. by destruct s'.
Qed.

(** [sleep] with the lock [lk] held: at the switch the process sleeps on [ch]
    and only [ptable.lock] is held, so [lk] has been released; on return [lk]
    is held again and the channel is cleared. *)
Lemma sleep_once s c b p pr qs ch lk :
  at_proc s c [lk] b p pr qs -> state pr = RUNNING ->
  switches (fun s1 => at_switch p c b s s1 /\ queues_ok (k_pt s1) qs /\
        pt_data (k_pt s1) = <[p := data (set_state SLEEPING (set_p_chan ch pr))]> (pt_data (k_pt s)))
    (resumed p) (sleep ch (Some lk) s)
    (fun s' o => wp atomic o (fun _ s'' => (exists h t, s'' = set_k_hw h (set_k_pt t s')) /\
       exists c' pr' qs', at_proc s'' c' [lk] b p pr' qs' /\ state pr' = RUNNING /\ p_chan pr' = None)).
Proof.
  intros Hap Hst. pose proof (ap_prio _ _ _ _ _ _ _ Hap) as Hb. unfold sleep.
  sw_step ltac:(eapply wp_ap_myproc; [done|]). clear Hap. intros h1 Hap. wp_run.
  set (G := fun s1 => _ /\ _ /\ _). set (F := fun (s' : kernel) o => _).
  assert (forall h, at_proc (set_k_hw h s) c [L_ptable] b p pr qs ->
    switches G (resumed p) ((proc_set p (set_p_chan ch) ;; proc_set p (set_state SLEEPING) ;; sched ;;
      proc_set p (set_p_chan None) ;;
      whenm (bool_decide (lk <> L_ptable)) (release L_ptable ;; acquire lk)) (set_k_hw h s)) F) as Hmain.
  { clear Hap. intros h Hap.
    sw_step ltac:(eapply wp_ap_set; [done|by rewrite Hst|by simpl; rewrite Hst|done|done|]). clear Hap. intros t1 Hap Ht1. wp_run.
    sw_step ltac:(eapply wp_ap_set; [done|by simpl; rewrite Hst|done|done|done|]). clear Hap. intros t2 Hap Ht2. wp_run.
    apply switches_after. eapply switches_mono; [eapply ap_sched_switches; [exact Hap|done]| |done|].
    { intros s1 (h' & -> & Hap1). pose proof Hap1 as [? ? Hp1 ?]. split; [split|split; [done|]].
      - split_and!; [done|done|]. by eexists.
      - exists h', t2. by destruct s.
      - unfold pt_data at 1. simpl in *. rewrite Ht2, Ht1. by rewrite list_insert_insert_eq, list_fmap_insert. }
    intros s' o _ Ho. eapply wp_mono; [exact Ho|]. intros [] s'' (h' & c' & pr' & qs' & -> & Hap' & Hst').
    pose proof (ap_prio _ _ _ _ _ _ _ Hap') as Hb'. unfold F.
    eapply wp_ap_set; [done|by rewrite Hst'|by simpl; rewrite Hst'|done|done|]. clear Hap'. intros t3 Hap' Ht3.
    case_bool_decide as Elk.
    - apply wp_tail, wp_when_true. wp_run. eapply wp_ap_release; [done|done|]. clear Hap'. intros h3 Hap'.
      eapply wp_ap_acquire; [done|by apply not_elem_of_nil|]. clear Hap'. intros h4 Hap'.
      apply wp_ret. split; [exists h4, t3; by destruct s'|]. by exists c', (set_p_chan None pr'), qs'.
    - apply wp_ret. subst lk. split; [exists h', t3; by destruct s'|]. by exists c', (set_p_chan None pr'), qs'. }
  case_bool_decide as Elk.
  - apply switches_before. wp_run. eapply wp_ap_acquire; [done|by apply not_elem_of_cons; split; [|apply not_elem_of_nil]|].
    clear Hap. intros h2 Hap. apply wp_tail. eapply wp_ap_release; [done|by apply Permutation_swap|].
    clear Hap. intros h3 Hap. apply wp_ret. by apply Hmain.
  - apply switches_before, wp_ret. subst lk. by apply Hmain.
Qed.

(** The same under a protocol with an invariant [I]. *)
Context (I : kernel -> Prop) `{!Stable I}.

Lemma at_switch_guar p c b s s1 G : at_switch p c b s s1 -> I s -> sched_inv s1 -> G s1 -> p_guar (proc_protocol p I G) s1.
Proof. intros [Hon (h & t & ->)] HI Hi HG. split_and!; [done|by exists c, b|by stable_tac|done]. Qed.

Lemma yield_wp s c b p pr qs :
  at_proc s c [] b p pr qs -> state pr = RUNNING -> I s ->
  wp (proc_protocol p I (fun s1 =>
        queues_ok (k_pt s1) (aenqueue (Z.to_nat (priority (demote pr))) p qs) /\
        pt_data (k_pt s1) = <[p := data (set_state RUNNABLE (demote pr))]> (pt_data (k_pt s))))
     (yield s) (fun _ s' => returned p [] b s' /\ I s').
Proof.
  intros Hap Hst HI. eapply switches_wp with (R := fun s' => resumed p s' /\ I s').
  - eapply switches_mono; [by apply (yield_once s c b p pr qs)|done|by intros ? [? _]|].
    intros s' o [_ HI'] Ho. eapply wp_mono; [apply wp_atomic, Ho|]. intros [] s'' [? [h ->]]. by split; [|stable_tac].
  - intros s1 (Hsw & Hq & Hd). apply (at_switch_guar _ c b s); [done|done|by eexists|done].
  - intros s1 s' _ (? & ? & ?). by split.
Qed.

Lemma sleep_wp s c b p pr qs ch lk :
  at_proc s c [lk] b p pr qs -> state pr = RUNNING -> I s ->
  wp (proc_protocol p I (fun s1 =>
        queues_ok (k_pt s1) qs /\
        pt_data (k_pt s1) = <[p := data (set_state SLEEPING (set_p_chan ch pr))]> (pt_data (k_pt s)) /\
        exists h t, s1 = set_k_hw h (set_k_pt t s)))
     (sleep ch (Some lk) s)
     (fun _ s' => exists c' pr' qs', at_proc s' c' [lk] b p pr' qs' /\ state pr' = RUNNING
        /\ p_chan pr' = None /\ I s').
Proof.
  intros Hap Hst HI. eapply switches_wp with (R := fun s' => resumed p s' /\ I s').
  - eapply switches_mono; [by apply (sleep_once s c b p pr qs ch lk)|done|by intros ? [? _]|].
    intros s' o [_ HI'] Ho. eapply wp_mono; [apply wp_atomic, Ho|]. intros [] s'' [(h & t & ->) (c' & pr' & qs' & ? & ? & ?)].
    exists c', pr', qs'. split_and!; [done..|by stable_tac].
  - intros s1 (Hsw & Hq & Hd). apply (at_switch_guar _ c b s); [done|done|by eexists|]. split_and!; [done|done|apply Hsw].
  - intros s1 s' _ (? & ? & ?). by split.
Qed.

End specs.

(** ** Routines that may run with no current process *)
Section atomic_specs.
Context {A : Type} (P : protocol kernel).
Implicit Types (s : kernel) (h : hw) (Q : A -> kernel -> Prop) (L : list lockid) (qs : aqueues).

Lemma wp_wakeup ch (k : unit -> K A) s Q c L b qs :
  hw_ok (k_hw s) c L b -> L_ptable ∉ L -> queues_ok (k_pt s) qs ->
  (forall h t, hw_ok h c L b -> hw_id h = hw_id (k_hw s) ->
    queues_ok t (awaken ch (pt_data (k_pt s)) (seq 0 NPROC) qs) ->
    pt_data t = wake ch <$> pt_data (k_pt s) ->
    wp P (k tt (set_k_hw h (set_k_pt t s))) Q) ->
  wp P ((x <- wakeup ch ;; k x) s) Q.
Proof.
  intros Hhw HL Hq Hk. unfold wakeup. wp_run. eapply wp_acquire; [done|done|]. intros h1 Hhw1 Hid1. wp_run.
  destruct (wakeup1_ok ch _ _ Hq) as (t & E & Hqt & Ht). apply wp_pt_do with t; [done|].
  eapply wp_release; [done|done|]. intros h2 Hhw2 Hid2. apply (Hk h2 t); try done. by rewrite Hid2.
Qed.

Lemma wp_priority_boost (k : unit -> K A) s Q c L b qs :
  hw_ok (k_hw s) c L b -> L_ptable ∉ L -> queues_ok (k_pt s) qs ->
  (forall h t, hw_ok h c L b -> hw_id h = hw_id (k_hw s) ->
    queues_ok t (aboost qs) -> pt_data t = set_priority 0 <$> pt_data (k_pt s) ->
    wp P (k tt (set_k_hw h (set_k_pt t s))) Q) ->
  wp P ((x <- priority_boost ;; k x) s) Q.
Proof.
  intros Hhw HL Hq Hk. unfold priority_boost. wp_run. eapply wp_acquire; [done|done|]. intros h1 Hhw1 Hid1. wp_run.
  destruct (boost_queues_ok _ _ Hq) as (t & E & Hqt & Ht). apply wp_pt_do with t; [done|].
  eapply wp_release; [done|done|]. intros h2 Hhw2 Hid2. apply (Hk h2 t); try done. by rewrite Hid2.
Qed.

(** The first process found by a scan of the table. *)
Lemma find_proc_spec f l : forall i,
  match find_proc f i l with
  | Some p => exists pr, (i <= p)%nat /\ l !! (p - i)%nat = Some pr /\ f pr = true /\
      forall j pr', (j < p - i)%nat -> l !! j = Some pr' -> f pr' = false
  | None => forall j pr', l !! j = Some pr' -> f pr' = false
  end.
Proof.
  induction l as [|pr l IH]; intros i; simpl; [done|].
  destruct (f pr) eqn:Ef.
  - exists pr. rewrite Nat.sub_diag. split_and!; [lia|done|done|]. intros. lia.
  - specialize (IH (S i)). destruct (find_proc f (S i) l) as [p|].
    + destruct IH as (pr0 & Hi & Hp & Hf & Hbef). exists pr0.
      replace (p - i)%nat with (S (p - S i)) by lia. split_and!; [lia|done|done|].
      intros [|j] pr' Hj Hl; simplify_eq/=; [done|]. eapply Hbef; [|done]. lia.
    + intros [|j] pr' Hl; simplify_eq/=; [done|]. by eapply IH.
Qed.

End atomic_specs.

(** ** The scheduler *)
Section scheduler.
Implicit Types (s : kernel) (h : hw) (qs : aqueues) (p : nat) (pr : proc) (L : list lockid).

Lemma switchuvm_ok s c L b p pr :
  hw_ok (k_hw s) c L b -> L <> [] -> get_proc p (k_pt s) = Some pr -> kstack pr <> 0 -> pgdir pr <> 0 ->
  exists h', switchuvm (Some p) s = Done tt (set_k_hw h' s)
    /\ hw_ok h' c L b /\ cur h' = cur (k_hw s) /\ h_cr3 h' = V2P (pgdir pr).
Proof.
  intros Hok HL Hp Hks Hpd. unfold switchuvm.
  assert (forall B (f : proc -> B), proc_get p f s = Done (f pr) s) as Hg.
  { intros B f. unfold proc_get, bind, get. simpl. by rewrite Hp. }
  rewrite (bind_done _ _ _ _ _ (Hg _ kstack)). destruct (Z.eqb_spec (kstack pr) 0); [done|].
  rewrite (bind_done _ _ _ _ _ (Hg _ pgdir)). destruct (Z.eqb_spec (pgdir pr) 0); [done|].
  by apply cli_write_ok.
Qed.

(** Every runnable process can be switched to. *)
Definition switchable (t : ptable) : Prop :=
  forall p pr, get_proc p t = Some pr -> state pr = RUNNABLE -> kstack pr <> 0 /\ pgdir pr <> 0.

(** The state at the switch of CPU [c] to the chosen process: the first of the
    first non-empty queue runs, in state [RUNNING], with its page table loaded
    and [ptable.lock] held, and has left its queue; nothing else has changed. *)
Definition dispatched c s qs s1 : Prop :=
  exists p i rest pr, (i < NPRIO)%nat /\ (forall j, (j < i)%nat -> qs j = []) /\ qs i = p :: rest
    /\ get_proc p (k_pt s) = Some pr
    /\ on_cpu p c true s1 (fun st => st = RUNNING)
    /\ h_cr3 (k_hw s1) = V2P (pgdir pr)
    /\ queues_ok (k_pt s1) (adequeue i p qs)
    /\ pt_data (k_pt s1) = <[p := data (set_state RUNNING pr)]> (pt_data (k_pt s))
    /\ exists h t, s1 = set_k_hw h (set_k_pt t s).
(** The CPU is back in its scheduler, with the locks [L], on the kernel's page table. *)
Definition in_scheduler c L s s' : Prop :=
  exists h b, s' = set_k_hw h s /\ hw_ok h c L b /\ cur h = None /\ h_cr3 h = V2P (k_kpgdir s).

Lemma hw_ok_sti h c b : hw_ok h c [] b -> hw_ok (set_h_if true h) c [] true.
Proof. intros [? (r & ? & ? & _)]. split; try done. by exists r. Qed.

Lemma pick_none c qs s : queues_ok (k_pt s) qs -> forall n i, (i + n = NPRIO)%nat ->
  (forall j, (j < NPRIO)%nat -> qs j = []) -> pick c (seq i n) s = Done tt s.
Proof.
  intros Hq. induction n as [|n IH]; intros i Hin Hemp; simpl pick; [done|].
  unfold bind, get. simpl. rewrite (lo_head _ _ (proj1 Hq) i) by lia. rewrite (Hemp i) by lia. simpl. apply IH; [lia|done].
Qed.

Lemma pick_switches c qs s h0 : hw_ok h0 c [L_ptable] true -> queues_ok (k_pt s) qs -> switchable (k_pt s) ->
  forall n i, (i + n = NPRIO)%nat -> (forall j, (j < i)%nat -> qs j = []) ->
  (exists j, (j < NPRIO)%nat /\ qs j <> []) ->
  switches (dispatched c s qs) (came_back c) (pick c (seq i n) (set_k_hw h0 s))
    (fun s' o => wp atomic o (fun _ => in_scheduler c [L_ptable] s')).
Proof.
  intros Hhw Hq Hsw. induction n as [|n IH]; intros i Hin Hemp (j & Hj & Hne); simpl pick.
  { destruct Hne. apply Hemp. lia. }
  apply switches_before, wp_ret. apply switches_before. simpl k_pt.
  rewrite (lo_head _ _ (proj1 Hq) i) by lia. apply wp_ret.
  destruct (qs i) as [|p rest] eqn:Ei; simpl lookup; cbv iota.
  { apply IH; [lia| |by exists j]. intros k Hk. destruct (decide (k = i)) as [->|]; [done|apply Hemp; lia]. }
  change ((p :: rest) !! 0%nat) with (Some p). cbv iota.
  assert (i < NPRIO)%nat as Hi by lia.
  assert (p ∈ qs i) as Hpi by (rewrite Ei; left).
  destruct (mem_lookup _ _ _ _ (proj1 Hq) Hi Hpi) as (pr & Hp).
  destruct (proj1 (proj1 (proj2 Hq) i p _ Hi (pt_data_lookup _ _ _ Hp)) Hpi) as [Hs _].
  destruct (Hsw p pr Hp Hs) as [Hks Hpd].
  destruct (hw_ok_set_proc h0 c [L_ptable] true (Some p) Hhw) as [Hhw1 Hcur1].
  apply switches_before, wp_ret. set (s1 := upd_hw _ _).
  destruct (switchuvm_ok s1 c [L_ptable] true p pr) as (h2 & E2 & Hhw2 & Hcur2 & Hcr); [done..|].
  rewrite (bind_done _ _ _ _ _ E2).
  destruct (dequeue_run_ok (k_pt s) qs p i Hq Hi Hpi) as (t1 & t2 & pr' & Ed & Eu & Hp' & _ & Hq2 & Hd2).
  assert (pr' = pr) as -> by congruence.
  sw_step ltac:(apply wp_pt_do with t1; [done|]). wp_run. sw_step ltac:(apply wp_proc_set with t2; [done|]). wp_run.
  assert (pt_data t2 !! p = Some (data (set_state RUNNING pr))) as Hl.
  { rewrite Hd2. apply list_lookup_insert_eq. rewrite pt_data_length. by eapply lookup_lt_Some. }
  apply pt_data_lookup_inv in Hl as (pr2 & Hp2 & E). split.
  - exists p, i, rest, pr. split_and!; try done; [|by exists h2, t2; destruct s].
    split_and!; [done|simpl; by rewrite Hcur2|]. exists pr2. split; [done|]. by injection E.
  - intros s' (_ & q & b' & Hhw' & Hcur' & _). simpl.
    destruct (hw_ok_set_proc (set_h_cr3 (V2P (k_kpgdir s')) (k_hw s')) c [L_ptable] b' None) as [Hhw3 Hcur3];
      [by destruct Hhw'|]. eexists _, b'. split_and!; [by destruct s'|done|done|done].
Qed.

Lemma scheduler_round_none c b s qs :
  hw_ok (k_hw s) c [] b -> queues_ok (k_pt s) qs -> (forall j, (j < NPRIO)%nat -> qs j = []) ->
  wp atomic (scheduler_round c s) (fun _ s' => exists h, s' = set_k_hw h s /\ hw_ok h c [] true /\ hw_id h = hw_id (k_hw s)).
Proof.
  intros Hhw Hq Hemp. unfold scheduler_round, sti. wp_run.
  eapply wp_acquire; [by eapply hw_ok_sti|by apply not_elem_of_nil|]. intros h1 Hhw1 Hid1.
  rewrite (bind_done _ _ _ _ _ (pick_none c qs (set_k_hw h1 (upd_hw (set_h_if true) s)) Hq NPRIO 0 eq_refl Hemp)).
  apply wp_tail. eapply wp_release; [done|done|]. intros h2 Hhw2 Hid2. apply wp_ret. exists h2.
  split_and!; [by destruct s|done|]. rewrite Hid2. simpl. by rewrite Hid1.
Qed.

Lemma scheduler_round_switches c b s qs :
  hw_ok (k_hw s) c [] b -> queues_ok (k_pt s) qs -> switchable (k_pt s) -> (exists j, (j < NPRIO)%nat /\ qs j <> []) ->
  switches (dispatched c s qs) (came_back c) (scheduler_round c s)
    (fun s' o => wp atomic o (fun _ => in_scheduler c [] s')).
Proof.
  intros Hhw Hq Hsw Hne. unfold scheduler_round, sti. apply switches_before, wp_ret.
  sw_step ltac:(eapply wp_acquire; [by eapply hw_ok_sti|by apply not_elem_of_nil|]). intros h1 Hhw1 Hid1. wp_run.
  apply switches_after. replace (set_k_hw h1 _) with (set_k_hw h1 s) by (by destruct s).
  eapply switches_mono; [by apply (pick_switches c qs s h1 Hhw1 Hq Hsw NPRIO 0); [|lia|]|done|done|].
  intros s' o _ Ho. eapply wp_mono; [exact Ho|]. intros [] s'' (h & b' & -> & Hh & Hc & Hcr). apply wp_tail.
  eapply wp_release; [done|done|]. intros h' Hh' Hid'. apply wp_ret. exists h', b'. split_and!; [by destruct s'|done| |].
  - by rewrite (cur_hw_id _ _ Hid').
  - unfold hw_id in Hid'. simpl in Hid'. congruence.
Qed.

End scheduler.

(** ** [kill] and [allocproc] *)
Section kill_alloc.
Implicit Types (s : kernel) (h : hw) (qs : aqueues) (p : nat) (pr : proc) (L : list lockid).

(** The first slot of the table that satisfies [f]. *)
Definition first_slot (f : proc -> bool) (t : ptable) p pr : Prop :=
  get_proc p t = Some pr /\ f pr = true /\
  forall j prj, (j < p)%nat -> get_proc j t = Some prj -> f prj = false.

Lemma find_first f t :
  match find_proc f 0 (pt_proc t) with
  | Some p => exists pr, first_slot f t p pr
  | None => forall j prj, get_proc j t = Some prj -> f prj = false
  end.
Proof.
  pose proof (find_proc_spec f (pt_proc t) 0) as H. destruct (find_proc f 0 (pt_proc t)) as [p|]; [|done].
  destruct H as (pr & _ & Hp & Hf & Hb). rewrite Nat.sub_0_r in *. by exists pr.
Qed.

(** What [kill] does to the process it finds. *)
Lemma first_slot_inj f t p pr p' pr' :
  first_slot f t p pr -> first_slot f t p' pr' -> p' = p /\ pr' = pr.
Proof.
  intros (Hp & Hf & Hb) (Hp' & Hf' & Hb').
  destruct (Nat.lt_total p p') as [Hlt|[<-|Hlt]].
  - specialize (Hb' p pr Hlt Hp). congruence.
  - split; [done|]. congruence.
  - specialize (Hb p' pr' Hlt Hp'). congruence.
Qed.

(** A slot stays the first of its kind when only it changes. *)
Lemma first_slot_data f t t' p pr pr' d :
  pt_data t' = <[p := d]> (pt_data t) -> get_proc p t' = Some pr' ->
  (forall x y, data x = data y -> f x = f y) -> f pr' = true ->
  first_slot f t p pr -> first_slot f t' p pr'.
Proof.
  intros Hd Hp' Hf Hfp (Hp & _ & Hb). split_and!; [done|done|]. intros j prj Hj Hpj.
  apply pt_data_lookup in Hpj. rewrite Hd, list_lookup_insert_ne in Hpj by lia.
  apply pt_data_lookup_inv in Hpj as (prj' & Hj' & E). rewrite (Hf prj prj' E). by apply (Hb j).
Qed.

Definition killed_proc pr : proc :=
  if decide (state pr = SLEEPING) then set_state RUNNABLE (set_killed 1 pr) else set_killed 1 pr.

Lemma kill_wp P i s c L b qs :
  hw_ok (k_hw s) c L b -> L_ptable ∉ L -> queues_ok (k_pt s) qs ->
  wp P (kill i s) (fun r s' => exists h t, s' = set_k_hw h (set_k_pt t s) /\ hw_ok h c L b /\
    hw_id h = hw_id (k_hw s) /\
    ((r = -1 /\ t = k_pt s /\ forall j prj, get_proc j t = Some prj -> pid prj <> i)
     \/ (r = 0 /\ exists p pr, first_slot (fun prj => pid prj =? i) (k_pt s) p pr
         /\ pt_data t = <[p := data (killed_proc pr)]> (pt_data (k_pt s))
         /\ queues_ok t (if decide (state pr = SLEEPING)
                         then aenqueue (Z.to_nat (priority pr)) p qs else qs)))).
Proof.
  intros Hhw HL Hq. unfold kill. wp_run. eapply wp_acquire; [done|done|]. intros h1 Hhw1 Hid1. wp_run.
  change (k_pt (set_k_hw h1 s)) with (k_pt s).
  pose proof (find_first (fun prj => pid prj =? i) (k_pt s)) as Hfind.
  destruct (find_proc _ 0 _) as [p|].
  - destruct Hfind as (pr & Hfirst). pose proof Hfirst as (Hp & _).
    destruct (upd_data_ok (k_pt s) qs p pr (set_killed 1) Hq Hp) as (t1 & E1 & Hq1 & Ht1); [done..|].
    apply wp_proc_set with t1; [done|].
    assert (get_proc p t1 = Some (set_killed 1 pr)) as Hp1.
    { unfold get_proc. rewrite Ht1. apply list_lookup_insert_eq. by eapply lookup_lt_Some. }
    apply wp_proc_get with (set_killed 1 pr); [done|]. cbn [state set_killed].
    unfold killed_proc. case_bool_decide as Es.
    + destruct (enqueue_ok t1 qs p _ Hq1 Hp1) as (t2 & E2 & Hq2 & Ht2); [simpl; by rewrite Es|].
      apply wp_when_true, wp_pt_do with t2; [done|]. eapply wp_release; [done|done|].
      intros h2 Hhw2 Hid2. apply wp_ret. exists h2, t2. split_and!; [done|done|by rewrite Hid2|].
      right. split; [done|]. exists p, pr. rewrite !decide_True by done. split_and!; [done| |done].
      rewrite Ht2. unfold pt_data. by rewrite Ht1, list_fmap_insert, list_insert_insert_eq.
    + apply wp_when_false. eapply wp_release; [done|done|].
      intros h2 Hhw2 Hid2. apply wp_ret. exists h2, t1. split_and!; [done|done|by rewrite Hid2|].
      right. split; [done|]. exists p, pr. rewrite !decide_False by done. split_and!; [done| |done].
      unfold pt_data. by rewrite Ht1, list_fmap_insert.
  - eapply wp_release; [done|done|]. intros h2 Hhw2 Hid2. apply wp_ret. exists h2, (k_pt s).
    split_and!; [by destruct s|done|by rewrite Hid2|]. left. split_and!; [done|done|].
    intros j prj Hj. specialize (Hfind j prj Hj). simpl in Hfind. lia.
Qed.

Context `{Linkage}.

(** The slot [allocproc] hands out, the stack it prepares, and the memory behind it. *)
Definition embryo (n ks : Z) pr : proc :=
  let sp := ks + KSTACKSIZE - sizeof_trapframe in
  set_context (sp - 4 - sizeof_context) (set_tf sp (set_kstack ks
    (set_priority 0 (set_pid n (set_state EMBRYO pr))))).
Definition stack_mem (ks : Z) (m : gmap Z Z) : gmap Z Z :=
  let sp := ks + KSTACKSIZE - sizeof_trapframe - 4 in
  store32 (sp - sizeof_context + context_eip) forkret_addr
    (memset (sp - sizeof_context) 0 sizeof_context (store32 sp trapret_addr m)).

(** The words and the frame of the prepared stack. *)
Lemma stack_eip ks m :
  load32 (stack_mem ks m) (ks + KSTACKSIZE - sizeof_trapframe - 4 - sizeof_context + context_eip)
    = u32 forkret_addr.
Proof. apply load32_store32_eq. Qed.

Lemma stack_ret ks m :
  load32 (stack_mem ks m) (ks + KSTACKSIZE - sizeof_trapframe - 4 - sizeof_context + sizeof_context)
    = u32 trapret_addr.
Proof.
  unfold stack_mem. cbv zeta. unfold sizeof_context, context_eip.
  rewrite load32_store32_ne by lia.
  rewrite (load32_ext (store32 (ks + KSTACKSIZE - sizeof_trapframe - 4) trapret_addr m)).
  - replace (_ - 20 + 20) with (ks + KSTACKSIZE - sizeof_trapframe - 4) by lia. apply load32_store32_eq.
  - intros b Hb. rewrite memset_load8, decide_False by lia. done.
Qed.

Lemma stack_frame ks m a :
  let ctx := ks + KSTACKSIZE - sizeof_trapframe - 4 - sizeof_context in
  ~ ctx <= a < ctx + sizeof_context + 4 -> load8 (stack_mem ks m) a = load8 m a.
Proof.
  intros ctx Ha. unfold ctx, stack_mem, sizeof_context, context_eip in *. cbv zeta.
  rewrite load8_store32, decide_False by lia. rewrite memset_load8, decide_False by lia.
  by rewrite load8_store32, decide_False by lia.
Qed.

(** Updates of a process that is not in a queue, in sequence. *)
Lemma wp_idle_set P {A} f (k : unit -> K A) s Q p pr qs :
  queues_ok (k_pt s) qs -> get_proc p (k_pt s) = Some pr -> state pr <> RUNNABLE ->
  state (f pr) <> RUNNABLE -> 0 <= priority (f pr) < Z.of_nat NPRIO -> next_proc (f pr) = next_proc pr ->
  (forall t, queues_ok t qs -> get_proc p t = Some (f pr) -> pt_proc t = <[p := f pr]> (pt_proc (k_pt s)) ->
    wp P (k tt (set_k_pt t s)) Q) ->
  wp P ((x <- proc_set p f ;; k x) s) Q.
Proof.
  intros Hq Hp ???? Hk. destruct (upd_idle_ok _ _ _ _ f Hq Hp) as (t & E & Hqt & Ht); try done.
  apply wp_proc_set with t; [done|]. apply Hk; [done| |done].
  unfold get_proc in *. rewrite Ht. apply list_lookup_insert_eq. by eapply lookup_lt_Some.
Qed.

(** What [allocproc] leaves alone. *)
Definition alloc_kept s s' : Prop :=
  s' = set_k_hw (k_hw s') (set_k_pt (k_pt s') (set_k_mem (k_mem s') (set_k_freelist (k_freelist s') (set_k_nextpid (k_nextpid s') s)))).

Lemma allocproc_wp P s c L b qs l :
  hw_ok (k_hw s) c L b -> L_ptable ∉ L -> L_kmem ∉ L -> queues_ok (k_pt s) qs -> free_pages s l ->
  wp P (allocproc s) (fun r s' =>
    hw_ok (k_hw s') c L b /\ hw_id (k_hw s') = hw_id (k_hw s) /\ queues_ok (k_pt s') qs /\
    alloc_kept s s' /\
    let unused := fun pr => bool_decide (state pr = UNUSED) in
    match r with
    | None => k_mem s' = k_mem s /\ k_freelist s' = k_freelist s /\
        ((k_pt s' = k_pt s /\ k_nextpid s' = k_nextpid s
           /\ forall j prj, get_proc j (k_pt s) = Some prj -> state prj <> UNUSED)
        \/ (l = [] /\ exists p pr, first_slot unused (k_pt s) p pr /\ k_nextpid s' = i32 (k_nextpid s + 1)
           /\ pt_proc (k_pt s') = <[p := set_state UNUSED (set_kstack 0
                (set_priority 0 (set_pid (k_nextpid s) (set_state EMBRYO pr))))]> (pt_proc (k_pt s))))
    | Some p =>
        exists ks l' pr, l = ks :: l' /\ first_slot unused (k_pt s) p pr
          /\ k_nextpid s' = i32 (k_nextpid s + 1)
          /\ pt_proc (k_pt s') = <[p := embryo (k_nextpid s) ks pr]> (pt_proc (k_pt s))
          /\ k_mem s' = stack_mem ks (k_mem s) /\ k_freelist s' = load32 (k_mem s) ks
    end).
Proof.
  intros Hhw HLp HLk Hq Hf. unfold allocproc. wp_run.
  eapply wp_acquire; [done|done|]. intros h1 Hhw1 Hid1. wp_run.
  change (k_pt (set_k_hw h1 s)) with (k_pt s).
  pose proof (find_first (fun pr => bool_decide (state pr = UNUSED)) (k_pt s)) as Hfind.
  destruct (find_proc _ 0 _) as [p|].
  2:{ eapply wp_release; [done|done|]. intros h2 Hhw2 Hid2. apply wp_ret.
      split_and!; [done|simpl; by rewrite Hid2|done|by destruct s|done|done|]. left. split_and!; [done|done|].
      intros j prj Hj. specialize (Hfind j prj Hj). by apply bool_decide_eq_false in Hfind. }
  destruct Hfind as (pr & Hfirst). pose proof Hfirst as (Hp & Hu & _). apply bool_decide_eq_true in Hu.
  pose proof (prio_bound _ _ _ (proj2 (proj2 Hq)) Hp) as Hb.
  eapply wp_idle_set; [done|done|by rewrite Hu|done|done|done|]. intros t1 Hq1 Hp1 Ht1. wp_run.
  eapply wp_idle_set; [done|done|done|done|done|done|]. intros t2 Hq2 Hp2 Ht2. wp_run.
  eapply wp_idle_set; [done|done|done|done|done|done|]. intros t3 Hq3 Hp3 Ht3.
  eapply wp_release; [done|done|]. intros h2 Hhw2 Hid2.
  set (s3 := set_k_hw h2 _). assert (free_pages s3 l) as Hf3 by done.
  destruct (kalloc_ok s3 l c L b Hhw2 HLk Hf3) as (h3 & E3 & Hhw3 & Hid3).
  rewrite (bind_done _ _ _ _ _ E3). clear E3. change (k_freelist s3) with (k_freelist s).
  change (k_mem s3) with (k_mem s).
  eapply wp_idle_set; [done|done|done|done|done|done|]. intros t4 Hq4 Hp4 Ht4.
  assert (hw_id h3 = hw_id (k_hw s)) as Hid by (rewrite Hid3; simpl; by rewrite Hid2).
  assert (pt_proc t4 = <[p := set_kstack (k_freelist s) (set_priority 0 (set_pid (k_nextpid s)
    (set_state EMBRYO pr)))]> (pt_proc (k_pt s))) as Ht4'.
  { rewrite Ht4. simpl. rewrite Ht3. simpl. rewrite Ht2. simpl. rewrite Ht1. simpl.
    by rewrite !list_insert_insert_eq. }
  clear Ht4. destruct Hf as [Hfl Hnd]. pose proof (freelist_nonzero _ _ _ Hfl) as Hz.
  destruct (Z.eqb_spec (k_freelist s) 0) as [Ez|Ez].
  - eapply wp_idle_set; [done|done|done|done|done|done|]. intros t5 Hq5 Hp5 Ht5. apply wp_ret.
    split_and!; [done|done|done|by destruct s|done|cbn; destruct l; [by rewrite Ez|by apply Hz in Ez]|]. right. split; [by apply Hz|]. exists p, pr. split_and!; [done|done|].
    simpl. rewrite Ht5. simpl. rewrite Ht4', list_insert_insert_eq. by rewrite Ez.
  - destruct l as [|ks l']; [by destruct Ez; apply Hz|]. destruct Hfl as (Eks & Hpg & Hfl).
    eapply wp_idle_set; [done|done|done|done|done|done|]. intros t5 Hq5 Hp5 Ht5. wp_run.
    eapply wp_idle_set; [done|done|done|done|done|done|]. intros t6 Hq6 Hp6 Ht6. wp_run.
    split_and!; [done|done|done|by destruct s|]. exists ks, l', pr. split_and!; [done|done|done| | |].
    + simpl. rewrite Ht6. simpl. rewrite Ht5. simpl. rewrite Ht4', !list_insert_insert_eq, Eks. done.
    + simpl. by rewrite Eks.
    + simpl. by rewrite Eks.
Qed.

End kill_alloc.

(** ** The main properties *)
Section properties.
Implicit Types (s : kernel) (qs : aqueues) (p : nat) (pr : proc) (L : list lockid).

(** C1: One round of [scheduler].  If some queue is not empty, it switches:
    at the switch the CPU runs, in state [RUNNING] and with its page table loaded,
    the first process of the first non-empty queue, which has left that queue,
    and everything else is as before; when a process comes back, the round ends
    with [ptable.lock] released, no current process and the kernel's page table
    loaded.  If all queues are empty, the round ends with interrupts on and
    nothing changed, without a switch. *)
Theorem scheduler_dispatches c b s qs :
  hw_ok (k_hw s) c [] b -> queues_ok (k_pt s) qs -> switchable (k_pt s) ->
  ((exists j, (j < NPRIO)%nat /\ qs j <> []) ->
    switches (dispatched c s qs) (came_back c) (scheduler_round c s)
      (fun s' o => wp atomic o (fun _ => in_scheduler c [] s'))) /\
  ((forall j, (j < NPRIO)%nat -> qs j = []) ->
    wp atomic (scheduler_round c s) (fun _ s' => exists h, s' = set_k_hw h s /\ hw_ok h c [] true /\ hw_id h = hw_id (k_hw s))).
Proof. intros Hhw Hq Hsw. split; intros Hj; [by eapply scheduler_round_switches|by eapply scheduler_round_none]. Qed.

(** C5: [yield] switches exactly once.  At the switch the process is runnable again, one priority level
    lower unless it was at the lowest, with no ticks charged, and last in the
    queue of its new level, and nothing else has changed; resumed, [yield] returns with
    no lock held and interrupts as before, having changed nothing but the locks. *)
Theorem yield_demotes s c b p pr qs :
  at_proc s c [] b p pr qs -> state pr = RUNNING ->
  switches (fun s1 => at_switch p c b s s1 /\
        queues_ok (k_pt s1) (aenqueue (Z.to_nat (priority (demote pr))) p qs) /\
        pt_data (k_pt s1) = <[p := data (set_state RUNNABLE (demote pr))]> (pt_data (k_pt s)))
    (resumed p) (yield s)
    (fun s' o => wp atomic o (fun _ s'' => returned p [] b s'' /\ exists h, s'' = set_k_hw h s')).
Proof. apply yield_once. Qed.

(** C28: [sleep(chan, lk)] switches exactly once.  At the switch the process sleeps on [chan], [lk] has
    been released, and the queues and all other data are unchanged; resumed, after the process
    has been made runnable and chosen, it returns with [lk] held again and no channel. *)
Theorem sleep_switches s c b p pr qs ch lk :
  at_proc s c [lk] b p pr qs -> state pr = RUNNING ->
  switches (fun s1 => at_switch p c b s s1 /\ queues_ok (k_pt s1) qs /\
        pt_data (k_pt s1) = <[p := data (set_state SLEEPING (set_p_chan ch pr))]> (pt_data (k_pt s)))
    (resumed p) (sleep ch (Some lk) s)
    (fun s' o => wp atomic o (fun _ s'' => (exists h t, s'' = set_k_hw h (set_k_pt t s')) /\
       exists c' pr' qs', at_proc s'' c' [lk] b p pr' qs' /\ state pr' = RUNNING /\ p_chan pr' = None)).
Proof. apply sleep_once. Qed.

(** C30: [kill(pid)] for a [pid] that no unused slot of the table carries.  If a
    process has that number, the first one is marked and, if it sleeps, made
    runnable, and the result is 0; if there is none, the result is -1 and nothing
    changes.  It returns with the locks it was called with.  (An unused
    slot is not skipped: see [kill_zero_poisons].) *)
Theorem kill_marks i s c L b qs :
  hw_ok (k_hw s) c L b -> L_ptable ∉ L -> queues_ok (k_pt s) qs ->
  (forall j prj, get_proc j (k_pt s) = Some prj -> state prj = UNUSED -> pid prj <> i) ->
  wp atomic (kill i s) (fun r s' => exists h t, s' = set_k_hw h (set_k_pt t s) /\ hw_ok h c L b /\
    hw_id h = hw_id (k_hw s) /\
    ((r = -1 /\ t = k_pt s /\ forall j prj, get_proc j t = Some prj -> state prj <> UNUSED -> pid prj <> i)
     \/ (r = 0 /\ exists p pr, state pr <> UNUSED /\ first_slot (fun prj => pid prj =? i) (k_pt s) p pr
         /\ pt_data t = <[p := data (killed_proc pr)]> (pt_data (k_pt s))
         /\ queues_ok t (if decide (state pr = SLEEPING)
                         then aenqueue (Z.to_nat (priority pr)) p qs else qs)))).
Proof.
  intros Hhw HL Hq Hfree. eapply wp_mono; [by eapply kill_wp|]. intros r s' (h & t & -> & Hh & Hid & Hr).
  exists h, t. split_and!; [done..|]. destruct Hr as [(-> & -> & Hno)|(-> & p & pr & Hf & Hd & Hqt)]; [left; by split_and!; [..|eauto]|].
  right. split; [done|]. exists p, pr. split_and!; try done. intros Hu. destruct Hf as (Hp & Ei & _).
  by apply (Hfree p pr Hp Hu), Z.eqb_eq.
Qed.

Context `{Linkage}.

(** [allocproc] takes the first unused slot and the next process number, at
    the top priority, with a stack from [kalloc] on which the context resumes
    at [forkret] and returns to [trapret]; without a slot it changes nothing,
    and without a page it frees the slot again.  The queues never change. *)
Theorem allocproc_slot s c L b qs l :
  hw_ok (k_hw s) c L b -> L_ptable ∉ L -> L_kmem ∉ L -> queues_ok (k_pt s) qs -> free_pages s l ->
  wp atomic (allocproc s) (fun r s' =>
    hw_ok (k_hw s') c L b /\ queues_ok (k_pt s') qs /\
    let unused := fun pr => bool_decide (state pr = UNUSED) in
    match r with
    | None =>
        (k_pt s' = k_pt s /\ k_nextpid s' = k_nextpid s
           /\ forall j prj, get_proc j (k_pt s) = Some prj -> state prj <> UNUSED)
        \/ (l = [] /\ exists p pr, first_slot unused (k_pt s) p pr /\ k_nextpid s' = i32 (k_nextpid s + 1)
           /\ pt_proc (k_pt s') = <[p := set_state UNUSED (set_kstack 0
                (set_priority 0 (set_pid (k_nextpid s) (set_state EMBRYO pr))))]> (pt_proc (k_pt s)))
    | Some p =>
        exists ks l' pr, l = ks :: l' /\ first_slot unused (k_pt s) p pr
          /\ k_nextpid s' = i32 (k_nextpid s + 1)
          /\ pt_proc (k_pt s') = <[p := embryo (k_nextpid s) ks pr]> (pt_proc (k_pt s))
          /\ (let ctx := ks + KSTACKSIZE - sizeof_trapframe - 4 - sizeof_context in
              load32 (k_mem s') (ctx + context_eip) = u32 forkret_addr /\
              load32 (k_mem s') (ctx + sizeof_context) = u32 trapret_addr /\
              forall a, ~ ctx <= a < ctx + sizeof_context + 4 -> load8 (k_mem s') a = load8 (k_mem s) a)
    end).
Proof.
  intros Hhw HL HLk Hq Hf. eapply wp_mono; [by eapply allocproc_wp|].
  intros r s' (Hhw' & _ & Hq' & _ & Hr). split_and!; [done..|]. destruct r as [p|]; [|by destruct Hr as (_ & _ & ?)].
  destruct Hr as (ks & l' & pr & -> & Hs & Hn & Ht & Hm & _).
  exists ks, l', pr. split_and!; [done..|]. cbv zeta. rewrite Hm.
  split_and!; [apply stack_eip|apply stack_ret|intros; by apply stack_frame].
Qed.

(** [kill(0)] finds an unused slot, whose process number is 0, and returns
    success; as [allocproc] does not clear [killed], the next process that
    gets the slot is born killed. *)
Theorem kill_zero_poisons s c L b qs p pr l :
  hw_ok (k_hw s) c L b -> L_ptable ∉ L -> L_kmem ∉ L -> queues_ok (k_pt s) qs ->
  free_pages s l -> l <> [] ->
  first_slot (fun pr => bool_decide (state pr = UNUSED)) (k_pt s) p pr -> pid pr = 0 ->
  (forall j prj, get_proc j (k_pt s) = Some prj -> state prj <> UNUSED -> pid prj <> 0) ->
  wp atomic ((r <- kill 0 ;; q <- allocproc ;; ret (r, q)) s)
    (fun '(r, q) s' => r = 0 /\ q = Some p /\
       exists pr', get_proc p (k_pt s') = Some pr' /\ state pr' = EMBRYO /\ killed pr' = 1).
Proof.
  intros Hhw HL HLk Hq Hf Hl Hfirst Hpid Hall.
  assert (first_slot (fun prj => pid prj =? 0) (k_pt s) p pr) as Hz.
  { destruct Hfirst as (Hp & Hu & Hb). split_and!; [done|by rewrite Hpid|].
    intros j prj Hj Hpj. apply Z.eqb_neq, (Hall j prj Hpj). specialize (Hb j prj Hj Hpj).
    by apply bool_decide_eq_false in Hb. }
  pose proof (proj1 (proj2 Hfirst)) as Hu. apply bool_decide_eq_true in Hu.
  apply wp_bind. eapply wp_mono; [by eapply kill_wp|].
  intros r s1 (h & t & -> & Hhw1 & Hid1 & Hr). destruct Hr as [(-> & -> & Hno)|(-> & p' & pr' & Hf' & Hd & Hq1)].
  { destruct Hz as (Hp & E & _). by destruct (Hno p pr Hp). }
  destruct (first_slot_inj _ _ _ _ _ _ Hf' Hz) as [-> ->].
  rewrite decide_False in Hq1 by (rewrite Hu; done).
  apply wp_bind. eapply wp_mono; [eapply (allocproc_wp _ (set_k_hw h (set_k_pt t s))); try done|].
  intros q s2 (_ & _ & _ & _ & Hq2). apply wp_ret. split; [done|].
  assert (killed_proc pr' = set_killed 1 pr') as Ek by (unfold killed_proc; by rewrite decide_False by (rewrite Hu; done)).
  rewrite Ek in Hd.
  destruct (pt_data_lookup_inv t p' (data (set_killed 1 pr'))) as (pr1 & Hp1 & E1).
  { rewrite Hd. apply list_lookup_insert_eq. rewrite pt_data_length. apply (lookup_lt_Some _ _ _ (proj1 Hf')). }
  assert (first_slot (fun pr => bool_decide (state pr = UNUSED)) t p' pr1) as Hf1.
  { apply (first_slot_data _ _ _ p' pr' pr1 _ Hd); try done.
    - intros x y E. by injection E as _ _ _ ->.
    - injection E1 as _ _ _ E _. simpl. rewrite <- E. by apply bool_decide_eq_true. }
  destruct q as [q|].
  - destruct Hq2 as (ks & l' & pr2 & -> & Hf2 & _ & Ht2 & _).
    destruct (first_slot_inj _ _ _ _ _ _ Hf1 Hf2) as [-> ->]. split; [done|].
    exists (embryo (k_nextpid s) ks pr1). split_and!; [|done|].
    + unfold get_proc. rewrite Ht2. apply list_lookup_insert_eq. by eapply lookup_lt_Some.
    + simpl. by injection E1.
  - destruct Hq2 as (_ & _ & Hq2). destruct Hq2 as [(_ & _ & Hno)|(-> & _)]; [|done]. by destruct (Hno p' pr1 Hp1), Hf1 as (_ & ?%bool_decide_eq_true & _).
Qed.

End properties.

(** A machine that runs process 0 of [demo_ptable], or the scheduler. *)
Definition demo_kernel (L : list lockid) (po : option nat) : kernel :=
  set_k_pt demo_ptable (set_k_hw (demo_hw L true po) (demo_kalloc L)).

Lemma demo_at_proc L : NoDup L ->
  at_proc (demo_kernel L (Some 0%nat)) 0 L true 0 (demo_proc RUNNING 1 0 None None) (qs_of demo_queues).
Proof. intros HL. split; [by apply demo_hw_ok|done|done|apply demo_queues_ok]. Qed.

Lemma demo_switchable : switchable demo_ptable.
Proof.
  intros p pr Hp Hst. do 5 (destruct p as [|p]; [by injection Hp as <-|]).
  change (replicate 59 proc_zero !! p = Some pr) in Hp. apply lookup_replicate in Hp as [-> _]. done.
Qed.

Lemma scheduler_dispatches_witness :
  switches (fun s1 => on_cpu 1 0 true s1 (fun st => st = RUNNING)) (came_back 0) (scheduler_round 0 (demo_kernel [] None))
    (fun s' o => wp atomic o (fun _ => in_scheduler 0 [] s')).
Proof.
  eapply switches_mono; [apply (scheduler_dispatches 0 true (demo_kernel [] None) (qs_of demo_queues))| |intros s Hs; exact Hs|intros s o _ Ho; exact Ho].
  - apply demo_hw_ok, NoDup_nil_2.
  - apply demo_queues_ok.
  - apply demo_switchable.
  - exists 1%nat. split; [vm_compute; lia|discriminate].
  - intros s1 (p & i & rest & pr & Hi & Hlow & Hq & _ & Hon & _).
    destruct i as [|[|i]]; [discriminate Hq|injection Hq as <- _; exact Hon|]. discriminate (Hlow 1%nat ltac:(lia)).
Defined.

Lemma yield_demotes_witness :
  switches (fun s1 => queues_ok (k_pt s1) (aenqueue 1 0 (qs_of demo_queues)) /\
        pt_data (k_pt s1) = <[0%nat := demo_proc RUNNABLE 1 1 None None]> (pt_data demo_ptable))
     (resumed 0) (yield (demo_kernel [] (Some 0%nat))) (fun _ o => wp atomic o (fun _ s' => returned 0 [] true s')).
Proof.
  eapply switches_mono; [apply (yield_demotes (demo_kernel [] (Some 0%nat)) 0 true 0 (demo_proc RUNNING 1 0 None None))| |done|].
  - apply demo_at_proc, NoDup_nil_2.
  - reflexivity.
  - intros s1 [_ Hs1]. exact Hs1.
  - intros s o _ Ho. eapply wp_mono; [exact Ho|]. by intros [] s' [? _].
Defined.

Lemma sleep_switches_witness :
  switches (fun s1 => pt_data (k_pt s1) = <[0%nat := demo_proc SLEEPING 1 0 (Some C_ticks) None]> (pt_data demo_ptable))
     (resumed 0) (sleep (Some C_ticks) (Some L_tickslock) (demo_kernel [L_tickslock] (Some 0%nat)))
     (fun _ o => wp atomic o (fun _ s' => exists c' pr' qs', at_proc s' c' [L_tickslock] true 0 pr' qs' /\ state pr' = RUNNING
        /\ p_chan pr' = None)).
Proof.
  eapply switches_mono; [apply (sleep_switches (demo_kernel [L_tickslock] (Some 0%nat)) 0 true 0
    (demo_proc RUNNING 1 0 None None) (qs_of demo_queues) (Some C_ticks) L_tickslock)| |done|].
  - apply demo_at_proc, NoDup_singleton.
  - reflexivity.
  - by intros s1 (_ & _ & Hd).
  - intros s o _ Ho. eapply wp_mono; [exact Ho|]. by intros [] s' [_ ?].
Defined.

Lemma kill_marks_witness :
  wp atomic (kill 4 (demo_kernel [] (Some 0%nat))) (fun r s' => r = 0 /\
    pt_data (k_pt s') = <[3%nat := set_killed 1 (demo_proc RUNNABLE 4 0 (Some C_ticks) None)]> (pt_data demo_ptable)).
Proof.
  eapply wp_mono; [apply (kill_marks 4 (demo_kernel [] (Some 0%nat)) 0 [] true (qs_of demo_queues))|].
  - apply demo_hw_ok, NoDup_nil_2.
  - apply not_elem_of_nil.
  - apply demo_queues_ok.
  - intros j prj Hp Hu. do 5 (destruct j as [|j]; [by injection Hp as <-|]).
    change (replicate 59 proc_zero !! j = Some prj) in Hp. by apply lookup_replicate in Hp as [-> _].
  - intros r s' (h & t & -> & _ & _ & Hr).
    assert (first_slot (fun prj => pid prj =? 4) demo_ptable 3 (demo_proc SLEEPING 4 0 (Some C_ticks) None)) as Hf.
    { split_and!; [done|done|]. intros j prj Hj Hp. do 3 (destruct j as [|j]; [by injection Hp as <-|]). lia. }
    destruct Hr as [(_ & -> & Hno)|(-> & p & pr & _ & Hf' & Hd & _)]; [by destruct (Hno 3%nat _ (proj1 Hf))|].
    destruct (first_slot_inj _ _ _ _ _ _ Hf Hf') as [-> ->]. split; [reflexivity|exact Hd].
Defined.

Lemma allocproc_slot_witness :
  wp atomic (@allocproc demo_linkage (demo_kernel [] (Some 0%nat)))
    (fun _ s' => queues_ok (k_pt s') (qs_of demo_queues)).
Proof.
  eapply wp_mono; [apply (@allocproc_slot demo_linkage (demo_kernel [] (Some 0%nat)) 0 [] true
    (qs_of demo_queues) [0x80300000; 0x80301000])|].
  - apply demo_hw_ok, NoDup_nil_2.
  - apply not_elem_of_nil.
  - apply not_elem_of_nil.
  - apply demo_queues_ok.
  - apply demo_free_pages.
  - by intros r s' (_ & ? & _).
Defined.

Lemma kill_zero_poisons_witness :
  wp atomic ((r <- kill 0 ;; q <- @allocproc demo_linkage ;; ret (r, q)) (demo_kernel [] (Some 0%nat)))
    (fun '(r, q) s' => r = 0 /\ q = Some 5%nat /\
       exists pr', get_proc 5 (k_pt s') = Some pr' /\ state pr' = EMBRYO /\ killed pr' = 1).
Proof.
  apply (@kill_zero_poisons demo_linkage (demo_kernel [] (Some 0%nat)) 0 [] true (qs_of demo_queues)
    5 proc_zero [0x80300000; 0x80301000]).
  - apply demo_hw_ok, NoDup_nil_2.
  - apply not_elem_of_nil.
  - apply not_elem_of_nil.
  - apply demo_queues_ok.
  - apply demo_free_pages.
  - done.
  - split_and!; [done|done|]. intros j prj Hj Hp. do 5 (destruct j as [|j]; [by injection Hp as <-|]). lia.
  - reflexivity.
  - intros j prj Hp Hs. do 5 (destruct j as [|j]; [by injection Hp as <-|]).
    change (replicate 59 proc_zero !! j = Some prj) in Hp.
    apply lookup_replicate in Hp as [-> _]. done.
Defined.
