(* ===== verification/Policy.v ===== *)
(** * The scheduling policy

    The critical sections of [kernel/proc.c] as steps on the process table: a
    process that is not queued changes, data of any process that the queues do
    not depend on change (its [killed] flag, its [parent]), a process is
    enqueued, the scheduler takes the head of the first non-empty queue, [priority_boost] runs.  The
    theorems follow a process through an arbitrary sequence of such steps:
    the queue invariant is preserved, processes leave a queue in the order
    they entered it, and after a boost every runnable process is dispatched
    within [NPROC] dispatches. *)
From S2P Require Import Prelude Types Queue.

Inductive event := EUpdate (p : nat) | EMark (p : nat) | EEnqueue (p : nat) | EPick (p : nat) | EBoost.
#[export] Instance event_eq_dec : EqDecision event.
Proof. solve_decision. Defined.

(** [scheduler]'s choice: the first process of the first non-empty queue. *)
Fixpoint first_proc (l : list (option nat)) : option nat :=
  match l with
  | [] => None
  | Some p :: _ => Some p
  | None :: l' => first_proc l'
  end.

(** One critical section, or one of its statements: [step_update] for [allocproc],
    [fork], [sleep], [exit], [wait] and [yield] on a process that is in no queue,
    [step_mark] for [kill] and the reparenting of [exit] on any process. *)
Inductive pt_step : ptable -> event -> ptable -> Prop :=
  | step_update t p pr f t' :
      get_proc p t = Some pr -> state pr <> RUNNABLE -> state (f pr) <> RUNNABLE ->
      0 <= priority (f pr) < Z.of_nat NPRIO -> next_proc (f pr) = next_proc pr ->
      upd_proc p f t = Some t' -> pt_step t (EUpdate p) t'
  | step_mark t p pr f t' :
      get_proc p t = Some pr -> state (f pr) = state pr -> priority (f pr) = priority pr ->
      next_proc (f pr) = next_proc pr -> upd_proc p f t = Some t' -> pt_step t (EMark p) t'
  | step_enqueue t p pr t' :
      get_proc p t = Some pr -> state pr <> RUNNABLE -> enqueue p t = Some t' ->
      pt_step t (EEnqueue p) t'
  | step_pick t p t' t'' :
      first_proc (queue_first t) = Some p -> dequeue p t = Some t' ->
      upd_proc p (set_state RUNNING) t' = Some t'' -> pt_step t (EPick p) t''
  | step_boost t t' : boost t = Some t' -> pt_step t EBoost t'.

Inductive pt_steps : ptable -> list event -> ptable -> Prop :=
  | steps_nil t : pt_steps t [] t
  | steps_cons t e t1 tr t2 : pt_step t e t1 -> pt_steps t1 tr t2 -> pt_steps t (e :: tr) t2.

(** The number of dispatches in a trace. *)
Fixpoint picks (tr : list event) : nat :=
  match tr with
  | [] => 0
  | EPick _ :: tr' => S (picks tr')
  | _ :: tr' => picks tr'
  end.

(** The steps of a trace, executed; an [EUpdate] or [EMark] needs a new value, and is not. *)
Definition exec (e : event) (t : ptable) : option ptable :=
  match e with
  | EUpdate _ | EMark _ => None
  | EEnqueue p =>
      pr ← get_proc p t;
      if decide (state pr = RUNNABLE) then None else enqueue p t
  | EPick p =>
      if decide (first_proc (queue_first t) = Some p) then
        t ← dequeue p t; upd_proc p (set_state RUNNING) t
      else None
  | EBoost => boost t
  end.
Fixpoint exec_all (tr : list event) (t : ptable) : option ptable :=
  match tr with
  | [] => Some t
  | e :: tr' => t ← exec e t; exec_all tr' t
  end.

Lemma exec_step e t t' : exec e t = Some t' -> pt_step t e t'.
Proof.
  destruct e as [p|p|p|p|]; simpl; [done..| | |].
  - destruct (get_proc p t) as [pr|] eqn:Ep; simpl; [|done]. case_decide; [done|]. intros E. by econstructor.
  - case_decide as Ef; [|done]. destruct (dequeue p t) as [t1|] eqn:E1; simpl; [|done].
    intros E2. by econstructor.
  - intros E. by constructor.
Qed.

Lemma exec_all_steps tr : forall t t', exec_all tr t = Some t' -> pt_steps t tr t'.
Proof.
  induction tr as [|e tr IH]; intros t t'; simpl; [intros [= ->]; constructor|].
  destruct (exec e t) as [t1|] eqn:E; simpl; [|done]. intros Et. econstructor; [by apply exec_step|auto].
Qed.

Section policy.
Implicit Types (t : ptable) (qs : aqueues) (p q k i : nat) (e : event) (tr : list event).

Lemma first_proc_spec qs n : forall m l,
  (forall k, (k < n)%nat -> l !! k = Some (qs (m + k)%nat !! 0%nat)) -> length l = n ->
  match first_proc l with
  | Some p => exists i rest, (m <= i < m + n)%nat /\ (forall j, (m <= j < i)%nat -> qs j = []) /\ qs i = p :: rest
  | None => forall j, (m <= j < m + n)%nat -> qs j = []
  end.
Proof.
  induction n as [|n IH]; intros m [|x l] Hl Hn; simplify_eq/=; [intros; lia|].
  pose proof (Hl 0%nat ltac:(lia)) as H0. simpl in H0. injection H0 as ->. rewrite Nat.add_0_r.
  destruct (qs m) as [|y rest] eqn:Em; simpl.
  - specialize (IH (S m) l). destruct (first_proc l) as [p|].
    + destruct IH as (i & rest & Hi & Hb & Hq); [|done|].
      { intros k Hk. specialize (Hl (S k) ltac:(lia)). by replace (S m + k)%nat with (m + S k)%nat by lia. }
      exists i, rest. split_and!; [lia|lia| |done]. intros j Hj.
      destruct (decide (j = m)) as [->|]; [done|]. apply Hb. lia.
    + intros j Hj. destruct (decide (j = m)) as [->|]; [done|]. apply IH; [|done|lia].
      intros k Hk. specialize (Hl (S k) ltac:(lia)). by replace (S m + k)%nat with (m + S k)%nat by lia.
  - exists m, rest. split_and!; [lia|lia|lia|done].
Qed.

Lemma first_proc_queues t qs p :
  links_ok t qs -> first_proc (queue_first t) = Some p ->
  exists i rest, (i < NPRIO)%nat /\ (forall j, (j < i)%nat -> qs j = []) /\ qs i = p :: rest.
Proof.
  intros H E. pose proof (first_proc_spec qs NPRIO 0 (queue_first t)) as Hf. rewrite E in Hf.
  destruct Hf as (i & rest & Hi & Hb & Hq); [apply (lo_head _ _ H)|apply (lo_firsts _ _ H)|].
  exists i, rest. split_and!; [lia| |done]. intros. apply Hb. lia.
Qed.

(** The queues after a step. *)
Inductive astep : aqueues -> event -> aqueues -> Prop :=
  | astep_update qs p : astep qs (EUpdate p) qs
  | astep_mark qs p : astep qs (EMark p) qs
  | astep_enqueue qs i p : (i < NPRIO)%nat -> astep qs (EEnqueue p) (aenqueue i p qs)
  | astep_pick qs i p rest : (i < NPRIO)%nat -> (forall j, (j < i)%nat -> qs j = []) ->
      qs i = p :: rest -> astep qs (EPick p) (adequeue i p qs)
  | astep_boost qs : astep qs EBoost (aboost qs).

Lemma step_simulated t e t' qs :
  pt_step t e t' -> queues_ok t qs -> exists qs', astep qs e qs' /\ queues_ok t' qs'.
Proof.
  intros Hs Hok. destruct Hs as [t p pr f t' Hp Hs Hs' Hb Hn E|t p pr f t' Hp Hs Hb Hn E|t p pr t' Hp Hs E|t p t' t'' Ef E E'|t t' E].
  - destruct (upd_idle_ok t qs p pr f) as (t1 & E1 & Hok1 & _); try done.
    assert (t1 = t') as -> by congruence. exists qs. split; [constructor|done].
  - destruct (upd_data_ok t qs p pr f) as (t1 & E1 & Hok1 & _); try done.
    assert (t1 = t') as -> by congruence. exists qs. split; [constructor|done].
  - destruct (enqueue_ok t qs p pr) as (t1 & E1 & Hok1 & _); try done.
    assert (t1 = t') as -> by congruence. eexists. split; [constructor|done].
    pose proof (prio_bound t p pr (proj2 (proj2 Hok)) Hp). lia.
  - destruct (first_proc_queues t qs p (proj1 Hok) Ef) as (i & rest & Hi & Hb & Hq).
    destruct (dequeue_run_ok t qs p i) as (t1 & t2 & pr & E1 & E2 & _ & _ & Hok2 & _);
      [done|done|rewrite Hq; left|].
    assert (t1 = t') as -> by congruence. assert (t2 = t'') as -> by congruence.
    exists (adequeue i p qs). split; [by econstructor|done].
  - destruct (boost_queues_ok t qs Hok) as (t1 & E1 & Hok1 & _).
    assert (t1 = t') as -> by congruence. exists (aboost qs). split; [constructor|done].
Qed.

(** A process in the top queue only moves towards its head. *)
Lemma astep_position qs e qs' p k :
  astep qs e qs' -> NoDup (qs 0%nat) -> qs 0%nat !! k = Some p ->
  e = EPick p \/
  (exists q k', e = EPick q /\ k = S k' /\ qs' 0%nat !! k' = Some p) \/
  (picks [e] = 0%nat /\ qs' 0%nat !! k = Some p).
Proof.
  intros Hs Hnd Hk. destruct Hs as [qs q|qs q|qs i q Hi|qs i q rest Hi Hb Hq|qs].
  - right. right. done.
  - right. right. done.
  - right. right. split; [done|]. unfold aenqueue. case_decide; [subst i|done]. by apply lookup_app_l_Some.
  - destruct i as [|i]; [|specialize (Hb 0%nat ltac:(lia)); by rewrite Hb in Hk].
    rewrite Hq in Hk, Hnd. apply NoDup_cons in Hnd as [Hni Hnd]. destruct k as [|k].
    + left. by injection Hk as ->.
    + right. left. exists q, k. split_and!; [done..|]. unfold adequeue. rewrite decide_True by done.
      rewrite Hq, filter_cons_False by tauto. rewrite filter_all; [done|]. intros x Hx ->. done.
  - right. right. split; [done|]. unfold aboost. rewrite decide_True by done. by apply lookup_app_l_Some.
Qed.

Lemma top_queue_dispatched t tr t' : pt_steps t tr t' -> forall qs k p,
  queues_ok t qs -> qs 0%nat !! k = Some p -> (k < picks tr)%nat -> EPick p ∈ tr.
Proof.
  induction 1 as [t|t e t1 tr t2 Hs _ IH]; intros qs k p Hok Hk Hn; [simpl in Hn; lia|].
  destruct (step_simulated t e t1 qs Hs Hok) as (qs1 & Ha & Hok1).
  assert (NoDup (qs 0%nat)) as Hnd by (apply (lo_nodup _ _ (proj1 Hok)); unfold NPRIO; lia).
  destruct (astep_position qs e qs1 p k Ha Hnd Hk) as [->|[(q & k' & -> & -> & Hk')|[Hnp Hk']]].
  - left.
  - right. apply (IH qs1 k'); [done|done|]. simpl in Hn. lia.
  - right. apply (IH qs1 k); [done|done|]. by destruct e.
Qed.

End policy.

(** The table at boot. *)
Lemma boot_queues_ok : queues_ok ptable_zero aempty.
Proof.
  apply (queues_ok_ext _ (qs_of [[]; []; []])).
  - apply queues_check_ok. by vm_compute.
  - intros i Hi. unfold NPRIO in Hi. do 3 (destruct i as [|i]; [done|]). lia.
Qed.

Lemma steps_queues_ok t tr t' : pt_steps t tr t' -> forall qs, queues_ok t qs -> exists qs', queues_ok t' qs'.
Proof.
  induction 1 as [t|t e t1 tr t2 Hs _ IH]; intros qs Hok; [by exists qs|].
  destruct (step_simulated t e t1 qs Hs Hok) as (qs1 & _ & Hok1). by apply (IH qs1).
Qed.

(** ** The main properties *)
Section properties.
Implicit Types (t : ptable) (qs : aqueues) (p q : nat) (pr : proc) (tr : list event).

(** C3: From boot, whatever sequence of critical sections runs, the linked queues
    are in order: each holds exactly the runnable processes of its priority,
    once each, linked from [queue_first] to [queue_last]; and every further
    critical section succeeds, none following a wild pointer. *)
Theorem queues_invariant tr t :
  pt_steps ptable_zero tr t ->
  exists qs, queues_ok t qs /\
    (forall p pr, get_proc p t = Some pr -> state pr = RUNNABLE -> p ∈ qs (Z.to_nat (priority pr))) /\
    (forall p pr, get_proc p t = Some pr -> state pr <> RUNNABLE -> exists t', pt_step t (EEnqueue p) t') /\
    (forall p, first_proc (queue_first t) = Some p -> exists t', pt_step t (EPick p) t') /\
    (exists t', pt_step t EBoost t').
Proof.
  intros Hs. destruct (steps_queues_ok _ _ _ Hs aempty boot_queues_ok) as [qs Hok].
  exists qs. split_and!; [done|..].
  - intros p pr Hp Hst. pose proof (prio_bound t p pr (proj2 (proj2 Hok)) Hp).
    apply (proj1 (proj2 Hok) _ p (data pr)); [lia|by apply pt_data_lookup|]. simpl. by rewrite Z2Nat.id by lia.
  - intros p pr Hp Hst. destruct (enqueue_ok t qs p pr Hok Hp Hst) as (t' & E & _).
    exists t'. by econstructor.
  - intros p Hp. destruct (first_proc_queues t qs p (proj1 Hok) Hp) as (i & rest & Hi & _ & Hq).
    destruct (dequeue_run_ok t qs p i) as (t1 & t2 & _ & E1 & E2 & _); [done|done|rewrite Hq; left|].
    exists t2. by econstructor.
  - destruct (boost_queues_ok t qs Hok) as (t' & E & _). exists t'. by constructor.
Qed.

(** C25: The process [scheduler] picks is runnable, no runnable process has a
    better priority, and among those of its priority it is the first in line. *)
Theorem pick_highest_priority t qs p t' :
  queues_ok t qs -> pt_step t (EPick p) t' ->
  exists pr, get_proc p t = Some pr /\ state pr = RUNNABLE /\
    (forall q prq, get_proc q t = Some prq -> state prq = RUNNABLE -> priority pr <= priority prq) /\
    qs (Z.to_nat (priority pr)) !! 0%nat = Some p /\
    exists pr', get_proc p t' = Some pr' /\ state pr' = RUNNING.
Proof.
  intros Hok Hs. inversion Hs as [| | |t0 p0 t1 t2 Ef E1 E2|]; subst.
  destruct (first_proc_queues t qs p (proj1 Hok) Ef) as (i & rest & Hi & Hb & Hq).
  destruct (dequeue_run_ok t qs p i) as (t1' & t2' & pr & E1' & E2' & Hp & Hst & _ & Hd); [done|done|rewrite Hq; left|].
  assert (t2' = t') as -> by congruence.
  assert (p ∈ qs i) as Hin by (rewrite Hq; left).
  apply (proj1 (proj2 Hok) i p (data pr) Hi (pt_data_lookup _ _ _ Hp)) in Hin as [_ Hpi]. simpl in Hpi.
  exists pr. split_and!; [done|done| | |].
  - intros q prq Hq' Hstq. pose proof (prio_bound t q prq (proj2 (proj2 Hok)) Hq').
    destruct (decide (priority pr <= priority prq)) as [|Hlt]; [done|exfalso].
    assert (q ∈ qs (Z.to_nat (priority prq))) as Hin'.
    { apply (proj1 (proj2 Hok) _ q (data prq)); [lia|by apply pt_data_lookup|]. simpl. by rewrite Z2Nat.id by lia. }
    rewrite Hb in Hin' by lia. by apply elem_of_nil in Hin'.
  - by rewrite Hpi, Nat2Z.id, Hq.
  - destruct (pt_data_lookup_inv t' p (data (set_state RUNNING pr))) as (pr' & Hp' & E').
    { rewrite Hd. apply list_lookup_insert_eq. rewrite pt_data_length. by eapply lookup_lt_Some. }
    exists pr'. split; [done|]. by injection E'.
Qed.

(** C4: No starvation: after a priority boost, every runnable process is chosen
    by [scheduler] within [NPROC] dispatches, whatever processes are changed, marked,
    enqueued or boosted meanwhile. *)
Theorem boost_no_starvation t t1 tr t2 qs p pr :
  queues_ok t qs -> get_proc p t = Some pr -> state pr = RUNNABLE ->
  pt_step t EBoost t1 -> pt_steps t1 tr t2 -> (NPROC <= picks tr)%nat -> EPick p ∈ tr.
Proof.
  intros Hok Hp Hst Hb Htr Hn. inversion Hb as [| | | |t0 t0' E]; subst.
  destruct (boost_queues_ok t qs Hok) as (t1' & E' & Hok1 & Hd). assert (t1' = t1) as -> by congruence.
  assert (p ∈ aboost qs 0%nat) as Hin.
  { apply (proj1 (proj2 Hok1) 0%nat p (set_priority 0 (data pr))); [unfold NPRIO; lia| |done].
    rewrite Hd. unfold get_proc in Hp. by rewrite list_lookup_fmap, (pt_data_lookup _ _ _ Hp). }
  apply list_elem_of_lookup_1 in Hin as [k Hk].
  apply (top_queue_dispatched t1 tr t2 Htr (aboost qs) k p Hok1 Hk).
  pose proof (queue_length t1 (aboost qs) 0 (proj1 Hok1) ltac:(unfold NPRIO; lia)).
  apply lookup_lt_Some in Hk. lia.
Qed.

End properties.

Lemma queues_invariant_witness :
  exists t, pt_steps ptable_zero [EUpdate 0; EEnqueue 0; EMark 0; EPick 0; EBoost] t /\ exists qs, queues_ok t qs.
Proof.
  eexists. match goal with |- ?A /\ _ => assert A as H end.
  - eapply steps_cons; [eapply (step_update _ 0 proc_zero (set_state EMBRYO)); try done; by vm_compute|].
    eapply steps_cons; [eapply (step_enqueue _ 0); [by vm_compute|by vm_compute|by vm_compute]|].
    eapply steps_cons; [eapply (step_mark _ 0 _ (set_killed 1)); by vm_compute|].
    eapply steps_cons; [eapply step_pick; by vm_compute|].
    eapply steps_cons; [eapply step_boost; by vm_compute|]. apply steps_nil.
  - split; [exact H|]. destruct (queues_invariant _ _ H) as (qs & Hq & _). by exists qs.
Defined.

Lemma pick_highest_priority_witness : exists t', pt_step demo_ptable (EPick 1) t' /\
  exists pr, get_proc 1 demo_ptable = Some pr /\
  forall q prq, get_proc q demo_ptable = Some prq -> state prq = RUNNABLE -> priority pr <= priority prq.
Proof.
  eexists. match goal with |- ?A /\ _ => assert A as H end.
  - eapply step_pick; by vm_compute.
  - split; [exact H|].
    destruct (pick_highest_priority _ _ _ _ demo_queues_ok H) as (pr & Hp & _ & Hq & _). by exists pr.
Defined.

Lemma boost_no_starvation_witness :
  let tr := mjoin (replicate 22 [EPick 1; EEnqueue 1; EPick 2; EEnqueue 2; EPick 4; EEnqueue 4]) in
  exists t1 t2, pt_step demo_ptable EBoost t1 /\ pt_steps t1 tr t2 /\ EPick 4 ∈ tr.
Proof.
  intros tr. destruct (boost demo_ptable) as [t1|] eqn:E1; [|by vm_compute in E1].
  assert (is_Some (t ← boost demo_ptable; exec_all tr t)) as [t2 E2] by (vm_compute; by eexists).
  rewrite E1 in E2. simpl in E2. exists t1, t2.
  assert (pt_step demo_ptable EBoost t1) as Hb by by constructor.
  split_and!; [exact Hb|by apply exec_all_steps|].
  apply (boost_no_starvation demo_ptable t1 tr t2 (qs_of demo_queues) 4 (demo_proc RUNNABLE 5 2 None None)).
  - apply demo_queues_ok.
  - reflexivity.
  - reflexivity.
  - exact Hb.
  - by apply exec_all_steps.
  - vm_compute. lia.
Defined.
