(* ===== verification/Context.v ===== *)
(** * Running in the context of a process

    Most kernel routines run on behalf of a process, take and release spin
    locks, wake other processes, and otherwise change data that has nothing to
    do with locks, CPUs or the process table.  [runs L L' m s Q] says that [m],
    run by process [p] with the locks [L] held on the data [s], returns without
    giving the CPU away or stopping the machine, holds [L'] afterwards, leaves
    the queues in order and the process as it was, changes other processes only
    by waking sleepers ([woken]), and ends in data that satisfy [Q].  The data are a kernel state taken up to its CPU and process
    table, which [put] replaces. *)
From S2P Require Import Prelude Types Spinlock Queue Sched.

Definition put (h : hw) (t : ptable) (s : kernel) : kernel := set_k_hw h (set_k_pt t s).

Lemma put_id s : put (k_hw s) (k_pt s) s = s.
Proof. by destruct s. Qed.

(** CPU [c] runs process [p], whose entry up to its queue link is [d], and
    holds the locks [L]. *)
Record ctx (c : nat) (b : bool) (p : nat) (d : proc) (L : list lockid) (h : hw) (t : ptable) : Prop := {
  cx_hw : hw_ok h c L b;
  cx_cur : cur h = Some p;
  cx_proc : pt_data t !! p = Some d;
  cx_run : state d = RUNNING;
  cx_queues : exists qs, queues_ok t qs }.

(** The entries [ps'] are those of [ps], some of the sleepers woken. *)
Definition woken (ps ps' : list proc) : Prop :=
  Forall2 (fun d d' => d' = d \/ state d = SLEEPING /\ d' = set_state RUNNABLE d) ps ps'.
#[export] Instance woken_preorder : PreOrder woken.
Proof.
  split.
  - intros ps. apply Forall2_same_length_lookup_2; [done|]. intros i x y ??. simplify_eq. by left.
  - intros ps1 ps2 ps3 H1 H2. apply Forall2_same_length_lookup_2; [by rewrite (Forall2_length _ _ _ H1), (Forall2_length _ _ _ H2)|].
    intros i x z Hx Hz. destruct (Forall2_lookup_l _ _ _ _ _ H1 Hx) as (y & Hy & Hxy).
    destruct (Forall2_lookup_l _ _ _ _ _ H2 Hy) as (z' & Hz' & Hyz). rewrite Hz in Hz'. injection Hz' as <-.
    destruct Hxy as [->|[? ->]], Hyz as [->|[? ->]]; [by left|by right|by right|by right].
Qed.
Lemma wake_woken ch ps : woken ps (wake ch <$> ps).
Proof.
  unfold woken. apply Forall2_fmap_r. apply Forall2_same_length_lookup_2; [done|]. intros i d d' Hd Hd'. rewrite Hd in Hd'. injection Hd' as <-.
  cbn. unfold wake. destruct (decide (state d = SLEEPING /\ p_chan d = ch)) as [[? _]|]; [by right|by left].
Qed.

Section runs.
Context (c : nat) (b : bool) (p : nat) (d : proc).
Implicit Types (L : list lockid) (h : hw) (t : ptable) (s : kernel).

Definition runs {A} L L' (m : K A) s (Q : A -> kernel -> Prop) : Prop :=
  forall h t, ctx c b p d L h t -> exists a s' h' t',
    m (put h t s) = Done a (put h' t' s') /\ ctx c b p d L' h' t' /\ woken (pt_data t) (pt_data t') /\ Q a s'.

Context {A : Type}.
Implicit Types (Q : A -> kernel -> Prop).

Lemma runs_mono L L' (m : K A) s Q Q' :
  runs L L' m s Q -> (forall a s', Q a s' -> Q' a s') -> runs L L' m s Q'.
Proof. intros Hm HQ h t Hc. destruct (Hm h t Hc) as (a & s' & h' & t' & E & Hc' & Hw & H). exists a, s', h', t'. auto. Qed.

Lemma runs_bind {B} L L' L'' (m : K B) (k : B -> K A) s Q :
  runs L L' m s (fun x s' => runs L' L'' (k x) s' Q) -> runs L L'' (x <- m ;; k x) s Q.
Proof.
  intros Hm h t Hc. destruct (Hm h t Hc) as (x & s' & h' & t' & E & Hc' & Hw & Hk).
  destruct (Hk h' t' Hc') as (a & s'' & h'' & t'' & E' & Hc'' & Hw' & HQ).
  exists a, s'', h'', t''. split_and!; try done; [by rewrite (bind_done _ _ _ _ _ E)|by etrans].
Qed.

Lemma runs_ret L (a : A) s Q : Q a s -> runs L L (ret a) s Q.
Proof. intros HQ h t Hc. by exists a, s, h, t. Qed.

(** Statements that only concern the data. *)
Lemma runs_done {B} L L' (m : K B) (k : B -> K A) s x s' Q :
  (forall h t, m (put h t s) = Done x (put h t s')) ->
  runs L L' (k x) s' Q -> runs L L' (x <- m ;; k x) s Q.
Proof.
  intros Hm Hk h t Hc. destruct (Hk h t Hc) as (a & s'' & h' & t' & E & Hc' & Hw & HQ).
  exists a, s'', h', t'. split_and!; try done. by rewrite (bind_done _ _ _ _ _ (Hm h t)).
Qed.

Lemma runs_gets {B} L L' (f : kernel -> B) (k : B -> K A) s Q :
  (forall h t, f (put h t s) = f s) ->
  runs L L' (k (f s)) s Q -> runs L L' (x <- gets f ;; k x) s Q.
Proof. intros Hf Hk. apply (runs_done _ _ _ _ _ (f s) s); [|done]. intros h t. unfold gets. by rewrite Hf. Qed.

Lemma runs_modify L L' (f : kernel -> kernel) (k : unit -> K A) s Q :
  (forall h t, f (put h t s) = put h t (f s)) ->
  runs L L' (k tt) (f s) Q -> runs L L' (x <- modify f ;; k x) s Q.
Proof. intros Hf Hk. apply (runs_done _ _ _ _ _ tt (f s)); [|done]. intros h t. unfold modify. by rewrite Hf. Qed.

Lemma runs_assoc {B C} L L' (m : K B) (f : B -> K C) (g : C -> K A) s Q :
  runs L L' (x <- m ;; y <- f x ;; g y) s Q -> runs L L' (y <- (x <- m ;; f x) ;; g y) s Q.
Proof.
  intros H h t Hc. destruct (H h t Hc) as (a & s' & h' & t' & E & ?). exists a, s', h', t'. split; [|done].
  rewrite <- E. unfold bind in *. by destruct (m (put h t s)).
Qed.

Lemma runs_tail L L' (m : K A) s Q : runs L L' (x <- m ;; ret x) s Q -> runs L L' m s Q.
Proof.
  intros H h t Hc. destruct (H h t Hc) as (a & s' & h' & t' & E & ?). exists a, s', h', t'. split; [|done].
  rewrite <- E. unfold bind in *. by destruct (m (put h t s)).
Qed.

(** [m] returns whatever [m'] returns. *)
Definition returns_as (m m' : K A) : Prop := forall s a s', m' s = Done a s' -> m s = Done a s'.

Lemma runs_as L L' (m m' : K A) s Q : returns_as m m' -> runs L L' m' s Q -> runs L L' m s Q.
Proof. intros Has H h t Hc. destruct (H h t Hc) as (a & s' & h' & t' & E & ?). exists a, s', h', t'. split; [by apply Has|done]. Qed.

Lemma returns_as_bind {B} (m : K B) (k k' : B -> K A) :
  (forall x, returns_as (k x) (k' x)) -> returns_as (x <- m ;; k x) (x <- m ;; k' x).
Proof. intros Hk s a s'. unfold bind. destruct (m s); cbn; [apply Hk|done|done]. Qed.

Lemma returns_as_assoc {B C} (m : K B) (f : B -> K C) (g : C -> K A) :
  returns_as (y <- (x <- m ;; f x) ;; g y) (x <- m ;; y <- f x ;; g y).
Proof. intros s a s'. unfold bind. by destruct (m s). Qed.

Lemma returns_as_trans (m1 m2 m3 : K A) : returns_as m1 m2 -> returns_as m2 m3 -> returns_as m1 m3.
Proof. unfold returns_as. auto. Qed.

Lemma returns_as_tail (m : K A) : returns_as m (x <- m ;; ret x).
Proof. intros s a s'. unfold bind. by destruct (m s). Qed.

Lemma runs_of_option {B} L L' what (o : option B) x (k : B -> K A) s Q :
  o = Some x -> runs L L' (k x) s Q -> runs L L' (x <- of_option what o ;; k x) s Q.
Proof. intros -> Hk. by apply (runs_done _ _ _ _ _ x s). Qed.

Lemma runs_when_true L L' (m : K unit) (k : unit -> K A) s Q :
  runs L L' (x <- m ;; k x) s Q -> runs L L' (x <- whenm true m ;; k x) s Q.
Proof. done. Qed.

Lemma runs_when_false L L' (m : K unit) (k : unit -> K A) s Q :
  runs L L' (k tt) s Q -> runs L L' (x <- whenm false m ;; k x) s Q.
Proof. intros Hk. by apply (runs_done _ _ _ _ _ tt s). Qed.

Lemma ctx_hw L L' h h' t :
  ctx c b p d L h t -> hw_ok h' c L' b -> hw_id h' = hw_id h -> ctx c b p d L' h' t.
Proof. intros [] ? Hid. split; try done. by rewrite (cur_hw_id _ _ Hid). Qed.

Lemma runs_acquire lk L L' (k : unit -> K A) s Q :
  lk ∉ L -> runs (lk :: L) L' (k tt) s Q -> runs L L' (x <- acquire lk ;; k x) s Q.
Proof.
  intros Hlk Hk h t Hc.
  destruct (acquire_ok lk (put h t s) c L b (cx_hw _ _ _ _ _ _ _ Hc) Hlk) as (h' & E & Hok & Hid).
  rewrite (bind_done _ _ _ _ _ E). apply (Hk h' t). by eapply ctx_hw.
Qed.

Lemma runs_release lk L L1 L' (k : unit -> K A) s Q :
  L ≡ₚ lk :: L1 -> runs L1 L' (k tt) s Q -> runs L L' (x <- release lk ;; k x) s Q.
Proof.
  intros HL Hk h t Hc.
  assert (hw_ok (k_hw (put h t s)) c (lk :: L1) b) as Hok by (rewrite <- HL; apply Hc).
  destruct (release_ok lk (put h t s) c L1 b Hok) as (h' & E & Hok' & Hid).
  rewrite (bind_done _ _ _ _ _ E). apply (Hk h' t). by eapply ctx_hw.
Qed.

Lemma runs_initlock lk name L L' (k : unit -> K A) s Q :
  lk ∉ L -> runs L L' (k tt) s Q -> runs L L' (x <- initlock lk name ;; k x) s Q.
Proof.
  intros Hlk Hk h t Hc. set (h' := set_h_locks (<[lk := mkSpinlock false name None]> (h_locks h)) h).
  rewrite (bind_done _ _ _ tt (put h' t s)) by reflexivity. apply (Hk h' t).
  destruct Hc as [Hhw ? ? ? ?]. split; try done. destruct Hhw as [? ? ? Hfree Hown ?]. split; try done.
  - intros lk' Hlk'. cbn. destruct (decide (lk = lk')) as [<-|]; [by rewrite lookup_total_insert_eq|].
    rewrite lookup_total_insert_ne by done. by apply Hfree.
  - intros lk' Hlk'. cbn. rewrite lookup_total_insert_ne by (intros ->; done). by apply Hown.
Qed.

Lemma runs_myproc L L' (k : option nat -> K A) s Q :
  runs L L' (k (Some p)) s Q -> runs L L' (x <- myproc ;; k x) s Q.
Proof.
  intros Hk h t Hc. destruct (myproc_ok (put h t s) c L b (cx_hw _ _ _ _ _ _ _ Hc)) as (h' & E & Hok & Hid).
  rewrite (bind_done _ _ _ _ _ E). simpl k_hw. rewrite (cx_cur _ _ _ _ _ _ _ Hc).
  apply (Hk h' t). by eapply ctx_hw.
Qed.

Lemma runs_curproc L L' (k : nat -> K A) s Q :
  runs L L' (k p) s Q -> runs L L' (x <- curproc ;; k x) s Q.
Proof. intros Hk. unfold curproc. apply runs_assoc, runs_myproc. by eapply runs_of_option. Qed.

(** A field of the current process, other than its queue link. *)
Lemma runs_proc_get {B} (f : proc -> B) L L' (k : B -> K A) s Q :
  (forall x, f (data x) = f x) -> runs L L' (k (f d)) s Q -> runs L L' (x <- proc_get p f ;; k x) s Q.
Proof.
  intros Hf Hk h t Hc. pose proof (cx_proc _ _ _ _ _ _ _ Hc) as Hp.
  apply pt_data_lookup_inv in Hp as (pr & Hpr & E). rewrite (bind_done _ _ _ (f d) (put h t s)); [by apply Hk|].
  unfold proc_get, bind, get. simpl. unfold get_proc. rewrite Hpr, E. simpl. by rewrite Hf.
Qed.

Lemma runs_wakeup ch L L' (k : unit -> K A) s Q :
  L_ptable ∉ L -> runs L L' (k tt) s Q -> runs L L' (x <- wakeup ch ;; k x) s Q.
Proof.
  intros HL Hk h t Hc. destruct (cx_queues _ _ _ _ _ _ _ Hc) as [qs Hq].
  assert (wp atomic (wakeup ch (put h t s)) (fun _ s' => exists h' t', s' = put h' t' s /\ ctx c b p d L h' t' /\ woken (pt_data t) (pt_data t'))) as Hw.
  { apply wp_tail. eapply wp_wakeup; [apply Hc|done|done|]. intros h' t' Hh Hid Hq' Hd. apply wp_ret.
    exists h', t'. split; [done|]. split; [|rewrite Hd; apply wake_woken]. split; [done| | |apply Hc|by eexists].
    - simpl in Hid. rewrite (cur_hw_id _ _ Hid). apply Hc.
    - rewrite Hd. simpl. rewrite list_lookup_fmap, (cx_proc _ _ _ _ _ _ _ Hc). simpl. f_equal. unfold wake.
      rewrite decide_False; [done|]. rewrite (cx_run _ _ _ _ _ _ _ Hc). by intros [? _]. }
  apply wp_atomic_done in Hw as ([] & s' & E & h' & t' & -> & Hc' & Hwk).
  rewrite (bind_done _ _ _ _ _ E). destruct (Hk h' t' Hc') as (a & s'' & h'' & t'' & E' & Hc'' & Hw' & HQ).
  exists a, s'', h'', t''. split_and!; try done. by etrans.
Qed.

End runs.

(** [wakeup] by the running process, which is not asleep and so keeps its entry. *)
Lemma wp_ap_wakeup {A} P ch (k : unit -> K A) s Q c L b p pr qs :
  at_proc s c L b p pr qs -> state pr = RUNNING -> L_ptable ∉ L ->
  (forall h t pr' qs', at_proc (put h t s) c L b p pr' qs' -> data pr' = data pr ->
    wp P (k tt (put h t s)) Q) ->
  wp P ((x <- wakeup ch ;; k x) s) Q.
Proof.
  intros [? Hcur Hp ?] Hst HL Hk. eapply wp_wakeup; [done|done|done|]. intros h t Hh Hid Hq Hd.
  assert (pt_data t !! p = Some (data pr)) as Hl.
  { rewrite Hd, list_lookup_fmap, (pt_data_lookup _ _ _ Hp). simpl. unfold wake.
    rewrite decide_False; [done|]. simpl. rewrite Hst. by intros [? _]. }
  apply pt_data_lookup_inv in Hl as (pr' & Hp' & E). eapply (Hk h t pr'); [|done].
  split; [done| |done|exact Hq]. simpl. by rewrite (cur_hw_id _ _ Hid).
Qed.

(** A process in context, as an instance of [runs]. *)
Lemma runs_wp {A} P (m : K A) s Q c b p pr qs :
  at_proc s c [] b p pr qs -> state pr = RUNNING ->
  runs c b p (data pr) [] [] m s Q ->
  wp P (m s) (fun a s' => exists s1 h t, s' = put h t s1 /\ ctx c b p (data pr) [] h t /\ woken (pt_data (k_pt s)) (pt_data t) /\ Q a s1).
Proof.
  intros [? ? Hp ?] Hst Hm. destruct (Hm (k_hw s) (k_pt s)) as (a & s1 & h & t & E & Hc & Hw & HQ).
  { split; [done|done|by apply pt_data_lookup|done|by eexists]. }
  rewrite put_id in E. rewrite E. simpl. by exists s1, h, t.
Qed.

Lemma at_proc_ctx s c L b p pr qs :
  at_proc s c L b p pr qs -> state pr = RUNNING -> ctx c b p (data pr) L (k_hw s) (k_pt s).
Proof. intros [? ? Hp ?] Hst. split; [done|done|by apply pt_data_lookup|done|by eexists]. Qed.

Ltac runs_data := first [by intros | by intros; reflexivity].

(** Runs the statements whose effect needs no argument. *)
Ltac runs_step := cbv beta; repeat (lazymatch goal with
  | |- runs _ _ _ _ _ _ (bind (bind _ _) _) _ _ => apply runs_assoc
  | |- runs _ _ _ _ _ _ (bind (gets _) _) _ _ => apply runs_gets; [runs_data|]
  | |- runs _ _ _ _ _ _ (bind (modify _) _) _ _ => apply runs_modify; [runs_data|]
  | |- runs _ _ _ _ _ _ (bind (ret _) _) _ _ => eapply runs_done; [by intros|]
  | |- runs _ _ _ _ _ _ (bind (of_option _ (Some _)) _) _ _ => eapply runs_of_option; [reflexivity|]
  | |- runs _ _ _ _ _ _ (bind (whenm true _) _) _ _ => apply runs_when_true
  | |- runs _ _ _ _ _ _ (bind (whenm false _) _) _ _ => apply runs_when_false
  | |- runs _ _ _ _ _ _ (bind curproc _) _ _ => apply runs_curproc
  | |- runs _ _ _ _ _ _ (bind myproc _) _ _ => apply runs_myproc
  | |- runs _ _ _ _ _ _ (bind (proc_get _ _) _) _ _ => apply runs_proc_get; [by intros|]
  | |- runs _ _ _ _ _ _ (ret _) _ _ => apply runs_ret
  end; cbv beta).

(** [lk ∉ L] for concrete locks. *)
Ltac not_in := repeat (apply not_elem_of_cons; split; [done|]); apply not_elem_of_nil.
