(* ===== verification/Sleeplock.v ===== *)
(** * Sleep locks ([kernel/sleeplock.c])

    A sleep lock is named by its [sleepid]; its inner spin lock is [L_sleep].
    The wait loop of [acquiresleep] has no bound in the code, so the model
    bounds the number of times it sleeps by the parameter [fuel]; the results
    for a free lock do not depend on it. *)
From S2P Require Import Prelude Types Spinlock Queue Sched Context.

(** The bound on every loop that waits for other processes. *)
Class Fuel := fuel : nat.

Section code.
Context `{Fuel}.
Implicit Types (l : sleepid).

Definition the_sleeplock l (s : kernel) : sleeplock := k_sleeplocks s !!! l.
Definition set_sleeplock l (f : sleeplock -> sleeplock) : K unit :=
  modify (fun s => set_k_sleeplocks (<[l := f (the_sleeplock l s)]> (k_sleeplocks s)) s).

Definition initsleeplock l (name : string) : K unit :=
  initlock (L_sleep l) "sleep lock" ;;
  set_sleeplock l (fun _ => mkSleeplock false name 0).

(** [while (lk->locked) sleep(lk, &lk->lk);]. *)
Fixpoint wait_unlocked (n : nat) l : K unit :=
  lk <- gets (the_sleeplock l) ;;
  if sl_locked lk then
    match n with
    | O => stopm NoFuel
    | S n' => sleep (Some (C_sleep l)) (Some (L_sleep l)) ;; wait_unlocked n' l
    end
  else ret tt.

Definition acquiresleep l : K unit :=
  acquire (L_sleep l) ;;
  wait_unlocked fuel l ;;
  set_sleeplock l (set_sl_locked true) ;;
  p <- curproc ;;
  i <- proc_get p pid ;;
  set_sleeplock l (set_sl_pid i) ;;
  release (L_sleep l).

Definition releasesleep l : K unit :=
  acquire (L_sleep l) ;;
  set_sleeplock l (set_sl_locked false) ;;
  set_sleeplock l (set_sl_pid 0) ;;
  wakeup (Some (C_sleep l)) ;;
  release (L_sleep l).

Definition holdingsleep l : K bool :=
  acquire (L_sleep l) ;;
  lk <- gets (the_sleeplock l) ;;
  p <- curproc ;;
  i <- proc_get p pid ;;
  release (L_sleep l) ;;
  ret (sl_locked lk && (sl_pid lk =? i)).

End code.

Arguments acquiresleep : simpl never.
Arguments releasesleep : simpl never.
Arguments holdingsleep : simpl never.

(** ** A lock nobody else holds *)
Section uncontended.
Context `{Fuel} (c : nat) (b : bool) (p : nat) (d : proc).
Implicit Types (l : sleepid) (s : kernel).

(** The state after taking and after releasing the lock. *)
Definition sl_taken l s : kernel :=
  set_k_sleeplocks (<[l := mkSleeplock true (sl_name (the_sleeplock l s)) (pid d)]> (k_sleeplocks s)) s.
Definition sl_released l s : kernel :=
  set_k_sleeplocks (<[l := mkSleeplock false (sl_name (the_sleeplock l s)) 0]> (k_sleeplocks s)) s.

Lemma set_sleeplock_twice l f g s :
  set_k_sleeplocks (<[l := g (the_sleeplock l (set_k_sleeplocks (<[l := f]> (k_sleeplocks s)) s))]>
    (<[l := f]> (k_sleeplocks s))) (set_k_sleeplocks (<[l := f]> (k_sleeplocks s)) s) =
  set_k_sleeplocks (<[l := g f]> (k_sleeplocks s)) s.
Proof.
  unfold the_sleeplock. simpl. rewrite lookup_total_insert_eq, insert_insert_eq. done.
Qed.

Lemma runs_acquiresleep {A} l L L' (k : unit -> K A) s Q :
  sl_locked (the_sleeplock l s) = false -> L_sleep l ∉ L ->
  runs c b p d L L' (k tt) (sl_taken l s) Q ->
  runs c b p d L L' (x <- acquiresleep l ;; k x) s Q.
Proof.
  intros Hfree HL Hk. unfold acquiresleep. apply runs_assoc, runs_acquire; [done|]. runs_step.
  eapply (runs_done _ _ _ _ _ _ (wait_unlocked fuel l) _ s tt s).
  { intros h t. destruct fuel; simpl; unfold gets, bind; simpl; unfold the_sleeplock in *; simpl; by rewrite Hfree. }
  unfold set_sleeplock. runs_step.
  eapply runs_release; [done|]. rewrite set_sleeplock_twice. exact Hk.
Qed.

Lemma runs_releasesleep {A} l L L' (k : unit -> K A) s Q :
  L_sleep l ∉ L -> L_ptable ∉ L ->
  runs c b p d L L' (k tt) (sl_released l s) Q ->
  runs c b p d L L' (x <- releasesleep l ;; k x) s Q.
Proof.
  intros HL HL' Hk. unfold releasesleep. apply runs_assoc, runs_acquire; [done|]. unfold set_sleeplock. runs_step.
  apply runs_wakeup; [by apply not_elem_of_cons|]. eapply runs_release; [done|].
  rewrite set_sleeplock_twice. exact Hk.
Qed.

Lemma runs_holdingsleep {A} l L L' (k : bool -> K A) s Q :
  L_sleep l ∉ L ->
  runs c b p d L L' (k (sl_locked (the_sleeplock l s) && (sl_pid (the_sleeplock l s) =? pid d))) s Q ->
  runs c b p d L L' (x <- holdingsleep l ;; k x) s Q.
Proof.
  intros HL Hk. unfold holdingsleep. apply runs_assoc, runs_acquire; [done|]. runs_step.
  eapply runs_release; [done|]. runs_step. done.
Qed.

Lemma sl_taken_held l s :
  sl_locked (the_sleeplock l (sl_taken l s)) = true /\ sl_pid (the_sleeplock l (sl_taken l s)) = pid d.
Proof. unfold the_sleeplock, sl_taken. simpl. by rewrite lookup_total_insert_eq. Qed.

End uncontended.

(** ** A contended lock *)

(** A protocol of a routine whose waiting loops are bounded by the model. *)
Definition or_fuel (P : protocol kernel) : protocol kernel :=
  Protocol (p_guar P) (p_rely P) (fun e => p_stop P e \/ e = NoFuel).

Section contended.
Context `{Fuel}.
Implicit Types (l : sleepid) (s : kernel) (p : nat) (pr : proc) (qs : aqueues).

(** At the switch the process sleeps on the lock, without its spin lock. *)
Definition waiting b p l s s1 : Prop :=
  (exists c, at_switch p c b s s1) /\
  exists d, pt_data (k_pt s1) !! p = Some d /\ state d = SLEEPING /\ p_chan d = Some (C_sleep l).
(** The lock of [s], taken by the running process [p], and nothing else changed
    but the CPU and the process table. *)
Definition taken b p l s s' : Prop :=
  exists h t c pr qs, at_proc s' c [] b p pr qs /\ state pr = RUNNING /\
    s' = set_k_hw h (set_k_pt t (set_k_sleeplocks (<[l := mkSleeplock true (sl_name (the_sleeplock l s)) (pid pr)]> (k_sleeplocks s)) s)).

(** What [acquiresleep] does from the state [s] on, sleeping at most [n] times:
    while the lock is held it gives the CPU away, asleep; resumed in a state in
    which it is still held it does the same again; called or resumed with the
    lock free it takes it and returns, without a switch. *)
Fixpoint takes (n : nat) b p l s (o : outcome kernel unit) : Prop :=
  if sl_locked (the_sleeplock l s) then
    match n with
    | O => o = Stop NoFuel
    | S n' => switches (waiting b p l s) (resumed p) o (takes n' b p l)
    end
  else wp atomic o (fun _ => taken b p l s).

(** The rest of [acquiresleep]. *)
Definition take_lock l : K unit :=
  set_sleeplock l (set_sl_locked true) ;;
  p <- curproc ;;
  i <- proc_get p pid ;;
  set_sleeplock l (set_sl_pid i) ;;
  release (L_sleep l).

Lemma take_lock_taken l s h t c b p pr qs : let s1 := set_k_hw h (set_k_pt t s) in
  at_proc s1 c [L_sleep l] b p pr qs -> state pr = RUNNING -> wp atomic (take_lock l s1) (fun _ => taken b p l s).
Proof.
  intros s1 Hap Hst. unfold take_lock, set_sleeplock. wp_run.
  set (s2 := set_k_sleeplocks _ s1). assert (at_proc s2 c [L_sleep l] b p pr qs) as Hap2 by by destruct Hap.
  eapply wp_ap_curproc; [done|]. clear Hap Hap2. intros h2 Hap2. apply wp_proc_get with pr; [apply Hap2|]. wp_run.
  apply wp_tail. eapply (wp_ap_release _ _ _ (set_k_sleeplocks _ _)); [by destruct Hap2; split|done|].
  intros h3 Hap3. apply wp_ret. exists h3, t, c, pr, qs. split_and!; [done|done|].
  unfold s2, s1, the_sleeplock. simpl. rewrite lookup_total_insert_eq, insert_insert_eq. by destruct s.
Qed.

Lemma wait_unlocked_free l n s : sl_locked (the_sleeplock l s) = false -> wait_unlocked n l s = Done tt s.
Proof. intros El. destruct n; cbn [wait_unlocked]; unfold bind, gets; cbn [obind]; by rewrite El. Qed.
Lemma wait_unlocked_held l n s : sl_locked (the_sleeplock l s) = true ->
  wait_unlocked (S n) l s = (sleep (Some (C_sleep l)) (Some (L_sleep l)) ;; wait_unlocked n l) s.
Proof. intros El. cbn [wait_unlocked]. unfold bind at 1, gets. cbn [obind]. by rewrite El. Qed.

Lemma wait_takes l n : forall s h t c b p pr qs,
  at_proc (set_k_hw h (set_k_pt t s)) c [L_sleep l] b p pr qs -> state pr = RUNNING ->
  takes n b p l s ((wait_unlocked n l ;; take_lock l) (set_k_hw h (set_k_pt t s))).
Proof.
  induction n as [|n IH]; intros s h t c b p pr qs Hap Hst; cbn [takes];
    (destruct (sl_locked (the_sleeplock l s)) eqn:El; [|rewrite (bind_done _ _ _ _ _ (wait_unlocked_free _ _ (set_k_hw h (set_k_pt t s)) El)); by eapply take_lock_taken]).
  - apply bind_stop. cbn [wait_unlocked]. unfold bind, gets, the_sleeplock in *. cbn. by rewrite El.
  - unfold bind at 1. rewrite (wait_unlocked_held l n (set_k_hw h (set_k_pt t s)) El). apply switches_assoc.
    eapply switches_mono; [by apply (sleep_once _ c b p pr qs)| |done|].
    + intros s1 ([Hon (h' & t' & ->)] & _ & Hd). split; [exists c; split; [done|by exists h', t'; destruct s]|].
      exists (data (set_state SLEEPING (set_p_chan (Some (C_sleep l)) pr))). split; [|done]. simpl in *. rewrite Hd.
      apply list_lookup_insert_eq. rewrite pt_data_length. apply (lookup_lt_Some _ _ _ (ap_proc _ _ _ _ _ _ _ Hap)).
    + intros s' o _ Ho. eapply wp_mono; [exact Ho|]. intros [] s'' [(h' & t' & ->) (c' & pr' & qs' & Hap' & Hst' & _)]. by eapply IH.
Qed.

(** ** The main property *)

(** C29: [acquiresleep] called without spin locks never returns without having
    found the lock free: while somebody holds it, when it is called and
    whenever it is resumed, it gives the CPU away, asleep on the lock and without the spin lock;
    when it is called or resumed with the lock free, it returns without a
    switch, without spin locks, having taken the lock in the name of the calling
    process and changed nothing else. *)
Theorem acquiresleep_exclusive l s c b p pr qs :
  at_proc s c [] b p pr qs -> state pr = RUNNING -> takes fuel b p l s (acquiresleep l s).
Proof.
  intros Hap Hst. unfold acquiresleep.
  destruct (proj1 (wp_atomic_done _ (fun _ s' => exists h, s' = set_k_hw h s /\ at_proc s' c [L_sleep l] b p pr qs))
    (wp_tail _ (acquire (L_sleep l)) s _ (wp_ap_acquire _ _ _ _ _ _ _ _ _ _ _ Hap ltac:(not_in)
      (fun h Hh => wp_ret _ tt _ _ (ex_intro _ h (conj eq_refl Hh)))))) as ([] & s1 & E & h & -> & Hap1).
  rewrite (bind_done _ _ _ _ _ E). replace (set_k_hw h s) with (set_k_hw h (set_k_pt (k_pt s) s)) in * by (by destruct s).
  by eapply wait_takes.
Qed.

End contended.

(** Process 0 waits for a lock that process 9 holds. *)
Lemma acquiresleep_exclusive_witness :
  let s := set_k_sleeplocks {[SL_buf 3 := mkSleeplock true "buffer" 9]} (demo_kernel [] (Some 0%nat)) in
  switches (waiting true 0 (SL_buf 3) s) (resumed 0) (@acquiresleep 7%nat (SL_buf 3) s)
    (fun s' o => sl_locked (the_sleeplock (SL_buf 3) s') = false -> wp atomic o (fun _ => taken true 0 (SL_buf 3) s')).
Proof.
  intros s. assert (sl_locked (the_sleeplock (SL_buf 3) s) = true) as El by (vm_compute; reflexivity).
  assert (takes 7 true 0 (SL_buf 3) s (@acquiresleep 7%nat (SL_buf 3) s)) as T.
  { apply (@acquiresleep_exclusive 7%nat (SL_buf 3) s 0 true 0 (demo_proc RUNNING 1 0 None None) (qs_of demo_queues)).
    - split; [apply demo_hw_ok, NoDup_nil_2|reflexivity|reflexivity|apply demo_queues_ok].
    - reflexivity. }
  cbn [takes] in T. rewrite El in T. eapply switches_mono; [exact T|intros ? Hs; exact Hs..|].
  intros s' o _ Ho Hl. cbn [takes] in Ho. rewrite Hl in Ho. exact Ho.
Defined.
