(* ===== verification/Pipe.v ===== *)
(** * Pipes ([kernel/pipe.c])

    A pipe is a page in use as [struct pipe], in [k_pipes] under the page's
    address; its lock is [L_pipe].  [nread] and [nwrite] count bytes modulo
    2^32 and the buffer is a ring of [PIPESIZE] bytes; [contents] is the queue
    of bytes it stands for.  A user buffer is the list of its bytes.  [pipealloc]
    and the rest of the life of a pipe are in the file table. *)
From S2P Require Import Prelude Types Str Spinlock Queue Kalloc Sched Context Sleeplock.

(** ** The code *)
Section code.
Context `{Fuel} `{Linkage}.

Definition pipe_get {A} (p : Z) (f : pipe -> A) : K A :=
  o <- gets (fun s => f <$> k_pipes s !! p) ;;
  of_option "pipe" o.
Definition pipe_set (p : Z) (f : pipe -> pipe) : K unit :=
  o <- gets (fun s => k_pipes s !! p) ;;
  x <- of_option "pipe" o ;;
  modify (fun s => set_k_pipes (<[p := f x]> (k_pipes s)) s).

Definition pipeclose (p : Z) (writable : bool) : K unit :=
  acquire (L_pipe p) ;;
  (if writable then
     pipe_set p (set_writeopen false) ;; wakeup (Some (C_nread p))
   else
     pipe_set p (set_readopen false) ;; wakeup (Some (C_nwrite p))) ;;
  closed <- pipe_get p (fun x => negb (readopen x) && negb (writeopen x)) ;;
  if closed : bool then
    release (L_pipe p) ;;
    modify (fun s => set_k_pipes (delete p (k_pipes s)) s) ;;
    kfree p
  else release (L_pipe p).

(** The loop [while(p->nwrite == p->nread + PIPESIZE)] of [pipewrite]; the
    result says whether the caller must give up. *)
Fixpoint wait_room (n : nat) (p : Z) : K bool :=
  full <- pipe_get p (fun x => nwrite x =? u32 (nread x + PIPESIZE)) ;;
  if full : bool then
    closed <- pipe_get p (fun x => negb (readopen x)) ;;
    killed <- (if closed : bool then ret true else
                 q <- curproc ;; k <- proc_get q killed ;; ret (negb (k =? 0))) ;;
    if killed : bool then release (L_pipe p) ;; ret false
    else
      match n with
      | O => stopm NoFuel
      | S n' =>
          wakeup (Some (C_nread p)) ;;
          sleep (Some (C_nwrite p)) (Some (L_pipe p)) ;;
          wait_room n' p
      end
  else ret true.

Definition push_byte (v : Z) (x : pipe) : pipe :=
  set_nwrite (u32 (nwrite x + 1))
    (set_p_data (<[Z.to_nat (nwrite x mod PIPESIZE) := v]> (p_data x)) x).

(** The loop over the [n] bytes to write. *)
Fixpoint write_bytes (p : Z) (addr : list Z) (n : nat) : K bool :=
  match n with
  | O => ret true
  | S n' =>
      ok <- wait_room fuel p ;;
      if ok : bool then
        match addr with
        | v :: addr' => pipe_set p (push_byte v) ;; write_bytes p addr' n'
        | [] => stopm (Fault "addr")
        end
      else ret false
  end.

Definition pipewrite (p : Z) (addr : list Z) (n : Z) : K Z :=
  acquire (L_pipe p) ;;
  ok <- write_bytes p addr (Z.to_nat n) ;;
  if ok : bool then
    wakeup (Some (C_nread p)) ;;
    release (L_pipe p) ;;
    ret n
  else ret (-1).

(** The loop [while(p->nread == p->nwrite && p->writeopen)] of [piperead]. *)
Fixpoint wait_bytes (n : nat) (p : Z) : K bool :=
  empty <- pipe_get p (fun x => (nread x =? nwrite x) && writeopen x) ;;
  if empty : bool then
    q <- curproc ;;
    k <- proc_get q killed ;;
    if negb (k =? 0) then release (L_pipe p) ;; ret false
    else
      match n with
      | O => stopm NoFuel
      | S n' => sleep (Some (C_nread p)) (Some (L_pipe p)) ;; wait_bytes n' p
      end
  else ret true.

(** The loop that copies at most [n] bytes out of the ring. *)
Fixpoint read_bytes (p : Z) (n : nat) : K (list Z) :=
  match n with
  | O => ret []
  | S n' =>
      empty <- pipe_get p (fun x => nread x =? nwrite x) ;;
      if empty : bool then ret []
      else
        o <- pipe_get p (fun x => p_data x !! Z.to_nat (nread x mod PIPESIZE)) ;;
        v <- of_option "pipe data" o ;;
        pipe_set p (fun x => set_nread (u32 (nread x + 1)) x) ;;
        l <- read_bytes p n' ;;
        ret (v :: l)
  end.

(** The number of bytes read, or -1, and the bytes. *)
Definition piperead (p : Z) (n : Z) : K (Z * list Z) :=
  acquire (L_pipe p) ;;
  ok <- wait_bytes fuel p ;;
  if ok : bool then
    l <- read_bytes p (Z.to_nat n) ;;
    wakeup (Some (C_nwrite p)) ;;
    release (L_pipe p) ;;
    ret (Z.of_nat (length l), l)
  else ret (-1, []).

End code.

(** ** The ring buffer as a queue *)
Section ring.
Implicit Types (x : pipe) (v : Z).

Definition count x : Z := u32 (nwrite x - nread x).

(** [slot x i] is the byte [i] places after the next one to read. *)
Definition slot x (i : nat) : Z := default 0 (p_data x !! Z.to_nat ((nread x + Z.of_nat i) mod PIPESIZE)).
Definition contents x : list Z := slot x <$> seq 0 (Z.to_nat (count x)).

Record pipe_ok x : Prop := {
  po_data : length (p_data x) = Z.to_nat PIPESIZE;
  po_nread : 0 <= nread x < 2 ^ 32;
  po_nwrite : 0 <= nwrite x < 2 ^ 32;
  po_count : count x <= PIPESIZE }.

Lemma count_nonneg x : 0 <= count x.
Proof. apply u32_range. Qed.

Lemma contents_length x : Z.of_nat (length (contents x)) = count x.
Proof. unfold contents. rewrite length_fmap, length_seq, Z2Nat.id; [done|apply count_nonneg]. Qed.

(** [nwrite == nread + PIPESIZE] exactly when the ring is full, and
    [nread == nwrite] exactly when it is empty, also when the counters wrap. *)
Lemma full_iff x : pipe_ok x -> (nwrite x =? u32 (nread x + PIPESIZE)) = bool_decide (length (contents x) = 512%nat).
Proof.
  intros [_ Hr Hw Hc]. pose proof (contents_length x) as Hl. unfold count, PIPESIZE in *.
  destruct (Z.eqb_spec (nwrite x) (u32 (nread x + 512))) as [E|E];
    [rewrite bool_decide_eq_true_2; [done|]|rewrite bool_decide_eq_false_2; [done|]].
  - rewrite E, u32_sub_l in Hl. replace (nread x + 512 - nread x) with 512 in Hl by lia. by apply (inj Z.of_nat).
  - intros Hf. apply E. rewrite Hf in Hl. symmetry in Hl. change (Z.of_nat 512) with 512 in Hl.
    rewrite <- Hl, u32_add_r. replace (nread x + (nwrite x - nread x)) with (nwrite x) by lia.
    by rewrite u32_small.
Qed.

Lemma empty_iff x : pipe_ok x -> (nread x =? nwrite x) = bool_decide (contents x = []).
Proof.
  intros [_ Hr Hw Hc]. pose proof (contents_length x) as Hl. unfold count in Hl.
  destruct (Z.eqb_spec (nread x) (nwrite x)) as [E|E];
    [rewrite bool_decide_eq_true_2; [done|]|rewrite bool_decide_eq_false_2; [done|]].
  - rewrite E, Z.sub_diag in Hl. destruct (contents x); [done|]. change (u32 0) with 0 in Hl. simpl in Hl. lia.
  - intros Hf. apply E. rewrite Hf in Hl. symmetry in Hl. simpl in Hl.
    apply (u32_eq_iff (nwrite x - nread x) 0) in Hl as [k Hk]. lia.
Qed.

(** The ring size divides 2^32, so positions survive the wrap of a counter. *)
Lemma ring_mod a : u32 a mod PIPESIZE = a mod PIPESIZE.
Proof.
  unfold u32, PIPESIZE. rewrite (Z.mod_eq a (2 ^ 32)) by lia.
  replace (a - 2 ^ 32 * (a / 2 ^ 32)) with (a + (- (2 ^ 23) * (a / 2 ^ 32)) * 512) by lia.
  by rewrite Z.mod_add.
Qed.

Lemma push_count x v : pipe_ok x -> length (contents x) <> 512%nat -> count (push_byte v x) = count x + 1.
Proof.
  intros Hok Hf. pose proof (contents_length x) as Hl. pose proof (count_nonneg x). destruct Hok as [_ Hr Hw Hc].
  unfold count, push_byte, PIPESIZE in *. simpl. rewrite u32_sub_l.
  replace (nwrite x + 1 - nread x) with (nwrite x - nread x + 1) by lia. rewrite <- u32_add_l.
  apply u32_small. lia.
Qed.

Lemma push_slot x v i :
  pipe_ok x -> length (contents x) <> 512%nat -> (i < length (contents x))%nat ->
  slot (push_byte v x) i = slot x i.
Proof.
  intros Hok Hf Hi. pose proof (contents_length x) as Hl. destruct Hok as [_ Hr Hw Hc]. unfold slot, push_byte. simpl.
  rewrite list_lookup_insert_ne; [done|]. intros E. unfold count, PIPESIZE in *.
  pose proof (Z.mod_pos_bound (nwrite x) 512). pose proof (Z.mod_pos_bound (nread x + Z.of_nat i) 512).
  apply Z2Nat.inj in E; [|lia..].
  assert ((u32 (nwrite x - nread x) - Z.of_nat i) mod PIPESIZE = 0) as E'.
  { rewrite Zminus_mod, (ring_mod (nwrite x - nread x)), <- Zminus_mod. unfold PIPESIZE.
    replace (nwrite x - nread x - Z.of_nat i) with (nwrite x - (nread x + Z.of_nat i)) by lia.
    rewrite Zminus_mod, E, Z.sub_diag. done. }
  unfold PIPESIZE in E'. rewrite Z.mod_small in E'; lia.
Qed.

Lemma push_ok x v : pipe_ok x -> length (contents x) <> 512%nat ->
  pipe_ok (push_byte v x) /\ contents (push_byte v x) = contents x ++ [v].
Proof.
  intros Hok Hf. pose proof (push_count x v Hok Hf) as Hc. pose proof (contents_length x) as Hl.
  pose proof (count_nonneg x) as Hn. split.
  - destruct Hok as [Hd Hr Hw Hcc]. split; simpl; [by rewrite length_insert|done|apply u32_range|].
    rewrite Hc. unfold PIPESIZE in *. lia.
  - unfold contents at 1. rewrite Hc, Z2Nat.inj_add by lia. rewrite Nat.add_1_r, seq_S, fmap_app. simpl. f_equal.
    + unfold contents. apply list_fmap_ext. intros i j Hj. apply lookup_seq in Hj as [-> Hj]. apply push_slot; try done. lia.
    + f_equal. unfold slot, push_byte. simpl. rewrite Z2Nat.id by done.
      assert ((nread x + count x) mod PIPESIZE = nwrite x mod PIPESIZE) as ->.
      { unfold count. rewrite Zplus_mod, ring_mod, <- Zplus_mod. f_equal. lia. }
      rewrite list_lookup_insert_eq; [done|]. rewrite (po_data _ Hok).
      pose proof (Z.mod_pos_bound (nwrite x) PIPESIZE). unfold PIPESIZE in *. lia.
Qed.

Lemma pop_ok x v l : pipe_ok x -> contents x = v :: l ->
  p_data x !! Z.to_nat (nread x mod PIPESIZE) = Some v /\
  pipe_ok (set_nread (u32 (nread x + 1)) x) /\ contents (set_nread (u32 (nread x + 1)) x) = l.
Proof.
  intros Hok Hc. pose proof (contents_length x) as Hl. rewrite Hc in Hl. simpl in Hl.
  assert (count (set_nread (u32 (nread x + 1)) x) = count x - 1) as Hc'.
  { unfold count in *. simpl. rewrite u32_sub_r. replace (nwrite x - (nread x + 1)) with (nwrite x - nread x - 1) by lia.
    rewrite <- u32_sub_l. apply u32_small. pose proof (u32_range (nwrite x - nread x)). lia. }
  assert (Z.to_nat (count x) = S (length l)) as En by lia.
  split_and!.
  - assert (slot x 0 = v) as Hs.
    { unfold contents in Hc. rewrite En in Hc. simpl in Hc. by injection Hc. }
    unfold slot in Hs. rewrite Z.add_0_r in Hs.
    destruct (lookup_lt_is_Some_2 (p_data x) (Z.to_nat (nread x mod PIPESIZE))) as [w Hw].
    { rewrite (po_data _ Hok). pose proof (Z.mod_pos_bound (nread x) PIPESIZE). unfold PIPESIZE in *. lia. }
    rewrite Hw in *. by subst v.
  - destruct Hok as [Hd Hr Hw Hcc]. split; try done; [apply u32_range|]. rewrite Hc'. lia.
  - unfold contents at 1. rewrite Hc'. replace (Z.to_nat (count x - 1)) with (length l) by lia.
    unfold contents in Hc. rewrite En in Hc. simpl in Hc. injection Hc as _ <-.
    rewrite <- fmap_S_seq, <- list_fmap_compose, !length_fmap, length_seq. apply list_fmap_ext.
    intros i j Hj. unfold slot, compose. simpl. do 2 f_equal. rewrite Zplus_mod, ring_mod, <- Zplus_mod. f_equal. f_equal. lia.
Qed.

End ring.

(** ** The operations, when they need not wait *)
Section operations.
Context `{Fuel} (c : nat) (b : bool) (p : nat) (d : proc).
Implicit Types (s : kernel) (a : Z) (x : pipe).

(** The state in which the pipe at [a] is [x]. *)
Definition put_pipe a x s : kernel := set_k_pipes (<[a := x]> (k_pipes s)) s.

Lemma runs_pipe_get {A B} (f : pipe -> B) L L' (k : B -> K A) s Q a x :
  k_pipes s !! a = Some x -> runs c b p d L L' (k (f x)) s Q ->
  runs c b p d L L' (y <- pipe_get a f ;; k y) s Q.
Proof.
  intros Hx Hk. unfold pipe_get. runs_step. eapply runs_of_option; [by rewrite Hx|done].
Qed.

Lemma runs_pipe_set {A} f L L' (k : unit -> K A) s Q a x :
  k_pipes s !! a = Some x -> runs c b p d L L' (k tt) (put_pipe a (f x) s) Q ->
  runs c b p d L L' (y <- pipe_set a f ;; k y) s Q.
Proof.
  intros Hx Hk. unfold pipe_set. runs_step. eapply runs_of_option; [by rewrite Hx|]. runs_step. done.
Qed.

Lemma put_pipe_lookup a x s : k_pipes (put_pipe a x s) !! a = Some x.
Proof. apply lookup_insert_eq. Qed.

Lemma put_pipe_twice a x y s : put_pipe a y (put_pipe a x s) = put_pipe a y s.
Proof. unfold put_pipe. simpl. by rewrite insert_insert_eq. Qed.

Lemma put_pipe_id a x s : k_pipes s !! a = Some x -> put_pipe a x s = s.
Proof. intros E. unfold put_pipe. rewrite insert_id by done. by destruct s. Qed.

Lemma runs_read_bytes a n : forall s x L,
  k_pipes s !! a = Some x -> pipe_ok x ->
  runs c b p d L L (read_bytes a n) s (fun l s' => l = take n (contents x) /\
    exists x', s' = put_pipe a x' s /\ pipe_ok x' /\ contents x' = drop n (contents x)
      /\ readopen x' = readopen x /\ writeopen x' = writeopen x).
Proof.
  induction n as [|n IH]; intros s x L Hx Hok; cbn [read_bytes].
  { runs_step. split; [done|]. exists x. by rewrite put_pipe_id. }
  eapply runs_pipe_get; [done|]. rewrite empty_iff by done. case_bool_decide as Ec.
  { runs_step. rewrite Ec. split; [done|]. exists x. by rewrite put_pipe_id. }
  destruct (contents x) as [|v l] eqn:El; [done|]. destruct (pop_ok x v l Hok El) as (Hv & Hok' & Hc').
  eapply runs_pipe_get; [done|]. rewrite Hv. runs_step. eapply runs_pipe_set; [done|].
  eapply runs_bind, runs_mono; [eapply IH; [apply put_pipe_lookup|done]|].
  intros l' s' (-> & x' & -> & Hx' & Hd & Hro & Hwo). runs_step. rewrite Hc' in *. split; [done|].
  exists x'. by rewrite put_pipe_twice.
Qed.

Lemma runs_write_bytes a bytes : forall s x L,
  k_pipes s !! a = Some x -> pipe_ok x -> (length (contents x) + length bytes <= 512)%nat ->
  runs c b p d L L (write_bytes a bytes (length bytes)) s (fun r s' => r = true /\
    exists x', s' = put_pipe a x' s /\ pipe_ok x' /\ contents x' = contents x ++ bytes
      /\ readopen x' = readopen x /\ writeopen x' = writeopen x).
Proof.
  induction bytes as [|v bytes IH]; intros s x L Hx Hok Hlen; cbn [write_bytes length].
  { runs_step. split; [done|]. exists x. by rewrite put_pipe_id, app_nil_r. }
  simpl in Hlen. eapply (runs_done _ _ _ _ _ _ (wait_room fuel a) _ s true s).
  { intros h t. pose proof (full_iff x Hok) as Hf. rewrite bool_decide_eq_false_2 in Hf by lia.
    destruct fuel; simpl; unfold pipe_get, gets, bind; simpl; rewrite Hx; simpl; by rewrite Hf. }
  destruct (push_ok x v Hok) as [Hok' Hc']; [lia|]. eapply runs_pipe_set; [done|].
  eapply runs_mono; [eapply IH; [apply put_pipe_lookup|done|rewrite Hc', length_app; simpl; lia]|].
  intros r s' (-> & x' & -> & Hx' & Hd & Hro & Hwo). split; [done|]. exists x'.
  rewrite put_pipe_twice. split_and!; try done. by rewrite Hd, Hc', <- app_assoc.
Qed.

Lemma piperead_runs a n s x :
  k_pipes s !! a = Some x -> pipe_ok x -> contents x <> [] \/ writeopen x = false ->
  runs c b p d [] [] (piperead a n) s (fun '(r, l) s' =>
    l = take (Z.to_nat n) (contents x) /\ r = Z.of_nat (length l) /\
    exists x', s' = put_pipe a x' s /\ pipe_ok x' /\ contents x' = drop (Z.to_nat n) (contents x)
      /\ readopen x' = readopen x /\ writeopen x' = writeopen x).
Proof.
  intros Hx Hok Hne. unfold piperead. apply runs_acquire; [not_in|].
  eapply (runs_done _ _ _ _ _ _ (wait_bytes fuel a) _ s true s).
  { intros h t. pose proof (empty_iff x Hok) as He.
    destruct fuel; simpl; unfold pipe_get, gets, bind; simpl; rewrite Hx; simpl; rewrite He;
      case_bool_decide as E; simpl; try done; destruct Hne as [?| ->]; done. }
  eapply runs_bind, runs_mono; [by eapply runs_read_bytes|].
  intros l s' (-> & x' & -> & Hx'). apply runs_wakeup; [not_in|]. eapply runs_release; [done|]. runs_step.
  split_and!; [done|done|]. by exists x'.
Qed.

Lemma pipewrite_runs a bytes s x :
  k_pipes s !! a = Some x -> pipe_ok x -> (length (contents x) + length bytes <= 512)%nat ->
  runs c b p d [] [] (pipewrite a bytes (Z.of_nat (length bytes))) s (fun r s' =>
    r = Z.of_nat (length bytes) /\
    exists x', s' = put_pipe a x' s /\ pipe_ok x' /\ contents x' = contents x ++ bytes
      /\ readopen x' = readopen x /\ writeopen x' = writeopen x).
Proof.
  intros Hx Hok Hlen. unfold pipewrite. apply runs_acquire; [not_in|]. rewrite Nat2Z.id.
  eapply runs_bind, runs_mono; [by eapply runs_write_bytes|].
  intros r s' (-> & x' & -> & Hx'). apply runs_wakeup; [not_in|]. eapply runs_release; [done|]. runs_step.
  split; [done|]. by exists x'.
Qed.

End operations.

(** ** A writer that waits *)
Section waiting.
Context `{Fuel} (a : Z).
Implicit Types (s : kernel) (x : pipe) (p : nat) (pr : proc) (qs : aqueues).

(** The invariant the users of the pipe keep while others run. *)
Definition pipe_inv s : Prop := exists x, k_pipes s !! a = Some x /\ pipe_ok x.

#[global] Instance pipe_inv_stable : Stable pipe_inv.
Proof. intros s h t (x & Hx & Hok). by exists x. Qed.

(** The guarantee of a writer that gives the CPU away: the pipe is full. *)
Definition pipe_full s : Prop := exists x, k_pipes s !! a = Some x /\ length (contents x) = 512%nat.

Definition write_protocol p : protocol kernel := or_fuel (proc_protocol p pipe_inv pipe_full).

Lemma wp_pipe_get {A B} P (f : pipe -> B) (k : B -> K A) s Q x :
  k_pipes s !! a = Some x -> wp P (k (f x) s) Q -> wp P ((y <- pipe_get a f ;; k y) s) Q.
Proof. intros Hx Hk. unfold pipe_get. wp_run. by rewrite Hx. Qed.

Lemma wait_room_wp n : forall s c b p pr qs,
  at_proc s c [L_pipe a] b p pr qs -> state pr = RUNNING -> pipe_inv s ->
  wp (write_protocol p) (wait_room n a s) (fun r s' => exists c' pr' qs' x, state pr' = RUNNING /\
    pipe_inv s' /\ k_pipes s' !! a = Some x /\
    if r then at_proc s' c' [L_pipe a] b p pr' qs' /\ length (contents x) <> 512%nat
    else at_proc s' c' [] b p pr' qs' /\ (readopen x = false \/ killed pr' <> 0)).
Proof.
  induction n as [|n IH]; intros s c b p pr qs Hap Hst (x & Hx & Hok); cbn [wait_room];
    (eapply wp_pipe_get; [done|]); rewrite full_iff by done; case_bool_decide as Ef;
    try (apply wp_ret; exists c, pr, qs, x; by split_and!; try exists x);
    (eapply wp_pipe_get; [done|]).
  - destruct (readopen x) eqn:Er; simpl.
    + wp_run. eapply wp_ap_curproc; [done|]. clear Hap. intros h1 Hap.
      wp_run. apply wp_proc_get with pr; [apply Hap|]. wp_run.
      destruct (Z.eqb_spec (killed pr) 0) as [Ek|Ek]; simpl; [by right|].
      eapply wp_ap_release; [done|done|]. intros h2 Hap2. apply wp_ret.
      exists c, pr, qs, x. split_and!; try done; [by exists x|by right].
    + wp_run. eapply wp_ap_release; [done|done|]. intros h2 Hap2. apply wp_ret.
      exists c, pr, qs, x. split_and!; try done; [by exists x|by left].
  - destruct (readopen x) eqn:Er; simpl.
    + wp_run. eapply wp_ap_curproc; [done|]. clear Hap. intros h1 Hap.
      wp_run. apply wp_proc_get with pr; [apply Hap|]. wp_run.
      destruct (Z.eqb_spec (killed pr) 0) as [Ek|Ek]; simpl.
      * eapply wp_ap_wakeup; [done|done|not_in|]. clear Hap. intros h2 t2 pr2 qs2 Hap Hd. apply wp_bind.
        assert (state pr2 = RUNNING) as Hst2 by (injection Hd; congruence).
        eapply wp_protocol; [..|eapply wp_mono; [by eapply (sleep_wp pipe_inv); [exact Hap|exact Hst2|exists x]|]].
        -- intros s1 (? & ? & ? & _ & _ & h & t & ->). split_and!; try done. by exists x.
        -- done.
        -- by left.
        -- intros [] s' (c' & pr' & qs' & Hap' & Hst' & _ & HI'). by eapply IH.
      * eapply wp_ap_release; [done|done|]. intros h2 Hap2. apply wp_ret.
        exists c, pr, qs, x. split_and!; try done; [by exists x|by right].
    + wp_run. eapply wp_ap_release; [done|done|]. intros h2 Hap2. apply wp_ret.
      exists c, pr, qs, x. split_and!; try done; [by exists x|by left].
Qed.

Lemma write_bytes_wp bytes : forall s c b p pr qs,
  at_proc s c [L_pipe a] b p pr qs -> state pr = RUNNING -> pipe_inv s ->
  wp (write_protocol p) (write_bytes a bytes (length bytes) s) (fun r s' => exists c' pr' qs',
    state pr' = RUNNING /\ pipe_inv s' /\ at_proc s' c' (if r then [L_pipe a] else []) b p pr' qs').
Proof.
  induction bytes as [|v bytes IH]; intros s c b p pr qs Hap Hst HI; cbn [write_bytes length].
  { apply wp_ret. by exists c, pr, qs. }
  apply wp_bind. eapply wp_mono; [by eapply wait_room_wp|].
  intros r s' (c' & pr' & qs' & x & Hst' & HI' & Hx & Hr). destruct r.
  - destruct Hr as [Hap' Hl]. destruct HI' as (x' & Hx' & Hok). assert (x' = x) as -> by congruence.
    destruct (push_ok x v Hok Hl) as [Hok' _]. unfold pipe_set. wp_run. rewrite Hx. wp_run.
    eapply (IH (put_pipe a (push_byte v x) s')); [|done|].
    + destruct Hap'. by split.
    + exists (push_byte v x). by rewrite put_pipe_lookup.
  - apply wp_ret. destruct Hr as [Hap' _]. by exists c', pr', qs'.
Qed.

End waiting.

(** ** The main properties *)
Section properties.
Context `{Fuel}.

(** C15: A pipe is a FIFO queue of bytes: a write for which there is room returns
    at once with all bytes queued in order, and a read that follows returns the
    oldest bytes, as many as asked for or as there are; the rest stays queued.
    This holds wherever in the ring the data lie and also when the byte
    counters wrap around 2^32. *)
Theorem pipe_fifo c b p d a s x bytes m :
  k_pipes s !! a = Some x -> pipe_ok x -> bytes <> [] ->
  (length (contents x) + length bytes <= 512)%nat ->
  runs c b p d [] [] (r <- pipewrite a bytes (Z.of_nat (length bytes)) ;; q <- piperead a m ;; ret (r, q)) s
    (fun '(r, (n, l)) s' => r = Z.of_nat (length bytes) /\
       l = take (Z.to_nat m) (contents x ++ bytes) /\ n = Z.of_nat (length l) /\
       exists x', s' = put_pipe a x' s /\ pipe_ok x' /\ contents x' = drop (Z.to_nat m) (contents x ++ bytes)).
Proof.
  intros Hx Hok Hb Hl. eapply runs_bind, runs_mono; [by apply pipewrite_runs|].
  intros r s1 (-> & x1 & -> & Hok1 & Hc1 & _ & _).
  eapply runs_bind, runs_mono; [apply (piperead_runs _ _ _ _ a m _ x1); [apply put_pipe_lookup|done|]|].
  { left. rewrite Hc1. by destruct (contents x), bytes. }
  intros [n l] s2 (-> & -> & x2 & -> & Hok2 & Hc2 & _). runs_step. rewrite Hc1 in *. split_and!; try done.
  exists x2. by rewrite put_pipe_twice.
Qed.

(** Whatever other processes do to the pipe in between, as long as they keep
    it well formed, a writer never overruns the ring: it gives the CPU away
    only when the pipe is full, and returns, holding no lock, with the number
    of bytes or with -1. *)
Theorem pipewrite_blocks a bytes s c b p pr qs :
  at_proc s c [] b p pr qs -> state pr = RUNNING -> pipe_inv a s ->
  wp (write_protocol a p) (pipewrite a bytes (Z.of_nat (length bytes)) s)
    (fun r s' => (r = Z.of_nat (length bytes) \/ r = -1) /\ pipe_inv a s' /\ returned p [] b s').
Proof.
  intros Hap Hst HI. unfold pipewrite. eapply wp_ap_acquire; [done|not_in|]. clear Hap. intros h1 Hap.
  rewrite Nat2Z.id. apply wp_bind. eapply wp_mono; [eapply write_bytes_wp; [done|done|by apply (stable_hw (pipe_inv a))]|].
  intros r s' (c' & pr' & qs' & Hst' & HI' & Hap'). destruct r.
  - eapply wp_ap_wakeup; [done|done|not_in|]. clear Hap'. intros h2 t2 pr2 qs2 Hap' Hd.
    eapply wp_ap_release; [done|done|]. intros h3 Hap3. apply wp_ret. split_and!; [by left|done|].
    exists c', pr2, qs2. split; [done|]. injection Hd. congruence.
  - apply wp_ret. split_and!; [by right|done|]. by exists c', pr', qs'.
Qed.

End properties.

(** A pipe whose counters are about to wrap. *)
Definition demo_pipe : pipe := mkPipe (replicate 512 7) (2 ^ 32 - 2) (2 ^ 32 - 1) true true.

Lemma demo_pipe_ok : pipe_ok demo_pipe.
Proof. split; [done|simpl; lia|simpl; lia|by vm_compute]. Qed.

Lemma pipe_fifo_witness :
  runs 0 true 0 (demo_proc RUNNING 1 0 None None) [] []
    (r <- @pipewrite 0%nat 0x80300000 [1; 2; 3] 3 ;; q <- @piperead 0%nat 0x80300000 2 ;; ret (r, q))
    (put_pipe 0x80300000 demo_pipe (demo_kernel [] (Some 0%nat))) (fun '(r, (n, l)) _ => r = 3 /\ n = 2 /\ l = [7; 1]).
Proof.
  eapply runs_mono; [apply (@pipe_fifo 0%nat 0 true 0 (demo_proc RUNNING 1 0 None None) 0x80300000
    (put_pipe 0x80300000 demo_pipe (demo_kernel [] (Some 0%nat))) demo_pipe [1; 2; 3] 2)|].
  - apply put_pipe_lookup.
  - apply demo_pipe_ok.
  - done.
  - vm_compute. lia.
  - intros [r [n l]] s' (-> & -> & -> & _). by vm_compute.
Defined.

Lemma pipewrite_blocks_witness :
  wp (write_protocol 0x80300000 0)
    (@pipewrite 5%nat 0x80300000 [1; 2] 2 (put_pipe 0x80300000 demo_pipe (demo_kernel [] (Some 0%nat))))
    (fun r _ => r = 2 \/ r = -1).
Proof.
  eapply wp_mono; [apply (@pipewrite_blocks 5%nat 0x80300000 [1; 2]
    (put_pipe 0x80300000 demo_pipe (demo_kernel [] (Some 0%nat))) 0 true 0 (demo_proc RUNNING 1 0 None None) (qs_of demo_queues))|].
  - destruct (demo_at_proc [] (NoDup_nil_2)). by split.
  - reflexivity.
  - exists demo_pipe. split; [apply put_pipe_lookup|apply demo_pipe_ok].
  - by intros r s' [? _].
Defined.
