(* ===== verification/Bio.v ===== *)
(** * The buffer cache and the memory disk ([kernel/bio.c], [kernel/memide.c])

    The buffers of [bcache] are the entries of [k_bufs], linked in a circular
    list through the sentinel [bcache.head] (index [NBUF]), most recently used
    first.  The disk driver is the interface [Disk]; [memide_disk] is the
    driver of [memide.c].  The theorems are about executions in which no other
    process holds the buffers involved: the cache returns what the disk or the
    last writer stored, keeps one buffer per block, and recycles the least
    recently used clean buffer. *)
From S2P Require Import Prelude Types Str Spinlock Queue Sched Context Sleeplock.

(** ** Access to buffers *)
Definition buf_get {A} (i : nat) (f : buf -> A) : K A :=
  o <- gets (fun s => f <$> k_bufs s !! i) ;;
  of_option "buf" o.
Definition buf_set (i : nat) (f : buf -> buf) : K unit :=
  o <- gets (fun s => k_bufs s !! i) ;;
  x <- of_option "buf" o ;;
  modify (fun s => set_k_bufs (<[i := f x]> (k_bufs s)) s).

(** A write of one block to the disk; [k_writes] is a history variable. *)
Definition put_block (n : Z) (dt : list Z) (s : kernel) : kernel :=
  set_k_writes (k_writes s ++ [(n, dt)]) (set_k_disk (<[Z.to_nat n := dt]> (k_disk s)) s).

(** ** The disk driver as [bio.c] sees it *)
Class Disk := iderw : nat -> K unit.

(** [memide.c]: the disk is an array of blocks in memory. *)
Section memide.

Definition flag (fl m : Z) : bool := negb (Z.land fl m =? 0).

Definition memide_iderw (i : nat) : K unit :=
  h <- holdingsleep (SL_buf i) ;;
  if negb h then panic "iderw: buf not locked" else
  fl <- buf_get i b_flags ;;
  if Z.land fl (Z.lor B_VALID B_DIRTY) =? B_VALID then panic "iderw: nothing to do" else
  dv <- buf_get i b_dev ;;
  if negb (dv =? 1) then panic "iderw: request not for disk 1" else
  bn <- buf_get i blockno ;;
  disksize <- gets (fun s => Z.of_nat (length (k_disk s))) ;;
  if disksize <=? bn then panic "iderw: block out of range" else
  (if flag fl B_DIRTY then
     buf_set i (fun x => set_b_flags (Z.land (b_flags x) (Z.lnot B_DIRTY)) x) ;;
     dt <- buf_get i b_data ;;
     modify (put_block bn dt)
   else
     o <- gets (fun s => k_disk s !! Z.to_nat bn) ;;
     dt <- of_option "memdisk" o ;;
     buf_set i (set_b_data dt)) ;;
  buf_set i (fun x => set_b_flags (Z.lor (b_flags x) B_VALID) x).

Definition memide_disk : Disk := memide_iderw.

End memide.

(** ** The code of [bio.c] *)
Section code.
Context `{Fuel} `{Disk}.

(** One round of the loop of [binit] that puts buffer [i] first in the list. *)
Definition binit_step (i : nat) : K unit :=
  n <- buf_get NBUF b_next ;;
  buf_set i (set_b_next n) ;;
  buf_set i (set_b_prev NBUF) ;;
  initsleeplock (SL_buf i) "buffer" ;;
  n <- buf_get NBUF b_next ;;
  buf_set n (set_b_prev i) ;;
  buf_set NBUF (set_b_next i).
Fixpoint binit_loop (idx : list nat) : K unit :=
  match idx with
  | [] => ret tt
  | i :: idx' => binit_step i ;; binit_loop idx'
  end.
Definition binit : K unit :=
  initlock L_bcache "bcache" ;;
  buf_set NBUF (set_b_prev NBUF) ;;
  buf_set NBUF (set_b_next NBUF) ;;
  binit_loop (seq 0 NBUF).

(** The loops of [bget] along the list: the first buffer that satisfies [f],
    following [link] from buffer [i] to the sentinel.  There are [NBUF]
    buffers, so [S NBUF] steps reach it. *)
Fixpoint scan (link : buf -> nat) (f : buf -> bool) (n : nat) (i : nat) (bufs : list buf) : option (option nat) :=
  match n with
  | O => None
  | S n' =>
      if decide (i = NBUF) then Some None
      else x ← bufs !! i; if f x then Some (Some i) else scan link f n' (link x) bufs
  end.
Definition scan_from (link : buf -> nat) (f : buf -> bool) (bufs : list buf) : option (option nat) :=
  hd ← bufs !! NBUF; scan link f (S NBUF) (link hd) bufs.

Definition caches (dev bn : Z) (x : buf) : bool := (b_dev x =? dev) && (blockno x =? bn).
Definition unused (x : buf) : bool := (refcnt x =? 0) && negb (flag (b_flags x) B_DIRTY).

Definition bget (dev bn : Z) : K nat :=
  acquire L_bcache ;;
  o <- gets (fun s => scan_from b_next (caches dev bn) (k_bufs s)) ;;
  r <- of_option "bcache" o ;;
  match r with
  | Some i =>
      buf_set i (fun x => set_refcnt (u32 (refcnt x + 1)) x) ;;
      release L_bcache ;;
      acquiresleep (SL_buf i) ;;
      ret i
  | None =>
      o <- gets (fun s => scan_from b_prev unused (k_bufs s)) ;;
      r <- of_option "bcache" o ;;
      match r with
      | Some i =>
          buf_set i (set_b_dev dev) ;;
          buf_set i (set_blockno bn) ;;
          buf_set i (set_b_flags 0) ;;
          buf_set i (set_refcnt 1) ;;
          release L_bcache ;;
          acquiresleep (SL_buf i) ;;
          ret i
      | None => panic "bget: no buffers"
      end
  end.

Definition bread (dev bn : Z) : K nat :=
  i <- bget dev bn ;;
  fl <- buf_get i b_flags ;;
  whenm (negb (flag fl B_VALID)) (iderw i) ;;
  ret i.

Definition bwrite (i : nat) : K unit :=
  h <- holdingsleep (SL_buf i) ;;
  if negb h then panic "bwrite" else
  buf_set i (fun x => set_b_flags (Z.lor (b_flags x) B_DIRTY) x) ;;
  iderw i.

(** Unlink buffer [i] and put it first in the list. *)
Definition move_front (i : nat) : K unit :=
  n <- buf_get i b_next ;;
  q <- buf_get i b_prev ;;
  buf_set n (set_b_prev q) ;;
  q <- buf_get i b_prev ;;
  n <- buf_get i b_next ;;
  buf_set q (set_b_next n) ;;
  n <- buf_get NBUF b_next ;;
  buf_set i (set_b_next n) ;;
  buf_set i (set_b_prev NBUF) ;;
  n <- buf_get NBUF b_next ;;
  buf_set n (set_b_prev i) ;;
  buf_set NBUF (set_b_next i).

Definition brelse (i : nat) : K unit :=
  h <- holdingsleep (SL_buf i) ;;
  if negb h then panic "brelse" else
  releasesleep (SL_buf i) ;;
  acquire L_bcache ;;
  buf_set i (fun x => set_refcnt (u32 (refcnt x - 1)) x) ;;
  r <- buf_get i refcnt ;;
  whenm (r =? 0) (move_front i) ;;
  release L_bcache.

End code.

(** ** Doubly linked lists

    [seg nx pv x l y]: from [x], the links [nx] lead through [l] to [y], and
    the links [pv] lead back. *)
Section dll.
Implicit Types (nx pv : nat -> nat) (x y z i : nat) (l : list nat).

Fixpoint seg nx pv x l y : Prop :=
  match l with
  | [] => nx x = y /\ pv y = x
  | z :: l' => nx x = z /\ pv z = x /\ seg nx pv z l' y
  end.

Lemma seg_app nx pv l1 : forall x z l2 y,
  seg nx pv x (l1 ++ z :: l2) y <-> seg nx pv x l1 z /\ seg nx pv z l2 y.
Proof.
  induction l1 as [|w l1 IH]; intros x z l2 y; simpl; [tauto|]. rewrite IH. tauto.
Qed.

Lemma seg_ext nx pv nx' pv' l : forall x y,
  (forall i, i ∈ x :: l -> nx' i = nx i) -> (forall i, i ∈ l ++ [y] -> pv' i = pv i) ->
  seg nx pv x l y -> seg nx' pv' x l y.
Proof.
  induction l as [|z l IH]; intros x y Hn Hp; simpl.
  - intros [E1 E2]. split; [by rewrite Hn by left|by rewrite Hp by left].
  - intros (E1 & E2 & Hs). split_and!; [by rewrite Hn by left|by rewrite Hp by left|].
    apply IH; [|intros i Hi; apply Hp; by right|done]. intros i Hi. apply Hn. by right.
Qed.

Lemma seg_last nx pv l : forall x y, seg nx pv x l y -> pv y = default x (last l).
Proof.
  induction l as [|z l IH]; intros x y; simpl; [intros [_ E]; exact E|].
  intros (_ & _ & Hs). rewrite (IH z y Hs), last_cons. by destruct (last l).
Qed.

Lemma seg_head nx pv x l y : seg nx pv x l y -> nx x = default y (head l).
Proof. destruct l; simpl; tauto. Qed.

(** Moving the end of a segment. *)
Lemma seg_relink nx pv nx' pv' l x y y' :
  seg nx pv x l y -> NoDup (x :: l) -> y' ∉ l ->
  (forall i, i ∈ x :: l -> i <> default x (last l) -> nx' i = nx i) ->
  nx' (default x (last l)) = y' ->
  (forall i, i ∈ l -> pv' i = pv i) -> pv' y' = default x (last l) ->
  seg nx' pv' x l y'.
Proof.
  revert x. induction l as [|z l IH]; intros x Hs Hnd Hy Hn Hn' Hp Hp'; [done|].
  cbn [seg] in *. destruct Hs as (E1 & E2 & Hs). apply NoDup_cons in Hnd as [Hx Hnd].
  assert (default x (last (z :: l)) = default z (last l)) as El by (rewrite last_cons; by destruct (last l)).
  rewrite El in *. split_and!.
  - rewrite Hn; [done|left|]. intros ->. apply Hx.
    destruct (last l) as [w|] eqn:Ew; simpl in *; [right; by apply last_Some_elem_of|left].
  - rewrite Hp by left. done.
  - apply IH; try done; [set_solver|intros; apply Hn; [by right|done]|intros; apply Hp; by right].
Qed.

(** Unlinking an element and putting it first. *)
Lemma seg_unlink nx pv nx' pv' hd l1 i l2 :
  seg nx pv hd (l1 ++ i :: l2) hd -> NoDup (hd :: l1 ++ i :: l2) ->
  (forall j, j <> pv i -> nx' j = nx j) -> nx' (pv i) = nx i ->
  (forall j, j <> nx i -> pv' j = pv j) -> pv' (nx i) = pv i ->
  seg nx' pv' hd (l1 ++ l2) hd.
Proof.
  intros Hs Hnd Hn Hn' Hp Hp'. apply seg_app in Hs as [H1 H2].
  pose proof (seg_last _ _ _ _ _ H1) as El. pose proof (seg_head _ _ _ _ _ H2) as Eh.
  apply NoDup_cons in Hnd as [Hhd Hnd]. apply NoDup_app in Hnd as (Hn1 & Hd & Hn2).
  apply NoDup_cons in Hn2 as [Hi Hn2].
  assert (NoDup (hd :: l1)) as Hnd1 by (apply NoDup_cons; split; [set_solver|done]).
  destruct l2 as [|z l2]; simpl in Eh.
  - rewrite app_nil_r. eapply (seg_relink nx pv); try done; [set_solver| |by rewrite <- El, Hn', Eh| |by rewrite <- El, <- Hp', Eh].
    + intros j Hj Hne. apply Hn. congruence.
    + intros j Hj. apply Hp. rewrite Eh. set_solver.
  - apply seg_app. destruct H2 as (_ & Ez & H2). split.
    + eapply (seg_relink nx pv); try done; [set_solver| |by rewrite <- El, Hn', Eh| |by rewrite <- El, <- Hp', Eh].
      * intros j Hj Hne. apply Hn. congruence.
      * intros j Hj. apply Hp. rewrite Eh. set_solver.
    + assert (forall j, j ∈ z :: l2 -> j <> pv i) as Hne.
      { intros j Hj ->. rewrite El in Hj. destruct (last l1) as [w|] eqn:Ew; simpl in Hj; [|set_solver].
        apply last_Some_elem_of in Ew. apply (Hd w Ew). by right. }
      eapply (seg_ext nx pv); [intros j Hj; by apply Hn, Hne| |done].
      intros j Hj. apply Hp. rewrite Eh. apply NoDup_cons in Hn2 as [Hz _]. set_solver.
Qed.

Lemma seg_push nx pv nx' pv' hd l i :
  seg nx pv hd l hd -> NoDup (hd :: l) -> i <> hd -> i ∉ l ->
  nx' i = nx hd -> nx' hd = i -> (forall j, j <> i -> j <> hd -> nx' j = nx j) ->
  pv' i = hd -> pv' (nx hd) = i -> (forall j, j <> i -> j <> nx hd -> pv' j = pv j) ->
  seg nx' pv' hd (i :: l) hd.
Proof.
  intros Hs Hnd Hne Hi E1 E2 E3 E4 E5 E6. simpl. split_and!; [done|done|].
  apply NoDup_cons in Hnd as [Hhd Hnd]. destruct l as [|z l]; simpl in *.
  - destruct Hs as [En Ep]. rewrite E1, En. split; [done|]. by rewrite En in E5.
  - destruct Hs as (En & Ep & Hs). rewrite En in *. split_and!; [done|done|].
    apply NoDup_cons in Hnd as [Hz Hnd].
    eapply (seg_ext nx pv); [| |done]; intros j Hj; [apply E3|apply E6]; set_solver.
Qed.

End dll.

(** ** The list of buffers and the scans along it *)
#[export] Instance buf_inhabited : Inhabited buf := populate buf_zero.

Definition nx (bufs : list buf) (i : nat) : nat := b_next (bufs !!! i).
Definition pv (bufs : list buf) (i : nat) : nat := b_prev (bufs !!! i).

(** The first buffer of the list [l] that satisfies [f]. *)
Fixpoint find_buf (f : buf -> bool) (bufs : list buf) (l : list nat) : option nat :=
  match l with
  | [] => None
  | i :: l' => if f (bufs !!! i) then Some i else find_buf f bufs l'
  end.

Section scans.
Implicit Types (bufs : list buf) (l : list nat) (f : buf -> bool).

Lemma find_buf_some f bufs l i : find_buf f bufs l = Some i -> i ∈ l /\ f (bufs !!! i) = true.
Proof.
  induction l as [|j l IH]; simpl; [done|]. destruct (f (bufs !!! j)) eqn:E.
  - intros [= <-]. split; [left|done].
  - intros Hf. destruct (IH Hf). split; [by right|done].
Qed.

Lemma find_buf_none f bufs l : find_buf f bufs l = None -> forall i, i ∈ l -> f (bufs !!! i) = false.
Proof.
  induction l as [|j l IH]; simpl; [by intros _ i ?%elem_of_nil|]. destruct (f (bufs !!! j)) eqn:E; [done|].
  intros Hf i [->|Hi]%elem_of_cons; auto.
Qed.

Lemma seg_rev nx pv l : forall x y, seg nx pv x l y -> seg pv nx y (reverse l) x.
Proof.
  induction l as [|z l IH]; intros x y; simpl; [tauto|]. intros (E1 & E2 & Hs).
  rewrite reverse_cons. apply seg_app. split; [by apply IH|done].
Qed.

Lemma scan_ok (link : buf -> nat) f bufs qv l : forall n x,
  length bufs = S NBUF -> (forall i, i ∈ l -> (i < NBUF)%nat) -> (length l < n)%nat ->
  seg (fun i => link (bufs !!! i)) qv x l NBUF ->
  scan link f n (link (bufs !!! x)) bufs = Some (find_buf f bufs l).
Proof.
  induction l as [|z l IH]; intros n x Hb Hl Hn Hs; (destruct n as [|n]; [simpl in Hn; lia|]); cbn [scan].
  - destruct Hs as [-> _]. by rewrite decide_True.
  - destruct Hs as (-> & _ & Hs). pose proof (Hl z ltac:(left)). rewrite decide_False by lia.
    destruct (lookup_lt_is_Some_2 bufs z) as [y Hy]; [lia|].
    assert (bufs !!! z = y) as Ey by by apply list_lookup_total_correct.
    rewrite Hy. cbn [find_buf mbind option_bind]. rewrite Ey. destruct (f y); [done|]. rewrite <- Ey.
    apply IH; try done; [|simpl in Hn; lia]. intros i Hi. apply Hl. by right.
Qed.

Lemma lru_bound l : l ≡ₚ seq 0 NBUF -> (forall i, i ∈ l <-> (i < NBUF)%nat) /\ length l = NBUF /\ NoDup (NBUF :: l).
Proof.
  intros Hp. assert (forall i, i ∈ l <-> (i < NBUF)%nat) as Hi.
  { intros i. rewrite Hp, elem_of_seq. lia. }
  split_and!; [done|by rewrite Hp, length_seq|]. apply NoDup_cons. split; [rewrite Hi; lia|]. rewrite Hp. apply NoDup_seq.
Qed.

Lemma scan_from_ok bufs l f :
  length bufs = S NBUF -> l ≡ₚ seq 0 NBUF -> seg (nx bufs) (pv bufs) NBUF l NBUF ->
  scan_from b_next f bufs = Some (find_buf f bufs l) /\
  scan_from b_prev f bufs = Some (find_buf f bufs (reverse l)).
Proof.
  intros Hb Hl Hs. destruct (lru_bound l Hl) as (Hi & Hn & _). unfold scan_from.
  destruct (lookup_lt_is_Some_2 bufs NBUF) as [hd Hhd]; [lia|]. rewrite Hhd. cbn [mbind option_bind].
  rewrite <- (list_lookup_total_correct _ _ _ Hhd). split.
  - eapply (scan_ok b_next); [done|intros i; apply Hi|lia|exact Hs].
  - eapply (scan_ok b_prev); [done|intros i; rewrite elem_of_reverse; apply Hi|rewrite length_reverse; lia|].
    by apply seg_rev in Hs.
Qed.

End scans.

(** ** The contents of the cache *)
Definition valid (x : buf) : bool := flag (b_flags x) B_VALID.
Definition dirty (x : buf) : bool := flag (b_flags x) B_DIRTY.

(** What the file system sees in block [n]: the valid cached copy, if any. *)
Definition content_of (bufs : list buf) (disk : list (list Z)) (n : Z) : option (list Z) :=
  match find_buf (fun x => caches ROOTDEV n x && valid x) bufs (seq 0 NBUF) with
  | Some i => Some (b_data (bufs !!! i))
  | None => disk !! Z.to_nat n
  end.
Definition content (s : kernel) (n : Z) : option (list Z) := content_of (k_bufs s) (k_disk s) n.

(** One buffer per block, except that a buffer never used has device 0. *)
Definition unique_bufs (bufs : list buf) : Prop :=
  forall i j, (i < NBUF)%nat -> (j < NBUF)%nat -> b_dev (bufs !!! i) <> 0 ->
    b_dev (bufs !!! i) = b_dev (bufs !!! j) -> blockno (bufs !!! i) = blockno (bufs !!! j) -> i = j.

(** A buffer by itself: never read, clean, or changed by a transaction. *)
Record buf_ok (disk : list (list Z)) (x : buf) : Prop := {
  bo_flags : b_flags x = 0 \/ b_flags x = B_VALID \/ b_flags x = Z.lor B_VALID B_DIRTY;
  bo_data : length (b_data x) = Z.to_nat BSIZE;
  bo_block : b_flags x <> 0 -> b_dev x = ROOTDEV /\ 0 <= blockno x < Z.of_nat (length disk) }.

Definition coherent (disk : list (list Z)) (x : buf) : Prop :=
  b_flags x = B_VALID -> disk !! Z.to_nat (blockno x) = Some (b_data x).

(** The cache when the process with number [me] has the buffers [held]
    locked and nobody else has any. *)
Record bcache_ok (s : kernel) (me : Z) (lru held : list nat) : Prop := {
  bc_len : length (k_bufs s) = S NBUF;
  bc_list : seg (nx (k_bufs s)) (pv (k_bufs s)) NBUF lru NBUF;
  bc_perm : lru ≡ₚ seq 0 NBUF;
  bc_unique : unique_bufs (k_bufs s);
  bc_bufs : forall i, (i < NBUF)%nat -> buf_ok (k_disk s) (k_bufs s !!! i);
  bc_free : forall i, (i < NBUF)%nat -> i ∉ held ->
    sl_locked (the_sleeplock (SL_buf i) s) = false /\ refcnt (k_bufs s !!! i) = 0
    /\ coherent (k_disk s) (k_bufs s !!! i);
  bc_held : forall i, i ∈ held -> (i < NBUF)%nat /\
    sl_locked (the_sleeplock (SL_buf i) s) = true /\ sl_pid (the_sleeplock (SL_buf i) s) = me /\
    refcnt (k_bufs s !!! i) = 1 /\ valid (k_bufs s !!! i) = true;
  bc_nodup : NoDup held;
  bc_disk : Forall (fun blk => length blk = Z.to_nat BSIZE) (k_disk s) }.

Section contents.
Implicit Types (bufs : list buf) (disk : list (list Z)) (n m : Z) (i j : nat) (x : buf).

Lemma content_cached bufs disk n i :
  unique_bufs bufs -> (i < NBUF)%nat -> b_dev (bufs !!! i) = ROOTDEV -> blockno (bufs !!! i) = n ->
  valid (bufs !!! i) = true -> content_of bufs disk n = Some (b_data (bufs !!! i)).
Proof.
  intros Hu Hi Hd Hn Hv. unfold content_of.
  destruct (find_buf _ _ _) as [j|] eqn:Ef.
  - apply find_buf_some in Ef as [Hj%elem_of_seq Hf]. unfold caches in Hf.
    apply andb_prop in Hf as [[Hd' Hn']%andb_prop _]. apply Z.eqb_eq in Hd', Hn'.
    assert (j = i) as ->; [|done]. apply Hu; [lia|lia| |congruence|congruence]. rewrite Hd'. done.
  - pose proof (find_buf_none _ _ _ Ef i ltac:(apply elem_of_seq; lia)) as Hf. simpl in Hf.
    unfold caches in Hf. by rewrite Hd, Hn, Hv, !Z.eqb_refl in Hf.
Qed.

Lemma content_uncached bufs disk n :
  (forall i, (i < NBUF)%nat -> b_dev (bufs !!! i) = ROOTDEV -> blockno (bufs !!! i) = n -> valid (bufs !!! i) = false) ->
  content_of bufs disk n = disk !! Z.to_nat n.
Proof.
  intros Hno. unfold content_of. destruct (find_buf _ _ _) as [j|] eqn:Ef; [|done].
  apply find_buf_some in Ef as [Hj%elem_of_seq Hf]. unfold caches in Hf.
  apply andb_prop in Hf as [[Hd Hn]%andb_prop Hv]. apply Z.eqb_eq in Hd, Hn. rewrite Hno in Hv; [done|lia|done|done].
Qed.

(** The two cases, for a given block. *)
Lemma content_cases bufs n :
  (exists i, (i < NBUF)%nat /\ b_dev (bufs !!! i) = ROOTDEV /\ blockno (bufs !!! i) = n /\ valid (bufs !!! i) = true) \/
  (forall i, (i < NBUF)%nat -> b_dev (bufs !!! i) = ROOTDEV -> blockno (bufs !!! i) = n -> valid (bufs !!! i) = false).
Proof.
  destruct (find_buf (fun x => caches ROOTDEV n x && valid x) bufs (seq 0 NBUF)) as [j|] eqn:Ef.
  - left. apply find_buf_some in Ef as [Hj%elem_of_seq Hf]. unfold caches in Hf.
    apply andb_prop in Hf as [[Hd Hn]%andb_prop Hv]. apply Z.eqb_eq in Hd, Hn. exists j. split_and!; try done. lia.
  - right. intros i Hi Hd Hn. pose proof (find_buf_none _ _ _ Ef i ltac:(apply elem_of_seq; lia)) as Hf. simpl in Hf.
    unfold caches in Hf. by rewrite Hd, Hn, !Z.eqb_refl in Hf.
Qed.

(** Buffers that show the same valid blocks have the same contents. *)
Lemma content_ext bufs bufs' disk disk' n :
  unique_bufs bufs -> unique_bufs bufs' ->
  (forall i, (i < NBUF)%nat -> b_dev (bufs !!! i) = ROOTDEV -> blockno (bufs !!! i) = n -> valid (bufs !!! i) = true ->
    exists j, (j < NBUF)%nat /\ b_dev (bufs' !!! j) = ROOTDEV /\ blockno (bufs' !!! j) = n /\ valid (bufs' !!! j) = true
      /\ b_data (bufs' !!! j) = b_data (bufs !!! i)) ->
  (forall i, (i < NBUF)%nat -> b_dev (bufs' !!! i) = ROOTDEV -> blockno (bufs' !!! i) = n -> valid (bufs' !!! i) = true ->
    content_of bufs disk n = Some (b_data (bufs' !!! i))) ->
  disk' !! Z.to_nat n = disk !! Z.to_nat n ->
  content_of bufs' disk' n = content_of bufs disk n.
Proof.
  intros Hu Hu' H1 H2 Hd. destruct (content_cases bufs' n) as [(i & Hi & Hdi & Hni & Hvi)|Hno].
  - rewrite (content_cached bufs' disk' n i) by done. by rewrite (H2 i).
  - rewrite (content_uncached bufs' disk' n) by done. rewrite Hd. symmetry. apply content_uncached.
    intros i Hi Hdi Hni. destruct (valid (bufs !!! i)) eqn:Hv; [|done].
    destruct (H1 i Hi Hdi Hni Hv) as (j & Hj & Hdj & Hnj & Hvj & _). rewrite Hno in Hvj; done.
Qed.

End contents.

(** ** Rules for buffers *)
Definition put_buf (i : nat) (x : buf) (s : kernel) : kernel := set_k_bufs (<[i := x]> (k_bufs s)) s.

Section buf_rules.
Context (c : nat) (b : bool) (p : nat) (d : proc).
Implicit Types (s : kernel) (i j : nat) (x : buf).

Lemma runs_buf_get {A B} (f : buf -> B) L L' (k : B -> K A) s Q i :
  (i < length (k_bufs s))%nat -> runs c b p d L L' (k (f (k_bufs s !!! i))) s Q ->
  runs c b p d L L' (y <- buf_get i f ;; k y) s Q.
Proof.
  intros Hi Hk. destruct (lookup_lt_is_Some_2 _ _ Hi) as [x Hx]. unfold buf_get. runs_step.
  eapply runs_of_option; [by rewrite Hx|]. by rewrite (list_lookup_total_correct _ _ _ Hx) in Hk.
Qed.

Lemma runs_buf_set {A} f L L' (k : unit -> K A) s Q i :
  (i < length (k_bufs s))%nat -> runs c b p d L L' (k tt) (put_buf i (f (k_bufs s !!! i)) s) Q ->
  runs c b p d L L' (y <- buf_set i f ;; k y) s Q.
Proof.
  intros Hi Hk. destruct (lookup_lt_is_Some_2 _ _ Hi) as [x Hx]. unfold buf_set. runs_step.
  eapply runs_of_option; [by rewrite Hx|]. runs_step. by rewrite (list_lookup_total_correct _ _ _ Hx) in Hk.
Qed.

Lemma put_buf_lookup i x s : (i < length (k_bufs s))%nat -> k_bufs (put_buf i x s) !!! i = x.
Proof. intros Hi. simpl. by apply list_lookup_total_insert_eq. Qed.

Lemma put_buf_ne i j x s : i <> j -> k_bufs (put_buf i x s) !!! j = k_bufs s !!! j.
Proof. intros Hij. simpl. by apply list_lookup_total_insert_ne. Qed.

Lemma put_buf_length i x s : length (k_bufs (put_buf i x s)) = length (k_bufs s).
Proof. simpl. apply length_insert. Qed.

Lemma put_buf_twice i x y s : put_buf i y (put_buf i x s) = put_buf i y s.
Proof. unfold put_buf. simpl. by rewrite list_insert_insert_eq. Qed.

End buf_rules.

(** What [bio.c] relies on: a driver that completes the request at once, as
    the comment above [iderw] says.  A dirty buffer is written to the disk, one
    that is not valid is read from it; either way it ends valid and clean. *)
Definition synced (i : nat) (s : kernel) : kernel :=
  let x := k_bufs s !!! i in
  if dirty x then
    put_buf i (set_b_flags B_VALID x) (put_block (blockno x) (b_data x) s)
  else
    put_buf i (set_b_flags B_VALID (set_b_data (default [] (k_disk s !! Z.to_nat (blockno x))) x)) s.

Class DiskOk `{Disk} : Prop := iderw_ok : forall A c b p d L' i (k : unit -> K A) s Q,
  (i < NBUF)%nat -> length (k_bufs s) = S NBUF ->
  sl_locked (the_sleeplock (SL_buf i) s) = true -> sl_pid (the_sleeplock (SL_buf i) s) = pid d ->
  b_dev (k_bufs s !!! i) = ROOTDEV -> 0 <= blockno (k_bufs s !!! i) < Z.of_nat (length (k_disk s)) ->
  b_flags (k_bufs s !!! i) = 0 \/ b_flags (k_bufs s !!! i) = Z.lor B_VALID B_DIRTY ->
  runs c b p d [] L' (k tt) (synced i s) Q ->
  runs c b p d [] L' (x <- iderw i ;; k x) s Q.

(** The memory disk is such a driver. *)
#[export] Instance memide_ok : @DiskOk memide_disk.
Proof.
  intros A c b p d L' i k s Q Hi Hlen Hl Hp Hd Hn Hf Hk. unfold iderw, memide_disk, memide_iderw. runs_step.
  apply runs_holdingsleep; [not_in|]. rewrite Hl, Hp, Z.eqb_refl. cbn [andb negb]. runs_step.
  assert (i < length (k_bufs s))%nat as Hi' by lia.
  apply runs_buf_get; [done|]. destruct (Z.eqb_spec (Z.land (b_flags (k_bufs s !!! i)) (Z.lor B_VALID B_DIRTY)) B_VALID) as [E|_].
  { destruct Hf as [Hf|Hf]; rewrite Hf in E; vm_compute in E; discriminate. }
  runs_step. apply runs_buf_get; [done|]. rewrite Hd, Z.eqb_refl. cbn [negb]. runs_step.
  apply runs_buf_get; [done|]. runs_step. destruct (Z.leb_spec (Z.of_nat (length (k_disk s))) (blockno (k_bufs s !!! i))); [lia|]. runs_step.
  unfold synced, dirty in Hk. destruct Hf as [Hf|Hf]; rewrite Hf in *.
  - change (flag 0 B_DIRTY) with false in *. cbv iota beta in Hk |- *. runs_step.
    destruct (lookup_lt_is_Some_2 (k_disk s) (Z.to_nat (blockno (k_bufs s !!! i)))) as [blk Hblk]; [lia|].
    rewrite Hblk in *. runs_step. apply runs_buf_set; [done|]. runs_step. apply runs_buf_set; [by rewrite put_buf_length|].
    rewrite put_buf_lookup, put_buf_twice by done. simpl b_flags. rewrite Hf. exact Hk.
  - change (flag (Z.lor B_VALID B_DIRTY) B_DIRTY) with true in *. cbv iota beta in Hk |- *. runs_step.
    apply runs_buf_set; [done|]. rewrite Hf. runs_step. apply runs_buf_get; [by rewrite put_buf_length|]. runs_step.
    rewrite put_buf_lookup by done.
    match goal with |- runs _ _ _ _ _ _ _ ?s1 _ => set (s2 := s1) end.
    apply (runs_buf_set c b p d _ _ _ _ s2); [unfold s2; simpl; by rewrite length_insert|].
    assert (k_bufs s2 !!! i = set_b_flags (Z.land (Z.lor B_VALID B_DIRTY) (Z.lnot B_DIRTY)) (k_bufs s !!! i)) as E2.
    { unfold s2. simpl. by apply list_lookup_total_insert_eq. }
    rewrite E2. simpl b_flags. unfold s2. unfold put_buf in *. simpl. rewrite list_insert_insert_eq. exact Hk.
Qed.

(** ** Taking and releasing a buffer *)
Section cache.
Context (c : nat) (b : bool) (p : nat) (d : proc).
Implicit Types (s : kernel) (bufs : list buf) (disk : list (list Z)) (i j : nat) (x : buf) (lru held : list nat) (n m : Z).

Lemma nx_put bufs i x : b_next x = b_next (bufs !!! i) -> forall j, nx (<[i := x]> bufs) j = nx bufs j.
Proof.
  intros E j. unfold nx. destruct (decide (i = j)) as [<-|Hne]; [|by rewrite list_lookup_total_insert_ne].
  destruct (decide (i < length bufs)%nat); [by rewrite list_lookup_total_insert_eq|].
  by rewrite list_insert_ge by lia.
Qed.

Lemma pv_put bufs i x : b_prev x = b_prev (bufs !!! i) -> forall j, pv (<[i := x]> bufs) j = pv bufs j.
Proof.
  intros E j. unfold pv. destruct (decide (i = j)) as [<-|Hne]; [|by rewrite list_lookup_total_insert_ne].
  destruct (decide (i < length bufs)%nat); [by rewrite list_lookup_total_insert_eq|].
  by rewrite list_insert_ge by lia.
Qed.

(** Block [n] is in no other buffer than [i]. *)
Definition only_buf bufs i n : Prop :=
  forall j, (j < NBUF)%nat -> j <> i -> b_dev (bufs !!! j) = ROOTDEV -> blockno (bufs !!! j) <> n.

Lemma unique_put bufs i x n :
  unique_bufs bufs -> (i < length bufs)%nat -> only_buf bufs i n -> b_dev x = ROOTDEV -> blockno x = n ->
  unique_bufs (<[i := x]> bufs).
Proof.
  intros Hu Hi Ho Hd Hn j k Hj Hk Hdj Hdk Hb.
  destruct (decide (i = j)) as [<-|Hij], (decide (i = k)) as [<-|Hik]; [done|..].
  - rewrite list_lookup_total_insert_eq in Hdk, Hb by done. rewrite list_lookup_total_insert_ne in Hdk, Hb by done.
    destruct (Ho k Hk); congruence.
  - rewrite (list_lookup_total_insert_eq _ i) in Hdk, Hb by done. rewrite list_lookup_total_insert_ne in Hdk, Hb by done.
    destruct (Ho j Hj); congruence.
  - rewrite !list_lookup_total_insert_ne in * by done. by apply Hu.
Qed.

(** Replacing a buffer that shows block [n], or one whose block is on disk. *)
Lemma content_replace bufs disk i x n :
  unique_bufs bufs -> (i < NBUF)%nat -> (i < length bufs)%nat -> only_buf bufs i n ->
  b_dev x = ROOTDEV -> blockno x = n -> valid x = true ->
  (b_dev (bufs !!! i) = ROOTDEV -> blockno (bufs !!! i) <> n -> valid (bufs !!! i) = true ->
     disk !! Z.to_nat (blockno (bufs !!! i)) = Some (b_data (bufs !!! i))) ->
  forall m, content_of (<[i := x]> bufs) disk m = if decide (m = n) then Some (b_data x) else content_of bufs disk m.
Proof.
  intros Hu Hi Hl Ho Hd Hn Hv Hold m. pose proof (unique_put bufs i x n Hu Hl Ho Hd Hn) as Hu'. case_decide as Em.
  - subst m. rewrite (content_cached _ disk n i); try done; rewrite ?list_lookup_total_insert_eq by done; done.
  - destruct (content_cases bufs m) as [(j & Hj & Hdj & Hnj & Hvj)|Hno].
    + rewrite (content_cached bufs disk m j) by done. destruct (decide (i = j)) as [<-|Hij].
      * rewrite content_uncached.
        -- rewrite <- Hnj. apply Hold; try done. congruence.
        -- intros k Hk Hdk Hnk. destruct (decide (i = k)) as [<-|Hik].
           { rewrite list_lookup_total_insert_eq in Hnk by done. congruence. }
           rewrite list_lookup_total_insert_ne in * by done. destruct Hik. apply Hu; [done|done|by rewrite Hdj|congruence|congruence].
      * rewrite (content_cached _ disk m j); try done; rewrite ?list_lookup_total_insert_ne by done; done.
    + rewrite (content_uncached bufs disk m) by done. apply content_uncached. intros k Hk Hdk Hnk.
      destruct (decide (i = k)) as [<-|Hik].
      { rewrite list_lookup_total_insert_eq in Hnk by done. congruence. }
      rewrite list_lookup_total_insert_ne in * by done. by apply Hno.
Qed.

Lemma sl_taken_ne l l' s : l <> l' -> the_sleeplock l' (sl_taken d l s) = the_sleeplock l' s.
Proof. intros Hne. unfold the_sleeplock, sl_taken. simpl. by rewrite lookup_total_insert_ne. Qed.

(** The cache after a process has taken buffer [i], now [x]. *)
Lemma bcache_take s lru held i x n :
  bcache_ok s (pid d) lru held -> (i < NBUF)%nat -> i ∉ held -> only_buf (k_bufs s) i n ->
  b_next x = b_next (k_bufs s !!! i) -> b_prev x = b_prev (k_bufs s !!! i) ->
  b_dev x = ROOTDEV -> blockno x = n -> refcnt x = 1 -> valid x = true -> buf_ok (k_disk s) x ->
  bcache_ok (sl_taken d (SL_buf i) (put_buf i x s)) (pid d) lru (i :: held).
Proof.
  intros [Hlen Hlist Hperm Huniq Hbufs Hfree Hheld Hnd Hdisk] Hi Hih Ho En Ep Hd Hn Hr Hv Hok.
  assert (i < length (k_bufs s))%nat as Hil by lia.
  split; simpl; try done.
  - by rewrite length_insert.
  - eapply (seg_ext (nx (k_bufs s)) (pv (k_bufs s))); [intros; by apply nx_put|intros; by apply pv_put|done].
  - by apply (unique_put _ i x n).
  - intros j Hj. destruct (decide (i = j)) as [<-|Hij]; [by rewrite list_lookup_total_insert_eq|].
    rewrite list_lookup_total_insert_ne by done. by apply Hbufs.
  - intros j Hj [Hij Hjh]%not_elem_of_cons. rewrite sl_taken_ne by congruence.
    rewrite list_lookup_total_insert_ne by done. by apply Hfree.
  - intros j [->|Hj]%elem_of_cons.
    + destruct (sl_taken_held d (SL_buf i) (put_buf i x s)) as [E1 E2].
      rewrite list_lookup_total_insert_eq by done. by split_and!.
    + assert (i <> j) as Hij by (intros ->; done). rewrite sl_taken_ne by congruence.
      rewrite list_lookup_total_insert_ne by done. by apply Hheld.
  - by apply NoDup_cons.
Qed.

(** The blocks changed since they were read. *)
Definition is_dirty s m : Prop :=
  exists i, (i < NBUF)%nat /\ dirty (k_bufs s !!! i) = true /\ blockno (k_bufs s !!! i) = m.

(** A buffer that [bget] can recycle. *)
Definition room s held : Prop :=
  exists i, (i < NBUF)%nat /\ (i ∉ held) /\ dirty (k_bufs s !!! i) = false.

(** [bget] finds a buffer for block [n]: the one that caches it or one to recycle. *)
Definition available s held n : Prop :=
  (exists i, (i < NBUF)%nat /\ b_dev (k_bufs s !!! i) = ROOTDEV /\ blockno (k_bufs s !!! i) = n) \/ room s held.

(** The state after [bread] of block [n] has returned buffer [i]. *)
Definition reads n s lru held i s' : Prop :=
  (i ∉ held) /\ (i < NBUF)%nat /\ exists x, s' = sl_taken d (SL_buf i) (put_buf i x s) /\
    bcache_ok s' (pid d) lru (i :: held) /\ b_dev x = ROOTDEV /\ blockno x = n /\
    content s n = Some (b_data x) /\ (forall m, content s' m = content s m) /\
    (dirty x = false -> k_disk s !! Z.to_nat n = Some (b_data x)) /\
    (forall m, is_dirty s' m <-> is_dirty s m).

Lemma is_dirty_put s i x :
  (i < length (k_bufs s))%nat -> dirty x = dirty (k_bufs s !!! i) ->
  (dirty x = true -> blockno x = blockno (k_bufs s !!! i)) ->
  forall m, is_dirty (put_buf i x s) m <-> is_dirty s m.
Proof.
  intros Hi Hd Hn m. split; intros (j & Hj & Hdj & Hnj); exists j; (split; [done|]);
    (destruct (decide (i = j)) as [<-|Hij];
      [rewrite put_buf_lookup in * by done|rewrite put_buf_ne in * by done; done]).
  - by rewrite <- Hd, <- Hn.
  - rewrite Hd, Hn by congruence. done.
Qed.

Lemma reads_intro n s lru held i x :
  bcache_ok s (pid d) lru held -> (i < NBUF)%nat -> i ∉ held -> only_buf (k_bufs s) i n ->
  b_next x = b_next (k_bufs s !!! i) -> b_prev x = b_prev (k_bufs s !!! i) ->
  b_dev x = ROOTDEV -> blockno x = n -> refcnt x = 1 -> valid x = true -> buf_ok (k_disk s) x ->
  content s n = Some (b_data x) -> dirty x = dirty (k_bufs s !!! i) ->
  (dirty x = true -> blockno (k_bufs s !!! i) = n) ->
  (dirty x = false -> k_disk s !! Z.to_nat n = Some (b_data x)) ->
  reads n s lru held i (sl_taken d (SL_buf i) (put_buf i x s)).
Proof.
  intros Hbc Hi Hih Ho En Ep Hd Hn Hr Hv Hok Hc Hdd Hdn Hdk.
  assert (i < length (k_bufs s))%nat as Hil by (rewrite (bc_len _ _ _ _ Hbc); lia).
  split_and!; [done|done|]. exists x. split_and!; try done.
  - by apply bcache_take with n.
  - intros m. unfold content. simpl. rewrite (content_replace _ _ i x n); try done; [|apply Hbc|].
    + case_decide as Em; [|done]. by subst m.
    + intros Hdi Hni Hvi. destruct (bc_free _ _ _ _ Hbc i Hi Hih) as (_ & _ & Hco).
      apply Hco. destruct (bo_flags _ _ (bc_bufs _ _ _ _ Hbc i Hi)) as [E|[E|E]]; [|done|].
      * unfold valid in Hvi. by rewrite E in Hvi.
      * destruct Hni. apply Hdn. rewrite Hdd. unfold dirty. by rewrite E.
  - apply is_dirty_put; [done|done|]. intros Hdx. rewrite Hn. symmetry. auto.
Qed.

Context `{Fuel} `{DiskOk}.

(** The end of [bread]: a buffer taken by [bget] is read from the disk if need be. *)
Lemma runs_bread_tail {A} L' (k : nat -> K A) s Q n lru held i x :
  bcache_ok s (pid d) lru held -> 0 <= n < Z.of_nat (length (k_disk s)) ->
  (i < NBUF)%nat -> i ∉ held -> only_buf (k_bufs s) i n ->
  b_next x = b_next (k_bufs s !!! i) -> b_prev x = b_prev (k_bufs s !!! i) ->
  b_dev x = ROOTDEV -> blockno x = n -> refcnt x = 1 -> length (b_data x) = Z.to_nat BSIZE ->
  x = set_refcnt 1 (k_bufs s !!! i) /\ (b_flags x <> 0 -> content s n = Some (b_data x)) \/
    b_flags x = 0 /\ dirty (k_bufs s !!! i) = false ->
  (b_flags x = 0 -> content s n = k_disk s !! Z.to_nat n) ->
  (forall s', reads n s lru held i s' -> runs c b p d [] L' (k i) s' Q) ->
  runs c b p d [] L' (fl <- buf_get i b_flags ;; y <- (whenm (negb (flag fl B_VALID)) (iderw i) ;; ret i) ;; k y)
    (sl_taken d (SL_buf i) (put_buf i x s)) Q.
Proof.
  intros Hbc Hn Hi Hih Ho En Ep Hd Hbn Hr Hlen Hx Hc0 Hk.
  assert (i < length (k_bufs s))%nat as Hil by (rewrite (bc_len _ _ _ _ Hbc); lia).
  set (s1 := sl_taken d (SL_buf i) (put_buf i x s)).
  assert (k_bufs s1 !!! i = x) as E1 by (unfold s1; simpl; by apply list_lookup_total_insert_eq).
  apply runs_buf_get; [unfold s1; simpl; by rewrite length_insert|]. rewrite E1.
  destruct (decide (b_flags x = 0)) as [Ef|Ef].
  - rewrite Ef. change (negb (flag 0 B_VALID)) with true. runs_step.
    destruct (sl_taken_held d (SL_buf i) (put_buf i x s)) as [Hl1 Hl2].
    destruct (lookup_lt_is_Some_2 (k_disk s) (Z.to_nat n)) as [blk Hblk]; [lia|].
    assert (length blk = Z.to_nat BSIZE) as Hbl.
    { apply (proj1 (Forall_lookup _ _) (bc_disk _ _ _ _ Hbc) _ _ Hblk). }
    eapply iderw_ok; try done; [unfold s1; simpl; rewrite length_insert; apply Hbc|by rewrite E1|rewrite E1, Hbn; done|left; by rewrite E1|].
    unfold synced. rewrite E1. assert (dirty x = false) as Hdx by (unfold dirty; by rewrite Ef). rewrite Hdx.
    assert (put_buf i (set_b_flags B_VALID (set_b_data (default [] (k_disk s1 !! Z.to_nat (blockno x))) x)) s1 =
      sl_taken d (SL_buf i) (put_buf i (set_b_flags B_VALID (set_b_data blk x)) s)) as ->.
    { unfold s1, put_buf, sl_taken. simpl. rewrite Hbn, Hblk, list_insert_insert_eq. done. }
    runs_step. apply Hk, reads_intro; try done.
    + split; simpl; [by right; left|done|]. intros _. by rewrite Hd, Hbn.
    + simpl. rewrite Hc0 by done. done.
    + simpl. destruct Hx as [[-> _]|[_ ->]]; [|done]. simpl in Ef. unfold dirty. simpl. by rewrite Ef.
  - destruct Hx as [[Ex Hc]|[? _]]; [|done].
    pose proof (bc_bufs _ _ _ _ Hbc i Hi) as [Hfl Hdl Hblk].
    assert (b_flags x = b_flags (k_bufs s !!! i)) as Efl by by rewrite Ex.
    rewrite <- Efl in Hfl. assert (valid x = true) as Hv by (unfold valid; by destruct Hfl as [?|[-> | ->]]).
    unfold valid in Hv. rewrite Hv. runs_step. apply Hk, reads_intro; try done.
    + split; [done|done|]. intros _. by rewrite Hd, Hbn.
    + by apply Hc.
    + unfold dirty. by rewrite Efl.
    + intros _. by rewrite <- Hbn, Ex.
    + intros Hdx. destruct (bc_free _ _ _ _ Hbc i Hi Hih) as (_ & _ & Hco). rewrite <- Hbn, Ex. simpl.
      apply Hco. rewrite <- Efl. unfold dirty in Hdx. by destruct Hfl as [?|[?|E]]; [..|rewrite E in Hdx].
Qed.

Lemma runs_bread {A} L' (k : nat -> K A) s Q n lru held :
  bcache_ok s (pid d) lru held -> 0 <= n < Z.of_nat (length (k_disk s)) ->
  (forall i, i ∈ held -> blockno (k_bufs s !!! i) <> n) -> available s held n ->
  (forall i s', reads n s lru held i s' -> runs c b p d [] L' (k i) s' Q) ->
  runs c b p d [] L' (x <- bread ROOTDEV n ;; k x) s Q.
Proof.
  intros Hbc Hn Hheld Hroom Hk. unfold bread, bget. runs_step. apply runs_acquire; [not_in|]. runs_step.
  pose proof (bc_perm _ _ _ _ Hbc) as Hperm. destruct (lru_bound lru Hperm) as (Hin & _ & _).
  destruct (scan_from_ok (k_bufs s) lru (caches ROOTDEV n) (bc_len _ _ _ _ Hbc) Hperm (bc_list _ _ _ _ Hbc)) as [-> _].
  runs_step. destruct (find_buf (caches ROOTDEV n) (k_bufs s) lru) as [i|] eqn:Ef.
  - apply find_buf_some in Ef as [Hi%Hin Hf]. apply andb_prop in Hf as [Hd Hb]. apply Z.eqb_eq in Hd, Hb.
    assert (i ∉ held) as Hih by by intros ?%Hheld. pose proof (bc_bufs _ _ _ _ Hbc i Hi) as Hbo.
    destruct (bc_free _ _ _ _ Hbc i Hi Hih) as (Hl & Hr & Hco).
    assert (only_buf (k_bufs s) i n) as Ho.
    { intros j Hj Hji Hdj Hbj. apply Hji. apply (bc_unique _ _ _ _ Hbc); try done; [by rewrite Hdj|congruence|congruence]. }
    runs_step. apply runs_buf_set; [rewrite (bc_len _ _ _ _ Hbc); lia|]. rewrite Hr. change (u32 (0 + 1)) with 1.
    runs_step. eapply runs_release; [done|]. runs_step. apply runs_acquiresleep; [done|not_in|]. runs_step.
    eapply runs_bread_tail; try done; [apply Hbo|left; split; [done|]|..].
    + simpl. intros Hfl. apply content_cached; try done; [apply Hbc|].
      unfold valid. by destruct (bo_flags _ _ Hbo) as [?|[-> | ->]].
    + simpl. intros Hfl. apply content_uncached. intros j Hj Hdj Hbj.
      destruct (decide (j = i)) as [->|Hji]; [unfold valid; by rewrite Hfl|]. by destruct (Ho j Hj Hji Hdj).
    + intros s' Hs'. by apply Hk.
  - pose proof (find_buf_none _ _ _ Ef) as Hno. runs_step.
    destruct (scan_from_ok (k_bufs s) lru unused (bc_len _ _ _ _ Hbc) Hperm (bc_list _ _ _ _ Hbc)) as [_ ->]. runs_step.
    destruct (find_buf unused (k_bufs s) (reverse lru)) as [i|] eqn:Eu.
    2: { destruct Hroom as [(i & Hi & Hdi & Hbi)|(i & Hi & Hih & Hd)].
         { specialize (Hno i (proj2 (Hin i) Hi)). unfold caches in Hno. by rewrite Hdi, Hbi, !Z.eqb_refl in Hno. }
         pose proof (find_buf_none _ _ _ Eu i) as Hu.
         rewrite elem_of_reverse, Hin in Hu. specialize (Hu Hi). unfold unused in Hu.
         destruct (bc_free _ _ _ _ Hbc i Hi Hih) as (_ & Hr & _). rewrite Hr in Hu. unfold dirty in Hd. by rewrite Hd in Hu. }
    apply find_buf_some in Eu as [Hi Hu]. rewrite elem_of_reverse, Hin in Hi.
    apply andb_prop in Hu as [Hr Hd]. apply Z.eqb_eq in Hr. apply negb_true_iff in Hd.
    assert (i ∉ held) as Hih.
    { intros Hh. destruct (bc_held _ _ _ _ Hbc i Hh) as (_ & _ & _ & Hr' & _). lia. }
    destruct (bc_free _ _ _ _ Hbc i Hi Hih) as (Hl & _ & Hco).
    assert (forall j, (j < NBUF)%nat -> b_dev (k_bufs s !!! j) = ROOTDEV -> blockno (k_bufs s !!! j) <> n) as Hnone.
    { intros j Hj Hdj Hbj. specialize (Hno j (proj2 (Hin j) Hj)). unfold caches in Hno.
      by rewrite Hdj, Hbj, !Z.eqb_refl in Hno. }
    assert (i < length (k_bufs s))%nat as Hil by (rewrite (bc_len _ _ _ _ Hbc); lia).
    runs_step. do 4 (apply runs_buf_set; [rewrite ?put_buf_length; done|];
      rewrite ?put_buf_lookup, ?put_buf_twice by (rewrite ?put_buf_length; done); runs_step).
    eapply runs_release; [done|]. runs_step. apply runs_acquiresleep; [done|not_in|]. runs_step.
    eapply runs_bread_tail; try done; [by intros j ? ?; apply Hnone|apply (bc_bufs _ _ _ _ Hbc i Hi)|by right|..].
    + intros _. apply content_uncached. intros j Hj Hdj Hbj. by destruct (Hnone j Hj Hdj).
    + intros s' Hs'. by apply Hk.
Qed.

(** There is a buffer to recycle as long as the changed blocks and the held
    buffers are fewer than [NBUF]. *)
Lemma room_by_count s lru held (bs : list Z) :
  bcache_ok s (pid d) lru held -> (forall m, is_dirty s m -> m ∈ bs) -> (length bs + length held < NBUF)%nat ->
  room s held.
Proof.
  intros Hbc Hbs Hlen.
  destruct (decide (Exists (fun i => (i ∉ held) /\ dirty (k_bufs s !!! i) = false) (seq 0 NBUF))) as [He|Hne].
  { apply Exists_exists in He as (i & Hi%elem_of_seq & Hih & Hd). exists i. split_and!; [lia|done|done]. }
  exfalso. apply not_Exists_Forall in Hne; [|intros; apply _]. rewrite Forall_forall in Hne.
  set (l := filter (fun i => i ∉ held) (seq 0 NBUF)).
  assert (forall i, i ∈ l -> (i < NBUF)%nat /\ dirty (k_bufs s !!! i) = true) as Hl.
  { intros i [Hih Hi]%list_elem_of_filter. pose proof (Hne i Hi) as Hn. apply elem_of_seq in Hi. split; [lia|].
    destruct (dirty _) eqn:E; [done|]. by destruct Hn. }
  assert (NoDup l) as Hnl by (apply NoDup_filter, NoDup_seq).
  assert (NoDup ((fun i => blockno (k_bufs s !!! i)) <$> l)) as Hnd.
  { apply NoDup_fmap_2_strong; [|done]. intros i j Hi Hj E. destruct (Hl i Hi) as [Hi' Hdi], (Hl j Hj) as [Hj' Hdj].
    assert (forall k, (k < NBUF)%nat -> dirty (k_bufs s !!! k) = true -> b_dev (k_bufs s !!! k) = ROOTDEV) as Hdev.
    { intros k Hk Hdk. apply (bo_block _ _ (bc_bufs _ _ _ _ Hbc k Hk)). intros E0. unfold dirty in Hdk. by rewrite E0 in Hdk. }
    apply (bc_unique _ _ _ _ Hbc); try done; rewrite ?Hdev by done; done. }
  assert (length l <= length bs)%nat as Hle1.
  { rewrite <- (length_fmap (fun i => blockno (k_bufs s !!! i)) l). apply submseteq_length, NoDup_submseteq; [done|].
    intros m [i [-> Hi]]%list_elem_of_fmap. apply Hbs. destruct (Hl i Hi). by exists i. }
  assert (NBUF <= length l + length held)%nat as Hle2; [|lia].
  transitivity (length (seq 0 NBUF)); [by rewrite length_seq|]. rewrite <- length_app. apply submseteq_length, NoDup_submseteq; [apply NoDup_seq|].
  intros i Hi. apply elem_of_app. destruct (decide (i ∈ held)); [by right|left]. apply list_elem_of_filter. done.
Qed.

Lemma bcache_held_perm s lru held held' :
  bcache_ok s (pid d) lru held -> held ≡ₚ held' -> bcache_ok s (pid d) lru held'.
Proof.
  intros [] Hp. split; try done; [|intros i; rewrite <- Hp; auto|by rewrite <- Hp].
  intros i Hi Hih. rewrite <- Hp in Hih. auto.
Qed.

End cache.

(** ** Moving a buffer to the front of the list *)
Section front.
Implicit Types (bufs : list buf) (i j v : nat) (x : buf).

(** A buffer apart from its links. *)
Definition strip x : buf := set_b_next 0 (set_b_prev 0 x).

(** The assignments [b->next = v] and [b->prev = v]. *)
Definition set_next i v bufs : list buf := <[i := set_b_next v (bufs !!! i)]> bufs.
Definition set_prev i v bufs : list buf := <[i := set_b_prev v (bufs !!! i)]> bufs.

Lemma nx_set_next bufs i v j : (i < length bufs)%nat ->
  nx (set_next i v bufs) j = if decide (i = j) then v else nx bufs j.
Proof.
  intros Hi. unfold nx, set_next.
  case_decide as E; [subst j; by rewrite list_lookup_total_insert_eq|by rewrite list_lookup_total_insert_ne].
Qed.
Lemma pv_set_prev bufs i v j : (i < length bufs)%nat ->
  pv (set_prev i v bufs) j = if decide (i = j) then v else pv bufs j.
Proof.
  intros Hi. unfold pv, set_prev.
  case_decide as E; [subst j; by rewrite list_lookup_total_insert_eq|by rewrite list_lookup_total_insert_ne].
Qed.
Lemma pv_set_next bufs i v j : pv (set_next i v bufs) j = pv bufs j.
Proof. by apply pv_put. Qed.
Lemma nx_set_prev bufs i v j : nx (set_prev i v bufs) j = nx bufs j.
Proof. by apply nx_put. Qed.
Lemma set_next_length i v bufs : length (set_next i v bufs) = length bufs.
Proof. apply length_insert. Qed.
Lemma set_prev_length i v bufs : length (set_prev i v bufs) = length bufs.
Proof. apply length_insert. Qed.

Lemma strip_put bufs i x j : strip x = strip (bufs !!! i) -> strip (<[i := x]> bufs !!! j) = strip (bufs !!! j).
Proof.
  intros E. destruct (decide (i = j)) as [<-|Hij]; [|by rewrite list_lookup_total_insert_ne].
  destruct (decide (i < length bufs)%nat); [by rewrite list_lookup_total_insert_eq|by rewrite list_insert_ge by lia].
Qed.

(** The assignments of [brelse], in two steps: unlink, and insert after the head. *)
Definition unlink i bufs : list buf :=
  let bufs := set_prev (nx bufs i) (pv bufs i) bufs in
  set_next (pv bufs i) (nx bufs i) bufs.
Definition push_front i bufs : list buf :=
  let bufs := set_next i (nx bufs NBUF) bufs in
  let bufs := set_prev i NBUF bufs in
  let bufs := set_prev (nx bufs NBUF) i bufs in
  set_next NBUF i bufs.

(** All links stay inside the array. *)
Definition bounded bufs : Prop := length bufs = S NBUF /\ forall j, (nx bufs j <= NBUF /\ pv bufs j <= NBUF)%nat.

Lemma bounded_next i v bufs : bounded bufs -> (i <= NBUF)%nat -> (v <= NBUF)%nat -> bounded (set_next i v bufs).
Proof.
  intros [Hl Hb] Hi Hv. split; [by rewrite set_next_length|]. intros j.
  rewrite nx_set_next, pv_set_next by lia. case_decide; [|apply Hb]. split; [done|apply Hb].
Qed.
Lemma bounded_prev i v bufs : bounded bufs -> (i <= NBUF)%nat -> (v <= NBUF)%nat -> bounded (set_prev i v bufs).
Proof.
  intros [Hl Hb] Hi Hv. split; [by rewrite set_prev_length|]. intros j.
  rewrite pv_set_prev, nx_set_prev by lia. case_decide; [|apply Hb]. split; [apply Hb|done].
Qed.

Lemma seg_links nx pv l : forall (x y : nat) j,
  seg nx pv x l y -> (j ∈ x :: l -> nx j ∈ l ++ [y]) /\ (j ∈ l ++ [y] -> pv j ∈ x :: l).
Proof.
  induction l as [|z l IH]; intros x y j; cbn [seg].
  - intros [E1 E2]. split; intros ->%list_elem_of_singleton; [rewrite E1|rewrite E2]; left.
  - intros (E1 & E2 & Hs). destruct (IH z y j Hs) as [Hn Hp]. split.
    + intros [->|Hj]%elem_of_cons; [rewrite E1; left|right; by apply Hn].
    + intros [->|Hj]%elem_of_cons; [rewrite E2; left|right; by apply Hp].
Qed.

Lemma seg_bounded bufs l : length bufs = S NBUF -> l ≡ₚ seq 0 NBUF ->
  seg (nx bufs) (pv bufs) NBUF l NBUF -> bounded bufs.
Proof.
  intros Hl Hp Hs. destruct (lru_bound l Hp) as (Hin & _ & _). split; [done|]. intros j.
  destruct (seg_links _ _ _ _ _ j Hs) as [H1 H2]. destruct (decide (j <= NBUF)%nat) as [Hj|Hj].
  - assert (forall k, k ∈ l ++ [NBUF] -> (k <= NBUF)%nat) as Hb.
    { intros k [Hk%Hin| ->%list_elem_of_singleton]%elem_of_app; lia. }
    assert (forall k, k ∈ NBUF :: l -> (k <= NBUF)%nat) as Hb'.
    { intros k [->|Hk%Hin]%elem_of_cons; lia. }
    split; [apply Hb, H1|apply Hb', H2]; (destruct (decide (j = NBUF)) as [->|Hne]; [set_solver|]);
      assert (j ∈ l) by (apply Hin; lia); set_solver.
  - unfold nx, pv. rewrite (list_lookup_total_alt bufs j), lookup_ge_None_2 by lia. done.
Qed.

Lemma runs_next {A} c b p d L L' (k : unit -> K A) s Q i v :
  bounded (k_bufs s) -> (i <= NBUF)%nat -> runs c b p d L L' (k tt) (set_k_bufs (set_next i v (k_bufs s)) s) Q ->
  runs c b p d L L' (x <- buf_set i (set_b_next v) ;; k x) s Q.
Proof. intros [Hl _] Hi Hk. apply runs_buf_set; [lia|exact Hk]. Qed.
Lemma runs_prev {A} c b p d L L' (k : unit -> K A) s Q i v :
  bounded (k_bufs s) -> (i <= NBUF)%nat -> runs c b p d L L' (k tt) (set_k_bufs (set_prev i v (k_bufs s)) s) Q ->
  runs c b p d L L' (x <- buf_set i (set_b_prev v) ;; k x) s Q.
Proof. intros [Hl _] Hi Hk. apply runs_buf_set; [lia|exact Hk]. Qed.

(** [move_front] computes these lists. *)
Lemma runs_move_front {A} c b p d L L' (k : unit -> K A) s Q i :
  bounded (k_bufs s) -> (i < NBUF)%nat ->
  runs c b p d L L' (k tt) (set_k_bufs (push_front i (unlink i (k_bufs s))) s) Q ->
  runs c b p d L L' (x <- move_front i ;; k x) s Q.
Proof.
  intros Hb Hi Hk. unfold move_front.
  assert (forall bufs j, bounded bufs -> (nx bufs j <= NBUF)%nat) as Hn by (intros ?? [_ ?]; apply H).
  assert (forall bufs j, bounded bufs -> (pv bufs j <= NBUF)%nat) as Hp by (intros ?? [_ ?]; apply H).
  repeat (runs_step; cbn [k_bufs set_k_bufs]; first
    [ apply runs_buf_get; [cbn [k_bufs set_k_bufs]; rewrite ?set_next_length, ?set_prev_length, ?set_next_length, ?set_prev_length,
        ?set_next_length; destruct Hb; lia|]
    | apply runs_next; cbn [k_bufs set_k_bufs]; [| |]
    | apply runs_prev; cbn [k_bufs set_k_bufs]; [| |] ]);
    [..|exact Hk]; repeat first [done | lia | apply bounded_next | apply bounded_prev | apply Hn | apply Hp].
Qed.

Lemma move_front_seg bufs i l1 l2 :
  length bufs = S NBUF -> l1 ++ i :: l2 ≡ₚ seq 0 NBUF ->
  seg (nx bufs) (pv bufs) NBUF (l1 ++ i :: l2) NBUF ->
  seg (nx (push_front i (unlink i bufs))) (pv (push_front i (unlink i bufs))) NBUF (i :: l1 ++ l2) NBUF.
Proof.
  intros Hlen Hp Hs. destruct (lru_bound _ Hp) as (Hin & _ & Hnd).
  destruct (seg_bounded bufs _ Hlen Hp Hs) as [_ Hb].
  assert (i < NBUF)%nat as Hi by (apply Hin; set_solver).
  assert (NoDup (NBUF :: l1 ++ l2) /\ i ∉ l1 ++ l2) as [Hnd2 Hil].
  { apply NoDup_cons in Hnd as [Hh Hnd]. rewrite <- Permutation_middle in Hnd, Hh.
    apply NoDup_cons in Hnd as [Hi' Hnd]. split; [|done]. apply NoDup_cons. split; [|done]. set_solver. }
  set (B := set_prev (nx bufs i) (pv bufs i) bufs).
  assert (forall j, nx B j = nx bufs j) as HnB by (intros; apply nx_set_prev).
  assert (nx bufs i <> i) as Hne.
  { apply seg_app in Hs as [_ H2]. destruct (seg_links _ _ _ _ _ i H2) as [Hl _].
    specialize (Hl ltac:(left)). intros E. rewrite E in Hl. apply NoDup_cons in Hnd as [_ Hnd].
    apply NoDup_app in Hnd as (_ & _ & [Hni _]%NoDup_cons). apply elem_of_app in Hl as [?|?%list_elem_of_singleton]; [done|lia]. }
  assert (pv B i = pv bufs i) as HpB.
  { unfold B. rewrite pv_set_prev by (destruct (Hb i); lia). by rewrite decide_False. }
  assert (length B = S NBUF) as HBl by (unfold B; by rewrite set_prev_length).
  assert (seg (nx (unlink i bufs)) (pv (unlink i bufs)) NBUF (l1 ++ l2) NBUF) as Hs2.
  { unfold unlink. cbv zeta. fold B. rewrite HnB, HpB. pose proof (Hb i).
    eapply (seg_unlink (nx bufs) (pv bufs)); [exact Hs|exact Hnd|..]; intros; rewrite ?pv_set_next, ?nx_set_next by lia.
    - rewrite decide_False by (by apply not_eq_sym). apply HnB.
    - by rewrite decide_True.
    - unfold B. rewrite pv_set_prev by lia. by rewrite decide_False by (by apply not_eq_sym).
    - unfold B. rewrite pv_set_prev by lia. by rewrite decide_True. }
  assert (length (unlink i bufs) = S NBUF) as Hul by (unfold unlink; cbv zeta; by rewrite set_next_length).
  revert Hs2 Hul. generalize (unlink i bufs). intros U Hs2 Hul.
  assert (nx U NBUF <= NBUF /\ nx U NBUF <> i)%nat as [Hn Hni].
  { rewrite (seg_head _ _ _ _ _ Hs2). destruct (l1 ++ l2) as [|z l] eqn:El; simpl; [lia|].
    assert (z ∈ l1 ++ i :: l2) as Hz by (rewrite <- Permutation_middle, El; set_solver).
    split; [by apply Nat.lt_le_incl, Hin|]. intros ->. apply Hil. left. }
  assert (nx (set_prev i NBUF (set_next i (nx U NBUF) U)) NBUF = nx U NBUF) as En.
  { rewrite nx_set_prev, nx_set_next by lia. by rewrite decide_False by lia. }
  unfold push_front. cbv zeta. rewrite En.
  eapply (seg_push (nx U) (pv U)); try done; [lia|..]; intros;
    repeat (rewrite ?nx_set_prev, ?pv_set_next, ?nx_set_next, ?pv_set_prev
              by (rewrite ?set_next_length, ?set_prev_length, ?set_next_length, ?set_prev_length; lia); try case_decide; try lia); done.
Qed.

Lemma move_front_strip bufs i j : strip (push_front i (unlink i bufs) !!! j) = strip (bufs !!! j).
Proof. unfold push_front, unlink, set_next, set_prev. cbv zeta. by rewrite !strip_put. Qed.

Lemma move_front_refcnt bufs i j : refcnt (bufs !!! j) = refcnt (push_front i (unlink i bufs) !!! j).
Proof. pose proof (f_equal refcnt (move_front_strip bufs i j)) as E. by simpl in E. Qed.

Lemma move_front_length bufs i : length (push_front i (unlink i bufs)) = length bufs.
Proof. unfold push_front, unlink, set_next, set_prev. cbv zeta. by rewrite !length_insert. Qed.

End front.

(** ** Releasing and writing a buffer *)
Section release.
Context (c : nat) (b : bool) (p : nat) (d : proc) `{Fuel} `{DiskOk}.
Implicit Types (s : kernel) (bufs : list buf) (disk : list (list Z)) (i j : nat) (x : buf) (lru held : list nat) (n m : Z).

(** A buffer apart from the links and the reference count. *)
Definition core x : buf := set_refcnt 0 (strip x).

Lemma core_content bufs bufs' disk n :
  (forall j, core (bufs' !!! j) = core (bufs !!! j)) -> content_of bufs' disk n = content_of bufs disk n.
Proof.
  intros Hc. unfold content_of.
  assert (forall l, find_buf (fun x => caches ROOTDEV n x && valid x) bufs' l =
                    find_buf (fun x => caches ROOTDEV n x && valid x) bufs l) as ->.
  { induction l as [|j l IH]; simpl; [done|]. rewrite IH. pose proof (Hc j) as E.
    injection E as E1 E2 E3 E4 E5. unfold caches, valid. by rewrite E1, E2, E3. }
  destruct (find_buf _ _ _) as [j|]; [|done]. pose proof (Hc j) as E. by injection E as _ _ _ _ ->.
Qed.

Lemma sl_released_at l s : sl_locked (the_sleeplock l (sl_released l s)) = false.
Proof. unfold the_sleeplock, sl_released. simpl. by rewrite lookup_total_insert_eq. Qed.
Lemma sl_released_ne l l' s : l <> l' -> the_sleeplock l' (sl_released l s) = the_sleeplock l' s.
Proof. intros Hne. unfold the_sleeplock, sl_released. simpl. by rewrite lookup_total_insert_ne. Qed.

(** The state after [brelse] of buffer [i]. *)
Definition releases s lru held i s' : Prop :=
  exists bufs lru', s' = set_k_bufs bufs (sl_released (SL_buf i) s) /\
    bcache_ok s' (pid d) lru' held /\ (exists l1 l2, lru = l1 ++ i :: l2 /\ lru' = i :: l1 ++ l2) /\
    (forall j, core (bufs !!! j) = core (k_bufs s !!! j)).

Lemma bcache_release s lru held i bufs lru' :
  bcache_ok s (pid d) lru (i :: held) -> coherent (k_disk s) (k_bufs s !!! i) ->
  length bufs = S NBUF -> seg (nx bufs) (pv bufs) NBUF lru' NBUF -> lru' ≡ₚ seq 0 NBUF ->
  (forall j, core (bufs !!! j) = core (k_bufs s !!! j)) ->
  (forall j, refcnt (bufs !!! j) = if decide (j = i) then 0 else refcnt (k_bufs s !!! j)) ->
  bcache_ok (set_k_bufs bufs (sl_released (SL_buf i) s)) (pid d) lru' held.
Proof.
  intros [Hlen Hlist Hperm Huniq Hbufs Hfree Hheld Hnd Hdisk] Hco Hl Hs Hp Hc Hr.
  assert (forall j, b_flags (bufs !!! j) = b_flags (k_bufs s !!! j) /\ b_dev (bufs !!! j) = b_dev (k_bufs s !!! j) /\
    blockno (bufs !!! j) = blockno (k_bufs s !!! j) /\ b_data (bufs !!! j) = b_data (k_bufs s !!! j)) as Hf.
  { intros j. pose proof (Hc j) as E. by injection E as ? ? ? ? ?. }
  apply NoDup_cons in Hnd as [Hni Hnd].
  assert (forall j, the_sleeplock (SL_buf j) (set_k_bufs bufs (sl_released (SL_buf i) s)) =
    the_sleeplock (SL_buf j) (sl_released (SL_buf i) s)) as Hsl by done.
  split; simpl; try done.
  - intros j k Hj Hk. destruct (Hf j) as (_ & -> & -> & _), (Hf k) as (_ & -> & -> & _). by apply Huniq.
  - intros j Hj. destruct (Hbufs j Hj) as [G1 G2 G3]. destruct (Hf j) as (E1 & E2 & E3 & E4).
    split; by rewrite ?E1, ?E2, ?E3, ?E4.
  - intros j Hj Hjh. rewrite Hsl, Hr. destruct (Hf j) as (E1 & E2 & E3 & E4).
    assert (coherent (k_disk s) (k_bufs s !!! j) -> coherent (k_disk s) (bufs !!! j)) as Hcj.
    { unfold coherent. by rewrite E1, E3, E4. }
    case_decide as Eji.
    + subst j. rewrite sl_released_at. split_and!; [done|done|by apply Hcj].
    + rewrite sl_released_ne by congruence. destruct (Hfree j Hj) as (? & ? & ?); [by apply not_elem_of_cons|].
      split_and!; [done|done|by apply Hcj].
  - intros j Hj. destruct (Hheld j) as (G1 & G2 & G3 & G4 & G5); [by right|]. destruct (Hf j) as (E1 & _).
    assert (j <> i) as Hji by (intros ->; done).
    rewrite Hsl, sl_released_ne, Hr, decide_False by congruence. unfold valid in *. rewrite E1. done.
Qed.

Lemma runs_brelse {A} L' (k : unit -> K A) s Q lru held i :
  bcache_ok s (pid d) lru (i :: held) -> coherent (k_disk s) (k_bufs s !!! i) ->
  (forall s', releases s lru held i s' -> runs c b p d [] L' (k tt) s' Q) ->
  runs c b p d [] L' (x <- brelse i ;; k x) s Q.
Proof.
  intros Hbc Hco Hk. destruct (bc_held _ _ _ _ Hbc i) as (Hi & Hl & Hpid & Hr & Hv); [left|].
  pose proof (bc_len _ _ _ _ Hbc) as Hlen. pose proof (bc_perm _ _ _ _ Hbc) as Hp.
  unfold brelse. runs_step. apply runs_holdingsleep; [not_in|]. rewrite Hl, Hpid, Z.eqb_refl. cbn [andb negb]. runs_step.
  apply runs_releasesleep; [not_in|not_in|]. runs_step. apply runs_acquire; [not_in|]. runs_step.
  assert (i < length (k_bufs s))%nat as Hil by lia.
  apply runs_buf_set; [done|]. runs_step. apply runs_buf_get; [by rewrite put_buf_length|].
  rewrite put_buf_lookup by done. change (k_bufs (sl_released (SL_buf i) s)) with (k_bufs s). rewrite Hr.
  change (u32 (1 - 1)) with 0. cbn [refcnt set_refcnt]. change (0 =? 0) with true. runs_step.
  set (x0 := set_refcnt 0 (k_bufs s !!! i)). set (B := <[i := x0]> (k_bufs s)).
  assert (seg (nx B) (pv B) NBUF lru NBUF) as Hs.
  { eapply (seg_ext (nx (k_bufs s)) (pv (k_bufs s))); [intros; by apply nx_put|intros; by apply pv_put|apply Hbc]. }
  assert (length B = S NBUF) as HBl by (unfold B; by rewrite length_insert).
  apply runs_move_front; [by apply (seg_bounded B lru)|done|]. eapply runs_release; [done|].
  destruct (lru_bound lru Hp) as (Hin & _ & _). pose proof (proj2 (Hin i) Hi) as (l1 & l2 & El)%list_elem_of_split.
  apply Hk. exists (push_front i (unlink i B)), (i :: l1 ++ l2).
  assert (forall j, core (push_front i (unlink i B) !!! j) = core (k_bufs s !!! j)) as Hc.
  { intros j. unfold core. rewrite move_front_strip. unfold B. destruct (decide (i = j)) as [<-|Hij];
      [by rewrite list_lookup_total_insert_eq|by rewrite list_lookup_total_insert_ne]. }
  split_and!; [done| |by exists l1, l2|done].
  apply (bcache_release s lru); try done.
  - by rewrite move_front_length.
  - apply move_front_seg; [done|by rewrite <- El|by rewrite <- El].
  - by rewrite Permutation_middle, <- El.
  - intros j. change (k_bufs (put_buf i x0 (sl_released (SL_buf i) s))) with B.
    rewrite <- (move_front_refcnt B i j). unfold B.
    destruct (decide (i = j)) as [<-|Hij]; [by rewrite list_lookup_total_insert_eq, decide_True|].
    by rewrite list_lookup_total_insert_ne, decide_False by congruence.
Qed.

(** The state after [bwrite] of buffer [i]: the disk has its data. *)
Definition written i s : kernel :=
  let x := k_bufs s !!! i in
  put_buf i (set_b_flags B_VALID x) (put_block (blockno x) (b_data x) s).

Lemma bcache_written s lru held i :
  bcache_ok s (pid d) lru held -> i ∈ held ->
  bcache_ok (written i s) (pid d) lru held /\ coherent (k_disk (written i s)) (k_bufs (written i s) !!! i) /\
  (forall m, 0 <= m -> content (written i s) m = content s m).
Proof.
  intros Hbc Hih. destruct (bc_held _ _ _ _ Hbc i Hih) as (Hi & Hl & Hpid & Hr & Hv).
  assert (i < length (k_bufs s))%nat as Hil by (rewrite (bc_len _ _ _ _ Hbc); lia).
  destruct (bc_bufs _ _ _ _ Hbc i Hi) as [Hfl Hdl Hblk].
  assert (b_flags (k_bufs s !!! i) <> 0) as Hf0 by (intros E; unfold valid in Hv; by rewrite E in Hv).
  destruct (Hblk Hf0) as [Hdev Hbn]. unfold written. set (x := k_bufs s !!! i) in *.
  assert (unique_bufs (<[i := set_b_flags B_VALID x]> (k_bufs s))) as Hu.
  { apply (unique_put _ i _ (blockno x)); try done; [apply Hbc|].
    intros j Hj Hji Hdj Hbj. apply Hji. apply (bc_unique _ _ _ _ Hbc); [done|done|by rewrite Hdj|by fold x; rewrite Hdj|done]. }
  assert (forall j, j <> i -> (j < NBUF)%nat -> b_flags (k_bufs s !!! j) <> 0 -> blockno (k_bufs s !!! j) <> blockno x) as Hne.
  { intros j Hji Hj Hfj Hbj. apply Hji. destruct (bo_block _ _ (bc_bufs _ _ _ _ Hbc j Hj) Hfj) as [Hdj _].
    apply (bc_unique _ _ _ _ Hbc); [done|done|by rewrite Hdj|by fold x; rewrite Hdj|done]. }
  split_and!.
  - destruct Hbc as [Hlen Hlist Hperm Huniq Hbufs Hfree Hheld Hnd Hdisk]. split; simpl; try done.
    + by rewrite length_insert.
    + eapply (seg_ext (nx (k_bufs s)) (pv (k_bufs s))); [intros; by apply nx_put|intros; by apply pv_put|done].
    + intros j Hj. destruct (decide (i = j)) as [<-|Hij].
      * rewrite list_lookup_total_insert_eq by done. split; simpl; [by right; left|done|]. by rewrite length_insert.
      * rewrite list_lookup_total_insert_ne by done. destruct (Hbufs j Hj) as [? ? ?]. split; try done. by rewrite length_insert.
    + intros j Hj Hjh. assert (i <> j) as Hij by (intros ->; done).
      rewrite list_lookup_total_insert_ne by done. destruct (Hfree j Hj Hjh) as (? & ? & Hco). split_and!; try done.
      intros Hvj. assert (b_flags (k_bufs s !!! j) <> 0) as Hj0 by by rewrite Hvj.
      pose proof (Hne j (not_eq_sym Hij) Hj Hj0). destruct (bo_block _ _ (Hbufs j Hj) Hj0) as [_ ?].
      rewrite list_lookup_insert_ne by lia. by apply Hco.
    + intros j Hjh. destruct (Hheld j Hjh) as (? & ? & ? & ? & ?). split_and!; try done;
        (destruct (decide (i = j)) as [<-|Hij]; [by rewrite list_lookup_total_insert_eq|by rewrite list_lookup_total_insert_ne]).
    + apply Forall_insert; [done|]. by rewrite <- Hdl.
  - simpl. rewrite list_lookup_total_insert_eq by done. intros _. simpl. apply list_lookup_insert_eq. lia.
  - intros m Hm0. unfold content. simpl. destruct (decide (m = blockno x)) as [->|Hm].
    { rewrite (content_cached (k_bufs s) _ _ i) by (done || apply Hbc).
      rewrite (content_cached _ _ _ i); try done; by rewrite list_lookup_total_insert_eq. }
    apply content_ext; try done; [apply Hbc|..].
    + intros j Hj Hdj Hnj Hvj. exists j. destruct (decide (i = j)) as [<-|Hij]; [done|].
      by rewrite list_lookup_total_insert_ne.
    + intros j Hj Hdj Hnj Hvj. destruct (decide (i = j)) as [<-|Hij].
      { by rewrite list_lookup_total_insert_eq in Hnj. }
      rewrite list_lookup_total_insert_ne in * by done. by apply content_cached; [apply Hbc|..].
    + apply list_lookup_insert_ne. lia.
Qed.

Lemma written_dirty s lru held i :
  bcache_ok s (pid d) lru held -> i ∈ held ->
  forall m, is_dirty (written i s) m <-> is_dirty s m /\ m <> blockno (k_bufs s !!! i).
Proof.
  intros Hbc Hih m. destruct (bc_held _ _ _ _ Hbc i Hih) as (Hi & _ & _ & _ & Hv).
  assert (i < length (k_bufs s))%nat as Hil by (rewrite (bc_len _ _ _ _ Hbc); lia).
  assert (forall j, (j < NBUF)%nat -> valid (k_bufs s !!! j) = true -> b_dev (k_bufs s !!! j) = ROOTDEV) as Hdev.
  { intros j Hj Hvj. apply (bo_block _ _ (bc_bufs _ _ _ _ Hbc j Hj)). intros E. unfold valid in Hvj. by rewrite E in Hvj. }
  assert (forall j, (j < NBUF)%nat -> dirty (k_bufs s !!! j) = true -> valid (k_bufs s !!! j) = true) as Hdv.
  { intros j Hj Hdj. unfold dirty, valid in *. by destruct (bo_flags _ _ (bc_bufs _ _ _ _ Hbc j Hj)) as [E|[E|E]]; rewrite E in *. }
  unfold is_dirty, written. split.
  - intros (j & Hj & Hdj & Hnj). destruct (decide (i = j)) as [<-|Hij].
    { simpl in Hdj. by rewrite list_lookup_total_insert_eq in Hdj. }
    simpl in *. rewrite list_lookup_total_insert_ne in * by done. split; [by exists j|].
    intros ->. apply Hij, (bc_unique _ _ _ _ Hbc); try done; rewrite ?Hdev; auto.
  - intros [(j & Hj & Hdj & Hnj) Hne]. exists j. assert (i <> j) as Hij by (intros ->; done).
    simpl. by rewrite list_lookup_total_insert_ne.
Qed.

Lemma runs_bwrite {A} L' (k : unit -> K A) s Q lru held i :
  bcache_ok s (pid d) lru held -> i ∈ held ->
  runs c b p d [] L' (k tt) (written i s) Q ->
  runs c b p d [] L' (x <- bwrite i ;; k x) s Q.
Proof.
  intros Hbc Hih Hk. destruct (bc_held _ _ _ _ Hbc i Hih) as (Hi & Hl & Hpid & Hr & Hv).
  assert (i < length (k_bufs s))%nat as Hil by (rewrite (bc_len _ _ _ _ Hbc); lia).
  destruct (bc_bufs _ _ _ _ Hbc i Hi) as [Hfl Hdl Hblk].
  unfold bwrite. runs_step. apply runs_holdingsleep; [not_in|]. rewrite Hl, Hpid, Z.eqb_refl. cbn [andb negb]. runs_step.
  apply runs_buf_set; [done|]. set (x := k_bufs s !!! i) in *.
  assert (b_flags x <> 0) as Hf0 by (intros E; unfold valid in Hv; by rewrite E in Hv).
  assert (Z.lor (b_flags x) B_DIRTY = Z.lor B_VALID B_DIRTY) as -> by (by destruct Hfl as [?|[-> | ->]]).
  destruct (Hblk Hf0) as [Hdev Hbn]. set (x1 := set_b_flags _ x).
  assert (k_bufs (put_buf i x1 s) !!! i = x1) as E1 by by apply put_buf_lookup.
  eapply iderw_ok; rewrite ?E1; try done; [by rewrite put_buf_length; apply Hbc|by right|].
  unfold synced. rewrite E1. change (dirty x1) with true. cbv iota beta.
  unfold written in Hk. fold x in Hk. unfold put_buf in *. simpl. by rewrite list_insert_insert_eq.
Qed.

End release.

(** ** A process that changes a buffer it holds *)
Section modify.
Context (d : proc).
Implicit Types (s : kernel) (i j : nat) (x : buf) (lru held : list nat) (n m : Z) (dt : list Z).

(** Changing the data of a held buffer, and its dirty flag as [log_write] does. *)
Lemma bcache_update s lru held i x :
  bcache_ok s (pid d) lru held -> i ∈ held ->
  core (set_b_data (b_data (k_bufs s !!! i)) (set_b_flags (b_flags (k_bufs s !!! i)) x)) = core (k_bufs s !!! i) ->
  b_next x = b_next (k_bufs s !!! i) -> b_prev x = b_prev (k_bufs s !!! i) -> refcnt x = refcnt (k_bufs s !!! i) ->
  length (b_data x) = Z.to_nat BSIZE -> b_flags x = B_VALID \/ b_flags x = Z.lor B_VALID B_DIRTY ->
  bcache_ok (put_buf i x s) (pid d) lru held /\
  (forall m, content (put_buf i x s) m =
     if decide (m = blockno (k_bufs s !!! i)) then Some (b_data x) else content s m).
Proof.
  intros Hbc Hih Hcore En Ep Hr' Hlen Hfl. destruct (bc_held _ _ _ _ Hbc i Hih) as (Hi & Hl & Hpid & Hr & Hv).
  assert (i < length (k_bufs s))%nat as Hil by (rewrite (bc_len _ _ _ _ Hbc); lia).
  assert (b_dev x = b_dev (k_bufs s !!! i) /\ blockno x = blockno (k_bufs s !!! i)) as [Hdx Hbx].
  { injection Hcore as ? ? ?. done. }
  destruct (bo_block _ _ (bc_bufs _ _ _ _ Hbc i Hi)) as [Hdev Hbn].
  { intros E. unfold valid in Hv. by rewrite E in Hv. }
  assert (valid x = true) as Hvx by (unfold valid; by destruct Hfl as [-> | ->]).
  assert (only_buf (k_bufs s) i (blockno (k_bufs s !!! i))) as Ho.
  { intros j Hj Hji Hdj Hbj. apply Hji.
    apply (bc_unique _ _ _ _ Hbc); [done|done|by rewrite Hdj|by rewrite Hdj, Hdev|done]. }
  split.
  - pose proof Hbc as [Hlen' Hlist Hperm Huniq Hbufs Hfree Hheld Hnd Hdisk]. split; simpl; try done.
    + by rewrite length_insert.
    + eapply (seg_ext (nx (k_bufs s)) (pv (k_bufs s))); [intros; by apply nx_put|intros; by apply pv_put|done].
    + apply (unique_put _ i _ (blockno (k_bufs s !!! i))); try done. by rewrite Hdx.
    + intros j Hj. destruct (decide (i = j)) as [<-|Hij].
      * rewrite list_lookup_total_insert_eq by done. split; [by right|done|]. by rewrite Hdx, Hbx.
      * rewrite list_lookup_total_insert_ne by done. by apply Hbufs.
    + intros j Hj Hjh. rewrite list_lookup_total_insert_ne by (intros ->; done). by apply Hfree.
    + intros j Hjh. destruct (Hheld j Hjh) as (? & ? & ? & ? & ?). split_and!; try done;
        (destruct (decide (i = j)) as [<-|Hij]; [rewrite list_lookup_total_insert_eq by done; congruence|by rewrite list_lookup_total_insert_ne]).
  - intros m. unfold content. simpl. apply content_replace; try done; [apply Hbc|by rewrite Hdx].
Qed.

End modify.

(** ** The main properties *)
Section properties.
Context (c : nat) (b : bool) (p : nat) (d : proc) `{Fuel} `{DiskOk}.
Implicit Types (s : kernel) (i : nat) (lru held : list nat) (n m : Z) (dt : list Z).

(** C14: [bread] of a block nobody holds returns a locked, valid buffer of that
    block with what was last written to the block, through the cache or on the
    disk; it takes a recycled buffer when the block is not cached, and neither
    the contents of any block nor the set of changed blocks is affected. *)
Theorem bread_returns_block s lru held n :
  bcache_ok s (pid d) lru held -> 0 <= n < Z.of_nat (length (k_disk s)) ->
  (forall i, i ∈ held -> blockno (k_bufs s !!! i) <> n) -> available s held n ->
  runs c b p d [] [] (bread ROOTDEV n) s (fun i s' => reads d n s lru held i s').
Proof.
  intros Hbc Hn Hh Hr. apply runs_tail. eapply runs_bread; try done.
  intros i s' Hs'. by apply runs_ret.
Qed.

(** The idiom of [log.c]: read a block, replace its data, write it, release
    it. *)
Definition write_block n dt : K unit :=
  i <- bread ROOTDEV n ;;
  buf_set i (set_b_data dt) ;;
  bwrite i ;;
  brelse i.

(** Afterwards the disk has the new data, the cache shows it, every other
    block is as before, the buffer is first in the recency list, and the cache
    is in order again with no buffer held. *)
Theorem write_block_durable s lru n dt :
  bcache_ok s (pid d) lru [] -> 0 <= n < Z.of_nat (length (k_disk s)) ->
  length dt = Z.to_nat BSIZE -> room s [] ->
  runs c b p d [] [] (write_block n dt) s (fun _ s' =>
    (exists i lru', bcache_ok s' (pid d) (i :: lru') [] /\ lru ≡ₚ i :: lru' /\ blockno (k_bufs s' !!! i) = n) /\
    k_disk s' = <[Z.to_nat n := dt]> (k_disk s) /\
    (forall m, 0 <= m -> content s' m = if decide (m = n) then Some dt else content s m)).
Proof.
  intros Hbc Hn Hdt Hr. unfold write_block. eapply runs_bread; try done; [by intros i ?%elem_of_nil|by right|].
  intros i s1 (_ & Hi & x & E1 & Hbc1 & Hdx & Hbx & Hcx & Hc1 & _ & _).
  assert (i < length (k_bufs s))%nat as Hil by (rewrite (bc_len _ _ _ _ Hbc); lia).
  assert (k_bufs s1 !!! i = x) as Ex by (rewrite E1; simpl; by apply list_lookup_total_insert_eq).
  assert (i ∈ [i]) as Hii by left.
  apply runs_buf_set; [rewrite (bc_len _ _ _ _ Hbc1); lia|]. rewrite Ex. set (s2 := put_buf i _ s1).
  destruct (bc_held _ _ _ _ Hbc1 i Hii) as (_ & _ & _ & _ & Hv1). rewrite Ex in Hv1.
  destruct (bcache_update d s1 lru [i] i (set_b_data dt x) Hbc1 Hii) as [Hbc2 Hc2]; try (by rewrite Ex).
  { done. }
  { pose proof (bo_flags _ _ (bc_bufs _ _ _ _ Hbc1 i Hi)) as Hfl. rewrite Ex in Hfl. unfold valid in Hv1.
    simpl. destruct Hfl as [E|?]; [by rewrite E in Hv1|done]. }
  rewrite Ex, Hbx in Hc2. fold s2 in Hbc2, Hc2.
  eapply (runs_bwrite c b p d); [done|done|]. destruct (bcache_written d s2 lru [i] i Hbc2 Hii) as (Hbc3 & Hco & Hc3).
  eapply runs_tail, (runs_brelse c b p d); [done|done|].
  intros s4 (bufs & lru' & E4 & Hbc4 & (l1 & l2 & El & El') & Hcore). apply runs_ret.
  assert (k_bufs s2 !!! i = set_b_data dt x) as Ex2.
  { unfold s2. apply put_buf_lookup. rewrite (bc_len _ _ _ _ Hbc1). lia. }
  assert (forall m, content s4 m = content (written i s2) m) as Hc4.
  { intros m. rewrite E4. unfold content. simpl. by apply core_content. }
  split_and!.
  - exists i, (l1 ++ l2). rewrite El' in Hbc4. split_and!; [done|by rewrite El, Permutation_middle|].
    rewrite E4. pose proof (f_equal blockno (Hcore i)) as E. cbn [blockno core strip set_refcnt set_b_next set_b_prev] in E.
    cbn [k_bufs set_k_bufs]. rewrite E. unfold written. rewrite put_buf_lookup; [by rewrite Ex2|].
    cbn [k_bufs put_block set_k_disk set_k_writes]. rewrite (bc_len _ _ _ _ Hbc2). lia.
  - rewrite E4. unfold written. cbn [k_disk set_k_bufs sl_released set_k_sleeplocks put_buf put_block set_k_disk set_k_writes]. rewrite Ex2.
    simpl. by rewrite Hbx, E1.
  - intros m Hm. rewrite Hc4, Hc3, Hc2 by done. simpl. case_decide; [done|]. apply Hc1.
Qed.

End properties.

(** ** The cache after [binit] *)
Definition init_bufs : list buf := fold_left (fun bufs i => push_front i bufs) (seq 0 NBUF) (replicate (S NBUF) buf_zero).

(** A machine with an initialised cache and the disk [disk]. *)
Definition demo_fs (disk : list (list Z)) : kernel :=
  set_k_disk disk (set_k_bufs init_bufs (demo_kernel [] (Some 0%nat))).

Lemma init_bufs_list : length init_bufs = S NBUF /\ seg (nx init_bufs) (pv init_bufs) NBUF (reverse (seq 0 NBUF)) NBUF.
Proof. vm_compute. repeat split. Qed.

Lemma init_bufs_zero i : (i < NBUF)%nat ->
  b_flags (init_bufs !!! i) = 0 /\ b_dev (init_bufs !!! i) = 0 /\ refcnt (init_bufs !!! i) = 0
  /\ length (b_data (init_bufs !!! i)) = Z.to_nat BSIZE.
Proof.
  intros Hi. assert (Forall (fun x => b_flags x = 0 /\ b_dev x = 0 /\ refcnt x = 0
    /\ length (b_data x) = Z.to_nat BSIZE) init_bufs) as Hf by (vm_compute; repeat constructor).
  destruct (lookup_lt_is_Some_2 init_bufs i) as [x Hx]; [rewrite (proj1 init_bufs_list); lia|].
  rewrite (list_lookup_total_correct _ _ _ Hx). apply (proj1 (Forall_lookup _ _) Hf _ _ Hx).
Qed.

#[global] Opaque init_bufs.

(** Any machine whose buffers [binit] has just set up, with no sleep lock held. *)
Lemma init_bcache_ok s me :
  k_bufs s = init_bufs -> (forall l, sl_locked (the_sleeplock l s) = false) ->
  Forall (fun blk => length blk = Z.to_nat BSIZE) (k_disk s) ->
  bcache_ok s me (reverse (seq 0 NBUF)) [] /\ room s [].
Proof.
  intros Hb Hsl Hd. split.
  - split; rewrite ?Hb; [exact (proj1 init_bufs_list)|exact (proj2 init_bufs_list)|..|exact Hd].
    + apply reverse_Permutation.
    + intros i j Hi _ Hdi. destruct (Hdi (proj1 (proj2 (init_bufs_zero i Hi)))).
    + intros i Hi. destruct (init_bufs_zero i Hi) as (E & _ & _ & E'). split; [left; exact E|exact E'|].
      intros Hf. destruct (Hf E).
    + intros i Hi _. destruct (init_bufs_zero i Hi) as (E & _ & E' & _).
      split; [apply Hsl|split; [exact E'|]]. intros E''. rewrite E in E''. discriminate E''.
    + intros i Hi. destruct (not_elem_of_nil i Hi).
    + apply NoDup_nil_2.
  - exists 0%nat. split; [unfold NBUF; lia|]. split; [apply not_elem_of_nil|]. rewrite Hb. unfold dirty.
    rewrite (proj1 (init_bufs_zero 0%nat ltac:(unfold NBUF; lia))). reflexivity.
Qed.

Lemma bread_returns_block_witness :
  runs 0 true 0 (demo_proc RUNNING 1 0 None None) [] [] (@bread 0%nat memide_disk ROOTDEV 3)
    (demo_fs (replicate 40 (replicate 512 9))) (fun i s' => content s' 3 = Some (replicate 512 9)).
Proof.
  destruct (init_bcache_ok (demo_fs (replicate 40 (replicate 512 9))) 1) as [Hbc Hr];
    [reflexivity|done|by apply Forall_replicate|].
  eapply runs_mono; [apply (@bread_returns_block 0 true 0 (demo_proc RUNNING 1 0 None None) 0%nat
    memide_disk memide_ok (demo_fs (replicate 40 (replicate 512 9))) (reverse (seq 0 NBUF)) [] 3)|].
  - exact Hbc.
  - simpl. lia.
  - intros i Hi. destruct (not_elem_of_nil i Hi).
  - right. exact Hr.
  - intros i s' (_ & _ & x & _ & _ & _ & _ & _ & Hc & _). rewrite Hc. by vm_compute.
Defined.

Lemma write_block_durable_witness :
  runs 0 true 0 (demo_proc RUNNING 1 0 None None) [] [] (@write_block 0%nat memide_disk 3 (replicate 512 5))
    (demo_fs (replicate 40 (replicate 512 9))) (fun _ s' => k_disk s' !! 3%nat = Some (replicate 512 5)).
Proof.
  destruct (init_bcache_ok (demo_fs (replicate 40 (replicate 512 9))) 1) as [Hbc Hr];
    [reflexivity|done|by apply Forall_replicate|].
  eapply runs_mono; [apply (@write_block_durable 0 true 0 (demo_proc RUNNING 1 0 None None) 0%nat
    memide_disk memide_ok (demo_fs (replicate 40 (replicate 512 9))) (reverse (seq 0 NBUF)) 3 (replicate 512 5))|].
  - exact Hbc.
  - simpl. lia.
  - reflexivity.
  - exact Hr.
  - intros [] s' (_ & -> & _). by vm_compute.
Defined.
