(* ===== verification/Log.v ===== *)
(** * The log ([kernel/log.c])

    Transactions over the buffer cache.  The main results are about [commit]
    and [recover_from_log] run by a process that finds no buffer locked by
    others: [commit] performs a known sequence of disk writes, and after a crash
    at any point of that sequence [recover_from_log] brings the disk to the
    state before the transaction or to the state after it, never between. *)
From S2P Require Import Prelude Types Str Spinlock Queue Sched Context Sleeplock Bio.

(** ** Words in a block of bytes *)
Definition word (dt : list Z) (k : nat) : Z :=
  dt !!! (4 * k)%nat + 2 ^ 8 * dt !!! (4 * k + 1)%nat + 2 ^ 16 * dt !!! (4 * k + 2)%nat + 2 ^ 24 * dt !!! (4 * k + 3)%nat.
Definition set_word (k : nat) (v : Z) (dt : list Z) : list Z :=
  <[(4 * k + 3)%nat := u8 (v / 2 ^ 24)]> (<[(4 * k + 2)%nat := u8 (v / 2 ^ 16)]>
    (<[(4 * k + 1)%nat := u8 (v / 2 ^ 8)]> (<[(4 * k)%nat := u8 v]> dt))).

(** The fields of the log that transactions use, computed. *)
Ltac log_fields := cbn [k_log set_k_log outstanding set_outstanding committing set_committing lh_n].

(** ** The code *)
Section code.
Context `{Fuel} `{Disk}.

Definition log_get {A} (f : log -> A) : K A := gets (fun s => f (k_log s)).
Definition log_set (f : log -> log) : K unit := modify (fun s => set_k_log (f (k_log s)) s).

(** [log.lh.block[i]]; outside the array the access faults. *)
Definition lh_block_get (i : Z) : K Z :=
  o <- log_get (fun l => lh_block l !! Z.to_nat i) ;;
  of_option "log.lh.block" o.
Definition lh_block_set (i v : Z) : K unit :=
  lh_block_get i ;;
  log_set (fun l => set_lh_block (<[Z.to_nat i := v]> (lh_block l)) l).

(** [for (i = from; i < log.lh.n; i++) body(i);], at most [n] rounds. *)
Fixpoint log_loop (body : Z -> K unit) (n : nat) (i : Z) : K unit :=
  m <- log_get lh_n ;;
  if i <? m then
    match n with
    | O => stopm NoFuel
    | S n' => body i ;; log_loop body n' (i + 1)
    end
  else ret tt.

(** The log array has [LOGSIZE] entries, which bounds its loops. *)
Definition for_log (body : Z -> K unit) : K unit := log_loop body (Z.to_nat LOGSIZE) 0.

(** [bread(log.dev, log.start+tail+1)] and [bread(log.dev, log.lh.block[tail])]. *)
Definition bread_slot (tail : Z) : K nat :=
  dv <- log_get l_dev ;;
  st <- log_get l_start ;;
  bread dv (u32 (st + tail + 1)).
Definition bread_logged (tail : Z) : K nat :=
  dv <- log_get l_dev ;;
  bn <- lh_block_get tail ;;
  bread dv (u32 bn).

Definition install_trans : K unit :=
  for_log (fun tail =>
    lbuf <- bread_slot tail ;;
    dbuf <- bread_logged tail ;;
    dt <- buf_get lbuf b_data ;;
    buf_set dbuf (set_b_data dt) ;;
    bwrite dbuf ;;
    brelse lbuf ;;
    brelse dbuf).

Definition read_head : K unit :=
  dv <- log_get l_dev ;;
  st <- log_get l_start ;;
  i <- bread dv (u32 st) ;;
  dt <- buf_get i b_data ;;
  log_set (set_lh_n (i32 (word dt 0))) ;;
  for_log (fun j => lh_block_set j (i32 (word dt (S (Z.to_nat j))))) ;;
  brelse i.

Definition write_head : K unit :=
  dv <- log_get l_dev ;;
  st <- log_get l_start ;;
  i <- bread dv (u32 st) ;;
  n <- log_get lh_n ;;
  buf_set i (fun x => set_b_data (set_word 0 n (b_data x)) x) ;;
  for_log (fun j =>
    bn <- lh_block_get j ;;
    buf_set i (fun x => set_b_data (set_word (S (Z.to_nat j)) bn (b_data x)) x)) ;;
  bwrite i ;;
  brelse i.

Definition recover_from_log : K unit :=
  read_head ;;
  install_trans ;;
  log_set (set_lh_n 0) ;;
  write_head.

(** [readsb] of [fs.c]: the superblock, in block 1. *)
Definition sb_of (dt : list Z) : superblock :=
  mkSuperblock (word dt 0) (word dt 1) (word dt 2) (word dt 3) (word dt 4) (word dt 5) (word dt 6).
Definition readsb (dev : Z) : K superblock :=
  i <- bread dev 1 ;;
  dt <- buf_get i b_data ;;
  brelse i ;;
  ret (sb_of dt).

(** A [struct logheader] has [LOGSIZE + 1] words. *)
Definition initlog (dev : Z) : K unit :=
  if BSIZE <=? 4 * (LOGSIZE + 1) then panic "initlog: too big logheader" else
  initlock L_log "log" ;;
  sb <- readsb (u32 dev) ;;
  log_set (set_l_start (i32 (logstart sb))) ;;
  log_set (set_l_size (i32 (nlog sb))) ;;
  log_set (set_l_dev dev) ;;
  recover_from_log.

(** The loop of [begin_op]: wait while the log is committing or too full. *)
Fixpoint begin_loop (n : nat) : K unit :=
  l <- log_get (fun l => l) ;;
  if committing l || (LOGSIZE <? lh_n l + (outstanding l + 1) * MAXOPBLOCKS) then
    match n with
    | O => stopm NoFuel
    | S n' => sleep (Some C_log) (Some L_log) ;; begin_loop n'
    end
  else
    log_set (fun l => set_outstanding (outstanding l + 1) l) ;;
    release L_log.
Definition begin_op : K unit :=
  acquire L_log ;;
  begin_loop fuel.

Definition write_log : K unit :=
  for_log (fun tail =>
    to <- bread_slot tail ;;
    from <- bread_logged tail ;;
    dt <- buf_get from b_data ;;
    buf_set to (set_b_data dt) ;;
    bwrite to ;;
    brelse from ;;
    brelse to).

Definition commit : K unit :=
  n <- log_get lh_n ;;
  whenm (0 <? n)
    (write_log ;;
     write_head ;;
     install_trans ;;
     log_set (set_lh_n 0) ;;
     write_head).

Definition end_op : K unit :=
  acquire L_log ;;
  log_set (fun l => set_outstanding (outstanding l - 1) l) ;;
  c <- log_get committing ;;
  if c : bool then panic "log.committing" else
  o <- log_get outstanding ;;
  let do_commit := o =? 0 in
  (if do_commit then log_set (set_committing true) else wakeup (Some C_log)) ;;
  release L_log ;;
  whenm do_commit
    (commit ;;
     acquire L_log ;;
     log_set (set_committing false) ;;
     wakeup (Some C_log) ;;
     release L_log).

(** The index at which [log_write] records block [bn]: its place in the log
    if it is already there, else the end. *)
Fixpoint log_index (bn : Z) (l : list Z) : nat :=
  match l with
  | [] => O
  | v :: l' => if u32 v =? bn then O else S (log_index bn l')
  end.

Definition log_write (i : nat) : K unit :=
  l <- log_get (fun l => l) ;;
  if (LOGSIZE <=? lh_n l) || (l_size l - 1 <=? lh_n l) then panic "too big a transaction" else
  o <- log_get outstanding ;;
  if o <? 1 then panic "log_write outside of trans" else
  acquire L_log ;;
  bn <- buf_get i blockno ;;
  l <- log_get (fun l => l) ;;
  let k := Z.of_nat (log_index bn (take (Z.to_nat (lh_n l)) (lh_block l))) in
  lh_block_set k (i32 bn) ;;
  whenm (k =? lh_n l) (log_set (fun l => set_lh_n (lh_n l + 1) l)) ;;
  buf_set i (fun x => set_b_flags (Z.lor (b_flags x) B_DIRTY) x) ;;
  release L_log.

End code.

(** ** Words *)
Section words.
Implicit Types (dt : list Z) (k j : nat) (v : Z).

Lemma set_word_length k v dt : length (set_word k v dt) = length dt.
Proof. unfold set_word. by rewrite !length_insert. Qed.

Lemma word_set_word k v dt : (4 * k + 3 < length dt)%nat -> word (set_word k v dt) k = u32 v.
Proof.
  intros Hk. unfold word, set_word. rewrite <- word_bytes.
  repeat first [rewrite list_lookup_total_insert_eq by (rewrite ?length_insert; lia)
               |rewrite list_lookup_total_insert_ne by lia]. done.
Qed.

Lemma word_set_word_ne k j v dt : k <> j -> word (set_word k v dt) j = word dt j.
Proof. intros Hkj. unfold word, set_word. rewrite !list_lookup_total_insert_ne by lia. done. Qed.

(** The header block [write_head] produces from [dt] for the blocks [bs]. *)
Fixpoint set_words (k : nat) (bs : list Z) dt : list Z :=
  match bs with
  | [] => dt
  | v :: bs' => set_words (S k) bs' (set_word k v dt)
  end.
Definition header (bs : list Z) dt : list Z := set_words 1 bs (set_word 0 (Z.of_nat (length bs)) dt).

Lemma set_words_length bs : forall k dt, length (set_words k bs dt) = length dt.
Proof. induction bs as [|v bs IH]; intros k dt; simpl; [done|]. by rewrite IH, set_word_length. Qed.

Lemma word_set_words_lt bs : forall k j dt, (j < k)%nat -> word (set_words k bs dt) j = word dt j.
Proof.
  induction bs as [|v bs IH]; intros k j dt Hj; simpl; [done|]. rewrite IH by lia. apply word_set_word_ne. lia.
Qed.

Lemma word_set_words bs : forall k dt i v,
  bs !! i = Some v -> (4 * (k + length bs) <= length dt)%nat -> word (set_words k bs dt) (k + i) = u32 v.
Proof.
  induction bs as [|w bs IH]; intros k dt i v Hi Hl; [done|]. simpl in *. destruct i as [|i].
  - injection Hi as ->. rewrite Nat.add_0_r, word_set_words_lt by lia. apply word_set_word. lia.
  - replace (k + S i)%nat with (S k + i)%nat by lia. apply IH; [done|]. rewrite set_word_length. lia.
Qed.

Lemma set_words_app bs1 bs2 : forall k dt, set_words k (bs1 ++ bs2) dt = set_words (k + length bs1) bs2 (set_words k bs1 dt).
Proof.
  induction bs1 as [|v bs1 IH]; intros k dt; simpl; [by rewrite Nat.add_0_r|].
  rewrite IH. by replace (S k + length bs1)%nat with (k + S (length bs1))%nat by lia.
Qed.

Lemma header_length bs dt : length (header bs dt) = length dt.
Proof. unfold header. by rewrite set_words_length, set_word_length. Qed.

Lemma header_n bs dt : (4 <= length dt)%nat -> word (header bs dt) 0 = u32 (Z.of_nat (length bs)).
Proof. intros Hl. unfold header. rewrite word_set_words_lt by lia. apply word_set_word. lia. Qed.

Lemma header_block bs dt i v :
  bs !! i = Some v -> (4 * (1 + length bs) <= length dt)%nat -> word (header bs dt) (S i) = u32 v.
Proof. intros Hi Hl. unfold header. apply (word_set_words bs 1); [done|]. by rewrite set_word_length. Qed.

End words.

(** ** Changes confined to the disk and its cache *)
Definition disk_only (s s' : kernel) : Prop :=
  s' = set_k_bufs (k_bufs s') (set_k_sleeplocks (k_sleeplocks s') (set_k_disk (k_disk s') (set_k_writes (k_writes s') s)))
  /\ forall i, the_sleeplock (SL_inode i) s' = the_sleeplock (SL_inode i) s.

#[export] Instance disk_only_preorder : PreOrder disk_only.
Proof.
  split.
  - intros s. split; [by destruct s|done].
  - intros s s' s'' [E1 H1] [E2 H2]. split; [|intros i; by rewrite H2].
    rewrite E2 at 1. rewrite E1 at 1. done.
Qed.

Lemma disk_only_log s s' : disk_only s s' -> k_log s' = k_log s.
Proof. intros [-> _]. done. Qed.

Section quiet.
Context (c : nat) (b : bool) (p : nat) (d : proc) `{Fuel} `{DiskOk}.
Implicit Types (s : kernel) (i j : nat) (lru held : list nat) (n m : Z) (v : list Z).

(** No buffer is locked. *)
Definition quiet s : Prop := exists lru, bcache_ok s (pid d) lru [].

(** From the quiet state [s] to the quiet state [s'], [v] was written to block [n]. *)
Record wrote s n v s' : Prop := {
  wr_quiet : quiet s';
  wr_content : forall m, 0 <= m -> content s' m = if decide (m = n) then Some v else content s m;
  wr_disk : k_disk s' = <[Z.to_nat n := v]> (k_disk s);
  wr_writes : k_writes s' = k_writes s ++ [(n, v)];
  wr_dirty : forall m, is_dirty s' m <-> is_dirty s m /\ m <> n;
  wr_only : disk_only s s' }.

Lemma written_ne i j s : i <> j -> k_bufs (written i s) !!! j = k_bufs s !!! j.
Proof. intros Hij. unfold written. by rewrite put_buf_ne. Qed.

Lemma reads_only n s lru held i s' : reads d n s lru held i s' -> disk_only s s'.
Proof.
  intros (_ & _ & x & -> & _). split; [by destruct s|]. intros j. by rewrite sl_taken_ne.
Qed.

Lemma releases_only s lru held i s' : releases d s lru held i s' -> disk_only s s'.
Proof.
  intros (bufs & lru' & -> & _). split; [by destruct s|]. intros j.
  change (the_sleeplock (SL_inode j) (sl_released (SL_buf i) s) = the_sleeplock (SL_inode j) s).
  by rewrite sl_released_ne.
Qed.

Lemma releases_content s lru held i s' m : releases d s lru held i s' -> content s' m = content s m.
Proof. intros (bufs & lru' & -> & _ & _ & Hc). unfold content. simpl. by apply core_content. Qed.

Lemma releases_dirty s lru held i s' m : releases d s lru held i s' -> is_dirty s' m <-> is_dirty s m.
Proof.
  intros (bufs & lru' & -> & _ & _ & Hc). unfold is_dirty. simpl.
  split; intros (j & Hj & Hd & Hn); exists j; pose proof (f_equal b_flags (Hc j)) as E1;
    pose proof (f_equal blockno (Hc j)) as E2; cbn in E1, E2; unfold dirty in *; rewrite <- ?E1, <- ?E2, ?E1, ?E2 in *; done.
Qed.

Lemma releases_disk s lru held i s' :
  releases d s lru held i s' -> k_disk s' = k_disk s /\ k_writes s' = k_writes s /\
  forall j, j ∈ held -> coherent (k_disk s) (k_bufs s !!! j) -> coherent (k_disk s') (k_bufs s' !!! j).
Proof.
  intros (bufs & lru' & -> & _ & _ & Hc). split_and!; [done|done|]. intros j _. unfold coherent. simpl.
  pose proof (f_equal b_flags (Hc j)) as E1. pose proof (f_equal blockno (Hc j)) as E2.
  pose proof (f_equal b_data (Hc j)) as E3. cbn in E1, E2, E3. by rewrite E1, E2, E3.
Qed.

(** The end of the loops of [write_log] and [install_trans]: with the source
    buffer [a] and the target buffer [e] locked, copy, write and release. *)
Lemma runs_copy_tail s lru a e :
  bcache_ok s (pid d) lru [a; e] -> coherent (k_disk s) (k_bufs s !!! a) ->
  runs c b p d [] []
    (dt <- buf_get a b_data ;; buf_set e (set_b_data dt) ;; bwrite e ;; brelse a ;; brelse e) s
    (fun _ s' => forall s0, (forall m, content s m = content s0 m) -> k_disk s = k_disk s0 -> k_writes s = k_writes s0 ->
      (forall m, is_dirty s m <-> is_dirty s0 m) -> disk_only s0 s ->
      wrote s0 (blockno (k_bufs s !!! e)) (b_data (k_bufs s !!! a)) s').
Proof.
  intros Hbc Hco. pose proof (bc_len _ _ _ _ Hbc) as Hlen.
  destruct (bc_held _ _ _ _ Hbc a) as (Ha & _ & _ & _ & Hva); [left|].
  destruct (bc_held _ _ _ _ Hbc e) as (He & _ & _ & Hre & Hve); [right; left|].
  assert (e <> a) as Hne.
  { pose proof (bc_nodup _ _ _ _ Hbc) as [Hn _]%NoDup_cons. intros ->. apply Hn. left. }
  set (v := b_data (k_bufs s !!! a)). set (x := k_bufs s !!! e).
  apply runs_buf_get; [lia|]. apply runs_buf_set; [lia|]. fold v x. set (s1 := put_buf e (set_b_data v x) s).
  destruct (bcache_update d s lru [a; e] e (set_b_data v x)) as [Hbc1 Hc1]; try done; [right; left| | |].
  { unfold v. apply (bo_data _ _ (bc_bufs _ _ _ _ Hbc a Ha)). }
  { pose proof (bo_flags _ _ (bc_bufs _ _ _ _ Hbc e He)) as Hfl. unfold valid in Hve. fold x in Hfl, Hve |- *.
    simpl. destruct Hfl as [E|?]; [by rewrite E in Hve|done]. }
  fold s1 in Hbc1, Hc1. assert (e ∈ [a; e]) as Hee by (right; left).
  eapply (runs_bwrite c b p d); [done|done|].
  destruct (bcache_written d s1 lru [a; e] e Hbc1 Hee) as (Hbc2 & Hco2 & Hc2).
  pose proof (written_dirty d s1 lru [a; e] e Hbc1 Hee) as Hd2.
  set (s2 := written e s1) in *.
  assert (k_bufs s1 !!! e = set_b_data v x) as Ee by (apply put_buf_lookup; lia).
  assert (coherent (k_disk s2) (k_bufs s2 !!! a)) as Hcoa.
  { assert (k_bufs s2 !!! a = k_bufs s !!! a) as -> by (unfold s2; rewrite written_ne by done; by apply put_buf_ne).
    assert (k_disk s2 = <[Z.to_nat (blockno x) := v]> (k_disk s)) as -> by (unfold s2, written; by rewrite Ee).
    intros Hv. rewrite list_lookup_insert_ne; [by apply Hco|].
    destruct (bo_block _ _ (bc_bufs _ _ _ _ Hbc a Ha)) as [Hda Hba]; [by rewrite Hv|].
    destruct (bo_block _ _ (bc_bufs _ _ _ _ Hbc e He)) as [Hde Hbe].
    { intros E. unfold valid in Hve. fold x in E, Hve. by rewrite E in Hve. }
    cbn. fold x. fold x in Hbe, Hde. intros E. apply Hne. apply (bc_unique _ _ _ _ Hbc); try done; fold x.
    - by rewrite Hde.
    - by rewrite Hde, Hda.
    - apply Z2Nat.inj; lia. }
  eapply (runs_brelse c b p d); [done|done|]. intros s3 Hr3.
  destruct (releases_disk _ _ _ _ _ Hr3) as (Hk3 & Hw3 & Hco3).
  pose proof Hr3 as (bufs3 & lru3 & E3 & Hbc3 & _ & _).
  eapply runs_tail, (runs_brelse c b p d); [exact Hbc3|apply Hco3; [left|exact Hco2]|]. intros s4 Hr4.
  destruct (releases_disk _ _ _ _ _ Hr4) as (Hk4 & Hw4 & _).
  pose proof Hr4 as (bufs4 & lru4 & E4 & Hbc4 & _ & _).
  apply runs_ret. intros s0 Hc0 Hk0 Hw0 Hd0 Ho0. split.
  - by exists lru4.
  - intros m Hm. rewrite (releases_content _ _ _ _ _ _ Hr4), (releases_content _ _ _ _ _ _ Hr3), Hc2, Hc1 by done.
    cbn. fold x. case_decide; [done|apply Hc0].
  - rewrite Hk4, Hk3. unfold s2, written. rewrite Ee. cbn. fold x. by rewrite Hk0.
  - rewrite Hw4, Hw3. unfold s2, written. rewrite Ee. cbn. fold x. by rewrite Hw0.
  - intros m. rewrite (releases_dirty _ _ _ _ _ _ Hr4), (releases_dirty _ _ _ _ _ _ Hr3), Hd2, Ee. cbn.
    rewrite <- Hd0. fold x. unfold s1. rewrite is_dirty_put; [done|lia|done|done].
  - etransitivity; [exact Ho0|]. etransitivity; [|exact (releases_only _ _ _ _ _ Hr4)].
    etransitivity; [|exact (releases_only _ _ _ _ _ Hr3)]. split; [by destruct s|done].
Qed.

Lemma available_dirty s lru held n : bcache_ok s (pid d) lru held -> is_dirty s n -> available s held n.
Proof.
  intros Hbc (i & Hi & Hd & Hn). left. exists i. split_and!; try done.
  apply (bo_block _ _ (bc_bufs _ _ _ _ Hbc i Hi)). intros E. unfold dirty in Hd. by rewrite E in Hd.
Qed.

(** The routine [m] is [bread] of block [n] while the log is [l]. *)
Definition reads_block (m : K nat) (l : log) n : Prop :=
  forall A L' (k : nat -> K A) s Q, k_log s = l ->
    runs c b p d [] L' (i <- bread ROOTDEV n ;; k i) s Q -> runs c b p d [] L' (i <- m ;; k i) s Q.

(** Two blocks [x] and [y] read in this order, with enough buffers for both. *)
Lemma runs_bread2 {A} L' (k : nat -> nat -> K A) s Q r1 r2 x y (bs : list Z) :
  reads_block r1 (k_log s) x -> reads_block r2 (k_log s) y ->
  quiet s -> 0 <= x < Z.of_nat (length (k_disk s)) -> 0 <= y < Z.of_nat (length (k_disk s)) -> x <> y ->
  (forall m, is_dirty s m -> m ∈ bs) -> (length bs < NBUF)%nat -> is_dirty s y \/ (length bs + 1 < NBUF)%nat ->
  (forall i j s' lru, bcache_ok s' (pid d) lru [j; i] ->
     coherent (k_disk s') (k_bufs s' !!! i) -> coherent (k_disk s') (k_bufs s' !!! j) ->
     blockno (k_bufs s' !!! i) = x -> blockno (k_bufs s' !!! j) = y ->
     content s x = Some (b_data (k_bufs s' !!! i)) -> content s y = Some (b_data (k_bufs s' !!! j)) ->
     (forall m, content s' m = content s m) -> k_disk s' = k_disk s -> k_writes s' = k_writes s ->
     (forall m, is_dirty s' m <-> is_dirty s m) -> disk_only s s' ->
     runs c b p d [] L' (k i j) s' Q) ->
  runs c b p d [] L' (i <- r1 ;; j <- r2 ;; k i j) s Q.
Proof.
  intros Hm1 Hm2 (lru & Hbc) Hx Hy Hxy Hbs Hlen Hroom Hk.
  apply Hm1; [done|]. eapply (runs_bread c b p d); try done; [intros i Hi; by apply elem_of_nil in Hi| |].
  { right. eapply room_by_count; [done|done|]. simpl. lia. }
  intros i s1 Hr1. pose proof Hr1 as (_ & Hi & x1 & E1 & Hbc1 & Hdx & Hbx & Hcx & Hc1 & Hcl1 & Hd1).
  pose proof (reads_only _ _ _ _ _ _ Hr1) as Ho1. pose proof (bc_len _ _ _ _ Hbc) as Hl.
  assert (k_bufs s1 !!! i = x1) as Ei by (rewrite E1; simpl; apply list_lookup_total_insert_eq; lia).
  assert (k_disk s1 = k_disk s /\ k_writes s1 = k_writes s) as [Hk1 Hw1] by by rewrite E1.
  apply Hm2; [by apply disk_only_log|]. eapply (runs_bread c b p d); [done|by rewrite Hk1|..].
  { intros j ->%list_elem_of_singleton. by rewrite Ei, Hbx. }
  { destruct Hroom as [Hdy|Hlen2]; [eapply available_dirty; [done|by apply Hd1]|right].
    eapply room_by_count; [done|intros m Hm; by apply Hbs, Hd1|simpl; lia]. }
  intros j s2 Hr2. pose proof Hr2 as (Hji & Hj & x2 & E2 & Hbc2 & Hdy & Hby & Hcy & Hc2 & Hcl2 & Hd2).
  pose proof (reads_only _ _ _ _ _ _ Hr2) as Ho2. pose proof (bc_len _ _ _ _ Hbc1) as Hl1.
  assert (k_bufs s2 !!! j = x2) as Ej by (rewrite E2; simpl; apply list_lookup_total_insert_eq; lia).
  assert (k_bufs s2 !!! i = x1) as Ei2.
  { rewrite E2. simpl. rewrite list_lookup_total_insert_ne; [done|]. intros ->. apply Hji. left. }
  assert (k_disk s2 = k_disk s1 /\ k_writes s2 = k_writes s1) as [Hk2 Hw2] by by rewrite E2.
  assert (forall z, b_flags z = B_VALID -> dirty z = false) as Hclean by (intros z E; unfold dirty; by rewrite E).
  apply (Hk i j s2 lru); rewrite ?Ei2, ?Ej, ?Hk2, ?Hk1, ?Hw2, ?Hw1; try done.
  - intros Hv. rewrite Hbx. by apply Hcl1, Hclean.
  - intros Hv. rewrite Hby. rewrite <- Hk1. by apply Hcl2, Hclean.
  - by rewrite <- Hc1.
  - intros m. by rewrite Hc2.
  - intros m. by rewrite Hd2.
  - by etransitivity.
Qed.

(** One round of [install_trans] and of [write_log]. *)
Definition copy_step (r1 r2 : K nat) (src_first : bool) : K unit :=
  i <- r1 ;;
  j <- r2 ;;
  dt <- buf_get (if src_first then i else j) b_data ;;
  buf_set (if src_first then j else i) (set_b_data dt) ;;
  bwrite (if src_first then j else i) ;;
  brelse (if src_first then i else j) ;;
  brelse (if src_first then j else i).

Lemma runs_copy_step s r1 r2 x y (sf : bool) (bs : list Z) v :
  reads_block r1 (k_log s) x -> reads_block r2 (k_log s) y ->
  quiet s -> 0 <= x < Z.of_nat (length (k_disk s)) -> 0 <= y < Z.of_nat (length (k_disk s)) -> x <> y ->
  (forall m, is_dirty s m -> m ∈ bs) -> (length bs < NBUF)%nat -> is_dirty s y \/ (length bs + 1 < NBUF)%nat ->
  content s (if sf then x else y) = Some v ->
  runs c b p d [] [] (copy_step r1 r2 sf) s (fun _ s' => wrote s (if sf then y else x) v s').
Proof.
  intros Hm1 Hm2 Hq Hx Hy Hxy Hbs Hlen Hroom Hc. unfold copy_step.
  eapply runs_bread2; try done. intros i j s' lru Hbc Hci Hcj Hbi Hbj Hsx Hsy Hc' Hk' Hw' Hd' Ho'.
  assert ([j; i] ≡ₚ [i; j]) as Hp by apply Permutation_swap.
  destruct sf; (eapply runs_mono; [eapply runs_copy_tail; [|done]|intros [] s'' Hw]).
  - by eapply bcache_held_perm.
  - replace y with (blockno (k_bufs s' !!! j)) by done.
    replace v with (b_data (k_bufs s' !!! i)) by congruence. by apply Hw.
  - done.
  - replace x with (blockno (k_bufs s' !!! i)) by done.
    replace v with (b_data (k_bufs s' !!! j)) by congruence. by apply Hw.
Qed.

Lemma reads_slot l t :
  l_dev l = ROOTDEV -> 0 <= l_start l + t + 1 < 2 ^ 32 -> reads_block (bread_slot t) l (l_start l + t + 1).
Proof.
  intros Hd Hr A L' k s Q Hl Hk. unfold bread_slot, log_get. runs_step. rewrite Hl, Hd, u32_small by done. done.
Qed.

Lemma reads_logged l t n :
  l_dev l = ROOTDEV -> lh_block l !! Z.to_nat t = Some n -> 0 <= n < 2 ^ 32 -> reads_block (bread_logged t) l n.
Proof.
  intros Hd Hn Hr A L' k s Q Hl Hk. unfold bread_logged, lh_block_get, log_get. runs_step.
  rewrite Hl, Hn. runs_step. rewrite Hd, u32_small by done. done.
Qed.

(** A loop of [log.c] that keeps an invariant of the state by round. *)
Lemma runs_for_log (body : Z -> K unit) (I : nat -> kernel -> Prop) s (n : nat) :
  (n <= Z.to_nat LOGSIZE)%nat -> I 0%nat s ->
  (forall t s', (t <= n)%nat -> I t s' -> lh_n (k_log s') = Z.of_nat n) ->
  (forall t s', (t < n)%nat -> I t s' -> runs c b p d [] [] (body (Z.of_nat t)) s' (fun _ s'' => I (S t) s'')) ->
  runs c b p d [] [] (for_log body) s (fun _ s' => I n s').
Proof.
  intros Hn HI Hlh Hbody. unfold for_log.
  assert (forall f t s', (t <= n)%nat -> (n - t <= f)%nat -> I t s' ->
    runs c b p d [] [] (log_loop body f (Z.of_nat t)) s' (fun _ s'' => I n s'')) as Hloop.
  { induction f as [|f IH]; intros t s' Ht Hf HIt; cbn [log_loop]; unfold log_get; runs_step;
      rewrite (Hlh t s') by done; destruct (Z.ltb_spec (Z.of_nat t) (Z.of_nat n)) as [Hlt|Hge].
    - lia.
    - runs_step. by replace n with t by lia.
    - eapply runs_bind, runs_mono; [apply Hbody; [lia|done]|]. intros [] s'' HI'.
      replace (Z.of_nat t + 1) with (Z.of_nat (S t)) by lia. apply IH; [lia|lia|done].
    - runs_step. by replace n with t by lia. }
  apply (Hloop _ 0%nat); [lia|lia|done].
Qed.

(** ** Sequences of writes *)
Definition apply_writes (W : list (Z * list Z)) (D : list (list Z)) : list (list Z) :=
  foldl (fun D '(n, v) => <[Z.to_nat n := v]> D) D W.
Definition overlay (W : list (Z * list Z)) (f : Z -> option (list Z)) : Z -> option (list Z) :=
  foldl (fun f '(n, v) m => if decide (m = n) then Some v else f m) f W.

Lemma apply_writes_snoc W n v D : apply_writes (W ++ [(n, v)]) D = <[Z.to_nat n := v]> (apply_writes W D).
Proof. unfold apply_writes. by rewrite foldl_app. Qed.
Lemma overlay_snoc W n v f m : overlay (W ++ [(n, v)]) f m = if decide (m = n) then Some v else overlay W f m.
Proof. unfold overlay. by rewrite foldl_app. Qed.

(** From [s] to [s'] exactly the writes [W] were made, in this order; the rest
    of the state, the log apart, is unchanged. *)
Record wrote_all s W s' : Prop := {
  wa_quiet : quiet s';
  wa_content : forall m, 0 <= m -> content s' m = overlay W (content s) m;
  wa_disk : k_disk s' = apply_writes W (k_disk s);
  wa_writes : k_writes s' = k_writes s ++ W;
  wa_dirty : forall m, is_dirty s' m <-> is_dirty s m /\ m ∉ W.*1;
  wa_only : disk_only (set_k_log (k_log s') s) s' }.

Lemma wrote_all_nil s : quiet s -> wrote_all s [] s.
Proof.
  intros Hq. split; try done; [by rewrite app_nil_r| |].
  - intros m. split; [|tauto]. intros Hm. split; [done|apply not_elem_of_nil].
  - destruct s. reflexivity.
Qed.

Lemma wrote_all_snoc s W s1 n v s2 :
  wrote_all s W s1 -> wrote s1 n v s2 -> wrote_all s (W ++ [(n, v)]) s2.
Proof.
  intros [Hq Hc Hk Hw Hd Ho] [Hq' Hc' Hk' Hw' Hd' Ho']. pose proof (disk_only_log _ _ Ho') as Hl. split; [done|..].
  - intros m Hm. rewrite Hc', Hc, overlay_snoc by done. done.
  - by rewrite Hk', Hk, apply_writes_snoc.
  - by rewrite Hw', Hw, app_assoc.
  - intros m. rewrite Hd', Hd, fmap_app, elem_of_app. simpl. rewrite list_elem_of_singleton. tauto.
  - rewrite Hl. by etransitivity.
Qed.

Lemma quiet_set_log s l : quiet s -> quiet (set_k_log l s).
Proof. intros [lru []]. exists lru. by split. Qed.

Lemma wrote_all_log s W s' l : wrote_all s W s' -> wrote_all s W (set_k_log l s').
Proof.
  intros [Hq Hc Hk Hw Hd [Ho Hi]]. split; try done; [by apply quiet_set_log|].
  split; [|done]. simpl. rewrite Ho at 1. done.
Qed.

(** A loop of [log.c] whose rounds make the writes [W] one by one. *)
Lemma runs_log_writes (body : Z -> K unit) s0 W0 s W :
  (length W <= Z.to_nat LOGSIZE)%nat -> lh_n (k_log s) = Z.of_nat (length W) -> wrote_all s0 W0 s ->
  (forall t s' n v, W !! t = Some (n, v) -> wrote_all s0 (W0 ++ take t W) s' -> k_log s' = k_log s ->
    runs c b p d [] [] (body (Z.of_nat t)) s' (fun _ s'' => wrote s' n v s'')) ->
  runs c b p d [] [] (for_log body) s (fun _ s' => wrote_all s0 (W0 ++ W) s' /\ k_log s' = k_log s).
Proof.
  intros Hn Hlh Hw Hbody.
  eapply runs_mono; [apply (runs_for_log body
    (fun t s' => wrote_all s0 (W0 ++ take t W) s' /\ k_log s' = k_log s) s (length W)); [done|..]|].
  - by rewrite take_0, app_nil_r.
  - intros t s' _ [_ ->]. done.
  - intros t s' Ht [Hw' Hl']. destruct (lookup_lt_is_Some_2 W t Ht) as [[n v] HW].
    eapply runs_mono; [by eapply Hbody|]. intros [] s'' Hw''. split.
    + rewrite (take_S_r _ _ _ HW), app_assoc. by eapply wrote_all_snoc.
    + rewrite <- Hl'. by apply disk_only_log, Hw''.
  - intros [] s' [Hw' Hl']. by rewrite firstn_all in Hw'.
Qed.

(** The state after buffer [i], just read, has been given the data [v]. *)
Record updates n s lru i v s' : Prop := {
  up_cache : bcache_ok s' (pid d) lru [i];
  up_in : (i < length (k_bufs s'))%nat;
  up_block : blockno (k_bufs s' !!! i) = n;
  up_flags : b_flags (k_bufs s' !!! i) = B_VALID \/ b_flags (k_bufs s' !!! i) = Z.lor B_VALID B_DIRTY;
  up_data : b_data (k_bufs s' !!! i) = v;
  up_content : forall m, content s' m = if decide (m = n) then Some v else content s m;
  up_dirty : forall m, is_dirty s' m <-> is_dirty s m;
  up_disk : k_disk s' = k_disk s;
  up_writes : k_writes s' = k_writes s;
  up_only : disk_only s s' }.

Lemma reads_update n s lru i s1 v :
  reads d n s lru [] i s1 -> length v = Z.to_nat BSIZE ->
  updates n s lru i v (put_buf i (set_b_data v (k_bufs s1 !!! i)) s1).
Proof.
  intros Hr1 Hv. pose proof Hr1 as (_ & Hi & x & E1 & Hbc1 & Hdx & Hbx & Hcx & Hc1 & Hcl1 & Hd1).
  pose proof (bc_len _ _ _ _ Hbc1) as Hlen1. assert (i ∈ [i]) as Hii by left.
  assert (k_bufs s1 !!! i = x) as Ei.
  { rewrite E1 in Hlen1 |- *. simpl in *. rewrite length_insert in Hlen1. apply list_lookup_total_insert_eq. lia. }
  destruct (bc_held _ _ _ _ Hbc1 i Hii) as (_ & _ & _ & _ & Hvx).
  assert (b_flags x = B_VALID \/ b_flags x = Z.lor B_VALID B_DIRTY) as Hfl.
  { destruct (bo_flags _ _ (bc_bufs _ _ _ _ Hbc1 i Hi)) as [E|?]; rewrite Ei in *; [|done].
    unfold valid in Hvx. by rewrite E in Hvx. }
  destruct (bcache_update d s1 lru [i] i (set_b_data v (k_bufs s1 !!! i)) Hbc1 Hii) as [Hbc2 Hc2]; try done; [by rewrite Ei|].
  rewrite Ei in *. rewrite Hbx in Hc2.
  assert (k_bufs (put_buf i (set_b_data v x) s1) !!! i = set_b_data v x) as Ei2 by (apply put_buf_lookup; lia).
  split; rewrite ?Ei2; try done.
  - rewrite put_buf_length. lia.
  - intros m. by rewrite Hc2, Hc1.
  - intros m. rewrite <- Hd1. rewrite is_dirty_put; [done|lia|by rewrite Ei|by rewrite Ei].
  - by rewrite E1.
  - by rewrite E1.
  - etransitivity; [exact (reads_only _ _ _ _ _ _ Hr1)|]. split; [by destruct s1|done].
Qed.

(** Such a buffer is written and released. *)
Lemma runs_flush n s lru i v s2 :
  updates n s lru i v s2 -> runs c b p d [] [] (bwrite i ;; brelse i) s2 (fun _ s' => wrote s n v s').
Proof.
  intros [Hbc2 Hi2 Hbx Hfl Hdv Hc2 Hd2 Hk2 Hw2 Ho2]. assert (i ∈ [i]) as Hii by left.
  eapply (runs_bwrite c b p d); [done|done|]. destruct (bcache_written d s2 lru [i] i Hbc2 Hii) as (Hbc3 & Hco3 & Hc3).
  pose proof (written_dirty d s2 lru [i] i Hbc2 Hii) as Hd3.
  eapply runs_tail, (runs_brelse c b p d); [done|done|]. intros s4 Hr4. apply runs_ret.
  destruct (releases_disk _ _ _ _ _ Hr4) as (Hk4 & Hw4 & _). pose proof Hr4 as (bufs4 & lru4 & E4 & Hbc4 & _ & _).
  split.
  - by exists lru4.
  - intros m Hm. rewrite (releases_content _ _ _ _ _ _ Hr4), Hc3, Hc2 by done. done.
  - rewrite Hk4. unfold written. cbn. by rewrite Hbx, Hdv, Hk2.
  - rewrite Hw4. unfold written. cbn. by rewrite Hbx, Hdv, Hw2.
  - intros m. by rewrite (releases_dirty _ _ _ _ _ _ Hr4), Hd3, Hd2, Hbx.
  - etransitivity; [exact Ho2|]. etransitivity; [|exact (releases_only _ _ _ _ _ Hr4)]. split; [by destruct s2|done].
Qed.

(** The loop of [write_head] that fills the header in buffer [i]. *)
Lemma runs_fill_header s i (x : buf) (bs h : list Z) :
  (i < length (k_bufs s))%nat -> lh_n (k_log s) = Z.of_nat (length bs) -> take (length bs) (lh_block (k_log s)) = bs ->
  (length bs <= Z.to_nat LOGSIZE)%nat ->
  runs c b p d [] [] (for_log (fun j : Z =>
    bn <- lh_block_get j ;;
    buf_set i (fun x => set_b_data (set_word (S (Z.to_nat j)) bn (b_data x)) x)))
    (put_buf i (set_b_data h x) s) (fun _ s' => s' = put_buf i (set_b_data (set_words 1 bs h) x) s).
Proof.
  intros Hi Hn Hbl Hlen. set (st_of := fun t : nat => put_buf i (set_b_data (set_words 1 (take t bs) h) x) s).
  eapply runs_mono; [apply (runs_for_log _ (fun t s' => s' = st_of t) _ (length bs)); [done|done|..]|].
  - intros t s' _ ->. done.
  - intros t s' Ht ->. unfold lh_block_get, log_get. runs_step.
    destruct (lookup_lt_is_Some_2 bs t Ht) as [bn Hbn].
    assert (lh_block (k_log s) !! t = Some bn) as Hbn'.
    { rewrite <- Hbl in Hbn. by rewrite lookup_take_lt in Hbn. }
    change (k_log (st_of t)) with (k_log s). rewrite Nat2Z.id, Hbn'. runs_step.
    apply runs_tail, runs_buf_set; [unfold st_of; by rewrite put_buf_length|]. apply runs_ret.
    unfold st_of. rewrite put_buf_lookup, put_buf_twice by done. cbn.
    by rewrite (take_S_r _ _ _ Hbn), set_words_app, length_take, Nat.min_l by lia.
  - intros [] s' ->. unfold st_of. by rewrite firstn_all.
Qed.

(** [write_head] writes the header for the logged blocks [bs] over [h0]. *)
Lemma write_head_runs s bs h0 ds :
  quiet s -> l_dev (k_log s) = ROOTDEV -> 0 <= l_start (k_log s) < Z.of_nat (length (k_disk s)) ->
  Z.of_nat (length (k_disk s)) <= 2 ^ 31 ->
  lh_n (k_log s) = Z.of_nat (length bs) -> take (length bs) (lh_block (k_log s)) = bs ->
  (length bs <= Z.to_nat LOGSIZE)%nat -> (forall m, is_dirty s m -> m ∈ ds) -> (length ds < NBUF)%nat ->
  content s (l_start (k_log s)) = Some h0 ->
  runs c b p d [] [] write_head s (fun _ s' => wrote s (l_start (k_log s)) (header bs h0) s').
Proof.
  intros (lru & Hbc) Hdev Hst Hdl Hn Hbl Hlen Hds Hdn Hh. set (st := l_start (k_log s)) in *.
  unfold write_head, log_get. runs_step. rewrite Hdev. fold st. rewrite u32_small by lia.
  eapply (runs_bread c b p d); try done; [intros i Hi; by apply elem_of_nil in Hi| |].
  { right. eapply room_by_count; [done|done|simpl; lia]. }
  intros i s1 Hr1. pose proof Hr1 as (_ & Hi & x & E1 & Hbc1 & _ & _ & Hcx & _).
  pose proof (disk_only_log _ _ (reads_only _ _ _ _ _ _ Hr1)) as Hl1. pose proof (bc_len _ _ _ _ Hbc1) as Hlen1.
  assert (k_bufs s1 !!! i = x) as Ei by (rewrite E1; simpl; apply list_lookup_total_insert_eq; rewrite (bc_len _ _ _ _ Hbc); lia).
  assert (b_data x = h0) as Hx0 by congruence.
  runs_step. rewrite Hl1, Hn. apply runs_buf_set; [lia|]. rewrite Ei.
  eapply runs_bind, runs_mono; [apply runs_fill_header; rewrite ?Hl1; [lia|done|done|done]|].
  intros [] s2 ->. rewrite Hx0. fold (header bs h0). rewrite <- Ei. eapply runs_flush, reads_update; [done|].
  rewrite header_length, <- Hx0, <- Ei. apply (bo_data _ _ (bc_bufs _ _ _ _ Hbc1 i Hi)).
Qed.

(** ** The loops of [write_log] and [install_trans] *)
Lemma apply_writes_length W D : length (apply_writes W D) = length D.
Proof.
  revert D. induction W as [|[n v] W IH]; intros D; [done|]. simpl. by rewrite IH, length_insert.
Qed.

Lemma overlay_ne W f m : m ∉ W.*1 -> overlay W f m = f m.
Proof.
  revert f. induction W as [|[n v] W IH]; intros f Hm; [done|].
  rewrite fmap_cons in Hm. apply not_elem_of_cons in Hm as [Hm1 Hm2].
  change (overlay W (fun m => if decide (m = n) then Some v else f m) m = f m).
  rewrite IH by done. by rewrite decide_False.
Qed.

Lemma overlay_ext W f g m : f m = g m -> overlay W f m = overlay W g m.
Proof.
  revert f g. induction W as [|[n v] W IH]; intros f g Hfg; [done|].
  apply (IH (fun m => if decide (m = n) then Some v else f m) (fun m => if decide (m = n) then Some v else g m)).
  by rewrite Hfg.
Qed.

Lemma wrote_all_trans s W1 s1 W2 s2 : wrote_all s W1 s1 -> wrote_all s1 W2 s2 -> wrote_all s (W1 ++ W2) s2.
Proof.
  intros [Hq Hc Hk Hw Hd [Ho Hi]] [Hq' Hc' Hk' Hw' Hd' [Ho' Hi']]. split; [done|..].
  - intros m Hm. rewrite Hc' by done. unfold overlay. rewrite foldl_app. fold (overlay W1 (content s)).
    by apply overlay_ext, Hc.
  - rewrite Hk', Hk. unfold apply_writes. by rewrite foldl_app.
  - by rewrite Hw', Hw, app_assoc.
  - intros m. rewrite Hd', Hd, fmap_app, elem_of_app. tauto.
  - split; [|intros i; rewrite Hi'; apply Hi]. rewrite Ho' at 1. simpl. rewrite Ho at 1. done.
Qed.

Lemma wrote_wrote_all s n v s' : quiet s -> wrote s n v s' -> wrote_all s [(n, v)] s'.
Proof. intros Hq Hw. by apply (wrote_all_snoc s [] s n v), Hw; apply wrote_all_nil. Qed.

Lemma elem_of_take_in {A} (x : A) t (l : list A) : x ∈ take t l -> x ∈ l.
Proof. intros (j & [Hj _]%lookup_take_Some)%list_elem_of_lookup. by eapply list_elem_of_lookup_2. Qed.

Lemma fresh_in_take {A} (l : list A) (t : nat) x : NoDup l -> l !! t = Some x -> x ∉ take t l.
Proof.
  intros Hl Hx (j & [Hj Hjt]%lookup_take_Some)%list_elem_of_lookup.
  pose proof (NoDup_lookup _ _ _ _ Hl Hj Hx). lia.
Qed.

(** The rounds copy the blocks of [xs] to those of [ys], or the other way. *)
Lemma runs_copies s (r1 r2 : Z -> K nat) (sf : bool) (xs ys : list Z) (vs : list (list Z)) (ds : list Z) :
  let src := if sf then xs else ys in
  let dst := if sf then ys else xs in
  quiet s -> lh_n (k_log s) = Z.of_nat (length ys) -> (length ys <= Z.to_nat LOGSIZE)%nat ->
  length xs = length ys -> length vs = length ys ->
  (forall t x, xs !! t = Some x -> reads_block (r1 (Z.of_nat t)) (k_log s) x) ->
  (forall t y, ys !! t = Some y -> reads_block (r2 (Z.of_nat t)) (k_log s) y) ->
  Forall (fun n => 0 <= n < Z.of_nat (length (k_disk s))) (xs ++ ys) -> NoDup (xs ++ ys) ->
  (forall m, is_dirty s m -> m ∈ ds) -> (length ds < NBUF)%nat ->
  Forall (is_dirty s) ys \/ (length ds + 1 < NBUF)%nat ->
  (forall t n, src !! t = Some n -> content s n = vs !! t) ->
  runs c b p d [] [] (for_log (fun t => copy_step (r1 t) (r2 t) sf)) s
    (fun _ s' => wrote_all s (zip dst vs) s' /\ k_log s' = k_log s).
Proof.
  intros src dst Hq Hn Hmax Hlx Hlv Hr1 Hr2 Hrng Hnd Hds Hlds Hpin Hsrc.
  assert (length dst = length ys) as Hld by (unfold dst; by destruct sf).
  apply NoDup_app in Hnd as (Hndx & Hdisj & Hndy). apply Forall_app in Hrng as [Hrx Hry].
  eapply runs_mono; [apply (runs_log_writes _ s [] s (zip dst vs))|done].
  { rewrite length_zip. lia. } { rewrite length_zip, Hn. f_equal. lia. } { by apply wrote_all_nil. }
  intros t s' n v Ht Hw Hlog. apply lookup_zip_Some in Ht as [Hdt Hvt]. cbn [app] in Hw.
  assert (t < length ys)%nat as Htl by (rewrite <- Hld; by eapply lookup_lt_Some).
  destruct (lookup_lt_is_Some_2 xs t) as [x Hx]; [lia|]. destruct (lookup_lt_is_Some_2 ys t) as [y Hy]; [lia|].
  assert ((take t (zip dst vs)).*1 = take t dst) as Hfst.
  { rewrite fmap_take, fst_zip by lia. done. }
  assert (x ∈ xs) as Hxin by (by eapply list_elem_of_lookup_2).
  assert (y ∈ ys) as Hyin by (by eapply list_elem_of_lookup_2).
  assert ((y ∉ take t dst) /\ (if sf then x else y) ∉ take t dst) as [Hyd Hsd].
  { unfold dst. destruct sf; split; try (by apply fresh_in_take); intros Hin%elem_of_take_in; naive_solver. }
  rewrite Forall_forall in Hrx, Hry.
  assert (length (k_disk s') = length (k_disk s)) as Hdl by (rewrite (wa_disk _ _ _ Hw); apply apply_writes_length).
  assert (n = if sf then y else x) as -> by (unfold dst in Hdt; destruct sf; congruence).
  apply (runs_copy_step _ _ _ _ _ sf ds v); rewrite ?Hdl; try done; rewrite ?Hlog; auto.
  - apply Hw.
  - intros ->. by apply (Hdisj y).
  - intros m Hm. apply Hds. by apply (wa_dirty _ _ _ Hw) in Hm as [? _].
  - destruct Hpin as [Hpin|?]; [left|by right]. apply (wa_dirty _ _ _ Hw). rewrite Hfst. split; [|done].
    by apply (proj1 (Forall_forall _ _) Hpin).
  - assert (0 <= if sf then x else y) by (destruct sf; [apply Hrx|apply Hry]; done).
    rewrite (wa_content _ _ _ Hw), overlay_ne by (rewrite ?Hfst; done).
    rewrite (Hsrc t); [done|]. unfold src. by destruct sf.
Qed.

(** ** Commit and recovery *)
(** Block [m] is not part of the log. *)
Definition outside (l : log) m : Prop := m < l_start l \/ l_start l + l_size l <= m.

(** The log [l] lies on a disk of [nd] blocks and has room for the blocks [bs]. *)
Record log_fits (l : log) (nd : nat) (bs : list Z) : Prop := {
  lf_dev : l_dev l = ROOTDEV;
  lf_start : 0 <= l_start l;
  lf_end : l_start l + l_size l <= Z.of_nat nd;
  lf_disk : Z.of_nat nd <= 2 ^ 31;
  lf_room : Z.of_nat (length bs) + 1 <= l_size l;
  lf_size : l_size l <= LOGSIZE;
  lf_home : Forall (fun n => 0 <= n < Z.of_nat nd /\ outside l n) bs;
  lf_nodup : NoDup bs }.

Lemma lf_bufs l nd bs : log_fits l nd bs -> (length bs < NBUF)%nat.
Proof.
  intros Hf. pose proof (lf_room _ _ _ Hf). pose proof (lf_size _ _ _ Hf) as Hs. change LOGSIZE with 30 in Hs.
  unfold NBUF. lia.
Qed.

(** The log [l] records the blocks [bs]. *)
Definition records (l : log) (bs : list Z) : Prop :=
  lh_n l = Z.of_nat (length bs) /\ take (length bs) (lh_block l) = bs.

(** The first [n] blocks of the log after its header. *)
Definition slots (l : log) (n : nat) : list Z := (fun t => l_start l + Z.of_nat t + 1) <$> seq 0 n.

Lemma slots_lookup l (n : nat) t x : slots l n !! t = Some x -> (t < n)%nat /\ x = l_start l + Z.of_nat t + 1.
Proof.
  unfold slots. rewrite list_lookup_fmap, fmap_Some. intros (k & [-> Hk]%lookup_seq & ->). done.
Qed.

Lemma slots_in l (n : nat) x : x ∈ slots l n -> l_start l + 1 <= x <= l_start l + Z.of_nat n.
Proof. intros (t & [Ht ->]%slots_lookup)%list_elem_of_lookup. lia. Qed.

Lemma slots_length l (n : nat) : length (slots l n) = n.
Proof. unfold slots. by rewrite length_fmap, length_seq. Qed.

Lemma records_lookup l bs t n : records l bs -> bs !! t = Some n -> lh_block l !! t = Some n.
Proof.
  intros [_ Hb] Hn. pose proof (lookup_lt_Some _ _ _ Hn). rewrite <- Hb in Hn. by apply lookup_take_Some in Hn as [? _].
Qed.

Lemma fits_layout l nd bs : log_fits l nd bs ->
  NoDup (slots l (length bs) ++ bs) /\ Forall (fun n => 0 <= n < Z.of_nat nd) (slots l (length bs) ++ bs).
Proof.
  intros Hf. destruct Hf as [? ? ? ? ? ? Hhome Hnd]. rewrite Forall_forall in Hhome. split.
  - apply NoDup_app. split_and!; [|intros x Hx%slots_in Hb%Hhome; unfold outside in Hb; lia|done].
    apply NoDup_fmap_2_strong; [intros; lia|apply NoDup_seq].
  - apply Forall_app. split; apply Forall_forall; [intros x Hx%slots_in; lia|intros x Hx%Hhome; lia].
Qed.

Lemma fits_reads l nd bs : log_fits l nd bs -> records l bs ->
  (forall t x, slots l (length bs) !! t = Some x -> reads_block (bread_slot (Z.of_nat t)) l x) /\
  (forall t y, bs !! t = Some y -> reads_block (bread_logged (Z.of_nat t)) l y).
Proof.
  intros Hf Hr. destruct Hf as [? ? ? ? ? ? Hhome _]. split.
  - intros t x [Ht ->]%slots_lookup. apply reads_slot; [done|lia].
  - intros t y Hy. apply reads_logged; [done|by rewrite Nat2Z.id; eapply records_lookup|].
    pose proof (proj1 (Forall_lookup _ _) Hhome _ _ Hy) as Hy'. simpl in Hy'. lia.
Qed.

Lemma fits_logsize l nd bs : log_fits l nd bs -> (length bs <= Z.to_nat LOGSIZE)%nat.
Proof. intros Hf. pose proof (lf_bufs _ _ _ Hf) as Hb. unfold NBUF in Hb. change (Z.to_nat LOGSIZE) with 30%nat. lia. Qed.

(** [write_head], as a sequence of one write. *)
Lemma write_head_all s bs ds h0 :
  quiet s -> log_fits (k_log s) (length (k_disk s)) bs -> records (k_log s) bs ->
  (forall m, is_dirty s m -> m ∈ ds) -> (length ds < NBUF)%nat -> content s (l_start (k_log s)) = Some h0 ->
  runs c b p d [] [] write_head s
    (fun _ s' => wrote_all s [(l_start (k_log s), header bs h0)] s' /\ k_log s' = k_log s).
Proof.
  intros Hq Hf [? ?] Hds Hlds Hh. pose proof Hf as [? ? ? ? ? ? _ _].
  eapply runs_mono; [eapply (write_head_runs s bs h0 ds); try done; [lia|by eapply fits_logsize]|].
  intros [] s' Hw. split; [by apply wrote_wrote_all|]. apply disk_only_log, Hw.
Qed.

Section moves.
Context (s : kernel) (bs ds : list Z) (vs : list (list Z)).
Context (Hq : quiet s) (Hf : log_fits (k_log s) (length (k_disk s)) bs) (Hr : records (k_log s) bs).
Context (Hlv : length vs = length bs) (Hds : forall m, is_dirty s m -> m ∈ ds) (Hlds : (length ds < NBUF)%nat).
Context (Hpin : Forall (is_dirty s) bs \/ (length ds + 1 < NBUF)%nat).

(** [write_log] copies the cached blocks [bs] to the log. *)
Lemma write_log_runs :
  (forall t n, bs !! t = Some n -> content s n = vs !! t) ->
  runs c b p d [] [] write_log s
    (fun _ s' => wrote_all s (zip (slots (k_log s) (length bs)) vs) s' /\ k_log s' = k_log s).
Proof.
  intros Hvs. destruct (fits_layout _ _ _ Hf) as [Hnd Hrng]. destruct (fits_reads _ _ _ Hf Hr) as [Hr1 Hr2].
  exact (runs_copies s bread_slot bread_logged false (slots (k_log s) (length bs)) bs vs ds Hq (proj1 Hr) (fits_logsize _ _ _ Hf)
    (slots_length _ _) Hlv Hr1 Hr2 Hrng Hnd Hds Hlds Hpin Hvs).
Qed.

(** [install_trans] copies the blocks of the log to their home. *)
Lemma install_trans_runs :
  (forall t n, slots (k_log s) (length bs) !! t = Some n -> content s n = vs !! t) ->
  runs c b p d [] [] install_trans s (fun _ s' => wrote_all s (zip bs vs) s' /\ k_log s' = k_log s).
Proof.
  intros Hvs. destruct (fits_layout _ _ _ Hf) as [Hnd Hrng]. destruct (fits_reads _ _ _ Hf Hr) as [Hr1 Hr2].
  exact (runs_copies s bread_slot bread_logged true (slots (k_log s) (length bs)) bs vs ds Hq (proj1 Hr) (fits_logsize _ _ _ Hf)
    (slots_length _ _) Hlv Hr1 Hr2 Hrng Hnd Hds Hlds Hpin Hvs).
Qed.

End moves.

Lemma bcache_set_log s l lru held : bcache_ok s (pid d) lru held -> bcache_ok (set_k_log l s) (pid d) lru held.
Proof. intros []. by split. Qed.

(** A block read and released, with the log possibly replaced in between. *)
Lemma released_read n s lru i s1 l s3 :
  quiet s -> reads d n s lru [] i s1 -> releases d (set_k_log l s1) lru [] i s3 ->
  wrote_all s [] s3 /\ k_log s3 = l.
Proof.
  intros Hq Hr1 Hr3. pose proof Hr1 as (_ & _ & x & E1 & _ & _ & _ & _ & Hc1 & _ & Hd1).
  pose proof (reads_only _ _ _ _ _ _ Hr1) as Ho1. pose proof (releases_only _ _ _ _ _ Hr3) as Ho3.
  destruct (releases_disk _ _ _ _ _ Hr3) as (Hk3 & Hw3 & _).
  pose proof Hr3 as (bufs3 & lru3 & E3 & Hbc3 & _). split; [|by rewrite E3].
  assert (k_disk s1 = k_disk s /\ k_writes s1 = k_writes s) as [Hk1 Hw1] by by rewrite E1.
  split.
  - by exists lru3.
  - intros m _. rewrite (releases_content _ _ _ _ _ _ Hr3). apply Hc1.
  - by rewrite Hk3.
  - by rewrite Hw3, app_nil_r.
  - intros m. rewrite (releases_dirty _ _ _ _ _ _ Hr3). rewrite <- Hd1. split; [|tauto]. intros Hm.
    split; [done|apply not_elem_of_nil].
  - destruct Ho1 as [Ea Hb1], Ho3 as [Ec Hb3]. split; [|intros j; rewrite Hb3; apply Hb1].
    rewrite Ec at 1. rewrite (disk_only_log (set_k_log l s1) s3) by by split. cbn. rewrite Ea at 1. done.
Qed.

(** [read_head] loads the blocks [bs] recorded by the header block [h]. *)
Definition heads (h : list Z) (bs : list Z) : Prop :=
  word h 0 = Z.of_nat (length bs) /\ forall t n, bs !! t = Some n -> word h (S t) = n.

Definition loaded (bs : list Z) (l : log) : log :=
  set_lh_block (bs ++ drop (length bs) (lh_block l)) (set_lh_n (Z.of_nat (length bs)) l).

Lemma insert_app_drop (bs blk : list Z) t n :
  bs !! t = Some n -> (t < length blk)%nat ->
  <[t := n]> (take t bs ++ drop t blk) = take (S t) bs ++ drop (S t) blk.
Proof.
  intros Hn Ht. assert (length (take t bs) = t) as Hl by (rewrite length_take; apply lookup_lt_Some in Hn; lia).
  rewrite (take_S_r _ _ _ Hn), insert_app_r_alt, Hl, Nat.sub_diag by lia.
  destruct (lookup_lt_is_Some_2 blk t Ht) as [y Hy]. rewrite (drop_S _ _ _ Hy). simpl. by rewrite <- app_assoc.
Qed.

(** The loop of [read_head]. *)
Lemma runs_load_header s0 (l : log) (bs h : list Z) :
  length (lh_block l) = Z.to_nat LOGSIZE -> (length bs <= Z.to_nat LOGSIZE)%nat -> heads h bs ->
  Forall (fun n => 0 <= n < 2 ^ 31) bs ->
  runs c b p d [] [] (for_log (fun j : Z => lh_block_set j (i32 (word h (S (Z.to_nat j))))))
    (set_k_log (set_lh_n (Z.of_nat (length bs)) l) s0) (fun _ s' => s' = set_k_log (loaded bs l) s0).
Proof.
  intros Hll Hlen [_ Hw] Hrng.
  set (st_of := fun t : nat => set_k_log (set_lh_block (take t bs ++ drop t (lh_block l)) (set_lh_n (Z.of_nat (length bs)) l)) s0).
  eapply runs_mono; [apply (runs_for_log _ (fun t s' => s' = st_of t) _ (length bs)); [done|..]|].
  - unfold st_of. rewrite take_0, drop_0. by destruct l.
  - intros t s' _ ->. done.
  - intros t s' Ht ->. destruct (lookup_lt_is_Some_2 bs t Ht) as [n Hn].
    unfold lh_block_set, lh_block_get, log_get, log_set. rewrite Nat2Z.id, (Hw t n Hn).
    pose proof (proj1 (Forall_lookup _ _) Hrng _ _ Hn) as Hnr. cbn beta in Hnr. rewrite i32_small by lia.
    runs_step. destruct (lookup_lt_is_Some_2 (lh_block (k_log (st_of t))) t) as [y Hy].
    { unfold st_of. cbn. rewrite length_app, length_take, length_drop. lia. }
    rewrite Hy. runs_step. apply runs_tail. runs_step. unfold st_of. cbn. by rewrite insert_app_drop by (done || lia).
  - intros [] s' ->. unfold st_of, loaded. by rewrite firstn_all.
Qed.

Lemma read_head_runs s (bs h : list Z) :
  quiet s -> log_fits (k_log s) (length (k_disk s)) bs -> length (lh_block (k_log s)) = Z.to_nat LOGSIZE ->
  (forall m, ~ is_dirty s m) -> content s (l_start (k_log s)) = Some h -> heads h bs ->
  runs c b p d [] [] read_head s (fun _ s' => wrote_all s [] s' /\ k_log s' = loaded bs (k_log s)).
Proof.
  intros Hq Hf Hll Hcl Hh Hhd. pose proof Hq as (lru & Hbc). pose proof (fits_logsize _ _ _ Hf) as Hmax.
  destruct Hf as [Hdev ? ? ? ? ? Hhome _].
  unfold read_head, log_get. runs_step. rewrite Hdev, u32_small by lia.
  eapply (runs_bread c b p d); [done|lia|intros i Hi; by apply elem_of_nil in Hi| |].
  { right. eapply (room_by_count _ _ _ _ []); [done|by intros m Hm%Hcl|simpl; unfold NBUF; lia]. }
  intros i s1 Hr1. pose proof Hr1 as (_ & Hi & x & E1 & Hbc1 & Hdx & Hbx & Hcx & Hc1 & Hcl1 & Hd1).
  pose proof (reads_only _ _ _ _ _ _ Hr1) as Ho1. pose proof (disk_only_log _ _ Ho1) as Hl1.
  pose proof (bc_len _ _ _ _ Hbc1) as Hlen1.
  assert (k_bufs s1 !!! i = x) as Ei by (rewrite E1; simpl; apply list_lookup_total_insert_eq; rewrite (bc_len _ _ _ _ Hbc); lia).
  assert (b_data x = h) as Hx0 by congruence.
  apply runs_buf_get; [lia|]. rewrite Ei, Hx0. unfold log_set. runs_step. destruct Hhd as [Hh0 Hhs].
  change (Z.to_nat LOGSIZE) with 30%nat in Hmax.
  rewrite Hh0, i32_small, Hl1 by lia.
  eapply runs_bind, runs_mono; [apply runs_load_header; [done|done|done|]|].
  { eapply Forall_impl; [exact Hhome|]. simpl. lia. }
  intros [] s2 ->. set (s2 := set_k_log (loaded bs (k_log s)) s1).
  assert (bcache_ok s2 (pid d) lru [i]) as Hbc2 by by apply bcache_set_log.
  eapply runs_tail, (runs_brelse c b p d); [exact Hbc2| |].
  { cbn. rewrite Ei. intros Hv. rewrite Hbx, E1. apply Hcl1. unfold dirty. by rewrite Hv. }
  intros s3 Hr3. apply runs_ret. by eapply released_read.
Qed.

Lemma overlay_app W1 W2 f m : overlay (W1 ++ W2) f m = overlay W2 (overlay W1 f) m.
Proof. unfold overlay. by rewrite foldl_app. Qed.

Lemma overlay_zip (ks : list Z) (vs : list (list Z)) f t k :
  NoDup ks -> length vs = length ks -> ks !! t = Some k -> overlay (zip ks vs) f k = vs !! t.
Proof.
  revert vs f t. induction ks as [|k' ks IH]; intros [|v vs] f t Hnd Hl Hk; try done.
  apply NoDup_cons in Hnd as [Hk' Hnd]. injection Hl as Hl.
  change (overlay (zip ks vs) (fun m => if decide (m = k') then Some v else f m) k = (v :: vs) !! t).
  destruct t as [|t]; cbn in Hk |- *.
  - injection Hk as ->. rewrite overlay_ne by (rewrite fst_zip by lia; done). by rewrite decide_True.
  - by apply IH.
Qed.

Lemma zip_fst (ks : list Z) (vs : list (list Z)) : length vs = length ks -> (zip ks vs).*1 = ks.
Proof. intros Hl. apply fst_zip. lia. Qed.

(** What [commit] writes for the blocks [bs] with contents [vs]. *)
Definition commit_writes (l : log) (bs : list Z) (vs : list (list Z)) (h0 : list Z) : list (Z * list Z) :=
  zip (slots l (length bs)) vs ++ [(l_start l, header bs h0)] ++ zip bs vs ++ [(l_start l, header [] (header bs h0))].

Lemma start_not_slot l (n : nat) : l_start l ∉ slots l n.
Proof. intros ?%slots_in. lia. Qed.

Lemma start_not_home l nd bs : log_fits l nd bs -> l_start l ∉ bs.
Proof.
  intros [? ? ? ? ? ? Hhome _] Hin. rewrite Forall_forall in Hhome. apply Hhome in Hin as [_ Hin]. unfold outside in Hin. lia.
Qed.

Lemma fits_clear l nd bs : log_fits l nd bs -> log_fits (set_lh_n 0 l) nd [].
Proof. intros []. split; cbn; first [done|lia|apply NoDup_nil_2|apply Forall_nil_2|unfold NBUF; lia]. Qed.

(** The end of [commit] and of [recover_from_log]: clear the log. *)
Lemma clear_runs s bs h :
  quiet s -> log_fits (k_log s) (length (k_disk s)) bs -> (forall m, ~ is_dirty s m) ->
  content s (l_start (k_log s)) = Some h ->
  runs c b p d [] [] (log_set (set_lh_n 0) ;; write_head) s
    (fun _ s' => wrote_all s [(l_start (k_log s), header [] h)] s' /\ k_log s' = set_lh_n 0 (k_log s)).
Proof.
  intros Hq Hf Hcl Hh. unfold log_set. runs_step. set (s1 := set_k_log _ s).
  pose proof (wrote_all_log s [] s (set_lh_n 0 (k_log s)) (wrote_all_nil s Hq)) as Hw0.
  eapply runs_mono; [apply (write_head_all s1 [] [] h (wa_quiet _ _ _ Hw0) (fits_clear _ _ _ Hf))|].
  - by split.
  - intros m Hm. by destruct (Hcl m).
  - simpl. unfold NBUF. lia.
  - done.
  - intros [] s2 [Hw Hl]. split; [|done]. by apply (wrote_all_trans s [] s1).
Qed.

Lemma commit_runs s bs vs h0 :
  quiet s -> log_fits (k_log s) (length (k_disk s)) bs -> records (k_log s) bs -> bs <> [] ->
  (forall m, is_dirty s m <-> m ∈ bs) -> length vs = length bs ->
  (forall t n, bs !! t = Some n -> content s n = vs !! t) -> content s (l_start (k_log s)) = Some h0 ->
  runs c b p d [] [] commit s
    (fun _ s' => wrote_all s (commit_writes (k_log s) bs vs h0) s' /\ k_log s' = set_lh_n 0 (k_log s)).
Proof.
  intros Hq Hf Hr Hne Hd Hlv Hvs Hh. set (l := k_log s) in *. set (st := l_start l) in *.
  assert (Forall (is_dirty s) bs) as Hpin by (apply Forall_forall; intros m Hm; by apply Hd).
  assert (0 < lh_n l) as Hpos by (rewrite (proj1 Hr); destruct bs; [done|simpl; lia]).
  pose proof (start_not_slot l (length bs)) as Hs1. pose proof (start_not_home _ _ _ Hf) as Hs2. fold st in Hs1, Hs2.
  destruct (fits_layout _ _ _ Hf) as [(Hnds & Hdisj & Hndb)%NoDup_app Hrng]. apply Forall_app in Hrng as [Hrs Hrb].
  rewrite Forall_forall in Hrs, Hrb. pose proof (lf_start _ _ _ Hf) as Hst. fold st in Hst.
  assert (length (slots l (length bs)) = length bs) as Hsl by apply slots_length.
  assert (forall W s', wrote_all s W s' -> length (k_disk s') = length (k_disk s)) as Hdl.
  { intros W s' Hw. rewrite (wa_disk _ _ _ Hw). apply apply_writes_length. }
  assert (forall W s' m, wrote_all s W s' -> is_dirty s' m -> m ∈ bs) as Hsub.
  { intros W s' m Hw [Hm _]%(wa_dirty _ _ _ Hw). by apply Hd. }
  pose proof (lf_bufs _ _ _ Hf) as Hlb.
  unfold commit, log_get. runs_step. fold l. replace (0 <? lh_n l) with true by lia. cbn [whenm].
  eapply runs_bind, runs_mono; [exact (write_log_runs s bs bs vs Hq Hf Hr Hlv (fun m => proj1 (Hd m)) Hlb (or_introl Hpin) Hvs)|].
  intros [] s1 [Hw1 Hl1]. fold l in Hl1, Hw1.
  assert (content s1 st = Some h0) as Hh1.
  { rewrite (wa_content _ _ _ Hw1), overlay_ne; [done| |done]. rewrite zip_fst by (rewrite Hsl; done). done. }
  eapply runs_bind, runs_mono; [eapply (write_head_all s1 bs bs)|]; rewrite ?Hl1, ?(Hdl _ _ Hw1); try done.
  { apply Hw1. } { intros m. by eapply Hsub. }
  intros [] s2 [Hw2 Hl2]. rewrite ?Hl1 in Hl2. fold st in Hw2. pose proof (wrote_all_trans _ _ _ _ _ Hw1 Hw2) as Hw12.
  eapply runs_bind, runs_mono; [eapply (install_trans_runs s2 bs bs vs)|]; rewrite ?Hl2, ?(Hdl _ _ Hw12); try done.
  { apply Hw12. } { intros m. by eapply Hsub. }
  { left. apply Forall_forall. intros m Hm. apply (wa_dirty _ _ _ Hw12). split; [by apply Hd|].
    rewrite fmap_app, zip_fst by lia. rewrite not_elem_of_app. split; [intros Hin; by apply (Hdisj m)|].
    intros ->%list_elem_of_singleton. done. }
  { intros t n Hn. pose proof (list_elem_of_lookup_2 _ _ _ Hn) as Hin. pose proof (Hrs n Hin).
    rewrite (wa_content _ _ _ Hw12), overlay_app, overlay_ne by (try lia; intros ->%list_elem_of_singleton; done).
    by apply overlay_zip; [..|by rewrite Hsl|]. }
  intros [] s3 [Hw3 Hl3]. rewrite ?Hl2 in Hl3. pose proof (wrote_all_trans _ _ _ _ _ Hw12 Hw3) as Hw123.
  eapply runs_mono; [apply (clear_runs s3 bs (header bs h0)); rewrite ?Hl3, ?(Hdl _ _ Hw123); [apply Hw123|done|..]|].
  - intros m [Hm Hn]%(wa_dirty _ _ _ Hw3). rewrite zip_fst in Hn by done. apply Hn. exact (Hsub _ _ _ Hw12 Hm).
  - fold l st. rewrite (wa_content _ _ _ Hw3), overlay_ne, (wa_content _ _ _ Hw2) by (rewrite ?zip_fst by done; done).
    unfold overlay. cbn [foldl]. by rewrite decide_True.
  - intros [] s4 [Hw4 Hl4]. rewrite Hl3 in Hw4, Hl4. split; [|done].
    pose proof (wrote_all_trans _ _ _ _ _ Hw123 Hw4) as Hw.
    unfold commit_writes. by rewrite <- !app_assoc in Hw.
Qed.

Lemma loaded_records (bs : list Z) l : records (loaded bs l) bs.
Proof. split; [done|]. cbn. by rewrite take_app_length. Qed.

Lemma recover_runs s bs vs h :
  quiet s -> log_fits (k_log s) (length (k_disk s)) bs -> length (lh_block (k_log s)) = Z.to_nat LOGSIZE ->
  (forall m, ~ is_dirty s m) -> content s (l_start (k_log s)) = Some h -> heads h bs -> length vs = length bs ->
  (forall t n, slots (k_log s) (length bs) !! t = Some n -> content s n = vs !! t) ->
  runs c b p d [] [] recover_from_log s
    (fun _ s' => wrote_all s (zip bs vs ++ [(l_start (k_log s), header [] h)]) s' /\ lh_n (k_log s') = 0).
Proof.
  intros Hq Hf Hll Hcl Hh Hhd Hlv Hvs. set (l := k_log s) in *. set (st := l_start l) in *.
  pose proof (start_not_home _ _ _ Hf) as Hs2. fold st in Hs2. pose proof (lf_start _ _ _ Hf) as Hst. fold st in Hst.
  unfold recover_from_log.
  eapply runs_bind, runs_mono; [by apply (read_head_runs s bs h)|]. intros [] s1 [Hw1 Hl1]. fold l in Hl1.
  assert (forall m, ~ is_dirty s1 m) as Hcl1 by (intros m [Hm _]%(wa_dirty _ _ _ Hw1); by apply (Hcl m)).
  assert (length (k_disk s1) = length (k_disk s)) as Hd1 by (by rewrite (wa_disk _ _ _ Hw1)).
  assert (log_fits (k_log s1) (length (k_disk s1)) bs) as Hf1 by (rewrite Hd1, Hl1; destruct Hf; by split).
  eapply runs_bind, runs_mono; [eapply (install_trans_runs s1 bs [] vs); try done|].
  { apply Hw1. } { rewrite Hl1. apply loaded_records. } { intros m Hm. by destruct (Hcl1 m). }
  { simpl. unfold NBUF. lia. } { right. simpl. unfold NBUF. lia. }
  { intros t n Hn. rewrite Hl1 in Hn. change (slots (loaded bs l)) with (slots l) in Hn.
    assert (0 <= n) by (apply list_elem_of_lookup_2 in Hn; apply slots_in in Hn; unfold st in *; lia).
    rewrite (wa_content _ _ _ Hw1) by done. by apply Hvs. }
  intros [] s2 [Hw2 Hl2]. rewrite Hl1 in Hl2. pose proof (wrote_all_trans _ _ _ _ _ Hw1 Hw2) as Hw12.
  assert (length (k_disk s2) = length (k_disk s1)) as Hd2 by (rewrite (wa_disk _ _ _ Hw2); apply apply_writes_length).
  eapply runs_mono; [apply (clear_runs s2 bs h)|].
  - apply Hw12.
  - by rewrite Hd2, Hl2, <- Hl1.
  - intros m [Hm _]%(wa_dirty _ _ _ Hw2). by apply (Hcl1 m).
  - rewrite Hl2. change (l_start (loaded bs l)) with st.
    rewrite (wa_content _ _ _ Hw12), overlay_ne; [done| |done]. simpl. by rewrite zip_fst.
  - intros [] s3 [Hw3 Hl3]. rewrite Hl2 in Hw3, Hl3. split; [|by rewrite Hl3].
    exact (wrote_all_trans _ _ _ _ _ Hw12 Hw3).
Qed.

(** ** Crashes *)
(** The machine has been restarted: the cache holds no unwritten block, the
    disk is [D], and the log has the geometry of [l], as [initlog] sets it. *)
Record booted (l : log) (D : list (list Z)) s : Prop := {
  bt_quiet : quiet s;
  bt_clean : forall m, ~ is_dirty s m;
  bt_disk : k_disk s = D;
  bt_dev : l_dev (k_log s) = l_dev l;
  bt_start : l_start (k_log s) = l_start l;
  bt_size : l_size (k_log s) = l_size l;
  bt_array : length (lh_block (k_log s)) = Z.to_nat LOGSIZE }.

Definition disk_at (D : list (list Z)) m : option (list Z) := D !! Z.to_nat m.

Lemma clean_content s m : quiet s -> ~ is_dirty s m -> 0 <= m -> content s m = disk_at (k_disk s) m.
Proof.
  intros (lru & Hbc) Hcl Hm. unfold content, content_of, disk_at.
  destruct (find_buf _ _ _) as [i|] eqn:Hfind; [|done]. apply find_buf_some in Hfind as (Hi%elem_of_seq & Hc).
  apply andb_prop in Hc as [[_ Hn%Z.eqb_eq]%andb_prop Hv].
  destruct (bc_free _ _ _ _ Hbc i) as (_ & _ & Hco); [lia|apply not_elem_of_nil|].
  rewrite <- Hn. symmetry. apply Hco.
  destruct (bo_flags _ _ (bc_bufs _ _ _ _ Hbc i ltac:(lia))) as [E|[E|E]]; [|done|].
  - unfold valid in Hv. by rewrite E in Hv.
  - destruct Hcl. exists i. split_and!; [lia| |done]. unfold dirty. by rewrite E.
Qed.

Lemma disk_overlay W D m :
  Forall (fun w => 0 <= w.1) W -> 0 <= m < Z.of_nat (length D) ->
  disk_at (apply_writes W D) m = overlay W (disk_at D) m.
Proof.
  intros HW Hm. induction W as [|[n v] W IH] using rev_ind; [done|].
  apply Forall_app in HW as [HW [Hn _]%Forall_cons]. cbn in Hn.
  rewrite apply_writes_snoc, overlay_snoc, <- IH by done. unfold disk_at. case_decide as E.
  - subst. apply list_lookup_insert_eq. rewrite apply_writes_length. lia.
  - apply list_lookup_insert_ne. lia.
Qed.

(** Recovery from the disk [D] leaves the contents [f] outside the log. *)
Definition recovers (l : log) (D : list (list Z)) (f : Z -> option (list Z)) : Prop :=
  forall s, booted l D s -> runs c b p d [] [] recover_from_log s (fun _ s' =>
    length (k_disk s') = length D /\
    forall m, 0 <= m < Z.of_nat (length D) -> outside l m -> disk_at (k_disk s') m = f m).

Lemma recovers_disk l D bs vs h f :
  log_fits l (length D) bs -> disk_at D (l_start l) = Some h -> heads h bs -> length vs = length bs ->
  (forall t n, slots l (length bs) !! t = Some n -> disk_at D n = vs !! t) ->
  (forall m, 0 <= m < Z.of_nat (length D) -> outside l m -> overlay (zip bs vs) (disk_at D) m = f m) ->
  recovers l D f.
Proof.
  intros Hf Hh Hhd Hlv Hvs Hfm s [Hq Hcl Hk Hdv Hst Hsz Hll]. pose proof (lf_start _ _ _ Hf) as Hst0.
  assert (slots (k_log s) = slots l) as Hsl by (unfold slots; by rewrite Hst).
  assert (forall m, 0 <= m -> content s m = disk_at D m) as Hc by (intros m Hm; rewrite clean_content, Hk; done || apply Hcl).
  eapply runs_mono; [apply (recover_runs s bs vs h); rewrite ?Hsl, ?Hst, ?Hk, ?Hc; try done|].
  - destruct Hf. split; rewrite ?Hdv, ?Hst, ?Hsz; try done. unfold outside. by rewrite Hst, Hsz.
  - intros t n Hn. rewrite Hc; [by apply Hvs|]. apply list_elem_of_lookup_2, slots_in in Hn. lia.
  - intros [] s' [Hw _]. rewrite (wa_disk _ _ _ Hw), Hk, Hst, apply_writes_length. split; [done|].
    intros m Hm Ho. assert (m <> l_start l) by (pose proof (lf_room _ _ _ Hf); unfold outside in Ho; lia).
    rewrite disk_overlay, overlay_app, overlay_ne, Hfm; try done.
    + intros ?%list_elem_of_singleton. done.
    + apply Forall_app. split; [|by apply Forall_singleton]. pose proof (lf_home _ _ _ Hf) as Hhome.
      apply Forall_forall. intros w Hw'%(list_elem_of_fmap_2 fst). rewrite zip_fst in Hw' by done.
      apply (proj1 (Forall_forall _ _) Hhome) in Hw'. lia.
Qed.

Lemma heads_header (bs' h : list Z) :
  (length bs' < NBUF)%nat -> Forall (fun n => 0 <= n < 2 ^ 31) bs' -> length h = Z.to_nat BSIZE -> heads (header bs' h) bs'.
Proof.
  intros Hl Hr Hlen. unfold NBUF in Hl. change (Z.to_nat BSIZE) with 512%nat in Hlen. split.
  - rewrite header_n, u32_small by lia. done.
  - intros t n Hn. rewrite (header_block _ _ _ _ Hn) by lia. apply u32_small.
    pose proof (proj1 (Forall_lookup _ _) Hr _ _ Hn). cbn beta in *. lia.
Qed.

Lemma header_empty h : length h = Z.to_nat BSIZE -> heads (header [] h) [].
Proof. apply heads_header; [simpl; unfold NBUF; lia|apply Forall_nil_2]. Qed.

Section crash.
Context (l : log) (D : list (list Z)) (bs h0 : list Z) (vs : list (list Z)).
Context (Hf : log_fits l (length D) bs) (Hlv : length vs = length bs).
Context (Hh : disk_at D (l_start l) = Some h0) (Hh0 : word h0 0 = 0) (Hlh : length h0 = Z.to_nat BSIZE).

(** The places of the writes of [commit]. *)
Lemma outside_layout m : outside l m -> m <> l_start l /\ m ∉ slots l (length bs).
Proof. pose proof (lf_room _ _ _ Hf). unfold outside. intros Ho. split; [lia|]. intros ?%slots_in. lia. Qed.

Lemma fst_prefix (ks : list Z) (us : list (list Z)) W1 W2 m :
  length us = length ks -> W1 ++ W2 = zip ks us -> m ∉ ks -> m ∉ W1.*1.
Proof.
  intros Hl E Hm Hin. apply Hm. rewrite <- (zip_fst ks us Hl), <- E, fmap_app. apply elem_of_app. by left.
Qed.

Lemma commit_writes_range : Forall (fun w => 0 <= w.1) (commit_writes l bs vs h0).
Proof.
  pose proof (lf_start _ _ _ Hf) as Hst. destruct (fits_layout _ _ _ Hf) as [_ [Hs Hb]%Forall_app].
  assert (forall (ks : list Z), length vs = length ks -> Forall (fun n => 0 <= n < Z.of_nat (length D)) ks ->
    Forall (fun w => 0 <= w.1) (zip ks vs)) as Hz.
  { intros ks Hl Hks. apply Forall_forall. intros w Hw%(list_elem_of_fmap_2 fst). rewrite zip_fst in Hw by done.
    by apply (proj1 (Forall_forall _ _) Hks). }
  unfold commit_writes. rewrite !Forall_app, !Forall_singleton. split_and!; try done; apply Hz; try done.
  by rewrite slots_length.
Qed.

Lemma fits_same (D' : list (list Z)) (bs' : list Z) : log_fits l (length D) bs' -> length D' = length D -> log_fits l (length D') bs'.
Proof. by intros ? ->. Qed.

Lemma fits_nil : log_fits l (length D) [].
Proof. pose proof (fits_clear _ _ _ Hf) as []. by split. Qed.

(** A crash before the header is written: the transaction never happened. *)
Lemma crash_before W1 W2 :
  W1 ++ W2 = zip (slots l (length bs)) vs -> recovers l (apply_writes W1 D) (disk_at D).
Proof.
  intros E. assert (length vs = length (slots l (length bs))) as Hsl by by rewrite slots_length.
  assert (Forall (fun w => 0 <= w.1) W1) as Hpos.
  { pose proof commit_writes_range as Hr. unfold commit_writes in Hr. rewrite <- E in Hr.
    by apply Forall_app in Hr as [[? _]%Forall_app _]. }
  assert (forall m, 0 <= m < Z.of_nat (length D) -> m ∉ slots l (length bs) -> disk_at (apply_writes W1 D) m = disk_at D m) as Hsame.
  { intros m Hm Hs. rewrite disk_overlay, overlay_ne by (done || by eapply fst_prefix). done. }
  apply (recovers_disk _ _ [] [] h0); try done.
  - apply fits_same; [apply fits_nil|apply apply_writes_length].
  - rewrite Hsame; [done| |apply start_not_slot]. destruct Hf. lia.
  - rewrite apply_writes_length. intros m Hm [_ Hs]%outside_layout. by apply Hsame.
Qed.

Lemma disk_range : Forall (fun n => 0 <= n < 2 ^ 31) bs.
Proof. destruct Hf as [? ? ? ? ? ? Hhome _]. eapply Forall_impl; [exact Hhome|]. simpl. lia. Qed.

(** The disk once the header is written and some blocks are installed. *)
Lemma disk_installing W1 W2 m :
  W1 ++ W2 = zip bs vs -> 0 <= m < Z.of_nat (length D) ->
  disk_at (apply_writes (zip (slots l (length bs)) vs ++ [(l_start l, header bs h0)] ++ W1) D) m
  = overlay W1 (overlay [(l_start l, header bs h0)] (overlay (zip (slots l (length bs)) vs) (disk_at D))) m.
Proof.
  intros E Hm. pose proof commit_writes_range as Hr. unfold commit_writes in Hr. rewrite <- E, !Forall_app in Hr.
  rewrite disk_overlay, !overlay_app; [done|rewrite !Forall_app; tauto|done].
Qed.

Lemma overlay_home (f g : Z -> option (list Z)) m :
  (m ∉ bs -> f m = g m) -> overlay (zip bs vs) f m = overlay (zip bs vs) g m.
Proof.
  intros Hfg. destruct (decide (m ∈ bs)) as [(t & Ht)%list_elem_of_lookup|Hn].
  - rewrite !(overlay_zip bs vs _ t) by (done || apply (lf_nodup _ _ _ Hf)). done.
  - rewrite !overlay_ne by (rewrite zip_fst; done). by apply Hfg.
Qed.

(** A crash while the blocks are installed: recovery installs them all. *)
Lemma crash_installing W1 W2 :
  W1 ++ W2 = zip bs vs ->
  recovers l (apply_writes (zip (slots l (length bs)) vs ++ [(l_start l, header bs h0)] ++ W1) D) (overlay (zip bs vs) (disk_at D)).
Proof.
  intros E. set (D' := apply_writes _ D).
  assert (length D' = length D) as HD' by apply apply_writes_length.
  assert (length vs = length (slots l (length bs))) as Hsl by by rewrite slots_length.
  destruct (fits_layout _ _ _ Hf) as [(Hnds & Hdisj & Hndb)%NoDup_app [Hrs Hrb]%Forall_app].
  pose proof (start_not_home _ _ _ Hf) as Hsh. pose proof (start_not_slot l (length bs)) as Hss.
  apply (recovers_disk _ _ bs vs (header bs h0)); try done.
  - by apply fits_same.
  - unfold D'. rewrite (disk_installing _ _ _ E) by (destruct Hf; lia).
    rewrite overlay_ne by exact (fst_prefix bs vs W1 W2 _ Hlv E ltac:(done)). unfold overlay at 1. cbn [foldl]. by rewrite decide_True.
  - apply heads_header; [apply (lf_bufs _ _ _ Hf)|apply disk_range|done].
  - intros t n Hn. pose proof (list_elem_of_lookup_2 _ _ _ Hn) as Hin. rewrite Forall_forall in Hrs.
    unfold D'. rewrite (disk_installing _ _ _ E) by by apply Hrs.
    rewrite overlay_ne by exact (fst_prefix bs vs W1 W2 _ Hlv E (Hdisj n Hin)).
    rewrite overlay_ne by (intros ->%list_elem_of_singleton; done). by apply overlay_zip.
  - rewrite HD'. intros m Hm [Hms Hmn]%outside_layout. apply overlay_home. intros Hmb.
    unfold D'. rewrite (disk_installing _ _ _ E) by done.
    rewrite overlay_ne by exact (fst_prefix bs vs W1 W2 _ Hlv E ltac:(done)).
    rewrite overlay_ne by (intros ?%list_elem_of_singleton; done). rewrite overlay_ne by (by rewrite zip_fst). done.
Qed.

(** A crash after [commit]: nothing is left to recover. *)
Lemma crash_after : recovers l (apply_writes (commit_writes l bs vs h0) D) (overlay (zip bs vs) (disk_at D)).
Proof.
  set (D' := apply_writes _ D). assert (length D' = length D) as HD' by apply apply_writes_length.
  assert (length vs = length (slots l (length bs))) as Hsl by by rewrite slots_length.
  assert (forall m, 0 <= m < Z.of_nat (length D) -> disk_at D' m = overlay (commit_writes l bs vs h0) (disk_at D) m) as HD.
  { intros m Hm. apply disk_overlay; [apply commit_writes_range|done]. }
  apply (recovers_disk _ _ [] [] (header [] (header bs h0))); try done.
  - apply fits_same; [apply fits_nil|done].
  - rewrite HD by (destruct Hf; lia). unfold commit_writes. rewrite !overlay_app. unfold overlay at 1. cbn [foldl].
    by rewrite decide_True.
  - apply header_empty. by rewrite header_length.
  - rewrite HD'. intros m Hm [Hms Hmn]%outside_layout. change (disk_at D' m = overlay (zip bs vs) (disk_at D) m).
    rewrite HD by done. unfold commit_writes. rewrite !overlay_app.
    rewrite overlay_ne by (intros ?%list_elem_of_singleton; done). apply overlay_home. intros Hmb.
    rewrite overlay_ne by (intros ?%list_elem_of_singleton; done). by rewrite overlay_ne by (by rewrite zip_fst).
Qed.

(** A crash after any number of the writes of [commit]. *)
Lemma crash_any W1 W2 :
  W1 ++ W2 = commit_writes l bs vs h0 ->
  recovers l (apply_writes W1 D) (disk_at D) \/ recovers l (apply_writes W1 D) (overlay (zip bs vs) (disk_at D)).
Proof.
  unfold commit_writes. intros [(W & -> & E)|(W & E & _)]%app_eq_inv; [|left; by eapply crash_before].
  destruct W as [|w W].
  { left. eapply (crash_before _ []). by rewrite !app_nil_r. }
  injection E as <- E. symmetry in E. right. apply app_eq_inv in E as [(W' & -> & E)|(W' & E & _)].
  - destruct W' as [|w W'].
    + eapply (crash_installing _ []). by rewrite !app_nil_r.
    + injection E as <- E. symmetry in E. apply app_eq_nil in E as [-> ->]. exact crash_after.
  - by eapply (crash_installing W W').
Qed.

End crash.

Lemma content_in_range s lru held n :
  bcache_ok s (pid d) lru held -> 0 <= n < Z.of_nat (length (k_disk s)) -> is_Some (content s n).
Proof.
  intros Hbc Hn. unfold content, content_of. destruct (find_buf _ _ _); [done|]. apply lookup_lt_is_Some. lia.
Qed.

(** The contents [commit] saves, and what the file system sees outside the log. *)
Lemma logged_contents s bs :
  quiet s -> Forall (fun n => 0 <= n < Z.of_nat (length (k_disk s))) bs -> NoDup bs -> (forall m, is_dirty s m -> m ∈ bs) ->
  exists vs, length vs = length bs /\ (forall t n, bs !! t = Some n -> content s n = vs !! t) /\
    forall m, 0 <= m -> overlay (zip bs vs) (disk_at (k_disk s)) m = content s m.
Proof.
  intros Hq Hr Hnd Hd. exists ((fun n => default [] (content s n)) <$> bs).
  assert (forall t n, bs !! t = Some n -> content s n = ((fun n => default [] (content s n)) <$> bs) !! t) as Hvs.
  { intros t n Hn. rewrite list_lookup_fmap, Hn. destruct Hq as (lru & Hbc).
    destruct (content_in_range s lru [] n Hbc) as [v Hv]; [exact (proj1 (Forall_lookup _ _) Hr _ _ Hn)|].
    cbn. by rewrite Hv. }
  split_and!; [by rewrite length_fmap|done|]. intros m Hm.
  destruct (decide (m ∈ bs)) as [(t & Ht)%list_elem_of_lookup|Hn].
  - rewrite (overlay_zip bs _ _ t) by (done || by rewrite length_fmap). symmetry. by apply Hvs.
  - rewrite overlay_ne by (rewrite zip_fst; by rewrite ?length_fmap). symmetry. apply clean_content; [done|by intros ?%Hd|done].
Qed.

(** The log between transactions: every changed block is recorded, and the
    header on the disk records none. *)
Record ready s (bs : list Z) : Prop := {
  rd_quiet : quiet s;
  rd_fits : log_fits (k_log s) (length (k_disk s)) bs;
  rd_records : records (k_log s) bs;
  rd_dirty : forall m, is_dirty s m <-> m ∈ bs;
  rd_header : exists h, disk_at (k_disk s) (l_start (k_log s)) = Some h /\ word h 0 = 0 }.

(** The disk outside the log as the machine has it after the crash and recovery. *)
Definition recovers_to s W (f : Z -> option (list Z)) : Prop :=
  recovers (k_log s) (apply_writes W (k_disk s)) f.

(** The file system's view of the blocks outside the log survives [commit]. *)
Lemma commit_view l nd bs vs h0 f m :
  log_fits l nd bs -> length vs = length bs -> (forall t n, bs !! t = Some n -> f n = vs !! t) -> outside l m ->
  overlay (commit_writes l bs vs h0) f m = f m.
Proof.
  intros Hf Hlv Hvs Ho. pose proof (lf_room _ _ _ Hf) as Hroom. unfold outside in Ho.
  assert (m <> l_start l /\ m ∉ slots l (length bs)) as [Hms Hmn] by (split; [lia|]; intros ?%slots_in; lia).
  unfold commit_writes. rewrite !overlay_app. rewrite overlay_ne by (intros ?%list_elem_of_singleton; done).
  destruct (decide (m ∈ bs)) as [(t & Ht)%list_elem_of_lookup|Hn].
  - rewrite (overlay_zip bs vs _ t) by (done || apply (lf_nodup _ _ _ Hf)). symmetry. by apply Hvs.
  - rewrite overlay_ne by (by rewrite zip_fst). rewrite overlay_ne by (intros ?%list_elem_of_singleton; done).
    apply overlay_ne. by rewrite zip_fst by (by rewrite slots_length).
Qed.

Lemma recovers_content s bs vs W :
  (forall m, 0 <= m -> overlay (zip bs vs) (disk_at (k_disk s)) m = content s m) ->
  recovers (k_log s) (apply_writes W (k_disk s)) (overlay (zip bs vs) (disk_at (k_disk s))) -> recovers_to s W (content s).
Proof.
  intros Hov Hrec s0 Hb0. eapply runs_mono; [by apply Hrec|]. intros [] s' [Hl Hm]. split; [done|].
  intros m Hm0 Ho. rewrite Hm by done. apply Hov. lia.
Qed.

Lemma commit_ready s bs vs h0 s' :
  ready s bs -> length vs = length bs -> length h0 = Z.to_nat BSIZE ->
  wrote_all s (commit_writes (k_log s) bs vs h0) s' -> k_log s' = set_lh_n 0 (k_log s) -> ready s' [].
Proof.
  intros [Hq Hf Hr Hd _] Hlv Hlh Hw Hl. split; rewrite ?Hl; [apply Hw| |by split|..].
  - rewrite (wa_disk _ _ _ Hw), apply_writes_length. by apply (fits_clear _ _ bs).
  - intros m. rewrite (wa_dirty _ _ _ Hw), Hd. rewrite elem_of_nil. split; [|done]. intros [Hm Hn]. apply Hn.
    unfold commit_writes. rewrite !fmap_app, !elem_of_app, (zip_fst bs vs) by done. tauto.
  - exists (header [] (header bs h0)). cbn. rewrite (wa_disk _ _ _ Hw).
    rewrite disk_overlay; [|apply (commit_writes_range _ (k_disk s)); done|destruct Hf; lia].
    unfold commit_writes. rewrite !overlay_app. unfold overlay at 1. cbn [foldl]. rewrite decide_True by done.
    split; [done|]. apply header_empty. by rewrite header_length.
Qed.

(** Transactions are atomic: [commit] makes a sequence of writes to the disk,
    and if the machine stops after any number of them then [recover_from_log]
    brings every block outside the log to what the disk held before the
    transaction, or every block to what the file system saw when it committed.
    When all the writes were made, it is the latter, and the log is empty. *)
Lemma commit_atomic s bs :
  ready s bs ->
  runs c b p d [] [] commit s (fun _ s' => exists W,
    k_writes s' = k_writes s ++ W /\ k_disk s' = apply_writes W (k_disk s) /\
    (forall W1 W2, W1 ++ W2 = W -> recovers_to s W1 (disk_at (k_disk s)) \/ recovers_to s W1 (content s)) /\
    recovers_to s W (content s) /\ ready s' [] /\ k_log s' = set_lh_n 0 (k_log s) /\
    forall m, 0 <= m -> outside (k_log s) m -> content s' m = content s m).
Proof.
  intros Hrd. pose proof Hrd as [Hq Hf Hr Hd (h0 & Hh & Hh0)].
  destruct (fits_layout _ _ _ Hf) as [(_ & _ & Hnd)%NoDup_app [_ Hrng]%Forall_app].
  destruct (logged_contents s bs Hq Hrng Hnd (fun m => proj1 (Hd m))) as (vs & Hlv & Hvs & Hov).
  assert (length h0 = Z.to_nat BSIZE) as Hlh.
  { destruct Hq as (lru & Hbc). exact (proj1 (Forall_lookup _ _) (bc_disk _ _ _ _ Hbc) _ _ Hh). }
  destruct (decide (bs = [])) as [->|Hne].
  - unfold commit, log_get. runs_step. rewrite (proj1 Hr). apply runs_ret. exists []. destruct vs; [|done].
    pose proof (crash_before (k_log s) (k_disk s) [] h0 [] Hf eq_refl Hh Hh0 Hlh [] [] eq_refl) as Hrec.
    rewrite app_nil_r. split_and!; try done; [|by apply (recovers_content s [] [] [])|].
    2: { destruct (k_log s) eqn:E. unfold records in Hr. cbn in Hr. destruct Hr as [-> _]. done. }
    intros W1 W2 E. apply app_eq_nil in E as [-> _]. left. exact Hrec.
  - eapply runs_mono; [apply (commit_runs s bs vs h0); try done|].
    { rewrite clean_content; try done; [|apply (lf_start _ _ _ Hf)]. intros Hin%Hd. by apply (start_not_home _ _ _ Hf). }
    intros [] s' [Hw Hl]. exists (commit_writes (k_log s) bs vs h0). split_and!; [apply Hw|apply Hw|..].
    + intros W1 W2 E. destruct (crash_any _ _ _ _ vs Hf Hlv Hh Hh0 Hlh W1 W2 E) as [?|?];
        [by left|right; by eapply recovers_content].
    + eapply recovers_content; [done|by apply crash_after].
    + by eapply commit_ready.
    + done.
    + intros m Hm Ho. rewrite (wa_content _ _ _ Hw) by done. by eapply commit_view.
Qed.

Lemma zip_nonneg (l : log) nd (bs : list Z) (vs : list (list Z)) :
  log_fits l nd bs -> length vs = length bs -> Forall (fun w => 0 <= w.1) (zip bs vs).
Proof.
  intros Hf Hlv. apply Forall_forall. intros w Hw%(list_elem_of_fmap_2 fst). rewrite zip_fst in Hw by done.
  apply (proj1 (Forall_forall _ _) (lf_home _ _ _ Hf)) in Hw. lia.
Qed.

Section again.
Context (l : log) (D : list (list Z)) (bs h : list Z) (vs : list (list Z)).
Context (Hf : log_fits l (length D) bs) (Hh : disk_at D (l_start l) = Some h) (Hlh : length h = Z.to_nat BSIZE).
Context (Hhd : heads h bs) (Hlv : length vs = length bs).
Context (Hvs : forall t n, slots l (length bs) !! t = Some n -> disk_at D n = vs !! t).

Lemma again_before W1 W2 :
  W1 ++ W2 = zip bs vs -> recovers l (apply_writes W1 D) (overlay (zip bs vs) (disk_at D)).
Proof.
  intros E. set (D' := apply_writes W1 D). assert (length D' = length D) as HD' by apply apply_writes_length.
  destruct (fits_layout _ _ _ Hf) as [(_ & Hdisj & _)%NoDup_app [Hrs _]%Forall_app]. rewrite Forall_forall in Hrs.
  assert (Forall (fun w => 0 <= w.1) W1) as Hpos.
  { pose proof (zip_nonneg _ _ _ vs Hf Hlv) as Hz. rewrite <- E in Hz. by apply Forall_app in Hz as [? _]. }
  assert (forall m, 0 <= m < Z.of_nat (length D) -> m ∉ bs -> disk_at D' m = disk_at D m) as Hsame.
  { intros m Hm Hb. unfold D'. rewrite disk_overlay, overlay_ne; try done. exact (fst_prefix bs vs W1 W2 m Hlv E Hb). }
  apply (recovers_disk _ _ bs vs h); try done.
  - by rewrite HD'.
  - rewrite Hsame; [done|destruct Hf; lia|by eapply start_not_home].
  - intros t n Hn. pose proof (list_elem_of_lookup_2 _ _ _ Hn) as Hin. rewrite Hsame by auto. by apply Hvs.
  - rewrite HD'. intros m Hm _. eapply overlay_home; [done|done|]. intros Hmb. by apply Hsame.
Qed.

Lemma again_after :
  recovers l (apply_writes (zip bs vs ++ [(l_start l, header [] h)]) D) (overlay (zip bs vs) (disk_at D)).
Proof.
  set (D' := apply_writes _ D). assert (length D' = length D) as HD' by apply apply_writes_length.
  pose proof (lf_start _ _ _ Hf) as Hst.
  assert (forall m, 0 <= m < Z.of_nat (length D) ->
    disk_at D' m = if decide (m = l_start l) then Some (header [] h) else overlay (zip bs vs) (disk_at D) m) as HD.
  { intros m Hm. unfold D'. rewrite disk_overlay, overlay_snoc; try done.
    apply Forall_app. split; [by eapply zip_nonneg|by apply Forall_singleton]. }
  apply (recovers_disk _ _ [] [] (header [] h)); try done.
  - rewrite HD'. by eapply fits_nil.
  - rewrite HD, decide_True by (done || destruct Hf; lia). done.
  - by apply header_empty.
  - rewrite HD'. intros m Hm Ho. assert (m <> l_start l) by (pose proof (lf_room _ _ _ Hf); unfold outside in Ho; lia).
    cbn [zip]. change (disk_at D' m = overlay (zip bs vs) (disk_at D) m). by rewrite (HD m Hm), decide_False.
Qed.

End again.

(** C16: Recovery can itself be interrupted: if the machine stops after any number
    of the writes of [recover_from_log], the next recovery brings the blocks
    outside the log to the same contents. *)
Theorem recovery_restarts l D bs h vs s :
  log_fits l (length D) bs -> disk_at D (l_start l) = Some h -> heads h bs -> length vs = length bs ->
  (forall t n, slots l (length bs) !! t = Some n -> disk_at D n = vs !! t) -> booted l D s ->
  runs c b p d [] [] recover_from_log s (fun _ s' => exists W,
    k_writes s' = k_writes s ++ W /\ k_disk s' = apply_writes W D /\ lh_n (k_log s') = 0 /\
    forall W1 W2, W1 ++ W2 = W -> recovers l (apply_writes W1 D) (overlay (zip bs vs) (disk_at D))).
Proof.
  intros Hf Hh Hhd Hlv Hvs Hb. pose proof Hb as [Hq Hcl Hk Hdv Hst Hsz Hll]. pose proof (lf_start _ _ _ Hf) as Hst0.
  assert (length h = Z.to_nat BSIZE) as Hlh.
  { destruct Hq as (lru & Hbc). pose proof (bc_disk _ _ _ _ Hbc) as Hd. rewrite Hk in Hd.
    exact (proj1 (Forall_lookup _ _) Hd _ _ Hh). }
  assert (slots (k_log s) = slots l) as Hsl by (unfold slots; by rewrite Hst).
  assert (forall m, 0 <= m -> content s m = disk_at D m) as Hc by (intros m Hm; rewrite clean_content, Hk; done || apply Hcl).
  eapply runs_mono; [apply (recover_runs s bs vs h); rewrite ?Hsl, ?Hst, ?Hk, ?Hc; try done|].
  - destruct Hf. split; rewrite ?Hdv, ?Hst, ?Hsz; try done. unfold outside. by rewrite Hst, Hsz.
  - intros t n Hn. rewrite Hc; [by apply Hvs|]. apply list_elem_of_lookup_2, slots_in in Hn. lia.
  - intros [] s' [Hw Hn]. rewrite Hst in Hw. exists (zip bs vs ++ [(l_start l, header [] h)]).
    split_and!; [apply Hw|by rewrite (wa_disk _ _ _ Hw), Hk|done|].
    intros W1 W2 [(W & E & _)|(W & -> & E)]%eq_sym%app_eq_inv; [by eapply again_before|].
    destruct W as [|w W]; [rewrite app_nil_r; by eapply (again_before l D bs h vs); rewrite ?app_nil_r|].
    injection E as <- E. symmetry in E. apply app_eq_nil in E as [-> ->]. by apply again_after.
Qed.

(** ** Recording a block *)
(** The log after [log_write] of block [n]. *)
Definition absorb n (l : log) : log :=
  let k := log_index n (take (Z.to_nat (lh_n l)) (lh_block l)) in
  let l' := set_lh_block (<[k := i32 n]> (lh_block l)) l in
  if Z.of_nat k =? lh_n l then set_lh_n (lh_n l + 1) l' else l'.

Definition logged i s : kernel :=
  put_buf i (set_b_flags (Z.lor (b_flags (k_bufs s !!! i)) B_DIRTY) (k_bufs s !!! i))
    (set_k_log (absorb (blockno (k_bufs s !!! i)) (k_log s)) s).

(** The blocks recorded once [n] is. *)
Definition with_block n (bs : list Z) : list Z := if decide (n ∈ bs) then bs else bs ++ [n].

Lemma log_index_spec n (bs : list Z) :
  0 <= n < 2 ^ 32 -> Forall (fun m => 0 <= m < 2 ^ 32) bs ->
  if decide (n ∈ bs) then bs !! log_index n bs = Some n else log_index n bs = length bs.
Proof.
  intros Hn. induction bs as [|m bs IH]; intros Hr; [done|]. apply Forall_cons in Hr as [Hm Hr]. specialize (IH Hr).
  cbn [log_index]. rewrite u32_small by done. destruct (Z.eqb_spec m n) as [->|Hne].
  - rewrite decide_True; [done|left].
  - destruct (decide (n ∈ bs)) as [Hin|Hin].
    + rewrite decide_True; [done|by right].
    + rewrite decide_False; [by rewrite IH|]. intros [?|?]%elem_of_cons; done.
Qed.

Lemma absorb_records n l bs :
  records l bs -> 0 <= n < 2 ^ 31 -> Forall (fun m => 0 <= m < 2 ^ 31) bs -> (length bs < length (lh_block l))%nat ->
  records (absorb n l) (with_block n bs).
Proof.
  intros [Hn Hb] Hr Hrs Hl. unfold absorb, with_block. rewrite Hn, Nat2Z.id, Hb, i32_small by lia.
  pose proof (log_index_spec n bs ltac:(lia)) as Hi. rewrite Forall_forall in Hi.
  specialize (Hi (fun m Hm => ltac:(rewrite Forall_forall in Hrs; specialize (Hrs m Hm); lia))).
  case_decide as Hin.
  - pose proof (lookup_lt_Some _ _ _ Hi) as Hlt. destruct (Z.eqb_spec (Z.of_nat (log_index n bs)) (Z.of_nat (length bs))); [lia|].
    split; cbn; [done|]. rewrite list_insert_id; [done|]. by apply (records_lookup l bs).
  - rewrite Hi, Z.eqb_refl. split; cbn; [rewrite length_app; simpl; lia|].
    rewrite length_app. cbn [length]. rewrite Nat.add_1_r, (take_S_r (<[length bs := n]> (lh_block l)) (length bs) n) by (by apply list_lookup_insert_eq).
    by rewrite take_insert_ge, Hb by lia.
Qed.

Lemma absorb_geometry n l :
  l_start (absorb n l) = l_start l /\ l_size (absorb n l) = l_size l /\ l_dev (absorb n l) = l_dev l
  /\ outstanding (absorb n l) = outstanding l /\ committing (absorb n l) = committing l
  /\ length (lh_block (absorb n l)) = length (lh_block l).
Proof. unfold absorb. destruct (_ =? _); cbn; by rewrite length_insert. Qed.

Lemma runs_log_write {A} L' (k : unit -> K A) s Q lru held i (bs : list Z) :
  bcache_ok s (pid d) lru held -> i ∈ held -> records (k_log s) bs -> length (lh_block (k_log s)) = Z.to_nat LOGSIZE ->
  (length bs < Z.to_nat LOGSIZE)%nat -> Z.of_nat (length bs) < l_size (k_log s) - 1 -> 1 <= outstanding (k_log s) ->
  Forall (fun m => 0 <= m < 2 ^ 31) bs -> 0 <= blockno (k_bufs s !!! i) < 2 ^ 31 ->
  runs c b p d [] L' (k tt) (logged i s) Q -> runs c b p d [] L' (x <- log_write i ;; k x) s Q.
Proof.
  intros Hbc Hih [Hn Hb] Hll Hl1 Hl2 Ho Hrs Hr Hk. destruct (bc_held _ _ _ _ Hbc i Hih) as (Hi & _).
  pose proof (bc_len _ _ _ _ Hbc) as Hlen. change (Z.to_nat LOGSIZE) with 30%nat in *.
  assert (log_index (blockno (k_bufs s !!! i)) bs <= length bs)%nat as Hidx.
  { clear. induction bs as [|m bs IH]; cbn; [done|]. destruct (_ =? _); lia. }
  unfold log_write, log_get. runs_step.
  assert ((LOGSIZE <=? lh_n (k_log s)) || (l_size (k_log s) - 1 <=? lh_n (k_log s)) = false) as ->.
  { rewrite Hn. change LOGSIZE with 30. apply orb_false_intro; lia. }
  cbv iota. runs_step. replace (outstanding (k_log s) <? 1) with false by lia. cbv iota. runs_step.
  apply runs_acquire; [not_in|]. runs_step. apply runs_buf_get; [lia|]. unfold lh_block_set, lh_block_get, log_get, log_set.
  runs_step. rewrite Hn, !Nat2Z.id, Hb.
  destruct (lookup_lt_is_Some_2 (lh_block (k_log s)) (log_index (blockno (k_bufs s !!! i)) bs)) as [y Hy]; [lia|].
  rewrite Hy. runs_step.
  revert Hk. unfold logged, absorb. rewrite Hn, Nat2Z.id, Hb. intros Hk.
  destruct (_ =? _); runs_step; (apply runs_buf_set; [simpl; lia|]); runs_step; (eapply runs_release; [done|]);
    rewrite <- ?Hn in Hk; exact Hk.
Qed.

(** The cache after [log_write]. *)
Lemma logged_cache s lru held i :
  bcache_ok s (pid d) lru held -> i ∈ held ->
  bcache_ok (logged i s) (pid d) lru held /\ (forall m, content (logged i s) m = content s m) /\
  (forall m, is_dirty (logged i s) m <-> is_dirty s m \/ m = blockno (k_bufs s !!! i)).
Proof.
  intros Hbc Hih. pose proof (bc_len _ _ _ _ Hbc) as Hlen. destruct (bc_held _ _ _ _ Hbc i Hih) as (Hi & _ & _ & _ & Hv).
  set (x := k_bufs s !!! i) in *. set (l := absorb (blockno x) (k_log s)).
  assert (b_flags x = B_VALID \/ b_flags x = Z.lor B_VALID B_DIRTY) as Hfl.
  { destruct (bo_flags _ _ (bc_bufs _ _ _ _ Hbc i Hi)) as [E|?]; [|done]. unfold valid in Hv. fold x in E. by rewrite E in Hv. }
  assert (Z.lor (b_flags x) B_DIRTY = Z.lor B_VALID B_DIRTY) as Hfl' by (by destruct Hfl as [-> | ->]).
  pose proof (bcache_set_log s l _ _ Hbc) as Hbc'.
  destruct (bcache_update d (set_k_log l s) lru held i (set_b_flags (Z.lor (b_flags x) B_DIRTY) x) Hbc' Hih) as [Hbc2 Hc2];
    try done; [apply (bo_data _ _ (bc_bufs _ _ _ _ Hbc i Hi))|cbn; by right|].
  split_and!; [exact Hbc2|..].
  - intros m. unfold logged. fold x l. rewrite Hc2. cbn. fold x. case_decide as E; [|done]. subst m.
    destruct (bo_block _ _ (bc_bufs _ _ _ _ Hbc i Hi)) as [Hdx _]; [intros E; fold x in E; by rewrite E in Hfl; destruct Hfl|].
    symmetry. by apply (content_cached _ _ _ i); [apply Hbc|..].
  - intros m. unfold logged, is_dirty. fold x l. split.
    + intros (j & Hj & Hd & Hn). destruct (decide (i = j)) as [<-|Hij].
      * rewrite put_buf_lookup in Hn by (simpl; lia). by right.
      * rewrite put_buf_ne in Hd, Hn by done. left. by exists j.
    + intros [(j & Hj & Hd & Hn)| ->].
      * exists j. destruct (decide (i = j)) as [<-|Hij]; [|by rewrite put_buf_ne].
        rewrite put_buf_lookup by (simpl; lia). unfold dirty. cbn. by rewrite Hfl'.
      * exists i. rewrite put_buf_lookup by (simpl; lia). unfold dirty. cbn. by rewrite Hfl'.
Qed.

(** ** Transactions *)
(** The way the file system changes a block inside a transaction. *)
Definition log_block n dt : K unit :=
  i <- bread ROOTDEV n ;;
  buf_set i (set_b_data dt) ;;
  log_write i ;;
  brelse i.

Lemma with_block_in n (bs : list Z) m : m ∈ with_block n bs <-> m ∈ bs \/ m = n.
Proof.
  unfold with_block. case_decide; [naive_solver|]. rewrite elem_of_app, list_elem_of_singleton. done.
Qed.

Lemma fits_with_block l nd bs n :
  log_fits l nd bs -> 0 <= n < Z.of_nat nd -> outside l n -> Z.of_nat (length bs) < l_size l - 1 ->
  log_fits l nd (with_block n bs).
Proof.
  intros [? ? ? ? ? ? Hhome Hnd] Hn Ho Hl. unfold with_block. case_decide; [by split|]. split; try done.
  - rewrite length_app. simpl. lia.
  - apply Forall_app. by rewrite Forall_singleton.
  - apply NoDup_app. split_and!; [done|by intros x Hx ->%list_elem_of_singleton|apply NoDup_singleton].
Qed.

Lemma fits_geometry l l' nd bs :
  l_start l' = l_start l -> l_size l' = l_size l -> l_dev l' = l_dev l -> log_fits l nd bs -> log_fits l' nd bs.
Proof. intros E1 E2 E3 []. split; unfold outside in *; by rewrite ?E1, ?E2, ?E3. Qed.

(** Inside a transaction a changed block is recorded once in the log and its
    buffer pinned; the file system sees the new data, while nothing is written
    to the disk: the transaction can still be abandoned by a crash. *)
Record logs s bs n dt s' : Prop := {
  lg_ready : ready s' (with_block n bs);
  lg_log : k_log s' = absorb n (k_log s);
  lg_content : forall m, content s' m = if decide (m = n) then Some dt else content s m;
  lg_disk : k_disk s' = k_disk s;
  lg_writes : k_writes s' = k_writes s;
  lg_only : disk_only (set_k_log (k_log s') s) s' }.

(** The buffer of block [n], just read, is given the data [dt], recorded and released. *)
Lemma runs_log_update {A} L' (k : unit -> K A) Q s bs n dt g lru i s1 :
  ready s bs -> length (lh_block (k_log s)) = Z.to_nat LOGSIZE -> 1 <= outstanding (k_log s) ->
  Z.of_nat (length bs) < l_size (k_log s) - 1 ->
  0 <= n < Z.of_nat (length (k_disk s)) -> outside (k_log s) n -> length dt = Z.to_nat BSIZE ->
  reads d n s lru [] i s1 -> (forall x, content s n = Some (b_data x) -> g x = set_b_data dt x) ->
  (forall s', logs s bs n dt s' -> runs c b p d [] L' (k tt) s' Q) ->
  runs c b p d [] L' (buf_set i g ;; log_write i ;; y <- brelse i ;; k y) s1 Q.
Proof.
  intros [_ Hf Hr Hd Hh] Hll Hout Hroom Hn Hon Hdt Hr1 Hg Hk.
  pose proof Hr1 as (_ & Hi & x & E1 & Hbc1 & _ & _ & Hcx & _). pose proof (bc_len _ _ _ _ Hbc1) as Hlen1.
  assert (k_bufs s1 !!! i = x) as Ei.
  { rewrite E1 in Hlen1 |- *. simpl in *. rewrite length_insert in Hlen1. apply list_lookup_total_insert_eq. lia. }
  apply runs_buf_set; [lia|]. rewrite Hg by by rewrite Ei.
  pose proof (reads_update _ _ _ _ _ _ Hr1 Hdt) as Hup. set (s2 := put_buf _ _ s1) in *.
  destruct Hup as [Hbc2 Hi2 Hbx Hfl Hdv Hc2 Hd2 Hk2 Hw2 Ho2]. assert (i ∈ [i]) as Hii by left.
  pose proof (disk_only_log _ _ Ho2) as Hl2.
  pose proof (lf_disk _ _ _ Hf) as Hdk. pose proof (lf_size _ _ _ Hf) as Hsz. change LOGSIZE with 30 in Hsz.
  assert (Forall (fun m => 0 <= m < 2 ^ 31) bs) as Hrs.
  { eapply Forall_impl; [exact (lf_home _ _ _ Hf)|]. simpl. lia. }
  eapply (runs_log_write _ _ _ _ lru [i] i bs); rewrite ?Hl2, ?Hbx; try done; [change (Z.to_nat LOGSIZE) with 30%nat; lia|lia|].
  destruct (logged_cache s2 lru [i] i Hbc2 Hii) as (Hbc3 & Hc3 & Hd3). rewrite Hbx in Hd3.
  assert (k_log (logged i s2) = absorb n (k_log s)) as Hl3.
  { change (k_log (logged i s2)) with (absorb (blockno (k_bufs s2 !!! i)) (k_log s2)). by rewrite Hl2, Hbx. }
  eapply (runs_brelse c b p d); [exact Hbc3| |].
  { intros E. exfalso. unfold logged in E. rewrite put_buf_lookup in E by done.
    change (Z.lor (b_flags (k_bufs s2 !!! i)) B_DIRTY = B_VALID) in E. destruct Hfl as [F|F]; by rewrite F in E. }
  intros s4 Hr4. apply Hk. destruct (releases_disk _ _ _ _ _ Hr4) as (Hk4 & Hw4 & _).
  pose proof Hr4 as (bufs4 & lru4 & E4 & Hbc4 & _ & _). pose proof (releases_only _ _ _ _ _ Hr4) as Ho4.
  pose proof (disk_only_log _ _ Ho4) as Hl4.
  destruct (absorb_geometry n (k_log s)) as (Ea & Eb & Ec & _).
  assert (k_disk s4 = k_disk s) as Hk' by (rewrite Hk4; exact Hk2).
  split; [|by rewrite Hl4| |done|by rewrite Hw4|].
  - split; rewrite ?Hl4, ?Hl3, ?Hk'.
    + by exists lru4.
    + eapply fits_geometry; [done..|]. by apply fits_with_block.
    + apply absorb_records; [done|lia|done|]. rewrite Hll. change (Z.to_nat LOGSIZE) with 30%nat. lia.
    + intros m. by rewrite (releases_dirty _ _ _ _ _ _ Hr4), Hd3, Hd2, Hd, with_block_in.
    + by rewrite Ea.
  - intros m. by rewrite (releases_content _ _ _ _ _ _ Hr4), Hc3, Hc2.
  - rewrite Hl4, Hl3. etransitivity; [|exact Ho4]. destruct Ho2 as [Eo Hs2]. split; [|exact Hs2].
    unfold logged. rewrite Hl2, Hbx. cbn. rewrite Eo at 1. done.
Qed.

(** The same, in the middle of a routine that goes on with [k]. *)
Lemma runs_log_update_then {A B} L' (m : K B) (k : B -> K A) Q s bs n dt g lru i s1 :
  ready s bs -> length (lh_block (k_log s)) = Z.to_nat LOGSIZE -> 1 <= outstanding (k_log s) ->
  Z.of_nat (length bs) < l_size (k_log s) - 1 ->
  0 <= n < Z.of_nat (length (k_disk s)) -> outside (k_log s) n -> length dt = Z.to_nat BSIZE ->
  reads d n s lru [] i s1 -> (forall x, content s n = Some (b_data x) -> g x = set_b_data dt x) ->
  (forall s', logs s bs n dt s' -> runs c b p d [] L' (y <- m ;; k y) s' Q) ->
  runs c b p d [] L' (buf_set i g ;; y <- (log_write i ;; brelse i ;; m) ;; k y) s1 Q.
Proof.
  intros. eapply runs_as; [apply returns_as_bind; intros ?; eapply returns_as_trans; [apply returns_as_assoc|];
    apply returns_as_bind; intros ?; apply returns_as_assoc|]. by eapply runs_log_update.
Qed.

Lemma log_block_runs s bs n dt :
  ready s bs -> length (lh_block (k_log s)) = Z.to_nat LOGSIZE -> 1 <= outstanding (k_log s) ->
  Z.of_nat (length bs) < l_size (k_log s) - 1 ->
  0 <= n < Z.of_nat (length (k_disk s)) -> outside (k_log s) n -> length dt = Z.to_nat BSIZE ->
  runs c b p d [] [] (log_block n dt) s (fun _ s' => logs s bs n dt s').
Proof.
  intros Hrd Hll Hout Hroom Hn Hon Hdt. pose proof Hrd as [(lru & Hbc) Hf Hr Hd Hh]. pose proof (lf_bufs _ _ _ Hf) as Hlb.
  unfold log_block. eapply (runs_bread c b p d); try done; [intros i Hi; by apply elem_of_nil in Hi| |].
  { right. eapply room_by_count; [done|intros m; by apply Hd|simpl; lia]. }
  intros i s1 Hr1.
  eapply runs_as; [apply returns_as_bind; intros ?; apply returns_as_bind; intros ?; apply returns_as_tail|].
  eapply runs_log_update; try done. intros s' Hs'. by apply runs_ret.
Qed.

(** Two logs of the same extent on the disk. *)
Definition same_place (l l' : log) : Prop := l_start l' = l_start l /\ l_size l' = l_size l /\ l_dev l' = l_dev l.

Lemma recovers_place l l' D f : same_place l l' -> recovers l D f -> recovers l' D f.
Proof.
  intros (E1 & E2 & E3) Hrec s [Hq Hcl Hk Hdv Hst Hsz Hll].
  eapply runs_mono; [apply Hrec; split; first [done|congruence]|]. intros [] s' [Hl Hm]. split; [done|].
  intros m Hm0 Ho. apply Hm; [done|]. unfold outside in *. congruence.
Qed.

Lemma ready_set_log s bs l' :
  ready s bs -> same_place (k_log s) l' -> lh_n l' = lh_n (k_log s) -> lh_block l' = lh_block (k_log s) ->
  ready (set_k_log l' s) bs.
Proof.
  intros [Hq Hf [Hn Hb] Hd Hh] (E1 & E2 & E3) En Eb. split; cbn.
  - by apply quiet_set_log.
  - by eapply fits_geometry.
  - split; by rewrite ?En, ?Eb.
  - exact Hd.
  - by rewrite E1.
Qed.

Fixpoint log_blocks (W : list (Z * list Z)) : K unit :=
  match W with
  | [] => ret tt
  | (n, dt) :: W' => log_block n dt ;; log_blocks W'
  end.

(** A system call that changes the blocks of [W]. *)
Definition transaction (W : list (Z * list Z)) : K unit :=
  begin_op ;;
  log_blocks W ;;
  end_op.

(** The writes [W] fit in the log beside [n] recorded blocks and stay outside it. *)
Definition permitted (l : log) (nd : nat) (n : nat) (W : list (Z * list Z)) : Prop :=
  Z.of_nat (n + length W) <= l_size l - 1 /\
  Forall (fun w => 0 <= w.1 < Z.of_nat nd /\ outside l w.1 /\ length w.2 = Z.to_nat BSIZE) W.

Lemma with_block_length n (bs : list Z) : (length (with_block n bs) <= S (length bs))%nat.
Proof. unfold with_block. case_decide; [lia|]. rewrite length_app. simpl. lia. Qed.

Lemma permitted_mono l l' nd (n n' : nat) W : same_place l l' -> (n' <= n)%nat -> permitted l nd n W -> permitted l' nd n' W.
Proof.
  intros (E1 & E2 & E3) Hn [Hl HW]. split; [rewrite E2; lia|]. eapply Forall_impl; [exact HW|].
  intros w Hw. unfold outside in *. by rewrite E1, E2.
Qed.

Lemma log_blocks_runs W : forall s bs,
  ready s bs -> length (lh_block (k_log s)) = Z.to_nat LOGSIZE -> 1 <= outstanding (k_log s) ->
  permitted (k_log s) (length (k_disk s)) (length bs) W ->
  runs c b p d [] [] (log_blocks W) s (fun _ s' =>
    (exists bs', ready s' bs') /\ same_place (k_log s) (k_log s') /\ outstanding (k_log s') = outstanding (k_log s) /\
    committing (k_log s') = committing (k_log s) /\ (forall m, content s' m = overlay W (content s) m) /\
    k_disk s' = k_disk s /\ k_writes s' = k_writes s).
Proof.
  induction W as [|[n dt] W IH]; intros s bs Hr Hll Hout HW; cbn [log_blocks].
  { apply runs_ret. split_and!; try done. by exists bs. }
  pose proof HW as [Hl [(Hn & Ho & Hdt) HW']%Forall_cons]. cbn in Hl, Hn, Ho, Hdt.
  eapply runs_bind, runs_mono; [by apply (log_block_runs s bs); [..|lia|done|done|done]|].
  intros [] s1 [Hr1 Hl1 Hc1 Hk1 Hw1 _]. destruct (absorb_geometry n (k_log s)) as (Ea & Eb & Ec & Ed & Ee & Eg).
  pose proof (with_block_length n bs) as Hwl.
  eapply runs_mono; [apply (IH s1 (with_block n bs)); rewrite ?Hl1; [done|congruence|lia|]|].
  { rewrite Hk1. eapply (permitted_mono (k_log s)); [done| |split; [|exact HW']]; [exact Hwl|lia]. }
  intros [] s2 ((bs' & Hr2) & (Hp1 & Hp2 & Hp3) & Ho2 & Hco2 & Hc2 & Hk2 & Hw2). rewrite Hl1 in *.
  split_and!; try congruence; [by exists bs'|split_and!; congruence|].
  intros m. rewrite Hc2. unfold overlay at 2. cbn [foldl]. fold (overlay W (fun m => if decide (m = n) then Some dt else content s m)).
  by apply overlay_ext.
Qed.

(** Reading a block and releasing it. *)
Lemma runs_peek {A B} L' (g : list Z -> B) (k : B -> K A) s Q n dt (ds : list Z) :
  quiet s -> 0 <= n < Z.of_nat (length (k_disk s)) -> (forall m, is_dirty s m -> m ∈ ds) -> (length ds < NBUF)%nat ->
  content s n = Some dt ->
  (forall s', wrote_all s [] s' -> k_log s' = k_log s -> runs c b p d [] L' (k (g dt)) s' Q) ->
  runs c b p d [] L' (x <- (i <- bread ROOTDEV n ;; v <- buf_get i b_data ;; brelse i ;; ret (g v)) ;; k x) s Q.
Proof.
  intros Hq Hn Hds Hlds Hdt Hk. pose proof Hq as (lru & Hbc). apply runs_assoc.
  eapply (runs_bread c b p d); [done|done|intros i Hi; by apply elem_of_nil in Hi| |].
  { right. eapply room_by_count; [done|done|simpl; lia]. }
  intros i s1 Hr1. pose proof Hr1 as (_ & Hi & x & E1 & Hbc1 & Hdx & Hbx & Hcx & Hc1 & Hcl1 & Hd1).
  pose proof (bc_len _ _ _ _ Hbc1) as Hlen1.
  assert (k_bufs s1 !!! i = x) as Ei by (rewrite E1; simpl; apply list_lookup_total_insert_eq; rewrite (bc_len _ _ _ _ Hbc); lia).
  runs_step. apply runs_buf_get; [lia|]. rewrite Ei. replace (b_data x) with dt by congruence. runs_step.
  assert (set_k_log (k_log s) s1 = s1) as E2.
  { rewrite <- (disk_only_log _ _ (reads_only _ _ _ _ _ _ Hr1)). by destruct s1. }
  eapply (runs_brelse c b p d); [exact Hbc1| |].
  { rewrite Ei. intros Hv. rewrite Hbx, E1. apply Hcl1. unfold dirty. by rewrite Hv. }
  intros s3 Hr3. rewrite <- E2 in Hr3. destruct (released_read _ _ _ _ _ _ _ Hq Hr1 Hr3) as [Hw Hl]. runs_step. by apply Hk.
Qed.

(** [initlog] finds the log from the superblock and runs the recovery, so that
    what the recovery guarantees of a disk holds of a machine that boots on it. *)
Lemma initlog_recovers s l f sb :
  quiet s -> (forall m, ~ is_dirty s m) -> length (lh_block (k_log s)) = Z.to_nat LOGSIZE ->
  disk_at (k_disk s) 1 = Some sb -> logstart (sb_of sb) = l_start l -> nlog (sb_of sb) = l_size l ->
  log_fits l (length (k_disk s)) [] -> recovers l (k_disk s) f ->
  runs c b p d [] [] (initlog ROOTDEV) s (fun _ s' =>
    length (k_disk s') = length (k_disk s) /\
    forall m, 0 <= m < Z.of_nat (length (k_disk s)) -> outside l m -> disk_at (k_disk s') m = f m).
Proof.
  intros Hq Hcl Hll Hsb Hst Hsz Hf Hrec. pose proof (lookup_lt_Some _ _ _ Hsb) as Hlt.
  unfold initlog. change (BSIZE <=? 4 * (LOGSIZE + 1)) with false. cbv iota. apply runs_initlock; [not_in|].
  unfold readsb. rewrite u32_small by (unfold ROOTDEV; lia). apply (runs_peek _ _ _ _ _ _ sb []); [done|lia|..].
  { intros m Hm. by destruct (Hcl m). } { simpl. unfold NBUF. lia. }
  { by rewrite clean_content by (done || apply Hcl || lia). }
  intros s1 Hw1 Hl1. unfold log_set. runs_step. pose proof Hf as [Hdv Hs0 ? ? ? Hs1 _ _]. change LOGSIZE with 30 in Hs1.
  rewrite Hst, Hsz, !i32_small by lia. set (s2 := set_k_log _ _).
  assert (k_disk s1 = k_disk s) as Hk1 by (by rewrite (wa_disk _ _ _ Hw1)).
  eapply runs_mono; [apply (Hrec s2)|done].
  split; try done.
  - apply (quiet_set_log _ _ (quiet_set_log _ _ (quiet_set_log _ _ (wa_quiet _ _ _ Hw1)))).
  - intros m [Hm _]%(wa_dirty _ _ _ Hw1). by apply (Hcl m).
  - by rewrite <- Hll, <- Hl1.
Qed.

(** The last operation of a transaction commits it. *)
Lemma end_op_runs s bs :
  ready s bs -> outstanding (k_log s) = 1 -> committing (k_log s) = false ->
  runs c b p d [] [] end_op s (fun _ s' => exists W,
    k_writes s' = k_writes s ++ W /\ k_disk s' = apply_writes W (k_disk s) /\
    (forall W1 W2, W1 ++ W2 = W -> recovers_to s W1 (disk_at (k_disk s)) \/ recovers_to s W1 (content s)) /\
    recovers_to s W (content s) /\ ready s' [] /\
    k_log s' = set_committing false (set_lh_n 0 (set_outstanding 0 (k_log s))) /\
    forall m, 0 <= m -> outside (k_log s) m -> content s' m = content s m).
Proof.
  intros Hr Ho Hc. unfold end_op, log_set, log_get. apply runs_acquire; [not_in|]. runs_step. log_fields.
  rewrite Hc. runs_step. log_fields. rewrite Ho. change (1 - 1 =? 0) with true. cbv iota zeta. runs_step.
  eapply runs_release; [done|]. runs_step. log_fields. change (1 - 1) with 0. cbn [whenm].
  set (s2 := set_k_log _ (set_k_log _ s)). assert (s2 = set_k_log (set_committing true (set_outstanding 0 (k_log s))) s) as E2
    by (by destruct s). rewrite E2. clear s2 E2. set (s2 := set_k_log _ s).
  assert (same_place (k_log s2) (k_log s)) as Hp by done.
  assert (ready s2 bs) as Hr2 by (by apply ready_set_log).
  eapply runs_bind, runs_mono; [by apply (commit_atomic s2 bs)|].
  intros [] s3 (W & Hw3 & Hk3 & Hrec & Hall & Hr3 & Hl3 & Hc3).
  apply runs_acquire; [not_in|]. runs_step. apply runs_wakeup; [not_in|]. eapply runs_tail, runs_release; [done|]. apply runs_ret.
  exists W. cbn. rewrite Hl3. split_and!; try done.
  - intros W1 W2 E. destruct (Hrec W1 W2 E) as [?|?]; [left|right]; by apply (recovers_place (k_log s2)).
  - by apply (recovers_place (k_log s2)).
  - by apply ready_set_log; rewrite ?Hl3.
Qed.

Lemma begin_op_runs s :
  outstanding (k_log s) = 0 -> committing (k_log s) = false -> lh_n (k_log s) = 0 ->
  runs c b p d [] [] begin_op s (fun _ s' => s' = set_k_log (set_outstanding 1 (k_log s)) s).
Proof.
  intros Ho Hc Hn. unfold begin_op, log_set, log_get. apply runs_acquire; [not_in|].
  destruct fuel as [|f]; cbn [begin_loop]; unfold log_get, log_set; runs_step; rewrite Hc, Hn, Ho;
    change (false || (LOGSIZE <? 0 + (0 + 1) * MAXOPBLOCKS)) with false; cbv iota; runs_step; rewrite Ho;
    (eapply runs_tail, runs_release; [done|]); by apply runs_ret.
Qed.

(** C2: Transactions are atomic and durable.  A system call that changes the blocks
    of [W] between [begin_op] and [end_op], with no other call under way, makes
    a sequence of disk writes.  If the machine stops after any number of them,
    [recover_from_log] brings every block outside the log to its old contents,
    or every block to its contents with all the changes of [W] made; once the
    call has returned it is the latter, and the file system sees the changes. *)
Theorem transaction_atomic s W :
  ready s [] -> length (lh_block (k_log s)) = Z.to_nat LOGSIZE ->
  outstanding (k_log s) = 0 -> committing (k_log s) = false ->
  permitted (k_log s) (length (k_disk s)) 0 W ->
  runs c b p d [] [] (transaction W) s (fun _ s' => exists Ws,
    k_writes s' = k_writes s ++ Ws /\
    (forall W1 W2, W1 ++ W2 = Ws ->
       recovers (k_log s) (apply_writes W1 (k_disk s)) (disk_at (k_disk s)) \/
       recovers (k_log s) (apply_writes W1 (k_disk s)) (overlay W (disk_at (k_disk s)))) /\
    recovers (k_log s) (k_disk s') (overlay W (disk_at (k_disk s))) /\ ready s' [] /\
    forall m, 0 <= m -> outside (k_log s) m -> content s' m = overlay W (disk_at (k_disk s)) m).
Proof.
  intros Hr Hll Ho Hc HW. unfold transaction.
  assert (forall m, 0 <= m -> overlay W (content s) m = overlay W (disk_at (k_disk s)) m) as Hcd.
  { intros m Hm. apply overlay_ext, clean_content; [apply Hr| |done]. rewrite (rd_dirty _ _ Hr). apply not_elem_of_nil. }
  eapply runs_bind, runs_mono; [apply begin_op_runs; [done|done|apply Hr]|]. intros [] s1 ->. set (s1 := set_k_log _ s).
  assert (ready s1 []) as Hr1 by (by apply ready_set_log).
  eapply runs_bind, runs_mono; [by apply (log_blocks_runs W s1 [])|].
  intros [] s2 ((bs & Hr2) & Hp2 & Ho2 & Hco2 & Hc2 & Hk2 & Hw2).
  assert (same_place (k_log s2) (k_log s)) as Hp by (destruct Hp2 as (? & ? & ?); by split_and!).
  eapply runs_mono; [apply (end_op_runs s2 bs Hr2); [by rewrite Ho2|by rewrite Hco2]|].
  intros [] s3 (Ws & Hw3 & Hk3 & Hrec & Hall & Hr3 & Hl3 & Hc3).
  assert (forall D, recovers (k_log s2) D (content s2) -> recovers (k_log s) D (overlay W (disk_at (k_disk s)))) as Hto.
  { intros D Hd s0 Hb0. eapply runs_mono; [by apply (recovers_place _ _ _ _ Hp Hd)|]. intros [] s' [Hl Hm]. split; [done|].
    intros m Hm0 Hom. rewrite Hm, Hc2 by done. apply Hcd. lia. }
  exists Ws. unfold recovers_to in *. rewrite Hk2 in *. split_and!; [by rewrite Hw3, Hw2|..|by rewrite Hk3; apply Hto|done|].
  - intros W1 W2 E. destruct (Hrec W1 W2 E) as [?|?]; [left; by apply (recovers_place (k_log s2))|right; by apply Hto].
  - intros m Hm Hom. rewrite Hc3, Hc2; [by apply Hcd|done|]. destruct Hp as (E1 & E2 & _). unfold outside in *. congruence.
Qed.

End quiet.

(** ** Examples *)
Definition demo_log : log := mkLog 2 30 0 false ROOTDEV 0 (replicate 30 0).
Definition demo_log_fs (disk : list (list Z)) : kernel := set_k_log demo_log (demo_fs disk).
Definition zero_block : list Z := replicate 512 0.
Definition seven_block : list Z := replicate 512 7.

Lemma demo_log_quiet disk :
  Forall (fun blk => length blk = Z.to_nat BSIZE) disk ->
  quiet (demo_proc RUNNING 1 0 None None) (demo_log_fs disk) /\ forall m, ~ is_dirty (demo_log_fs disk) m.
Proof.
  intros Hd. split.
  - eexists. apply init_bcache_ok; [reflexivity|intros l; reflexivity|exact Hd].
  - intros m (i & Hi & Hdy & _). change (dirty (init_bufs !!! i) = true) in Hdy.
    destruct (init_bufs_zero i Hi) as (E & _). unfold dirty in Hdy. rewrite E in Hdy. discriminate Hdy.
Qed.

Lemma demo_log_fits bs :
  Forall (fun n => 32 <= n < 60) bs -> NoDup bs -> (length bs < 30)%nat -> log_fits demo_log 60 bs.
Proof.
  intros Hr Hnd Hl. split; cbn; try done; try lia. eapply Forall_impl; [exact Hr|]. unfold outside. cbn. intros n Hn. lia.
Qed.

Lemma transaction_atomic_witness :
  runs 0 true 0 (demo_proc RUNNING 1 0 None None) [] []
    (@transaction 0%nat memide_disk [(40, seven_block); (41, seven_block)])
    (demo_log_fs (replicate 60 zero_block))
    (fun _ s' => content s' 41 = Some seven_block /\ content s' 42 = Some zero_block).
Proof.
  destruct (demo_log_quiet (replicate 60 zero_block)) as [Hq Hd]; [by apply Forall_replicate|].
  eapply runs_mono; [apply (@transaction_atomic 0 true 0 (demo_proc RUNNING 1 0 None None) 0%nat
    memide_disk memide_ok (demo_log_fs (replicate 60 zero_block)) [(40, seven_block); (41, seven_block)])|].
  - split; [exact Hq| |split; reflexivity| |exists zero_block; split; reflexivity].
    + apply (demo_log_fits []); [apply Forall_nil_2|apply NoDup_nil_2|simpl; lia].
    + intros m. split; [intros Hm; destruct (Hd m Hm)|intros Hm; destruct (not_elem_of_nil m Hm)].
  - reflexivity.
  - reflexivity.
  - reflexivity.
  - split; [cbn; lia|]. repeat constructor; cbn; unfold outside; cbn; lia.
  - intros [] s' (Ws & _ & _ & _ & _ & Hc). rewrite !Hc by (unfold outside; cbn; lia). split; reflexivity.
Defined.

(** A disk whose log holds a committed change of block 40. *)
Definition crashed_disk : list (list Z) :=
  <[3%nat := seven_block]> (<[2%nat := header [40] zero_block]> (replicate 60 zero_block)).

Lemma recovery_restarts_witness :
  runs 0 true 0 (demo_proc RUNNING 1 0 None None) [] [] (@recover_from_log 0%nat memide_disk) (demo_log_fs crashed_disk)
    (fun _ s' => lh_n (k_log s') = 0).
Proof.
  destruct (demo_log_quiet crashed_disk) as [Hq Hd].
  { unfold crashed_disk. apply Forall_insert; [apply Forall_insert; [by apply Forall_replicate|]|];
      rewrite ?header_length; reflexivity. }
  eapply runs_mono; [apply (@recovery_restarts 0 true 0 (demo_proc RUNNING 1 0 None None) 0%nat
    memide_disk memide_ok demo_log crashed_disk [40] (header [40] zero_block) [seven_block] (demo_log_fs crashed_disk))|].
  - apply demo_log_fits; [repeat constructor; lia|apply NoDup_singleton|simpl; lia].
  - vm_compute. reflexivity.
  - split; [vm_compute; reflexivity|]. intros [|t] n Hn; [injection Hn as <-; vm_compute; reflexivity|discriminate Hn].
  - reflexivity.
  - intros [|t] n Hn; [injection Hn as <-; vm_compute; reflexivity|discriminate Hn].
  - split; [exact Hq|exact Hd|reflexivity..].
  - intros [] s' (W & _ & _ & Hn & _). exact Hn.
Defined.
