(* ===== verification/Console.v ===== *)
(** * The console ([kernel/console.c], [procdump] of [kernel/proc.c])

    Output: [cprintf] and [printint] over [consputc], which sends each
    character to the serial port and to the CGA screen.  Input: the line editor
    [consoleintr], called by the keyboard and serial interrupt handlers.
    The theorem on [cprintf] says which text it sends, that its digit buffer
    and the screen are not overrun, and that the cursor stays on the screen;
    the editor is described in a file of its own. *)
From S2P Require Import Prelude Types Str Spinlock Queue Kalloc Sched Context Sleeplock.
From Stdlib Require Ascii String.

Definition bytes (s : string) : list Z := (fun a => Z.of_nat (Ascii.nat_of_ascii a)) <$> String.list_ascii_of_string s.

(** The bytes of a C string before its NUL. *)
Fixpoint cstr (l : list Z) : list Z :=
  match l with
  | [] => []
  | v :: l' => if v =? 0 then [] else v :: cstr l'
  end.

(** Whether [uartinit] found a serial port. *)
Class Serial := uart : bool.

(** ** The code *)
Section code.
Context `{Fuel} `{Serial}.

Definition cons_get {A} (f : console -> A) : K A := gets (fun s => f (k_cons s)).
Definition cons_set (f : console -> console) : K unit := modify (fun s => set_k_cons (f (k_cons s)) s).

(** [uartputc]: the byte sent to [COM1]. *)
Definition uartputc (c : Z) : K unit :=
  whenm uart (cons_set (fun x => set_uart_out (uart_out x ++ [u8 c]) x)).

Definition BACKSPACE : Z := 0x100.

(** The screen memory has 2048 cells; a store beyond them is followed by the
    panic on the position. *)
Definition cgaputc (c : Z) : K unit :=
  pos <- cons_get crt_pos ;;
  pos <- (if c =? 10 then ret (pos + (80 - pos mod 80))
          else if c =? BACKSPACE then ret (if 0 <? pos then pos - 1 else pos)
          else cons_set (fun x => set_crt (<[Z.to_nat pos := Z.lor (Z.land c 0xff) 0x700]> (crt x)) x) ;; ret (pos + 1)) ;;
  if (pos <? 0) || (25 * 80 <? pos) then panic "pos under/overflow" else
  pos <- (if 24 <=? pos / 80 then
            cons_set (fun x => set_crt (take (23 * 80) (drop 80 (crt x)) ++ drop (23 * 80) (crt x)) x) ;;
            let pos := pos - 80 in
            cons_set (fun x => set_crt (take (Z.to_nat pos) (crt x)
              ++ replicate (Z.to_nat (24 * 80 - pos)) 0 ++ drop (24 * 80) (crt x)) x) ;;
            ret pos
          else ret pos) ;;
  cons_set (set_crt_pos (pos mod 2 ^ 16)) ;;
  cons_set (fun x => set_crt (<[Z.to_nat pos := Z.lor 32 0x700]> (crt x)) x).

(** After a panic on another CPU the CPU spins for ever. *)
Definition consputc (c : Z) : K unit :=
  dead <- cons_get panicked ;;
  if dead : bool then stopm Spin else
  (if c =? BACKSPACE then uartputc 8 ;; uartputc 32 ;; uartputc 8 else uartputc c) ;;
  cgaputc c.

Fixpoint consputs (l : list Z) : K unit :=
  match l with
  | [] => ret tt
  | c :: l' => consputc c ;; consputs l'
  end.

(** [digits[x % base]], and the [do]-[while] loop of [printint], least
    significant digit first; 32 rounds suffice for a [uint] in base 2 or more. *)
Definition digit (v : Z) : Z := if v <? 10 then 48 + v else 97 + (v - 10).
Fixpoint digits (n : nat) (x base : Z) : list Z :=
  match n with
  | O => []
  | S n' => digit (x mod base) :: (if x / base =? 0 then [] else digits n' (x / base) base)
  end.

Definition printint (xx base : Z) (sign : bool) : K unit :=
  let neg := sign && (xx <? 0) in
  let x := if neg then u32 (- xx) else u32 xx in
  let buf := digits 32 x base ++ (if neg then [45] else []) in
  if (16 <? length buf)%nat then stopm (Fault "printint buf") else
  consputs (reverse buf).

(** The arguments of [cprintf]. *)
Inductive arg := AInt (v : Z) | AStr (s : option (list Z)).

(** The conversion [%c]; a missing argument is a read outside the frame. *)
Definition convert (c : Z) (args : list arg) : K (list arg) :=
  if c =? 100 then
    match args with
    | AInt v :: args' => printint (i32 v) 10 true ;; ret args'
    | _ => stopm (Fault "cprintf argument")
    end
  else if (c =? 120) || (c =? 112) then
    match args with
    | AInt v :: args' => printint (i32 v) 16 false ;; ret args'
    | _ => stopm (Fault "cprintf argument")
    end
  else if c =? 115 then
    match args with
    | AStr o :: args' => consputs (cstr (default (bytes "(null)") o)) ;; ret args'
    | _ => stopm (Fault "cprintf argument")
    end
  else if c =? 37 then consputc 37 ;; ret args
  else consputc 37 ;; consputc c ;; ret args.

Fixpoint cprintf_loop (fmt : list Z) (args : list arg) : K unit :=
  match fmt with
  | [] => ret tt
  | c :: fmt' =>
      if c =? 0 then ret tt
      else if negb (c =? 37) then consputc c ;; cprintf_loop fmt' args
      else
        match fmt' with
        | [] => ret tt
        | c :: fmt'' =>
            if c =? 0 then ret tt
            else args' <- convert c args ;; cprintf_loop fmt'' args'
        end
  end.

Definition cprintf (fmt : list Z) (args : list arg) : K unit :=
  locking <- cons_get c_locking ;;
  whenm locking (acquire L_cons) ;;
  cprintf_loop fmt args ;;
  whenm locking (release L_cons).

(** [procdump] of [proc.c]. *)
Definition state_name (st : procstate) : list Z :=
  bytes match st with
        | UNUSED => "unused" | EMBRYO => "embryo" | SLEEPING => "sleep "
        | RUNNABLE => "runble" | RUNNING => "run   " | ZOMBIE => "zombie"
        end.
Fixpoint dump_pcs (l : list Z) : K unit :=
  match l with
  | [] => ret tt
  | v :: l' => if v =? 0 then ret tt else cprintf (bytes " %p") [AInt v] ;; dump_pcs l'
  end.
Definition context_ebp : Z := 12.
Fixpoint dump_procs (n : nat) (p : nat) : K unit :=
  match n with
  | O => ret tt
  | S n' =>
      st <- proc_get p state ;;
      (if bool_decide (st = UNUSED) then ret tt else
       i <- proc_get p pid ;;
       nm <- proc_get p p_name ;;
       pri <- proc_get p priority ;;
       cprintf (bytes "%d %s %s %d") [AInt i; AStr (Some (state_name st)); AStr (Some nm); AInt pri] ;;
       (if bool_decide (st = SLEEPING) then
          cx <- proc_get p context ;;
          m <- gets k_mem ;;
          dump_pcs (getcallerpcs (load32 m) (u32 (load32 m (cx + context_ebp) + 8)))
        else ret tt) ;;
       cprintf [10] []) ;;
      dump_procs n' (S p)
  end.
Definition procdump : K unit :=
  cprintf (10 :: bytes "PID | STATE | NAME | PRIORITY" ++ [10]) [] ;;
  dump_procs NPROC 0.

(** [input.buf[i % INPUT_BUF]]. *)
Definition in_byte (i : Z) : K Z :=
  o <- cons_get (fun x => in_buf x !! Z.to_nat (i mod INPUT_BUF)) ;;
  of_option "input.buf" o.

(** [C('U')]: erase back to the start of the line. *)
Fixpoint kill_line (n : nat) : K unit :=
  e <- cons_get in_e ;;
  w <- cons_get in_w ;;
  if e =? w then ret tt else
  c <- in_byte (u32 (e - 1)) ;;
  if c =? 10 then ret tt else
  match n with
  | O => stopm NoFuel
  | S n' =>
      cons_set (fun x => set_in_e (u32 (in_e x - 1)) x) ;;
      consputc BACKSPACE ;;
      kill_line n'
  end.

Definition ctrl (c : Z) : Z := c - 64.

(** One character of the loop of [consoleintr]; tells whether it is [C('P')].
    At most [INPUT_BUF] characters are erased. *)
Definition edit (c : Z) : K bool :=
  if c =? ctrl 80 then ret true
  else if c =? ctrl 85 then kill_line (Z.to_nat INPUT_BUF) ;; ret false
  else if (c =? ctrl 72) || (c =? 0x7f) then
    e <- cons_get in_e ;;
    w <- cons_get in_w ;;
    whenm (negb (e =? w))
      (cons_set (fun x => set_in_e (u32 (in_e x - 1)) x) ;;
       consputc BACKSPACE) ;;
    ret false
  else
    e <- cons_get in_e ;;
    r <- cons_get in_r ;;
    whenm (negb (c =? 0) && (u32 (e - r) <? INPUT_BUF))
      (let c := if c =? 13 then 10 else c in
       cons_set (fun x => set_in_buf (<[Z.to_nat (in_e x mod INPUT_BUF) := u8 c]> (in_buf x)) x) ;;
       cons_set (fun x => set_in_e (u32 (in_e x + 1)) x) ;;
       consputc c ;;
       e <- cons_get in_e ;;
       r <- cons_get in_r ;;
       whenm ((c =? 10) || (c =? ctrl 68) || (e =? u32 (r + INPUT_BUF)))
         (cons_set (fun x => set_in_w (in_e x) x) ;;
          wakeup (Some C_input_r))) ;;
    ret false.

(** [while((c = getc()) >= 0)], at most [n] characters. *)
Fixpoint edit_loop (getc : K Z) (n : nat) (dump : bool) : K bool :=
  c <- getc ;;
  if c <? 0 then ret dump else
  match n with
  | O => stopm NoFuel
  | S n' => b <- edit c ;; edit_loop getc n' (dump || b)
  end.
Definition consoleintr (getc : K Z) : K unit :=
  acquire L_cons ;;
  dump <- edit_loop getc fuel false ;;
  release L_cons ;;
  whenm dump procdump.

End code.

(** ** Printing: the invariant and the effect of one character *)
Section printing.
Context `{Serial}.
Implicit Types (x y z : console) (c : Z) (out : list Z) (s : kernel).

(** The console of a machine that has not panicked: the cursor is on one of the
    first 24 rows of a screen memory of 2048 cells. *)
Record cons_ok x : Prop := {
  co_alive : panicked x = false;
  co_pos : 0 <= crt_pos x < 24 * 80;
  co_crt : length (crt x) = 2048%nat }.

(** [y] is [x] after the characters [out] were printed. *)
Record prints out x y : Prop := {
  pr_ok : cons_ok y;
  pr_uart : uart_out y = uart_out x ++ (if uart then out else []);
  pr_in : in_buf y = in_buf x /\ in_r y = in_r x /\ in_w y = in_w x /\ in_e y = in_e x;
  pr_locking : c_locking y = c_locking x }.

Lemma prints_nil x : cons_ok x -> prints [] x x.
Proof. intros ?. split; [done| |done|done]. destruct uart; by rewrite app_nil_r. Qed.

Lemma prints_app out out' x y z : prints out x y -> prints out' y z -> prints (out ++ out') x z.
Proof.
  intros [? Hu (? & ? & ? & ?) ?] [? Hu' (? & ? & ? & ?) ?]. split; [done| |split_and!; congruence|congruence].
  rewrite Hu', Hu. destruct uart; by rewrite <- app_assoc.
Qed.

(** A routine that only prints [out]. *)
Definition emits (m : K unit) out : Prop :=
  forall s, cons_ok (k_cons s) -> exists y, m s = Done tt (set_k_cons y s) /\ prints out (k_cons s) y.

Lemma set_k_cons_id s : set_k_cons (k_cons s) s = s.
Proof. by destruct s. Qed.

Lemma emits_ret : emits (ret tt) [].
Proof. intros s Hs. exists (k_cons s). rewrite set_k_cons_id. split; [done|by apply prints_nil]. Qed.

Lemma emits_bind m k out out' : emits m out -> emits k out' -> emits (m ;; k) (out ++ out').
Proof.
  intros Hm Hk s Hs. destruct (Hm s Hs) as (y & E & Hy). destruct (Hk (set_k_cons y s)) as (z & E' & Hz); [apply Hy|].
  exists z. rewrite (bind_done _ _ _ _ _ E). split; [done|by eapply prints_app].
Qed.

(** The row after a character fits the 25 rows of the screen, and is scrolled
    back into the first 24. *)
Lemma cgaputc_ok c s :
  cons_ok (k_cons s) -> exists y, cgaputc c s = Done tt (set_k_cons y s) /\
    cons_ok y /\ uart_out y = uart_out (k_cons s) /\
    (in_buf y = in_buf (k_cons s) /\ in_r y = in_r (k_cons s) /\ in_w y = in_w (k_cons s) /\ in_e y = in_e (k_cons s)) /\
    c_locking y = c_locking (k_cons s).
Proof.
  intros [Hal Hpos Hcrt].
  assert (exists crt' pos', 0 <= pos' <= 24 * 80 /\ length crt' = 2048%nat /\
    cgaputc c s = (fun s' : kernel =>
      (if (pos' <? 0) || (25 * 80 <? pos') then panic "pos under/overflow" else
       pos <- (if 24 <=? pos' / 80 then
            cons_set (fun x => set_crt (take (23 * 80) (drop 80 (crt x)) ++ drop (23 * 80) (crt x)) x) ;;
            let pos := pos' - 80 in
            cons_set (fun x => set_crt (take (Z.to_nat pos) (crt x)
              ++ replicate (Z.to_nat (24 * 80 - pos)) 0 ++ drop (24 * 80) (crt x)) x) ;;
            ret pos
          else ret pos') ;;
       cons_set (set_crt_pos (pos mod 2 ^ 16)) ;;
       cons_set (fun x => set_crt (<[Z.to_nat pos := Z.lor 32 0x700]> (crt x)) x)) s')
      (set_k_cons (set_crt crt' (k_cons s)) s)) as (crt' & pos' & Hp' & Hl' & ->).
  { unfold cgaputc. set (q := crt_pos (k_cons s)) in *. unfold cons_get. rewrite (bind_done _ _ s q s) by done.
    pose proof (Z.mod_pos_bound q 80 ltac:(lia)). pose proof (Z.div_mod q 80 ltac:(lia)).
    assert (set_k_cons (set_crt (crt (k_cons s)) (k_cons s)) s = s) as Eid by (destruct s as [???????????????????? []]; done).
    destruct (c =? 10).
    - exists (crt (k_cons s)), (q + (80 - q mod 80)). split; [lia|]. split; [done|]. by rewrite Eid.
    - destruct (c =? BACKSPACE).
      + exists (crt (k_cons s)), (if 0 <? q then q - 1 else q). split; [destruct (Z.ltb_spec 0 q); lia|].
        split; [done|]. by rewrite Eid.
      + exists (<[Z.to_nat q := Z.lor (Z.land c 0xff) 0x700]> (crt (k_cons s))), (q + 1).
        split; [lia|]. split; [by rewrite length_insert|]. done. }
  rewrite (proj2 (Z.ltb_ge pos' 0)), (proj2 (Z.ltb_ge (25 * 80) pos')) by lia. cbn [orb].
  destruct (Z.leb_spec 24 (pos' / 80)) as [H24|H24].
  - assert (pos' = 1920) as -> by (pose proof (Z.div_mod pos' 80 ltac:(lia)); pose proof (Z.mod_pos_bound pos' 80 ltac:(lia)); lia).
    eexists. split; [reflexivity|]. split_and!; try done. split; [done|done|]. cbn [crt set_crt set_crt_pos k_cons set_k_cons].
    rewrite length_insert, !length_app, length_take, length_app, length_replicate, !length_drop, length_take, !length_app, !length_drop, length_take, length_drop, Hl'.
    reflexivity.
  - assert (pos' < 24 * 80) by (pose proof (Z.div_mod pos' 80 ltac:(lia)); pose proof (Z.mod_pos_bound pos' 80 ltac:(lia)); lia).
    eexists. split; [reflexivity|]. split_and!; try done. split; [done| |].
    + cbn [crt_pos set_crt_pos set_crt k_cons set_k_cons]. rewrite Z.mod_small by lia. lia.
    + cbn [crt set_crt set_crt_pos k_cons set_k_cons]. by rewrite length_insert.
Qed.

Lemma uartputc_ok c s :
  uartputc c s = Done tt (set_k_cons (set_uart_out (uart_out (k_cons s) ++ (if uart then [u8 c] else [])) (k_cons s)) s).
Proof. unfold uartputc. destruct uart; [done|]. rewrite app_nil_r. by destruct s as [???????????????????? []]. Qed.

(** A character reaches the serial port and the screen. *)
Lemma consputc_emits c : 0 <= c < 256 -> emits (consputc c) [c].
Proof.
  intros Hc s Hs. unfold consputc, cons_get. rewrite (bind_done _ _ s (panicked (k_cons s)) s) by done.
  rewrite (co_alive _ Hs), (proj2 (Z.eqb_neq c BACKSPACE)) by (unfold BACKSPACE; lia).
  rewrite (bind_done _ _ _ _ _ (uartputc_ok c s)). set (x := set_uart_out _ _).
  destruct (cgaputc_ok c (set_k_cons x s)) as (y & E & Hok & Hu & Hin & Hl); [by destruct Hs|].
  exists y. split; [by rewrite E|]. split; [done| |done|done]. rewrite Hu. cbn. unfold u8. by rewrite Z.mod_small.
Qed.

Lemma consputs_emits out : Forall (fun c => 0 <= c < 256) out -> emits (consputs out) out.
Proof.
  induction 1 as [|c out Hc _ IH]; cbn [consputs]; [apply emits_ret|].
  apply (emits_bind _ _ [c]); [by apply consputc_emits|done].
Qed.

End printing.

(** ** Numerals *)
Section numerals.
Implicit Types (x base d : Z) (ds txt : list Z).

(** The value of a list of digits, least significant first. *)
Definition value base ds : Z := foldr (fun d v => d + base * v) 0 ds.

(** [txt] is the numeral of [x]: its digits have that value, and the first is
    not 0 unless it is the only one. *)
Definition numeral base x txt : Prop :=
  exists ds, txt = reverse (digit <$> ds) /\ value base ds = x /\
    ds <> [] /\ Forall (fun d => 0 <= d < base) ds /\ (last ds = Some 0 -> ds = [0]).
Definition decimal x txt : Prop :=
  if x <? 0 then exists t, txt = 45 :: t /\ numeral 10 (- x) t else numeral 10 x txt.

Lemma digits_spec base n : 2 <= base -> forall x, 0 <= x < base ^ Z.of_nat n -> (0 < n)%nat ->
  exists ds, digits n x base = digit <$> ds /\ value base ds = x /\ ds <> [] /\ Forall (fun d => 0 <= d < base) ds /\
    (last ds = Some 0 -> ds = [0]) /\ (forall k : nat, (0 < k)%nat -> x < base ^ Z.of_nat k -> (length ds <= k)%nat).
Proof.
  intros Hb. induction n as [|n IH]; intros x Hx Hn; [lia|]. cbn [digits].
  pose proof (Z.div_mod x base ltac:(lia)) as Hdm. pose proof (Z.mod_pos_bound x base ltac:(lia)) as Hm.
  destruct (Z.eqb_spec (x / base) 0) as [E|E].
  { exists [x mod base]. cbn. rewrite E in Hdm.
    split_and!; [done|lia|done|by apply Forall_singleton|by intros [= ->]|]. intros k Hk _. lia. }
  assert (0 < x / base) as Hpos by (pose proof (Z.div_pos x base); lia).
  assert (forall k : nat, x < base ^ Z.of_nat (S k) -> x / base < base ^ Z.of_nat k) as Hdiv.
  { intros k Hk. rewrite Nat2Z.inj_succ, Z.pow_succ_r in Hk by lia. apply Z.div_lt_upper_bound; lia. }
  destruct n as [|n]; [specialize (Hdiv 0%nat); cbn in Hdiv; lia|].
  destruct (IH (x / base)) as (ds & -> & Hv & Hne & Hall & Hlast & Hlen); [split; [lia|by apply Hdiv, Hx]|lia|].
  exists (x mod base :: ds). split_and!; [done|cbn; fold (value base ds); lia|done|by constructor| |].
  - intros Hl. destruct ds as [|d ds]; [done|]. rewrite last_cons_cons in Hl. rewrite (Hlast Hl) in Hv. cbn in Hv. lia.
  - intros k Hk Hxk. destruct k as [|k]; [lia|]. specialize (Hdiv k Hxk). cbn. apply le_n_S, Hlen; [|done].
    destruct k; [cbn in Hdiv; lia|lia].
Qed.

Lemma digit_byte d : 0 <= d < 16 -> 0 <= digit d < 256.
Proof. intros ?. unfold digit. destruct (Z.ltb_spec d 10); lia. Qed.

End numerals.

(** ** [cprintf] against the formats it understands *)
Section format.
Context `{Serial}.

(** [formats fmt args out]: the text printed for a format and its arguments. *)
Inductive formats : list Z -> list arg -> list Z -> Prop :=
  | F_end args : formats [] args []
  | F_nul fmt args : formats (0 :: fmt) args []
  | F_char c fmt args out : c <> 0 -> c <> 37 -> formats fmt args out -> formats (c :: fmt) args (c :: out)
  | F_last args : formats [37] args []
  | F_last_nul fmt args : formats (37 :: 0 :: fmt) args []
  | F_dec v fmt args t out :
      decimal (i32 v) t -> formats fmt args out -> formats (37 :: 100 :: fmt) (AInt v :: args) (t ++ out)
  | F_hex c v fmt args t out :
      c = 120 \/ c = 112 -> numeral 16 (u32 v) t -> formats fmt args out ->
      formats (37 :: c :: fmt) (AInt v :: args) (t ++ out)
  | F_str o fmt args out :
      formats fmt args out ->
      formats (37 :: 115 :: fmt) (AStr o :: args) (cstr (default (bytes "(null)") o) ++ out)
  | F_percent fmt args out : formats fmt args out -> formats (37 :: 37 :: fmt) args (37 :: out)
  | F_other c fmt args out :
      c ∉ [0; 37; 100; 112; 115; 120] -> formats fmt args out -> formats (37 :: c :: fmt) args (37 :: c :: out).

(** The arguments are those the format asks for. *)
Fixpoint args_fit (fmt : list Z) (args : list arg) : bool :=
  match fmt with
  | [] => true
  | c :: fmt' =>
      if c =? 0 then true
      else if negb (c =? 37) then args_fit fmt' args
      else
        match fmt' with
        | [] => true
        | c :: fmt'' =>
            if c =? 0 then true
            else if bool_decide (c ∈ [100; 112; 120]) then
              match args with AInt _ :: args' => args_fit fmt'' args' | _ => false end
            else if c =? 115 then
              match args with AStr _ :: args' => args_fit fmt'' args' | _ => false end
            else args_fit fmt'' args
        end
  end.

Definition is_byte (c : Z) : Prop := 0 <= c < 256.
Definition arg_bytes (a : arg) : Prop :=
  match a with AStr (Some l) => Forall is_byte l | _ => True end.

(** The text of a string literal. *)
Lemma text_bytes (t : string) : Forall is_byte (bytes t).
Proof.
  unfold bytes. apply Forall_fmap. apply Forall_forall. intros x _. cbn. pose proof (Ascii.nat_ascii_bounded x). unfold is_byte. lia.
Qed.
Lemma cstr_bytes l : Forall is_byte l -> Forall is_byte (cstr l).
Proof. induction 1 as [|c l Hc _ IH]; cbn; [done|]. destruct (c =? 0); by constructor. Qed.

Lemma printint_emits xx base (sign : bool) :
  base = 10 \/ base = 16 -> (sign = true -> - 2 ^ 31 <= xx < 2 ^ 31) ->
  exists txt, emits (printint xx base sign) txt /\
    (if sign && (xx <? 0) then exists t, txt = 45 :: t /\ numeral base (- xx) t else numeral base (u32 xx) txt).
Proof.
  intros Hb Hxx. unfold printint. set (neg := sign && (xx <? 0)).
  set (x := if neg then u32 (- xx) else u32 xx).
  assert (0 <= x < 2 ^ 32) as Hx by (unfold x; destruct neg; apply u32_range).
  assert (x < base ^ Z.of_nat 10) as H10.
  { apply (Z.lt_trans _ (2 ^ 32)); [apply Hx|]. destruct Hb as [-> | ->]; by vm_compute. }
  assert (2 <= base <= 16) as Hbase by (clear -Hb; lia).
  destruct (digits_spec base 32 (proj1 Hbase) x) as (ds & E & Hv & Hne & Hall & Hlast & Hlen).
  { split; [apply Hx|]. eapply Z.lt_le_trans; [exact H10|]. apply Z.pow_le_mono_r; [clear -Hbase; lia|by vm_compute]. }
  { apply Nat.lt_0_succ. }
  specialize (Hlen 10%nat (Nat.lt_0_succ _) H10). clear H10.
  set (num := reverse (digit <$> ds)).
  assert (numeral base x num) as Hnum by (exists ds; done).
  exists (if neg then 45 :: num else num). rewrite E. split.
  - replace (16 <? _)%nat with false.
    2:{ symmetry. apply Nat.ltb_ge. rewrite length_app, length_fmap. destruct neg; cbn; lia. }
    replace (reverse _) with (if neg then 45 :: num else num).
    2:{ unfold num. destruct neg; [by rewrite reverse_app|by rewrite app_nil_r]. }
    assert (Forall (fun c => 0 <= c < 256) num) as Hnb.
    { apply Forall_reverse, Forall_fmap. eapply Forall_impl; [exact Hall|]. intros d Hd. apply digit_byte. cbn in Hd. lia. }
    apply consputs_emits. destruct neg; [|done]. constructor; [lia|done].
  - unfold x, neg in *. destruct sign, (Z.ltb_spec xx 0) as [Hlt|]; cbn [andb] in *; try done.
    exists num. split; [done|]. rewrite u32_small in Hnum; [done|]. specialize (Hxx eq_refl). lia.
Qed.

Lemma i32_u32 v : u32 (i32 v) = u32 v.
Proof.
  unfold i32. change ((v + 2 ^ 31) mod 2 ^ 32) with (u32 (v + 2 ^ 31)). rewrite u32_sub_l. f_equal. lia.
Qed.

Lemma i32_range v : - 2 ^ 31 <= i32 v < 2 ^ 31.
Proof. unfold i32. pose proof (Z.mod_pos_bound (v + 2 ^ 31) (2 ^ 32) ltac:(lia)). lia. Qed.

Lemma printint_dec v : exists txt, emits (printint (i32 v) 10 true) txt /\ decimal (i32 v) txt.
Proof.
  pose proof (i32_range v) as Hr. destruct (printint_emits (i32 v) 10 true) as (txt & He & Ht); [by left|done|].
  exists txt. split; [done|]. unfold decimal. cbn [andb] in Ht. destruct (Z.ltb_spec (i32 v) 0); [done|].
  by rewrite u32_small in Ht by lia.
Qed.

Lemma printint_hex v : exists txt, emits (printint (i32 v) 16 false) txt /\ numeral 16 (u32 v) txt.
Proof.
  destruct (printint_emits (i32 v) 16 false) as (txt & He & Ht); [by right|done|].
  exists txt. split; [done|]. cbn [andb] in Ht. by rewrite i32_u32 in Ht.
Qed.

(** A conversion prints its text and hands on the other arguments. *)
Definition converts (m : K (list arg)) (args : list arg) (out : list Z) : Prop :=
  forall k, forall out', emits (k args) out' -> emits (args' <- m ;; k args') (out ++ out').

Lemma converts_ret args : converts (ret args) args [].
Proof. by intros k out'. Qed.

Lemma converts_bind (m : K unit) (m' : K (list arg)) args out out' :
  emits m out -> converts m' args out' -> converts (m ;; m') args (out ++ out').
Proof.
  intros Hm Hm' k out'' Hk s Hs. destruct (Hm s Hs) as (y & E & Hy).
  destruct (Hm' k out'' Hk (set_k_cons y s)) as (z & E' & Hz); [apply Hy|].
  exists z. split; [|rewrite <- app_assoc; by eapply prints_app]. unfold bind in *. rewrite E. exact E'.
Qed.

Lemma converts_emits (m : K unit) args out : emits m out -> converts (m ;; ret args) args out.
Proof.
  intros Hm. rewrite <- (app_nil_r out). apply converts_bind; [done|apply converts_ret].
Qed.

Lemma cprintf_loop_emits n : forall fmt args, (length fmt <= n)%nat ->
  Forall is_byte fmt -> Forall arg_bytes args -> args_fit fmt args = true ->
  exists out, formats fmt args out /\ emits (cprintf_loop fmt args) out.
Proof.
  induction n as [|n IH]; intros fmt args Hn Hf Ha Hfit.
  { destruct fmt; [|cbn in Hn; lia]. exists []. split; [constructor|apply emits_ret]. }
  destruct fmt as [|c fmt]; [exists []; split; [constructor|apply emits_ret]|].
  cbn [cprintf_loop args_fit] in *. apply Forall_cons in Hf as [Hc Hf]. cbn in Hn.
  destruct (Z.eqb_spec c 0) as [->|Hc0]; [exists []; split; [constructor|apply emits_ret]|].
  destruct (Z.eqb_spec c 37) as [->|Hc37]; cbn [negb] in *.
  2:{ destruct (IH fmt args ltac:(lia) Hf Ha Hfit) as (out & Ho & He). exists (c :: out). split; [by constructor|].
      apply (emits_bind _ _ [c]); [by apply consputc_emits|done]. }
  destruct fmt as [|d fmt]; [exists []; split; [constructor|apply emits_ret]|].
  apply Forall_cons in Hf as [Hd Hf]. cbn in Hn.
  destruct (Z.eqb_spec d 0) as [->|Hd0]; [exists []; split; [constructor|apply emits_ret]|].
  unfold convert. case_bool_decide as Hin.
  { destruct args as [|[v|?] args]; [done| |done]. apply Forall_cons in Ha as [_ Ha].
    destruct (IH fmt args ltac:(lia) Hf Ha Hfit) as (out & Ho & He).
    destruct (Z.eqb_spec d 100) as [->|Hd100].
    - destruct (printint_dec v) as (t & Ht & Hd'). exists (t ++ out). split; [by apply F_dec|]. exact (converts_emits _ args t Ht (cprintf_loop fmt) out He).
    - assert (d = 120 \/ d = 112) as Hx by (revert Hin; rewrite !elem_of_cons, elem_of_nil; tauto).
      replace ((d =? 120) || (d =? 112)) with true by (destruct Hx as [-> | ->]; done).
      destruct (printint_hex v) as (t & Ht & Hd'). exists (t ++ out). split; [by apply F_hex|]. exact (converts_emits _ args t Ht (cprintf_loop fmt) out He). }
  assert (d <> 100 /\ d <> 112 /\ d <> 120) as (Hd1 & Hd2 & Hd3) by (split_and!; intros ->; apply Hin; set_solver).
  rewrite (proj2 (Z.eqb_neq d 100) Hd1), (proj2 (Z.eqb_neq d 120) Hd3), (proj2 (Z.eqb_neq d 112) Hd2). cbn [orb].
  destruct (Z.eqb_spec d 115) as [->|Hd115].
  { destruct args as [|[?|o] args]; [done|done|]. apply Forall_cons in Ha as [Ho Ha].
    destruct (IH fmt args ltac:(lia) Hf Ha Hfit) as (out & Hout & He). eexists. split; [by apply F_str|].
    apply (converts_emits _ args); [|done]. apply consputs_emits, cstr_bytes. destruct o as [l|]; [done|].
    cbn. repeat (constructor; [by split|]). constructor. }
  destruct (IH fmt args ltac:(lia) Hf Ha Hfit) as (out & Hout & He).
  destruct (Z.eqb_spec d 37) as [->|Hd37].
  - exists (37 :: out). split; [by apply F_percent|]. apply (converts_emits _ args [37]); [|done]. by apply consputc_emits.
  - exists (37 :: d :: out). split; [apply F_other; [set_solver|done]|].
    apply (converts_bind _ _ args [37] [d]); [by apply consputc_emits| |done].
    apply (converts_emits _ args [d]). by apply consputc_emits.
Qed.

(** on a machine that has not panicked, with the cursor on the screen,
    [cprintf] given the arguments its format asks for returns, sends exactly the
    formatted text to the serial port (a decimal or hexadecimal numeral of the
    32-bit argument, a string up to its NUL or [(null)], the characters of the
    format), never overruns its 16-byte digit buffer or the screen, keeps the
    cursor on the screen and the input buffer as it was, and leaves the CPU
    with the locks it held. *)
Theorem cprintf_output fmt args s c L b :
  hw_ok (k_hw s) c L b -> L_cons ∉ L -> cons_ok (k_cons s) ->
  Forall is_byte fmt -> Forall arg_bytes args -> args_fit fmt args = true ->
  exists out h x, formats fmt args out /\ prints out (k_cons s) x /\
    cprintf fmt args s = Done tt (set_k_hw h (set_k_cons x s)) /\
    hw_ok h c L b /\ hw_id h = hw_id (k_hw s).
Proof.
  intros Hok HL Hs Hf Ha Hfit. destruct (cprintf_loop_emits (length fmt) fmt args ltac:(done) Hf Ha Hfit) as (out & Hout & He).
  exists out. unfold cprintf, cons_get. rewrite (bind_done _ _ s (c_locking (k_cons s)) s) by done.
  destruct (c_locking (k_cons s)) eqn:Elk; cbn [whenm].
  - destruct (acquire_ok L_cons s c L b Hok HL) as (h1 & E1 & Hok1 & Hid1).
    destruct (He (set_k_hw h1 s) Hs) as (x & E2 & Hx).
    destruct (release_ok L_cons (set_k_cons x (set_k_hw h1 s)) c L b Hok1) as (h2 & E3 & Hok2 & Hid2).
    exists h2, x. rewrite (bind_done _ _ _ _ _ E1), (bind_done _ _ _ _ _ E2), E3.
    split_and!; try done. by rewrite Hid2.
  - destruct (He s Hs) as (x & E2 & Hx). exists (k_hw s), x.
    rewrite (bind_done _ _ _ tt s) by done. rewrite (bind_done _ _ _ _ _ E2). by split_and!.
Qed.

End format.

(** A running machine printing a line of [trap]. *)
Definition demo_cons_state : kernel := kernel_zero (demo_hw [] true None).
Lemma cprintf_output_witness :
  let _ : Serial := true in
  exists out h x, formats (bytes "pid %d %s: eax 0x%x") [AInt 3; AStr (Some (bytes "sh")); AInt 255] out /\
    prints out (k_cons demo_cons_state) x /\
    cprintf (bytes "pid %d %s: eax 0x%x") [AInt 3; AStr (Some (bytes "sh")); AInt 255] demo_cons_state
      = Done tt (set_k_hw h (set_k_cons x demo_cons_state)) /\
    hw_ok h 0 [] true /\ hw_id h = hw_id (demo_hw [] true None).
Proof.
  intros Hs. apply (cprintf_output (bytes "pid %d %s: eax 0x%x") [AInt 3; AStr (Some (bytes "sh")); AInt 255] demo_cons_state 0 [] true).
  - apply demo_hw_ok, NoDup_nil_2.
  - apply not_elem_of_nil.
  - by split.
  - cbn. repeat (constructor; [by split|]). constructor.
  - repeat constructor; cbn; lia.
  - by vm_compute.
Defined.
