(* ===== verification/Vm.v ===== *)
(** * Virtual memory ([kernel/vm.c])

    Two-level page tables in physical memory, addressed as the kernel does,
    through its own mapping at [KERNBASE].  [pte_of] and [translate] are what
    the paging hardware does with a page table. *)
From S2P Require Import Prelude Types Str Spinlock Queue Kalloc Sched Context Sleeplock Console.

(** ** [kernel/mmu.h] *)
Definition PDX (va : Z) : Z := Z.land (Z.shiftr (u32 va) 22) 0x3FF.
Definition PTX (va : Z) : Z := Z.land (Z.shiftr (u32 va) 12) 0x3FF.
Definition PGADDR (d t o : Z) : Z := u32 (Z.lor (Z.lor (Z.shiftl d 22) (Z.shiftl t 12)) o).
Definition PTE_P : Z := 1.
Definition PTE_W : Z := 2.
Definition PTE_U : Z := 4.
Definition PTE_ADDR (pte : Z) : Z := Z.land (u32 pte) (u32 (Z.lnot 0xFFF)).
Definition PTE_FLAGS (pte : Z) : Z := Z.land (u32 pte) 0xFFF.
Definition NPDENTRIES : nat := 1024.

(** Whether the bit [m] of a word is set. *)
Definition bit_of (e m : Z) : bool := negb (Z.land e m =? 0).

(** ** The paging hardware *)
(** The entry for [va] in the page table [pgdir] in memory [m]: both levels present. *)
Definition pte_of (m : gmap Z Z) (pgdir va : Z) : option Z :=
  let pde := load32 m (pgdir + 4 * PDX va) in
  if bit_of pde PTE_P then
    let pte := load32 m (P2V (PTE_ADDR pde) + 4 * PTX va) in
    if bit_of pte PTE_P then Some pte else None
  else None.

(** The kernel address of the byte that virtual address [va] names. *)
Definition translate (m : gmap Z Z) (pgdir va : Z) : option Z :=
  pte ← pte_of m pgdir va; Some (P2V (PTE_ADDR pte) + va mod PGSIZE).

Section code.
Context `{Linkage} `{Fuel} `{Serial}.

(** Accesses of the kernel at virtual address [va]: kernel memory directly,
    user memory through the page table in the page table base register. *)
Definition kaddr (what : string) (va : Z) : K Z :=
  if KERNBASE <=? va then ret va else
  s <- get ;;
  of_option what (translate (k_mem s) (P2V (h_cr3 (k_hw s))) va).
Definition vload8 (va : Z) : K Z :=
  a <- kaddr "page fault" va ;;
  gets (fun s => load8 (k_mem s) a).
Definition vload32 (va : Z) : K Z :=
  b0 <- vload8 va ;;
  b1 <- vload8 (va + 1) ;;
  b2 <- vload8 (va + 2) ;;
  b3 <- vload8 (va + 3) ;;
  ret (b0 + 2 ^ 8 * b1 + 2 ^ 16 * b2 + 2 ^ 24 * b3).
Definition vstore8 (va v : Z) : K unit :=
  a <- kaddr "page fault" va ;;
  modify (upd_mem (store8 a v)).
Definition vstore32 (va v : Z) : K unit :=
  vstore8 va v ;;
  vstore8 (va + 1) (v / 2 ^ 8) ;;
  vstore8 (va + 2) (v / 2 ^ 16) ;;
  vstore8 (va + 3) (v / 2 ^ 24).
Fixpoint vload_bytes (va : Z) (n : nat) : K (list Z) :=
  match n with
  | O => ret []
  | S n' => b <- vload8 va ;; l <- vload_bytes (va + 1) n' ;; ret (b :: l)
  end.
Fixpoint vstore_bytes (va : Z) (l : list Z) : K unit :=
  match l with
  | [] => ret tt
  | b :: l' => vstore8 va b ;; vstore_bytes (va + 1) l'
  end.

(** ** The code *)
Definition walkpgdir (pgdir va : Z) (alloc : bool) : K Z :=
  let pde := pgdir + 4 * PDX va in
  e <- gets (fun s => load32 (k_mem s) pde) ;;
  if bit_of e PTE_P then ret (P2V (PTE_ADDR e) + 4 * PTX va)
  else if negb alloc then ret 0
  else
    pgtab <- kalloc ;;
    if pgtab =? 0 then ret 0 else
    modify (upd_mem (memset pgtab 0 PGSIZE)) ;;
    modify (upd_mem (store32 pde (Z.lor (Z.lor (Z.lor (V2P pgtab) PTE_P) PTE_W) PTE_U))) ;;
    ret (pgtab + 4 * PTX va).

(** The loop of [mappages], with at most [n] further pages. *)
Fixpoint map_loop (n : nat) (pgdir a last pa perm : Z) : K Z :=
  pte <- walkpgdir pgdir a true ;;
  if pte =? 0 then ret (-1) else
  e <- gets (fun s => load32 (k_mem s) pte) ;;
  if bit_of e PTE_P then panic "remap" else
  modify (upd_mem (store32 pte (Z.lor (Z.lor pa perm) PTE_P))) ;;
  if a =? last then ret 0 else
  match n with
  | O => stopm NoFuel
  | S n' => map_loop n' pgdir (u32 (a + PGSIZE)) last (u32 (pa + PGSIZE)) perm
  end.
Definition mappages (pgdir va size pa perm : Z) : K Z :=
  let a := PGROUNDDOWN va in
  let last := PGROUNDDOWN (va + size - 1) in
  map_loop (Z.to_nat (u32 (last - a) / PGSIZE)) pgdir a last pa perm.

Definition inituvm (pgdir : Z) (init : list Z) : K unit :=
  if PGSIZE <=? Z.of_nat (length init) then panic "inituvm: more than a page" else
  mem <- kalloc ;;
  if mem =? 0 then stopm (Fault "inituvm") else
  modify (upd_mem (memset mem 0 PGSIZE)) ;;
  mappages pgdir 0 PGSIZE (V2P mem) (Z.lor PTE_W PTE_U) ;;
  vstore_bytes mem init.

(** The loop of [deallocuvm] from [a]; every round advances by a page or more. *)
Fixpoint dealloc_loop (n : nat) (pgdir a oldsz : Z) : K unit :=
  if negb (a <? oldsz) then ret tt else
  pte <- walkpgdir pgdir a false ;;
  a <- (if pte =? 0 then ret (u32 (PGADDR (PDX a + 1) 0 0 - PGSIZE))
        else
          e <- gets (fun s => load32 (k_mem s) pte) ;;
          whenm (bit_of e PTE_P)
            (let pa := PTE_ADDR e in
             if pa =? 0 then panic "kfree" else
             kfree (P2V pa) ;;
             modify (upd_mem (store32 pte 0))) ;;
          ret a) ;;
  match n with
  | O => stopm NoFuel
  | S n' => dealloc_loop n' pgdir (u32 (a + PGSIZE)) oldsz
  end.
Definition deallocuvm (pgdir oldsz newsz : Z) : K Z :=
  if oldsz <=? newsz then ret oldsz else
  dealloc_loop (S (Z.to_nat (oldsz / PGSIZE))) pgdir (PGROUNDUP newsz) oldsz ;;
  ret newsz.

(** The loop of [freevm] over the page directory. *)
Fixpoint free_tables (n : nat) (pgdir : Z) (i : Z) : K unit :=
  match n with
  | O => ret tt
  | S n' =>
      e <- gets (fun s => load32 (k_mem s) (pgdir + 4 * i)) ;;
      whenm (bit_of e PTE_P) (kfree (P2V (PTE_ADDR e))) ;;
      free_tables n' pgdir (i + 1)
  end.
Definition freevm (pgdir : Z) : K unit :=
  if pgdir =? 0 then panic "freevm: no pgdir" else
  deallocuvm pgdir KERNBASE 0 ;;
  free_tables NPDENTRIES pgdir 0 ;;
  kfree pgdir.

(** The array [kmap]: virtual address, physical start and end, permissions. *)
Definition kmap : list (Z * Z * Z * Z) :=
  [(KERNBASE, 0, EXTMEM, PTE_W);
   (KERNLINK, V2P KERNLINK, V2P data_sym, 0);
   (data_sym, V2P data_sym, PHYSTOP, PTE_W);
   (DEVSPACE, DEVSPACE, 0, PTE_W)].

Fixpoint map_kernel (pgdir : Z) (l : list (Z * Z * Z * Z)) : K Z :=
  match l with
  | [] => ret pgdir
  | (virt, p0, p1, perm) :: l' =>
      r <- mappages pgdir virt (u32 (p1 - p0)) p0 perm ;;
      if r <? 0 then freevm pgdir ;; ret 0 else map_kernel pgdir l'
  end.
Definition setupkvm : K Z :=
  pgdir <- kalloc ;;
  if pgdir =? 0 then ret 0 else
  modify (upd_mem (memset pgdir 0 PGSIZE)) ;;
  if DEVSPACE <? P2V PHYSTOP then panic "PHYSTOP too high" else
  map_kernel pgdir kmap.

Definition kvmalloc : K unit :=
  pd <- setupkvm ;;
  modify (set_k_kpgdir pd) ;;
  switchkvm.

(** The loop of [allocuvm] from [a]: 0 when memory has run out. *)
Fixpoint alloc_loop (n : nat) (pgdir a oldsz newsz : Z) : K Z :=
  if negb (a <? newsz) then ret newsz else
  mem <- kalloc ;;
  if mem =? 0 then
    cprintf (bytes "allocuvm out of memory" ++ [10]) [] ;;
    deallocuvm pgdir newsz oldsz ;;
    ret 0
  else
    modify (upd_mem (memset mem 0 PGSIZE)) ;;
    r <- mappages pgdir a PGSIZE (V2P mem) (Z.lor PTE_W PTE_U) ;;
    if r <? 0 then
      cprintf (bytes "allocuvm out of memory (2)" ++ [10]) [] ;;
      deallocuvm pgdir newsz oldsz ;;
      kfree mem ;;
      ret 0
    else
      match n with
      | O => stopm NoFuel
      | S n' => alloc_loop n' pgdir (u32 (a + PGSIZE)) oldsz newsz
      end.
Definition allocuvm (pgdir oldsz newsz : Z) : K Z :=
  if KERNBASE <=? newsz then ret 0
  else if newsz <? oldsz then ret oldsz
  else alloc_loop (S (Z.to_nat (newsz / PGSIZE))) pgdir (PGROUNDUP oldsz) oldsz newsz.

Definition clearpteu (pgdir uva : Z) : K unit :=
  pte <- walkpgdir pgdir uva false ;;
  if pte =? 0 then panic "clearpteu" else
  modify (fun s => upd_mem (store32 pte (Z.land (load32 (k_mem s) pte) (u32 (Z.lnot PTE_U)))) s).

(** The loop of [copyuvm] from page [i]; on failure the copy is freed. *)
Fixpoint copy_pages (n : nat) (d pgdir i sz : Z) : K Z :=
  if negb (i <? sz) then ret d else
  pte <- walkpgdir pgdir i false ;;
  if pte =? 0 then panic "copyuvm: pte should exist" else
  e <- gets (fun s => load32 (k_mem s) pte) ;;
  if negb (bit_of e PTE_P) then panic "copyuvm: page not present" else
  let pa := PTE_ADDR e in
  let flags := PTE_FLAGS e in
  mem <- kalloc ;;
  if mem =? 0 then freevm d ;; ret 0 else
  modify (upd_mem (memmove mem (P2V pa) (Z.to_nat PGSIZE))) ;;
  r <- mappages d i PGSIZE (V2P mem) flags ;;
  if r <? 0 then kfree mem ;; freevm d ;; ret 0 else
  match n with
  | O => stopm NoFuel
  | S n' => copy_pages n' d pgdir (u32 (i + PGSIZE)) sz
  end.
Definition copyuvm (pgdir sz : Z) : K Z :=
  d <- setupkvm ;;
  if d =? 0 then ret 0 else
  copy_pages (S (Z.to_nat (sz / PGSIZE))) d pgdir 0 sz.

(** The entry is read without a test that [walkpgdir] found one: a null
    pointer reads the user's memory at address 0. *)
Definition uva2ka (pgdir uva : Z) : K Z :=
  pte <- walkpgdir pgdir uva false ;;
  e <- (if pte =? 0 then vload32 0 else gets (fun s => load32 (k_mem s) pte)) ;;
  if negb (bit_of e PTE_P) then ret 0
  else if negb (bit_of e PTE_U) then ret 0
  else ret (P2V (PTE_ADDR e)).

(** The source is a list of bytes the kernel holds. *)
Fixpoint copyout_loop (n : nat) (pgdir va : Z) (buf : list Z) : K Z :=
  match buf with
  | [] => ret 0
  | _ =>
      let va0 := PGROUNDDOWN va in
      pa0 <- uva2ka pgdir va0 ;;
      if pa0 =? 0 then ret (-1) else
      let room := PGSIZE - (va - va0) in
      let k := Z.to_nat (if Z.of_nat (length buf) <? room then Z.of_nat (length buf) else room) in
      vstore_bytes (pa0 + (va - va0)) (take k buf) ;;
      match n with
      | O => stopm NoFuel
      | S n' => copyout_loop n' pgdir (u32 (va0 + PGSIZE)) (drop k buf)
      end
  end.
Definition copyout (pgdir va : Z) (p : list Z) : K Z := copyout_loop (S (length p)) pgdir va p.

End code.
