(* ===== verification/Paging.v ===== *)
(** * Page tables against the paging hardware ([kernel/vm.c])

    [tables_ok] is the shape of a page table the kernel builds: the directory
    and the tables are distinct pages that are not free.  The theorems relate
    [walkpgdir] and [mappages] to [pte_of], the entry the paging hardware finds
    for an address. *)
From S2P Require Import Prelude Types Str Spinlock Kalloc Console Vm.

(** ** Words and flags *)
Section words.
Implicit Types (a e f p va : Z).

Lemma land_page a f : a mod PGSIZE = 0 -> 0 <= f < PGSIZE -> Z.land a f = 0.
Proof.
  intros Ha Hf. apply Z.bits_inj'. intros n Hn. rewrite Z.land_spec, Z.bits_0.
  destruct (Z.lt_ge_cases n 12) as [H12|H12].
  - assert (Z.testbit a n = false) as ->; [|done].
    rewrite <- (Z.mod_pow2_bits_low a 12) by lia. change (2 ^ 12) with PGSIZE. by rewrite Ha, Z.bits_0.
  - assert (Z.testbit f n = false) as ->; [|by rewrite andb_false_r].
    rewrite <- (Z.mod_small f (2 ^ 12)) by (unfold PGSIZE in Hf; lia). by apply Z.mod_pow2_bits_high.
Qed.

Lemma lor_page a f : a mod PGSIZE = 0 -> 0 <= f < PGSIZE -> Z.lor a f = a + f.
Proof. intros Ha Hf. pose proof (Z.add_lor_land a f) as E. rewrite (land_page a f Ha Hf) in E. lia. Qed.

(** A page-table entry: the address and the flags are recovered. *)
Lemma PTE_ADDR_lor a f : 0 <= a < 2 ^ 32 -> a mod PGSIZE = 0 -> 0 <= f < PGSIZE -> PTE_ADDR (Z.lor a f) = a.
Proof.
  intros Hr Ha Hf. rewrite lor_page by done. unfold PTE_ADDR. change 0xFFF with (PGSIZE - 1). rewrite page_mask.
  unfold PGSIZE in *. pose proof (Z.div_mod a 4096 ltac:(lia)).
  rewrite u32_small by lia. replace (a + f) with (f + a / 4096 * 4096) by lia.
  rewrite Z.div_add, Z.div_small by lia. lia.
Qed.

Lemma bit_of_lor e f : bit_of (Z.lor e (Z.lor f PTE_P)) PTE_P = true.
Proof.
  unfold bit_of, PTE_P. apply negb_true_iff, Z.eqb_neq. intros E. apply (f_equal (fun x => Z.testbit x 0)) in E.
  rewrite Z.land_spec, !Z.lor_spec, Z.bits_0 in E. change (Z.testbit 1 0) with true in E. rewrite !orb_true_r in E. done.
Qed.

Lemma lor_small f f' : 0 <= f < PGSIZE -> 0 <= f' < PGSIZE -> 0 <= Z.lor f f' < PGSIZE.
Proof.
  change PGSIZE with (2 ^ 12). intros Hf Hf'.
  assert (Z.lor f f' mod 2 ^ 12 = Z.lor f f') as <-; [|by apply Z.mod_pos_bound].
  rewrite <- Z.land_ones, Z.land_lor_distr_l, !Z.land_ones, !Z.mod_small by lia. done.
Qed.

Lemma PTE_ADDR_page e : PTE_ADDR e mod PGSIZE = 0 /\ 0 <= PTE_ADDR e < 2 ^ 32.
Proof.
  unfold PTE_ADDR. change 0xFFF with (PGSIZE - 1). rewrite page_mask. unfold PGSIZE. rewrite Z.mod_mul by lia.
  pose proof (u32_range e). pose proof (Z.div_mod (u32 e) 4096 ltac:(lia)). pose proof (Z.mod_pos_bound (u32 e) 4096 ltac:(lia)).
  pose proof (Z.div_pos (u32 e) 4096). lia.
Qed.

(** The indices of an address. *)
Lemma PDX_spec va : 0 <= va < 2 ^ 32 -> PDX va = va / 2 ^ 22 /\ 0 <= PDX va < 1024.
Proof.
  intros Hv. unfold PDX. rewrite u32_small, Z.shiftr_div_pow2 by lia. change 0x3FF with (Z.ones 10). rewrite Z.land_ones by lia.
  assert (0 <= va / 2 ^ 22 < 2 ^ 10) by (split; [apply Z.div_pos; lia|apply Z.div_lt_upper_bound; lia]).
  rewrite Z.mod_small by lia. lia.
Qed.

Lemma PTX_spec va : 0 <= va < 2 ^ 32 -> PTX va = va / 2 ^ 12 mod 2 ^ 10 /\ 0 <= PTX va < 1024.
Proof.
  intros Hv. unfold PTX. rewrite u32_small, Z.shiftr_div_pow2 by lia. change 0x3FF with (Z.ones 10). rewrite Z.land_ones by lia.
  split; [done|]. apply Z.mod_pos_bound. lia.
Qed.

Lemma indices_page va va' : 0 <= va < 2 ^ 32 -> 0 <= va' < 2 ^ 32 ->
  PDX va = PDX va' /\ PTX va = PTX va' <-> va / PGSIZE = va' / PGSIZE.
Proof.
  intros Hv Hv'. destruct (PDX_spec va Hv) as [-> _], (PDX_spec va' Hv') as [-> _], (PTX_spec va Hv) as [-> _], (PTX_spec va' Hv') as [-> _].
  change PGSIZE with (2 ^ 12). change (2 ^ 22) with (2 ^ 12 * 2 ^ 10). rewrite <- !Z.div_div by lia.
  split; [|by intros ->]. intros [E1 E2].
  rewrite (Z.div_mod (va / 2 ^ 12) (2 ^ 10)), (Z.div_mod (va' / 2 ^ 12) (2 ^ 10)) by lia. congruence.
Qed.

End words.

(** ** The shape of a page table *)
Section tables.
Context `{Linkage}.
Implicit Types (m : gmap Z Z) (pgdir p q va i j k : Z) (l : list Z).

Definition pde m pgdir i : Z := load32 m (pgdir + 4 * i).
Definition present m pgdir i : Prop := bit_of (pde m pgdir i) PTE_P = true.
Definition table m pgdir i : Z := P2V (PTE_ADDR (pde m pgdir i)).
Definition index i : Prop := 0 <= i < 1024.

Record tables_ok m pgdir l : Prop := {
  to_dir : page_ok pgdir;
  to_dir_used : pgdir ∉ l;
  to_table : forall i, index i -> present m pgdir i ->
    page_ok (table m pgdir i) /\ table m pgdir i <> pgdir /\ (table m pgdir i ∉ l);
  to_inj : forall i j, index i -> index j -> present m pgdir i -> present m pgdir j ->
    table m pgdir i = table m pgdir j -> i = j }.

(** The memory a page table occupies. *)
Definition owned m pgdir (a : Z) : Prop :=
  pgdir <= a < pgdir + PGSIZE \/ exists i, index i /\ present m pgdir i /\ table m pgdir i <= a < table m pgdir i + PGSIZE.

Lemma pte_of_table m pgdir va :
  pte_of m pgdir va =
    if bit_of (pde m pgdir (PDX va)) PTE_P then
      let e := load32 m (table m pgdir (PDX va) + 4 * PTX va) in if bit_of e PTE_P then Some e else None
    else None.
Proof. done. Qed.

Lemma page_phys p : page_ok p -> V2P p mod PGSIZE = 0 /\ 0 <= V2P p < 2 ^ 32 /\ P2V (V2P p) = p.
Proof.
  intros Hp. destruct (page_range p Hp) as [Hr ->]. destruct Hp as [Hal Hp]. unfold P2V, KERNBASE in *. split; [|split; [lia|]].
  - replace (p - 0x80000000) with (p + (- 0x80000) * PGSIZE) by (unfold PGSIZE; lia). by rewrite Z.mod_add.
  - rewrite u32_small by lia. lia.
Qed.

(** Words of different pages, and different words of a page. *)
Lemma words_disjoint p q i j : page_ok p -> page_ok q -> index i -> index j -> p <> q \/ i <> j ->
  p + 4 * i + 4 <= q + 4 * j \/ q + 4 * j + 4 <= p + 4 * i.
Proof.
  unfold index. intros [Hp _] [Hq _] Hi Hj Hne. destruct (Z.eq_dec p q) as [<-|Hpq]; [lia|].
  destruct (pages_disjoint p q Hp Hq Hpq); unfold PGSIZE in *; lia.
Qed.

(** *** A new, empty table *)
Definition new_table pgdir i p m : gmap Z Z :=
  store32 (pgdir + 4 * i) (Z.lor (Z.lor (Z.lor (V2P p) PTE_P) PTE_W) PTE_U) (memset p 0 PGSIZE m).

Lemma new_pde p : Z.lor (Z.lor (Z.lor (V2P p) PTE_P) PTE_W) PTE_U = Z.lor (V2P p) (Z.lor 6 PTE_P).
Proof. rewrite <- !Z.lor_assoc. done. Qed.

Section new_table.
Context m pgdir l i p (Hok : tables_ok m pgdir (p :: l)) (Hi : index i) (Hp : page_ok p) (Hpl : p ∉ l).
Context (Habs : bit_of (pde m pgdir i) PTE_P = false).
Let m' := new_table pgdir i p m.

Lemma new_dir_ne : p <> pgdir.
Proof. intros ->. apply (to_dir_used _ _ _ Hok). by left. Qed.

Lemma new_load q k : page_ok q -> index k -> q <> p -> q <> pgdir \/ k <> i -> load32 m' (q + 4 * k) = load32 m (q + 4 * k).
Proof.
  intros Hq Hk Hqp Hne. unfold m', new_table. rewrite load32_store32_ne.
  - apply load32_ext. intros b Hb. rewrite memset_load8 by done. rewrite decide_False; [done|].
    destruct (pages_disjoint q p); [apply Hq|apply Hp|done| |]; unfold PGSIZE, index in *; lia.
  - apply words_disjoint; [apply Hok|done|done|done|]. destruct Hne; [left|right]; congruence.
Qed.

Lemma new_pde_ne j : index j -> j <> i -> pde m' pgdir j = pde m pgdir j.
Proof. intros Hj Hne. apply new_load; [apply Hok|done| |by right]. symmetry. apply new_dir_ne. Qed.

Lemma new_pde_eq : present m' pgdir i /\ table m' pgdir i = p.
Proof.
  destruct (page_phys p Hp) as (Hal & Hr & Hpv).
  assert (0 <= Z.lor 6 PTE_P < PGSIZE) as Hf by (unfold PGSIZE; vm_compute; done).
  assert (pde m' pgdir i = Z.lor (V2P p) (Z.lor 6 PTE_P)) as E.
  { unfold pde, m', new_table. rewrite load32_store32_eq, new_pde. apply u32_small.
    rewrite lor_page by done. unfold PGSIZE in *. pose proof (page_range p Hp) as [? ->]. destruct Hp as [? ?].
    unfold KERNBASE, PHYSTOP in *. lia. }
  unfold present, table. rewrite E. split; [apply bit_of_lor|]. by rewrite PTE_ADDR_lor.
Qed.

Lemma new_present j : index j -> present m' pgdir j <-> j = i \/ present m pgdir j.
Proof.
  intros Hj. destruct (Z.eq_dec j i) as [->|Hne].
  - split; [by left|]. intros _. apply new_pde_eq.
  - unfold present. rewrite new_pde_ne by done. tauto.
Qed.

Lemma new_table_old j : index j -> j <> i -> table m' pgdir j = table m pgdir j.
Proof. intros Hj Hne. unfold table. by rewrite new_pde_ne. Qed.

Lemma new_pte va : 0 <= va < 2 ^ 32 -> pte_of m' pgdir va = pte_of m pgdir va.
Proof.
  intros Hva. destruct (PDX_spec va Hva) as [_ Hd], (PTX_spec va Hva) as [_ Ht]. rewrite !pte_of_table.
  destruct (Z.eq_dec (PDX va) i) as [->|Hne].
  - destruct new_pde_eq as [Hpr ->]. unfold present in Hpr. rewrite Hpr, Habs. cbv zeta.
    replace (load32 m' (p + 4 * PTX va)) with 0; [done|]. symmetry. unfold m', new_table. rewrite load32_store32_ne.
    + unfold load32. rewrite !memset_load8 by done. by rewrite !decide_True by (unfold PGSIZE; lia).
    + apply words_disjoint; [apply Hok|done|done|done|]. left. symmetry. apply new_dir_ne.
  - rewrite new_pde_ne, new_table_old by done.
    destruct (bit_of (pde m pgdir (PDX va)) PTE_P) eqn:Ep; [|done].
    destruct (to_table _ _ _ Hok (PDX va) Hd Ep) as (Htp & Htd & Htl).
    rewrite new_load; [done|done|done| |by left]. intros E. apply Htl. rewrite E. by left.
Qed.

Lemma new_tables_ok : tables_ok m' pgdir l.
Proof.
  destruct new_pde_eq as [_ Et].
  assert (forall j, index j -> present m' pgdir j -> j <> i -> present m pgdir j) as Hold.
  { intros j Hj [?|?]%new_present ?; done. }
  split; [apply Hok| | |].
  - intros E. apply (to_dir_used _ _ _ Hok). by right.
  - intros j Hj Hpj. destruct (Z.eq_dec j i) as [->|Hne].
    + rewrite Et. split_and!; [done|apply new_dir_ne|done].
    + rewrite new_table_old by done. destruct (to_table _ _ _ Hok j Hj (Hold j Hj Hpj Hne)) as (? & ? & Hn).
      split_and!; [done|done|]. intros E. apply Hn. by right.
  - assert (forall j, index j -> present m' pgdir j -> j <> i -> table m' pgdir j <> p) as Hnp.
    { intros j Hj Hpj Hne. rewrite new_table_old by done. destruct (to_table _ _ _ Hok j Hj (Hold j Hj Hpj Hne)) as (_ & _ & Hn).
      intros E. apply Hn. rewrite E. by left. }
    intros j k Hj Hk Hpj Hpk E. destruct (Z.eq_dec j i) as [->|Hji], (Z.eq_dec k i) as [->|Hki]; [done| | |].
    + rewrite Et in E. by destruct (Hnp k Hk Hpk Hki).
    + rewrite Et in E. by destruct (Hnp j Hj Hpj Hji).
    + rewrite !new_table_old in E by done. apply (to_inj _ _ _ Hok); auto.
Qed.

Lemma new_frame a : ~ owned m' pgdir a -> load8 m' a = load8 m a.
Proof.
  destruct new_pde_eq as [Hpr Et]. intros Ha. unfold m', new_table. rewrite load8_store32, decide_False.
  - rewrite memset_load8, decide_False; [done| |done]. intros Hin. apply Ha. right. exists i. by rewrite Et.
  - intros Hin. apply Ha. left. unfold index, PGSIZE in *. lia.
Qed.

End new_table.

(** *** A new entry of a table *)
Section new_entry.
Context m pgdir l va (e : Z) (Hok : tables_ok m pgdir l) (Hva : 0 <= va < 2 ^ 32) (Hpr : present m pgdir (PDX va)).
Let slot := table m pgdir (PDX va) + 4 * PTX va.
Let m' := store32 slot e m.

Lemma entry_load q k : page_ok q -> index k -> q <> table m pgdir (PDX va) \/ k <> PTX va -> load32 m' (q + 4 * k) = load32 m (q + 4 * k).
Proof.
  intros Hq Hk Hne. destruct (to_table _ _ _ Hok (PDX va) (proj2 (PDX_spec va Hva)) Hpr) as (Ht & _ & _).
  apply load32_store32_ne. apply words_disjoint; [done|done|by apply PTX_spec|done|]. destruct Hne; [left|right]; congruence.
Qed.

Lemma entry_pde j : index j -> pde m' pgdir j = pde m pgdir j.
Proof.
  intros Hj. apply entry_load; [apply Hok|done|]. left.
  destruct (to_table _ _ _ Hok (PDX va) (proj2 (PDX_spec va Hva)) Hpr) as (_ & ? & _). congruence.
Qed.

Lemma entry_tables_ok : tables_ok m' pgdir l.
Proof.
  split; [apply Hok|apply Hok| |]; unfold present, table; [intros i Hi|intros i j Hi Hj].
  - rewrite entry_pde by done. by apply Hok.
  - rewrite !entry_pde by done. by apply Hok.
Qed.

Lemma entry_any va' : 0 <= va' < 2 ^ 32 -> 0 <= e < 2 ^ 32 ->
  pte_of m' pgdir va' =
    if decide (va' / PGSIZE = va / PGSIZE) then (if bit_of e PTE_P then Some e else None) else pte_of m pgdir va'.
Proof.
  intros Hva' He. rewrite !pte_of_table. unfold table. destruct (PDX_spec va' Hva') as [_ Hd'], (PTX_spec va' Hva') as [_ Ht'].
  rewrite entry_pde by done. fold (table m pgdir (PDX va')). case_decide as E.
  - apply indices_page in E as [-> ->]; [|done|done]. unfold present in Hpr. rewrite Hpr. cbv zeta. unfold m', slot.
    by rewrite load32_store32_eq, u32_small.
  - destruct (bit_of (pde m pgdir (PDX va')) PTE_P) eqn:Ep; [|done]. rewrite entry_load; [done| |done|].
    + by apply (to_table _ _ _ Hok).
    + destruct (Z.eq_dec (PTX va') (PTX va)) as [Et|]; [left|by right]. intros Etab. apply E.
      apply indices_page; [done|done|]. split; [|done]. apply (to_inj _ _ _ Hok); [done|by apply PDX_spec|done|done|done].
Qed.

Lemma entry_pte va' : 0 <= va' < 2 ^ 32 -> 0 <= e < 2 ^ 32 -> bit_of e PTE_P = true ->
  pte_of m' pgdir va' = if decide (va' / PGSIZE = va / PGSIZE) then Some e else pte_of m pgdir va'.
Proof. intros Hva' He Hbit. by rewrite entry_any, Hbit. Qed.

Lemma entry_frame a : ~ owned m pgdir a -> load8 m' a = load8 m a.
Proof.
  intros Ha. unfold m', slot. rewrite load8_store32, decide_False; [done|]. intros Hin. apply Ha. right.
  destruct (PTX_spec va Hva) as [_ Ht]. exists (PDX va). split_and!; [by apply PDX_spec..|done| |]; unfold PGSIZE; lia.
Qed.

Lemma entry_owned a : owned m' pgdir a <-> owned m pgdir a.
Proof.
  unfold owned. f_equiv. f_equiv. intros j. split; intros (Hj & Hp & Ha); unfold present, table in *; rewrite entry_pde in * by done; done.
Qed.

End new_entry.
End tables.

(** ** The code *)
Section code.
Context `{Linkage}.
Implicit Types (s : kernel) (m : gmap Z Z) (pgdir va a pa perm : Z) (l : list Z).

(** The tables of a directory that has grown: those it had, and pages that were
    free; a page that is no longer free is a table. *)
Record grows m m' pgdir l l' : Prop := {
  gr_keep : forall i, index i -> present m pgdir i -> present m' pgdir i /\ table m' pgdir i = table m pgdir i;
  gr_new : forall i, index i -> present m' pgdir i -> present m pgdir i \/ (table m' pgdir i ∈ l);
  gr_used : forall p, p ∈ l -> p ∉ l' -> exists i, index i /\ present m' pgdir i /\ table m' pgdir i = p }.

Lemma grows_refl m pgdir l : grows m m pgdir l l.
Proof. split; [done|by left|done]. Qed.
Lemma grows_same m m' pgdir l l' m2 : (forall i, index i -> pde m2 pgdir i = pde m' pgdir i) -> grows m m' pgdir l l' -> grows m m2 pgdir l l'.
Proof.
  intros Hm [Hk Hn Hu]. split; unfold present, table in *; [intros i Hi Hp|intros i Hi Hp|intros p Hp Hp'].
  - rewrite Hm by done. by apply Hk.
  - rewrite Hm in * by done. by apply Hn.
  - destruct (Hu p Hp Hp') as (i & Hi & Hpi & Et). exists i. by rewrite Hm.
Qed.
Lemma grows_trans m m1 m2 pgdir l l1 l2 : l1 `suffix_of` l -> grows m m1 pgdir l l1 -> grows m1 m2 pgdir l1 l2 -> grows m m2 pgdir l l2.
Proof.
  intros Hs [Hk Hn Hu] [Hk' Hn' Hu']. assert (forall p, p ∈ l1 -> p ∈ l) as Hin by (destruct Hs as [k ->]; intros p Hp; apply elem_of_app; by right). split.
  - intros i Hi Hp. destruct (Hk i Hi Hp) as [Hp1 E1]. destruct (Hk' i Hi Hp1) as [Hp2 E2]. split; [done|congruence].
  - intros i Hi Hp. destruct (Hn' i Hi Hp) as [Hp1|?]; [|right; auto]. destruct (Hk' i Hi Hp1) as [_ ->]. by apply Hn.
  - intros p Hp Hp2. destruct (decide (p ∈ l1)) as [H1|H1]; [by apply Hu'|]. destruct (Hu p Hp H1) as (i & Hi & Hpi & Et).
    destruct (Hk' i Hi Hpi) as [Hpi' Et']. exists i. split_and!; [done|done|congruence].
Qed.
Lemma grows_owned m m' pgdir l l' a : grows m m' pgdir l l' -> owned m pgdir a -> owned m' pgdir a.
Proof.
  intros [Hk _ _] [?|(i & Hi & Hp & Ha)]; [by left|]. right. exists i. destruct (Hk i Hi Hp) as [? ->]. done.
Qed.

Lemma new_grows m pgdir l i p : tables_ok m pgdir (p :: l) -> index i -> page_ok p -> p ∉ l -> bit_of (pde m pgdir i) PTE_P = false ->
  grows m (new_table pgdir i p m) pgdir (p :: l) l.
Proof.
  intros Hok Hi Hp Hpl Habs. destruct (new_pde_eq m pgdir i p Hp) as [Hpr Et]. split.
  - intros j Hj Hpj. assert (j <> i) by (intros ->; unfold present in Hpj; congruence).
    split; [apply (proj2 (new_present m pgdir l i p Hok Hi Hp Hpl j Hj)); by right|by apply (new_table_old m pgdir l)].
  - intros j Hj Hpj. destruct (Z.eq_dec j i) as [->|Hne]; [right; rewrite Et; by left|left]. by destruct (proj1 (new_present m pgdir l i p Hok Hi Hp Hpl j Hj) Hpj).
  - intros q [->|?]%elem_of_cons ?; [|done]. by exists i.
Qed.

(** What a routine that only extends page table [pgdir] leaves: the memory [m'],
    the head [f] of the free list, which holds [l'], and the CPU [h]. *)
Record extends s pgdir l c L b m' (f : Z) (h : hw) l' : Prop := {
  ex_hw : hw_ok h c L b;
  ex_id : hw_id h = hw_id (k_hw s);
  ex_free : freelist_ok m' f l' /\ NoDup l';
  ex_suffix : l' `suffix_of` l;
  ex_tables : tables_ok m' pgdir l';
  ex_frame : forall a, ~ owned m' pgdir a -> load8 m' a = load8 (k_mem s) a;
  ex_grows : grows (k_mem s) m' pgdir l l' }.

Definition after m' (f : Z) (h : hw) s : kernel := set_k_hw h (set_k_freelist f (set_k_mem m' s)).

Lemma extends_trans s pgdir l c L b m1 f1 h1 l1 m2 f2 h2 l2 :
  extends s pgdir l c L b m1 f1 h1 l1 -> extends (after m1 f1 h1 s) pgdir l1 c L b m2 f2 h2 l2 ->
  extends s pgdir l c L b m2 f2 h2 l2.
Proof.
  intros [? Hid1 ? ? ? Hf1 Ho1] [? Hid2 ? ? ? Hf2 Ho2]. cbn in *. split; try done; [congruence|by etrans| |by eapply grows_trans].
  intros a Ha. rewrite Hf2 by done. apply Hf1. contradict Ha. by eapply grows_owned.
Qed.

(** The tables of [m'] that [m] does not have serve addresses from [a] to [e]. *)
Definition tables_in m m' pgdir a (e : Z) : Prop :=
  forall i, index i -> present m' pgdir i -> present m pgdir i \/ exists va, a <= va < e /\ PDX va = i.

(** The free list lives outside the page table. *)
Lemma free_not_owned m pgdir l a p : tables_ok m pgdir l -> (forall q, q ∈ l -> page_ok q) -> p ∈ l -> p <= a < p + PGSIZE -> ~ owned m pgdir a.
Proof.
  intros Hok Hl Hp Ha. pose proof (Hl p Hp) as [Hpp _]. intros [Hd|(i & Hi & Hpr & Ht)].
  - assert (p <> pgdir) as Hne by (intros ->; by apply (to_dir_used _ _ _ Hok)).
    destruct (pages_disjoint p pgdir Hpp (proj1 (to_dir _ _ _ Hok)) Hne); lia.
  - destruct (to_table _ _ _ Hok i Hi Hpr) as ([Htp _] & _ & Hn).
    assert (p <> table m pgdir i) as Hne by (by intros ->).
    destruct (pages_disjoint p _ Hpp Htp Hne); lia.
Qed.

Lemma walkpgdir_ok s pgdir va l c L b :
  hw_ok (k_hw s) c L b -> L_kmem ∉ L -> free_pages s l -> tables_ok (k_mem s) pgdir l -> 0 <= va < 2 ^ 32 ->
  exists r m' f h l', walkpgdir pgdir va true s = Done r (after m' f h s) /\
    extends s pgdir l c L b m' f h l' /\ tables_in (k_mem s) m' pgdir va (va + 1) /\
    (forall va', 0 <= va' < 2 ^ 32 -> pte_of m' pgdir va' = pte_of (k_mem s) pgdir va') /\
    (r = 0 /\ l' = [] \/ r <> 0 /\ present m' pgdir (PDX va) /\ r = table m' pgdir (PDX va) + 4 * PTX va).
Proof.
  intros Hhw HL Hf Hok Hva. destruct (PDX_spec va Hva) as [_ Hd], (PTX_spec va Hva) as [_ Ht].
  unfold walkpgdir. rewrite (bind_done _ _ _ (pde (k_mem s) pgdir (PDX va)) s) by done.
  assert (forall m', page_ok (table m' pgdir (PDX va)) -> table m' pgdir (PDX va) + 4 * PTX va <> 0) as Hnz.
  { intros m' Hp. destruct (page_range _ Hp). unfold KERNBASE, index in *. lia. }
  destruct (bit_of (pde (k_mem s) pgdir (PDX va)) PTE_P) eqn:Ep.
  { exists (table (k_mem s) pgdir (PDX va) + 4 * PTX va), (k_mem s), (k_freelist s), (k_hw s), l. split; [by destruct s|].
    split; [split; try done; apply grows_refl|]. split; [by left|]. split; [done|]. right. split_and!; [|done|done]. apply Hnz. by apply (to_table _ _ _ Hok). }
  cbn [negb]. destruct (kalloc_ok s l c L b Hhw HL Hf) as (h & E & Hhw' & Hid). rewrite (bind_done _ _ _ _ _ E). clear E.
  destruct l as [|p l].
  { assert (k_freelist s = 0) as E0 by apply Hf. rewrite E0. cbn [Z.eqb]. exists 0, (k_mem s), 0, h, []. split; [by destruct s|].
    split; [|split; [by left|split; [done|by left]]]. split; try done; [split; [done|constructor]|apply grows_refl]. }
  destruct (popped_list s p l Hf) as [Efl Hf']. destruct Hf as [(_ & Hp & _) [Hpl _]%NoDup_cons]. rewrite Efl in *.
  pose proof (page_range p Hp) as [Hpr _]. rewrite (proj2 (Z.eqb_neq p 0)) by (unfold KERNBASE in *; lia).
  set (m' := new_table pgdir (PDX va) p (k_mem s)).
  destruct (new_pde_eq (k_mem s) pgdir (PDX va) p Hp) as [Hpres Htab]. fold m' in Hpres, Htab.
  pose proof (new_tables_ok (k_mem s) pgdir l (PDX va) p Hok Hd Hp Hpl) as Hok'. fold m' in Hok'.
  exists (p + 4 * PTX va), m', (load32 (k_mem s) p), h, l. split; [done|]. split; [|split; [|split]].
  - split; [done|done| |by apply suffix_cons_r|done|by apply new_frame|by apply new_grows].
    destruct Hf' as [Hf' Hnd]. split; [|done]. eapply freelist_ok_ext; [|exact Hf']. intros q a Hq Ha.
    apply (new_frame (k_mem s) pgdir (PDX va) p Hd Hp). apply (free_not_owned _ _ l _ q); [done| |done|done].
    intros x Hx. by eapply freelist_pages.
  - intros i Hi Hpi. destruct (proj1 (new_present (k_mem s) pgdir l (PDX va) p Hok Hd Hp Hpl i Hi) Hpi) as [->|?]; [right; exists va; split; [lia|done]|by left].
  - intros va' Hva'. by apply (new_pte _ _ l).
  - right. rewrite <- Htab. split_and!; [|done|done]. apply Hnz. by rewrite Htab.
Qed.

(** The entries after [n] pages from [a] are mapped to the physical pages from
    [pa] with flags [perm]. *)
Definition mapped m pgdir a (n : nat) pa perm (va : Z) : option Z :=
  if decide (a <= va < a + PGSIZE * Z.of_nat n)
  then Some (Z.lor (Z.lor (pa + (va - a) / PGSIZE * PGSIZE) perm) PTE_P)
  else pte_of m pgdir va.

(** The address of page [k] of a range that ends within 32 bits. *)
Definition range_ok a (n : nat) : Prop := a mod PGSIZE = 0 /\ 0 <= a /\ a + PGSIZE * Z.of_nat n <= 2 ^ 32.

Lemma range_next a n : range_ok a (S (S n)) -> range_ok (u32 (a + PGSIZE)) (S n) /\ u32 (a + PGSIZE) = a + PGSIZE.
Proof.
  intros (Ha & H0 & Hn). unfold range_ok, PGSIZE in *. rewrite u32_small by lia. split; [|done]. split; [|lia].
  rewrite <- Z.add_mod_idemp_r, Z.mod_same, Z.add_0_r by lia. done.
Qed.

Lemma page_of a va : a mod PGSIZE = 0 -> va / PGSIZE = a / PGSIZE <-> a <= va < a + PGSIZE.
Proof.
  unfold PGSIZE. intros Ha. pose proof (Z.div_mod va 4096 ltac:(lia)). pose proof (Z.mod_pos_bound va 4096 ltac:(lia)).
  pose proof (Z.div_mod a 4096 ltac:(lia)). lia.
Qed.

(** One round: the entry of page [a] is found or made, and set. *)
Lemma map_page_ok s pgdir a pa perm l c L b :
  hw_ok (k_hw s) c L b -> L_kmem ∉ L -> free_pages s l -> tables_ok (k_mem s) pgdir l ->
  range_ok a 1 -> range_ok pa 1 -> 0 <= perm < PGSIZE -> pte_of (k_mem s) pgdir a = None ->
  exists r m1 f h l', walkpgdir pgdir a true s = Done r (after m1 f h s) /\
    (r = 0 /\ l' = [] /\ extends s pgdir l c L b m1 f h l' /\ tables_in (k_mem s) m1 pgdir a (a + PGSIZE) /\ (forall va, 0 <= va < 2 ^ 32 -> pte_of m1 pgdir va = pte_of (k_mem s) pgdir va) \/
     r <> 0 /\ bit_of (load32 m1 r) PTE_P = false /\
     extends s pgdir l c L b (store32 r (Z.lor (Z.lor pa perm) PTE_P) m1) f h l' /\
     tables_in (k_mem s) (store32 r (Z.lor (Z.lor pa perm) PTE_P) m1) pgdir a (a + PGSIZE) /\
     forall va, 0 <= va < 2 ^ 32 ->
       pte_of (store32 r (Z.lor (Z.lor pa perm) PTE_P) m1) pgdir va = mapped (k_mem s) pgdir a 1 pa perm va).
Proof.
  intros Hhw HL Hf Hok (Ha & Ha0 & Ha1) (Hp & Hp0 & Hp1) Hperm Hnone.
  assert (0 <= a < 2 ^ 32) as Hva by (unfold PGSIZE in *; lia).
  destruct (walkpgdir_ok s pgdir a l c L b Hhw HL Hf Hok Hva) as (r & m1 & f & h & l' & E & Hex & Hin1 & Hpte & Hr).
  assert (tables_in (k_mem s) m1 pgdir a (a + PGSIZE)) as Hin.
  { intros i Hi Hpi. destruct (Hin1 i Hi Hpi) as [?|(va & Hv & ?)]; [by left|right]. exists va. unfold PGSIZE. split; [lia|done]. }
  exists r, m1, f, h, l'. split; [done|]. destruct Hr as [[-> ->]|(Hr0 & Hpr & ->)]; [by left|right].
  split; [done|]. destruct Hex as [? ? Hfree ? Htab Hframe Hown].
  pose proof (lor_small perm PTE_P Hperm ltac:(done)) as Hfl.
  set (e := Z.lor (Z.lor pa perm) PTE_P). assert (e = Z.lor pa (Z.lor perm PTE_P)) as Ee by (unfold e; by rewrite Z.lor_assoc).
  split.
  { specialize (Hpte a Hva). rewrite Hnone, pte_of_table in Hpte. unfold present in Hpr. rewrite Hpr in Hpte.
    cbv zeta in Hpte. by destruct (bit_of (load32 m1 _) PTE_P). }
  split; [|split].
  - split; try done.
    + destruct Hfree as [Hfree ?]. split; [|done]. eapply freelist_ok_ext; [|exact Hfree]. intros q x Hq Hx.
      apply entry_frame; [done|done|]. eapply free_not_owned; [exact Htab| |exact Hq|exact Hx].
      intros y Hy. by eapply freelist_pages.
    + by apply entry_tables_ok.
    + intros x Hx. rewrite (entry_owned _ _ l') in Hx by done. rewrite entry_frame by done. by apply Hframe.
    + eapply grows_same; [|exact Hown]. intros i Hi. by apply (entry_pde _ _ l').
  - intros i Hi Hpi. apply Hin; [done|]. unfold present in *. by rewrite (entry_pde _ _ l') in Hpi.
  - intros va Hv. rewrite (entry_pte _ _ l') by (first [done | rewrite Ee; apply bit_of_lor | rewrite Ee, lor_page by done; unfold PGSIZE in *; lia]).
    rewrite Hpte by done. unfold mapped. change (PGSIZE * Z.of_nat 1) with PGSIZE.
    destruct (decide (a <= va < a + PGSIZE)) as [Hva'|Hva'].
    + rewrite decide_True by (by apply page_of). unfold e. rewrite Z.div_small by lia. by rewrite Z.add_0_r.
    + rewrite decide_False by (by rewrite page_of). done.
Qed.

Lemma tables_in_le m m' pgdir a e a' (e' : Z) : tables_in m m' pgdir a e -> a' <= a -> e <= e' -> tables_in m m' pgdir a' e'.
Proof. intros Hin ? ? i Hi Hp. destruct (Hin i Hi Hp) as [?|(va & Hv & ?)]; [by left|right]. exists va. split; [lia|done]. Qed.

Lemma map_loop_ok pgdir perm c L b n : forall s a pa last l,
  hw_ok (k_hw s) c L b -> L_kmem ∉ L -> free_pages s l -> tables_ok (k_mem s) pgdir l ->
  range_ok a (S n) -> range_ok pa (S n) -> 0 <= perm < PGSIZE -> last = a + PGSIZE * Z.of_nat n ->
  (forall va, a <= va < a + PGSIZE * Z.of_nat (S n) -> pte_of (k_mem s) pgdir va = None) ->
  exists r m' f h l', map_loop n pgdir a last pa perm s = Done r (after m' f h s) /\
    extends s pgdir l c L b m' f h l' /\ tables_in (k_mem s) m' pgdir a (a + PGSIZE * Z.of_nat (S n)) /\
    exists k : nat, (r = -1 /\ l' = [] /\ (k <= n)%nat \/ r = 0 /\ k = S n) /\
      forall va, 0 <= va < 2 ^ 32 -> pte_of m' pgdir va = mapped (k_mem s) pgdir a k pa perm va.
Proof.
  induction n as [|n IH]; intros s a pa last l Hhw HL Hf Hok Ha Hpa Hperm Hlast Hnone; cbn [map_loop].
  all: assert (range_ok a 1 /\ range_ok pa 1) as [Ha1 Hpa1] by (unfold range_ok, PGSIZE in *; lia).
  all: destruct (map_page_ok s pgdir a pa perm l c L b Hhw HL Hf Hok Ha1 Hpa1 Hperm) as (r & m1 & f & h & l1 & E & Hr);
    [apply Hnone; unfold PGSIZE in *; lia|]; rewrite (bind_done _ _ _ _ _ E).
  all: destruct Hr as [(-> & -> & Hex & Hin & Hsame)|(Hr0 & Hbit & Hex & Hin & Hpte)];
    [exists (-1), m1, f, h, []; split_and!; [done|done|eapply tables_in_le; [exact Hin|lia|unfold PGSIZE; lia]|]; exists 0%nat; split; [left; split_and!; [done|done|lia]|];
     intros va Hv; unfold mapped; rewrite decide_False by lia; by apply Hsame|].
  all: rewrite (proj2 (Z.eqb_neq r 0) Hr0), (bind_done _ _ _ (load32 m1 r) (after m1 f h s)) by done; rewrite Hbit.
  all: set (m2 := store32 r _ m1) in *; rewrite (bind_done _ _ _ tt (after m2 f h s)) by done.
  - replace (a =? last) with true by (symmetry; apply Z.eqb_eq; lia). exists 0, m2, f, h, l1.
    split_and!; [done|done|eapply tables_in_le; [exact Hin|lia|unfold PGSIZE; lia]|]. exists 1%nat. split; [by right|done].
  - replace (a =? last) with false by (symmetry; apply Z.eqb_neq; unfold PGSIZE in *; lia).
    destruct (range_next a n Ha) as [Ha' Ea], (range_next pa n Hpa) as [Hpa' Ep]. rewrite Ea, Ep in *.
    destruct (IH (after m2 f h s) (a + PGSIZE) (pa + PGSIZE) last l1) as (r' & m' & f' & h' & l' & E' & Hex' & Hin' & Hr').
    + apply Hex. + done. + apply Hex. + apply Hex. + done. + done. + done. + unfold PGSIZE in *; lia.
    + intros va Hv. change (k_mem (after m2 f h s)) with m2. assert (0 <= va < 2 ^ 32) by (unfold range_ok, PGSIZE in *; lia).
      rewrite Hpte by done. unfold mapped. rewrite decide_False by (unfold PGSIZE in *; lia). apply Hnone. unfold PGSIZE in *; lia.
    + exists r', m', f', h', l'. split; [exact E'|]. split; [by eapply extends_trans|]. split.
      { intros i Hi Hpi. destruct (Hin' i Hi Hpi) as [Hpi2|(va & Hv & ?)]; [|right; exists va; split; [unfold PGSIZE in *; lia|done]].
        destruct (Hin i Hi Hpi2) as [?|(va & Hv & ?)]; [by left|right; exists va; split; [unfold PGSIZE in *; lia|done]]. }
      destruct Hr' as (k & Hrk & Hpte'). exists (S k). split; [destruct Hrk as [(-> & -> & ?)|[-> ->]]; [left; split_and!; [done|done|lia]|by right]|].
      assert (k <= S n)%nat as Hkn by (destruct Hrk as [(_ & _ & ?)|[_ ->]]; lia). clear Hrk E'. intros va Hv. rewrite Hpte' by done.
      unfold mapped at 1. change (k_mem (after m2 f h s)) with m2. rewrite Hpte by done. unfold mapped, PGSIZE in *.
      destruct (decide (a + 4096 <= va < a + 4096 + 4096 * Z.of_nat k)).
      * rewrite decide_True by lia. do 3 f_equal. replace (va - a) with (va - (a + 4096) + 1 * 4096) by lia. rewrite Z.div_add by lia. lia.
      * destruct (decide (a <= va < a + 4096 * Z.of_nat 1)) as [H1|H1]; [rewrite decide_True by lia|by rewrite decide_False by lia].
        rewrite !Z.div_small by lia. done.
Qed.

(** The pages [mappages] touches. *)
Definition page_count va (size : Z) : nat :=
  S (Z.to_nat ((PGROUNDDOWN (va + size - 1) - PGROUNDDOWN va) / PGSIZE)).

Lemma PGROUNDDOWN_div x : 0 <= x < 2 ^ 32 -> PGROUNDDOWN x = PGSIZE * (x / PGSIZE).
Proof. intros Hx. unfold PGROUNDDOWN. rewrite page_mask, u32_small by done. lia. Qed.

Lemma page_count_spec va size : 0 <= va -> 0 < size -> va + size <= 2 ^ 32 ->
  let a := PGROUNDDOWN va in let n := page_count va size in
  range_ok a n /\ PGROUNDDOWN (va + size - 1) = a + PGSIZE * Z.of_nat (pred n) /\
  Z.to_nat (u32 (PGROUNDDOWN (va + size - 1) - a) / PGSIZE) = pred n.
Proof.
  intros Hva Hsz Hend a n. unfold n, page_count. cbn [pred].
  assert (a = PGSIZE * (va / PGSIZE)) as Ea by (apply PGROUNDDOWN_div; lia).
  assert (PGROUNDDOWN (va + size - 1) = PGSIZE * ((va + size - 1) / PGSIZE)) as El by (apply PGROUNDDOWN_div; lia).
  fold a. assert (va / PGSIZE <= (va + size - 1) / PGSIZE) as Hle by (apply Z.div_le_mono; unfold PGSIZE; lia).
  assert (PGROUNDDOWN (va + size - 1) - a = PGSIZE * ((va + size - 1) / PGSIZE - va / PGSIZE)) as -> by (rewrite El, Ea; lia).
  pose proof (Z.div_mod (va + size - 1) PGSIZE ltac:(done)) as Hd. pose proof (Z.mod_pos_bound (va + size - 1) PGSIZE ltac:(done)) as Hm.
  pose proof (Z.div_pos va PGSIZE Hva ltac:(done)) as Hp.
  set (x := va / PGSIZE) in *. set (y := (va + size - 1) / PGSIZE) in *.
  assert (PGSIZE * (y - x) / PGSIZE = y - x) as Eq by (rewrite Z.mul_comm; by apply Z.div_mul).
  rewrite u32_small by (unfold PGSIZE in *; lia). rewrite Eq. unfold range_ok. split_and!.
  - rewrite Ea, Z.mul_comm. by apply Z.mod_mul.
  - unfold PGSIZE in *. lia.
  - assert (y < 2 ^ 20) as Hy by (apply Z.div_lt_upper_bound; unfold PGSIZE; lia). unfold PGSIZE in *. lia.
  - unfold PGSIZE in *. lia.
  - done.
Qed.

Lemma mappages_ok s pgdir va size pa perm l c L b :
  hw_ok (k_hw s) c L b -> L_kmem ∉ L -> free_pages s l -> tables_ok (k_mem s) pgdir l ->
  0 <= va -> 0 < size -> va + size <= 2 ^ 32 -> range_ok pa (page_count va size) -> 0 <= perm < PGSIZE ->
  (forall va', 0 <= va' < 2 ^ 32 -> PGROUNDDOWN va <= va' < PGROUNDDOWN va + PGSIZE * Z.of_nat (page_count va size) ->
    pte_of (k_mem s) pgdir va' = None) ->
  exists r m' f h l', mappages pgdir va size pa perm s = Done r (after m' f h s) /\
    extends s pgdir l c L b m' f h l' /\ tables_in (k_mem s) m' pgdir (PGROUNDDOWN va) (PGROUNDDOWN va + PGSIZE * Z.of_nat (page_count va size)) /\
    exists k, (r = -1 /\ l' = [] /\ (k < page_count va size)%nat \/ r = 0 /\ k = page_count va size) /\
      forall va', 0 <= va' < 2 ^ 32 -> pte_of m' pgdir va' = mapped (k_mem s) pgdir (PGROUNDDOWN va) k pa perm va'.
Proof.
  intros Hhw HL Hf Hok Hva Hsz Hend Hpa Hperm Hnone.
  destruct (page_count_spec va size Hva Hsz Hend) as (Ha & Hlast & En). unfold mappages. rewrite En.
  destruct (map_loop_ok pgdir perm c L b (pred (page_count va size)) s (PGROUNDDOWN va) pa (PGROUNDDOWN (va + size - 1)) l) as (r & m' & f & h & l' & E & Hex & Hin & k & Hk & Hpte); try done.
  2: { exists r, m', f, h, l'. split; [done|]. split; [done|]. split; [done|]. exists k. split; [|done]. destruct Hk as [(? & ? & ?)|[? ?]]; [left; split_and!; [done|done|unfold page_count in *; lia]|by right]. }
  intros va' Hv. apply Hnone; [|done]. destruct Ha as (_ & ? & ?). unfold page_count in *. lia.
Qed.

(** C21: [mappages] on a well-formed page table in which the pages of the range
    are not mapped: it returns 0 and every page of the range then has exactly
    the entry asked for, or -1 with the free pages exhausted and some of the
    first pages mapped; every other address keeps its entry.  In both cases the
    tables stay well formed (directory and tables distinct pages, none of them
    free), the pages taken from the free list are tables now, and no memory
    outside the page table changes. *)
Theorem mappages_maps s pgdir va size pa perm l c L b :
  hw_ok (k_hw s) c L b -> L_kmem ∉ L -> free_pages s l -> tables_ok (k_mem s) pgdir l ->
  0 <= va -> 0 < size -> va + size <= 2 ^ 32 -> range_ok pa (page_count va size) -> 0 <= perm < PGSIZE ->
  (forall va', 0 <= va' < 2 ^ 32 -> PGROUNDDOWN va <= va' < PGROUNDDOWN va + PGSIZE * Z.of_nat (page_count va size) ->
    pte_of (k_mem s) pgdir va' = None) ->
  exists r m' f h l', mappages pgdir va size pa perm s = Done r (after m' f h s) /\
    extends s pgdir l c L b m' f h l' /\
    exists k, (r = -1 /\ l' = [] /\ (k < page_count va size)%nat \/ r = 0 /\ k = page_count va size) /\
      forall va', 0 <= va' < 2 ^ 32 -> pte_of m' pgdir va' = mapped (k_mem s) pgdir (PGROUNDDOWN va) k pa perm va'.
Proof.
  intros. destruct (mappages_ok s pgdir va size pa perm l c L b) as (r & m' & f & h & l' & ? & ? & _ & ?); [done..|]. by exists r, m', f, h, l'.
Qed.

End code.

(** Two pages of a user program mapped in an empty directory, one table allocated. *)
Lemma demo_tables_ok L : @tables_ok demo_linkage (k_mem (demo_kalloc L)) 0x80302000 [0x80300000; 0x80301000].
Proof.
  assert (forall i, index i -> pde (k_mem (demo_kalloc L)) 0x80302000 i = 0) as Hz.
  { intros i Hi. unfold pde, demo_kalloc, demo_mem, index in *. cbn [k_mem set_k_mem].
    rewrite !load32_store32_ne by lia. done. }
  split; [by vm_compute| | |].
  - rewrite !elem_of_cons, elem_of_nil. lia.
  - intros i Hi Hp. unfold present in Hp. by rewrite Hz in Hp.
  - intros i j Hi Hj Hp. unfold present in Hp. by rewrite Hz in Hp.
Qed.

Lemma mappages_maps_witness :
  let _ := demo_linkage in
  exists r m' f h l', mappages 0x80302000 0x400010 0x1800 0x304000 6 (demo_kalloc []) = Done r (after m' f h (demo_kalloc [])) /\
    extends (demo_kalloc []) 0x80302000 [0x80300000; 0x80301000] 0 [] true m' f h l' /\
    exists k, (r = -1 /\ l' = [] /\ (k < page_count 0x400010 0x1800)%nat \/ r = 0 /\ k = page_count 0x400010 0x1800) /\
      forall va', 0 <= va' < 2 ^ 32 -> pte_of m' 0x80302000 va' = mapped (k_mem (demo_kalloc [])) 0x80302000 (PGROUNDDOWN 0x400010) k 0x304000 6 va'.
Proof.
  intros lk. apply mappages_maps.
  - apply demo_hw_ok, NoDup_nil_2.
  - apply not_elem_of_nil.
  - apply demo_free_pages.
  - apply demo_tables_ok.
  - lia.
  - lia.
  - lia.
  - by vm_compute.
  - by vm_compute.
  - intros va' Hv _. rewrite pte_of_table. unfold pde. destruct (PDX_spec va' Hv) as [_ Hd]. 
    unfold demo_kalloc, demo_mem. cbn [k_mem set_k_mem]. by rewrite !load32_store32_ne by lia.
Defined.
