(* ===== verification/Reclaim.v ===== *)
(** * Giving an address space back ([deallocuvm] and [freevm] of [kernel/vm.c])

    [space_ok] is the shape of an address space: its user pages, its page
    tables and its directory are distinct pages that are not free.  The
    theorems say which pages [deallocuvm] and [freevm] return to the page
    allocator: exactly those of the range, and exactly those of the space. *)
From S2P Require Import Prelude Types Str Spinlock Kalloc Console Vm Paging.

Section space.
Context `{Linkage}.
Implicit Types (m : gmap Z Z) (pgdir v va a i : Z) (l : list Z) (n k : nat).

(** The kernel address of the page at [va]. *)
Definition page_at m pgdir va : option Z := (fun e => P2V (PTE_ADDR e)) <$> pte_of m pgdir va.

(** The pages mapped in the [n] pages of address space from [a], in order. *)
Fixpoint user_pages m pgdir a n : list Z :=
  match n with
  | O => []
  | S n' => option_list (page_at m pgdir a) ++ user_pages m pgdir (a + PGSIZE) n'
  end.

(** The page tables of the directory entries from [i], in order. *)
Fixpoint dir_tables m pgdir i n : list Z :=
  match n with
  | O => []
  | S n' => (if bit_of (pde m pgdir i) PTE_P then [table m pgdir i] else []) ++ dir_tables m pgdir (i + 1) n'
  end.

Definition user va : Prop := 0 <= va < KERNBASE.

Lemma user_range va : user va -> 0 <= va < 2 ^ 32.
Proof. unfold user, KERNBASE. lia. Qed.

Record space_ok m pgdir l : Prop := {
  so_tables : tables_ok m pgdir l;
  so_page : forall va v, user va -> page_at m pgdir va = Some v ->
    page_ok v /\ v <> pgdir /\ (v ∉ l) /\ forall i, index i -> present m pgdir i -> table m pgdir i <> v;
  so_inj : forall va va' v, user va -> user va' -> page_at m pgdir va = Some v -> page_at m pgdir va' = Some v ->
    va / PGSIZE = va' / PGSIZE }.

Lemma user_pages_ext m m' pgdir n : forall a,
  (forall va, a <= va < a + PGSIZE * Z.of_nat n -> page_at m' pgdir va = page_at m pgdir va) ->
  user_pages m' pgdir a n = user_pages m pgdir a n.
Proof.
  induction n as [|n IH]; intros a Hm; cbn [user_pages]; [done|]. unfold PGSIZE in *. rewrite Hm by lia. f_equal.
  apply IH. intros va Hva. apply Hm. lia.
Qed.

Lemma user_pages_none m pgdir n : forall a,
  (forall va, a <= va < a + PGSIZE * Z.of_nat n -> page_at m pgdir va = None) -> user_pages m pgdir a n = [].
Proof.
  induction n as [|n IH]; intros a Hm; cbn [user_pages]; [done|]. unfold PGSIZE in *. rewrite Hm by lia. cbn.
  apply IH. intros va Hva. apply Hm. lia.
Qed.

Lemma user_pages_app m pgdir n k : forall a,
  user_pages m pgdir a (n + k) = user_pages m pgdir a n ++ user_pages m pgdir (a + PGSIZE * Z.of_nat n) k.
Proof.
  induction n as [|n IH]; intros a; cbn [user_pages Nat.add app]; [f_equal; unfold PGSIZE; lia|].
  rewrite IH, <- app_assoc. do 3 f_equal. unfold PGSIZE. lia.
Qed.

Lemma elem_of_user_pages m pgdir v n : forall a,
  v ∈ user_pages m pgdir a n <-> exists k, (k < n)%nat /\ page_at m pgdir (a + PGSIZE * Z.of_nat k) = Some v.
Proof.
  induction n as [|n IH]; intros a; cbn [user_pages].
  { rewrite elem_of_nil. split; [done|]. intros (k & Hk & _). lia. }
  rewrite elem_of_app, IH. split.
  - intros [Hv|(k & Hk & Hv)].
    + exists 0%nat. rewrite Z.mul_0_r, Z.add_0_r. split; [lia|]. destruct (page_at m pgdir a); cbn in Hv; [|by apply elem_of_nil in Hv].
      apply list_elem_of_singleton in Hv. congruence.
    + exists (S k). split; [lia|]. rewrite <- Hv. f_equal. unfold PGSIZE. lia.
  - intros ([|k] & Hk & Hv).
    + left. rewrite Z.mul_0_r, Z.add_0_r in Hv. rewrite Hv. cbn. by left.
    + right. exists k. split; [lia|]. rewrite <- Hv. f_equal. unfold PGSIZE. lia.
Qed.

(** *** Memory that holds the same tables *)
Lemma same_tables_ok m m' pgdir l :
  tables_ok m pgdir l -> (forall i, index i -> pde m' pgdir i = pde m pgdir i) -> tables_ok m' pgdir l.
Proof.
  intros [Hd Hu Ht Hi] Hp. split; [done|done| |]; unfold present, table.
  - intros i Hx. rewrite Hp by done. by apply Ht.
  - intros i j Hx Hy. rewrite !Hp by done. by apply Hi.
Qed.

(** A freed page that is not of the page table. *)
Lemma freed_same m pgdir v l (f : Z) :
  tables_ok m pgdir (v :: l) -> page_ok v ->
  let m1 := freed_mem v f m in
  (forall i, index i -> pde m1 pgdir i = pde m pgdir i) /\ (forall va, 0 <= va < 2 ^ 32 -> pte_of m1 pgdir va = pte_of m pgdir va).
Proof.
  intros [Hd Hu Ht _] [Hvp _] m1. apply not_elem_of_cons in Hu as [Hne _].
  assert (forall q (j : Z), page_ok q -> index j -> q <> v -> load32 m1 (q + 4 * j) = load32 m (q + 4 * j)) as Hl.
  { intros q j Hq Hj Hqv. apply load32_ext. intros x Hx. apply freed_mem_frame.
    destruct (pages_disjoint q v (proj1 Hq) Hvp Hqv); unfold PGSIZE, index in *; lia. }
  assert (forall i, index i -> pde m1 pgdir i = pde m pgdir i) as Hpde by (intros i Hi; by apply Hl).
  split; [done|]. intros va Hva. rewrite !pte_of_table. unfold table. destruct (PDX_spec va Hva) as [_ Hx]. rewrite Hpde by done.
  destruct (bit_of (pde m pgdir (PDX va)) PTE_P) eqn:Ep; [|done]. fold (table m pgdir (PDX va)). cbv zeta.
  destruct (Ht (PDX va) Hx Ep) as (? & _ & Htn). rewrite Hl; [done|done|by apply PTX_spec|]. by apply not_elem_of_cons in Htn as [? _].
Qed.

Lemma same_space_ok m m' pgdir l :
  space_ok m pgdir l -> (forall i, index i -> pde m' pgdir i = pde m pgdir i) ->
  (forall va, 0 <= va < 2 ^ 32 -> pte_of m' pgdir va = pte_of m pgdir va) -> space_ok m' pgdir l.
Proof.
  intros [Ht Hpg Hinj] Hpde Hpte.
  assert (forall va, user va -> page_at m' pgdir va = page_at m pgdir va) as Hp by (intros va Hva; unfold page_at; by rewrite Hpte by (by apply user_range)).
  split; [by eapply same_tables_ok| |].
  - intros va v Hva. rewrite Hp by done. intros Hv. destruct (Hpg va v Hva Hv) as (? & ? & ? & Hvt). split_and!; [done|done|done|].
    intros i Hi. unfold present, table. rewrite Hpde by done. by apply Hvt.
  - intros va va' v Hva Hva'. rewrite !Hp by done. by apply Hinj.
Qed.

(** *** Freeing the page at [a] and clearing its entry *)
Section one_page.
Context m pgdir l a v (f : Z) (Hok : space_ok m pgdir l) (Ha : user a) (Hv : page_at m pgdir a = Some v).
Let m1 := freed_mem v f m.
Let slot := table m pgdir (PDX a) + 4 * PTX a.
Let m' := store32 slot 0 m1.

Lemma page_present : present m pgdir (PDX a).
Proof. unfold page_at in Hv. rewrite pte_of_table in Hv. unfold present. by destruct (bit_of (pde m pgdir (PDX a)) PTE_P). Qed.

Lemma page_used : tables_ok m pgdir (v :: l).
Proof.
  destruct (so_page _ _ _ Hok a v Ha Hv) as (_ & Hvd & _ & Hvt). destruct (so_tables _ _ _ Hok) as [Hd Hu Ht Hi].
  split; [done| | |done].
  - apply not_elem_of_cons. split; [congruence|done].
  - intros i Hx Hp. destruct (Ht i Hx Hp) as (? & ? & ?). split_and!; [done|done|]. apply not_elem_of_cons. split; [by apply Hvt|done].
Qed.

Lemma freed_pde i : index i -> pde m1 pgdir i = pde m pgdir i.
Proof. apply (freed_same m pgdir v l f page_used). by apply (so_page _ _ _ Hok a v Ha Hv). Qed.

Lemma freed_pte va : 0 <= va < 2 ^ 32 -> pte_of m1 pgdir va = pte_of m pgdir va.
Proof. apply (freed_same m pgdir v l f page_used). by apply (so_page _ _ _ Hok a v Ha Hv). Qed.

Lemma freed_tables_ok : tables_ok m1 pgdir (v :: l).
Proof. apply (same_tables_ok m); [exact page_used|exact freed_pde]. Qed.

Lemma cleared_pte va : 0 <= va < 2 ^ 32 ->
  pte_of m' pgdir va = if decide (va / PGSIZE = a / PGSIZE) then None else pte_of m pgdir va.
Proof.
  intros Hva. pose proof (user_range a Ha) as Ha'. destruct (PDX_spec a Ha') as [_ Hd].
  assert (table m1 pgdir (PDX a) = table m pgdir (PDX a)) as Et by (unfold table; by rewrite freed_pde).
  unfold m', slot. rewrite <- Et, (entry_any m1 pgdir (v :: l) a 0 freed_tables_ok Ha'); [|unfold present; rewrite freed_pde by done; apply page_present|done|done].
  case_decide; [done|]. by apply freed_pte.
Qed.

Lemma cleared_page va : 0 <= va < 2 ^ 32 ->
  page_at m' pgdir va = if decide (va / PGSIZE = a / PGSIZE) then None else page_at m pgdir va.
Proof. intros Hva. unfold page_at. rewrite cleared_pte by done. by case_decide. Qed.

Lemma cleared_tables : tables_ok m' pgdir (v :: l) /\ forall i, index i -> pde m' pgdir i = pde m pgdir i.
Proof.
  pose proof (user_range a Ha) as Ha'. destruct (PDX_spec a Ha') as [_ Hd].
  assert (table m1 pgdir (PDX a) = table m pgdir (PDX a)) as Et by (unfold table; by rewrite freed_pde).
  assert (present m1 pgdir (PDX a)) as Hp by (unfold present; rewrite freed_pde by done; apply page_present).
  unfold m', slot. rewrite <- Et. split; [by apply entry_tables_ok; [apply freed_tables_ok|..]|].
  intros i Hi. rewrite (entry_pde m1 pgdir (v :: l) a 0 freed_tables_ok Ha' Hp i Hi). by apply freed_pde.
Qed.

Lemma cleared_space : space_ok m' pgdir (v :: l).
Proof.
  destruct cleared_tables as [Ht Hpde]. destruct Hok as [_ Hpg Hinj].
  assert (forall va w, user va -> page_at m' pgdir va = Some w -> page_at m pgdir va = Some w /\ va / PGSIZE <> a / PGSIZE) as Hold.
  { intros va w Hva. rewrite cleared_page by (by apply user_range). by case_decide. }
  split; [done| |].
  - intros va w Hva Hw. destruct (Hold va w Hva Hw) as [Hw' Hne]. destruct (Hpg va w Hva Hw') as (? & ? & ? & Htab). split_and!; [done|done| |].
    + apply not_elem_of_cons. split; [|done]. intros ->. apply Hne. by apply (Hinj va a v).
    + intros i Hi. unfold present, table. rewrite Hpde by done. by apply Htab.
  - intros va va' w Hva Hva' [Hw _]%Hold [Hw' _]%Hold; [|done|done]. by apply (Hinj va va' w).
Qed.

Lemma cleared_frame x : ~ owned m pgdir x -> ~ v <= x < v + PGSIZE -> load8 m' x = load8 m x.
Proof.
  intros Ho Hx. pose proof (user_range a Ha) as Ha'. destruct (PTX_spec a Ha') as [_ Ht].
  unfold m', slot. rewrite load8_store32, decide_False; [by apply freed_mem_frame|]. intros Hin. apply Ho. right.
  exists (PDX a). split_and!; [by apply PDX_spec..|apply page_present| |]; unfold PGSIZE; lia.
Qed.

Lemma cleared_free s : k_mem s = m -> k_freelist s = f -> free_pages s l -> freelist_ok m' v (v :: l) /\ NoDup (v :: l).
Proof.
  intros Em Ef Hf. destruct (so_page _ _ _ Hok a v Ha Hv) as (Hvp & _ & Hvl & _).
  destruct (freed_list s v l Hf Hvp Hvl) as [Hf1 Hnd]. split; [|done].
  cbn [k_mem k_freelist set_k_freelist upd_mem set_k_mem] in Hf1. rewrite Em, Ef in Hf1. fold m1 in Hf1.
  eapply freelist_ok_ext; [|exact Hf1]. intros q x Hq Hx. unfold m'. rewrite load8_store32, decide_False; [done|]. intros Hin.
  pose proof (user_range a Ha) as Ha'. destruct (PTX_spec a Ha') as [_ Ht].
  apply (free_not_owned m1 pgdir (v :: l) x q freed_tables_ok); [|done|done|].
  - intros y Hy. by eapply (freelist_pages _ (v :: l)).
  - right. exists (PDX a). unfold present, table. rewrite freed_pde by (by apply PDX_spec).
    split_and!; [by apply PDX_spec..|apply page_present| |]; unfold slot, table in Hin; unfold PGSIZE; lia.
Qed.

End one_page.
End space.

(** ** [deallocuvm] *)
Section dealloc.
Context `{Linkage} (pgdir : Z) (c : nat) (L : list lockid) (b : bool).
Implicit Types (s : kernel) (m : gmap Z Z) (v va a oldsz newsz lo hi : Z) (l F : list Z) (n k : nat).

(** The state after [F] were freed and the entries from [lo] to [hi] cleared. *)
Record frees s lo hi l F m' (f : Z) (h : hw) : Prop := {
  fr_hw : hw_ok h c L b /\ hw_id h = hw_id (k_hw s);
  fr_free : freelist_ok m' f (reverse F ++ l) /\ NoDup (reverse F ++ l);
  fr_space : space_ok m' pgdir (reverse F ++ l);
  fr_pde : forall i, index i -> pde m' pgdir i = pde (k_mem s) pgdir i;
  fr_pte : forall va, 0 <= va < 2 ^ 32 -> pte_of m' pgdir va = if decide (lo <= va < hi) then None else pte_of (k_mem s) pgdir va;
  fr_frame : forall x, ~ owned (k_mem s) pgdir x -> (forall v, v ∈ F -> ~ v <= x < v + PGSIZE) -> load8 m' x = load8 (k_mem s) x }.

Lemma frees_none s lo hi l :
  hw_ok (k_hw s) c L b -> free_pages s l -> space_ok (k_mem s) pgdir l -> hi <= lo ->
  frees s lo hi l [] (k_mem s) (k_freelist s) (k_hw s).
Proof. intros ? [? ?] ? ?. split; [done..| |done]. intros va _. by rewrite decide_False by lia. Qed.

Lemma frees_skip s lo mid hi l F m' f h :
  lo <= mid -> (forall va, 0 <= va < 2 ^ 32 -> lo <= va < mid -> pte_of (k_mem s) pgdir va = None) ->
  frees s mid hi l F m' f h -> frees s lo hi l F m' f h.
Proof.
  intros Hlo Hn [? ? ? ? Hpte ?]. split; [done..| |done]. intros va Hva. rewrite Hpte by done.
  destruct (decide (mid <= va < hi)); [by rewrite decide_True by lia|]. case_decide; [|done]. apply Hn; [done|lia].
Qed.

Lemma frees_end s lo hi hi' l F m' f h :
  hi' = hi \/ hi <= lo /\ hi' <= lo -> frees s lo hi l F m' f h -> frees s lo hi' l F m' f h.
Proof.
  intros Hhi [? ? ? ? Hpte ?]. split; [done..| |done]. intros va Hva. rewrite Hpte by done.
  destruct (decide (lo <= va < hi)); [by rewrite decide_True by lia|by rewrite decide_False by lia].
Qed.

Lemma frees_cons s a hi l v F m' f h m1 h1 :
  user a -> a mod PGSIZE = 0 -> page_at (k_mem s) pgdir a = Some v -> space_ok (k_mem s) pgdir l -> a + PGSIZE <= hi ->
  m1 = store32 (table (k_mem s) pgdir (PDX a) + 4 * PTX a) 0 (freed_mem v (k_freelist s) (k_mem s)) -> hw_id h1 = hw_id (k_hw s) ->
  frees (after m1 v h1 s) (a + PGSIZE) hi (v :: l) F m' f h -> frees s a hi l (v :: F) m' f h.
Proof.
  intros Ha Hal Hv Hok Hhi Em Hid [[Hhw Hid'] [? ?] Hsp Hpde Hpte Hfr]. cbn in Hid', Hpde, Hpte, Hfr.
  destruct (cleared_tables (k_mem s) pgdir l a v (k_freelist s) Hok Ha Hv) as [_ Hpde1]. rewrite <- Em in Hpde1.
  assert (reverse (v :: F) ++ l = reverse F ++ v :: l) as E by (by rewrite reverse_cons, <- app_assoc).
  split; rewrite ?E; [split; [done|congruence]|done|done| | |].
  - intros i Hi. rewrite Hpde, Hpde1; done.
  - intros va Hva. rewrite Hpte by done. rewrite Em, (cleared_pte (k_mem s) pgdir l a v _ Hok Ha Hv va Hva).
    destruct (page_of a va Hal) as [Hp1 Hp2]. repeat case_decide; try done; try (exfalso; lia); exfalso; unfold PGSIZE in *; naive_solver lia.
  - intros x Hx HF. rewrite Hfr.
    + rewrite Em. apply (cleared_frame (k_mem s) pgdir a v _ Ha Hv); [done|]. apply HF. by left.
    + intros Ho. apply Hx. destruct Ho as [Ho|(i & Hi & Hp & Ho)]; [by left|]. right. exists i.
      unfold present, table in *. by rewrite Hpde1 in * by done.
    + intros w Hw. apply HF. by right.
Qed.

(** The entry [walkpgdir] finds without allocating. *)
Lemma walkpgdir_look s va :
  walkpgdir pgdir va false s =
    Done (if bit_of (pde (k_mem s) pgdir (PDX va)) PTE_P then table (k_mem s) pgdir (PDX va) + 4 * PTX va else 0) s.
Proof.
  unfold walkpgdir. rewrite (bind_done _ _ _ (pde (k_mem s) pgdir (PDX va)) s) by done. by destruct (bit_of _ _).
Qed.

(** The address at which [deallocuvm] goes on when a page table is absent. *)
Lemma next_table a : user a -> u32 (u32 (PGADDR (PDX a + 1) 0 0 - PGSIZE) + PGSIZE) = (a / 2 ^ 22 + 1) * 2 ^ 22.
Proof.
  intros Ha. destruct (PDX_spec a (user_range a Ha)) as [-> _]. unfold PGADDR, user, KERNBASE in *. rewrite !Z.lor_0_r, Z.shiftl_mul_pow2 by lia.
  rewrite u32_add_l. replace (u32 _ - PGSIZE + PGSIZE) with (u32 ((a / 2 ^ 22 + 1) * 2 ^ 22)) by lia. rewrite u32_u32, u32_small; [done|].
  pose proof (Z.div_pos a (2 ^ 22)). assert (a / 2 ^ 22 < 2 ^ 9) by (apply Z.div_lt_upper_bound; lia). lia.
Qed.

Lemma absent_table s a va : user a -> bit_of (pde (k_mem s) pgdir (PDX a)) PTE_P = false ->
  0 <= va < 2 ^ 32 -> a <= va < (a / 2 ^ 22 + 1) * 2 ^ 22 -> pte_of (k_mem s) pgdir va = None.
Proof.
  intros Ha Hp Hva Hr. rewrite pte_of_table. destruct (PDX_spec a (user_range a Ha)) as [Ea _], (PDX_spec va Hva) as [Ev _].
  assert (PDX va = PDX a) as ->; [|by rewrite Hp]. rewrite Ea, Ev.
  pose proof (Z.div_mod a (2 ^ 22) ltac:(lia)). pose proof (Z.div_mod va (2 ^ 22) ltac:(lia)).
  pose proof (Z.mod_pos_bound a (2 ^ 22) ltac:(lia)). pose proof (Z.mod_pos_bound va (2 ^ 22) ltac:(lia)). lia.
Qed.

(** The next page table starts [j] pages after [a]. *)
Lemma table_boundary a : user a -> a mod PGSIZE = 0 ->
  let a' := (a / 2 ^ 22 + 1) * 2 ^ 22 in exists j, (0 < j)%nat /\ a' = a + PGSIZE * Z.of_nat j /\ a' mod PGSIZE = 0.
Proof.
  intros [Ha0 _] Ha a'. pose proof (Z.div_mod a (2 ^ 22) ltac:(lia)). pose proof (Z.mod_pos_bound a (2 ^ 22) ltac:(lia)).
  assert (a' mod PGSIZE = 0) as Ha' by (unfold a', PGSIZE; replace (2 ^ 22) with (2 ^ 10 * 4096) by lia; rewrite Z.mul_assoc; by apply Z.mod_mul).
  unfold PGSIZE in *. pose proof (Z.div_mod a 4096 ltac:(lia)). pose proof (Z.div_mod a' 4096 ltac:(lia)).
  exists (Z.to_nat (a' / 4096 - a / 4096)). split_and!; [|rewrite Z2Nat.id|done]; unfold a' in *; lia.
Qed.

Lemma same_page_pte m va va' : 0 <= va < 2 ^ 32 -> 0 <= va' < 2 ^ 32 -> va / PGSIZE = va' / PGSIZE -> pte_of m pgdir va = pte_of m pgdir va'.
Proof. intros Hva Hva' E. apply indices_page in E as [E1 E2]; [|done|done]. by rewrite !pte_of_table, E1, E2. Qed.

(** The loop from [a] with [k] pages before [oldsz]. *)
Definition pages_left a oldsz k : Prop :=
  oldsz <= a + PGSIZE * Z.of_nat k /\ (k <> 0%nat -> a + PGSIZE * (Z.of_nat k - 1) < oldsz).

Lemma page_at_pte m va : page_at m pgdir va = None <-> pte_of m pgdir va = None.
Proof. unfold page_at. by destruct (pte_of m pgdir va). Qed.

(** One round of the loop: the statement that computes the next [a] less a page. *)
Definition dealloc_round pte a : K Z :=
  if pte =? 0 then ret (u32 (PGADDR (PDX a + 1) 0 0 - PGSIZE))
  else
    e <- gets (fun s => load32 (k_mem s) pte) ;;
    whenm (bit_of e PTE_P)
      (let pa := PTE_ADDR e in
       if pa =? 0 then panic "kfree" else
       kfree (P2V pa) ;;
       modify (upd_mem (store32 pte 0))) ;;
    ret a.

Lemma round_mapped s l a :
  hw_ok (k_hw s) c L b -> L_kmem ∉ L -> free_pages s l -> space_ok (k_mem s) pgdir l -> user a ->
  bit_of (pde (k_mem s) pgdir (PDX a)) PTE_P = true ->
  let pte := table (k_mem s) pgdir (PDX a) + 4 * PTX a in
  match page_at (k_mem s) pgdir a with
  | Some v => let m1 := store32 pte 0 (freed_mem v (k_freelist s) (k_mem s)) in
      exists h, dealloc_round pte a s = Done a (after m1 v h s) /\ hw_ok h c L b /\ hw_id h = hw_id (k_hw s) /\
        free_pages (after m1 v h s) (v :: l) /\ space_ok m1 pgdir (v :: l)
  | None => dealloc_round pte a s = Done a s
  end.
Proof.
  intros Hhw HL Hf Hok Ha Hp pte. destruct (PTX_spec a (user_range a Ha)) as [_ Ht], (PDX_spec a (user_range a Ha)) as [_ Hd].
  destruct (to_table _ _ _ (so_tables _ _ _ Hok) _ Hd Hp) as (Htp & _ & _). destruct (page_range _ Htp) as [Htr _].
  assert (page_at (k_mem s) pgdir a = if bit_of (load32 (k_mem s) pte) PTE_P then Some (P2V (PTE_ADDR (load32 (k_mem s) pte))) else None) as Epg
    by (unfold page_at; rewrite pte_of_table, Hp; cbv zeta; fold pte; by destruct (bit_of (load32 (k_mem s) pte) PTE_P)).
  unfold dealloc_round. rewrite (proj2 (Z.eqb_neq pte 0)) by (unfold pte, KERNBASE in *; lia).
  rewrite (bind_done _ _ _ (load32 (k_mem s) pte) s) by done.
  destruct (bit_of (load32 (k_mem s) pte) PTE_P) eqn:Ee; rewrite Epg; [|done]. cbv zeta. set (v := P2V _) in *.
  destruct (so_page _ _ _ Hok a v Ha Epg) as (Hvp & _ & Hvl & _). destruct (page_range v Hvp) as [Hvr _].
  rewrite (proj2 (Z.eqb_neq _ 0)) by (unfold v, P2V, KERNBASE in *; intros E0; rewrite E0 in Hvr; revert Hvr; vm_compute; intuition congruence).
  destruct (kfree_ok s v l c L b Hhw HL Hf Hvp Hvl) as (h & E & Hh & Hid). exists h. split_and!; [|done|done| |].
  - unfold whenm, bind. rewrite E. done.
  - destruct (cleared_free (k_mem s) pgdir l a v (k_freelist s) Hok Ha Epg s eq_refl eq_refl Hf) as [? ?]. by split.
  - by apply cleared_space.
Qed.

Lemma skipped_pages m a a' k j :
  a' = a + PGSIZE * Z.of_nat j ->
  (forall va, a <= va < a' /\ va < a + PGSIZE * Z.of_nat k -> page_at m pgdir va = None) ->
  user_pages m pgdir a k = user_pages m pgdir a' (k - j).
Proof.
  intros -> Hn. destruct (Nat.le_ge_cases j k) as [Hjk|Hjk].
  - replace k with (j + (k - j))%nat at 1 by lia. rewrite user_pages_app, (user_pages_none _ _ j); [done|].
    intros va Hva. apply Hn. unfold PGSIZE in *. lia.
  - replace (k - j)%nat with 0%nat by lia. cbn. apply user_pages_none. intros va Hva. apply Hn. unfold PGSIZE in *. lia.
Qed.

Lemma dealloc_loop_ok oldsz n : oldsz <= KERNBASE -> forall k a s l,
  hw_ok (k_hw s) c L b -> L_kmem ∉ L -> free_pages s l -> space_ok (k_mem s) pgdir l ->
  0 <= a -> a mod PGSIZE = 0 -> pages_left a oldsz k -> (k <= n)%nat ->
  exists m' f h, dealloc_loop n pgdir a oldsz s = Done tt (after m' f h s) /\
    frees s a (a + PGSIZE * Z.of_nat k) l (user_pages (k_mem s) pgdir a k) m' f h.
Proof.
  intros Hold. induction n as [|n IH]; intros k a s l Hhw HL Hf Hok Ha0 Hal [Hk Hk'] Hkn; cbn [dealloc_loop].
  all: destruct k as [|k]; [rewrite (proj2 (Z.ltb_ge _ _)) by lia; exists (k_mem s), (k_freelist s), (k_hw s); split; [by destruct s|apply frees_none; try done; lia]|].
  { lia. }
  assert (user a) as Ha by (unfold user, PGSIZE in *; lia). pose proof (user_range a Ha) as Har.
  rewrite (proj2 (Z.ltb_lt _ _)) by (unfold PGSIZE in *; lia). cbn [negb].
  rewrite (bind_done _ _ _ _ _ (walkpgdir_look s a)).
  destruct (PDX_spec a Har) as [_ Hd], (PTX_spec a Har) as [_ Ht].
  set (pte := if bit_of _ _ then _ else _). fold (dealloc_round pte a). unfold pte. clear pte.
  destruct (bit_of (pde (k_mem s) pgdir (PDX a)) PTE_P) eqn:Ep.
  - pose proof (round_mapped s l a Hhw HL Hf Hok Ha Ep) as Hr. cbv zeta in Hr.
    assert (pages_left (a + PGSIZE) oldsz k) as Hleft by (unfold pages_left, PGSIZE in *; lia).
    assert ((a + PGSIZE) mod PGSIZE = 0) as Hal' by (by rewrite <- Z.add_mod_idemp_r, Z.mod_same, Z.add_0_r by (unfold PGSIZE; lia)).
    assert (u32 (a + PGSIZE) = a + PGSIZE) as Eu by (apply u32_small; unfold user, KERNBASE, PGSIZE in *; lia).
    assert (a + PGSIZE * Z.of_nat (S k) = a + PGSIZE + PGSIZE * Z.of_nat k) as Eh by (unfold PGSIZE; lia).
    cbn [user_pages]. rewrite Eh. destruct (page_at (k_mem s) pgdir a) as [v|] eqn:Ev.
    + destruct Hr as (h & E & Hh & Hid & Hf1 & Hok1). rewrite (bind_done _ _ _ _ _ E), Eu. set (m1 := store32 _ _ _) in *.
      destruct (IH k (a + PGSIZE) (after m1 v h s) (v :: l)) as (m' & f & h' & E' & Hfr); [done..|unfold PGSIZE; lia|done|done|lia|].
      exists m', f, h'. split; [exact E'|]. eapply frees_cons; [done|done|done|done|unfold PGSIZE; lia|reflexivity|exact Hid|].
      rewrite (user_pages_ext (k_mem s)) in Hfr; [exact Hfr|]. intros va Hva. change (page_at m1 pgdir va = page_at (k_mem s) pgdir va).
      unfold m1. rewrite (cleared_page (k_mem s) pgdir l a v (k_freelist s) Hok Ha Ev) by (unfold KERNBASE, PGSIZE in *; lia).
      rewrite decide_False; [done|]. rewrite page_of by done. lia.
    + rewrite (bind_done _ _ _ _ _ Hr), Eu. destruct (IH k (a + PGSIZE) s l) as (m' & f & h' & E' & Hfr); [done..|unfold PGSIZE; lia|done|done|lia|].
      exists m', f, h'. split; [exact E'|]. eapply frees_skip; [..|exact Hfr]; [unfold PGSIZE; lia|]. intros va Hva Hr'.
      rewrite (same_page_pte _ va a) by (done || by apply page_of). by apply page_at_pte.
  - unfold dealloc_round. rewrite (bind_done _ _ _ (u32 (PGADDR (PDX a + 1) 0 0 - PGSIZE)) s) by done. rewrite next_table by done.
    destruct (table_boundary a Ha Hal) as (j & Hj & Ej & Hmod). set (a' := (a / 2 ^ 22 + 1) * 2 ^ 22) in *.
    pose proof (fun va Hva Hr => absent_table s a va Ha Ep Hva Hr) as Habs. fold a' in Habs.
    destruct (IH (S k - j)%nat a' s l) as (m' & f & h' & E' & Hfr); try done; [unfold PGSIZE in *; lia|unfold pages_left, PGSIZE in *; lia|lia|].
    exists m', f, h'. split; [exact E'|].
    rewrite (skipped_pages (k_mem s) a a' (S k) j Ej) by (intros va Hva; apply page_at_pte, Habs; unfold KERNBASE, user, PGSIZE in *; lia).
    apply (frees_skip s a a'); [unfold PGSIZE in *; lia|done|]. eapply frees_end; [|exact Hfr]. unfold PGSIZE in *; lia.
Qed.

(** The pages of a range that ends at [oldsz]. *)
Definition range_pages a oldsz : nat := Z.to_nat ((oldsz - a + PGSIZE - 1) / PGSIZE).

Lemma range_pages_left a oldsz : pages_left a oldsz (range_pages a oldsz).
Proof.
  unfold pages_left, range_pages, PGSIZE. destruct (Z.le_gt_cases oldsz a) as [Ho|Ho].
  - assert ((oldsz - a + 4096 - 1) / 4096 <= 0) as Hq by (apply Z.lt_succ_r, Z.div_lt_upper_bound; lia).
    rewrite (Z2Nat.nonpos _ Hq). split; [lia|done].
  - pose proof (Z.div_mod (oldsz - a + 4096 - 1) 4096 ltac:(lia)). pose proof (Z.mod_pos_bound (oldsz - a + 4096 - 1) 4096 ltac:(lia)).
    rewrite Z2Nat.id by (apply Z.div_pos; lia). lia.
Qed.

Lemma deallocuvm_ok s oldsz newsz l :
  hw_ok (k_hw s) c L b -> L_kmem ∉ L -> free_pages s l -> space_ok (k_mem s) pgdir l ->
  0 <= newsz < oldsz -> oldsz <= KERNBASE ->
  let a := PGROUNDUP newsz in let k := range_pages a oldsz in
  exists m' f h, deallocuvm pgdir oldsz newsz s = Done newsz (after m' f h s) /\
    frees s a (a + PGSIZE * Z.of_nat k) l (user_pages (k_mem s) pgdir a k) m' f h.
Proof.
  intros Hhw HL Hf Hok Hn Ho a k. unfold deallocuvm. rewrite (proj2 (Z.leb_gt _ _)) by lia.
  destruct (PGROUNDUP_spec newsz) as [Hr1 Hr2]; [unfold KERNBASE, PGSIZE in *; lia|]. fold a in Hr1, Hr2.
  destruct (dealloc_loop_ok oldsz (S (Z.to_nat (oldsz / PGSIZE))) Ho k a s l) as (m' & f & h & E & Hfr); try done.
  - lia.
  - apply range_pages_left.
  - assert ((oldsz - a + PGSIZE - 1) / PGSIZE <= oldsz / PGSIZE + 1) as Hd.
    { rewrite <- Z.div_add by done. apply Z.div_le_mono; unfold PGSIZE; lia. }
    unfold k, range_pages. pose proof (Z.div_pos oldsz PGSIZE ltac:(lia) ltac:(done)). lia.
  - exists m', f, h. by rewrite (bind_done _ _ _ _ _ E).
Qed.

(** ** [freevm] *)

(** The directory and its tables from entry [i] on, while they are freed. *)
Record tables_left m (i : Z) l : Prop := {
  tl_dir : page_ok pgdir /\ pgdir ∉ l;
  tl_table : forall j, i <= j < 1024 -> present m pgdir j ->
    page_ok (table m pgdir j) /\ table m pgdir j <> pgdir /\ (table m pgdir j ∉ l);
  tl_inj : forall j j', i <= j < 1024 -> i <= j' < 1024 -> present m pgdir j -> present m pgdir j' ->
    table m pgdir j = table m pgdir j' -> j = j' }.

Lemma dir_tables_ext m m' n : forall i,
  (forall j, i <= j < i + Z.of_nat n -> pde m' pgdir j = pde m pgdir j) -> dir_tables m' pgdir i n = dir_tables m pgdir i n.
Proof.
  induction n as [|n IH]; intros i Hm; cbn [dir_tables]; [done|]. unfold table. rewrite Hm by lia. f_equal. apply IH. intros j Hj. apply Hm. lia.
Qed.

(** Freeing the table of entry [i]. *)
Lemma freed_left m i l f :
  0 <= i < 1024 -> tables_left m i l -> present m pgdir i ->
  let m1 := freed_mem (table m pgdir i) f m in
  tables_left m1 (i + 1) (table m pgdir i :: l) /\ forall j, 0 <= j < 1024 -> pde m1 pgdir j = pde m pgdir j.
Proof.
  intros Hi [[Hd Hdl] Ht Hinj] Hp m1. destruct (Ht i) as ([Hta _] & Htd & Htl); [lia|done|].
  assert (forall j, 0 <= j < 1024 -> pde m1 pgdir j = pde m pgdir j) as Hpde.
  { intros j Hj. apply load32_ext. intros x Hx. apply freed_mem_frame.
    destruct (pages_disjoint pgdir (table m pgdir i) (proj1 Hd) Hta); [congruence|..]; unfold PGSIZE in *; lia. }
  split; [|done]. split; unfold present, table.
  - split; [done|]. apply not_elem_of_cons. split; [|done]. fold (table m pgdir i). congruence.
  - intros j Hj. rewrite Hpde by lia. intros Hpj. destruct (Ht j) as (? & ? & ?); [lia|done|]. split_and!; [done|done|].
    apply not_elem_of_cons. split; [|done]. intros E. assert (j = i) by (apply Hinj; [lia|lia|done|done|exact E]). lia.
  - intros j j' Hj Hj'. rewrite !Hpde by lia. apply Hinj; lia.
Qed.

Lemma free_tables_ok n : forall i s l,
  hw_ok (k_hw s) c L b -> L_kmem ∉ L -> free_pages s l -> tables_left (k_mem s) i l -> 0 <= i -> i + Z.of_nat n = 1024 ->
  let T := dir_tables (k_mem s) pgdir i n in
  exists m' f h, free_tables n pgdir i s = Done tt (after m' f h s) /\
    hw_ok h c L b /\ hw_id h = hw_id (k_hw s) /\ freelist_ok m' f (reverse T ++ l) /\ NoDup (reverse T ++ l) /\
    (pgdir ∉ reverse T ++ l) /\ forall x, (forall v, v ∈ T -> ~ v <= x < v + PGSIZE) -> load8 m' x = load8 (k_mem s) x.
Proof.
  induction n as [|n IH]; intros i s l Hhw HL Hf Hleft Hi Hn T; cbn [free_tables].
  { exists (k_mem s), (k_freelist s), (k_hw s). split; [by destruct s|]. split_and!; try done; [apply Hf..|apply Hleft]. }
  rewrite (bind_done _ _ _ (pde (k_mem s) pgdir i) s) by done. unfold T. cbn [dir_tables].
  destruct (bit_of (pde (k_mem s) pgdir i) PTE_P) eqn:Ep.
  - destruct (tl_table _ _ _ Hleft i) as (Htp & _ & Htl); [lia|done|]. set (v := table (k_mem s) pgdir i) in *.
    destruct (kfree_ok s v l c L b Hhw HL Hf Htp Htl) as (h & E & Hh & Hid). unfold whenm. fold (table (k_mem s) pgdir i). fold v.
    rewrite (bind_done _ _ _ _ _ E). set (m1 := freed_mem v (k_freelist s) (k_mem s)) in *.
    destruct (freed_left (k_mem s) i l (k_freelist s) ltac:(lia) Hleft Ep) as [Hleft' Hpde]. fold v m1 in Hleft', Hpde.
    destruct (IH (i + 1) (after m1 v h s) (v :: l)) as (m' & f & h' & E' & Hh' & Hid' & Hf' & Hnd & Hdir & Hfr); try done; [|lia|lia|].
    { by apply (freed_list s v l). }
    change (k_mem (after m1 v h s)) with m1 in *. rewrite (dir_tables_ext (k_mem s) m1) in * by (intros; apply Hpde; lia).
    set (T' := dir_tables (k_mem s) pgdir (i + 1) n) in *. assert (reverse ([v] ++ T') ++ l = reverse T' ++ v :: l) as ->
      by (by rewrite reverse_app, <- app_assoc).
    exists m', f, h'. split_and!; try done; [by rewrite Hid'|]. intros x Hx. rewrite Hfr by (intros w Hw; apply Hx; by right).
    apply freed_mem_frame, Hx. by left.
  - cbn [whenm]. destruct (IH (i + 1) s l) as (m' & f & h' & E' & Hrest); try done; [|lia|lia|by exists m', f, h'].
    destruct Hleft as [? Ht Hinj]. split; [done|intros j Hj; apply Ht; lia|intros j j' Hj Hj'; apply Hinj; lia].
Qed.

Lemma elem_of_dir_tables m n j : forall i, i <= j < i + Z.of_nat n -> present m pgdir j -> table m pgdir j ∈ dir_tables m pgdir i n.
Proof.
  induction n as [|n IH]; intros i Hj Hp; [lia|]. cbn [dir_tables]. apply elem_of_app.
  destruct (Z.eq_dec i j) as [->|]; [left|right; apply IH; [lia|done]]. unfold present in Hp. rewrite Hp. by left.
Qed.

Definition space_pages m : list Z :=
  pgdir :: reverse (dir_tables m pgdir 0 NPDENTRIES) ++ reverse (user_pages m pgdir 0 (Z.to_nat (KERNBASE / PGSIZE))).

Lemma space_pages_same m m' :
  (forall i, index i -> pde m' pgdir i = pde m pgdir i) -> (forall va, 0 <= va < 2 ^ 32 -> pte_of m' pgdir va = pte_of m pgdir va) ->
  space_pages m' = space_pages m.
Proof.
  intros Hpde Hpte. unfold space_pages. f_equal. f_equal; f_equal; [apply dir_tables_ext; exact Hpde|].
  apply user_pages_ext. intros va Hva. unfold page_at. rewrite Hpte; [done|].
  rewrite Z2Nat.id in Hva by (by vm_compute). change (0 + PGSIZE * (KERNBASE / PGSIZE)) with 0x80000000 in Hva. lia.
Qed.

Lemma freevm_ok s l :
  hw_ok (k_hw s) c L b -> L_kmem ∉ L -> free_pages s l -> space_ok (k_mem s) pgdir l ->
  exists m' f h, freevm pgdir s = Done tt (after m' f h s) /\ hw_ok h c L b /\ hw_id h = hw_id (k_hw s) /\
    free_pages (after m' f h s) (space_pages (k_mem s) ++ l) /\
    forall x, (forall v, v ∈ space_pages (k_mem s) -> ~ v <= x < v + PGSIZE) -> load8 m' x = load8 (k_mem s) x.
Proof.
  intros Hhw HL Hf Hok. unfold space_pages. set (U := user_pages _ _ _ _). set (T := dir_tables _ _ _ _).
  destruct (to_dir _ _ _ (so_tables _ _ _ Hok)) as [Hdal Hdr] eqn:Hd. clear Hd. pose proof kend_range as Hkend.
  unfold freevm. rewrite (proj2 (Z.eqb_neq pgdir 0)) by (unfold KERNLINK, KERNBASE, EXTMEM in *; lia).
  assert (0 <= 0 < KERNBASE) as HK by (unfold KERNBASE; lia).
  destruct (deallocuvm_ok s KERNBASE 0 l Hhw HL Hf Hok HK (Z.le_refl _)) as (m1 & f1 & h1 & E1 & [[Hh1 Hid1] Hf1 Hok1 Hpde1 _ Hfr1]).
  rewrite (bind_done _ _ _ _ _ E1). change (PGROUNDUP 0) with 0 in *.
  assert (range_pages 0 KERNBASE = Z.to_nat (KERNBASE / PGSIZE)) as ER by (unfold range_pages; f_equal; reflexivity).
  rewrite ER in *. fold U in Hf1, Hok1, Hfr1.
  assert (tables_left m1 0 (reverse U ++ l)) as Hleft.
  { destruct Hok1 as [[? ? Ht Hi] _ _]. split; [split; assumption|intros j Hj; apply Ht; exact Hj|intros j j' Hj Hj'; apply Hi; assumption]. }
  destruct (free_tables_ok NPDENTRIES 0 (after m1 f1 h1 s) (reverse U ++ l) Hh1 HL Hf1 Hleft (Z.le_refl _) eq_refl)
    as (m2 & f2 & h2 & E2 & Hh2 & Hid2 & Hf2 & Hnd2 & Hd2 & Hfr2).
  rewrite (bind_done _ _ _ _ _ E2). change (k_mem (after m1 f1 h1 s)) with m1 in *.
  rewrite (dir_tables_ext (k_mem s) m1) in * by (intros j Hj; apply Hpde1; exact Hj). fold T in Hf2, Hnd2, Hd2, Hfr2.
  assert (forall i, index i -> present (k_mem s) pgdir i -> table (k_mem s) pgdir i ∈ T) as HT by (intros i Hi Hp; by apply elem_of_dir_tables).
  clearbody U T. clear ER.
  assert (free_pages (after m2 f2 h2 s) (reverse T ++ reverse U ++ l)) as Hfp by (split; assumption).
  destruct (kfree_ok (after m2 f2 h2 s) pgdir _ c L b Hh2 HL Hfp) as (h3 & E3 & Hh3 & Hid3); [split; assumption|assumption|].
  exists (freed_mem pgdir f2 m2), pgdir, h3. split; [exact E3|]. split_and!; [assumption|exact (eq_trans Hid3 (eq_trans Hid2 Hid1))|..].
  - rewrite <- app_comm_cons, <- app_assoc. by apply (freed_list (after m2 f2 h2 s)).
  - intros x Hx. rewrite freed_mem_frame by (apply Hx; by left). rewrite Hfr2, Hfr1; [done|..].
    + intros [Ho|(i & Hi & Hp & Ho)]; [apply (Hx pgdir); [by left|done]|]. apply (Hx (table (k_mem s) pgdir i)); [|done].
      right. apply elem_of_app. left. by apply elem_of_reverse, HT.
    + intros v Hv. apply Hx. right. apply elem_of_app. right. by apply elem_of_reverse.
    + intros v Hv. apply Hx. right. apply elem_of_app. left. by apply elem_of_reverse.
Qed.

End dealloc.

(** ** The main property *)

(** C12: [freevm] gives a whole address space back to the page allocator: the
    directory, every page table and every page mapped in the user part are on
    the free list afterwards, once each, in front of the pages that were free;
    no byte outside the pages of the space changes. *)
Theorem freevm_frees `{Linkage} s pgdir l c L b :
  hw_ok (k_hw s) c L b -> L_kmem ∉ L -> free_pages s l -> space_ok (k_mem s) pgdir l ->
  exists m' f h, freevm pgdir s = Done tt (after m' f h s) /\ hw_ok h c L b /\
    free_pages (after m' f h s) (space_pages pgdir (k_mem s) ++ l) /\
    forall x, (forall v, v ∈ space_pages pgdir (k_mem s) -> ~ v <= x < v + PGSIZE) -> load8 m' x = load8 (k_mem s) x.
Proof.
  intros Hhw HL Hf Hok. destruct (freevm_ok pgdir c L b s l Hhw HL Hf Hok) as (m' & f & h & E & Hh & _ & Hp & Hx).
  exists m', f, h. exact (conj E (conj Hh (conj Hp Hx))).
Qed.

(** An address space with one page, at address 0. *)
Definition demo_space : kernel :=
  set_k_mem (store32 0x80303000 0x304007 (store32 0x80302000 0x303007 demo_mem)) (demo_kalloc []).

Lemma demo_space_entry : let m := k_mem demo_space in
  (forall i, index i -> pde m 0x80302000 i = if decide (i = 0) then 0x303007 else 0) /\
  (forall j, index j -> load32 m (0x80303000 + 4 * j) = if decide (j = 0) then 0x304007 else 0).
Proof.
  assert (forall x, 0x80302000 <= x -> load32 demo_mem x = 0) as Hz by (intros x Hx; unfold demo_mem; rewrite !load32_store32_ne by lia; done).
  split; intros i Hi; unfold index, pde in *; cbn [k_mem demo_space set_k_mem]; case_decide as E.
  - subst i. rewrite load32_store32_ne, load32_store32_eq by lia. done.
  - rewrite !load32_store32_ne by lia. apply Hz. lia.
  - subst i. by rewrite load32_store32_eq.
  - rewrite !load32_store32_ne by lia. apply Hz. lia.
Qed.

Lemma demo_space_page va v : user va -> page_at (k_mem demo_space) 0x80302000 va = Some v -> va / PGSIZE = 0 /\ v = 0x80304000.
Proof.
  intros Hva. destruct demo_space_entry as [Hd Ht]. destruct (PDX_spec va (user_range va Hva)) as [_ Hdi], (PTX_spec va (user_range va Hva)) as [_ Hti].
  unfold page_at. rewrite pte_of_table. unfold table. rewrite Hd by done. case_decide as Ed; [|done].
  change (bit_of 0x303007 PTE_P) with true. change (P2V (PTE_ADDR 0x303007)) with 0x80303000. cbv zeta iota. rewrite Ht by done.
  case_decide as Et; [|done]. cbn. intros [= <-]. split; [|done]. change 0 with (0 / PGSIZE).
  apply indices_page; [by apply user_range|lia|]. by rewrite Ed, Et.
Qed.

Lemma demo_space_ok l : (forall q, q ∈ l -> q < 0x80302000 \/ 0x80305000 <= q) ->
  @space_ok demo_linkage (k_mem demo_space) 0x80302000 l.
Proof.
  intros Hl. assert (forall q, 0x80302000 <= q < 0x80305000 -> q ∉ l) as Hn by (intros q Hq Hin; apply Hl in Hin; lia).
  destruct demo_space_entry as [Hd _].
  assert (forall i, index i -> present (k_mem demo_space) 0x80302000 i -> i = 0 /\ table (k_mem demo_space) 0x80302000 i = 0x80303000) as Htab.
  { intros i Hi. unfold present, table. rewrite Hd by done. by case_decide. }
  split; [split|..].
  - by vm_compute.
  - apply Hn. lia.
  - intros i Hi Hp. destruct (Htab i Hi Hp) as [_ ->]. split_and!; [by vm_compute|done|apply Hn; lia].
  - intros i j Hi Hj Hpi Hpj _. destruct (Htab i Hi Hpi) as [-> _], (Htab j Hj Hpj) as [-> _]. done.
  - intros va v Hva Hv. destruct (demo_space_page va v Hva Hv) as [_ ->]. split_and!; [by vm_compute|done|apply Hn; lia|].
    intros i Hi Hp. destruct (Htab i Hi Hp) as [_ ->]. done.
  - intros va va' v Hva Hva' Hv Hv'. destruct (demo_space_page va v Hva Hv) as [-> _], (demo_space_page va' v Hva' Hv') as [-> _]. done.
Qed.

Lemma freevm_frees_witness :
  let _ := demo_linkage in
  exists m' f h, freevm 0x80302000 demo_space = Done tt (after m' f h demo_space) /\
    free_pages (after m' f h demo_space) (space_pages 0x80302000 (k_mem demo_space) ++ [0x80300000; 0x80301000]).
Proof.
  intros lnk. destruct (@freevm_frees lnk demo_space 0x80302000 [0x80300000; 0x80301000] 0 [] true) as (m' & f & h & E & _ & Hp & _).
  - apply demo_hw_ok, NoDup_nil_2.
  - apply not_elem_of_nil.
  - split; [|apply (demo_free_pages [])]. vm_compute. repeat split; intros [=].
  - apply demo_space_ok. intros q. rewrite !elem_of_cons, elem_of_nil. lia.
  - exists m', f, h. exact (conj E Hp).
Defined.
