(* ===== verification/Copy.v ===== *)
(** * Copying an address space ([setupkvm] and [copyuvm] of [kernel/vm.c])

    What [fork] gives a child: a directory with the kernel's mappings and a
    copy of every page of the parent.  [building] describes a space that is
    being built from free pages; every page that was free is still free, part
    of the space, or held by the builder, so that giving up returns exactly
    what was taken. *)
From S2P Require Import Prelude Types Str Spinlock Kalloc Console Vm Paging Reclaim.

Lemma move_up_disjoint n : forall d s m a, d + Z.of_nat n <= s \/ s + Z.of_nat n <= d ->
  load8 (move_up d s n m) a = if decide (d <= a < d + Z.of_nat n) then u8 (load8 m (s + (a - d))) else load8 m a.
Proof.
  induction n as [|n IH]; intros d s m a Hds; cbn [move_up]; [by rewrite decide_False by lia|].
  rewrite IH by lia. rewrite !load8_store8. repeat case_decide; try lia; try done; do 2 f_equal; lia.
Qed.
Lemma memmove_disjoint dst src n m a : dst + Z.of_nat n <= src \/ src + Z.of_nat n <= dst ->
  load8 (memmove dst src n m) a = if decide (dst <= a < dst + Z.of_nat n) then u8 (load8 m (src + (a - dst))) else load8 m a.
Proof.
  intros Hd. unfold memmove. replace ((src <? dst) && (dst <? src + Z.of_nat n)) with false by (symmetry; apply andb_false_iff; rewrite !Z.ltb_ge; lia).
  by apply move_up_disjoint.
Qed.
Lemma copy_page dst src m a : dst + PGSIZE <= src \/ src + PGSIZE <= dst ->
  load8 (memmove dst src (Z.to_nat PGSIZE) m) a = if decide (dst <= a < dst + PGSIZE) then u8 (load8 m (src + (a - dst))) else load8 m a.
Proof. apply (memmove_disjoint dst src (Z.to_nat PGSIZE) m a). Qed.

Section copy.
Context `{Linkage} (c : nat) (L : list lockid) (b : bool).
Hypothesis kmem_free : L_kmem ∉ L.
Implicit Types (s : kernel) (m : gmap Z Z) (d pgdir p v va a pa perm i : Z) (l X : list Z).

(** ** The pages of a space *)
Definition in_space m d p : Prop :=
  p = d \/ (exists i, index i /\ present m d i /\ table m d i = p) \/ (exists va, user va /\ page_at m d va = Some p).

Lemma elem_of_space_pages m d p : p ∈ space_pages d m <-> in_space m d p.
Proof.
  unfold space_pages, in_space. rewrite elem_of_cons, elem_of_app, !elem_of_reverse, elem_of_user_pages. f_equiv. f_equiv.
  - assert (forall n i, p ∈ dir_tables m d i n <-> exists j, i <= j < i + Z.of_nat n /\ present m d j /\ table m d j = p) as Hdt.
    { induction n as [|n IH]; intros i; cbn [dir_tables]; [rewrite elem_of_nil; split; [done|intros (j & ? & _); lia]|].
      rewrite elem_of_app, IH. split.
      - intros [Hp|(j & Hj & ?)]; [|exists j; split; [lia|done]]. destruct (bit_of _ _) eqn:E; [|by apply elem_of_nil in Hp].
        apply list_elem_of_singleton in Hp as ->. exists i. split; [lia|done].
      - intros (j & Hj & Hp & <-). destruct (Z.eq_dec j i) as [->|]; [left; unfold present in Hp; rewrite Hp; by left|right; exists j; split; [lia|done]]. }
    rewrite Hdt. done.
  - split.
    + intros (k & Hk & Hp). eexists. split; [|exact Hp]. unfold user, PGSIZE, KERNBASE in *. change (0x80000000 / 4096) with 524288 in Hk. lia.
    + intros (va & Hva & Hp). exists (Z.to_nat (va / PGSIZE)). pose proof (Z.div_pos va PGSIZE) as Hd0. unfold user in Hva.
      assert (va / PGSIZE < KERNBASE / PGSIZE) as Hlt by (apply Z.div_lt_upper_bound; [done|]; change (PGSIZE * (KERNBASE / PGSIZE)) with KERNBASE; lia).
      assert (0 <= va / PGSIZE) by (apply Hd0; unfold PGSIZE; lia). split; [lia|]. rewrite Z2Nat.id, Z.add_0_l by lia. rewrite <- Hp. unfold page_at. f_equal.
      apply same_page_pte; [unfold KERNBASE, PGSIZE in *; pose proof (Z.mul_div_le va 4096); lia|unfold KERNBASE in *; lia|].
      rewrite Z.mul_comm. by apply Z.div_mul.
Qed.

(** ** A space under construction *)
(** From the state [s], in which [l] is free: the space [d] in memory [m'], the
    free pages [l'] and the pages [X] taken but not yet part of the space. *)
Record building s l d m' (f : Z) (h : hw) l' X : Prop := {
  bu_hw : hw_ok h c L b;
  bu_id : hw_id h = hw_id (k_hw s);
  bu_all : NoDup l /\ forall p, p ∈ l -> page_ok p;
  bu_free : freelist_ok m' f l' /\ NoDup l';
  bu_space : space_ok m' d l';
  bu_held : NoDup X /\ forall p, p ∈ X -> (p ∉ l') /\ ~ in_space m' d p;
  bu_pages : forall p, p ∈ l <-> p ∈ l' \/ p ∈ X \/ in_space m' d p;
  bu_frame : forall x, (forall p, p ∈ l -> ~ p <= x < p + PGSIZE) -> load8 m' x = load8 (k_mem s) x }.

(** The routine has given everything back. *)
Record given_back s l m' (f : Z) (h : hw) l' : Prop := {
  gb_hw : hw_ok h c L b;
  gb_id : hw_id h = hw_id (k_hw s);
  gb_free : freelist_ok m' f l' /\ NoDup l';
  gb_pages : l' ≡ₚ l;
  gb_frame : forall x, (forall p, p ∈ l -> ~ p <= x < p + PGSIZE) -> load8 m' x = load8 (k_mem s) x }.

Lemma in_page_eq p q x : page_ok p -> page_ok q -> p <= x < p + PGSIZE -> q <= x < q + PGSIZE -> p = q.
Proof. intros [Hp _] [Hq _] Hx Hx'. destruct (decide (p = q)); [done|]. destruct (pages_disjoint p q Hp Hq); [done|lia|lia]. Qed.

Lemma in_space_ok m d l p : space_ok m d l -> in_space m d p -> page_ok p /\ p ∉ l.
Proof.
  intros [Ht Hp _] [->|[(i & Hi & Hpr & <-)|(va & Hva & Hv)]]; [split; apply Ht| |].
  - by destruct (to_table _ _ _ Ht i Hi Hpr) as (? & _ & ?).
  - by destruct (Hp va p Hva Hv) as (? & _ & ? & _).
Qed.
Lemma owned_space m d a : owned m d a -> exists p, in_space m d p /\ p <= a < p + PGSIZE.
Proof. intros [Ha|(i & Hi & Hp & Ha)]; eexists; (split; [|exact Ha]); [by left|right; left; by exists i]. Qed.

(** A space depends only on the memory of its directory and tables. *)
Lemma space_owned m m1 d l : space_ok m d l -> (forall x, owned m d x -> load8 m1 x = load8 m x) ->
  (forall i, index i -> pde m1 d i = pde m d i) /\ (forall va, 0 <= va < 2 ^ 32 -> pte_of m1 d va = pte_of m d va) /\
  space_ok m1 d l /\ forall p, in_space m1 d p <-> in_space m d p.
Proof.
  intros Hsp Hm.
  assert (forall i, index i -> pde m1 d i = pde m d i) as Hpde.
  { intros i Hi. apply load32_ext. intros x Hx. apply Hm. left. unfold index, PGSIZE in *. lia. }
  assert (forall va, 0 <= va < 2 ^ 32 -> pte_of m1 d va = pte_of m d va) as Hpte.
  { intros va Hva. rewrite !pte_of_table. unfold table. destruct (PDX_spec va Hva) as [_ Hx]. rewrite Hpde by done.
    destruct (bit_of (pde m d (PDX va)) PTE_P) eqn:Ep; [|done]. fold (table m d (PDX va)). cbv zeta. destruct (PTX_spec va Hva) as [_ Hy].
    rewrite (load32_ext m m1); [done|]. intros x Hxx. apply Hm. right. exists (PDX va). unfold PGSIZE. split_and!; try done; lia. }
  split; [done|]. split; [done|]. split; [by eapply same_space_ok|]. intros p. unfold in_space. f_equiv. f_equiv.
  - f_equiv. intros i. unfold present, table. split; intros (Hi & ?); rewrite Hpde in * by done; done.
  - f_equiv. intros va. unfold page_at. split; intros (Hva & ?); rewrite Hpte in * by (by apply user_range); done.
Qed.
Lemma space_same m m1 d l : space_ok m d l -> (forall q x, in_space m d q -> q <= x < q + PGSIZE -> load8 m1 x = load8 m x) ->
  (forall i, index i -> pde m1 d i = pde m d i) /\ (forall va, 0 <= va < 2 ^ 32 -> pte_of m1 d va = pte_of m d va) /\
  space_ok m1 d l /\ forall p, in_space m1 d p <-> in_space m d p.
Proof. intros Hsp Hm. apply space_owned; [done|]. intros x (p & Hp & Hx)%owned_space. by apply (Hm p). Qed.
Lemma space_ok_sub m d l l' : (forall p, p ∈ l' -> p ∈ l) -> space_ok m d l -> space_ok m d l'.
Proof.
  intros Hl [[Hd Hdu Ht Hi] Hv Hinj]. split; [split| |]; try done.
  - by intros ?%Hl.
  - intros i Hx Hpr. destruct (Ht i Hx Hpr) as (? & ? & Hn). split_and!; [done|done|by intros ?%Hl].
  - intros va v Hva Hpa. destruct (Hv va v Hva Hpa) as (? & ? & Hn & ?). split_and!; [done|done|by intros ?%Hl|done].
Qed.

(** All pages that were free are free, held or part of the new space. *)
Lemma building_pages s l d m f h l' X : building s l d m f h l' X -> l ≡ₚ X ++ space_pages d m ++ l'.
Proof.
  intros [Hhw _ [Hnd _] Hfree Hsp [HndX HX] Hpg _].
  destruct (freevm_ok d c L b (after m f h s) l' Hhw kmem_free Hfree Hsp) as (? & ? & ? & _ & _ & _ & [_ Hnd'] & _).
  apply NoDup_Permutation; [done|apply NoDup_app; split_and!; [done| |exact Hnd']|].
  - intros p Hp. destruct (HX p Hp). rewrite elem_of_app, elem_of_space_pages. tauto.
  - intros p. rewrite !elem_of_app, elem_of_space_pages, Hpg. tauto.
Qed.

(** The pages of [l] do not suffice for a directory, its page tables, a page in
    hand and [n] pages of the user part. *)
Definition short_of l (n : Z) : Prop := Z.of_nat (length l) <= 2 + Z.of_nat NPDENTRIES + n.

Lemma dir_tables_length m d n : forall i, (length (dir_tables m d i n) <= n)%nat.
Proof. induction n as [|n IH]; intros i; cbn [dir_tables]; [done|]. specialize (IH (i + 1)). destruct (bit_of _ _); cbn; lia. Qed.
Lemma user_pages_length m d k : forall n a, (forall j, (n <= j < k)%nat -> page_at m d (a + PGSIZE * Z.of_nat j) = None) ->
  (length (user_pages m d a k) <= n)%nat.
Proof.
  induction k as [|k IH]; intros n a Hnone; cbn [user_pages]; [cbn; lia|]. rewrite length_app.
  specialize (IH (pred n) (a + PGSIZE)). destruct n as [|n].
  - pose proof (Hnone 0%nat ltac:(lia)) as H0. rewrite Z.mul_0_r, Z.add_0_r in H0. rewrite H0. cbn [option_list length]. apply IH.
    intros j Hj. rewrite <- (Hnone (S j)) by lia. f_equal. lia.
  - assert (length (option_list (page_at m d a)) <= 1)%nat by (destruct (page_at m d a); cbn; lia).
    enough (length (user_pages m d (a + PGSIZE) k) <= n)%nat by lia. apply IH. intros j Hj. cbn in Hj. rewrite <- (Hnone (S j)) by lia. f_equal. lia.
Qed.
Lemma out_of_memory s l d m f h X n : building s l d m f h [] X -> (length X <= 1)%nat -> 0 <= n ->
  (forall va, user va -> PGSIZE * n <= va -> page_at m d va = None) -> short_of l n.
Proof.
  intros Hb HX Hn Hnone. unfold short_of. rewrite (building_pages _ _ _ _ _ _ _ _ Hb). rewrite app_nil_r. unfold space_pages.
  rewrite length_app. cbn [length]. rewrite length_app, !length_reverse. pose proof (dir_tables_length m d NPDENTRIES 0).
  pose proof (user_pages_length m d (Z.to_nat (KERNBASE / PGSIZE)) (Z.to_nat n) 0) as Hu.
  enough (length (user_pages m d 0 (Z.to_nat (KERNBASE / PGSIZE))) <= Z.to_nat n)%nat by lia. apply Hu.
  intros j Hj. change (KERNBASE / PGSIZE) with 524288 in Hj. apply Hnone; unfold user, KERNBASE, PGSIZE; lia.
Qed.
(** The directory entries of the kernel: 56 for the physical memory, 8 for the devices. *)
Definition kernel_dir i : Prop := 512 <= i < 568 \/ 1016 <= i < 1024.
Lemma dir_tables_app m d n n' : forall i, dir_tables m d i (n + n') = dir_tables m d i n ++ dir_tables m d (i + Z.of_nat n) n'.
Proof.
  induction n as [|n IH]; intros i; cbn [dir_tables Nat.add app]; [by rewrite Z.add_0_r|].
  rewrite IH, app_assoc. do 2 f_equal. lia.
Qed.
Lemma dir_tables_none m d n : forall i, (forall j, i <= j < i + Z.of_nat n -> ~ present m d j) -> dir_tables m d i n = [].
Proof.
  induction n as [|n IH]; intros i Hn; cbn [dir_tables]; [done|]. rewrite IH by (intros j Hj; apply Hn; lia).
  specialize (Hn i ltac:(lia)). unfold present in Hn. by destruct (bit_of _ _).
Qed.
Lemma kernel_short s l d m f h l' : building s l d m f h l' [] -> (forall va, user va -> page_at m d va = None) ->
  (forall i, index i -> present m d i -> kernel_dir i) -> Z.of_nat (length l) <= 65 + Z.of_nat (length l').
Proof.
  intros Hb Hu Hk. rewrite (building_pages _ _ _ _ _ _ _ _ Hb). unfold space_pages. cbn [app length]. rewrite !length_app, !length_reverse.
  assert (length (user_pages m d 0 (Z.to_nat (KERNBASE / PGSIZE))) <= 0)%nat as Hu0.
  { apply user_pages_length. intros j Hj. apply Hu. change (KERNBASE / PGSIZE) with 524288 in Hj. unfold user, KERNBASE, PGSIZE; lia. }
  change NPDENTRIES with (512 + (56 + (448 + 8)))%nat. rewrite !dir_tables_app, !length_app.
  assert (forall i n, 0 <= i -> i + Z.of_nat n <= 1024 -> (forall j, i <= j < i + Z.of_nat n -> ~ kernel_dir j) -> dir_tables m d i n = []) as Hn.
  { intros i n Hi Hn Hj. apply dir_tables_none. intros j Hj1 Hp. apply (Hj j Hj1), Hk; [unfold index; lia|done]. }
  rewrite (Hn 0), (Hn (0 + Z.of_nat 512 + Z.of_nat 56)) by (unfold kernel_dir; lia).
  pose proof (dir_tables_length m d 56 (0 + Z.of_nat 512)). pose proof (dir_tables_length m d 8 (0 + Z.of_nat 512 + Z.of_nat 56 + Z.of_nat 448)).
  cbn [length] in *. lia.
Qed.
Lemma short_of_le l n n' : short_of l n -> n <= n' -> short_of l n'.
Proof. unfold short_of. lia. Qed.

(** Nothing held: [freevm] returns every page. *)
Lemma building_free s l d m f h l' : building s l d m f h l' [] ->
  exists m' f' h' l2, freevm d (after m f h s) = Done tt (after m' f' h' s) /\ given_back s l m' f' h' l2.
Proof.
  intros Hb. pose proof Hb as [Hhw Hid _ Hfree Hsp _ Hpg Hfr].
  destruct (freevm_ok d c L b (after m f h s) l' Hhw kmem_free Hfree Hsp) as (m' & f' & h' & E & Hh & Hid' & [Hf' Hnd'] & Hfr').
  exists m', f', h', (space_pages d m ++ l'). split; [exact E|]. change (k_mem (after m f h s)) with m in *. split.
  - done.
  - by rewrite Hid'.
  - by split.
  - symmetry. by apply (building_pages s l d m f h l' []).
  - intros x Hx. rewrite Hfr'; [by apply Hfr|]. intros v Hv. apply Hx, Hpg. right; right. by apply elem_of_space_pages.
Qed.

(** A page is taken from the free list. *)
Lemma building_take s l d m f h p l' : building s l d m f h (p :: l') [] ->
  page_ok p /\ f = p /\ building s l d m (load32 m p) h l' [p].
Proof.
  intros [Hhw Hid Hall [Hf Hnd] Hsp _ Hpg Hfr]. destruct Hf as (-> & Hp & Hf). apply NoDup_cons in Hnd as [Hpl Hnd].
  split; [done|]. split; [done|]. split; try done.
  - eapply space_ok_sub; [|exact Hsp]. intros q Hq. by right.
  - split; [apply NoDup_singleton|]. intros q ->%list_elem_of_singleton. split; [done|]. intros Hin. apply (in_space_ok _ _ _ _ Hsp) in Hin as [_ Hin].
    apply Hin. by left.
  - intros q. rewrite Hpg, elem_of_cons, list_elem_of_singleton, elem_of_nil. tauto.
Qed.

(** The free list, the space and the pages held do not depend on the rest of
    memory. *)
Lemma building_store s l d m m1 f h l' X :
  building s l d m f h l' X -> (forall x, (forall p, p ∈ X -> ~ p <= x < p + PGSIZE) -> load8 m1 x = load8 m x) ->
  building s l d m1 f h l' X /\ (forall va, 0 <= va < 2 ^ 32 -> pte_of m1 d va = pte_of m d va).
Proof.
  intros [Hhw Hid Hall [Hf Hnd] Hsp [HX Hheld] Hpg Hfr] Hm.
  assert (forall p, p ∈ X -> page_ok p) as HXok by (intros p Hp; apply Hall, Hpg; auto).
  assert (forall q x, page_ok q -> (q ∉ X) -> q <= x < q + PGSIZE -> load8 m1 x = load8 m x) as Hpage.
  { intros q x Hq HqX Hx. apply Hm. intros p Hp Hx'. apply HqX. by rewrite (in_page_eq q p x) by auto. }
  assert (forall q, in_space m d q -> page_ok q /\ q ∉ X) as Hsd.
  { intros q Hq. split; [by apply (in_space_ok _ _ _ _ Hsp)|]. intros HqX. by apply (Hheld q HqX). }
  destruct (space_same m m1 d l' Hsp) as (_ & Hpte & Hsp1 & Hin); [intros q x Hq Hx; destruct (Hsd q Hq); by apply (Hpage q)|].
  split; [split|exact Hpte]; try done.
  - split; [|done]. eapply freelist_ok_ext; [|exact Hf]. intros q x Hq. apply Hpage; [by eapply freelist_pages|]. intros HqX. destruct (Hheld q HqX) as [Hn _]. by apply Hn.
  - split; [done|]. intros p Hp. rewrite Hin. by apply Hheld.
  - intros p. rewrite Hin. apply Hpg.
  - intros x Hx. rewrite Hm; [by apply Hfr|]. intros p Hp. apply Hx, Hpg. auto.
Qed.

(** Memory outside the pages that were free. *)
Lemma building_outside s l d m m1 f h l' X : building s l d m f h l' X -> (forall p x, p ∈ l -> p <= x < p + PGSIZE -> load8 m1 x = load8 m x) ->
  freelist_ok m1 f l' /\ space_ok m1 d l' /\ (forall va, 0 <= va < 2 ^ 32 -> pte_of m1 d va = pte_of m d va) /\
  (forall i, index i -> pde m1 d i = pde m d i).
Proof.
  intros [_ _ _ [Hf _] Hsp _ Hpg _] Hm.
  destruct (space_same m m1 d l' Hsp) as (Hpde & Hpte & Hsp1 & _); [intros q x Hq; apply Hm, Hpg; auto|]. split; [|done].
  eapply freelist_ok_ext; [|exact Hf]. intros q x Hq. apply Hm, Hpg. auto.
Qed.

(** Pages of the user part are not tables. *)
Lemma user_not_owned m d l va v x : space_ok m d l -> user va -> page_at m d va = Some v -> v <= x < v + PGSIZE -> ~ owned m d x.
Proof.
  intros [Ht Hp _] Hva Hv Hx. destruct (Hp va v Hva Hv) as (Hvok & Hvd & _ & Hvt).
  intros [Hd|(i & Hi & Hpr & Hx')]; [by apply Hvd; apply (in_page_eq v d x); [done|apply Ht| |]|].
  apply (Hvt i Hi Hpr). apply (in_page_eq _ _ x); [by apply (to_table _ _ _ Ht)|done|done|done].
Qed.

(** The space grows by tables and by at most one user page, which was held. *)
Section grow.
Context s l d m (f : Z) (h : hw) l' (Y : list Z) m1 (f1 : Z) (h1 : hw) l1 (new : option (Z * Z)).
Hypothesis Hb : building s l d m f h l' (option_list (snd <$> new) ++ Y).
Hypothesis Hex : extends (after m f h s) d l' c L b m1 f1 h1 l1.
Hypothesis Hnew : forall i p, new = Some (i, p) -> user i /\ page_at m d i = None.
Hypothesis Hat : forall va, user va -> page_at m1 d va =
  match new with
  | Some (i, p) => if decide (va / PGSIZE = i / PGSIZE) then Some p else page_at m d va
  | None => page_at m d va
  end.

Lemma grow_at va v : user va -> page_at m1 d va = Some v <->
  page_at m d va = Some v \/ exists i, new = Some (i, v) /\ va / PGSIZE = i / PGSIZE.
Proof.
  intros Hva. rewrite Hat by done. destruct new as [[i p]|]; [|split; [by left|by intros [?|(i & ? & _)]]].
  destruct (Hnew i p eq_refl) as [Hi Hn]. case_decide as E.
  - split; [intros [= ->]; right; by exists i|]. intros [Hv|(j & [= -> ->] & _)]; [|done].
    unfold page_at in *. rewrite (same_page_pte d m va i) in Hv by (done || by apply user_range). congruence.
  - split; [by left|]. intros [?|(j & [= -> ->] & ?)]; done.
Qed.
Lemma grow_new i p : new = Some (i, p) -> (p ∉ l') /\ ~ in_space m d p /\ page_ok p.
Proof.
  intros E. destruct Hb as [_ _ [_ Hall] _ _ [_ Hheld] Hpg _]. subst new.
  assert (p ∈ option_list (snd <$> Some (i, p)) ++ Y) as HpX by (cbn; by left).
  destruct (Hheld p HpX). split_and!; [done|done|]. apply Hall, Hpg. auto.
Qed.
Lemma grow_suffix p : p ∈ l1 -> p ∈ l'.
Proof. destruct (ex_suffix _ _ _ _ _ _ _ _ _ _ Hex) as [k ->]. rewrite elem_of_app. by right. Qed.
Lemma grow_space p : in_space m1 d p <-> in_space m d p \/ p ∈ l' /\ (p ∉ l1) \/ exists i, new = Some (i, p).
Proof.
  destruct (ex_grows _ _ _ _ _ _ _ _ _ _ Hex) as [Hk Hn Hu]. cbn in Hk, Hn. split.
  - intros [->|[(i & Hi & Hpr & <-)|(va & Hva & Hv)]].
    + left. by left.
    + destruct (Hn i Hi Hpr) as [Hpm|Hin].
      * left. right; left. exists i. destruct (Hk i Hi Hpm) as [_ ->]. done.
      * right; left. split; [done|]. by apply (to_table _ _ _ (ex_tables _ _ _ _ _ _ _ _ _ _ Hex) i Hi).
    + apply grow_at in Hv as [Hv|(i & Hi & _)]; [|right; right; by exists i|done]. left. right; right. by exists va.
  - intros [[->|[(i & Hi & Hpr & <-)|(va & Hva & Hv)]]|[[H1 H2]|(i & Ei)]].
    + by left.
    + right; left. exists i. by destruct (Hk i Hi Hpr).
    + right; right. exists va. split; [done|]. apply grow_at; [done|]. by left.
    + right; left. by apply Hu.
    + right; right. destruct (Hnew i p Ei) as [Hi _]. exists i. split; [done|]. apply grow_at; [done|]. right. by exists i.
Qed.
Lemma grow_space_ok : space_ok m1 d l1.
Proof.
  pose proof (ex_tables _ _ _ _ _ _ _ _ _ _ Hex) as Ht. destruct (ex_grows _ _ _ _ _ _ _ _ _ _ Hex) as [Hk Hn _]. cbn in Hk, Hn.
  destruct (bu_space _ _ _ _ _ _ _ _ Hb) as [_ Hp Hi]. split; [done| |].
  - intros va v Hva Hv. assert (page_ok v /\ v <> d /\ (v ∉ l') /\ forall i, index i -> present m d i -> table m d i <> v) as (Hvok & Hvd & Hvl & Hvt).
    { apply grow_at in Hv as [Hv|(j & Ej & _)]; [by apply (Hp va)| |done]. destruct (grow_new j v Ej) as (? & Hns & ?). split_and!; [done| |done|].
      - intros ->. apply Hns. by left.
      - intros i Hx Hpr Et. apply Hns. right; left. by exists i. }
    split_and!; [done|done|intros ?; by apply Hvl, grow_suffix|]. intros i Hx Hpr. destruct (Hn i Hx Hpr) as [Hpm|Hin]; [|by intros <-].
    destruct (Hk i Hx Hpm) as [_ ->]. by apply Hvt.
  - intros va va' v Hva Hva'. rewrite !grow_at by done.
    assert (forall i w, new = Some (i, v) -> user w -> page_at m d w = Some v -> False) as Hno.
    { intros i w Ei Hw Hv. destruct (grow_new i v Ei) as (_ & Hns & _). apply Hns. right; right. by exists w. }
    intros [Hv|(i & Ei & Hv)] [Hv'|(j & Ej & Hv')]; [by apply (Hi va va' v)|destruct (Hno j va Ej Hva Hv)|destruct (Hno i va' Ei Hva' Hv')|]. congruence.
Qed.
Lemma building_grow : building s l d m1 f1 h1 l1 Y.
Proof.
  pose proof grow_space_ok as Hok. destruct Hb as [_ Hid Hall _ Hsp [HX Hheld] Hpg Hfr]. destruct Hex as [Hhw1 Hid1 Hf1 _ _ Hfr1 _].
  assert (forall p, p ∈ Y -> forall i, new <> Some (i, p)) as HY.
  { intros p Hp i ->. cbn in HX. by apply NoDup_cons in HX as [? _]. }
  assert (forall p, p ∈ option_list (snd <$> new) ++ Y <-> (exists i, new = Some (i, p)) \/ p ∈ Y) as HXY.
  { intros p. rewrite elem_of_app. f_equiv. destruct new as [[i q]|]; cbn; [|split; [by intros ?%elem_of_nil|by intros [? ?]]].
    rewrite list_elem_of_singleton. split; [intros ->; by exists i|by intros (j & [= -> ->])]. }
  assert (forall p, p ∈ l <-> p ∈ l1 \/ p ∈ Y \/ in_space m1 d p) as Hpg1.
  { intros p. rewrite grow_space, Hpg, HXY. split.
    - intros [Hp|[[Hp|Hp]|Hp]]; [destruct (decide (p ∈ l1)); tauto|tauto|tauto|tauto].
    - intros [?%grow_suffix|[?|[?|[[? ?]|?]]]]; tauto. }
  split; try done.
  - by rewrite Hid1.
  - split; [by apply NoDup_app in HX as (_ & _ & ?)|]. intros p Hp. assert (p ∈ option_list (snd <$> new) ++ Y) as HpX by (apply HXY; auto).
    destruct (Hheld p HpX) as [Hpl Hps]. split; [intros ?; by apply Hpl, grow_suffix|]. rewrite grow_space. intros [?|[[? ?]|(i & Ei)]]; [done|done|by apply (HY p Hp i)].
  - intros x Hx. rewrite Hfr1; [by apply Hfr|]. intros (p & Hp & Hpx)%owned_space. apply (Hx p); [apply Hpg1; auto|done].
Qed.
End grow.

(** ** [setupkvm] *)
Lemma page_count_aligned va (size : Z) : va mod PGSIZE = 0 -> size mod PGSIZE = 0 -> 0 <= va -> 0 < size -> va + size <= 2 ^ 32 ->
  PGROUNDDOWN va = va /\ PGSIZE * Z.of_nat (page_count va size) = size.
Proof.
  intros Ha Hs H0 H1 H2. destruct (page_count_spec va size H0 H1 H2) as (Hr & El & _).
  assert (PGROUNDDOWN va = va) as Ea by (rewrite PGROUNDDOWN_div by lia; unfold PGSIZE in *; pose proof (Z.div_mod va 4096); lia).
  split; [done|]. rewrite Ea in El. rewrite PGROUNDDOWN_div in El by lia. unfold page_count in *. cbn [pred] in El. unfold PGSIZE in *.
  pose proof (Z.div_mod (va + size - 1) 4096 ltac:(lia)). pose proof (Z.mod_pos_bound (va + size - 1) 4096 ltac:(lia)).
  pose proof (Z.div_mod va 4096 ltac:(lia)). pose proof (Z.div_mod size 4096 ltac:(lia)). lia.
Qed.

(** The regions of [kmap], and the entry of an address in them. *)
Definition region : Type := Z * Z * Z * Z.
Implicit Types (r : region) (rs : list region).
Definition reg_size r : Z := let '(_, p0, p1, _) := r in u32 (p1 - p0).
Definition reg_has r va : Prop := let '(virt, _, _, _) := r in virt <= va < virt + reg_size r.
#[local] Instance reg_has_dec r va : Decision (reg_has r va).
Proof. destruct r as [[[? ?] ?] ?]. apply _. Defined.
Definition reg_entry r va : Z := let '(virt, p0, _, perm) := r in Z.lor (Z.lor (p0 + (va - virt) / PGSIZE * PGSIZE) perm) PTE_P.
Fixpoint kernel_entry rs va : option Z :=
  match rs with [] => None | r :: rs' => if decide (reg_has r va) then Some (reg_entry r va) else kernel_entry rs' va end.

Definition reg_ok r : Prop :=
  let '(virt, p0, _, perm) := r in
  virt mod PGSIZE = 0 /\ KERNBASE <= virt /\ 0 < reg_size r /\ reg_size r mod PGSIZE = 0 /\ virt + reg_size r <= 2 ^ 32 /\
  p0 mod PGSIZE = 0 /\ 0 <= p0 /\ p0 + reg_size r <= 2 ^ 32 /\ 0 <= perm < PGSIZE.
Fixpoint regs_ok rs : Prop :=
  match rs with
  | [] => True
  | r :: rs' => reg_ok r /\ (forall va, reg_has r va -> kernel_entry rs' va = None) /\ regs_ok rs'
  end.

(** One region. *)
Lemma map_region s l d m f h l' r : building s l d m f h l' [] -> reg_ok r -> (forall va, reg_has r va -> pte_of m d va = None) ->
  let '(virt, p0, p1, perm) := r in
  exists x m1 f1 h1 l1, mappages d virt (u32 (p1 - p0)) p0 perm (after m f h s) = Done x (after m1 f1 h1 s) /\ building s l d m1 f1 h1 l1 [] /\
    (forall i, index i -> present m1 d i -> present m d i \/ exists va, reg_has r va /\ PDX va = i) /\
    (x = -1 /\ l1 = [] /\ (forall va, user va -> pte_of m1 d va = pte_of m d va) \/
     x = 0 /\ forall va, 0 <= va < 2 ^ 32 -> pte_of m1 d va = if decide (reg_has r va) then Some (reg_entry r va) else pte_of m d va).
Proof.
  destruct r as [[[virt p0] p1] perm]. cbn [reg_ok reg_has reg_size reg_entry]. set (size := u32 (p1 - p0)).
  intros Hb (Hva & Hk & Hs0 & Hsm & Hend & Hp & Hp0 & Hpe & Hperm) Hnone.
  destruct (page_count_aligned virt size Hva Hsm ltac:(unfold KERNBASE in *; lia) Hs0 Hend) as [Ea En].
  destruct (mappages_ok (after m f h s) d virt size p0 perm l' c L b) as (x & m1 & f1 & h1 & l1 & E & Hex & Hin & k & Hx & Hpte); try apply Hb; try done.
  - unfold KERNBASE in *; lia.
  - unfold range_ok. rewrite En. done.
  - rewrite Ea, En. intros va _ Hin. by apply Hnone.
  - change (after m1 f1 h1 (after m f h s)) with (after m1 f1 h1 s) in E. rewrite Ea in Hpte. change (k_mem (after m f h s)) with m in Hpte.
    assert (forall va, user va -> pte_of m1 d va = pte_of m d va) as Hu.
    { intros va Hv. rewrite Hpte by (by apply user_range). unfold mapped. rewrite decide_False; [done|]. unfold user in *. lia. }
    exists x, m1, f1, h1, l1. split; [done|]. split.
    + apply (building_grow s l d m f h l' [] m1 f1 h1 l1 None); [done|done|done|]. intros va Hv. unfold page_at. by rewrite Hu.
    + split; [rewrite Ea, En in Hin; exact Hin|]. destruct Hx as [(-> & -> & _)|[-> ->]]; [by left|right]. split; [done|]. intros va Hv. rewrite Hpte by done. unfold mapped. by rewrite En.
Qed.

Lemma map_kernel_ok s l d rs : forall m f h l', building s l d m f h l' [] -> regs_ok rs ->
  (forall va, 0 <= va < 2 ^ 32 -> user va \/ (exists e, kernel_entry rs va = Some e) -> pte_of m d va = None) ->
  (forall va, kernel_entry rs va <> None -> kernel_dir (PDX va)) -> (forall i, index i -> present m d i -> kernel_dir i) ->
  exists x m1 f1 h1 l1, map_kernel d rs (after m f h s) = Done x (after m1 f1 h1 s) /\
    (x = 0 /\ given_back s l m1 f1 h1 l1 /\ Z.of_nat (length l) <= 65 \/
     x = d /\ building s l d m1 f1 h1 l1 [] /\ Z.of_nat (length l) <= 65 + Z.of_nat (length l1) /\
       forall va, 0 <= va < 2 ^ 32 -> pte_of m1 d va = match kernel_entry rs va with Some e => Some e | None => pte_of m d va end).
Proof.
  induction rs as [|r rs IH]; intros m f h l' Hb Hrs Hnone Hrd Hmd; cbn [map_kernel].
  { exists d, m, f, h, l'. split; [done|]. right. split; [done|]. split; [done|]. split; [|done]. eapply kernel_short; [exact Hb| |done].
    intros va Hva. unfold page_at. by rewrite Hnone by (by apply user_range || by left). }
  destruct Hrs as (Hr & Hdis & Hrs).
  pose proof (map_region s l d m f h l' r Hb Hr) as Hmap. destruct r as [[[virt p0] p1] perm].
  destruct Hmap as (x & m1 & f1 & h1 & l1 & E & Hb1 & Hnew & Hx).
  { intros va Hva. apply Hnone; [|right; cbn [kernel_entry]; rewrite decide_True by done; by eexists].
    destruct Hr as (_ & ? & _ & _ & ? & _). cbn [reg_has reg_size] in *. unfold KERNBASE in *. lia. }
  assert (forall i, index i -> present m1 d i -> kernel_dir i) as Hmd1.
  { intros i Hi Hp. destruct (Hnew i Hi Hp) as [?|(va & Hva & <-)]; [by apply Hmd|]. apply Hrd. cbn [kernel_entry]. by rewrite decide_True. }
  rewrite (bind_done _ _ _ _ _ E). destruct Hx as [(-> & -> & Hu)|[-> Hpte]]; cbn [Z.ltb Z.compare].
  - destruct (building_free s l d m1 f1 h1 [] Hb1) as (m2 & f2 & h2 & l2 & E2 & Hgb). rewrite (bind_done _ _ _ _ _ E2).
    exists 0, m2, f2, h2, l2. split; [done|]. left. split; [done|]. split; [done|].
    change (Z.of_nat (length l) <= 65 + Z.of_nat (@length Z [])). eapply kernel_short; [exact Hb1| |done].
    intros va Hva. unfold page_at. rewrite Hu, Hnone; [done|by apply user_range|by left|done].
  - destruct (IH m1 f1 h1 l1 Hb1 Hrs) as (y & m2 & f2 & h2 & l2 & E2 & Hy).
    + intros va Hva Hor. rewrite Hpte by done. case_decide as Hin.
      * exfalso. destruct Hor as [Hu|[e He]]; [|by rewrite Hdis in He]. destruct Hr as (_ & ? & _). cbn [reg_has] in Hin. unfold user in Hu. lia.
      * apply Hnone; [done|]. destruct Hor as [?|[e He]]; [by left|right]. cbn [kernel_entry]. rewrite decide_False by done. by exists e.
    + intros va Hne. apply Hrd. cbn [kernel_entry]. case_decide as Hin; [done|exact Hne].
    + exact Hmd1.
    + exists y, m2, f2, h2, l2. split; [done|]. destruct Hy as [?|(-> & Hb2 & Hc2 & Hpte2)]; [by left|right]. split; [done|]. split; [done|]. split; [done|].
      intros va Hva. rewrite Hpte2, Hpte by done. cbn [kernel_entry]. case_decide as Hin; [by rewrite Hdis|done].
Qed.

Lemma kmap_ok : regs_ok kmap.
Proof.
  pose proof data_range as Hd. pose proof data_aligned as Ha. pose proof kend_range as Hk.
  assert (V2P data_sym = data_sym - KERNBASE) as Ev by (unfold V2P; rewrite u32_small; unfold KERNLINK, KERNBASE, EXTMEM, PHYSTOP in *; lia).
  unfold kmap. change (V2P KERNLINK) with 0x100000. rewrite Ev. unfold KERNLINK, KERNBASE, EXTMEM, PHYSTOP, DEVSPACE, PGSIZE in *.
  assert (forall x, 0 <= x < 2 ^ 32 -> u32 x = x) as Hu by (intros; by apply u32_small).
  assert (u32 (0 - 0xFE000000) = 0x2000000) as Ed by done.
  repeat (split; [cbn [reg_ok reg_size]; rewrite ?Ed, ?Hu by lia; unfold PTE_W, PGSIZE, KERNBASE; Z.to_euclidean_division_equations; lia|split]).
  all: try done. all: intros va; cbn [reg_has reg_size]; rewrite ?Ed, ?Hu by lia; intros Hva; cbn [kernel_entry].
  all: repeat (rewrite decide_False by (cbn [reg_has reg_size]; rewrite ?Ed, ?Hu by lia; lia)); done.
Qed.

Lemma kmap_dirs va : kernel_entry kmap va <> None -> kernel_dir (PDX va).
Proof.
  pose proof data_range as Hd. pose proof kend_range as Hk.
  assert (V2P data_sym = data_sym - KERNBASE) as Ev by (unfold V2P; rewrite u32_small; unfold KERNLINK, KERNBASE, EXTMEM, PHYSTOP in *; lia).
  assert (forall x, 0 <= x < 2 ^ 32 -> u32 x = x) as Hu by (intros; by apply u32_small).
  assert (u32 (0 - 0xFE000000) = 0x2000000) as Ed by done.
  unfold kmap. change (V2P KERNLINK) with 0x100000. rewrite Ev. unfold KERNLINK, KERNBASE, EXTMEM, PHYSTOP, DEVSPACE in *. cbn [kernel_entry].
  intros Hne. enough (0x80000000 <= va < 0x8E000000 \/ 0xFE000000 <= va < 2 ^ 32) as Hva.
  { destruct (PDX_spec va ltac:(lia)) as [-> _]. unfold kernel_dir. Z.to_euclidean_division_equations. lia. }
  revert Hne. repeat (case_decide as Hr; [intros _; cbn [reg_has reg_size] in Hr; rewrite ?Ed, ?Hu in Hr by lia; lia|clear Hr]). done.
Qed.

Lemma kernel_entry_user rs va : regs_ok rs -> user va -> kernel_entry rs va = None.
Proof.
  intros Hrs Hva. induction rs as [|[[[virt p0] p1] perm] rs IH]; cbn [kernel_entry]; [done|]. destruct Hrs as (Hr & _ & Hrs).
  rewrite decide_False; [by apply IH|]. destruct Hr as (_ & ? & _). cbn [reg_has]. unfold user in Hva. lia.
Qed.

(** An empty directory. *)
Lemma building_start s p l h : hw_ok h c L b -> hw_id h = hw_id (k_hw s) -> free_pages s (p :: l) -> let m := memset p 0 PGSIZE (k_mem s) in
  building s (p :: l) p m (load32 (k_mem s) p) h l [] /\ (forall va, 0 <= va < 2 ^ 32 -> pte_of m p va = None) /\
  forall i, index i -> present m p i -> kernel_dir i.
Proof.
  intros Hhw Hid [Hf Hnd] m. assert (forall q, q ∈ p :: l -> page_ok q) as Hall by (by eapply freelist_pages).
  destruct Hf as (_ & Hp & Hf). pose proof Hnd as [Hpl Hndl]%NoDup_cons.
  assert (forall i, index i -> pde m p i = 0) as Hz.
  { intros i Hi. unfold pde, load32, m. rewrite !memset_load8 by done. by rewrite !decide_True by (unfold index, PGSIZE in *; lia). }
  assert (forall va, 0 <= va < 2 ^ 32 -> pte_of m p va = None) as Hnone.
  { intros va Hva. rewrite pte_of_table, Hz by (by apply PDX_spec). done. }
  assert (forall i, index i -> ~ present m p i) as Hpr by (intros i Hi; unfold present; by rewrite Hz).
  assert (forall q, in_space m p q <-> q = p) as Hin.
  { intros q. split; [|by left]. intros [->|[(i & Hi & Hx & _)|(va & Hva & Hv)]]; [done|by destruct (Hpr i Hi)|].
    unfold page_at in Hv. by rewrite Hnone in Hv by (by apply user_range). }
  split; [split|split; [exact Hnone|intros i Hi Hx; by destruct (Hpr i Hi)]]; try done.
  - split; [|done]. eapply freelist_ok_ext; [|exact Hf]. intros q x Hq Hx. unfold m. rewrite memset_load8, decide_False; [done| |done].
    intros Hx'. apply Hpl. rewrite (in_page_eq p q x); [done|done|apply Hall; by right|done|done].
  - split; [split; try done|..].
    + intros i Hi Hx. by destruct (Hpr i Hi).
    + intros i j Hi Hj Hx. by destruct (Hpr i Hi).
    + intros va v Hva Hv. unfold page_at in Hv. by rewrite Hnone in Hv by (by apply user_range).
    + intros va va' v Hva _ Hv. unfold page_at in Hv. by rewrite Hnone in Hv by (by apply user_range).
  - split; [constructor|]. by intros q ?%elem_of_nil.
  - intros q. rewrite Hin, elem_of_cons, elem_of_nil. tauto.
  - intros x Hx. unfold m. rewrite memset_load8, decide_False; [done|apply Hx; by left|done].
Qed.

Lemma setupkvm_ok s l : hw_ok (k_hw s) c L b -> free_pages s l ->
  exists x m1 f1 h1 l1, setupkvm s = Done x (after m1 f1 h1 s) /\
    (x = 0 /\ given_back s l m1 f1 h1 l1 /\ Z.of_nat (length l) <= 65 \/
     x <> 0 /\ building s l x m1 f1 h1 l1 [] /\ Z.of_nat (length l) <= 65 + Z.of_nat (length l1) /\
       forall va, 0 <= va < 2 ^ 32 -> pte_of m1 x va = kernel_entry kmap va).
Proof.
  intros Hhw Hf. unfold setupkvm. destruct (kalloc_ok s l c L b Hhw kmem_free Hf) as (h & E & Hhw' & Hid). rewrite (bind_done _ _ _ _ _ E). clear E.
  destruct l as [|p l].
  { assert (k_freelist s = 0) as E0 by apply Hf. rewrite E0. cbn [Z.eqb]. exists 0, (k_mem s), 0, h, []. split; [by destruct s|]. left. split; [done|].
    split; [split; try done; split; [done|constructor]|cbn; lia]. }
  destruct (popped_list s p l Hf) as [Efl _]. rewrite Efl. pose proof Hf as [(_ & Hp & _) _]. destruct (page_range p Hp) as [Hpr _].
  rewrite (proj2 (Z.eqb_neq p 0)) by (unfold KERNBASE in *; lia).
  destruct (building_start s p l h Hhw' Hid Hf) as (Hb & Hnone & Hnp). set (m := memset p 0 PGSIZE (k_mem s)) in *.
  rewrite (bind_done _ _ _ tt (after m (load32 (k_mem s) p) h s)) by done. change (DEVSPACE <? P2V PHYSTOP) with false. cbv iota.
  destruct (map_kernel_ok s (p :: l) p kmap _ _ _ _ Hb kmap_ok) as (x & m1 & f1 & h1 & l1 & E & Hx); [intros va Hva _; by apply Hnone|exact kmap_dirs|exact Hnp|].
  exists x, m1, f1, h1, l1. split; [exact E|]. destruct Hx as [Hx|(-> & Hb1 & Hc1 & Hpte)]; [by left|right]. split; [unfold KERNBASE in *; lia|]. split; [done|]. split; [done|].
  intros va Hva. rewrite Hpte, Hnone by done. by destruct (kernel_entry kmap va).
Qed.

(** ** [copyuvm] *)
Lemma building_hw s l d m f h l' X h' : building s l d m f h l' X -> hw_ok h' c L b -> hw_id h' = hw_id h -> building s l d m f h' l' X.
Proof. intros [? Hid ? ? ? ? ? ?] ? E. split; try done. by rewrite E. Qed.

(** The page held is freed again. *)
Lemma building_put s l d m f h l' p : building s l d m f h l' [p] ->
  exists m' h', kfree p (after m f h s) = Done tt (after m' p h' s) /\ building s l d m' p h' (p :: l') [].
Proof.
  intros Hb. pose proof Hb as [Hhw _ [_ Hall] Hfree Hsp [_ Hheld] Hpg _].
  assert (p ∈ [p]) as Hin by (by left). destruct (Hheld p Hin) as [Hpl Hps]. assert (page_ok p) as Hp by (apply Hall, Hpg; auto).
  destruct (kfree_ok (after m f h s) p l' c L b Hhw kmem_free Hfree Hp Hpl) as (h' & E & Hhw' & Hid').
  destruct (building_store s l d m (freed_mem p f m) f h l' [p] Hb) as [Hb1 Hpte1].
  { intros x Hx. apply freed_mem_frame, Hx. by left. }
  exists (freed_mem p f m), h'. split; [exact E|].
  pose proof (freed_list (after m f h s) p l' Hfree Hp Hpl) as Hf2. destruct Hb1 as [_ Hid Hall1 _ Hsp1 [_ Hheld1] Hpg1 Hfr1].
  split; [done|by rewrite Hid'|done|exact Hf2| | | |done].
  - destruct Hsp1 as [[Hd Hdu Ht Hi] Hv Hinj]. destruct (Hheld1 p Hin) as [_ Hns]. split; [split| |]; try done.
    + intros [E1|?]%elem_of_cons; [|done]. apply Hns. by left.
    + intros i Hx Hpr. destruct (Ht i Hx Hpr) as (? & ? & ?). split_and!; [done|done|]. intros [E1|?]%elem_of_cons; [|done]. apply Hns. right; left. by exists i.
    + intros va v Hva Hpa. destruct (Hv va v Hva Hpa) as (? & ? & ? & ?). split_and!; [done|done| |done]. intros [->|?]%elem_of_cons; [|done]. apply Hns. right; right. by exists va.
  - split; [constructor|]. by intros q ?%elem_of_nil.
  - intros q. rewrite Hpg1, !elem_of_cons, !elem_of_nil. tauto.
Qed.

(** The page of [va] in the space [d] of memory [m] is a copy of that in [pgdir]
    of memory [m0], with the same flags. *)
Definition page_copied m0 pgdir m d va : Prop :=
  exists e e', pte_of m0 pgdir va = Some e /\ pte_of m d va = Some e' /\ PTE_FLAGS e' = PTE_FLAGS e /\
    forall o, 0 <= o < PGSIZE -> load8 m (P2V (PTE_ADDR e') + o) = load8 m0 (P2V (PTE_ADDR e) + o).

Lemma page_copied_keep m0 pgdir m d va m2 : page_copied m0 pgdir m d va -> pte_of m2 d va = pte_of m d va ->
  (forall v x, page_at m d va = Some v -> v <= x < v + PGSIZE -> load8 m2 x = load8 m x) -> page_copied m0 pgdir m2 d va.
Proof.
  intros (e & e' & E1 & E2 & Ef & Hc) Hpte Hm. exists e, e'. rewrite Hpte. split_and!; [done|done|done|]. intros o Ho.
  rewrite (Hm (P2V (PTE_ADDR e'))); [by apply Hc|unfold page_at; by rewrite E2|lia].
Qed.

(** The entry of a copy. *)
Lemma flag_bits x : 0 <= x < PGSIZE -> PTE_FLAGS x = x.
Proof. unfold PTE_FLAGS, PGSIZE. intros Hx. rewrite u32_small by lia. rewrite (Z.land_ones _ 12) by lia. by apply Z.mod_small. Qed.
Lemma PTE_FLAGS_lor a (x : Z) : 0 <= a < 2 ^ 32 -> a mod PGSIZE = 0 -> 0 <= x < PGSIZE -> PTE_FLAGS (Z.lor a x) = x.
Proof.
  intros Ha Hal Hx. rewrite lor_page by done. unfold PTE_FLAGS, PGSIZE in *. rewrite (Z.land_ones _ 12) by lia. change (2 ^ 12) with 4096.
  pose proof (Z.div_mod a 4096 ltac:(lia)). rewrite u32_small by lia. rewrite <- Z.add_mod_idemp_l, Hal by lia. by apply Z.mod_small.
Qed.
Lemma PTE_FLAGS_range e : 0 <= PTE_FLAGS e < PGSIZE.
Proof. unfold PTE_FLAGS. rewrite (Z.land_ones _ 12) by lia. by apply Z.mod_pos_bound. Qed.
Lemma PTE_FLAGS_present e : bit_of e PTE_P = true -> Z.lor (PTE_FLAGS e) PTE_P = PTE_FLAGS e.
Proof.
  unfold bit_of, PTE_P. intros Hb. assert (Z.testbit e 0 = true) as H0.
  { destruct (Z.testbit e 0) eqn:E; [done|]. change 1 with (Z.ones 1) in Hb. rewrite Z.land_ones, <- Z.bit0_mod, E in Hb by lia. done. }
  apply Z.bits_inj'. intros n Hn. rewrite Z.lor_spec. destruct (Z.eq_dec n 0) as [->|Hne].
  - unfold PTE_FLAGS. rewrite Z.land_spec. unfold u32. rewrite Z.mod_pow2_bits_low, H0 by lia. done.
  - replace (Z.testbit 1 n) with false; [by rewrite orb_false_r|]. symmetry. apply Z.bits_above_log2; cbn; lia.
Qed.

Section pages.
Context (s : kernel) (pgdir sz : Z) (l : list Z).
Hypothesis parent_bytes : mem_ok (k_mem s).
Hypothesis parent_ok : space_ok (k_mem s) pgdir l.
Hypothesis parent_size : 0 <= sz <= KERNBASE.
Hypothesis parent_mapped : forall va, 0 <= va < sz -> pte_of (k_mem s) pgdir va <> None.

(** The parent is outside the pages that were free. *)
Lemma parent_same d m f h l' X : building s l d m f h l' X ->
  (forall q x, in_space (k_mem s) pgdir q -> q <= x < q + PGSIZE -> load8 m x = load8 (k_mem s) x) /\
  (forall i, index i -> pde m pgdir i = pde (k_mem s) pgdir i) /\
  (forall va, 0 <= va < 2 ^ 32 -> pte_of m pgdir va = pte_of (k_mem s) pgdir va).
Proof.
  intros Hb. assert (forall q x, in_space (k_mem s) pgdir q -> q <= x < q + PGSIZE -> load8 m x = load8 (k_mem s) x) as Hpage.
  { intros q x Hq Hx. destruct (in_space_ok _ _ _ _ parent_ok Hq) as [Hqok Hql]. apply (bu_frame _ _ _ _ _ _ _ _ Hb). intros p Hp Hxp.
    apply Hql. rewrite (in_page_eq q p x); [done|done|by apply (bu_all _ _ _ _ _ _ _ _ Hb)|done|done]. }
  destruct (space_same (k_mem s) m pgdir l parent_ok Hpage) as (Hpde & Hpte & _). done.
Qed.

(** The entry of the parent, read in the present memory. *)
Lemma look_parent d m f h l' X i : building s l d m f h l' X -> 0 <= i < sz ->
  exists (q e : Z), walkpgdir pgdir i false (after m f h s) = Done q (after m f h s) /\ q <> 0 /\ load32 m q = e /\ bit_of e PTE_P = true /\
    pte_of (k_mem s) pgdir i = Some e /\ in_space (k_mem s) pgdir (P2V (PTE_ADDR e)).
Proof.
  intros Hb Hi. destruct (parent_same d m f h l' X Hb) as (_ & Hpde & Hpte). assert (user i) as Hui by (unfold user; lia).
  pose proof (user_range i Hui) as Hir. destruct (PDX_spec i Hir) as [_ Hx], (PTX_spec i Hir) as [_ Hy].
  destruct (pte_of (k_mem s) pgdir i) as [e|] eqn:Ee; [|by destruct (parent_mapped i Hi)].
  assert (pte_of m pgdir i = Some e) as Em by (by rewrite Hpte). rewrite pte_of_table in Em.
  destruct (bit_of (pde m pgdir (PDX i)) PTE_P) eqn:Ep; [|done]. cbv zeta in Em. destruct (bit_of (load32 m _) PTE_P) eqn:Eb; [|done]. injection Em as Em.
  exists (table m pgdir (PDX i) + 4 * PTX i), e. rewrite walkpgdir_look. change (k_mem (after m f h s)) with m. rewrite Ep. split_and!; [done| |done|by rewrite <- Em|done|].
  - assert (page_ok (table m pgdir (PDX i))) as Ht.
    { unfold table. rewrite Hpde by done. apply (to_table _ _ _ (so_tables _ _ _ parent_ok) (PDX i) Hx). unfold present. by rewrite <- Hpde. }
    destruct (page_range _ Ht). unfold KERNBASE, index in *. lia.
  - right; right. exists i. split; [done|]. unfold page_at. by rewrite Ee.
Qed.

(** The page is copied into one that is held. *)
Lemma copy_into d m f h l' p v : building s l d m f h l' [p] -> in_space (k_mem s) pgdir v ->
  let m1 := memmove p v (Z.to_nat PGSIZE) m in
  building s l d m1 f h l' [p] /\ (forall va, 0 <= va < 2 ^ 32 -> pte_of m1 d va = pte_of m d va) /\
  (forall o, 0 <= o < PGSIZE -> load8 m1 (p + o) = load8 (k_mem s) (v + o)) /\
  (forall w x, in_space m d w -> w <= x < w + PGSIZE -> load8 m1 x = load8 m x).
Proof.
  intros Hb Hv m1. destruct (in_space_ok _ _ _ _ parent_ok Hv) as [Hvok Hvl]. pose proof Hb as [_ _ [_ Hall] _ Hsp [_ Hheld] Hpg _].
  assert (p ∈ [p]) as Hin by (by left). destruct (Hheld p Hin) as [_ Hps]. assert (p ∈ l) as Hpl by (apply Hpg; auto). pose proof (Hall p Hpl) as Hp.
  assert (p <> v) as Hne by (by intros ->). destruct Hp as [Hpa Hpr] eqn:EHp. destruct Hvok as [Hva Hvr] eqn:EHv.
  pose proof (pages_disjoint p v Hpa Hva Hne) as Hd. clear EHp EHv.
  destruct (building_store s l d m m1 f h l' [p] Hb) as [Hb1 Hpte].
  { intros x Hx. unfold m1. rewrite copy_page, decide_False by (try done; apply Hx; by left). done. }
  split; [done|]. split; [done|]. split.
  - intros o Ho. unfold m1. rewrite copy_page, decide_True by (done || lia). replace (v + (p + o - p)) with (v + o) by lia.
    destruct (parent_same d m f h l' [p] Hb) as (Hsame & _ & _). rewrite (Hsame v) by (done || lia). apply u8_small. by apply load8_range.
  - intros w x Hw Hx. unfold m1. rewrite copy_page, decide_False; [done| |done]. intros Hx'. apply Hps.
    rewrite (in_page_eq p w x); [done|done|by apply (in_space_ok _ _ _ _ Hsp)|done|done].
Qed.

(** The held page is mapped at [i]. *)
Lemma map_copy d m f h l' p i (fl : Z) : building s l d m f h l' [p] -> user i -> i mod PGSIZE = 0 -> 0 <= fl < PGSIZE ->
  (forall va, i <= va < i + PGSIZE -> pte_of m d va = None) ->
  exists x m1 f1 h1 l1, mappages d i PGSIZE (V2P p) fl (after m f h s) = Done x (after m1 f1 h1 s) /\
    (x = -1 /\ building s l d m1 f1 h1 l1 [p] /\ l1 = [] /\ (forall va, user va -> page_at m1 d va = page_at m d va) \/
     x = 0 /\ building s l d m1 f1 h1 l1 [] /\ (forall a, ~ owned m1 d a -> load8 m1 a = load8 m a) /\
       forall va, 0 <= va < 2 ^ 32 -> pte_of m1 d va = if decide (i <= va < i + PGSIZE) then Some (Z.lor (V2P p) (Z.lor fl PTE_P)) else pte_of m d va).
Proof.
  intros Hb Hui Hia Hfl Hnone. pose proof Hb as [Hhw _ [_ Hall] Hfree Hsp [_ Hheld] Hpg _].
  assert (p ∈ [p]) as Hin by (by left). assert (page_ok p) as Hp by (apply Hall, Hpg; auto). destruct (page_phys p Hp) as (Hal & Hr & Hpv).
  assert (i + PGSIZE <= KERNBASE) as Hend by (unfold user, PGSIZE, KERNBASE in *; pose proof (Z.div_mod i 4096); lia).
  destruct (page_count_aligned i PGSIZE Hia eq_refl ltac:(apply Hui) ltac:(done) ltac:(unfold KERNBASE in *; lia)) as [Ea En].
  assert (page_count i PGSIZE = 1%nat) as E1 by (unfold PGSIZE in En |- *; lia).
  destruct (mappages_ok (after m f h s) d i PGSIZE (V2P p) fl l' c L b) as (x & m1 & f1 & h1 & l1 & E & Hex & _ & k & Hx & Hpte); try done.
  - apply Hsp. - apply Hui. - unfold KERNBASE in *; lia.
  - rewrite E1. unfold range_ok. unfold PGSIZE in *. pose proof (Z.div_mod (V2P p) 4096). lia.
  - rewrite Ea, En. intros va _ Hv. by apply Hnone.
  - exists x, m1, f1, h1, l1. split; [exact E|]. rewrite Ea, E1 in *. change (k_mem (after m f h s)) with m in Hpte. destruct Hx as [(-> & -> & Hk)|[-> ->]]; [left|right].
    + split; [done|]. assert (k = 0%nat) as -> by lia.
      assert (forall va, user va -> page_at m1 d va = page_at m d va) as Hsame.
      { intros va Hva. unfold page_at. rewrite Hpte by (by apply user_range). unfold mapped. by rewrite decide_False by lia. }
      split; [|done]. by apply (building_grow s l d m f h l' [p] m1 f1 h1 [] None).
    + assert (forall va, 0 <= va < 2 ^ 32 -> pte_of m1 d va = if decide (i <= va < i + PGSIZE) then Some (Z.lor (V2P p) (Z.lor fl PTE_P)) else pte_of m d va) as Hpte1.
      { intros va Hva. rewrite Hpte by done. unfold mapped. change (PGSIZE * Z.of_nat 1) with PGSIZE. case_decide; [|done].
        rewrite Z.div_small by (unfold PGSIZE in *; lia). by rewrite Z.add_0_r, Z.lor_assoc. }
      split; [done|]. split; [|split; [apply Hex|done]].
      apply (building_grow s l d m f h l' [] m1 f1 h1 l1 (Some (i, p))); [done|done| |].
      * intros j q [= -> ->]. split; [done|]. unfold page_at. by rewrite Hnone by (unfold PGSIZE; lia).
      * intros va Hva. unfold page_at. rewrite Hpte1 by (by apply user_range). destruct (decide (i <= va < i + PGSIZE)) as [Hin'|Hin'].
        -- rewrite decide_True by (by apply page_of). cbn. by rewrite PTE_ADDR_lor, Hpv by (done || by apply lor_small).
        -- rewrite decide_False by (by rewrite page_of). done.
Qed.

(** The pages below [i] are copied, and nothing else is mapped but the kernel. *)
Record copied_to d m i : Prop := {
  ct_pages : forall va, 0 <= va < i -> page_copied (k_mem s) pgdir m d va;
  ct_rest : forall va, i <= va < 2 ^ 32 -> pte_of m d va = kernel_entry kmap va }.

(** The page at [i] is taken, copied and mapped. *)
Lemma copied_next d m f h l' p i e m2 : building s l d m f h l' [p] -> copied_to d m i -> 0 <= i < sz -> i mod PGSIZE = 0 ->
  pte_of (k_mem s) pgdir i = Some e -> bit_of e PTE_P = true -> in_space (k_mem s) pgdir (P2V (PTE_ADDR e)) ->
  let m1 := memmove p (P2V (PTE_ADDR e)) (Z.to_nat PGSIZE) m in
  (exists f2 h2 l2, building s l d m2 f2 h2 l2 []) -> (forall a, ~ owned m2 d a -> load8 m2 a = load8 m1 a) ->
  (forall va, 0 <= va < 2 ^ 32 -> pte_of m2 d va = if decide (i <= va < i + PGSIZE) then Some (Z.lor (V2P p) (Z.lor (PTE_FLAGS e) PTE_P)) else pte_of m1 d va) ->
  copied_to d m2 (i + PGSIZE).
Proof.
  intros Hb [Hcp Hrest] Hi Hia Ee Ebit Hv m1 (f2 & h2 & l2 & Hb2) Hfr Hpte2. assert (0 <= i < 2 ^ 32) as Hir by (unfold KERNBASE in *; lia).
  destruct (copy_into d m f h l' p _ Hb Hv) as (Hb1 & Hpte1 & Hnew & Hold). fold m1 in Hb1, Hpte1, Hnew, Hold.
  pose proof Hb as [_ _ [_ Hall] _ _ _ Hpg _]. assert (p ∈ [p]) as Hin by (by left). assert (page_ok p) as Hp by (apply Hall, Hpg; auto).
  destruct (page_phys p Hp) as (Hal & Hr & Hpv). rewrite PTE_FLAGS_present in Hpte2 by done. pose proof (PTE_FLAGS_range e) as Hfl.
  assert (forall va v x, 0 <= va < i + PGSIZE -> page_at m2 d va = Some v -> v <= x < v + PGSIZE -> load8 m2 x = load8 m1 x) as Hkeep.
  { intros va v x Hva Hat Hx. apply Hfr. eapply user_not_owned; [apply Hb2| |exact Hat|exact Hx].
    unfold user, PGSIZE, KERNBASE in *. pose proof (Z.div_mod i 4096). lia. }
  split.
  - intros va Hva. assert (0 <= va < 2 ^ 32) as Hvr by (unfold PGSIZE, KERNBASE in *; lia).
    destruct (decide (i <= va)) as [Hge|Hlt].
    + exists e, (Z.lor (V2P p) (PTE_FLAGS e)). assert (pte_of m2 d va = Some (Z.lor (V2P p) (PTE_FLAGS e))) as Ec by (rewrite Hpte2, decide_True by (done || lia); done).
      split_and!; [|done|by rewrite PTE_FLAGS_lor|].
      * rewrite <- Ee. apply same_page_pte; [done|done|]. apply page_of; [done|lia].
      * intros o Ho. rewrite PTE_ADDR_lor, Hpv by done. rewrite (Hkeep va p); [by apply Hnew|done| |lia].
        unfold page_at. rewrite Ec. cbn. by rewrite PTE_ADDR_lor, Hpv.
    + assert (pte_of m2 d va = pte_of m d va) as Es by (rewrite Hpte2, decide_False, Hpte1 by (done || lia); done).
      eapply page_copied_keep; [apply Hcp; lia|done|]. intros v x Hat Hx.
      rewrite (Hkeep va v x) by (try done; unfold page_at in *; by rewrite Es). apply (Hold v); [|done].
      right; right. exists va. split; [unfold user, KERNBASE in *; lia|done].
  - intros va Hva. rewrite Hpte2, decide_False, Hpte1 by (unfold PGSIZE in *; lia). apply Hrest. unfold PGSIZE in *. lia.
Qed.

(** The pages run out when those below [i] are copied. *)
Lemma copied_short d m i X m1 f h : building s l d m1 f h [] X -> (length X <= 1)%nat -> copied_to d m i -> 0 <= i < sz -> i mod PGSIZE = 0 ->
  (forall va, user va -> page_at m1 d va = page_at m d va) -> short_of l (sz / PGSIZE).
Proof.
  intros Hb HX Hcp Hi Hia Hat. apply short_of_le with (i / PGSIZE); [|apply Z.div_le_mono; unfold PGSIZE in *; lia].
  eapply out_of_memory; [exact Hb|done|apply Z.div_pos; unfold PGSIZE; lia|]. intros va Hva Hle. rewrite Hat by done. unfold page_at.
  rewrite (ct_rest _ _ _ Hcp), kernel_entry_user; [done|apply kmap_ok|done|]. pose proof (user_range va Hva).
  unfold PGSIZE in *. pose proof (Z.div_mod i 4096). lia.
Qed.

Lemma copy_pages_ok d n : d <> 0 -> forall m f h l' i, building s l d m f h l' [] -> copied_to d m i -> 0 <= i -> i mod PGSIZE = 0 ->
  i < sz + PGSIZE -> sz <= i + PGSIZE * Z.of_nat n ->
  exists x m1 f1 h1 l1, copy_pages n d pgdir i sz (after m f h s) = Done x (after m1 f1 h1 s) /\
    (x = 0 /\ given_back s l m1 f1 h1 l1 /\ short_of l (sz / PGSIZE) \/
     x = d /\ building s l d m1 f1 h1 l1 [] /\ exists j, sz <= j < sz + PGSIZE /\ j mod PGSIZE = 0 /\ copied_to d m1 j).
Proof.
  intros Hd0. induction n as [|n IH]; intros m f h l' i Hb Hcp Hi0 Hia Hlt Hn; cbn [copy_pages];
    (destruct (Z.ltb_spec i sz) as [Hi|Hi]; cbn [negb];
      [|exists d, m, f, h, l'; split; [done|]; right; split; [done|]; split; [done|]; exists i; split; [lia|done]]); [lia|].
  destruct (look_parent d m f h l' [] i Hb ltac:(lia)) as (q & e & Eq & Hq0 & Eload & Ebit & Ee & Hv). rewrite (bind_done _ _ _ _ _ Eq).
  rewrite (proj2 (Z.eqb_neq q 0) Hq0). rewrite (bind_done _ _ _ e (after m f h s)) by (unfold gets; cbn; by rewrite <- Eload). rewrite Ebit. cbn [negb]. cbv zeta.
  destruct (kalloc_ok (after m f h s) l' c L b) as (h1 & Ek & Hhw1 & Hid1); [apply Hb|done|apply Hb|]. rewrite (bind_done _ _ _ _ _ Ek). clear Ek.
  change (k_freelist (after m f h s)) with f. change (k_mem (after m f h s)) with m.
  destruct l' as [|p l1].
  { assert (f = 0) as -> by apply Hb. cbn [Z.eqb]. pose proof (building_hw _ _ _ _ _ _ _ _ h1 Hb Hhw1 Hid1) as Hb1.
    destruct (building_free s l d m 0 h1 [] Hb1) as (m2 & f2 & h2 & l2 & E2 & Hgb). rewrite (bind_done _ _ _ tt (after m2 f2 h2 s)) by exact E2.
    exists 0, m2, f2, h2, l2. split; [done|]. left. split; [done|]. split; [done|].
    eapply (copied_short d m i []); [exact Hb|cbn; lia|exact Hcp|lia|done|done]. }
  destruct (building_take s l d m f h p l1 Hb) as (Hp & -> & Hb0). pose proof (building_hw _ _ _ _ _ _ _ _ h1 Hb0 Hhw1 Hid1) as Hb1.
  destruct (page_range p Hp) as [Hpr _]. rewrite (proj2 (Z.eqb_neq p 0)) by (unfold KERNBASE in *; lia).
  set (m1 := memmove p (P2V (PTE_ADDR e)) (Z.to_nat PGSIZE) m).
  rewrite (bind_done _ _ _ tt (after m1 (load32 m p) h1 s)) by done.
  destruct (copy_into d m _ _ l1 p _ Hb1 Hv) as (Hb2 & Hpte1 & _ & _). fold m1 in Hb2, Hpte1.
  destruct (map_copy d m1 _ _ l1 p i (PTE_FLAGS e) Hb2) as (x & m2 & f2 & h2 & l2 & Em & Hx); [unfold user; lia|done|apply PTE_FLAGS_range| |].
  { intros va Hva. assert (user va) as Hu by (unfold user, PGSIZE, KERNBASE in *; pose proof (Z.div_mod i 4096); lia).
    rewrite Hpte1 by (by apply user_range). rewrite (ct_rest _ _ _ Hcp) by (pose proof (user_range va Hu); lia). apply kernel_entry_user; [apply kmap_ok|done]. }
  rewrite (bind_done _ _ _ _ _ Em). destruct Hx as [(-> & Hb3 & -> & Hat)|(-> & Hb3 & Hfr & Hpte2)]; cbn [Z.ltb Z.compare].
  - destruct (building_put s l d m2 f2 h2 [] p Hb3) as (m3 & h3 & E3 & Hb4). rewrite (bind_done _ _ _ _ _ E3).
    destruct (building_free s l d m3 p h3 [p] Hb4) as (m4 & f4 & h4 & l4 & E4 & Hgb). rewrite (bind_done _ _ _ _ _ E4).
    exists 0, m4, f4, h4, l4. split; [done|]. left. split; [done|]. split; [done|].
    eapply (copied_short d m i [p] m2); [exact Hb3|cbn; lia|exact Hcp|lia|done|]. intros va Hva. rewrite Hat by done. unfold page_at. by rewrite Hpte1 by (by apply user_range).
  - rewrite u32_small by (unfold KERNBASE, PGSIZE in *; lia).
    apply (IH m2 f2 h2 l2); [done| |unfold PGSIZE in *; lia| |unfold PGSIZE in *; lia|lia].
    + eapply copied_next; [exact Hb1|exact Hcp|lia|done|exact Ee|done|done|by exists f2, h2, l2|done|done].
    + unfold PGSIZE in *. rewrite Z.add_mod, Hia by lia. done.
Qed.

Lemma copyuvm_ok : hw_ok (k_hw s) c L b -> free_pages s l ->
  exists x m1 f1 h1 l1, copyuvm pgdir sz s = Done x (after m1 f1 h1 s) /\
    (x = 0 /\ given_back s l m1 f1 h1 l1 /\ short_of l (sz / PGSIZE) \/
     x <> 0 /\ building s l x m1 f1 h1 l1 [] /\ exists j, sz <= j < sz + PGSIZE /\ j mod PGSIZE = 0 /\ copied_to x m1 j).
Proof.
  intros Hhw Hf. unfold copyuvm. destruct (setupkvm_ok s l Hhw Hf) as (d & m & f & h & l' & E & Hd). rewrite (bind_done _ _ _ _ _ E).
  destruct Hd as [(-> & Hgb & Hs)|(Hd0 & Hb & _ & Hpte)].
  { exists 0, m, f, h, l'. split; [done|]. left. split_and!; [done|done|]. unfold short_of. pose proof (Z.div_pos sz PGSIZE). unfold NPDENTRIES, PGSIZE in *. lia. }
  rewrite (proj2 (Z.eqb_neq d 0) Hd0).
  destruct (copy_pages_ok d (S (Z.to_nat (sz / PGSIZE))) Hd0 m f h l' 0 Hb) as (x & m1 & f1 & h1 & l1 & E1 & Hx); try done.
  - split; [intros va Hva; lia|]. intros va Hva. by apply Hpte.
  - unfold PGSIZE. lia.
  - pose proof (Z.div_mod sz PGSIZE ltac:(done)). pose proof (Z.mod_pos_bound sz PGSIZE ltac:(done)). pose proof (Z.div_pos sz PGSIZE). unfold PGSIZE in *. lia.
  - exists x, m1, f1, h1, l1. split; [done|]. destruct Hx as [?|(-> & ? & ?)]; [by left|right]. done.
Qed.
End pages.
End copy.

(** C13: [copyuvm] returns a copy of an address space or nothing at all.  If it
    returns a directory, every page of the parent below [sz] has a copy at the
    same address with the same contents and flags, the rest of the user part is
    empty, the kernel is mapped as [kmap] says, and the pages that were free
    are the pages of the new space and those still free, so that parent and
    child share none.  If memory runs out, at whatever point, it returns 0 and
    every page it took is free again; that it does only when the free pages are
    not more than a directory, its page tables, the page in hand and the pages
    of the parent.  No byte outside the pages that were free
    changes, hence nothing of the parent. *)
Theorem copyuvm_copies `{Linkage} s pgdir (sz : Z) l c L b :
  hw_ok (k_hw s) c L b -> L_kmem ∉ L -> free_pages s l -> mem_ok (k_mem s) -> space_ok (k_mem s) pgdir l ->
  0 <= sz <= KERNBASE -> (forall va, 0 <= va < sz -> pte_of (k_mem s) pgdir va <> None) ->
  exists x m' f h l', copyuvm pgdir sz s = Done x (after m' f h s) /\ hw_ok h c L b /\ free_pages (after m' f h s) l' /\
    (forall a, (forall p, p ∈ l -> ~ p <= a < p + PGSIZE) -> load8 m' a = load8 (k_mem s) a) /\
    (x = 0 /\ l' ≡ₚ l /\ Z.of_nat (length l) <= 2 + Z.of_nat NPDENTRIES + sz / PGSIZE \/
     x <> 0 /\ space_ok m' x l' /\ l ≡ₚ space_pages x m' ++ l' /\
       (forall va, 0 <= va < sz -> page_copied (k_mem s) pgdir m' x va) /\
       (forall va, PGROUNDUP sz <= va < 2 ^ 32 -> pte_of m' x va = kernel_entry kmap va)).
Proof.
  intros Hhw HL Hf Hm Hsp Hsz Hmap. destruct (copyuvm_ok c L b HL s pgdir sz l Hm Hsp Hsz Hmap Hhw Hf) as (x & m1 & f1 & h1 & l1 & E & Hx).
  exists x, m1, f1, h1, l1. split; [done|]. destruct Hx as [(-> & [? ? ? ? ?] & Hs)|(Hx0 & Hb & j & Hj & Hja & [Hcp Hrest])].
  - split_and!; [done|done|done|]. by left.
  - pose proof Hb as [? _ _ Hfree Hspc _ _ Hfr]. split_and!; [done|done|done|]. right.
    split_and!; [done|done|by apply (building_pages c L b HL s l x m1 f1 h1 l1 [])|intros va Hva; apply Hcp; lia|].
    intros va Hva. apply Hrest. destruct (PGROUNDUP_spec sz) as [H1 H2]; [unfold KERNBASE, PGSIZE in *; lia|].
    unfold PGSIZE in *. pose proof (Z.div_mod j 4096). pose proof (Z.div_mod (PGROUNDUP sz) 4096). lia.
Qed.

(** The space of one page, with two pages free. *)
Lemma copyuvm_copies_witness : let _ := demo_linkage in
  exists x m' f h l', copyuvm 0x80302000 4096 demo_space = Done x (after m' f h demo_space) /\ free_pages (after m' f h demo_space) l' /\
    (x = 0 /\ l' ≡ₚ [0x80300000; 0x80301000] \/ x <> 0 /\ page_copied (k_mem demo_space) 0x80302000 m' x 0).
Proof.
  intros lnk. destruct (@copyuvm_copies lnk demo_space 0x80302000 4096 [0x80300000; 0x80301000] 0 [] true) as (x & m' & f & h & l' & E & _ & Hf & _ & Hx).
  - apply demo_hw_ok, NoDup_nil_2.
  - apply not_elem_of_nil.
  - split; [|apply (demo_free_pages [])]. vm_compute. repeat split; intros [=].
  - unfold demo_space, demo_mem. cbn [k_mem set_k_mem]. repeat apply store32_mem_ok. apply map_Forall_empty.
  - apply demo_space_ok. intros q. rewrite !elem_of_cons, elem_of_nil. lia.
  - vm_compute. split; congruence.
  - intros va Hva. rewrite (same_page_pte 0x80302000 (k_mem demo_space) va 0); [vm_compute; discriminate|lia|lia|]. by rewrite !Z.div_small by (unfold PGSIZE; lia).
  - exists x, m', f, h, l'. split; [exact E|]. split; [exact Hf|]. destruct Hx as [(Hx & Hl & _)|(Hx0 & _ & _ & Hcp & _)]; [left; exact (conj Hx Hl)|right].
    split; [exact Hx0|]. apply Hcp. lia.
Defined.
