(* ===== verification/Fs.v ===== *)
(** * The file system ([kernel/fs.c])

    The block allocator, the inode cache, file contents, directories and path
    names, over the buffer cache and the log.  A pointer to an inode is its
    index in [icache.inode].  Data read from a file are returned to the caller
    as a list of bytes, and data to be written are given as one. *)
From S2P Require Import Prelude Types Str Spinlock Queue Kalloc Sched Context Sleeplock Bio Log Console.

(** ** On-disk inodes and directory entries *)
Definition half (dt : list Z) (k : nat) : Z := dt !!! k + 2 ^ 8 * dt !!! (k + 1)%nat.
Definition set_half (k : nat) (v : Z) (dt : list Z) : list Z :=
  <[(k + 1)%nat := u8 (v / 2 ^ 8)]> (<[k := u8 v]> dt).

(** [struct dinode], 64 bytes. *)
Record dinode := mkDinode {
  di_type : Z; di_major : Z; di_minor : Z; di_nlink : Z; di_size : Z; di_addrs : list Z }.
Definition dinode_zero : dinode := mkDinode 0 0 0 0 0 (replicate (S NDIRECT) 0).

(** The [k]th inode of an inode block. *)
Definition get_dinode (dt : list Z) (k : nat) : dinode :=
  mkDinode (i16 (half dt (64 * k))) (i16 (half dt (64 * k + 2))) (i16 (half dt (64 * k + 4)))
    (i16 (half dt (64 * k + 6))) (word dt (16 * k + 2)) ((fun j => word dt (16 * k + 3 + j)) <$> seq 0 (S NDIRECT)).
Definition put_dinode (k : nat) (d : dinode) (dt : list Z) : list Z :=
  set_words (16 * k + 3) (di_addrs d) (set_word (16 * k + 2) (di_size d)
    (set_half (64 * k + 6) (di_nlink d) (set_half (64 * k + 4) (di_minor d)
      (set_half (64 * k + 2) (di_major d) (set_half (64 * k) (di_type d) dt))))).

(** [struct dirent], 16 bytes: the inode number and the name padded with NUL. *)
Definition dirent_inum (de : list Z) : Z := half de 0.
Definition dirent_name (de : list Z) : list Z := drop 2 de.
Definition sizeof_dirent : Z := 16.

(** [strncpy(de.name, name, DIRSIZ)]. *)
Definition pad_name (name : list Z) : list Z := take DIRSIZ (cstr name ++ replicate DIRSIZ 0).
Definition mk_dirent (inum : Z) (name : list Z) : list Z := [u8 inum; u8 (inum / 2 ^ 8)] ++ pad_name name.

(** [namecmp]: [strncmp] of at most [DIRSIZ] bytes; a byte past the end of the
    list is the terminating NUL. *)
Fixpoint cmp_bytes (n : nat) (s t : list Z) : Z :=
  match n with
  | O => 0
  | S n' =>
      let a := default 0 (head s) in
      let b := default 0 (head t) in
      if negb (a =? 0) && (a =? b) then cmp_bytes n' (tail s) (tail t) else a - b
  end.
Definition namecmp (s t : list Z) : Z := cmp_bytes DIRSIZ s t.

(** [skipelem]: the next path element, at most [DIRSIZ] bytes of it, and the
    path after it without leading slashes. *)
Definition slash : Z := 47.
Fixpoint skip_slashes (path : list Z) : list Z :=
  match path with
  | c :: path' => if c =? slash then skip_slashes path' else path
  | [] => []
  end.
Fixpoint split_elem (path : list Z) : list Z * list Z :=
  match path with
  | [] => ([], [])
  | c :: path' => if c =? slash then ([], path) else let '(e, r) := split_elem path' in (c :: e, r)
  end.
Definition skipelem (path : list Z) : option (list Z * list Z) :=
  match skip_slashes path with
  | [] => None
  | p => let '(e, r) := split_elem p in Some (take DIRSIZ e, skip_slashes r)
  end.

(** The first clear bit of a bitmap block below bit [n] of the disk. *)
Definition bit_set (dt : list Z) (bi : Z) : bool :=
  negb (Z.land (dt !!! Z.to_nat (bi / 8)) (Z.shiftl 1 (bi mod 8)) =? 0).
Fixpoint find_clear (n : nat) (bi b size : Z) (dt : list Z) : option Z :=
  match n with
  | O => None
  | S n' =>
      if negb (b + bi <? size) then None
      else if negb (bit_set dt bi) then Some bi
      else find_clear n' (bi + 1) b size dt
  end.

(** The loop of [iget]: an entry for the inode, or the first unused entry. *)
Fixpoint find_inode (dev ino : Z) (i : nat) (empty : option nat) (l : list inode) : (nat + option nat) :=
  match l with
  | [] => inr empty
  | ip :: l' =>
      if (0 <? i_ref ip) && (i_dev ip =? dev) && (inum ip =? ino) then inl i
      else find_inode dev ino (S i)
        (if bool_decide (empty = None) && (i_ref ip =? 0) then Some i else empty) l'
  end.

(** The device functions [devsw[major].read] and [.write]. *)
Class DevSw := {
  devsw_read : Z -> option (nat -> Z -> K (Z * list Z));
  devsw_write : Z -> option (nat -> list Z -> K Z) }.

Section code.
Context `{Fuel} `{Disk} `{Serial} `{DevSw}.

Definition ip_get {A} (i : nat) (f : inode -> A) : K A :=
  o <- gets (fun s => f <$> k_icache s !! i) ;;
  of_option "inode" o.
Definition ip_set (i : nat) (f : inode -> inode) : K unit :=
  ip_get i (fun _ => tt) ;;
  modify (fun s => set_k_icache (alter f i (k_icache s)) s).
Definition sb_get {A} (f : superblock -> A) : K A := gets (fun s => f (k_sb s)).

Definition IBLOCK (ino : Z) : K Z := st <- sb_get inodestart ;; ret (u32 (ino / IPB + st)).
Definition BBLOCK (b : Z) : K Z := st <- sb_get bmapstart ;; ret (u32 (b / BPB + st)).

Definition bzero (dev bno : Z) : K unit :=
  i <- bread dev (u32 bno) ;;
  buf_set i (set_b_data (replicate (Z.to_nat BSIZE) 0)) ;;
  log_write i ;;
  brelse i.

(** [bp->data[bi/8] |= 1 << (bi % 8)] and [&= ~m]. *)
Definition set_bit (bi : Z) (dt : list Z) : list Z :=
  alter (fun v => Z.lor v (Z.shiftl 1 (bi mod 8))) (Z.to_nat (bi / 8)) dt.
Definition clear_bit (bi : Z) (dt : list Z) : list Z :=
  alter (fun v => Z.land v (Z.lnot (Z.shiftl 1 (bi mod 8)))) (Z.to_nat (bi / 8)) dt.

(** The outer loop of [balloc], over the bitmap blocks. *)
Fixpoint balloc_loop (n : nat) (dev b : Z) : K Z :=
  size <- sb_get sb_size ;;
  if negb (b <? size) then panic "balloc: out of blocks" else
  bb <- BBLOCK b ;;
  i <- bread dev bb ;;
  dt <- buf_get i b_data ;;
  match find_clear (Z.to_nat BPB) 0 b size dt with
  | Some bi =>
      buf_set i (fun x => set_b_data (set_bit bi (b_data x)) x) ;;
      log_write i ;;
      brelse i ;;
      bzero dev (b + bi) ;;
      ret (b + bi)
  | None =>
      brelse i ;;
      match n with
      | O => stopm NoFuel
      | S n' => balloc_loop n' dev (b + BPB)
      end
  end.
Definition balloc (dev : Z) : K Z :=
  size <- sb_get sb_size ;;
  balloc_loop (S (Z.to_nat (size / BPB))) dev 0.

Definition bfree (dev b : Z) : K unit :=
  bb <- BBLOCK b ;;
  i <- bread dev bb ;;
  let bi := b mod BPB in
  dt <- buf_get i b_data ;;
  if negb (bit_set dt bi) then panic "freeing free block" else
  buf_set i (fun x => set_b_data (clear_bit bi (b_data x)) x) ;;
  log_write i ;;
  brelse i.

Fixpoint init_inode_locks (n : nat) : K unit :=
  match n with
  | O => ret tt
  | S n' => init_inode_locks n' ;; initsleeplock (SL_inode n') "inode"
  end.
Definition iinit (dev : Z) : K unit :=
  initlock L_icache "icache" ;;
  init_inode_locks NINODE ;;
  sb <- readsb (u32 dev) ;;
  modify (set_k_sb sb) ;;
  cprintf (bytes "sb: size %d nblocks %d ninodes %d nlog %d logstart %d inodestart %d bmap start %d" ++ [10])
    [AInt (sb_size sb); AInt (nblocks sb); AInt (ninodes sb); AInt (nlog sb); AInt (logstart sb);
     AInt (inodestart sb); AInt (bmapstart sb)].

Definition iget (dev ino : Z) : K nat :=
  acquire L_icache ;;
  l <- gets k_icache ;;
  match find_inode dev ino 0 None l with
  | inl i =>
      ip_set i (fun x => set_i_ref (i32 (i_ref x + 1)) x) ;;
      release L_icache ;;
      ret i
  | inr None => panic "iget: no inodes"
  | inr (Some i) =>
      ip_set i (fun x => set_i_valid false (set_i_ref 1 (set_inum ino (set_i_dev dev x)))) ;;
      release L_icache ;;
      ret i
  end.

(** The loop of [ialloc] from inode number [ino]. *)
Fixpoint ialloc_loop (n : nat) (dev type ino : Z) : K nat :=
  ni <- sb_get ninodes ;;
  if negb (ino <? ni) then panic "ialloc: no inodes" else
  ib <- IBLOCK ino ;;
  i <- bread dev ib ;;
  let k := Z.to_nat (ino mod IPB) in
  dt <- buf_get i b_data ;;
  if di_type (get_dinode dt k) =? 0 then
    buf_set i (fun x => set_b_data (put_dinode k (mkDinode type 0 0 0 0 (replicate (S NDIRECT) 0)) (b_data x)) x) ;;
    log_write i ;;
    brelse i ;;
    iget dev ino
  else
    brelse i ;;
    match n with
    | O => stopm NoFuel
    | S n' => ialloc_loop n' dev type (ino + 1)
    end.
Definition ialloc (dev type : Z) : K nat :=
  ni <- sb_get ninodes ;;
  ialloc_loop (Z.to_nat ni) dev type 1.

(** The on-disk part of an inode. *)
Definition to_dinode (x : inode) : dinode :=
  mkDinode (i_type x) (major x) (minor x) (nlink x) (i_size x) (addrs x).
Definition of_dinode (d : dinode) (x : inode) : inode :=
  set_addrs (di_addrs d) (set_i_size (di_size d) (set_nlink (di_nlink d) (set_minor (di_minor d)
    (set_major (di_major d) (set_i_type (di_type d) x))))).

Definition iupdate (ip : nat) : K unit :=
  x <- ip_get ip (fun x => x) ;;
  ib <- IBLOCK (inum x) ;;
  i <- bread (i_dev x) ib ;;
  x <- ip_get ip (fun x => x) ;;
  buf_set i (fun b => set_b_data (put_dinode (Z.to_nat (inum x mod IPB)) (to_dinode x) (b_data b)) b) ;;
  log_write i ;;
  brelse i.

Definition idup (ip : nat) : K nat :=
  acquire L_icache ;;
  ip_set ip (fun x => set_i_ref (i32 (i_ref x + 1)) x) ;;
  release L_icache ;;
  ret ip.

Definition ilock (ip : nat) : K unit :=
  r <- ip_get ip i_ref ;;
  if r <? 1 then panic "ilock" else
  acquiresleep (SL_inode ip) ;;
  v <- ip_get ip i_valid ;;
  whenm (negb v)
    (x <- ip_get ip (fun x => x) ;;
     ib <- IBLOCK (inum x) ;;
     i <- bread (i_dev x) ib ;;
     dt <- buf_get i b_data ;;
     ip_set ip (of_dinode (get_dinode dt (Z.to_nat (inum x mod IPB)))) ;;
     brelse i ;;
     ip_set ip (set_i_valid true) ;;
     t <- ip_get ip i_type ;;
     if t =? 0 then panic "ilock: no type" else ret tt).

Definition iunlock (ip : nat) : K unit :=
  h <- holdingsleep (SL_inode ip) ;;
  r <- ip_get ip i_ref ;;
  if negb h || (r <? 1) then panic "iunlock" else
  releasesleep (SL_inode ip).

(** The loops of [itrunc] over the direct and the indirect blocks. *)
Fixpoint free_direct (ip : nat) (n i : nat) : K unit :=
  match n with
  | O => ret tt
  | S n' =>
      x <- ip_get ip (fun x => x) ;;
      a <- of_option "addrs" (addrs x !! i) ;;
      whenm (negb (a =? 0))
        (bfree (i_dev x) a ;;
         ip_set ip (fun x => set_addrs (<[i := 0]> (addrs x)) x)) ;;
      free_direct ip n' (S i)
  end.
Fixpoint free_indirect (ip b : nat) (n j : nat) : K unit :=
  match n with
  | O => ret tt
  | S n' =>
      dt <- buf_get b b_data ;;
      dev <- ip_get ip i_dev ;;
      whenm (negb (word dt j =? 0)) (bfree dev (word dt j)) ;;
      free_indirect ip b n' (S j)
  end.
Definition itrunc (ip : nat) : K unit :=
  free_direct ip NDIRECT 0 ;;
  x <- ip_get ip (fun x => x) ;;
  a <- of_option "addrs" (addrs x !! NDIRECT) ;;
  whenm (negb (a =? 0))
    (b <- bread (i_dev x) a ;;
     free_indirect ip b (Z.to_nat NINDIRECT) 0 ;;
     brelse b ;;
     bfree (i_dev x) a ;;
     ip_set ip (fun x => set_addrs (<[NDIRECT := 0]> (addrs x)) x)) ;;
  ip_set ip (set_i_size 0) ;;
  iupdate ip.

Definition iput (ip : nat) : K unit :=
  acquiresleep (SL_inode ip) ;;
  x <- ip_get ip (fun x => x) ;;
  whenm (i_valid x && (nlink x =? 0))
    (acquire L_icache ;;
     r <- ip_get ip i_ref ;;
     release L_icache ;;
     whenm (r =? 1)
       (itrunc ip ;;
        ip_set ip (set_i_type 0) ;;
        iupdate ip ;;
        ip_set ip (set_i_valid false))) ;;
  releasesleep (SL_inode ip) ;;
  acquire L_icache ;;
  ip_set ip (fun x => set_i_ref (i32 (i_ref x - 1)) x) ;;
  release L_icache.

Definition iunlockput (ip : nat) : K unit :=
  iunlock ip ;;
  iput ip.

(** [bmap]: the disk block of block [bn] of the file, allocated if absent. *)
Definition addr_or_alloc (ip : nat) (k : nat) : K Z :=
  x <- ip_get ip (fun x => x) ;;
  a <- of_option "addrs" (addrs x !! k) ;;
  if negb (a =? 0) then ret a else
  a <- balloc (i_dev x) ;;
  ip_set ip (fun x => set_addrs (<[k := a]> (addrs x)) x) ;;
  ret a.
Definition bmap (ip : nat) (bn : Z) : K Z :=
  if bn <? Z.of_nat NDIRECT then addr_or_alloc ip (Z.to_nat bn) else
  let bn := bn - Z.of_nat NDIRECT in
  if bn <? NINDIRECT then
    a <- addr_or_alloc ip NDIRECT ;;
    dev <- ip_get ip i_dev ;;
    i <- bread dev a ;;
    dt <- buf_get i b_data ;;
    let a := word dt (Z.to_nat bn) in
    a <- (if negb (a =? 0) then ret a else
          a <- balloc dev ;;
          buf_set i (fun x => set_b_data (set_word (Z.to_nat bn) a (b_data x)) x) ;;
          log_write i ;;
          ret a) ;;
    brelse i ;;
    ret a
  else panic "bmap: out of range".

(** [struct stat]. *)
Record stat := mkStat { st_type : Z; st_dev : Z; st_ino : Z; st_nlink : Z; st_size : Z }.
Definition stati (ip : nat) : K stat :=
  x <- ip_get ip (fun x => x) ;;
  ret (mkStat (i_type x) (i32 (i_dev x)) (inum x) (nlink x) (i_size x)).

(** The loop of [readi]: the [n] bytes at offset [off]. *)
Fixpoint read_loop (f : nat) (ip : nat) (off n : Z) : K (list Z) :=
  if n <=? 0 then ret [] else
  a <- bmap ip (off / BSIZE) ;;
  dev <- ip_get ip i_dev ;;
  i <- bread dev a ;;
  let m := Z.min n (BSIZE - off mod BSIZE) in
  dt <- buf_get i b_data ;;
  brelse i ;;
  match f with
  | O => stopm NoFuel
  | S f' =>
      l <- read_loop f' ip (off + m) (n - m) ;;
      ret (take (Z.to_nat m) (drop (Z.to_nat (off mod BSIZE)) dt) ++ l)
  end.
Definition readi (ip : nat) (off n : Z) : K (Z * list Z) :=
  x <- ip_get ip (fun x => x) ;;
  if i_type x =? T_DEV then
    if (major x <? 0) || (NDEV <=? major x) then ret (-1, []) else
    match devsw_read (major x) with
    | None => ret (-1, [])
    | Some f => f ip (i32 n)
    end
  else if (i_size x <? off) || (u32 (off + n) <? off) then ret (-1, [])
  else
    let n := if i_size x <? u32 (off + n) then u32 (i_size x - off) else n in
    l <- read_loop (S (Z.to_nat (n / BSIZE + 1))) ip off n ;;
    ret (i32 n, l).

(** The loop of [writei]: returns the offset after the data. *)
Definition splice (k : nat) (l dt : list Z) : list Z := take k dt ++ l ++ drop (k + length l) dt.
Fixpoint write_loop (f : nat) (ip : nat) (off : Z) (src : list Z) : K Z :=
  match src with
  | [] => ret off
  | _ =>
      a <- bmap ip (off / BSIZE) ;;
      dev <- ip_get ip i_dev ;;
      i <- bread dev a ;;
      let m := Z.min (Z.of_nat (length src)) (BSIZE - off mod BSIZE) in
      buf_set i (fun x => set_b_data (splice (Z.to_nat (off mod BSIZE)) (take (Z.to_nat m) src) (b_data x)) x) ;;
      log_write i ;;
      brelse i ;;
      match f with
      | O => stopm NoFuel
      | S f' => write_loop f' ip (off + m) (drop (Z.to_nat m) src)
      end
  end.
Definition writei (ip : nat) (src : list Z) (off : Z) : K Z :=
  let n := Z.of_nat (length src) in
  x <- ip_get ip (fun x => x) ;;
  if i_type x =? T_DEV then
    if (major x <? 0) || (NDEV <=? major x) then ret (-1) else
    match devsw_write (major x) with
    | None => ret (-1)
    | Some f => f ip src
    end
  else if (i_size x <? off) || (u32 (off + n) <? off) then ret (-1)
  else if MAXFILE * BSIZE <? u32 (off + n) then ret (-1)
  else
    off' <- write_loop (S (Z.to_nat (n / BSIZE + 1))) ip off src ;;
    size <- ip_get ip i_size ;;
    whenm ((0 <? n) && (size <? off'))
      (ip_set ip (set_i_size off') ;;
       iupdate ip) ;;
    ret n.

(** The search of [dirlookup] from offset [off]. *)
Fixpoint lookup_loop (f : nat) (dp : nat) (name : list Z) (off : Z) : K (option (nat * Z)) :=
  size <- ip_get dp i_size ;;
  if negb (off <? size) then ret None else
  let* (r, de) := readi dp off sizeof_dirent in
  if negb (r =? sizeof_dirent) then panic "dirlookup read" else
  if negb (dirent_inum de =? 0) && (namecmp name (dirent_name de) =? 0) then
    dev <- ip_get dp i_dev ;;
    ip <- iget dev (dirent_inum de) ;;
    ret (Some (ip, off))
  else
    match f with
    | O => stopm NoFuel
    | S f' => lookup_loop f' dp name (u32 (off + sizeof_dirent))
    end.

(** The inode and the offset of its entry ([*poff]). *)
Definition dirlookup (dp : nat) (name : list Z) : K (option (nat * Z)) :=
  t <- ip_get dp i_type ;;
  if negb (t =? T_DIR) then panic "dirlookup not DIR" else
  size <- ip_get dp i_size ;;
  lookup_loop (S (Z.to_nat (size / sizeof_dirent))) dp name 0.

(** The offset of an empty entry, or the end of the directory. *)
Fixpoint empty_loop (f : nat) (dp : nat) (off : Z) : K Z :=
  size <- ip_get dp i_size ;;
  if negb (u32 off <? size) then ret off else
  let* (r, de) := readi dp off sizeof_dirent in
  if negb (r =? sizeof_dirent) then panic "dirlink read" else
  if dirent_inum de =? 0 then ret off else
  match f with
  | O => stopm NoFuel
  | S f' => empty_loop f' dp (i32 (off + sizeof_dirent))
  end.
Definition dirlink (dp : nat) (name : list Z) (ino : Z) : K Z :=
  o <- dirlookup dp name ;;
  match o with
  | Some (ip, _) => iput ip ;; ret (-1)
  | None =>
      size <- ip_get dp i_size ;;
      off <- empty_loop (S (Z.to_nat (size / sizeof_dirent))) dp 0 ;;
      r <- writei dp (mk_dirent (u16 ino) name) (u32 off) ;;
      if negb (r =? sizeof_dirent) then panic "dirlink" else
      ret 0
  end.

(** The loop of [namex] from inode [ip]: the inode, and the last element when
    the parent is asked for. *)
Fixpoint namex_loop (f : nat) (ip : nat) (path : list Z) (parent : bool) (last : list Z) : K (option (nat * list Z)) :=
  match skipelem path with
  | None => if parent then iput ip ;; ret None else ret (Some (ip, last))
  | Some (name, rest) =>
      ilock ip ;;
      t <- ip_get ip i_type ;;
      if negb (t =? T_DIR) then iunlockput ip ;; ret None
      else if parent && bool_decide (rest = []) then iunlock ip ;; ret (Some (ip, name))
      else
        o <- dirlookup ip name ;;
        match o with
        | None => iunlockput ip ;; ret None
        | Some (next, _) =>
            iunlockput ip ;;
            match f with
            | O => stopm NoFuel
            | S f' => namex_loop f' next rest parent name
            end
        end
  end.
Definition namex (path : list Z) (parent : bool) : K (option (nat * list Z)) :=
  ip <- (if bool_decide (head path = Some slash) then iget ROOTDEV ROOTINO
         else
           p <- curproc ;;
           c <- proc_get p cwd ;;
           c <- of_option "cwd" c ;;
           idup c) ;;
  namex_loop (length path) ip path parent [].

Definition namei (path : list Z) : K (option nat) :=
  o <- namex path false ;;
  ret (fst <$> o).
Definition nameiparent (path : list Z) : K (option (nat * list Z)) := namex path true.

End code.
