(* ===== verification/Fsdata.v ===== *)
(** * File names and on-disk records ([kernel/fs.c], [kernel/fs.h])

    [skipelem] against the splitting of a path at its slashes, the comparison
    of names against the names [dirlink] stores, and the layout of inodes in a
    block: what [iupdate] stores is what [ilock] loads. *)
From S2P Require Import Prelude Types Str Log Console Fs.

(** ** Path names *)
Section paths.
Implicit Types (path e r : list Z) (c : Z).

(** A path split at every slash, and its elements: the pieces that are not
    empty, cut to the length of a directory entry. *)
Fixpoint split_on path : list (list Z) :=
  match path with
  | [] => [[]]
  | c :: path' =>
      if c =? slash then [] :: split_on path'
      else match split_on path' with e :: l => (c :: e) :: l | [] => [[c]] end
  end.
Definition pieces path : list (list Z) := filter (fun e => e <> []) (split_on path).
Definition elements path : list (list Z) := take DIRSIZ <$> pieces path.

(** The elements [namex] meets. *)
Fixpoint walk (n : nat) path : list (list Z) :=
  match skipelem path with
  | None => []
  | Some (e, rest) => e :: match n with O => [] | S n' => walk n' rest end
  end.

Lemma pieces_skip path : pieces (skip_slashes path) = pieces path.
Proof. induction path as [|c path IH]; cbn; [done|]. unfold pieces. cbn. destruct (c =? slash) eqn:E; cbn; [exact IH|]. by rewrite E. Qed.

Lemma skip_head path c r : skip_slashes path = c :: r -> (c =? slash) = false.
Proof. induction path as [|v path IH]; cbn; [done|]. destruct (v =? slash) eqn:E; [done|]. by intros [= <- _]. Qed.

Lemma skip_length path : (length (skip_slashes path) <= length path)%nat.
Proof. induction path as [|c path IH]; cbn; [done|]. destruct (c =? slash); cbn; lia. Qed.

(** One element and what follows it. *)
Lemma split_elem_spec path e r : split_elem path = (e, r) ->
  split_on path = e :: (match r with [] => [] | _ :: r' => split_on r' end) /\ (length r <= length path)%nat /\
  (r = [] \/ exists r', r = slash :: r').
Proof.
  revert e r. induction path as [|c path IH]; intros e r; cbn; [intros [= <- <-]; split; [done|split; [done|by left]]|].
  destruct (Z.eqb_spec c slash) as [->|Hc].
  - intros [= <- <-]. split; [done|]. split; [done|]. right. by eexists.
  - destruct (split_elem path) as [e0 r0] eqn:E. intros [= <- <-]. destruct (IH e0 r0 eq_refl) as (-> & Hl & Hr).
    split; [done|]. split; [lia|done].
Qed.

Lemma pieces_elem path e r : split_elem path = (e, r) -> e <> [] -> pieces path = e :: pieces r.
Proof.
  intros E He. destruct (split_elem_spec path e r E) as (Es & _ & Hr). unfold pieces. rewrite Es, filter_cons_True by done. f_equal.
  by destruct Hr as [-> | [r' ->]].
Qed.

Lemma skipelem_spec path :
  match skipelem path with
  | None => pieces path = []
  | Some (e, rest) => exists e', e = take DIRSIZ e' /\ pieces path = e' :: pieces rest /\ (length rest < length path)%nat
  end.
Proof.
  unfold skipelem. pose proof (pieces_skip path) as Hp. pose proof (skip_length path) as Hl.
  destruct (skip_slashes path) as [|c r] eqn:E; [by rewrite <- Hp|]. pose proof (skip_head _ _ _ E) as Hc.
  destruct (split_elem (c :: r)) as [e' r'] eqn:Es. exists e'. split; [done|].
  assert (e' <> [] /\ (length r' < length (c :: r))%nat) as [He Hlr].
  { cbn in Es. rewrite Hc in Es. destruct (split_elem r) as [e0 r0] eqn:E0. injection Es as <- <-.
    destruct (split_elem_spec r e0 r0 E0) as (_ & ? & _). split; [done|cbn; lia]. }
  rewrite pieces_skip, <- Hp. split; [by apply pieces_elem|]. pose proof (skip_length r'). lia.
Qed.

Lemma walk_pieces (n : nat) : forall path, (length path <= n)%nat -> walk n path = elements path.
Proof.
  induction n as [|n IH]; intros path Hn; cbn [walk]; pose proof (skipelem_spec path) as Hs;
    destruct (skipelem path) as [[e rest]|]; unfold elements.
  - destruct Hs as (e' & _ & _ & ?). lia.
  - by rewrite Hs.
  - destruct Hs as (e' & -> & -> & Hl). cbn. f_equal. apply IH. lia.
  - by rewrite Hs.
Qed.

(** the path elements that [namex] meets, calling [skipelem] until it
    finds none, are the non-empty pieces of the path between slashes in order,
    each cut to [DIRSIZ] bytes; as many calls as the path has bytes are enough. *)
Theorem path_elements path : walk (length path) path = elements path.
Proof. by apply walk_pieces. Qed.

End paths.

(** ** Directory entries *)
Section dirents.
Implicit Types (a l nm : list Z).

Lemma cmp_bytes_zero (n : nat) : forall s t,
  cmp_bytes n s t = 0 <-> take n (cstr s ++ replicate n 0) = take n (cstr t ++ replicate n 0).
Proof.
  induction n as [|n IH]; intros s t; cbn [cmp_bytes]; [done|].
  assert (forall u, take (S n) (cstr u ++ replicate (S n) 0) =
    (if default 0 (head u) =? 0 then replicate (S n) 0 else default 0 (head u) :: take n (cstr (tail u) ++ replicate n 0))) as Hu.
  { intros [|v u]; [cbn; f_equal; by rewrite take_ge by (rewrite length_replicate; lia)|]. cbn [head tail cstr default from_option id].
    destruct (Z.eqb_spec v 0); cbn [app]; [by rewrite take_ge by (rewrite length_replicate; lia)|].
    rewrite firstn_cons. f_equal. replace (replicate (S n) 0) with (replicate n 0 ++ [0]) by (by rewrite <- replicate_S_end).
    rewrite app_assoc, take_app_le; [done|]. rewrite length_app, length_replicate. lia. }
  rewrite !Hu. set (x := default 0 (head s)). set (y := default 0 (head t)).
  destruct (Z.eqb_spec x 0) as [Ex|Ex]; cbn [negb andb].
  - destruct (Z.eqb_spec y 0) as [Ey|Ey]; [split; [done|lia]|]. split; [lia|]. cbn. intros [= E _]. lia.
  - destruct (Z.eqb_spec x y) as [Exy|Exy].
    + rewrite <- Exy, (proj2 (Z.eqb_neq x 0) Ex), IH. split; [by intros ->|by intros [= ?]].
    + split; [lia|]. destruct (Z.eqb_spec y 0) as [Ey|Ey]; cbn; intros [= E _]; lia.
Qed.

Lemma cstr_nonzero l : Forall (fun c => c <> 0) (cstr l).
Proof. induction l as [|v l IH]; cbn; [done|]. destruct (Z.eqb_spec v 0); by constructor. Qed.

Lemma cstr_pad l (n k : nat) : Forall (fun c => c <> 0) l -> cstr (take n (l ++ replicate k 0)) = take n l.
Proof.
  intros Hl. revert n. induction Hl as [|v l Hv _ IH]; intros [|n]; cbn; [done|by destruct k|done|].
  by rewrite (proj2 (Z.eqb_neq v 0) Hv), IH.
Qed.

Lemma mk_dirent_length n nm : length (mk_dirent n nm) = 16%nat.
Proof. unfold mk_dirent, pad_name, DIRSIZ. cbn [length app]. rewrite length_take, length_app, length_replicate. lia. Qed.

Lemma mk_dirent_inum ino nm : 0 <= ino < 2 ^ 16 -> dirent_inum (mk_dirent ino nm) = ino.
Proof.
  intros Hi. unfold dirent_inum, half, mk_dirent. cbn. unfold u8. rewrite (Z.mod_small (ino / 2 ^ 8)).
  - pose proof (Z.div_mod ino (2 ^ 8) ltac:(lia)). lia.
  - split; [apply Z.div_pos; lia|apply Z.div_lt_upper_bound; lia].
Qed.

(** an entry as [dirlink] writes it is found by [dirlookup] under exactly the
    names that agree with the stored one in their first [DIRSIZ] bytes before
    the NUL, and gives back the inode number. *)
Theorem dirent_matches ino a nm :
  0 <= ino < 2 ^ 16 ->
  dirent_inum (mk_dirent ino nm) = ino /\
  (namecmp a (dirent_name (mk_dirent ino nm)) = 0 <-> take DIRSIZ (cstr a) = take DIRSIZ (cstr nm)).
Proof.
  intros Hi. split; [by apply mk_dirent_inum|]. unfold namecmp. rewrite cmp_bytes_zero.
  change (dirent_name (mk_dirent ino nm)) with (pad_name nm). unfold pad_name at 1. rewrite cstr_pad by apply cstr_nonzero.
  assert (forall l, take DIRSIZ (take DIRSIZ l ++ replicate DIRSIZ 0) = take DIRSIZ (l ++ replicate DIRSIZ 0)) as E.
  { intros l. rewrite !take_app, take_take, Nat.min_id, length_take. f_equal. f_equal. lia. }
  rewrite E. split.
  - intros Ht. apply (f_equal cstr) in Ht. by rewrite !cstr_pad in Ht by apply cstr_nonzero.
  - intros Ht. rewrite <- (E (cstr a)), Ht. apply E.
Qed.

Lemma dirent_matches_witness : namecmp (bytes "README") (dirent_name (mk_dirent 7 (bytes "README"))) = 0.
Proof. apply (dirent_matches 7 (bytes "README") (bytes "README")); [lia|reflexivity]. Defined.

End dirents.

(** ** Inodes in a block *)
Section dinodes.
Implicit Types (dt bs : list Z) (k j w : nat) (v : Z) (di : dinode).

Lemma set_half_length k v dt : length (set_half k v dt) = length dt.
Proof. unfold set_half. by rewrite !length_insert. Qed.

(** Bytes outside the half-word, or outside the word, are kept. *)
Lemma set_half_ne k v dt j : j <> k -> j <> (k + 1)%nat -> set_half k v dt !!! j = dt !!! j.
Proof. intros ? ?. unfold set_half. by rewrite !list_lookup_total_insert_ne. Qed.

Lemma set_word_ne w v dt j : (j < 4 * w \/ 4 * w + 3 < j)%nat -> set_word w v dt !!! j = dt !!! j.
Proof. intros Hj. unfold set_word. by rewrite !list_lookup_total_insert_ne by lia. Qed.

Lemma set_words_ne bs : forall w dt j, (j < 4 * w \/ 4 * (w + length bs) <= j)%nat -> set_words w bs dt !!! j = dt !!! j.
Proof.
  induction bs as [|v bs IH]; intros w dt j Hj; cbn in *; [done|]. rewrite IH by lia. apply set_word_ne. lia.
Qed.

Lemma half_ext dt dt' k : dt' !!! k = dt !!! k -> dt' !!! (k + 1)%nat = dt !!! (k + 1)%nat -> half dt' k = half dt k.
Proof. intros E1 E2. unfold half. by rewrite E1, E2. Qed.

Lemma word_ext dt dt' w : (forall j, (4 * w <= j <= 4 * w + 3)%nat -> dt' !!! j = dt !!! j) -> word dt' w = word dt w.
Proof. intros E. unfold word. by rewrite !E by lia. Qed.

Lemma half_set_half k v dt : (k + 1 < length dt)%nat -> half (set_half k v dt) k = u16 v.
Proof.
  intros Hk. unfold half, set_half. rewrite list_lookup_total_insert_ne, list_lookup_total_insert_eq by lia.
  rewrite list_lookup_total_insert_eq by (rewrite length_insert; lia).
  unfold u8, u16. change (2 ^ 16) with (2 ^ 8 * 2 ^ 8). by rewrite Z.rem_mul_r by lia.
Qed.

Lemma i16_u16 v : - 2 ^ 15 <= v < 2 ^ 15 -> i16 (u16 v) = v.
Proof.
  intros Hv. unfold i16, u16. rewrite Zplus_mod_idemp_l. rewrite Z.mod_small by lia. lia.
Qed.

(** The fields of an inode fit their types. *)
Record dinode_ok di : Prop := {
  do_short : Forall (fun v => - 2 ^ 15 <= v < 2 ^ 15) [di_type di; di_major di; di_minor di; di_nlink di];
  do_size : 0 <= di_size di < 2 ^ 32;
  do_addrs : length (di_addrs di) = S NDIRECT /\ Forall (fun v => 0 <= v < 2 ^ 32) (di_addrs di) }.

Lemma put_dinode_bytes k di dt j : length (di_addrs di) = 13%nat -> (j < 64 * k \/ 64 * k + 64 <= j)%nat ->
  put_dinode k di dt !!! j = dt !!! j.
Proof.
  intros Hl Hj. unfold put_dinode. rewrite set_words_ne, set_word_ne, !set_half_ne by lia. done.
Qed.

(** the inode [iupdate] stores in its place of the inode block is the inode
    [ilock] loads from there, and the seven other inodes of the block are
    unchanged. *)
Theorem dinode_roundtrip k di dt :
  dinode_ok di -> (k < 8)%nat -> length dt = Z.to_nat BSIZE ->
  get_dinode (put_dinode k di dt) k = di /\
  forall j, (j < 8)%nat -> j <> k -> get_dinode (put_dinode k di dt) j = get_dinode dt j.
Proof.
  intros [Hs Hz [Hl Ha]] Hk Hdt. change (Z.to_nat BSIZE) with 512%nat in Hdt. change (S NDIRECT) with 13%nat in Hl. split.
  - destruct di as [ty ma mi nl sz ad]. cbn [di_type di_major di_minor di_nlink di_size di_addrs] in *.
    apply Forall_cons in Hs as [H1 Hs]. apply Forall_cons in Hs as [H2 Hs]. apply Forall_cons in Hs as [H3 Hs]. apply Forall_cons in Hs as [H4 _].
    unfold get_dinode, put_dinode. cbn [di_type di_major di_minor di_nlink di_size di_addrs].
    set (d1 := set_half (64 * k) ty dt). set (d2 := set_half (64 * k + 2) ma d1). set (d3 := set_half (64 * k + 4) mi d2).
    set (d4 := set_half (64 * k + 6) nl d3). set (d5 := set_word (16 * k + 2) sz d4). set (d6 := set_words (16 * k + 3) ad d5).
    assert (length d1 = 512%nat /\ length d2 = 512%nat /\ length d3 = 512%nat /\ length d4 = 512%nat /\ length d5 = 512%nat) as (L1 & L2 & L3 & L4 & L5)
      by (unfold d5, d4, d3, d2, d1; by rewrite set_word_length, !set_half_length).
    assert (forall q, (q + 1 < 64 * k + 8)%nat -> half d6 q = half d4 q) as E6.
    { intros q Hq. unfold d6, d5. apply half_ext; rewrite set_words_ne, set_word_ne by lia; done. }
    f_equal.
    + rewrite E6 by lia. rewrite (half_ext d1) by (unfold d4, d3, d2; by rewrite !set_half_ne by lia).
      unfold d1. rewrite half_set_half by lia. by apply i16_u16.
    + rewrite E6 by lia. rewrite (half_ext d2) by (unfold d4, d3; by rewrite !set_half_ne by lia).
      unfold d2. rewrite half_set_half by lia. by apply i16_u16.
    + rewrite E6 by lia. rewrite (half_ext d3) by (unfold d4; by rewrite !set_half_ne by lia).
      unfold d3. rewrite half_set_half by lia. by apply i16_u16.
    + rewrite E6 by lia. unfold d4. rewrite half_set_half by lia. by apply i16_u16.
    + unfold d6. rewrite word_set_words_lt by lia. unfold d5. rewrite word_set_word by lia. by apply u32_small.
    + change (S NDIRECT) with 13%nat. apply list_eq. intros i. rewrite list_lookup_fmap. destruct (decide (i < 13)%nat) as [Hi|Hi].
      * rewrite lookup_seq_lt by lia. cbn. destruct (lookup_lt_is_Some_2 ad i) as [v Hv]; [lia|]. rewrite Hv. f_equal.
        unfold d6. rewrite (word_set_words ad _ _ i v) by (done || lia). apply u32_small. by apply (proj1 (Forall_lookup _ _) Ha i).
      * rewrite lookup_seq_ge by lia. symmetry. apply lookup_ge_None. lia.
  - intros j Hj Hjk.
    assert (forall q, (64 * j <= q < 64 * j + 64)%nat -> put_dinode k di dt !!! q = dt !!! q) as Hb
      by (intros q Hq; apply put_dinode_bytes; [done|lia]).
    assert (forall q, (64 * j <= q /\ q + 1 < 64 * j + 64)%nat -> half (put_dinode k di dt) q = half dt q) as Hh
      by (intros q Hq; apply half_ext; apply Hb; lia).
    assert (forall q, (16 * j <= q < 16 * j + 16)%nat -> word (put_dinode k di dt) q = word dt q) as Hw
      by (intros q Hq; apply word_ext; intros o Ho; apply Hb; lia).
    unfold get_dinode. rewrite !Hh, Hw by lia. f_equal. apply list_fmap_ext. intros i q Hq. apply lookup_seq in Hq as [-> Hq].
    apply Hw. change (S NDIRECT) with 13%nat in Hq. lia.
Qed.

End dinodes.

Lemma dinode_roundtrip_witness :
  get_dinode (put_dinode 3 (mkDinode 2 0 0 1 1000 ([40; 41] ++ replicate 11 0)) (replicate 512 255)) 3
    = mkDinode 2 0 0 1 1000 ([40; 41] ++ replicate 11 0).
Proof.
  apply (dinode_roundtrip 3 (mkDinode 2 0 0 1 1000 ([40; 41] ++ replicate 11 0)) (replicate 512 255)).
  - split; [repeat constructor; cbn; lia|cbn; lia|]. split; [reflexivity|]. repeat constructor; cbn; lia.
  - lia.
  - reflexivity.
Defined.
