(* ===== verification/FsSpec.v ===== *)
(** * The contents of files ([kernel/fs.c])

    A file is described by its bytes: [file_byte s x o] is the byte at offset
    [o] of the file with inode [x], found through the direct and indirect
    addresses in the blocks as the file system sees them ([content]).  [readi]
    returns those bytes and [writei] replaces them. *)
From S2P Require Import Prelude Types Str Spinlock Queue Kalloc Sched Context Sleeplock Bio Log Console Fs.

(** ** Blocks read and changed inside a system call *)
Section blocks.
Context (c : nat) (b : bool) (p : nat) (d : proc) `{Fuel} `{DiskOk}.
Implicit Types (s : kernel) (bs : list Z) (n m : Z) (dt : list Z) (i : nat).
#[local] Abbreviation runs := (runs c b p d).
#[local] Abbreviation ready := (ready d).
#[local] Abbreviation reads := (reads d).

(** The file system sees the same in [s'] as in [s]. *)
Record still s bs s' : Prop := {
  st_ready : ready s' bs;
  st_content : forall m, content s' m = content s m;
  st_disk : k_disk s' = k_disk s;
  st_only : disk_only s s' }.

Lemma still_refl s bs : ready s bs -> still s bs s.
Proof. by split. Qed.

Lemma still_trans s bs s1 s2 : still s bs s1 -> still s1 bs s2 -> still s bs s2.
Proof. intros [? Hc1 Hd1 Ho1] [? Hc2 Hd2 Ho2]. split; [done|intros m; by rewrite Hc2|congruence|by etransitivity]. Qed.

Lemma disk_only_fields s s' : disk_only s s' ->
  k_icache s' = k_icache s /\ k_sb s' = k_sb s /\ k_log s' = k_log s /\ k_mem s' = k_mem s /\ k_ftable s' = k_ftable s.
Proof. intros [-> _]. done. Qed.

Lemma ready_room s bs : ready s bs -> exists lru, bcache_ok s (pid d) lru [] /\ room s [].
Proof.
  intros [(lru & Hbc) Hf _ Hd _]. exists lru. split; [done|]. eapply room_by_count; [done|intros m; by apply Hd|].
  pose proof (lf_bufs _ _ _ Hf). simpl. lia.
Qed.

Lemma runs_read {A} L' (k : nat -> K A) s bs n Q :
  ready s bs -> 0 <= n < Z.of_nat (length (k_disk s)) ->
  (forall i s1 lru dt, reads n s lru [] i s1 -> content s n = Some dt -> length dt = Z.to_nat BSIZE -> runs [] L' (k i) s1 Q) ->
  runs [] L' (x <- bread ROOTDEV n ;; k x) s Q.
Proof.
  intros Hr Hn Hk. destruct (ready_room s bs Hr) as (lru & Hbc & Hroom).
  eapply (runs_bread c b p d); [done|done|intros i Hi; by apply elem_of_nil in Hi|by right|].
  intros i s1 Hr1. pose proof Hr1 as (_ & Hi & x & E1 & Hbc1 & _ & _ & Hcx & _).
  eapply Hk; [done|done|]. pose proof (bc_len _ _ _ _ Hbc1) as Hlen1.
  pose proof (bo_data _ _ (bc_bufs _ _ _ _ Hbc1 i Hi)) as Hd.
  assert (k_bufs s1 !!! i = x) as Ei; [|by rewrite Ei in Hd].
  rewrite E1 in Hlen1 |- *. simpl in *. rewrite length_insert in Hlen1. apply list_lookup_total_insert_eq. lia.
Qed.

Lemma runs_data {A} L' (k : list Z -> K A) s n lru i s1 dt Q :
  reads n s lru [] i s1 -> content s n = Some dt ->
  runs [] L' (k dt) s1 Q -> runs [] L' (x <- buf_get i b_data ;; k x) s1 Q.
Proof.
  intros (_ & Hi & x & E1 & Hbc1 & _ & _ & Hcx & _) Hdt Hk. pose proof (bc_len _ _ _ _ Hbc1) as Hlen1.
  assert (k_bufs s1 !!! i = x) as Ei.
  { rewrite E1 in Hlen1 |- *. simpl in *. rewrite length_insert in Hlen1. apply list_lookup_total_insert_eq. lia. }
  apply runs_buf_get; [lia|]. rewrite Ei. by replace (b_data x) with dt by congruence.
Qed.

Lemma runs_leave {A} L' (k : unit -> K A) s bs n lru i s1 Q :
  ready s bs -> reads n s lru [] i s1 ->
  (forall s', still s bs s' -> runs [] L' (k tt) s' Q) -> runs [] L' (x <- brelse i ;; k x) s1 Q.
Proof.
  intros Hrd Hr1 Hk. pose proof Hrd as [Hq Hf Hrec Hd Hh].
  pose proof Hr1 as (_ & Hi & x & E1 & Hbc1 & Hdx & Hbx & Hcx & Hc1 & Hcl1 & Hd1).
  pose proof (bc_len _ _ _ _ Hbc1) as Hlen1.
  assert (k_bufs s1 !!! i = x) as Ei.
  { rewrite E1 in Hlen1 |- *. simpl in *. rewrite length_insert in Hlen1. apply list_lookup_total_insert_eq. lia. }
  assert (k_disk s1 = k_disk s) as Hk1 by by rewrite E1.
  eapply (runs_brelse c b p d); [exact Hbc1| |].
  { rewrite Ei. intros Hv. rewrite Hbx, Hk1. apply Hcl1. unfold dirty. by rewrite Hv. }
  intros s3 Hr3. apply Hk. pose proof (reads_only _ _ _ _ _ _ _ Hr1) as Ho1. pose proof (releases_only _ _ _ _ _ _ Hr3) as Ho3.
  destruct (releases_disk _ _ _ _ _ _ Hr3) as (Hk3 & _ & _). pose proof Hr3 as (_ & lru3 & _ & Hbc3 & _).
  assert (disk_only s s3) as Ho by by etransitivity.
  split; [|intros m; by rewrite (releases_content _ _ _ _ _ _ _ Hr3)|congruence|done].
  rewrite <- Hk1, <- Hk3 in *. pose proof (disk_only_log _ _ Ho) as El. split; rewrite ?El; try done.
  - by exists lru3.
  - intros m. by rewrite (releases_dirty _ _ _ _ _ _ _ Hr3), Hd1.
Qed.

End blocks.

(** ** The bytes of a file *)
Section files.
Implicit Types (s : kernel) (x : inode) (bn o a : Z).

Definition nonzero a : option Z := if a =? 0 then None else Some a.

(** The disk block of block [bn] of the file. *)
Definition file_addr s x bn : option Z :=
  if bn <? Z.of_nat NDIRECT then addrs x !! Z.to_nat bn ≫= nonzero
  else
    a ← addrs x !! NDIRECT ≫= nonzero;
    dt ← content s a;
    nonzero (word dt (Z.to_nat (bn - Z.of_nat NDIRECT))).
Definition file_byte s x o : option Z :=
  a ← file_addr s x (o / BSIZE);
  dt ← content s a;
  dt !! Z.to_nat (o mod BSIZE).

(** The inode [ip] of the cache is that of a file, all of whose blocks are allocated. *)
Record file_ok s (ip : nat) x : Prop := {
  fo_inode : k_icache s !! ip = Some x;
  fo_dev : i_dev x = ROOTDEV;
  fo_type : i_type x <> T_DEV;
  fo_size : 0 <= i_size x <= MAXFILE * BSIZE;
  fo_addrs : length (addrs x) = S NDIRECT;
  fo_indirect : forall a, addrs x !! NDIRECT = Some a -> a <> 0 -> 0 <= a < Z.of_nat (length (k_disk s));
  fo_blocks : forall bn, 0 <= bn -> bn * BSIZE < i_size x ->
    exists a, file_addr s x bn = Some a /\ 0 <= a < Z.of_nat (length (k_disk s)) }.

Lemma nonzero_some a a' : nonzero a = Some a' -> a' = a /\ a <> 0.
Proof. unfold nonzero. destruct (Z.eqb_spec a 0); [done|]. by intros [= ->]. Qed.

Lemma file_addr_ext s s' x bn : (forall m, content s' m = content s m) -> file_addr s' x bn = file_addr s x bn.
Proof.
  intros Hc. unfold file_addr. destruct (bn <? _); [done|]. destruct (addrs x !! NDIRECT ≫= nonzero) as [a|]; [|done]. cbn. by rewrite Hc.
Qed.

Lemma file_byte_ext s s' x o : (forall m, content s' m = content s m) -> file_byte s' x o = file_byte s x o.
Proof. intros Hc. unfold file_byte. rewrite (file_addr_ext s s') by done. destruct (file_addr s x _) as [a|]; [|done]. cbn. by rewrite Hc. Qed.

Context (c : nat) (b : bool) (p : nat) (d : proc) `{Fuel} `{DiskOk}.

Lemma file_ok_still s bs s' ip x : still d s bs s' -> file_ok s ip x -> file_ok s' ip x.
Proof.
  intros [_ Hc Hd Ho] [? ? ? ? ? ? Hb]. destruct (disk_only_fields _ _ Ho) as (Ei & _). split; rewrite ?Ei, ?Hd; try done.
  intros bn ? ?. rewrite (file_addr_ext s s') by done. by apply Hb.
Qed.

Lemma runs_ip_get {A B} L L' (f : inode -> B) (k : B -> K A) s Q ip x :
  k_icache s !! ip = Some x -> runs c b p d L L' (k (f x)) s Q -> runs c b p d L L' (y <- ip_get ip f ;; k y) s Q.
Proof. intros E Hk. unfold ip_get. runs_step. rewrite E. by eapply runs_of_option. Qed.

Lemma runs_ip_set {A} L L' (f : inode -> inode) (k : unit -> K A) s Q ip x :
  k_icache s !! ip = Some x -> runs c b p d L L' (k tt) (set_k_icache (<[ip := f x]> (k_icache s)) s) Q ->
  runs c b p d L L' (y <- ip_set ip f ;; k y) s Q.
Proof.
  intros E Hk. unfold ip_set. runs_step. eapply runs_ip_get; [done|]. runs_step.
  by rewrite (alter_lookup_insert _ _ _ _ E).
Qed.

(** An address that is there is returned as it is. *)
Lemma runs_addr {A} L' (k : Z -> K A) s Q ip x (j : nat) a :
  k_icache s !! ip = Some x -> addrs x !! j ≫= nonzero = Some a ->
  runs c b p d [] L' (k a) s Q -> runs c b p d [] L' (y <- addr_or_alloc ip j ;; k y) s Q.
Proof.
  intros E Ha Hk. destruct (addrs x !! j) as [a0|] eqn:Ej; [|done]. cbn in Ha. apply nonzero_some in Ha as [-> Hn].
  unfold addr_or_alloc. runs_step. eapply runs_ip_get; [done|]. rewrite Ej. runs_step.
  rewrite (proj2 (Z.eqb_neq a0 0) Hn). cbn [negb]. by runs_step.
Qed.

Lemma runs_bmap {A} L' (k : Z -> K A) s bs Q ip x bn a :
  ready d s bs -> file_ok s ip x -> 0 <= bn < MAXFILE -> file_addr s x bn = Some a ->
  (forall s', still d s bs s' -> runs c b p d [] L' (k a) s' Q) ->
  runs c b p d [] L' (y <- bmap ip bn ;; k y) s Q.
Proof.
  intros Hrd Hf Hbn Ha Hk. pose proof (fo_inode _ _ _ Hf) as Ex. unfold bmap, file_addr in *.
  destruct (Z.ltb_spec bn (Z.of_nat NDIRECT)) as [Hlt|Hge].
  { eapply runs_addr; [done|done|]. apply Hk. by apply still_refl. }
  rewrite (proj2 (Z.ltb_lt _ _)) by (unfold MAXFILE in Hbn; lia).
  destruct (addrs x !! NDIRECT ≫= nonzero) as [a0|] eqn:Ea0; [|done]. cbn [mbind option_bind] in Ha.
  destruct (content s a0) as [dt|] eqn:Edt; [|done]. cbn [mbind option_bind] in Ha. apply nonzero_some in Ha as [-> Hn].
  assert (0 <= a0 < Z.of_nat (length (k_disk s))) as Ha0.
  { destruct (addrs x !! NDIRECT) as [a1|] eqn:E1; [|done]. cbn in Ea0. apply nonzero_some in Ea0 as [-> Hn1]. by apply (fo_indirect _ _ _ Hf). }
  runs_step. eapply runs_addr; [done|done|]. runs_step. eapply runs_ip_get; [done|]. rewrite (fo_dev _ _ _ Hf). runs_step.
  eapply (runs_read c b p d); [done|done|]. intros i s1 lru dt' Hr1 Edt' _. assert (dt' = dt) as -> by congruence.
  runs_step. eapply (runs_data c b p d); [done|done|]. rewrite (proj2 (Z.eqb_neq _ 0) Hn). cbn [negb]. runs_step.
  eapply (runs_leave c b p d); [done|done|]. intros s' Hs'. runs_step. by apply Hk.
Qed.

(** *** Reading *)
(** [l] is what the file holds from offset [o]. *)
Definition holds s x o (l : list Z) : Prop := forall k : nat, (k < length l)%nat -> file_byte s x (o + Z.of_nat k) = l !! k.

Lemma offset_block o (k : nat) : 0 <= o -> Z.of_nat k < BSIZE - o mod BSIZE ->
  (o + Z.of_nat k) / BSIZE = o / BSIZE /\ (o + Z.of_nat k) mod BSIZE = o mod BSIZE + Z.of_nat k.
Proof.
  intros Ho Hk. change BSIZE with 512 in *. pose proof (Z.div_mod o 512 ltac:(lia)). pose proof (Z.mod_pos_bound o 512 ltac:(lia)).
  assert ((o + Z.of_nat k) / 512 = o / 512) as E by (symmetry; apply (Z.div_unique _ _ _ (o mod 512 + Z.of_nat k)); lia).
  split; [done|]. pose proof (Z.div_mod (o + Z.of_nat k) 512 ltac:(lia)). lia.
Qed.

(** The part of a block one round copies. *)
Lemma holds_block s x o a dt (m : nat) l :
  0 <= o -> file_addr s x (o / BSIZE) = Some a -> content s a = Some dt -> length dt = Z.to_nat BSIZE ->
  Z.of_nat m <= BSIZE - o mod BSIZE -> holds s x (o + Z.of_nat m) l ->
  let part := take m (drop (Z.to_nat (o mod BSIZE)) dt) in length part = m /\ holds s x o (part ++ l).
Proof.
  intros Ho Ha Hdt Hlen Hm Hl part. pose proof (Z.mod_pos_bound o BSIZE ltac:(done)) as Hr.
  assert (length part = m) as Hp by (unfold part; rewrite length_take, length_drop, Hlen; lia). split; [done|].
  intros k Hk. rewrite length_app, Hp in Hk. destruct (decide (k < m)%nat) as [Hkm|Hkm].
  - rewrite lookup_app_l by lia. unfold part. rewrite lookup_take_lt, lookup_drop by done.
    destruct (offset_block o k Ho ltac:(lia)) as [E1 E2]. unfold file_byte. rewrite E1, E2, Ha. cbn. rewrite Hdt. cbn. f_equal. lia.
  - rewrite lookup_app_r, Hp by lia. rewrite <- Hl by lia. f_equal. lia.
Qed.

Lemma runs_read_loop {A} L' ip x bs (f : nat) : forall (k : list Z -> K A) s Q o n,
  ready d s bs -> file_ok s ip x -> 0 <= o -> 0 <= n -> o + n <= i_size x -> (0 < n -> o mod BSIZE + n <= BSIZE * Z.of_nat f) ->
  (forall s' l, still d s bs s' -> Z.of_nat (length l) = n -> holds s x o l -> runs c b p d [] L' (k l) s' Q) ->
  runs c b p d [] L' (y <- read_loop f ip o n ;; k y) s Q.
Proof.
  induction f as [|f IH]; intros k s Q o n Hrd Hf Ho Hn Hend Hfuel Hk; cbn [read_loop].
  all: destruct (Z.leb_spec n 0) as [Hn0|Hn0];
    [runs_step; apply Hk; [by apply still_refl|cbn; lia|intros j Hj; cbn in Hj; lia]|].
  { specialize (Hfuel Hn0). pose proof (Z.mod_pos_bound o BSIZE ltac:(done)). lia. }
  specialize (Hfuel Hn0). pose proof (Z.mod_pos_bound o BSIZE ltac:(done)) as Hr. pose proof (Z.div_mod o BSIZE ltac:(done)) as Hdm.
  destruct (fo_blocks _ _ _ Hf (o / BSIZE)) as (a & Ha & Hda); [by apply Z.div_pos|lia|].
  assert (0 <= o / BSIZE < MAXFILE) as Hbn.
  { pose proof (fo_size _ _ _ Hf). split; [by apply Z.div_pos|]. apply Z.div_lt_upper_bound; [done|]. lia. }
  runs_step. eapply runs_bmap; [done|done|done|done|]. intros s1 Hs1. runs_step.
  pose proof (file_ok_still s bs s1 ip x Hs1 Hf) as Hf1. pose proof (st_ready _ _ _ _ Hs1) as Hrd1.
  eapply runs_ip_get; [apply Hf1|]. rewrite (fo_dev _ _ _ Hf). runs_step.
  eapply (runs_read c b p d); [done|by rewrite (st_disk _ _ _ _ Hs1)|]. intros i s2 lru dt Hr2 Edt Hlen.
  rewrite (st_content _ _ _ _ Hs1) in Edt. set (m := Z.min n (BSIZE - o mod BSIZE)).
  runs_step. eapply (runs_data c b p d); [done|by rewrite (st_content _ _ _ _ Hs1)|]. runs_step.
  eapply (runs_leave c b p d); [done|done|]. intros s3 Hs3. runs_step.
  pose proof (still_trans _ _ _ _ _ Hs1 Hs3) as Hs03.
  apply IH; [apply Hs3|by eapply file_ok_still|lia|lia|lia| |].
  - intros Hpos. assert (m = BSIZE - o mod BSIZE) as Em by lia.
    assert ((o + m) mod BSIZE = 0) as ->; [|lia]. rewrite Em. replace (o + (BSIZE - o mod BSIZE)) with ((o / BSIZE + 1) * BSIZE) by lia.
    by apply Z.mod_mul.
  - intros s4 l Hs4 Hl Hh. pose proof (still_trans _ _ _ _ _ Hs03 Hs4) as Hs04. runs_step.
    destruct (holds_block s x o a dt (Z.to_nat m) l) as [Hpl Hph]; [done|done|done|done|lia| |].
    { intros j Hj. rewrite Z2Nat.id by lia. rewrite <- (file_byte_ext s s3) by apply Hs03. by apply Hh. }
    apply Hk; [done| |exact Hph]. rewrite length_app, Hpl. lia.
Qed.

Context `{DevSw}.

Lemma readi_runs s bs ip x o n :
  ready d s bs -> file_ok s ip x -> 0 <= o < 2 ^ 32 -> 0 <= n < 2 ^ 32 ->
  runs c b p d [] [] (readi ip o n) s (fun r s' =>
    still d s bs s' /\
    if (i_size x <? o) || (2 ^ 32 <=? o + n) then r = (-1, [])
    else r.1 = Z.min n (i_size x - o) /\ Z.of_nat (length r.2) = r.1 /\ holds s x o r.2).
Proof.
  intros Hrd Hf Ho Hn. pose proof (fo_size _ _ _ Hf) as Hsz. unfold MAXFILE, NINDIRECT in Hsz. change BSIZE with 512 in Hsz.
  change (Z.of_nat NDIRECT) with 12 in Hsz. change (512 / 4) with 128 in Hsz.
  unfold readi. eapply runs_ip_get; [apply Hf|]. rewrite (proj2 (Z.eqb_neq _ _) (fo_type _ _ _ Hf)).
  assert ((u32 (o + n) <? o) = (2 ^ 32 <=? o + n)) as ->.
  { destruct (Z.leb_spec (2 ^ 32) (o + n)).
    - apply Z.ltb_lt. replace (u32 (o + n)) with (o + n - 2 ^ 32); [lia|]. unfold u32. apply (Z.mod_unique _ _ 1); lia.
    - apply Z.ltb_ge. rewrite u32_small; lia. }
  destruct (Z.ltb_spec (i_size x) o), (Z.leb_spec (2 ^ 32) (o + n)); cbn [orb];
    try (apply runs_ret; split; [by apply still_refl|done]).
  set (n' := if i_size x <? u32 (o + n) then u32 (i_size x - o) else n).
  assert (n' = Z.min n (i_size x - o)) as En.
  { unfold n'. rewrite (u32_small (o + n)) by lia. destruct (Z.ltb_spec (i_size x) (o + n)); [|lia]. rewrite u32_small by lia. lia. }
  eapply runs_read_loop; [done|done|lia|lia|lia| |].
  - intros _. change BSIZE with 512. pose proof (Z.mod_pos_bound o 512). pose proof (Z.div_mod n' 512). pose proof (Z.mod_pos_bound n' 512).
    assert (0 <= n' / 512) by (apply Z.div_pos; lia). lia.
  - intros s' l Hs' Hl Hh. apply runs_ret. split; [done|]. cbn. rewrite i32_small by lia. rewrite Hl. split_and!; [lia|done|done].
Qed.

(** C17: [readi] on a file or directory whose blocks are allocated: for every
    offset and count it returns, with the number of bytes up to the end of the
    file and exactly the bytes the file holds there (through direct and
    indirect blocks, across block boundaries), or -1 when the offset lies
    beyond the end or the sum overflows; the file system is left as it was. *)
Theorem readi_reads s bs ip x o n :
  ready d s bs -> file_ok s ip x -> 0 <= o < 2 ^ 32 -> 0 <= n < 2 ^ 32 ->
  runs c b p d [] [] (readi ip o n) s (fun r s' =>
    still d s bs s' /\
    if (i_size x <? o) || (2 ^ 32 <=? o + n) then r = (-1, [])
    else r.1 = Z.min n (i_size x - o) /\ Z.of_nat (length r.2) = r.1 /\ holds s x o r.2).
Proof. apply readi_runs. Qed.

(** *** Writing over the contents of a file *)
(** A transaction is under way, with room in the log for [r] more blocks. *)
Record in_tx s (bs : list Z) (r : nat) : Prop := {
  tx_ready : ready d s bs;
  tx_log : length (lh_block (k_log s)) = Z.to_nat LOGSIZE;
  tx_open : 1 <= outstanding (k_log s);
  tx_room : Z.of_nat (length bs + r) <= l_size (k_log s) - 1 }.

(** No two blocks of the file share a disk block, and none lies in the log. *)
Record blocks_apart s x : Prop := {
  ba_inj : forall bn bn' a, 0 <= bn -> 0 <= bn' -> bn * BSIZE < i_size x -> bn' * BSIZE < i_size x ->
    file_addr s x bn = Some a -> file_addr s x bn' = Some a -> bn = bn';
  ba_indirect : forall bn a, 0 <= bn -> bn * BSIZE < i_size x -> file_addr s x bn = Some a -> addrs x !! NDIRECT <> Some a;
  ba_outside : forall bn a, 0 <= bn -> bn * BSIZE < i_size x -> file_addr s x bn = Some a -> outside (k_log s) a }.

(** From [s] to [s'] the bytes [l] were written at offset [o] of the file. *)
Record overwrites s ip x o (l : list Z) s' : Prop := {
  ow_file : file_ok s' ip x;
  ow_apart : blocks_apart s' x;
  ow_addr : forall bn, file_addr s' x bn = file_addr s x bn;
  ow_byte : forall o', 0 <= o' < i_size x ->
    file_byte s' x o' = if decide (o <= o' < o + Z.of_nat (length l)) then l !! Z.to_nat (o' - o) else file_byte s x o';
  ow_other : forall m, (forall bn, 0 <= bn -> bn * BSIZE < i_size x -> file_addr s x bn <> Some m) -> content s' m = content s m;
  ow_disk : k_disk s' = k_disk s;
  ow_icache : k_icache s' = k_icache s }.

Lemma overwrites_nil s ip x o s' bs : file_ok s ip x -> blocks_apart s x -> still d s bs s' -> overwrites s ip x o [] s'.
Proof.
  intros Hf [Hi Hn Ho] Hs. pose proof (st_content _ _ _ _ Hs) as Hc.
  destruct (disk_only_fields _ _ (st_only _ _ _ _ Hs)) as (Ei & _ & El & _). split; [..|exact Ei].
  - by eapply file_ok_still.
  - split; intros *; rewrite ?El, !(file_addr_ext s s') by done; [apply Hi|apply Hn|apply Ho].
  - intros bn. by apply file_addr_ext.
  - intros o' _. rewrite decide_False by (cbn; lia). by apply file_byte_ext.
  - intros m _. apply Hc.
  - apply Hs.
Qed.

Lemma in_tx_still s bs r s' : in_tx s bs r -> still d s bs s' -> in_tx s' bs r.
Proof.
  intros [? ? ? ?] Hs. destruct (disk_only_fields _ _ (st_only _ _ _ _ Hs)) as (_ & _ & El & _).
  split; rewrite ?El; [apply Hs|done..].
Qed.

(** After the block of offset [o] is replaced by one that has [l] spliced in. *)
Lemma splice_lookup (k : nat) (l dt : list Z) (j : nat) : (k + length l <= length dt)%nat ->
  splice k l dt !! j = if decide (k <= j < k + length l)%nat then l !! (j - k)%nat else dt !! j.
Proof.
  intros Hk. unfold splice. assert (length (take k dt) = k) as Hl by (rewrite length_take; lia).
  case_decide as Hj.
  - rewrite lookup_app_r, Hl, lookup_app_l by lia. done.
  - destruct (decide (j < k)%nat) as [Hlt|Hge]; [by rewrite lookup_app_l, lookup_take_lt by lia|].
    rewrite lookup_app_r, Hl, lookup_app_r, lookup_drop by lia. f_equal. lia.
Qed.

Lemma splice_length (k : nat) (l dt : list Z) : (k + length l <= length dt)%nat -> length (splice k l dt) = length dt.
Proof. intros Hk. unfold splice. rewrite !length_app, length_take, length_drop. lia. Qed.

Lemma file_addr_logs s bs a dt s' x bn : logs d s bs a dt s' -> addrs x !! NDIRECT <> Some a -> file_addr s' x bn = file_addr s x bn.
Proof.
  intros Hl Hne. unfold file_addr. destruct (bn <? _); [done|]. destruct (addrs x !! NDIRECT) as [a0|]; [|done]. cbn.
  destruct (nonzero a0) as [a1|] eqn:E; [|done]. apply nonzero_some in E as [-> _]. cbn.
  rewrite (lg_content _ _ _ _ _ _ Hl), decide_False by (intros ->; done). done.
Qed.

Lemma logs_fields s bs a dt s' : logs d s bs a dt s' ->
  k_icache s' = k_icache s /\ same_place (k_log s) (k_log s') /\ outstanding (k_log s') = outstanding (k_log s) /\
  length (lh_block (k_log s')) = length (lh_block (k_log s)).
Proof.
  intros [_ El _ _ _ Ho]. destruct (disk_only_fields _ _ Ho) as (Ei & _).
  destruct (absorb_geometry a (k_log s)) as (Ea & Eb & Ec & Ed & Ee & Eg). rewrite El. by split_and!.
Qed.

Lemma overwrites_block s bs ip x o a dt l s' :
  file_ok s ip x -> blocks_apart s x -> 0 <= o -> Z.of_nat (length l) <= BSIZE - o mod BSIZE -> o + Z.of_nat (length l) <= i_size x ->
  o < i_size x -> file_addr s x (o / BSIZE) = Some a -> content s a = Some dt -> length dt = Z.to_nat BSIZE ->
  logs d s bs a (splice (Z.to_nat (o mod BSIZE)) l dt) s' -> overwrites s ip x o l s'.
Proof.
  intros Hf Hap Ho Hl Hend Hlt Ha Hdt Hlen Hlg. pose proof (Z.mod_pos_bound o BSIZE ltac:(done)) as Hr.
  pose proof (Z.div_mod o BSIZE ltac:(done)) as Hdm. pose proof Hap as [Hinj Hind Hout].
  assert (0 <= o / BSIZE) as Hq by by apply Z.div_pos. assert (o / BSIZE * BSIZE < i_size x) as Hin by lia.
  pose proof (Hind _ _ Hq Hin Ha) as Hne. pose proof (lg_disk _ _ _ _ _ _ Hlg) as Ed.
  assert (forall bn, file_addr s' x bn = file_addr s x bn) as Haddr by (intros bn; by eapply file_addr_logs).
  destruct (logs_fields _ _ _ _ _ Hlg) as (Ei & (Es & Ez & _) & _). split; [..|done|exact Ei].
  - destruct Hf as [? ? ? ? ? ? Hb]. split; rewrite ?Ei, ?Ed; try done. intros bn. rewrite Haddr. apply Hb.
  - split; intros *; unfold outside; rewrite ?Es, ?Ez, !Haddr; [apply Hinj|apply Hind|apply Hout].
  - done.
  - intros o' Ho'. unfold file_byte. rewrite Haddr.
    pose proof (Z.div_mod o' BSIZE ltac:(done)) as Hdm'. pose proof (Z.mod_pos_bound o' BSIZE ltac:(done)) as Hr'.
    destruct (fo_blocks _ _ _ Hf (o' / BSIZE)) as (a' & Ha' & _); [apply Z.div_pos; [lia|done]|lia|]. rewrite Ha'. cbn.
    rewrite (lg_content _ _ _ _ _ _ Hlg). case_decide as Ea; [subst a'|].
    + assert (o' / BSIZE = o / BSIZE) as Eq by (apply (Hinj _ _ a); [apply Z.div_pos; [lia|done]|done|lia|done|done|done]). cbn.
      rewrite splice_lookup by lia. rewrite Eq in Hdm'. destruct (decide (o <= o' < _)) as [Hw|Hw].
      * rewrite decide_True by lia. f_equal. lia.
      * rewrite decide_False by lia. by rewrite Hdt.
    + rewrite decide_False; [done|]. intros Hw. apply Ea.
      destruct (offset_block o (Z.to_nat (o' - o)) Ho ltac:(lia)) as [E1 _]. rewrite Z2Nat.id in E1 by lia.
      replace (o + (o' - o)) with o' in E1 by lia. rewrite E1 in Ha'. congruence.
  - intros m Hm. rewrite (lg_content _ _ _ _ _ _ Hlg), decide_False; [done|]. intros ->. by apply (Hm _ Hq Hin).
Qed.

Lemma overwrites_app s ip x o l1 s1 l2 s2 :
  0 <= o -> overwrites s ip x o l1 s1 -> overwrites s1 ip x (o + Z.of_nat (length l1)) l2 s2 -> overwrites s ip x o (l1 ++ l2) s2.
Proof.
  intros Ho [_ _ Ha1 Hb1 Hc1 Hd1 Hi1] [? ? Ha2 Hb2 Hc2 Hd2 Hi2]. split; [done|done|intros bn; by rewrite Ha2| | |congruence|congruence].
  - intros o' Ho'. rewrite Hb2 by done. rewrite length_app. case_decide as H2'.
    + rewrite decide_True by lia. rewrite lookup_app_r by lia. f_equal. lia.
    + rewrite Hb1 by done. case_decide as H1'.
      * rewrite decide_True by lia. rewrite lookup_app_l; [done|lia].
      * rewrite decide_False by lia. done.
  - intros m Hm. rewrite Hc2; [by apply Hc1|]. intros bn ? ?. rewrite Ha1. by apply Hm.
Qed.

Lemma runs_write_loop {A} L' ip x (f : nat) : forall (k : Z -> K A) s bs Q o (src : list Z),
  in_tx s bs f -> file_ok s ip x -> blocks_apart s x -> 0 <= o -> o + Z.of_nat (length src) <= i_size x ->
  (src <> [] -> o mod BSIZE + Z.of_nat (length src) <= BSIZE * Z.of_nat f) ->
  (forall s' bs', in_tx s' bs' 0 -> overwrites s ip x o src s' -> runs c b p d [] L' (k (o + Z.of_nat (length src))) s' Q) ->
  runs c b p d [] L' (y <- write_loop f ip o src ;; k y) s Q.
Proof.
  induction f as [|f IH]; intros k s bs Q o src Htx Hf Hap Ho Hend Hfuel Hk; cbn [write_loop].
  all: destruct src as [|v0 src0];
    [runs_step; replace o with (o + Z.of_nat (length (@nil Z))) by (cbn; lia); eapply Hk;
       [destruct Htx as [? ? ? ?]; split; try done; lia|by eapply overwrites_nil; [done|done|apply still_refl; apply Htx]]|].
  { specialize (Hfuel ltac:(done)). pose proof (Z.mod_pos_bound o BSIZE ltac:(done)). cbn in Hfuel. lia. }
  set (src := v0 :: src0) in *. assert (0 < Z.of_nat (length src)) as Hpos by (cbn; lia).
  specialize (Hfuel ltac:(done)). pose proof (Z.mod_pos_bound o BSIZE ltac:(done)) as Hr. pose proof (Z.div_mod o BSIZE ltac:(done)) as Hdm.
  destruct (fo_blocks _ _ _ Hf (o / BSIZE)) as (a & Ha & Hda); [by apply Z.div_pos|lia|].
  assert (0 <= o / BSIZE < MAXFILE) as Hbn.
  { pose proof (fo_size _ _ _ Hf). split; [by apply Z.div_pos|]. apply Z.div_lt_upper_bound; [done|]. lia. }
  runs_step. eapply runs_bmap; [apply Htx|done|done|done|]. intros s1 Hs1. runs_step.
  pose proof (file_ok_still s bs s1 ip x Hs1 Hf) as Hf1. pose proof (in_tx_still _ _ _ _ Htx Hs1) as Htx1.
  pose proof (overwrites_nil s ip x o s1 bs Hf Hap Hs1) as Hw1. pose proof (ow_apart _ _ _ _ _ _ Hw1) as Hap1.
  eapply runs_ip_get; [apply Hf1|]. rewrite (fo_dev _ _ _ Hf). runs_step.
  eapply (runs_read c b p d); [apply Htx1|by rewrite (st_disk _ _ _ _ Hs1)|]. intros i s2 lru dt Hr2 Edt Hlen.
  set (m := Z.min (Z.of_nat (length src)) (BSIZE - o mod BSIZE)).
  assert (length (take (Z.to_nat m) src) = Z.to_nat m) as Hlm by (rewrite length_take; lia).
  assert (file_addr s1 x (o / BSIZE) = Some a) as Ha1 by (by rewrite (ow_addr _ _ _ _ _ _ Hw1)).
  runs_step. eapply (runs_log_update_then c b p d _ _ _ _ s1 bs a (splice (Z.to_nat (o mod BSIZE)) (take (Z.to_nat m) src) dt)).
  { apply Htx1. } { apply Htx1. } { apply Htx1. } { pose proof (tx_room _ _ _ Htx1). lia. }
  { by rewrite (st_disk _ _ _ _ Hs1). } { apply (ba_outside _ _ Hap1 (o / BSIZE)); [by apply Z.div_pos|lia|done]. }
  { rewrite splice_length; [done|]. rewrite Hlm, Hlen. lia. } { exact Hr2. } { intros y Hy. do 2 f_equal. congruence. }
  intros s3 Hlg. destruct (logs_fields _ _ _ _ _ Hlg) as (Ei & Hpl & Eo & Ell).
  assert (overwrites s1 ip x o (take (Z.to_nat m) src) s3) as Hw3.
  { eapply overwrites_block; try done; rewrite ?Hlm; lia. }
  assert (in_tx s3 (with_block a bs) f) as Htx3.
  { destruct Htx1 as [_ Hll Hop Hrm]. pose proof (with_block_length a bs). destruct Hpl as (_ & Ez & _).
    split; [apply Hlg|congruence|lia|rewrite Ez; lia]. }
  runs_step. eapply IH; [exact Htx3|apply Hw3|apply Hw3|lia|rewrite length_drop; lia| |].
  - intros Hne. rewrite length_drop. assert (0 < Z.of_nat (length (drop (Z.to_nat m) src))) as Hg by (destruct (drop _ src); [done|cbn; lia]).
    rewrite length_drop in Hg. assert (m = BSIZE - o mod BSIZE) as Em by lia.
    assert ((o + m) mod BSIZE = 0) as ->; [|lia]. rewrite Em.
    replace (o + (BSIZE - o mod BSIZE)) with ((o / BSIZE + 1) * BSIZE) by lia. by apply Z.mod_mul.
  - intros s4 bs4 Htx4 Hw4. rewrite length_drop.
    replace (o + m + Z.of_nat (length src - Z.to_nat m)) with (o + Z.of_nat (length src)) by lia. eapply Hk; [done|].
    rewrite <- (take_drop (Z.to_nat m) src). rewrite <- (app_nil_l (take _ _)), <- app_assoc.
    eapply overwrites_app; [done|exact Hw1|]. cbn [length]. rewrite Z.add_0_r. eapply overwrites_app; [done|exact Hw3|].
    rewrite Hlm, Z2Nat.id by lia. exact Hw4.
Qed.

Lemma writei_runs s bs ip x o (src : list Z) :
  let n := Z.of_nat (length src) in
  in_tx s bs (S (Z.to_nat (n / BSIZE + 1))) -> file_ok s ip x -> blocks_apart s x -> 0 <= o -> o + n <= i_size x ->
  runs c b p d [] [] (writei ip src o) s (fun r s' =>
    r = n /\ (exists bs', in_tx s' bs' 0) /\ overwrites s ip x o src s').
Proof.
  intros n Htx Hf Hap Ho Hend. pose proof (fo_size _ _ _ Hf) as Hsz.
  assert (MAXFILE * BSIZE = 71680) as Em by done.
  unfold writei. eapply runs_ip_get; [apply Hf|]. rewrite (proj2 (Z.eqb_neq _ _) (fo_type _ _ _ Hf)). fold n.
  rewrite u32_small by lia. rewrite (proj2 (Z.ltb_ge (i_size x) o)), (proj2 (Z.ltb_ge (o + n) o)), (proj2 (Z.ltb_ge (MAXFILE * BSIZE) (o + n))) by lia.
  cbn [orb]. eapply runs_write_loop; [exact Htx|done|done|done|lia| |].
  - intros _. fold n. change BSIZE with 512. pose proof (Z.mod_pos_bound o 512). pose proof (Z.div_mod n 512). pose proof (Z.mod_pos_bound n 512).
    assert (0 <= n / 512) by (apply Z.div_pos; lia). lia.
  - intros s' bs' Htx' Hw. runs_step. eapply runs_ip_get; [apply Hw|]. fold n.
    rewrite (proj2 (Z.ltb_ge (i_size x) (o + n))), andb_false_r by lia. runs_step. split; [done|]. split; [by exists bs'|done].
Qed.

(** C18: inside a transaction [writei] over bytes a file already has returns the
    number of bytes, replaces exactly those bytes of the file and nothing else
    (the other bytes of the file, its block map, every block that is not the
    file's, and the disk itself until the commit, are as they were). *)
Theorem writei_overwrites s bs ip x o (src : list Z) :
  let n := Z.of_nat (length src) in
  in_tx s bs (S (Z.to_nat (n / BSIZE + 1))) -> file_ok s ip x -> blocks_apart s x -> 0 <= o -> o + n <= i_size x ->
  runs c b p d [] [] (writei ip src o) s (fun r s' =>
    r = n /\ (exists bs', in_tx s' bs' 0) /\ overwrites s ip x o src s').
Proof. apply writei_runs. Qed.

Lemma overwrites_holds s ip x o (src : list Z) s' : 0 <= o -> o + Z.of_nat (length src) <= i_size x ->
  overwrites s ip x o src s' -> holds s' x o src.
Proof.
  intros Ho Hend Hw k Hk. rewrite (ow_byte _ _ _ _ _ _ Hw) by lia. rewrite decide_True by lia. f_equal. lia.
Qed.

Lemma holds_eq s x o l l' : length l = length l' -> holds s x o l -> holds s x o l' -> l = l'.
Proof.
  intros El H1' H2'. apply list_eq_same_length with (length l'); [done|done|]. intros k y y' Hk Hy Hy'.
  specialize (H1' k ltac:(lia)). specialize (H2' k ltac:(lia)). congruence.
Qed.

(** what [writei] has stored at an offset of a file is what [readi] returns
    from it. *)
Theorem write_read_back s bs ip x o (src : list Z) :
  let n := Z.of_nat (length src) in
  in_tx s bs (S (Z.to_nat (n / BSIZE + 1))) -> file_ok s ip x -> blocks_apart s x -> 0 <= o -> o + n <= i_size x ->
  runs c b p d [] [] (writei ip src o ;; readi ip o n) s (fun r s' => r = (n, src)).
Proof.
  intros n Htx Hf Hap Ho Hend. pose proof (fo_size _ _ _ Hf) as Hsz. assert (MAXFILE * BSIZE = 71680) as Em by done.
  eapply runs_bind, runs_mono; [by apply (writei_runs s bs ip x o src)|]. intros r s' (_ & (bs' & Htx') & Hw).
  eapply runs_mono; [apply (readi_runs s' bs' ip x o n); [apply Htx'|apply Hw|lia|lia]|].
  intros [r' l] s2 [_ Hr]. rewrite (proj2 (Z.ltb_ge _ _)), (proj2 (Z.leb_gt _ _)) in Hr by lia. cbn in Hr.
  destruct Hr as (Er & El & Hh). assert (r' = n) as -> by lia. f_equal.
  apply (holds_eq s' x o); [lia|done|]. by eapply overwrites_holds.
Qed.

End files.

(** ** A file of two blocks on an empty disk *)
Lemma ready_set_icache d s bs l : ready d s bs -> ready d (set_k_icache l s) bs.
Proof. intros [(lru & []) ? ? ? ?]. split; try done. exists lru. by split. Qed.

Definition demo_inode : inode :=
  mkInode ROOTDEV 1 1 true T_FILE 0 0 1 1000 ([40; 41] ++ replicate 11 0).
Definition demo_file (op : Z) : kernel :=
  set_k_icache [demo_inode] (set_k_log (set_outstanding op demo_log) (demo_log_fs (replicate 60 zero_block))).

Lemma demo_file_ready op : ready (demo_proc RUNNING 1 0 None None) (demo_file op) [].
Proof.
  apply ready_set_icache. destruct (demo_log_quiet (replicate 60 zero_block)) as [Hq Hd]; [by apply Forall_replicate|].
  apply (ready_set_log _ (demo_log_fs (replicate 60 zero_block))); [|done|done|done].
  split; [exact Hq| |split; reflexivity| |exists zero_block; split; reflexivity].
  - apply (demo_log_fits []); [apply Forall_nil_2|apply NoDup_nil_2|simpl; lia].
  - intros m. split; [intros Hm; destruct (Hd m Hm)|intros Hm; destruct (not_elem_of_nil m Hm)].
Qed.

Lemma demo_file_addr op bn a : 0 <= bn -> bn * BSIZE < 1000 -> file_addr (demo_file op) demo_inode bn = Some a -> a = 40 + bn /\ bn < 2.
Proof.
  change BSIZE with 512. intros H0 H1. assert (bn = 0 \/ bn = 1) as [-> | ->] by lia; cbn; intros [= <-]; lia.
Qed.

Lemma demo_file_ok op : file_ok (demo_file op) 0 demo_inode.
Proof.
  split; [reflexivity|reflexivity|done|by vm_compute|reflexivity| |].
  - intros a [= <-]. done.
  - change BSIZE with 512. cbn [i_size demo_inode]. intros bn H0 H1. exists (40 + bn).
    assert (bn = 0 \/ bn = 1) as [-> | ->] by lia; (split; [reflexivity|vm_compute; split; [discriminate|reflexivity]]).
Qed.

Lemma demo_blocks_apart op : blocks_apart (demo_file op) demo_inode.
Proof.
  split; cbn [i_size demo_inode].
  - intros bn bn' a ? ? ? ? [-> _]%demo_file_addr [? _]%demo_file_addr; lia.
  - intros bn a ? ? [-> ?]%demo_file_addr; [|done|done]. cbn. intros [= E]. lia.
  - intros bn a ? ? [-> ?]%demo_file_addr; [|done|done]. unfold outside. cbn. lia.
Qed.

Lemma readi_reads_witness :
  let _ : DevSw := {| devsw_read _ := None; devsw_write _ := None |} in
  runs 0 true 0 (demo_proc RUNNING 1 0 None None) [] []
    (@readi 0%nat memide_disk _ 0 500 100) (demo_file 0) (fun r _ => r.1 = 100 /\ holds (demo_file 0) demo_inode 500 r.2).
Proof.
  intros dev. eapply runs_mono; [apply (@readi_reads 0 true 0 (demo_proc RUNNING 1 0 None None) 0%nat memide_disk memide_ok
    dev (demo_file 0) [] 0 demo_inode 500 100)|].
  - apply demo_file_ready.
  - apply demo_file_ok.
  - lia.
  - lia.
  - intros r s' [_ (Hr & _ & Hh)]. split; [exact Hr|exact Hh].
Defined.

Definition demo_src : list Z := replicate 20 65.
Lemma demo_in_tx : in_tx (demo_proc RUNNING 1 0 None None) (demo_file 1) [] 2.
Proof. split; [apply demo_file_ready|reflexivity|cbn; lia|cbn; lia]. Qed.

Lemma writei_overwrites_witness :
  let _ : DevSw := {| devsw_read _ := None; devsw_write _ := None |} in
  runs 0 true 0 (demo_proc RUNNING 1 0 None None) [] []
    (@writei 0%nat memide_disk _ 0 demo_src 500) (demo_file 1) (fun r s' => r = 20 /\ overwrites (demo_file 1) 0 demo_inode 500 demo_src s').
Proof.
  intros dev. eapply runs_mono; [apply (@writei_overwrites 0 true 0 (demo_proc RUNNING 1 0 None None) 0%nat memide_disk memide_ok
    dev (demo_file 1) [] 0 demo_inode 500 demo_src)|].
  - exact demo_in_tx.
  - apply demo_file_ok.
  - apply demo_blocks_apart.
  - lia.
  - cbn. lia.
  - intros r s' (Hr & _ & Hw). split; [exact Hr|exact Hw].
Defined.

Lemma write_read_back_witness :
  let _ : DevSw := {| devsw_read _ := None; devsw_write _ := None |} in
  runs 0 true 0 (demo_proc RUNNING 1 0 None None) [] []
    (@writei 0%nat memide_disk _ 0 demo_src 500 ;; @readi 0%nat memide_disk _ 0 500 20) (demo_file 1) (fun r _ => r = (20, demo_src)).
Proof.
  intros dev. apply (@write_read_back 0 true 0 (demo_proc RUNNING 1 0 None None) 0%nat memide_disk memide_ok
    dev (demo_file 1) [] 0 demo_inode 500 demo_src).
  - exact demo_in_tx.
  - apply demo_file_ok.
  - apply demo_blocks_apart.
  - lia.
  - cbn. lia.
Defined.
