(* ===== verification/Dir.v ===== *)
(** * Directories ([kernel/fs.c])

    A directory is a file of entries of 16 bytes.  [dirlookup] is described by
    the list of entries the file holds: it finds the first entry in use with
    the name and takes a reference to its inode in the cache; [dirlink] puts a
    new entry into the first free place.  The cache is described by [find_inode]. *)
From S2P Require Import Prelude Types Str Spinlock Queue Kalloc Sched Context Sleeplock Bio Log Console Fs Fsdata FsSpec.

(** ** The entries of a directory *)
Section entries.
Implicit Types (s : kernel) (x : inode) (e name : list Z) (es : list (list Z)) (k : nat).

Record dir_holds s x es : Prop := {
  dh_type : i_type x = T_DIR;
  dh_size : i_size x = sizeof_dirent * Z.of_nat (length es);
  dh_len : Forall (fun e => length e = 16%nat) es;
  dh_bytes : holds s x 0 (concat es) }.

(** The entry is in use under the name. *)
Definition entry_matches name e : bool := negb (dirent_inum e =? 0) && (namecmp name (dirent_name e) =? 0).
Fixpoint find_entry name es k : option (nat * list Z) :=
  match es with
  | [] => None
  | e :: es' => if entry_matches name e then Some (k, e) else find_entry name es' (S k)
  end.

Lemma concat_entry es k e : Forall (fun e => length e = 16%nat) es -> es !! k = Some e ->
  forall j, (j < 16)%nat -> concat es !! (16 * k + j)%nat = e !! j.
Proof.
  intros Hes. revert k. induction Hes as [|e' es He _ IH]; intros k Hk j Hj; [done|]. destruct k as [|k]; cbn [concat].
  - injection Hk as ->. rewrite lookup_app_l by lia. done.
  - rewrite lookup_app_r by lia. rewrite He. replace (16 * S k + j - 16)%nat with (16 * k + j)%nat by lia. by apply IH.
Qed.
Lemma concat_length es : Forall (fun e => length e = 16%nat) es -> length (concat es) = (16 * length es)%nat.
Proof. induction 1 as [|e es He _ IH]; cbn; [done|]. rewrite length_app, He, IH. lia. Qed.

Lemma dir_entry s x es k e : dir_holds s x es -> es !! k = Some e -> holds s x (sizeof_dirent * Z.of_nat k) e /\ length e = 16%nat.
Proof.
  intros [_ Hsz Hl Hb] Hk. pose proof (proj1 (Forall_lookup _ _) Hl k e Hk) as He. split; [|done]. intros j Hj.
  rewrite He in Hj. unfold sizeof_dirent. replace (16 * Z.of_nat k + Z.of_nat j) with (0 + Z.of_nat (16 * k + j)) by lia.
  pose proof (lookup_lt_Some _ _ _ Hk). rewrite Hb by (rewrite concat_length by done; lia). by apply concat_entry.
Qed.

Lemma dir_holds_ext s s' x es : (forall m, content s' m = content s m) -> dir_holds s x es -> dir_holds s' x es.
Proof. intros Hc [? ? ? Hb]. split; try done. intros j Hj. rewrite (file_byte_ext s s') by done. by apply Hb. Qed.
End entries.

(** ** The inode cache *)
Section cache.
Implicit Types (l : list inode) (x : inode) (ino dev : Z) (i j : nat).

Definition is_inode dev ino x : bool := (0 <? i_ref x) && (i_dev x =? dev) && (inum x =? ino).

(** The first entry for the inode, else the first unused entry. *)
Lemma find_inode_spec dev ino l : forall i e,
  match find_inode dev ino i e l with
  | inl j => exists k x, j = (i + k)%nat /\ l !! k = Some x /\ is_inode dev ino x = true
  | inr r => (forall x, x ∈ l -> is_inode dev ino x = false) /\
      (r = e /\ (e = None -> forall x, x ∈ l -> i_ref x <> 0) \/
       exists k x, e = None /\ r = Some (i + k)%nat /\ l !! k = Some x /\ i_ref x = 0)
  end.
Proof.
  induction l as [|x l IH]; intros i e; cbn [find_inode].
  - split; [set_solver|]. left. split; [done|set_solver].
  - destruct (_ && _) eqn:E; [exists 0%nat, x; split; [lia|done]|].
    specialize (IH (S i) (if bool_decide (e = None) && (i_ref x =? 0) then Some i else e)). destruct (find_inode dev ino (S i) _ l) as [j|r].
    + destruct IH as (k & y & -> & Hk & Hy). exists (S k), y. split; [lia|done].
    + destruct IH as [Hno Hr]. split; [intros y [->|Hy]%elem_of_cons; auto|].
      destruct Hr as [[Er Hr]|(k & y & Ee & -> & Hk & Hy)].
      * destruct (bool_decide (e = None)) eqn:Eb; cbn [andb] in *.
        -- apply bool_decide_eq_true in Eb. subst e. destruct (Z.eqb_spec (i_ref x) 0) as [E0|E0].
           ++ right. exists 0%nat, x. split_and!; [done|by rewrite Er, Nat.add_0_r|done|done].
           ++ left. split; [done|]. intros _ y [->|Hy]%elem_of_cons; [done|by apply Hr].
        -- left. split; [done|]. intros ->. by rewrite bool_decide_true in Eb.
      * right. exists (S k), y. destruct (bool_decide (e = None)) eqn:Eb; cbn [andb] in Ee; [apply bool_decide_eq_true in Eb; subst e|].
        -- destruct (i_ref x =? 0); [done|]. split_and!; [done|f_equal; lia|done|done].
        -- subst e. by rewrite bool_decide_true in Eb.
Qed.

(** Entry [i] of the cache becomes a (further) reference to the inode. *)
Record referenced dev ino l i l' : Prop := {
  rf_change : exists x x', l !! i = Some x /\ l' = <[i := x']> l /\ inum x' = ino /\ i_dev x' = dev /\
    ((is_inode dev ino x = true /\ x' = set_i_ref (i32 (i_ref x + 1)) x) \/
     (i_ref x = 0 /\ (forall y, y ∈ l -> is_inode dev ino y = false) /\
      x' = set_i_valid false (set_i_ref 1 (set_inum ino (set_i_dev dev x))))) }.

Context (c : nat) (b : bool) (p : nat) (d : proc) `{Fuel} `{DiskOk}.

Lemma runs_iget {A} dev ino (k : nat -> K A) s Q :
  (exists x, x ∈ k_icache s /\ (i_ref x = 0 \/ is_inode dev ino x = true)) ->
  (forall i l', referenced dev ino (k_icache s) i l' -> runs c b p d [] [] (k i) (set_k_icache l' s) Q) ->
  runs c b p d [] [] (y <- iget dev ino ;; k y) s Q.
Proof.
  intros (x0 & Hx0 & Hroom) Hk. unfold iget. runs_step. apply runs_acquire; [not_in|]. runs_step.
  pose proof (find_inode_spec dev ino (k_icache s) 0 None) as Hf. destruct (find_inode _ _ _ _ _) as [j|r].
  - destruct Hf as (k0 & x & -> & Hx & Hi). cbn [Nat.add]. eapply runs_assoc, runs_ip_set; [exact Hx|]. runs_step.
    eapply runs_release; [done|]. runs_step. eapply Hk. split. exists x. eexists. split_and!; [done|done|..|left; done].
    + cbn. unfold is_inode in Hi. apply andb_true_iff in Hi as [_ Hi]. by apply Z.eqb_eq.
    + cbn. unfold is_inode in Hi. apply andb_true_iff in Hi as [[_ Hi]%andb_true_iff _]. by apply Z.eqb_eq.
  - destruct Hf as [Hno [[-> Hr]|(k0 & x & _ & -> & Hx & Hr)]].
    + exfalso. destruct Hroom as [E|E]; [by apply (Hr eq_refl x0 Hx0)|]. by rewrite Hno in E.
    + cbn [Nat.add]. eapply runs_assoc, runs_ip_set; [exact Hx|]. runs_step. eapply runs_release; [done|]. runs_step.
      eapply Hk. split. exists x. eexists. split_and!; [done|done|done|done|right; done].
Qed.
End cache.

(** ** Looking up a name *)
Section lookup.
Context (c : nat) (b : bool) (p : nat) (d : proc) `{Fuel} `{DiskOk} `{DevSw}.
Implicit Types (s : kernel) (bs : list Z) (x : inode) (e name : list Z) (es : list (list Z)) (k : nat).

(** [readi] of an entry. *)
Lemma runs_read_entry {A} L' (f : Z * list Z -> K A) s bs dp x es k e Q :
  ready d s bs -> file_ok s dp x -> dir_holds s x es -> es !! k = Some e ->
  (forall s', still d s bs s' -> runs c b p d [] L' (f (16, e)) s' Q) ->
  runs c b p d [] L' (y <- readi dp (sizeof_dirent * Z.of_nat k) sizeof_dirent ;; f y) s Q.
Proof.
  intros Hrd Hf Hd Hk Hgo. destruct (dir_entry _ _ _ _ _ Hd Hk) as [He Hl]. pose proof (lookup_lt_Some _ _ _ Hk) as Hlt.
  pose proof (fo_size _ _ _ Hf) as Hsz. change (MAXFILE * BSIZE) with 71680 in Hsz. pose proof (dh_size _ _ _ Hd) as Es. unfold sizeof_dirent in *.
  eapply runs_bind, runs_mono; [apply (readi_runs c b p d s bs dp x); [done|done|lia|lia]|]. intros [r l] s' [Hst Hr].
  rewrite (proj2 (Z.ltb_ge _ _)), (proj2 (Z.leb_gt _ _)) in Hr by lia. cbn in Hr. destruct Hr as (Er & El & Hh).
  assert (r = 16) as -> by lia. assert (l = e) as -> by (apply (holds_eq s x (16 * Z.of_nat k)); [lia|done|done]). by apply Hgo.
Qed.

(** What the search from entry [k] finds. *)
Definition found_entry s bs (o : option (nat * list Z)) (r : option (nat * Z)) (s' : kernel) : Prop :=
  match o with
  | None => r = None /\ still d s bs s'
  | Some (k, e) => exists i s1 l', r = Some (i, sizeof_dirent * Z.of_nat k) /\ still d s bs s1 /\
      referenced ROOTDEV (dirent_inum e) (k_icache s) i l' /\ s' = set_k_icache l' s1
  end.

(** The cache has an entry for every inode the directory may name. *)
Definition cache_room s es : Prop := forall e, e ∈ es ->
  exists y, y ∈ k_icache s /\ (i_ref y = 0 \/ is_inode ROOTDEV (dirent_inum e) y = true).

Lemma still_icache s bs s' : still d s bs s' -> k_icache s' = k_icache s.
Proof. intros [_ _ _ Ho]. by destruct (disk_only_fields _ _ Ho). Qed.

Lemma lookup_loop_runs dp x es name (f : nat) : forall s bs k, ready d s bs -> file_ok s dp x -> dir_holds s x es -> cache_room s es ->
  (length es <= k + f)%nat -> (k <= length es)%nat ->
  runs c b p d [] [] (lookup_loop f dp name (sizeof_dirent * Z.of_nat k)) s (found_entry s bs (find_entry name (drop k es) k)).
Proof.
  induction f as [|f IH]; intros s bs k Hrd Hf Hd Hroom Hfuel Hk; cbn [lookup_loop].
  all: eapply runs_ip_get; [apply Hf|]; rewrite (dh_size _ _ _ Hd).
  all: destruct (Z.ltb_spec (sizeof_dirent * Z.of_nat k) (sizeof_dirent * Z.of_nat (length es))) as [Hlt|Hge]; cbn [negb];
    [|rewrite drop_ge by (unfold sizeof_dirent in *; lia); apply runs_ret; split; [done|by apply still_refl]].
  1: unfold sizeof_dirent in *; lia.
  assert (k < length es)%nat as Hkl by (unfold sizeof_dirent in *; lia). destruct (lookup_lt_is_Some_2 es k Hkl) as [e He].
  rewrite (drop_S es e k He). cbn [find_entry]. eapply runs_read_entry; [done|done|done|done|]. intros s1 Hs1.
  change (negb (16 =? sizeof_dirent)) with false. cbn iota. fold (entry_matches name e).
  pose proof (file_ok_still d s bs s1 dp x Hs1 Hf) as Hf1. destruct (entry_matches name e).
  - eapply runs_ip_get; [apply Hf1|]. rewrite (fo_dev _ _ _ Hf). eapply (runs_iget c b p d).
    { rewrite (still_icache _ _ _ Hs1). apply Hroom. by eapply list_elem_of_lookup_2. }
    intros i l' Href. rewrite (still_icache _ _ _ Hs1) in Href. runs_step. exists i, s1, l'. by split_and!.
  - replace (u32 (sizeof_dirent * Z.of_nat k + sizeof_dirent)) with (sizeof_dirent * Z.of_nat (S k)).
    2: { pose proof (fo_size _ _ _ Hf) as Hsz. change (MAXFILE * BSIZE) with 71680 in Hsz. rewrite (dh_size _ _ _ Hd) in Hsz.
         unfold sizeof_dirent in *. rewrite u32_small; lia. }
    pose proof (still_icache _ _ _ Hs1) as Ei. eapply runs_mono; [apply (IH s1 bs (S k)); [apply Hs1|done| | |lia|lia]|].
    + eapply dir_holds_ext; [apply Hs1|done].
    + intros e' He'. rewrite Ei. by apply Hroom.
    + intros r s'. unfold found_entry. destruct (find_entry _ _ _) as [[k' e']|].
      * intros (i & s2 & l' & -> & Hs2 & Hr & ->). rewrite Ei in Hr. exists i, s2, l'. split_and!; try done. by eapply still_trans.
      * intros [-> Hs2]. split; [done|]. by eapply still_trans.
Qed.

Lemma dirlookup_runs s bs dp x es name :
  ready d s bs -> file_ok s dp x -> dir_holds s x es -> cache_room s es ->
  runs c b p d [] [] (dirlookup dp name) s (found_entry s bs (find_entry name es 0)).
Proof.
  intros Hrd Hf Hd Hroom. unfold dirlookup. eapply runs_ip_get; [apply Hf|]. rewrite (dh_type _ _ _ Hd). cbn [negb Z.eqb Pos.eqb T_DIR].
  eapply runs_ip_get; [apply Hf|]. rewrite (dh_size _ _ _ Hd).
  replace (sizeof_dirent * Z.of_nat (length es) / sizeof_dirent) with (Z.of_nat (length es)) by (unfold sizeof_dirent; rewrite Z.mul_comm, Z.div_mul; lia).
  rewrite Nat2Z.id. change 0 with (sizeof_dirent * Z.of_nat 0) at 1. change (find_entry name es 0) with (find_entry name (drop 0 es) 0).
  apply (lookup_loop_runs dp x es name); try done; lia.
Qed.

(** [dirlookup] in a directory with the entries [es], when the inode cache has
    room: it returns the first entry that is in use under the name (names count
    up to [DIRSIZ] bytes), with its offset and a new reference in the cache to
    its inode, or nothing when there is none; the file system is as it was. *)
Theorem dirlookup_finds s bs dp x es name :
  ready d s bs -> file_ok s dp x -> dir_holds s x es -> cache_room s es ->
  runs c b p d [] [] (dirlookup dp name) s (found_entry s bs (find_entry name es 0)).
Proof. apply dirlookup_runs. Qed.
(** *** Entering a name *)
(** The first free place. *)
Definition free_place es k : Prop :=
  (exists e, es !! k = Some e /\ dirent_inum e = 0) /\ forall j e, (j < k)%nat -> es !! j = Some e -> dirent_inum e <> 0.

Lemma empty_loop_runs dp x es k (f : nat) : forall s bs j, ready d s bs -> file_ok s dp x -> dir_holds s x es -> free_place es k ->
  (j <= k)%nat -> (k <= j + f)%nat ->
  runs c b p d [] [] (empty_loop f dp (sizeof_dirent * Z.of_nat j)) s (fun r s' => r = sizeof_dirent * Z.of_nat k /\ still d s bs s').
Proof.
  induction f as [|f IH]; intros s bs j Hrd Hf Hd Hfr Hj Hfuel; cbn [empty_loop].
  all: eapply runs_ip_get; [apply Hf|]; rewrite (dh_size _ _ _ Hd).
  all: pose proof (fo_size _ _ _ Hf) as Hsz; change (MAXFILE * BSIZE) with 71680 in Hsz; rewrite (dh_size _ _ _ Hd) in Hsz.
  all: destruct Hfr as [(ek & Hek & Hek0) Hbefore]; pose proof (lookup_lt_Some _ _ _ Hek) as Hkl; unfold sizeof_dirent in Hsz.
  all: rewrite u32_small by (unfold sizeof_dirent; lia); rewrite (proj2 (Z.ltb_lt _ _)) by (unfold sizeof_dirent; lia); cbn [negb].
  all: destruct (lookup_lt_is_Some_2 es j ltac:(lia)) as [e He].
  all: eapply runs_read_entry; [done|done|done|done|]; intros s1 Hs1; change (negb (16 =? sizeof_dirent)) with false; cbn iota.
  all: destruct (Z.eqb_spec (dirent_inum e) 0) as [E0|E0].
  all: try (apply runs_ret; split; [|done]; destruct (decide (j = k)) as [->|Hjk]; [done|]; destruct (Hbefore j e ltac:(lia) He E0)).
  - assert (j = k) as -> by lia. congruence.
  - assert (j <> k) as Hjk by congruence. replace (i32 (sizeof_dirent * Z.of_nat j + sizeof_dirent)) with (sizeof_dirent * Z.of_nat (S j)).
    2: { unfold sizeof_dirent. rewrite i32_small; lia. }
    eapply runs_mono; [apply (IH s1 bs (S j)); [apply Hs1|by eapply file_ok_still|by eapply dir_holds_ext; [apply Hs1|]|by split; [eauto|]|lia|lia]|].
    intros r s' [-> Hs']. split; [done|]. by eapply still_trans.
Qed.

Lemma dir_holds_entered s dp x es k e' s' : dir_holds s x es -> (k < length es)%nat -> length e' = 16%nat ->
  overwrites s dp x (sizeof_dirent * Z.of_nat k) e' s' -> dir_holds s' x (<[k := e']> es).
Proof.
  intros [Ht Hs Hl Hb] Hk He Hw. split; [done|by rewrite length_insert| |].
  - by apply Forall_insert.
  - assert (Forall (fun e => length e = 16%nat) (<[k := e']> es)) as Hl' by (by apply Forall_insert).
    intros j Hj. rewrite concat_length, length_insert in Hj by done.
    assert (exists q r, j = 16 * q + r /\ r < 16)%nat as (q & r & -> & Hr).
    { exists (j / 16)%nat, (j mod 16)%nat. split; [apply Nat.div_mod_eq|apply Nat.mod_upper_bound; lia]. }
    assert (q < length es)%nat as Hq by lia. destruct (lookup_lt_is_Some_2 es q Hq) as [e Eq].
    rewrite (ow_byte _ _ _ _ _ _ Hw) by (rewrite Hs; unfold sizeof_dirent; lia). unfold sizeof_dirent. rewrite He.
    destruct (decide (q = k)) as [->|Hne].
    + rewrite decide_True by lia. rewrite (concat_entry (<[k := e']> es) k e' Hl' (list_lookup_insert_eq _ _ _ Hk) r Hr). f_equal. lia.
    + rewrite decide_False by lia. rewrite Hb by (rewrite concat_length by done; lia).
      rewrite (concat_entry es q e Hl Eq r Hr). symmetry. apply concat_entry; [done| |done]. by rewrite list_lookup_insert_ne.
Qed.

Lemma find_entry_none name es : forall k, find_entry name es k = None -> forall e, e ∈ es -> entry_matches name e = false.
Proof.
  induction es as [|e es IH]; intros k Hn e' He'; [set_solver|]. cbn in Hn. destruct (entry_matches name e) eqn:E; [done|].
  apply elem_of_cons in He' as [->|He']; [done|by eapply IH].
Qed.
Lemma find_entry_entered name es e : forall k j, find_entry name es j = None -> (k < length es)%nat -> entry_matches name e = true ->
  find_entry name (<[k := e]> es) j = Some ((j + k)%nat, e).
Proof.
  induction es as [|e' es IH]; intros k j Hn Hk He; [cbn in Hk; lia|]. cbn in Hn. destruct (entry_matches name e') eqn:E; [done|].
  destruct k as [|k]; cbn; [by rewrite He, Nat.add_0_r|]. rewrite E. rewrite IH by (done || cbn in Hk; lia). do 2 f_equal. lia.
Qed.

(** What [dirlink] leaves: the directory with the entry at its place. *)
Record entered s dp x es k e r s' : Prop := {
  en_ret : r = 0;
  en_dir : dir_holds s' x (<[k := e]> es);
  en_write : overwrites s dp x (sizeof_dirent * Z.of_nat k) e s';
  en_tx : exists bs', in_tx d s' bs' 0 }.

Lemma dirlink_runs s bs dp x es name ino k :
  in_tx d s bs 2 -> file_ok s dp x -> blocks_apart s x -> dir_holds s x es -> cache_room s es ->
  find_entry name es 0 = None -> free_place es k ->
  runs c b p d [] [] (dirlink dp name ino) s (entered s dp x es k (mk_dirent (u16 ino) name)).
Proof.
  intros Htx Hf Hap Hd Hroom Hnone Hfr. unfold dirlink. pose proof (tx_ready _ _ _ _ Htx) as Hrd.
  eapply runs_bind, runs_mono; [by apply (dirlookup_runs s bs dp x es name)|]. intros r s1. rewrite Hnone. intros [-> Hs1].
  pose proof (file_ok_still d s bs s1 dp x Hs1 Hf) as Hf1. pose proof (in_tx_still d _ _ _ _ Htx Hs1) as Htx1.
  assert (dir_holds s1 x es) as Hd1 by (eapply dir_holds_ext; [apply Hs1|done]).
  eapply runs_ip_get; [apply Hf1|]. rewrite (dh_size _ _ _ Hd).
  replace (sizeof_dirent * Z.of_nat (length es) / sizeof_dirent) with (Z.of_nat (length es)) by (unfold sizeof_dirent; rewrite Z.mul_comm, Z.div_mul; lia).
  rewrite Nat2Z.id. change 0 with (sizeof_dirent * Z.of_nat 0) at 1. pose proof Hfr as [(ek & Hek & _) _]. pose proof (lookup_lt_Some _ _ _ Hek) as Hkl.
  eapply runs_bind, runs_mono; [apply (empty_loop_runs dp x es k _ s1 bs 0); [apply Hs1|done|done|done|lia|lia]|]. intros off s2 [-> Hs2].
  pose proof (still_trans _ _ _ _ _ Hs1 Hs2) as Hs02. pose proof (file_ok_still d s bs s2 dp x Hs02 Hf) as Hf2.
  pose proof (overwrites_nil d s dp x (sizeof_dirent * Z.of_nat k) s2 bs Hf Hap Hs02) as Hw2.
  pose proof (fo_size _ _ _ Hf) as Hsz. change (MAXFILE * BSIZE) with 71680 in Hsz. rewrite (dh_size _ _ _ Hd) in Hsz. unfold sizeof_dirent in Hsz.
  rewrite u32_small by (unfold sizeof_dirent; lia). pose proof (mk_dirent_length (u16 ino) name) as Hml.
  eapply runs_bind, runs_mono; [apply (writei_runs c b p d s2 bs dp x)|].
  { rewrite Hml. exact (in_tx_still d _ _ _ _ Htx Hs02). } { done. } { apply Hw2. } { unfold sizeof_dirent. lia. }
  { rewrite Hml, (dh_size _ _ _ Hd). unfold sizeof_dirent. lia. }
  intros r s3 (-> & Htx3 & Hw3). rewrite Hml. change (negb (Z.of_nat 16 =? sizeof_dirent)) with false. cbn iota. apply runs_ret.
  assert (overwrites s dp x (sizeof_dirent * Z.of_nat k) (mk_dirent (u16 ino) name) s3) as Hw.
  { eapply (overwrites_app s dp x _ [] s2 _ s3); [unfold sizeof_dirent; lia|exact Hw2|]. cbn [length]. by rewrite Z.add_0_r. }
  split; [done|apply (dir_holds_entered s dp x es k _ s3 Hd Hkl Hml Hw)|done|done].
Qed.

(** C35: [dirlink] followed by [dirlookup]: inside a transaction, in a directory
    with a free place that has no entry of that name, the entry goes to the
    first free place and [dirlookup] finds it there, with a reference to the
    inode that was entered. *)
Theorem dirlink_dirlookup s bs dp x es name ino k :
  in_tx d s bs 2 -> file_ok s dp x -> blocks_apart s x -> dir_holds s x es ->
  cache_room s (mk_dirent (u16 ino) name :: es) -> find_entry name es 0 = None -> free_place es k -> 0 < ino < 2 ^ 16 ->
  runs c b p d [] [] (r <- dirlink dp name ino ;; o <- dirlookup dp name ;; ret (r, o)) s (fun r s' => exists i l', r = (0, Some (i, sizeof_dirent * Z.of_nat k)) /\
    referenced ROOTDEV ino (k_icache s) i l' /\ k_icache s' = l' /\ dir_holds s' x (<[k := mk_dirent ino name]> es)).
Proof.
  intros Htx Hf Hap Hd Hroom Hnone Hfr Hino. assert (u16 ino = ino) as Eino by (apply Z.mod_small; lia). rewrite Eino in Hroom.
  assert (cache_room s es) as Hroom1 by (intros e He; apply Hroom; by right).
  eapply runs_bind, runs_mono; [by apply (dirlink_runs s bs dp x es name ino k)|]. rewrite Eino. intros r s1 [-> Hd1 Hw (bs1 & Htx1)].
  pose proof Hfr as [(ek & Hek & _) _]. pose proof (lookup_lt_Some _ _ _ Hek) as Hkl. pose proof (ow_icache _ _ _ _ _ _ Hw) as Ei.
  destruct (dirent_matches ino name name ltac:(lia)) as [Hm1 Hm2].
  assert (entry_matches name (mk_dirent ino name) = true) as Hm.
  { unfold entry_matches. rewrite Hm1, (proj2 Hm2 eq_refl). rewrite (proj2 (Z.eqb_neq ino 0)) by lia. done. }
  eapply runs_bind, runs_mono.
  { apply (dirlookup_runs s1 bs1 dp x (<[k := mk_dirent ino name]> es) name); [apply Htx1|apply Hw|exact Hd1|]. intros e He. rewrite Ei. apply Hroom.
    apply list_elem_of_lookup in He as [j Hj]. destruct (decide (j = k)) as [->|Hjk].
    - rewrite list_lookup_insert_eq in Hj by done. injection Hj as <-. by left.
    - rewrite list_lookup_insert_ne in Hj by done. right. by eapply list_elem_of_lookup_2. }
  intros o s2. rewrite (find_entry_entered name es _ k 0) by done. intros (i & s3 & l' & -> & Hs3 & Href & ->). apply runs_ret.
  rewrite Hm1, Ei in Href. exists i, l'. split_and!; [done|done|done|]. eapply dir_holds_ext; [|exact Hd1]. intros m. by apply Hs3.
Qed.
End lookup.

(** ** A directory with two entries and a free place *)
Definition demo_entries : list (list Z) := [mk_dirent 1 (bytes "."); mk_dirent 1 (bytes ".."); replicate 16 0].
Definition demo_dir_block : list Z := concat demo_entries ++ replicate 464 0.
Definition demo_dir_disk : list (list Z) := <[40%nat := demo_dir_block]> (replicate 60 zero_block).
Definition demo_dir : inode := mkInode ROOTDEV 1 1 true T_DIR 0 0 1 48 (40 :: replicate 12 0).
Definition demo_dir_fs : kernel :=
  set_k_icache [demo_dir; inode_zero] (set_k_log (set_outstanding 1 demo_log) (demo_log_fs demo_dir_disk)).

Lemma demo_dir_tx : in_tx (demo_proc RUNNING 1 0 None None) demo_dir_fs [] 2.
Proof.
  assert (Forall (fun blk => length blk = Z.to_nat BSIZE) demo_dir_disk) as Hall
    by (apply Forall_insert; [by apply Forall_replicate|reflexivity]).
  destruct (demo_log_quiet demo_dir_disk Hall) as [Hq Hd]. split; [|reflexivity|cbn; lia|cbn; lia].
  apply ready_set_icache, (ready_set_log _ (demo_log_fs demo_dir_disk)); [|done|done|done].
  split; [exact Hq| |split; reflexivity| |exists zero_block; split; reflexivity].
  - apply (demo_log_fits []); [apply Forall_nil_2|apply NoDup_nil_2|simpl; lia].
  - intros m. split; [intros Hm; destruct (Hd m Hm)|intros Hm; destruct (not_elem_of_nil m Hm)].
Qed.

Lemma demo_dir_addr bn : 0 <= bn -> bn * BSIZE < 48 -> bn = 0.
Proof. change BSIZE with 512. lia. Qed.
Lemma demo_dir_ok : file_ok demo_dir_fs 0 demo_dir /\ blocks_apart demo_dir_fs demo_dir.
Proof.
  split; split; cbn [i_size demo_dir]; try reflexivity; try done.
  - intros a [= <-]. done.
  - intros bn H0 H1. pose proof (demo_dir_addr bn H0 H1) as ->. exists 40. split; [reflexivity|vm_compute; split; [discriminate|reflexivity]].
  - intros bn bn' a H0 H1 H2 H3 _ _. by rewrite (demo_dir_addr bn), (demo_dir_addr bn').
  - intros bn a H0 H1. pose proof (demo_dir_addr bn H0 H1) as ->. cbn. by intros [= <-].
  - intros bn a H0 H1. pose proof (demo_dir_addr bn H0 H1) as ->. cbn. intros [= <-]. unfold outside. cbn. lia.
Qed.

Lemma demo_dir_holds : dir_holds demo_dir_fs demo_dir demo_entries.
Proof.
  split; [reflexivity|reflexivity|repeat constructor|]. intros k Hk.
  assert (forallb (fun k => bool_decide (file_byte demo_dir_fs demo_dir (0 + Z.of_nat k) = concat demo_entries !! k)) (seq 0 48) = true) as Hall
    by (vm_compute; reflexivity).
  rewrite forallb_forall in Hall. assert (length (concat demo_entries) = 48%nat) as Hl by reflexivity.
  specialize (Hall k (proj2 (in_seq 48 0 k) ltac:(lia))). by apply bool_decide_eq_true in Hall.
Qed.
Lemma demo_cache_room es : cache_room demo_dir_fs es.
Proof. intros e _. exists inode_zero. split; [right; left|by left]. Qed.

Lemma dirlookup_finds_witness :
  let _ : DevSw := {| devsw_read _ := None; devsw_write _ := None |} in
  runs 0 true 0 (demo_proc RUNNING 1 0 None None) [] [] (@dirlookup 0%nat memide_disk _ 0 (bytes "..")) demo_dir_fs
    (fun r _ => exists i, r = Some (i, 16)).
Proof.
  intros dev. eapply runs_mono; [apply (@dirlookup_finds 0 true 0 (demo_proc RUNNING 1 0 None None) 0%nat memide_disk memide_ok
    dev demo_dir_fs [] 0 demo_dir demo_entries (bytes ".."))|].
  - apply demo_dir_tx.
  - apply demo_dir_ok.
  - apply demo_dir_holds.
  - apply demo_cache_room.
  - intros r s' (i & s1 & l' & Hr & _). exists i. exact Hr.
Defined.

Lemma dirlink_dirlookup_witness :
  let _ : DevSw := {| devsw_read _ := None; devsw_write _ := None |} in
  runs 0 true 0 (demo_proc RUNNING 1 0 None None) [] []
    (r <- @dirlink 0%nat memide_disk _ 0 (bytes "README") 7 ;; o <- @dirlookup 0%nat memide_disk _ 0 (bytes "README") ;; ret (r, o)) demo_dir_fs
    (fun r _ => exists i, r = (0, Some (i, 32))).
Proof.
  intros dev. eapply runs_mono; [apply (@dirlink_dirlookup 0 true 0 (demo_proc RUNNING 1 0 None None) 0%nat memide_disk memide_ok
    dev demo_dir_fs [] 0 demo_dir demo_entries (bytes "README") 7 2)|].
  - apply demo_dir_tx.
  - apply demo_dir_ok.
  - apply demo_dir_ok.
  - apply demo_dir_holds.
  - apply demo_cache_room.
  - reflexivity.
  - split; [exists (replicate 16 0); split; reflexivity|]. intros j e Hj He.
    destruct j as [|[|j]]; [injection He as <-; discriminate|injection He as <-; discriminate|lia].
  - lia.
  - intros r s' (i & l' & Hr & _). exists i. exact Hr.
Defined.
