(* ===== verification/Balloc.v ===== *)
(** * The block allocator ([balloc], [bfree] and [bzero] of [kernel/fs.c])

    The bitmap blocks as the file system sees them say which blocks are in use
    ([in_use]).  [balloc] takes the first block that is not, and [bfree] gives
    one back. *)
From S2P Require Import Prelude Types Str Spinlock Queue Kalloc Sched Context Sleeplock Bio Log Console Fs FsSpec.

(** ** Bits of a block *)
Section bits.
Implicit Types (dt : list Z) (bi j : Z).

Lemma one_bit k n : 0 <= k -> 0 <= n -> Z.testbit (Z.shiftl 1 k) n = bool_decide (n = k).
Proof.
  intros Hk Hn. rewrite Z.shiftl_spec by done. case_bool_decide as E; [subst; by rewrite Z.sub_diag|].
  destruct (Z.lt_ge_cases n k); [by apply Z.testbit_neg_r; lia|]. apply Z.bits_above_log2; cbn; lia.
Qed.

Lemma bit_set_testbit dt bi : 0 <= bi -> bit_set dt bi = Z.testbit (dt !!! Z.to_nat (bi / 8)) (bi mod 8).
Proof.
  intros Hbi. unfold bit_set. pose proof (Z.mod_pos_bound bi 8 ltac:(lia)) as Hm. set (v := dt !!! _). set (k := bi mod 8) in *.
  destruct (Z.testbit v k) eqn:E.
  - apply negb_true_iff, Z.eqb_neq. intros E0. apply (f_equal (fun x => Z.testbit x k)) in E0.
    rewrite Z.land_spec, one_bit, E, Z.bits_0, bool_decide_true in E0 by lia. done.
  - apply negb_false_iff, Z.eqb_eq, Z.bits_inj'. intros n Hn. rewrite Z.land_spec, Z.bits_0, one_bit by lia.
    case_bool_decide as En; [subst n; by rewrite E|by rewrite andb_false_r].
Qed.

Lemma same_bit bi j : 0 <= bi -> 0 <= j -> bi / 8 = j / 8 -> bi mod 8 = j mod 8 -> bi = j.
Proof. intros ? ? E1 E2. rewrite (Z.div_mod bi 8), (Z.div_mod j 8) by lia. congruence. Qed.

(** The change of one bit, to [on]. *)
Lemma change_bit (f : Z -> Z) (on : bool) dt bi j :
  (forall v n, 0 <= n -> Z.testbit (f v) n = if decide (n = bi mod 8) then on else Z.testbit v n) ->
  0 <= bi < 8 * Z.of_nat (length dt) -> 0 <= j ->
  bit_set (alter f (Z.to_nat (bi / 8)) dt) j = if decide (j = bi) then on else bit_set dt j.
Proof.
  intros Hf Hbi Hj. rewrite !bit_set_testbit by done. pose proof (Z.mod_pos_bound j 8 ltac:(lia)) as Hm.
  pose proof (Z.div_pos bi 8 ltac:(lia) ltac:(lia)). pose proof (Z.div_pos j 8 ltac:(lia) ltac:(lia)).
  assert (bi / 8 < Z.of_nat (length dt)) by (apply Z.div_lt_upper_bound; lia).
  destruct (Z.eq_dec (j / 8) (bi / 8)) as [Eq|Eq].
  - rewrite Eq, list_lookup_total_alter_eq by lia. rewrite Hf by lia.
    destruct (decide (j = bi)) as [->|Hne]; [by rewrite decide_True|]. rewrite decide_False; [done|].
    intros E. apply Hne. by apply same_bit; [lia|lia|..].
  - rewrite list_lookup_total_alter_ne by lia. rewrite decide_False; [done|]. by intros ->.
Qed.

Lemma set_bit_spec dt bi j : 0 <= bi < 8 * Z.of_nat (length dt) -> 0 <= j ->
  bit_set (set_bit bi dt) j = if decide (j = bi) then true else bit_set dt j.
Proof.
  apply change_bit. intros v n Hn. pose proof (Z.mod_pos_bound bi 8 ltac:(lia)). rewrite Z.lor_spec, one_bit by lia.
  case_decide; [by rewrite bool_decide_true, orb_true_r|by rewrite bool_decide_false, orb_false_r].
Qed.

Lemma clear_bit_spec dt bi j : 0 <= bi < 8 * Z.of_nat (length dt) -> 0 <= j ->
  bit_set (clear_bit bi dt) j = if decide (j = bi) then false else bit_set dt j.
Proof.
  apply change_bit. intros v n Hn. pose proof (Z.mod_pos_bound bi 8 ltac:(lia)). rewrite Z.land_spec, Z.lnot_spec, one_bit by lia.
  case_decide; [by rewrite bool_decide_true, andb_false_r|by rewrite bool_decide_false, andb_true_r].
Qed.

Lemma find_clear_spec (n : nat) b size dt : forall bi,
  match find_clear n bi b size dt with
  | Some r => bi <= r < bi + Z.of_nat n /\ b + r < size /\ bit_set dt r = false /\ forall j, bi <= j < r -> bit_set dt j = true
  | None => forall j, bi <= j < bi + Z.of_nat n -> b + j < size -> bit_set dt j = true
  end.
Proof.
  induction n as [|n IH]; intros bi; cbn [find_clear]; [lia|].
  destruct (Z.ltb_spec (b + bi) size) as [Hlt|Hge]; cbn [negb]; [|lia].
  destruct (bit_set dt bi) eqn:E; cbn [negb].
  - specialize (IH (bi + 1)). destruct (find_clear n (bi + 1) b size dt) as [r|].
    + destruct IH as (? & ? & ? & Hall). split_and!; [lia|lia|done|done|]. intros j Hj.
      destruct (Z.eq_dec j bi) as [->|]; [done|]. apply Hall. lia.
    + intros j Hj Hs. destruct (Z.eq_dec j bi) as [->|]; [done|]. apply IH; lia.
  - split_and!; [lia|lia|done|done|]. lia.
Qed.

End bits.

(** ** Which blocks are in use *)
Section allocator.
Context (c : nat) (b : bool) (p : nat) (d : proc) `{Fuel} `{DiskOk}.
Implicit Types (s : kernel) (bs : list Z) (n m r : Z).

(** The block of the bitmap that has the bit of block [n]. *)
Definition bblock s n : Z := n / BPB + bmapstart (k_sb s).
Definition in_use s n : bool :=
  match content s (bblock s n) with Some dt => bit_set dt (n mod BPB) | None => true end.

(** The bitmap describes the blocks of the disk; the bitmap itself and the log
    are in use, as [mkfs] leaves them. *)
Record bitmap_ok s : Prop := {
  bm_size : 0 <= sb_size (k_sb s) <= Z.of_nat (length (k_disk s));
  bm_start : 0 <= bmapstart (k_sb s);
  bm_map : forall n, 0 <= n < sb_size (k_sb s) ->
    bblock s n < sb_size (k_sb s) /\ in_use s (bblock s n) = true /\ outside (k_log s) (bblock s n);
  bm_free : forall n, 0 <= n < sb_size (k_sb s) -> in_use s n = false -> outside (k_log s) n }.

(** The first block that is not in use. *)
Definition first_free s r : Prop :=
  0 <= r < sb_size (k_sb s) /\ in_use s r = false /\ forall n, 0 <= n < r -> in_use s n = true.

Definition zeros : list Z := replicate (Z.to_nat BSIZE) 0.

(** From [s] to [s'] block [r] was taken. *)
Record allocates s r s' : Prop := {
  al_zero : content s' r = Some zeros;
  al_use : forall n, 0 <= n < sb_size (k_sb s) -> in_use s' n = bool_decide (n = r) || in_use s n;
  al_other : forall m, m <> r -> m <> bblock s r -> content s' m = content s m;
  al_bitmap : bitmap_ok s';
  al_disk : k_disk s' = k_disk s }.

Lemma bblock_nonneg s n : bitmap_ok s -> 0 <= n -> 0 <= bblock s n.
Proof. intros Hb Hn. pose proof (bm_start _ Hb). pose proof (Z.div_pos n BPB Hn ltac:(done)). unfold bblock. lia. Qed.

Lemma bblock_same s s' n : k_sb s' = k_sb s -> bblock s' n = bblock s n.
Proof. intros E. unfold bblock. by rewrite E. Qed.

Lemma in_use_ext s s' n : k_sb s' = k_sb s -> content s' (bblock s n) = content s (bblock s n) -> in_use s' n = in_use s n.
Proof. intros E Ec. unfold in_use. by rewrite (bblock_same s s'), Ec. Qed.

Lemma still_bitmap s bs s' : still d s bs s' -> k_sb s' = k_sb s /\ (forall n, in_use s' n = in_use s n) /\ (bitmap_ok s -> bitmap_ok s').
Proof.
  intros [_ Hc Hd Ho]. destruct (disk_only_fields _ _ Ho) as (_ & Es & El & _).
  assert (forall n, in_use s' n = in_use s n) as Hu by (intros n; by apply in_use_ext). split_and!; [done|done|].
  intros [? ? Hm Hf]. split; rewrite ?Es, ?El, ?Hd; try done; intros n Hn; rewrite ?(bblock_same s s'), !Hu by done; [by apply Hm|by apply Hf].
Qed.

(** The bits of the block that holds the bit of [r]. *)
Lemma in_use_block s q j dt : 0 <= j < BPB -> content s (q + bmapstart (k_sb s)) = Some dt -> in_use s (q * BPB + j) = bit_set dt j.
Proof.
  intros Hj Hdt. unfold in_use, bblock. rewrite Z.div_add_l, Z.div_small, Z.add_0_r, Hdt by done.
  by rewrite (Z.add_comm (q * BPB)), Z.mod_add, Z.mod_small by done.
Qed.

(** Marking [r], then clearing its contents. *)
Lemma allocates_intro s bs bs1 r dt s1 s2 :
  bitmap_ok s -> 0 <= r < sb_size (k_sb s) -> in_use s r = false -> content s (bblock s r) = Some dt -> length dt = Z.to_nat BSIZE ->
  logs d s bs (bblock s r) (set_bit (r mod BPB) dt) s1 -> logs d s1 bs1 r zeros s2 -> allocates s r s2.
Proof.
  intros Hbm Hr Hfree Hdt Hlen Hl1 Hl2. pose proof (Z.mod_pos_bound r BPB ltac:(done)) as Hmr.
  destruct (disk_only_fields _ _ (lg_only _ _ _ _ _ _ Hl1)) as (_ & Es1 & _).
  destruct (disk_only_fields _ _ (lg_only _ _ _ _ _ _ Hl2)) as (_ & Es2 & _). cbn in Es1, Es2.
  assert (k_sb s2 = k_sb s) as Es by congruence.
  assert (forall m, content s2 m = if decide (m = r) then Some zeros else if decide (m = bblock s r) then Some (set_bit (r mod BPB) dt) else content s m) as Hc.
  { intros m. rewrite (lg_content _ _ _ _ _ _ Hl2). case_decide; [done|]. apply (lg_content _ _ _ _ _ _ Hl1). }
  assert (forall n, 0 <= n < sb_size (k_sb s) -> bblock s n <> r) as Hnr.
  { intros n Hn E. destruct (bm_map _ Hbm n Hn) as (_ & Hu & _). rewrite E in Hu. congruence. }
  assert (forall n, 0 <= n < sb_size (k_sb s) -> in_use s2 n = bool_decide (n = r) || in_use s n) as Huse.
  { intros n Hn. unfold in_use. rewrite (bblock_same s s2), Hc, decide_False by (done || by apply Hnr). case_decide as E; [|rewrite bool_decide_false; [done|by intros ->]].
    rewrite E, Hdt. pose proof (Z.mod_pos_bound n BPB ltac:(done)) as Hmn. rewrite set_bit_spec by (rewrite ?Hlen; change BPB with 4096 in *; lia || (change (Z.to_nat BSIZE) with 512%nat; lia)).
    unfold bblock in E. assert (n / BPB = r / BPB) as Eq by lia. case_decide as Em.
    - rewrite bool_decide_true; [done|]. rewrite (Z.div_mod n BPB), (Z.div_mod r BPB) by done. congruence.
    - by rewrite bool_decide_false by (intros ->; done). }
  assert (k_disk s2 = k_disk s) as Ed by (rewrite (lg_disk _ _ _ _ _ _ Hl2); apply Hl1).
  destruct (logs_fields d _ _ _ _ _ Hl1) as (_ & (Ea1 & Eb1 & _) & _), (logs_fields d _ _ _ _ _ Hl2) as (_ & (Ea2 & Eb2 & _) & _).
  split; [by rewrite Hc, decide_True|done|intros m ? ?; by rewrite Hc, !decide_False| |done].
  destruct Hbm as [? ? Hm Hf]. split; rewrite ?Es, ?Ed; try done; intros n Hn; rewrite ?(bblock_same s s2) by done; unfold outside; rewrite Ea2, Ea1, Eb2, Eb1.
  - destruct (Hm n Hn) as (Hlt & Hu & Ho). split; [done|]. split; [|done]. rewrite Huse, Hu, orb_true_r; [done|].
    split; [|done]. apply bblock_nonneg; [by split|lia].
  - rewrite Huse by done. intros [_ ?]%orb_false_iff. by apply Hf.
Qed.

(** *** The code *)
Lemma block_u32 s bs n : ready d s bs -> 0 <= n < Z.of_nat (length (k_disk s)) -> u32 n = n.
Proof. intros Hr Hn. apply u32_small. pose proof (lf_disk _ _ _ (rd_fits _ _ _ Hr)). lia. Qed.

Lemma runs_bzero {A} L' (k : unit -> K A) s bs (r : nat) n Q :
  in_tx d s bs (S r) -> 0 <= n < Z.of_nat (length (k_disk s)) -> outside (k_log s) n ->
  (forall s', logs d s bs n zeros s' -> runs c b p d [] L' (k tt) s' Q) ->
  runs c b p d [] L' (x <- bzero ROOTDEV n ;; k x) s Q.
Proof.
  intros Htx Hn Ho Hk. unfold bzero. rewrite (block_u32 s bs n (tx_ready _ _ _ _ Htx) Hn).
  change (runs c b p d [] L' (x <- log_block n zeros ;; k x) s Q).
  eapply runs_bind, runs_mono; [apply (log_block_runs c b p d s bs n zeros); try apply Htx; try done|].
  - pose proof (tx_room _ _ _ _ Htx). lia.
  - intros [] s' Hs'. by apply Hk.
Qed.

Lemma in_tx_logs s bs (r : nat) n dt s' : in_tx d s bs (S r) -> logs d s bs n dt s' -> in_tx d s' (with_block n bs) r.
Proof.
  intros [_ Hll Hop Hrm] Hlg. destruct (logs_fields d _ _ _ _ _ Hlg) as (_ & (_ & Ez & _) & Eo & El).
  pose proof (with_block_length n bs). split; [apply Hlg|congruence|lia|rewrite Ez; lia].
Qed.

(** The end of a search in block [q] of the bitmap, just read. *)
Lemma first_free_block s r q dt :
  first_free s r -> 0 <= q -> q * BPB <= r -> content s (q + bmapstart (k_sb s)) = Some dt ->
  match find_clear (Z.to_nat BPB) 0 (q * BPB) (sb_size (k_sb s)) dt with
  | Some bi => r = q * BPB + bi /\ bi = r mod BPB /\ bblock s r = q + bmapstart (k_sb s)
  | None => (q + 1) * BPB <= r
  end.
Proof.
  intros (Hr & Hfree & Hfirst) Hq Hqr Hdt. pose proof (find_clear_spec (Z.to_nat BPB) (q * BPB) (sb_size (k_sb s)) dt 0) as Hf.
  rewrite Z2Nat.id in Hf by done. destruct (find_clear _ _ _ _ _) as [bi|].
  - destruct Hf as (Hbi & Hend & Hclr & Hall). assert (r = q * BPB + bi) as E.
    { destruct (Z.lt_trichotomy r (q * BPB + bi)) as [Hlt|[?|Hgt]]; [|done|].
      - specialize (Hall (r - q * BPB) ltac:(lia)). rewrite <- (in_use_block s q) in Hall by (done || lia).
        replace (q * BPB + (r - q * BPB)) with r in Hall by lia. congruence.
      - specialize (Hfirst (q * BPB + bi)). rewrite (in_use_block s q _ dt), Hclr in Hfirst by (done || lia).
        discriminate Hfirst. unfold BPB, BSIZE in *. lia. }
    split; [done|]. unfold bblock. rewrite E, Z.div_add_l, (Z.add_comm (q * BPB)), Z.mod_add, Z.div_small, Z.mod_small by (done || lia).
    split; [done|lia].
  - destruct (Z.lt_ge_cases r ((q + 1) * BPB)) as [Hlt|]; [|done].
    specialize (Hf (r - q * BPB) ltac:(lia) ltac:(lia)). rewrite <- (in_use_block s q) in Hf by (done || lia).
    replace (q * BPB + (r - q * BPB)) with r in Hf by lia. congruence.
Qed.

Lemma first_free_still s bs s' r : still d s bs s' -> first_free s r -> first_free s' r.
Proof.
  intros Hs (Hr & Hf & Ha). destruct (still_bitmap _ _ _ Hs) as (Es & Hu & _). unfold first_free. rewrite Es, Hu.
  split_and!; [lia|lia|done|]. intros n Hn. rewrite Hu. by apply Ha.
Qed.

Lemma allocates_still s bs s0 r s' : still d s bs s0 -> allocates s0 r s' -> allocates s r s'.
Proof.
  intros Hs [? Hu Ho ? Hd]. destruct (still_bitmap _ _ _ Hs) as (Es & Hu0 & _). split; [done| | |done|by rewrite Hd, (st_disk _ _ _ _ Hs)].
  - intros n Hn. rewrite Hu, Hu0 by by rewrite Es. done.
  - intros m ? ?. rewrite Ho; [apply Hs|done|]. by rewrite (bblock_same s s0).
Qed.

Lemma runs_balloc_loop {A} L' r (n : nat) : forall (k : Z -> K A) s bs q Q,
  in_tx d s bs 2 -> bitmap_ok s -> first_free s r -> 0 <= q -> q * BPB <= r < (q + Z.of_nat (S n)) * BPB ->
  (forall s' bs', allocates s r s' -> in_tx d s' bs' 0 -> runs c b p d [] L' (k r) s' Q) ->
  runs c b p d [] L' (x <- balloc_loop n ROOTDEV (q * BPB) ;; k x) s Q.
Proof.
  induction n as [|n IH]; intros k s bs q Q Htx Hbm Hff Hq Hrange Hk; cbn [balloc_loop]; unfold BBLOCK, sb_get; runs_step.
  all: pose proof Hff as (Hr & Hfree & _); rewrite (proj2 (Z.ltb_lt (q * BPB) (sb_size (k_sb s)))) by lia; cbn [negb]; runs_step.
  all: rewrite Z.div_mul by done; set (bb := q + bmapstart (k_sb s)).
  all: assert (bblock s (q * BPB) = bb) as Ebb by (unfold bblock; by rewrite Z.div_mul).
  all: destruct (bm_map _ Hbm (q * BPB)) as (Hlt & _ & Hout); [unfold BPB, BSIZE in *; lia|]; rewrite Ebb in Hlt, Hout.
  all: pose proof (bm_size _ Hbm) as Hsz; pose proof (bm_start _ Hbm) as Hst.
  all: assert (0 <= bb < Z.of_nat (length (k_disk s))) as Hbb by lia; rewrite (block_u32 s bs bb) by (apply Htx || done).
  all: eapply (runs_read c b p d); [apply Htx|done|]; intros i s1 lru dt Hr1 Edt Hlen; runs_step; eapply (runs_data c b p d); [done|done|].
  all: pose proof (first_free_block s r q dt Hff Hq ltac:(lia) Edt) as Hfc; destruct (find_clear _ _ _ _ _) as [bi|].
  2: lia.
  3: { runs_step. eapply (runs_leave c b p d); [apply Htx|done|]. intros s2 Hs2. runs_step.
       destruct (still_bitmap _ _ _ Hs2) as (_ & _ & Hbm2). replace (q * BPB + BPB) with ((q + 1) * BPB) by lia.
       apply (IH k s2 bs (q + 1)); [by eapply in_tx_still|by apply Hbm2|by eapply first_free_still|lia|lia|].
       intros s' bs' Hal Htx'. eapply Hk; [by eapply allocates_still|done]. }
  all: destruct Hfc as (Er & Ebi & Ebr); fold bb in Ebr; clear Ebb; clearbody bb; subst bb.
  all: eapply runs_as; [eapply returns_as_trans; [apply returns_as_assoc|]; apply returns_as_bind; intros ?; eapply returns_as_trans; [apply returns_as_assoc|];
    apply returns_as_bind; intros ?; apply returns_as_assoc|].
  all: cbv beta; eapply (runs_log_update c b p d _ _ _ s bs (bblock s r) (set_bit bi dt));
    try apply Htx; try done; [pose proof (tx_room _ _ _ _ Htx); lia|unfold set_bit; by rewrite length_alter|
    intros y Hy; by replace (b_data y) with dt by congruence|].
  all: intros s2 Hl2; runs_step; rewrite <- Er.
  all: assert (outside (k_log s2) r) as Ho2 by
    (destruct (logs_fields d _ _ _ _ _ Hl2) as (_ & (Ea & Eb & _) & _); unfold outside; rewrite Ea, Eb; by apply (bm_free _ Hbm)).
  all: pose proof (in_tx_logs _ _ _ _ _ _ Htx Hl2) as Htx2; eapply runs_bzero; [exact Htx2|rewrite (lg_disk _ _ _ _ _ _ Hl2); lia|done|].
  all: intros s3 Hl3; runs_step; eapply Hk; [rewrite Ebi in Hl2; by eapply allocates_intro|by eapply in_tx_logs].
Qed.

(** C19: inside a transaction [balloc] on a disk with a free block returns the
    first free block; the block was not in use, is now marked in the bitmap and
    filled with zeros; no other block changes its mark or, the bitmap block
    apart, its contents; and the bitmap stays well formed. *)
Theorem balloc_allocates s bs r :
  in_tx d s bs 2 -> bitmap_ok s -> first_free s r ->
  runs c b p d [] [] (balloc ROOTDEV) s (fun a s' =>
    a = r /\ in_use s a = false /\ allocates s a s' /\ exists bs', in_tx d s' bs' 0).
Proof.
  intros Htx Hbm Hff. pose proof Hff as (Hr & Hfree & _). unfold balloc, sb_get. runs_step. apply runs_tail.
  pose proof (Z.div_mod (sb_size (k_sb s)) BPB ltac:(done)) as Hdm. pose proof (Z.mod_pos_bound (sb_size (k_sb s)) BPB ltac:(done)) as Hm.
  apply (runs_balloc_loop _ r _ _ s bs 0); [done|done|done|lia| |].
  - change BPB with 4096 in *. assert (0 <= sb_size (k_sb s) / 4096) by (apply Z.div_pos; lia). lia.
  - intros s' bs' Hal Htx'. apply runs_ret. split_and!; [done|done|done|]. by exists bs'.
Qed.

(** *** Freeing *)
(** From [s] to [s'] block [r] was given back. *)
Record frees s r s' : Prop := {
  fr_use : forall n, 0 <= n < sb_size (k_sb s) -> in_use s' n = negb (bool_decide (n = r)) && in_use s n;
  fr_other : forall m, m <> bblock s r -> content s' m = content s m;
  fr_disk : k_disk s' = k_disk s }.

(** inside a transaction [bfree] of a block in use clears its mark: every
    other block keeps its mark, and the contents of all blocks but the one of
    the bitmap are unchanged. *)
Theorem bfree_frees s bs r :
  in_tx d s bs 1 -> bitmap_ok s -> 0 <= r < sb_size (k_sb s) -> in_use s r = true ->
  runs c b p d [] [] (bfree ROOTDEV r) s (fun _ s' => frees s r s' /\ exists bs', in_tx d s' bs' 0).
Proof.
  intros Htx Hbm Hr Huse. pose proof (bm_size _ Hbm) as Hsz. destruct (bm_map _ Hbm r Hr) as (Hlt & _ & Hout).
  pose proof (bblock_nonneg s r Hbm ltac:(lia)) as H0'. pose proof (Z.mod_pos_bound r BPB ltac:(done)) as Hmr.
  unfold bfree, BBLOCK, sb_get. runs_step. fold (bblock s r). rewrite (block_u32 s bs) by (apply Htx || lia).
  eapply (runs_read c b p d); [apply Htx|lia|]. intros i s1 lru dt Hr1 Edt Hlen. runs_step. eapply (runs_data c b p d); [done|done|].
  assert (bit_set dt (r mod BPB) = true) as -> by (unfold in_use in Huse; by rewrite Edt in Huse). cbn [negb].
  eapply runs_as; [apply returns_as_bind; intros ?; apply returns_as_bind; intros ?; apply returns_as_tail|].
  eapply (runs_log_update c b p d _ _ _ s bs (bblock s r) (clear_bit (r mod BPB) dt)); try apply Htx; try done.
  { pose proof (tx_room _ _ _ _ Htx). lia. } { lia. } { unfold clear_bit. by rewrite length_alter. }
  { intros y Hy. by replace (b_data y) with dt by congruence. }
  intros s2 Hl2. apply runs_ret. destruct (disk_only_fields _ _ (lg_only _ _ _ _ _ _ Hl2)) as (_ & Es & _). cbn in Es.
  split; [|eexists; by eapply in_tx_logs]. split; [|intros m ?; by rewrite (lg_content _ _ _ _ _ _ Hl2), decide_False|apply Hl2].
  intros n Hn. unfold in_use. rewrite (bblock_same s s2), (lg_content _ _ _ _ _ _ Hl2) by done.
  case_decide as E; [|by rewrite bool_decide_false by (by intros ->)]. rewrite E, Edt.
  pose proof (Z.mod_pos_bound n BPB ltac:(done)) as Hmn. change BPB with 4096 in *.
  rewrite clear_bit_spec by (rewrite ?Hlen; change (Z.to_nat BSIZE) with 512%nat; lia).
  unfold bblock in E. change BPB with 4096 in E. assert (n / 4096 = r / 4096) as Eq by lia. case_decide as Em.
  - rewrite bool_decide_true; [done|]. rewrite (Z.div_mod n 4096), (Z.div_mod r 4096) by lia. congruence.
  - by rewrite bool_decide_false by (intros ->; done).
Qed.

End allocator.

(** ** A disk of 60 blocks whose first 42 are in use *)
Lemma ready_set_sb d s bs sb : ready d s bs -> ready d (set_k_sb sb s) bs.
Proof. intros [(lru & []) ? ? ? ?]. split; try done. exists lru. by split. Qed.

Definition demo_bitmap : list Z := replicate 5 255 ++ [3] ++ replicate 506 0.
Definition demo_bitmap_disk : list (list Z) := <[33%nat := demo_bitmap]> (replicate 60 zero_block).
Definition demo_bitmap_fs : kernel :=
  set_k_sb (mkSuperblock 60 20 10 30 2 32 33) (set_k_log (set_outstanding 1 demo_log) (demo_log_fs demo_bitmap_disk)).

Lemma demo_bitmap_tx (r : nat) : (r <= 29)%nat -> in_tx (demo_proc RUNNING 1 0 None None) demo_bitmap_fs [] r.
Proof.
  intros Hr. assert (Forall (fun blk => length blk = Z.to_nat BSIZE) demo_bitmap_disk) as Hall
    by (apply Forall_insert; [by apply Forall_replicate|reflexivity]).
  destruct (demo_log_quiet demo_bitmap_disk Hall) as [Hq Hd]. split; [|reflexivity|cbn; lia|cbn; lia].
  apply ready_set_sb, (ready_set_log _ (demo_log_fs demo_bitmap_disk)); [|done|done|done].
  split; [exact Hq| |split; reflexivity| |exists zero_block; split; reflexivity].
  - apply (demo_log_fits []); [apply Forall_nil_2|apply NoDup_nil_2|simpl; lia].
  - intros m. split; [intros Hm; destruct (Hd m Hm)|intros Hm; destruct (not_elem_of_nil m Hm)].
Qed.

Lemma demo_in_use n : 0 <= n < 60 -> in_use demo_bitmap_fs n = (n <? 42).
Proof.
  intros Hn. assert (forallb (fun k => Bool.eqb (in_use demo_bitmap_fs (Z.of_nat k)) (Z.of_nat k <? 42)) (seq 0 60) = true) as Hall by (vm_compute; reflexivity).
  rewrite forallb_forall in Hall. specialize (Hall (Z.to_nat n)). rewrite Z2Nat.id in Hall by lia.
  apply eqb_prop, Hall, in_seq. lia.
Qed.

Lemma demo_bitmap_ok : bitmap_ok demo_bitmap_fs.
Proof.
  assert (forall n, 0 <= n < 60 -> bblock demo_bitmap_fs n = 33) as Hbb
    by (intros n Hn; unfold bblock; change BPB with 4096; rewrite Z.div_small by lia; reflexivity).
  split; [vm_compute; split; discriminate|vm_compute; discriminate| |]; change (sb_size (k_sb demo_bitmap_fs)) with 60; intros n Hn.
  - rewrite Hbb, demo_in_use by lia. split_and!; [lia|reflexivity|right; cbn; lia].
  - rewrite demo_in_use by done. intros E%Z.ltb_ge. right. cbn. lia.
Qed.

Lemma demo_first_free : first_free demo_bitmap_fs 42.
Proof.
  split; [split; [lia|reflexivity]|]. split; [by rewrite demo_in_use by lia|]. intros n Hn. rewrite demo_in_use by lia. apply Z.ltb_lt, Hn.
Qed.

Lemma balloc_allocates_witness :
  runs 0 true 0 (demo_proc RUNNING 1 0 None None) [] [] (@balloc 0%nat memide_disk ROOTDEV) demo_bitmap_fs
    (fun a s' => a = 42 /\ content s' 42 = Some zeros).
Proof.
  eapply runs_mono; [apply (@balloc_allocates 0 true 0 (demo_proc RUNNING 1 0 None None) 0%nat memide_disk memide_ok demo_bitmap_fs [] 42)|].
  - apply demo_bitmap_tx. lia.
  - apply demo_bitmap_ok.
  - apply demo_first_free.
  - intros a s' (-> & _ & Hal & _). split; [reflexivity|apply Hal].
Defined.

Lemma bfree_frees_witness :
  runs 0 true 0 (demo_proc RUNNING 1 0 None None) [] [] (@bfree 0%nat memide_disk ROOTDEV 41) demo_bitmap_fs
    (fun _ s' => in_use s' 41 = false /\ in_use s' 40 = true).
Proof.
  eapply runs_mono; [apply (@bfree_frees 0 true 0 (demo_proc RUNNING 1 0 None None) 0%nat memide_disk memide_ok demo_bitmap_fs [] 41)|].
  - apply demo_bitmap_tx. lia.
  - apply demo_bitmap_ok.
  - change (sb_size (k_sb demo_bitmap_fs)) with 60. lia.
  - rewrite demo_in_use by lia. reflexivity.
  - intros [] s' [Hf _]. rewrite !(fr_use _ _ _ Hf) by (change (sb_size (k_sb demo_bitmap_fs)) with 60; lia).
    rewrite demo_in_use by lia. split; reflexivity.
Defined.
