(* ===== verification/File.v ===== *)
(** * Open files ([kernel/file.c], [pipealloc] of [kernel/pipe.c])

    The table of open files, shared by all processes: reference counts, and
    the operations that go to a pipe or to an inode.  A pointer to a file is
    its index in [ftable.file]. *)
From S2P Require Import Prelude Types Str Spinlock Queue Kalloc Sched Context Sleeplock Pipe Bio Log Console Fs.

Section code.
Context `{Linkage} `{Fuel} `{Disk} `{Serial} `{DevSw}.

Definition file_get {A} (f : nat) (g : file -> A) : K A :=
  o <- gets (fun s => g <$> k_ftable s !! f) ;;
  of_option "file" o.
Definition file_set (f : nat) (g : file -> file) : K unit :=
  file_get f (fun _ => tt) ;;
  modify (fun s => set_k_ftable (alter g f (k_ftable s)) s).

Definition fileinit : K unit := initlock L_ftable "ftable".

(** The first entry without references. *)
Fixpoint free_file (i : nat) (l : list file) : option nat :=
  match l with
  | [] => None
  | x :: l' => if f_ref x =? 0 then Some i else free_file (S i) l'
  end.
Definition filealloc : K (option nat) :=
  acquire L_ftable ;;
  l <- gets k_ftable ;;
  match free_file 0 l with
  | Some f => file_set f (set_f_ref 1) ;; release L_ftable ;; ret (Some f)
  | None => release L_ftable ;; ret None
  end.

Definition filedup (f : nat) : K nat :=
  acquire L_ftable ;;
  r <- file_get f f_ref ;;
  if r <? 1 then panic "filedup" else
  file_set f (set_f_ref (i32 (r + 1))) ;;
  release L_ftable ;;
  ret f.

Definition fileclose (f : nat) : K unit :=
  acquire L_ftable ;;
  r <- file_get f f_ref ;;
  if r <? 1 then panic "fileclose" else
  file_set f (set_f_ref (r - 1)) ;;
  if 0 <? r - 1 then release L_ftable else
  ff <- file_get f (fun x => x) ;;
  file_set f (fun x => set_f_type FD_NONE (set_f_ref 0 x)) ;;
  release L_ftable ;;
  match f_type ff with
  | FD_PIPE => pipeclose (f_pipe ff) (negb (writable ff =? 0))
  | FD_INODE =>
      ip <- of_option "ff.ip" (f_ip ff) ;;
      begin_op ;;
      iput ip ;;
      end_op
  | FD_NONE => ret tt
  end.

Definition filestat (f : nat) : K (option stat) :=
  ff <- file_get f (fun x => x) ;;
  if bool_decide (f_type ff = FD_INODE) then
    ip <- of_option "f->ip" (f_ip ff) ;;
    ilock ip ;;
    st <- stati ip ;;
    iunlock ip ;;
    ret (Some st)
  else ret None.

(** The number of bytes, or -1, and the bytes. *)
Definition fileread (f : nat) (n : Z) : K (Z * list Z) :=
  ff <- file_get f (fun x => x) ;;
  if readable ff =? 0 then ret (-1, []) else
  match f_type ff with
  | FD_PIPE => piperead (f_pipe ff) n
  | FD_INODE =>
      ip <- of_option "f->ip" (f_ip ff) ;;
      ilock ip ;;
      off <- file_get f f_off ;;
      let* (r, l) := readi ip off (u32 n) in
      whenm (0 <? r) (file_set f (fun x => set_f_off (u32 (f_off x + r)) x)) ;;
      iunlock ip ;;
      ret (r, l)
  | FD_NONE => panic "fileread"
  end.

(** Four blocks at a time: an inode, an indirect block, allocation blocks and
    two blocks for writes that are not aligned also go in the transaction. *)
Definition write_max : Z := (MAXOPBLOCKS - 1 - 1 - 2) / 2 * 512.

(** The loop of [filewrite] on the bytes that remain; tells whether all were
    written. *)
Fixpoint write_chunks (k : nat) (f ip : nat) (addr : list Z) : K bool :=
  match addr with
  | [] => ret true
  | _ =>
      let n1 := Z.to_nat (Z.min (Z.of_nat (length addr)) write_max) in
      begin_op ;;
      ilock ip ;;
      off <- file_get f f_off ;;
      r <- writei ip (take n1 addr) off ;;
      whenm (0 <? r) (file_set f (fun x => set_f_off (u32 (f_off x + r)) x)) ;;
      iunlock ip ;;
      end_op ;;
      if r <? 0 then ret false else
      if negb (r =? Z.of_nat n1) then panic "short filewrite" else
      match k with
      | O => stopm NoFuel
      | S k' => write_chunks k' f ip (drop n1 addr)
      end
  end.
Definition filewrite (f : nat) (addr : list Z) : K Z :=
  let n := Z.of_nat (length addr) in
  ff <- file_get f (fun x => x) ;;
  if writable ff =? 0 then ret (-1) else
  match f_type ff with
  | FD_PIPE => pipewrite (f_pipe ff) addr n
  | FD_INODE =>
      ip <- of_option "f->ip" (f_ip ff) ;;
      all <- write_chunks (length addr) f ip addr ;;
      ret (if all : bool then n else -1)
  | FD_NONE => panic "filewrite"
  end.

(** [pipealloc] of [pipe.c].  The data of a new pipe are what the page held. *)
Definition sizeof_spinlock : Z := 52.
Definition close_opt (o : option nat) : K unit :=
  match o with Some f => fileclose f | None => ret tt end.
Definition pipealloc : K (option (nat * nat)) :=
  f0 <- filealloc ;;
  f1 <- match f0 with None => ret None | Some _ => filealloc end ;;
  match f0, f1 with
  | Some a, Some b =>
      p <- kalloc ;;
      if p =? 0 then fileclose a ;; fileclose b ;; ret None else
      modify (fun s => set_k_pipes (<[p := mkPipe
        ((fun i => load8 (k_mem s) (p + sizeof_spinlock + Z.of_nat i)) <$> seq 0 (Z.to_nat PIPESIZE))
        0 0 true true]> (k_pipes s)) s) ;;
      initlock (L_pipe p) "pipe" ;;
      file_set a (fun x => set_f_pipe p (set_writable 0 (set_readable 1 (set_f_type FD_PIPE x)))) ;;
      file_set b (fun x => set_f_pipe p (set_writable 1 (set_readable 0 (set_f_type FD_PIPE x)))) ;;
      ret (Some (a, b))
  | _, _ => close_opt f0 ;; close_opt f1 ;; ret None
  end.

End code.

(** ** Reference counts *)
Section refs.
Context (c : nat) (b : bool) (p : nat) (d : proc) `{Linkage} `{Fuel} `{Disk} `{Serial} `{DevSw}.
Implicit Types (s : kernel) (f i : nat) (x : file).

Definition put_file f x s : kernel := set_k_ftable (<[f := x]> (k_ftable s)) s.

Lemma runs_file_get {A B} L L' (g : file -> B) (k : B -> K A) s Q f x :
  k_ftable s !! f = Some x -> runs c b p d L L' (k (g x)) s Q -> runs c b p d L L' (y <- file_get f g ;; k y) s Q.
Proof. intros E Hk. unfold file_get. runs_step. rewrite E. by eapply runs_of_option. Qed.

Lemma runs_file_set {A} L L' (g : file -> file) (k : unit -> K A) s Q f x :
  k_ftable s !! f = Some x -> runs c b p d L L' (k tt) (put_file f (g x) s) Q -> runs c b p d L L' (y <- file_set f g ;; k y) s Q.
Proof.
  intros E Hk. unfold file_set. runs_step. eapply runs_file_get; [done|]. runs_step.
  by rewrite (alter_lookup_insert _ _ _ _ E).
Qed.

Lemma put_file_lookup f x s : (f < length (k_ftable s))%nat -> k_ftable (put_file f x s) !! f = Some x.
Proof. intros Hf. by apply list_lookup_insert_eq. Qed.

Lemma put_file_twice f x y s : put_file f y (put_file f x s) = put_file f y s.
Proof. unfold put_file. cbn. by rewrite list_insert_insert_eq. Qed.

Lemma put_file_id f x s : k_ftable s !! f = Some x -> put_file f x s = s.
Proof. intros E. unfold put_file. rewrite list_insert_id by done. by destruct s. Qed.

Lemma filedup_runs s f x L : L_ftable ∉ L -> k_ftable s !! f = Some x -> 1 <= f_ref x < 2 ^ 31 - 1 ->
  runs c b p d L L (filedup f) s (fun r s' => r = f /\ s' = put_file f (set_f_ref (f_ref x + 1) x) s).
Proof.
  intros HL E Hr. unfold filedup. apply runs_acquire; [done|]. eapply runs_file_get; [done|]. rewrite (proj2 (Z.ltb_ge _ _)) by lia.
  runs_step. eapply runs_file_set; [done|]. runs_step. eapply runs_release; [done|]. runs_step. by rewrite i32_small by lia.
Qed.

(** A close of a file that others still use. *)
Lemma fileclose_runs s f x L : L_ftable ∉ L -> k_ftable s !! f = Some x -> 1 < f_ref x ->
  runs c b p d L L (fileclose f) s (fun _ s' => s' = put_file f (set_f_ref (f_ref x - 1) x) s).
Proof.
  intros HL E Hr. unfold fileclose. apply runs_acquire; [done|]. eapply runs_file_get; [done|]. rewrite (proj2 (Z.ltb_ge _ _)) by lia.
  runs_step. eapply runs_file_set; [done|]. rewrite (proj2 (Z.ltb_lt _ _)) by lia. apply runs_tail. eapply runs_release; [done|]. by runs_step.
Qed.

(** [filedup] adds one reference to an open file and returns it, and a
    following [fileclose] takes that reference back: the file stays open, its
    pipe or inode is not touched, and the table is what it was. *)
Theorem filedup_fileclose s f x L :
  L_ftable ∉ L -> k_ftable s !! f = Some x -> 1 <= f_ref x < 2 ^ 31 - 1 ->
  runs c b p d L L (filedup f) s (fun r s' => r = f /\ s' = put_file f (set_f_ref (f_ref x + 1) x) s) /\
  runs c b p d L L (filedup f ;; fileclose f) s (fun _ s' => s' = s).
Proof.
  intros HL E Hr. pose proof (filedup_runs s f x L HL E Hr) as Hd. split; [done|].
  eapply runs_bind, runs_mono; [exact Hd|]. intros r s1 [-> ->].
  eapply runs_mono; [apply (fileclose_runs _ f (set_f_ref (f_ref x + 1) x)); [done|apply put_file_lookup; by eapply lookup_lt_Some|cbn; lia]|].
  intros [] s2 ->. rewrite put_file_twice.
  assert (set_f_ref (f_ref (set_f_ref (f_ref x + 1) x) - 1) (set_f_ref (f_ref x + 1) x) = x) as ->; [|by apply put_file_id].
  destruct x as [ty rf rd wr pi ip off]. unfold set_f_ref. cbn. by replace (rf + 1 - 1) with rf by lia.
Qed.

Lemma free_file_spec l : forall i,
  match free_file i l with
  | Some j => exists x, (i <= j)%nat /\ l !! (j - i)%nat = Some x /\ f_ref x = 0 /\ forall k y, (k < j - i)%nat -> l !! k = Some y -> f_ref y <> 0
  | None => forall k y, l !! k = Some y -> f_ref y <> 0
  end.
Proof.
  induction l as [|x l IH]; intros i; cbn; [done|]. destruct (Z.eqb_spec (f_ref x) 0) as [E|E].
  - exists x. rewrite Nat.sub_diag. split_and!; [lia|done|done|]. intros k y Hk. lia.
  - specialize (IH (S i)). destruct (free_file (S i) l) as [j|].
    + destruct IH as (y & Hj & Hl & Hy & Hall). exists y. replace (j - i)%nat with (S (j - S i)) by lia. split_and!; [lia|done|done|].
      intros [|k] z Hk Hz; [by injection Hz as <-|]. apply (Hall k z); [lia|done].
    + intros [|k] z Hz; [by injection Hz as <-|]. by apply (IH k z).
Qed.

(** [filealloc] returns the first entry of the table without references,
    now with one, and changes no other entry; when every entry is referenced it
    returns null and changes nothing. *)
Theorem filealloc_first s L :
  L_ftable ∉ L ->
  runs c b p d L L filealloc s (fun r s' =>
    match r with
    | Some f => exists x, k_ftable s !! f = Some x /\ f_ref x = 0 /\ (forall k y, (k < f)%nat -> k_ftable s !! k = Some y -> f_ref y <> 0) /\
        s' = put_file f (set_f_ref 1 x) s
    | None => s' = s /\ forall k y, k_ftable s !! k = Some y -> f_ref y <> 0
    end).
Proof.
  intros HL. unfold filealloc. apply runs_acquire; [done|]. runs_step. pose proof (free_file_spec (k_ftable s) 0) as Hf.
  destruct (free_file 0 (k_ftable s)) as [f|].
  - destruct Hf as (x & _ & Hx & Hr & Hall). rewrite Nat.sub_0_r in *. eapply runs_file_set; [done|]. eapply runs_release; [done|]. runs_step.
    exists x. by split_and!.
  - eapply runs_release; [done|]. by runs_step.
Qed.

End refs.

(** An open regular file with two references at entry 1. *)
Definition demo_ftable : kernel :=
  set_k_ftable [file_zero; mkFile FD_INODE 2 1 1 0 (Some 0%nat) 40] (demo_kernel [] (Some 0%nat)).

Lemma filedup_fileclose_witness :
  let _ : DevSw := {| devsw_read _ := None; devsw_write _ := None |} in
  let lnk := demo_linkage in let fuel0 : Fuel := 0%nat in
  let disk0 : Disk := memide_disk in
  runs 0 true 0 (demo_proc RUNNING 1 0 None None) [] [] (filedup 1 ;; fileclose 1) demo_ftable (fun _ s' => s' = demo_ftable).
Proof.
  intros dev lnk fuel0 disk0.
  apply (filedup_fileclose 0 true 0 (demo_proc RUNNING 1 0 None None) demo_ftable 1%nat (mkFile FD_INODE 2 1 1 0 (Some 0%nat) 40) []).
  - set_solver.
  - reflexivity.
  - cbn. lia.
Defined.
