(* ===== verification/Proc.v ===== *)
(** * Process life cycle ([kernel/proc.c])

    [userinit], [growproc], [fork], [exit], [wait] and [forkret], over the
    scheduler, virtual memory, the file table and the file system. *)
From S2P Require Import Prelude Types Str Spinlock Queue Kalloc Sched Context Sleeplock Pipe Bio Log Console Vm Fs File.

(** The program in [initcode.S], assembled and linked into the kernel. *)
Class Initcode := initcode : list Z.

(** [safestrcpy] into the array [old]: the loop copies at most [n] bytes, the NUL
    included, and a zero is stored after the last one copied. *)
Fixpoint copy_loop (n : nat) (old src : list Z) : list Z :=
  match n with
  | O => 0 :: drop 1 old
  | S n' =>
      let c := default 0 (head src) in
      c :: (if c =? 0 then 0 :: drop 2 old else copy_loop n' (drop 1 old) (drop 1 src))
  end.
Definition copy_name (old src : list Z) : list Z := copy_loop 15 old src.

(** This is what [safestrcpy] does to the bytes in memory. *)
Definition bytes_of (m : gmap Z Z) (a : Z) (n : nat) : list Z := (fun i => load8 m (a + Z.of_nat i)) <$> seq 0 n.
Lemma bytes_of_S m a n : bytes_of m a (S n) = load8 m a :: bytes_of m (a + 1) n.
Proof.
  unfold bytes_of. cbn [seq fmap list_fmap]. rewrite Z.add_0_r. f_equal. rewrite <- fmap_S_seq, <- list_fmap_compose.
  apply list_fmap_ext. intros i x _. cbn. f_equal. lia.
Qed.
Lemma bytes_of_ext m m' a n : (forall i, a <= i < a + Z.of_nat n -> load8 m' i = load8 m i) -> bytes_of m' a n = bytes_of m a n.
Proof. intros He. apply list_fmap_ext. intros i x Hx. apply He. apply lookup_seq in Hx as [-> ?]. lia. Qed.
Lemma copy_loop_safestrcpy n : forall s t m k, Str.mem_ok m -> s + Z.of_nat n < t \/ t + Z.of_nat n <= s -> (n < k)%nat ->
  bytes_of (safestrcpy_loop s t n m) s k = copy_loop n (bytes_of m s k) (bytes_of m t n).
Proof.
  induction n as [|n IH]; intros s t m k Hm Hd Hk; (destruct k as [|k]; [lia|]); cbn [safestrcpy_loop copy_loop].
  - rewrite bytes_of_S. cbn [drop]. rewrite load8_store8, decide_True by done. rewrite bytes_of_S. f_equal.
    apply bytes_of_ext. intros i Hi. by rewrite load8_store8, decide_False by lia.
  - destruct k as [|k]; [lia|]. rewrite (bytes_of_S m t n). cbn [head from_option drop]. change (id (load8 m t)) with (load8 m t). pose proof (load8_range m t Hm) as Hr.
    assert (forall a j, ~ a <= s < a + Z.of_nat j -> bytes_of (store8 s (load8 m t) m) a j = bytes_of m a j) as He
      by (intros a j Ha; apply bytes_of_ext; intros i Hi; by rewrite load8_store8, decide_False by lia).
    rewrite (bytes_of_S m s (S k)). cbn [drop]. rewrite !drop_0. destruct (Z.eqb_spec (load8 m t) 0) as [E|E].
    + rewrite !bytes_of_S. cbn [drop]. f_equal; [rewrite !load8_store8, E; repeat case_decide; done || lia|].
      rewrite drop_0. f_equal; [rewrite load8_store8; by case_decide|].
      rewrite <- (He (s + 1 + 1) k), E by lia. apply bytes_of_ext. intros i Hi. by rewrite load8_store8, decide_False by lia.
    + rewrite (bytes_of_S _ s (S k)). rewrite safestrcpy_loop_frame by lia. rewrite load8_store8, decide_True, u8_small by done. f_equal.
      rewrite (IH (s + 1) (t + 1)) by (first [by apply store8_mem_ok|lia]). by rewrite !He by lia.
Qed.

(** Offsets in [struct trapframe]. *)
Definition tf_edi : Z := 0.
Definition tf_eax : Z := 28.
Definition tf_es : Z := 40.
Definition tf_ds : Z := 44.
Definition tf_eip : Z := 56.
Definition tf_code : Z := 60.
Definition tf_eflags : Z := 64.
Definition tf_esp : Z := 68.
Definition tf_ss : Z := 72.
Definition store16 (a v : Z) (m : gmap Z Z) : gmap Z Z := store8 (a + 1) (v / 2 ^ 8) (store8 a v m).

(** The scan of [wait]: the first exited child of [me], and whether there are
    children before it. *)
Fixpoint scan_kids (me i : nat) (l : list proc) (kids : bool) : option nat * bool :=
  match l with
  | [] => (None, kids)
  | pr :: l' =>
      if negb (bool_decide (parent pr = Some me)) then scan_kids me (S i) l' kids
      else if bool_decide (state pr = ZOMBIE) then (Some i, true)
      else scan_kids me (S i) l' true
  end.

Section code.
Context `{Linkage} `{Fuel} `{Disk} `{Serial} `{DevSw} `{Initcode}.

Definition userinit : K unit :=
  po <- allocproc ;;
  modify (set_k_initproc po) ;;
  p <- of_option "userinit" po ;;
  pd <- setupkvm ;;
  proc_set p (set_pgdir pd) ;;
  if pd =? 0 then panic "userinit: out of memory?" else
  inituvm pd initcode ;;
  proc_set p (set_sz PGSIZE) ;;
  t <- proc_get p tf ;;
  let ds := Z.lor (Z.shiftl SEG_UDATA 3) DPL_USER in
  modify (upd_mem (memset t 0 sizeof_trapframe)) ;;
  modify (upd_mem (store16 (t + tf_code) (Z.lor (Z.shiftl SEG_UCODE 3) DPL_USER))) ;;
  modify (upd_mem (store16 (t + tf_ds) ds)) ;;
  modify (upd_mem (store16 (t + tf_es) ds)) ;;
  modify (upd_mem (store16 (t + tf_ss) ds)) ;;
  modify (upd_mem (store32 (t + tf_eflags) FL_IF)) ;;
  modify (upd_mem (store32 (t + tf_esp) PGSIZE)) ;;
  modify (upd_mem (store32 (t + tf_eip) 0)) ;;
  proc_set p (fun pr => set_p_name (copy_name (p_name pr) (bytes "initcode")) pr) ;;
  root <- namei [slash] ;;
  proc_set p (set_cwd root) ;;
  acquire L_ptable ;;
  pt_do (enqueue p) ;;
  release L_ptable.

Definition growproc (n : Z) : K Z :=
  p <- curproc ;;
  size <- proc_get p sz ;;
  pd <- proc_get p pgdir ;;
  size' <- (if 0 <? n then allocuvm pd size (u32 (size + n))
            else if n <? 0 then deallocuvm pd size (u32 (size + n))
            else ret size) ;;
  if negb (n =? 0) && (size' =? 0) then ret (-1) else
  proc_set p (set_sz size') ;;
  switchuvm (Some p) ;;
  ret 0.

(** The loop of [fork] over the open files. *)
Fixpoint dup_files (n : nat) (p np i : nat) : K unit :=
  match n with
  | O => ret tt
  | S n' =>
      l <- proc_get p ofile ;;
      o <- of_option "ofile" (l !! i) ;;
      match o with
      | Some f => f' <- filedup f ;; proc_set np (fun pr => set_ofile (<[i := Some f']> (ofile pr)) pr)
      | None => ret tt
      end ;;
      dup_files n' p np (S i)
  end.

Definition fork : K Z :=
  p <- curproc ;;
  npo <- allocproc ;;
  match npo with
  | None => ret (-1)
  | Some np =>
      pd <- proc_get p pgdir ;;
      size <- proc_get p sz ;;
      d <- copyuvm pd size ;;
      proc_set np (set_pgdir d) ;;
      if d =? 0 then
        ks <- proc_get np kstack ;;
        kfree ks ;;
        proc_set np (set_kstack 0) ;;
        proc_set np (set_state UNUSED) ;;
        ret (-1)
      else
        proc_set np (set_sz size) ;;
        proc_set np (set_parent (Some p)) ;;
        t <- proc_get p tf ;;
        nt <- proc_get np tf ;;
        modify (upd_mem (memmove nt t (Z.to_nat sizeof_trapframe))) ;;
        modify (upd_mem (store32 (nt + tf_eax) 0)) ;;
        dup_files NOFILE p np 0 ;;
        c <- proc_get p cwd ;;
        c <- of_option "cwd" c ;;
        c <- idup c ;;
        proc_set np (set_cwd (Some c)) ;;
        nm <- proc_get p p_name ;;
        proc_set np (fun pr => set_p_name (copy_name (p_name pr) nm) pr) ;;
        i <- proc_get np pid ;;
        acquire L_ptable ;;
        pt_do (enqueue np) ;;
        release L_ptable ;;
        ret i
  end.

(** The loops of [exit]: close the files, and pass the children to [initproc]. *)
Fixpoint close_files (n : nat) (p i : nat) : K unit :=
  match n with
  | O => ret tt
  | S n' =>
      l <- proc_get p ofile ;;
      o <- of_option "ofile" (l !! i) ;;
      match o with
      | Some f => fileclose f ;; proc_set p (fun pr => set_ofile (<[i := None]> (ofile pr)) pr)
      | None => ret tt
      end ;;
      close_files n' p (S i)
  end.
Fixpoint reparent (n : nat) (p i : nat) : K unit :=
  match n with
  | O => ret tt
  | S n' =>
      par <- proc_get i parent ;;
      whenm (bool_decide (par = Some p))
        (ini <- gets k_initproc ;;
         proc_set i (set_parent ini) ;;
         st <- proc_get i state ;;
         whenm (bool_decide (st = ZOMBIE)) (pt_do (wakeup1 (C_proc <$> ini)))) ;;
      reparent n' p (S i)
  end.

Definition exit_ {A} : K A :=
  p <- curproc ;;
  ini <- gets k_initproc ;;
  if bool_decide (ini = Some p) then panic "init exiting" else
  close_files NOFILE p 0 ;;
  begin_op ;;
  c <- proc_get p cwd ;;
  c <- of_option "cwd" c ;;
  iput c ;;
  end_op ;;
  proc_set p (set_cwd None) ;;
  acquire L_ptable ;;
  par <- proc_get p parent ;;
  pt_do (wakeup1 (C_proc <$> par)) ;;
  reparent NPROC p 0 ;;
  proc_set p (set_state ZOMBIE) ;;
  sched ;;
  panic "zombie exit".

(** [wait] frees the exited child [k]. *)
Definition reap (k : nat) : K Z :=
  i <- proc_get k pid ;;
  ks <- proc_get k kstack ;;
  kfree ks ;;
  proc_set k (set_kstack 0) ;;
  pd <- proc_get k pgdir ;;
  freevm pd ;;
  proc_set k (set_pid 0) ;;
  proc_set k (set_parent None) ;;
  proc_set k (fun pr => set_p_name (<[0%nat := 0]> (p_name pr)) pr) ;;
  proc_set k (set_killed 0) ;;
  proc_set k (set_state UNUSED) ;;
  release L_ptable ;;
  ret i.

Fixpoint wait_loop (n : nat) (p : nat) : K Z :=
  t <- gets k_pt ;;
  match scan_kids p 0 (pt_proc t) false with
  | (Some k, _) => reap k
  | (None, kids) =>
      k <- proc_get p killed ;;
      if negb kids || negb (k =? 0) then release L_ptable ;; ret (-1)
      else
        match n with
        | O => stopm NoFuel
        | S n' => sleep (Some (C_proc p)) (Some L_ptable) ;; wait_loop n' p
        end
  end.
Definition wait : K Z :=
  p <- curproc ;;
  acquire L_ptable ;;
  wait_loop fuel p.

Definition forkret : K unit :=
  release L_ptable ;;
  f <- gets k_first ;;
  whenm f
    (modify (set_k_first false) ;;
     iinit ROOTDEV ;;
     initlog ROOTDEV).

End code.
