(* ===== verification/Life.v ===== *)
(** * Exiting and waiting ([exit] and [wait] of [kernel/proc.c])

    What a process leaves behind when it exits: its files are closed, its
    parent is awake, its children belong to [initproc], and it is a zombie at
    the one context switch it makes.  [adopt] and [hand_over] describe the loop
    over the process table. *)
From S2P Require Import Prelude Types Str Spinlock Queue Kalloc Sched Context Sleeplock Pipe Bio Log Console Vm Paging Reclaim Fs FsSpec File Proc.

(** ** Passing the children on *)
Section adoption.
Context (p : nat) (ini : option nat).
Implicit Types (d : proc) (ps : list proc) (i n : nat).

Definition adopt d : proc := if decide (parent d = Some p) then set_parent ini d else d.
Definition zombie_child d : bool := bool_decide (parent d = Some p) && bool_decide (state d = ZOMBIE).

(** The entries [i .. i + n - 1] handed over to [ini], which is woken if one
    of them is a zombie. *)
Definition hand_over_from i n ps : list proc :=
  imap (fun j d => (if existsb zombie_child (take n (drop i ps)) then wake (C_proc <$> ini) else id)
    (if decide (i <= j < i + n)%nat then adopt d else d)) ps.
Definition hand_over ps : list proc :=
  (if existsb zombie_child ps then wake (C_proc <$> ini) else id) ∘ adopt <$> ps.

Lemma wake_wake ch d : wake ch (wake ch d) = wake ch d.
Proof. unfold wake at 2 3. case_decide as H; [|by unfold wake; rewrite decide_False]. unfold wake. by rewrite decide_False by (by intros [? _]). Qed.

Lemma wake_parent ch d : parent (wake ch d) = parent d.
Proof. unfold wake. by case_decide. Qed.

Lemma wake_adopt ch d : wake ch (adopt d) = adopt (wake ch d).
Proof.
  unfold adopt at 2. rewrite wake_parent. unfold adopt. destruct (decide (parent d = Some p)); [|done].
  unfold wake. by destruct (decide (state d = SLEEPING /\ p_chan d = ch)); rewrite ?decide_True, ?decide_False by done.
Qed.

Lemma wake_running ch d : state d = RUNNING -> wake ch d = d.
Proof. intros Hd. unfold wake. rewrite decide_False; [done|]. rewrite Hd. by intros [? _]. Qed.

Lemma adopt_running d : state d = RUNNING -> state (adopt d) = RUNNING.
Proof. intros Hd. unfold adopt. by case_decide. Qed.

Lemma wake_zombie_child ch d : zombie_child (wake ch d) = zombie_child d.
Proof.
  unfold zombie_child. rewrite wake_parent. f_equal. unfold wake. case_decide as H; [|done]. destruct H as [Hs _].
  rewrite !bool_decide_eq_false_2; [done|by rewrite Hs|done].
Qed.

Lemma existsb_fmap_wake ch l : existsb zombie_child (wake ch <$> l) = existsb zombie_child l.
Proof. induction l as [|d l IH]; [done|]. cbn. by rewrite wake_zombie_child, IH. Qed.

Lemma hand_over_lookup i n ps j :
  hand_over_from i n ps !! j =
  (fun d => (if existsb zombie_child (take n (drop i ps)) then wake (C_proc <$> ini) else id)
    (if decide (i <= j < i + n)%nat then adopt d else d)) <$> ps !! j.
Proof. unfold hand_over_from. by rewrite list_lookup_imap. Qed.

Lemma hand_over_done i ps : hand_over_from i 0 ps = ps.
Proof.
  apply list_eq. intros j. rewrite hand_over_lookup. rewrite take_0. cbn. destruct (ps !! j) as [d|]; [|done]. cbn.
  by rewrite decide_False by lia.
Qed.

Lemma hand_over_all ps : hand_over_from 0 (length ps) ps = hand_over ps.
Proof.
  apply list_eq. intros j. unfold hand_over. rewrite hand_over_lookup, drop_0, firstn_all, list_lookup_fmap.
  destruct (ps !! j) as [d|] eqn:Ej; [|done]. apply lookup_lt_Some in Ej. cbn. by rewrite decide_True by lia.
Qed.

Lemma in_window {A} i j n (x y : A) :
  j <> i -> (if decide (S i <= j < S (i + n))%nat then x else y) = (if decide (i <= j < i + S n)%nat then x else y).
Proof. intros Hj. destruct (decide (S i <= j < S (i + n))%nat); [by rewrite decide_True by lia|by rewrite decide_False by lia]. Qed.

(** One entry of the table. *)
Lemma hand_over_other i n ps d :
  ps !! i = Some d -> parent d <> Some p -> hand_over_from (S i) n ps = hand_over_from i (S n) ps.
Proof.
  intros Hi Hd. apply list_eq. intros j. rewrite !hand_over_lookup, (drop_S ps d i Hi). cbn [take existsb].
  unfold zombie_child at 2. rewrite (bool_decide_eq_false_2 (parent d = _)) by done. cbn [andb orb].
  destruct (decide (j = i)) as [->|Hj].
  - rewrite Hi. cbn. rewrite decide_False, decide_True by lia. unfold adopt. by rewrite decide_False.
  - destruct (ps !! j); [|done]. cbn. by rewrite in_window by done.
Qed.

Lemma hand_over_child i n ps d :
  ps !! i = Some d -> parent d = Some p ->
  hand_over_from (S i) n ((if bool_decide (state d = ZOMBIE) then wake (C_proc <$> ini) else id) <$> <[i := set_parent ini d]> ps)
  = hand_over_from i (S n) ps.
Proof.
  intros Hi Hd. apply list_eq. intros j. rewrite !hand_over_lookup, (drop_S ps d i Hi). cbn [take existsb].
  unfold zombie_child at 2. rewrite (bool_decide_eq_true_2 (parent d = _)) by done. cbn [andb].
  assert (existsb zombie_child (take n (drop (S i) ((if bool_decide (state d = ZOMBIE) then wake (C_proc <$> ini) else id) <$> <[i := set_parent ini d]> ps)))
    = existsb zombie_child (take n (drop (S i) ps))) as ->.
  { rewrite skipn_map, firstn_map, drop_insert_lt by lia. destruct (bool_decide _); [apply existsb_fmap_wake|].
    f_equal. apply (list_fmap_id (take n (drop (S i) ps))). }
  rewrite list_lookup_fmap. assert (length ps > i)%nat as Hl by (by eapply lookup_lt_Some).
  destruct (decide (j = i)) as [->|Hj].
  - rewrite list_lookup_insert_eq, Hi by done. cbn. rewrite decide_False, decide_True by lia. f_equal.
    unfold adopt. rewrite decide_True by done. destruct (bool_decide _), (existsb _ _); cbn; by rewrite ?wake_wake.
  - rewrite list_lookup_insert_ne by done. destruct (ps !! j) as [e|]; [|done]. cbn. f_equal.
    rewrite in_window by done.
    destruct (bool_decide _), (existsb _ _), (decide _); cbn; by rewrite <- ?wake_adopt, ?wake_wake.
Qed.

End adoption.

(** [reparent] over the entries [i .. i + n - 1]. *)
Lemma reparent_ok p n : forall i s qs,
  queues_ok (k_pt s) qs -> (i + n <= NPROC)%nat ->
  wp atomic (reparent n p i s) (fun _ s' => exists t qs', s' = set_k_pt t s /\ queues_ok t qs' /\
    pt_data t = hand_over_from p (k_initproc s) i n (pt_data (k_pt s))).
Proof.
  induction n as [|n IH]; intros i s qs Hq Hi; cbn [reparent].
  { apply wp_ret. exists (k_pt s), qs. by rewrite set_k_pt_id, hand_over_done. }
  destruct (lookup_lt_is_Some_2 (pt_proc (k_pt s)) i) as [pr Hpr]; [rewrite (lo_procs _ _ (proj1 Hq)); lia|].
  pose proof (pt_data_lookup _ _ _ Hpr) as Hd. apply wp_proc_get with pr; [done|]. case_bool_decide as Hp.
  2: { apply wp_when_false. eapply wp_mono; [apply (IH (S i) s qs Hq); lia|]. intros [] s' (t & qs' & -> & Hq' & Ht).
       exists t, qs'. by rewrite Ht, (hand_over_other _ _ _ _ _ _ Hd). }
  apply wp_when_true. wp_run.
  destruct (upd_data_ok _ _ _ _ (set_parent (k_initproc s)) Hq Hpr) as (t1 & E1 & Hq1 & Ht1); [done..|].
  apply wp_proc_set with t1; [done|]. wp_run.
  assert (pt_data t1 = <[i := set_parent (k_initproc s) (data pr)]> (pt_data (k_pt s))) as Hd1
    by (unfold pt_data; by rewrite Ht1, list_fmap_insert).
  assert (get_proc i t1 = Some (set_parent (k_initproc s) pr)) as Hg1.
  { unfold get_proc. rewrite Ht1. apply list_lookup_insert_eq. by eapply lookup_lt_Some. }
  apply wp_proc_get with (set_parent (k_initproc s) pr); [done|]. cbn [state set_parent].
  pose proof (hand_over_child p (k_initproc s) i n _ _ Hd Hp) as Hc. cbn [state data set_next_proc] in Hc.
  assert (forall t qs1, queues_ok t qs1 ->
    pt_data t = (if bool_decide (state pr = ZOMBIE) then wake (C_proc <$> k_initproc s) else id) <$> <[i := set_parent (k_initproc s) (data pr)]> (pt_data (k_pt s)) ->
    wp atomic (reparent n p (S i) (set_k_pt t s)) (fun _ s' => exists t qs', s' = set_k_pt t s /\ queues_ok t qs' /\
      pt_data t = hand_over_from p (k_initproc s) i (S n) (pt_data (k_pt s)))) as Hrest.
  { intros t qs1 Hqt Ht. eapply wp_mono; [apply (IH (S i) (set_k_pt t s) qs1 Hqt); lia|]. intros [] s' (t' & qs' & -> & Hq' & Ht').
    exists t', qs'. split_and!; [done|done|]. rewrite Ht'. cbn [k_pt k_initproc set_k_pt]. by rewrite Ht. }
  case_bool_decide as Hz.
  - apply wp_when_true. destruct (wakeup1_ok (C_proc <$> k_initproc s) t1 qs Hq1) as (t2 & E2 & Hq2 & Ht2).
    apply wp_pt_do with t2; [done|]. eapply Hrest; [exact Hq2|]. by rewrite Ht2, Hd1.
  - apply wp_when_false. eapply Hrest; [exact Hq1|]. by rewrite list_fmap_id.
Qed.

(** ** Running a routine that keeps the process as it is *)
Lemma wp_runs {A B} P (m : K B) (k : B -> K A) h0 t0 s Q R c b p pr qs :
  at_proc (put h0 t0 s) c [] b p pr qs -> state pr = RUNNING -> runs c b p (data pr) [] [] m s Q ->
  (forall a s' h t pr' qs', at_proc (put h t s') c [] b p pr' qs' -> data pr' = data pr -> woken (pt_data t0) (pt_data t) -> Q a s' -> wp P (k a (put h t s')) R) ->
  wp P ((x <- m ;; k x) (put h0 t0 s)) R.
Proof.
  intros Hap Hst Hm Hk. destruct (Hm h0 t0 (at_proc_ctx _ _ _ _ _ _ _ Hap Hst)) as (a & s1 & h & t & E & [Hh Hc Hp _ [qs' Hq]] & Hw & HQ).
  rewrite (bind_done _ _ _ _ _ E). apply pt_data_lookup_inv in Hp as (pr' & Hp' & Ed). apply (Hk a s1 h t pr' qs'); [by split|done|done|done].
Qed.
Lemma switches_runs {A B} G R (m : K B) (k : B -> K A) h0 t0 s Q F c b p pr qs :
  at_proc (put h0 t0 s) c [] b p pr qs -> state pr = RUNNING -> runs c b p (data pr) [] [] m s Q ->
  (forall a s' h t pr' qs', at_proc (put h t s') c [] b p pr' qs' -> data pr' = data pr -> woken (pt_data t0) (pt_data t) -> Q a s' ->
    switches G R (k a (put h t s')) F) ->
  switches G R ((x <- m ;; k x) (put h0 t0 s)) F.
Proof.
  intros Hap Hst Hm Hk. apply switches_before, wp_tail. eapply wp_runs; [exact Hap|done|exact Hm|].
  intros a s' h t pr' qs' ????. apply wp_ret. by eapply Hk.
Qed.

(** The entry of [p] set to [d], and others woken. *)
Lemma woken_set p d ps ps' : woken ps ps' -> woken (<[p := d]> ps) (<[p := d]> ps').
Proof. intros Hw. apply Forall2_insert; [done|by left]. Qed.
Lemma woken_lookup ps ps' k d : woken ps ps' -> ps !! k = Some d ->
  exists d', ps' !! k = Some d' /\ (d' = d \/ state d = SLEEPING /\ d' = set_state RUNNABLE d).
Proof. intros Hw Hd. destruct (Forall2_lookup_l _ _ _ _ _ Hw Hd) as (d' & ? & ?). by exists d'. Qed.

Lemma woken_step p d1 d2 ps ps1 ps2 :
  woken (<[p := d1]> ps) ps1 -> woken (<[p := d2]> ps1) ps2 -> woken (<[p := d2]> ps) ps2.
Proof. intros H1 H2. etrans; [|exact H2]. rewrite <- (list_insert_insert_eq ps p d2 d1). by apply woken_set. Qed.

(** The process after a routine that kept its data. *)
Lemma kept_state pr pr' st : data pr' = data pr -> state pr = st -> state pr' = st.
Proof. intros E <-. exact (f_equal state E). Qed.

(** ** Giving up the files and the directory *)

(** The references of the descriptors [l] are dropped; each file has others. *)
Definition drop_ref (f : nat) (s : kernel) : kernel :=
  match k_ftable s !! f with Some x => put_file f (set_f_ref (f_ref x - 1) x) s | None => s end.
Fixpoint drop_refs (l : list (option nat)) (s : kernel) : kernel :=
  match l with
  | [] => s
  | o :: l' => drop_refs l' (match o with Some f => drop_ref f s | None => s end)
  end.
Fixpoint shared (l : list (option nat)) (s : kernel) : Prop :=
  match l with
  | [] => True
  | None :: l' => shared l' s
  | Some f :: l' => match k_ftable s !! f with Some x => 1 < f_ref x | None => False end /\ shared l' (drop_ref f s)
  end.

(** The current directory is given up; the inode stays for others. *)
Definition put_inode (ci : nat) (x : inode) (s : kernel) : kernel :=
  set_k_icache (<[ci := set_i_ref (i_ref x - 1) x]> (k_icache s)) (sl_released (SL_inode ci) s).

Lemma drop_ref_put h t f s : drop_ref f (put h t s) = put h t (drop_ref f s).
Proof. unfold drop_ref. cbn. by destruct (k_ftable s !! f). Qed.

Lemma drop_refs_put h t l : forall s, drop_refs l (put h t s) = put h t (drop_refs l s).
Proof. induction l as [|[f|] l IH]; intros s; cbn; rewrite ?drop_ref_put; [done|apply IH..]. Qed.

Lemma shared_put h t l : forall s, shared l (put h t s) <-> shared l s.
Proof. induction l as [|[f|] l IH]; intros s; cbn; rewrite ?drop_ref_put; [done|by rewrite IH|by rewrite IH]. Qed.

Lemma drop_refs_fields l : forall s, exists ft, drop_refs l s = set_k_ftable ft s.
Proof.
  induction l as [|[f|] l IH]; intros s; cbn.
  - exists (k_ftable s). by destruct s.
  - destruct (IH (drop_ref f s)) as [ft ->]. exists ft. unfold drop_ref. by destruct (k_ftable s !! f).
  - apply IH.
Qed.

Section leaving.
Context `{Linkage} `{Fuel} `{Disk} `{Serial} `{DevSw}.
Implicit Types (s : kernel) (p : nat) (pr : proc) (qs : aqueues).

Lemma close_files_wp P n : forall i s c b p pr qs,
  at_proc s c [] b p pr qs -> state pr = RUNNING -> length (ofile pr) = (i + n)%nat -> shared (drop i (ofile pr)) s ->
  wp P (close_files n p i s) (fun _ s' => exists h t pr' qs', s' = put h t (drop_refs (drop i (ofile pr)) s) /\
    at_proc s' c [] b p pr' qs' /\ data pr' = data (set_ofile (take i (ofile pr) ++ replicate n None) pr) /\
    woken (<[p := data pr']> (pt_data (k_pt s))) (pt_data t)).
Proof.
  induction n as [|n IH]; intros i s c b p pr qs Hap Hst Hl Hsh; cbn [close_files].
  { apply wp_ret. exists (k_hw s), (k_pt s), pr, qs. rewrite drop_ge, take_ge, app_nil_r by lia. cbn. rewrite put_id.
    split_and!; [done|done|by destruct pr|]. by rewrite list_insert_id by (apply pt_data_lookup, Hap). }
  destruct (lookup_lt_is_Some_2 (ofile pr) i) as [o Ho]; [lia|]. rewrite (drop_S _ _ _ Ho) in Hsh |- *.
  apply wp_proc_get with pr; [apply Hap|]. apply wp_of_option with o; [done|].
  assert (forall h t pr' qs' s1, at_proc (put h t s1) c [] b p pr' qs' -> data pr' = data (set_ofile (<[i := None]> (ofile pr)) pr) ->
    shared (drop (S i) (ofile pr)) s1 -> woken (<[p := data pr']> (pt_data (k_pt s))) (pt_data t) ->
    wp P (close_files n p (S i) (put h t s1)) (fun _ s' => exists h t pr' qs', s' = put h t (drop_refs (drop (S i) (ofile pr)) s1) /\
      at_proc s' c [] b p pr' qs' /\ data pr' = data (set_ofile (take i (ofile pr) ++ replicate (S n) None) pr) /\
      woken (<[p := data pr']> (pt_data (k_pt s))) (pt_data t))) as Hrest.
  { intros h t pr' qs' s1 Hap1 Hd1 Hsh1 Hw1.
    assert (ofile pr' = <[i := None]> (ofile pr)) as Eo by exact (f_equal ofile Hd1).
    assert (drop (S i) (ofile pr') = drop (S i) (ofile pr)) as Ed by (by rewrite Eo, drop_insert_lt by lia).
    eapply wp_mono; [apply (IH (S i) _ _ _ _ _ _ Hap1)|].
    - by rewrite <- Hst, (f_equal state Hd1 : state pr' = state pr).
    - rewrite Eo, length_insert. lia.
    - by rewrite Ed, shared_put.
    - intros [] s' (h' & t' & pr2 & qs2 & -> & Hap2 & Hd2 & Hw2). rewrite Ed, drop_refs_put in Hap2. rewrite Ed, drop_refs_put.
      exists h', t', pr2, qs2. split_and!; [done|done| |by eapply woken_step]. rewrite Hd2, Eo.
      assert (take (S i) (<[i := None]> (ofile pr)) = take i (ofile pr) ++ [None]) as ->.
      { rewrite (take_S_r _ _ None) by (apply list_lookup_insert_eq; lia). by rewrite take_insert_ge. }
      rewrite <- app_assoc. change ([None] ++ replicate n None) with (replicate (S n) (@None nat)).
      transitivity (set_ofile (take i (ofile pr) ++ replicate (S n) None) (data pr')); [by destruct pr'|].
      rewrite Hd1. by destruct pr. }
  destruct o as [f|]; cbn [shared drop_refs] in *.
  - destruct Hsh as [Hf Hsh]. unfold drop_ref in Hsh |- *. destruct (k_ftable s !! f) as [x|] eqn:Ef; [|done].
    wp_run. rewrite <- (put_id s) in Hap |- * at 1. eapply wp_runs; [exact Hap|done|apply (fileclose_runs _ _ _ _ s f x); [not_in|done|lia]|].
    intros [] s1 h t pr1 qs1 Hap1 Hd1 Hw1 ->.
    assert (state pr1 = RUNNING) as Hst1 by (by rewrite (f_equal state Hd1 : state pr1 = state pr)).
    eapply wp_ap_set; [exact Hap1|by rewrite Hst1|cbn; by rewrite Hst1|exact (ap_prio _ _ _ _ _ _ _ Hap1)|done|].
    intros t2 Hap2 Ht2. apply (Hrest h t2 _ _ (put_file f (set_f_ref (f_ref x - 1) x) s) Hap2); [|done|].
    2:{ unfold pt_data at 2. rewrite Ht2, list_fmap_insert. by apply woken_set. }
    transitivity (set_ofile (<[i := None]> (ofile (data pr1))) (data pr1)); [by destruct pr1|]. rewrite Hd1. by destruct pr.
  - wp_run. replace (close_files n p (S i) s) with (close_files n p (S i) (put (k_hw s) (k_pt s) s)) by (by rewrite put_id).
    apply (Hrest _ _ pr qs); [by rewrite put_id| |done|by rewrite list_insert_id by (apply pt_data_lookup, Hap)]. rewrite list_insert_id by done. by destruct pr.
Qed.

Section directory.
Context (c : nat) (b : bool) (p : nat) (d : proc).

(** An inode that others refer to, or that has links. *)
Definition keeps (x : inode) : Prop := i_valid x = true -> nlink x = 0 -> i_ref x <> 1.

Lemma sl_released_taken l s : sl_released l (sl_taken d l s) = sl_released l s.
Proof. unfold sl_released, sl_taken, the_sleeplock. cbn. by rewrite lookup_total_insert_eq, insert_insert_eq. Qed.

Lemma iput_runs s ci x :
  k_icache s !! ci = Some x -> sl_locked (the_sleeplock (SL_inode ci) s) = false -> keeps x -> - 2 ^ 31 < i_ref x < 2 ^ 31 ->
  runs c b p d [] [] (iput ci) s (fun _ s' => s' = put_inode ci x s).
Proof.
  intros Hx Hl Hk Hr. unfold iput. apply runs_acquiresleep; [done|not_in|]. eapply runs_ip_get; [exact Hx|].
  assert (runs c b p d [] [] (releasesleep (SL_inode ci) ;; acquire L_icache ;; ip_set ci (fun x => set_i_ref (i32 (i_ref x - 1)) x) ;; release L_icache)
    (sl_taken d (SL_inode ci) s) (fun _ s' => s' = put_inode ci x s)) as Hend.
  { apply runs_releasesleep; [not_in|not_in|]. rewrite sl_released_taken. apply runs_acquire; [not_in|].
    eapply runs_ip_set; [exact Hx|]. eapply runs_tail, runs_release; [done|]. apply runs_ret.
    unfold put_inode. cbn. by rewrite i32_small by lia. }
  destruct (i_valid x) eqn:Ev; cbn [andb]; [|by apply runs_when_false].
  destruct (Z.eqb_spec (nlink x) 0) as [En|En]; [|by apply runs_when_false].
  apply runs_when_true. runs_step. apply runs_acquire; [not_in|]. runs_step. eapply runs_ip_get; [exact Hx|]. runs_step. eapply runs_release; [done|].
  destruct (Z.eqb_spec (i_ref x) 1) as [E1|E1]; [by destruct (Hk Ev En)|by apply runs_when_false].
Qed.

(** A transaction in which nothing was written. *)
Lemma end_op_empty_runs s :
  outstanding (k_log s) = 1 -> committing (k_log s) = false -> lh_n (k_log s) = 0 ->
  runs c b p d [] [] end_op s (fun _ s' => s' = set_k_log (set_outstanding 0 (k_log s)) s).
Proof.
  intros Ho Hc Hn. unfold end_op, log_set, log_get. apply runs_acquire; [not_in|]. runs_step. log_fields.
  rewrite Hc. runs_step. log_fields. rewrite Ho. change (1 - 1 =? 0) with true. cbv iota zeta. runs_step.
  eapply runs_release; [done|]. unfold commit, log_get. cbn [whenm]. runs_step. log_fields. rewrite Hn. change (0 <? 0) with false. runs_step.
  apply runs_acquire; [not_in|]. unfold log_set. runs_step. apply runs_wakeup; [not_in|]. eapply runs_tail, runs_release; [done|]. apply runs_ret.
  destruct s as [? ? ? ? ? ? ? ? ? ? ? ? ? ? ? ? ? lg ? ? ?]. cbn in *. destruct lg. cbn in *. by subst.
Qed.

End directory.

(** ** [exit] *)

(** The process without files and directory. *)
Definition emptied pr : proc := set_cwd None (set_ofile (replicate NOFILE None) pr).

(** What [exit] of process [p] has done when it switches: the state [s1] is
    [s] without the references of [p].  The table is that of [s] with [p]
    emptied, sleepers on the log or on the lock of the directory perhaps woken ([ps]), the
    sleepers on the parent woken, the children handed over, and [p] a zombie.
    So every child has [initproc] as its parent, the other processes have the
    parent they had, and if a child is a zombie nobody sleeps on [initproc]. *)
Record exited (s : kernel) (p : nat) (pr : proc) (ci : nat) (x : inode) (s1 : kernel) : Prop := {
  ex_data : exists h t, s1 = put h t (put_inode ci x (drop_refs (ofile pr) s));
  ex_table : exists ps, woken (<[p := data (emptied pr)]> (pt_data (k_pt s))) ps /\
    pt_data (k_pt s1) = alter (set_state ZOMBIE) p
      (hand_over p (k_initproc s) (wake (C_proc <$> parent pr) <$> ps));
  ex_zombie : exists d, pt_data (k_pt s1) !! p = Some d /\ state d = ZOMBIE /\ pid d = pid pr /\ cwd d = None /\ ofile d = replicate NOFILE None;
  ex_orphans : forall k d, pt_data (k_pt s) !! k = Some d -> k <> p -> exists d', pt_data (k_pt s1) !! k = Some d' /\
    parent d' = if decide (parent d = Some p) then k_initproc s else parent d;
  ex_parent : forall k d, pt_data (k_pt s1) !! k = Some d -> state d = SLEEPING -> p_chan d <> C_proc <$> parent pr;
  ex_init : (exists k d, pt_data (k_pt s) !! k = Some d /\ parent d = Some p /\ state d = ZOMBIE) ->
    forall k d, pt_data (k_pt s1) !! k = Some d -> state d = SLEEPING -> p_chan d <> C_proc <$> k_initproc s }.

Lemma wake_awake ch d : state (wake ch d) = SLEEPING -> state d = SLEEPING /\ p_chan d <> ch.
Proof. unfold wake. case_decide as Hd; [done|]. intros Hs. split; [done|]. intros E. by apply Hd. Qed.
Lemma wake_chan ch d : p_chan (wake ch d) = p_chan d.
Proof. unfold wake. by case_decide. Qed.
Lemma adopt_kept q ini d : state (adopt q ini d) = state d /\ p_chan (adopt q ini d) = p_chan d.
Proof. unfold adopt. by case_decide. Qed.

Lemma exited_intro s p pr ci x h t ps :
  k_initproc s <> Some p -> woken (<[p := data (emptied pr)]> (pt_data (k_pt s))) ps -> pt_data (k_pt s) !! p = Some (data pr) -> state pr = RUNNING ->
  pt_data t = alter (set_state ZOMBIE) p (hand_over p (k_initproc s) (wake (C_proc <$> parent pr) <$> ps)) ->
  exited s p pr ci x (put h t (put_inode ci x (drop_refs (ofile pr) s))).
Proof.
  intros Hini Hw Hp Hst Ht. set (qs := wake _ <$> ps) in Ht. set (wk := if existsb (zombie_child p) qs then wake (C_proc <$> k_initproc s) else id).
  assert (forall k d', pt_data t !! k = Some d' -> exists e, ps !! k = Some e /\
    let f := wk (adopt p (k_initproc s) (wake (C_proc <$> parent pr) e)) in d' = f \/ d' = set_state ZOMBIE f) as Hlk.
  { intros k d'. rewrite Ht. unfold hand_over. fold wk. destruct (decide (k = p)) as [->|Hk].
    - rewrite list_lookup_alter_eq. unfold qs. rewrite !list_lookup_fmap. destruct (ps !! p) as [e|]; [|done]. intros [= <-]. exists e. by split; [|right].
    - rewrite list_lookup_alter_ne by done. unfold qs. rewrite !list_lookup_fmap. destruct (ps !! k) as [e|]; [|done]. intros [= <-]. exists e. by split; [|left]. }
  assert (forall y, parent (wk y) = parent y /\ (state (wk y) = SLEEPING -> state y = SLEEPING) /\ p_chan (wk y) = p_chan y) as Hwk.
  { intros y. unfold wk. destruct (existsb _ _); [|done]. rewrite wake_parent, wake_chan. split; [done|]. split; [|done]. by intros [? _]%wake_awake. }
  assert (forall k d', pt_data t !! k = Some d' -> state d' = SLEEPING -> exists e, ps !! k = Some e /\ p_chan d' = p_chan e /\
    d' = wk (adopt p (k_initproc s) (wake (C_proc <$> parent pr) e)) /\ state (wake (C_proc <$> parent pr) e) = SLEEPING) as Hsl.
  { intros k d' (e & He & [->| ->])%Hlk Hs; [|done]. exists e. split; [done|].
    destruct (Hwk (adopt p (k_initproc s) (wake (C_proc <$> parent pr) e))) as (_ & A1 & A2).
    destruct (adopt_kept p (k_initproc s) (wake (C_proc <$> parent pr) e)) as [A3 A4]. rewrite A2, A4, wake_chan. rewrite <- A3. by split_and!; [..|apply A1]. }
  assert (ps !! p = Some (data (emptied pr))) as H0p.
  { destruct (woken_lookup _ _ p (data (emptied pr)) Hw) as (d' & Hd' & Hor).
    { apply list_lookup_insert_eq. by eapply lookup_lt_Some. }
    destruct Hor as [->|[Hs _]]; [done|]. cbn in Hs. congruence. }
  split; cbn [k_pt put set_k_hw set_k_pt].
  - by exists h, t.
  - by exists ps.
  - rewrite Ht, list_lookup_alter_eq. unfold hand_over, qs. rewrite !list_lookup_fmap, H0p. eexists. split; [done|]. fold qs wk. cbn.
    rewrite (wake_running _ (data (emptied pr)) Hst). unfold wk, adopt. by destruct (existsb _ _), (decide _); unfold wake; repeat case_decide.
  - intros k d Hd Hk. destruct (woken_lookup _ _ k d Hw) as (e & He & Hor); [by rewrite list_lookup_insert_ne|].
    rewrite Ht, list_lookup_alter_ne by done. unfold hand_over, qs. rewrite !list_lookup_fmap, He. eexists. split; [done|]. fold qs wk. cbn.
    rewrite (proj1 (Hwk _)). assert (parent e = parent d) as Epar by (by destruct Hor as [->|[_ ->]]).
    unfold adopt. rewrite wake_parent, Epar. case_decide; [done|]. by rewrite wake_parent.
  - intros k d' Hd' Hs. destruct (Hsl k d' Hd' Hs) as (e & _ & -> & _ & Hs'). by apply wake_awake in Hs' as [_ ?].
  - intros (k0 & d0 & Hd0 & Hpar & Hz) k d' Hd' Hs. destruct (Hsl k d' Hd' Hs) as (e & _ & Ec & E & _).
    assert (wk = wake (C_proc <$> k_initproc s)) as Ewk.
    { unfold wk. replace (existsb (zombie_child p) qs) with true; [done|]. symmetry. apply existsb_exists.
      assert (k0 <> p) as Hk0 by (intros ->; cbn in *; simplify_eq; cbn in *; congruence).
      destruct (woken_lookup _ _ k0 d0 Hw) as (e0 & He0 & [->|[Hs0 _]]); [by rewrite list_lookup_insert_ne| |congruence].
      exists (wake (C_proc <$> parent pr) d0). split.
      - unfold qs. apply list_elem_of_In, list_elem_of_fmap. exists d0. split; [done|]. by eapply list_elem_of_lookup_2.
      - rewrite wake_zombie_child. unfold zombie_child. by rewrite !bool_decide_eq_true_2. }
    rewrite E, Ewk in Hs. apply wake_awake in Hs as [_ Hne]. by rewrite (proj2 (adopt_kept _ _ _)), wake_chan in Hne; rewrite Ec.
Qed.

(** The critical section of [exit]. *)
Lemma exit_section s c b p pr qs ci x h t pr1 :
  let s1 := put_inode ci x (drop_refs (ofile pr) s) in
  at_proc (put h t s1) c [] b p pr1 qs -> data pr1 = data (emptied pr) -> state pr = RUNNING ->
  k_initproc s <> Some p -> k_initproc s1 = k_initproc s -> pt_data (k_pt s) !! p = Some (data pr) ->
  woken (<[p := data (emptied pr)]> (pt_data (k_pt s))) (pt_data t) ->
  switches (exited s p pr ci x) (resumed p)
    ((acquire L_ptable ;; par <- proc_get p parent ;; pt_do (wakeup1 (C_proc <$> par)) ;; reparent NPROC p 0 ;;
      proc_set p (set_state ZOMBIE) ;; sched ;; panic "zombie exit") (put h t s1)) (fun _ (o : outcome kernel unit) => o = Stop (Panic "zombie exit")).
Proof.
  intros s1 Hap Hd Hst Hini Ei Hp0 Hwk. sw_step ltac:(eapply wp_ap_acquire; [exact Hap|not_in|]). clear Hap. intros h7 Hap. wp_run.
  change (set_k_hw h7 (put h t s1)) with (put h7 t s1) in *.
  sw_step ltac:(apply wp_proc_get with pr1; [apply Hap|]). wp_run. rewrite (f_equal parent Hd : parent pr1 = parent pr).
  destruct Hap as [Hhw Hcur Hpr Hq]. cbn [k_hw k_pt put set_k_hw set_k_pt] in Hhw, Hcur, Hpr, Hq.
  pose proof (pt_data_lookup _ _ _ Hpr) as Hp. rewrite Hd in Hp.
  destruct (wakeup1_ok (C_proc <$> parent pr) _ _ Hq) as (t7 & E7 & Hq7 & Ht7). sw_step ltac:(apply wp_pt_do with t7; [done|]). wp_run.
  apply switches_before. eapply wp_mono; [apply (reparent_ok p NPROC 0 (put h7 t7 s1) _ Hq7); done|].
  intros [] s7 (t8 & qs8 & -> & Hq8 & Ht8). cbn [k_pt put set_k_hw set_k_pt k_initproc] in Ht8. rewrite Ei in Ht8.
  assert (NPROC = length (pt_data t7)) as El by (by rewrite pt_data_length, (lo_procs _ _ (proj1 Hq7))).
  rewrite El, hand_over_all, Ht7 in Ht8.
  assert (exists d, pt_data t8 !! p = Some d /\ state d = RUNNING) as (d8 & Hd8 & Hs8).
  { rewrite Ht8. unfold hand_over. rewrite !list_lookup_fmap, Hp. cbn. eexists; split; [done|].
    rewrite (wake_running _ (data (emptied pr)) Hst). pose proof (adopt_running p (k_initproc s) _ (Hst : state (data (emptied pr)) = _)).
    destruct (existsb _ _); [by rewrite wake_running|done]. }
  apply pt_data_lookup_inv in Hd8 as (pr8 & Hpr8 & ->). change (state pr8 = RUNNING) in Hs8.
  assert (at_proc (put h7 t8 s1) c [L_ptable] b p pr8 qs8) as Hap by by split.
  sw_step ltac:(eapply wp_ap_set; [exact Hap|by rewrite Hs8|done|exact (ap_prio _ _ _ _ _ _ _ Hap)|done|]). clear Hap. intros t9 Hap Ht9. wp_run.
  apply switches_after. eapply switches_mono; [eapply ap_sched_switches; [exact Hap|done]| |done|].
  - intros s9 (h9 & -> & _). apply (exited_intro s p pr ci x h9 t9 (pt_data t) Hini Hwk Hp0 Hst). rewrite <- Ht8. unfold pt_data at 1. rewrite Ht9.
    apply list_eq. intros j. rewrite list_lookup_fmap. destruct (decide (j = p)) as [->|Hj].
    + rewrite list_lookup_alter_eq, list_lookup_insert_eq by (by eapply lookup_lt_Some). by rewrite (pt_data_lookup _ _ _ Hpr8).
    + rewrite list_lookup_alter_ne, list_lookup_insert_ne by done. unfold pt_data. by rewrite list_lookup_fmap.
  - intros s' o _ Ho. eapply wp_mono; [exact Ho|]. done.
Qed.

(** [exit] of a process other than [initproc] whose files are open elsewhere
    and whose directory is in use elsewhere, while no transaction is under way. *)
Lemma exit_switches s c b p pr qs ci x :
  at_proc s c [] b p pr qs -> state pr = RUNNING -> k_initproc s <> Some p ->
  length (ofile pr) = NOFILE -> shared (ofile pr) s ->
  cwd pr = Some ci -> k_icache s !! ci = Some x -> sl_locked (the_sleeplock (SL_inode ci) s) = false -> keeps x -> - 2 ^ 31 < i_ref x < 2 ^ 31 ->
  outstanding (k_log s) = 0 -> committing (k_log s) = false -> lh_n (k_log s) = 0 ->
  switches (exited s p pr ci x) (resumed p) (exit_ s) (fun _ (o : outcome kernel unit) => o = Stop (Panic "zombie exit")).
Proof.
  intros Hap Hst Hini Hlen Hsh Hcwd Hx Hl Hkeep Hr Ho Hc Hn. unfold exit_.
  pose proof (pt_data_lookup _ _ _ (ap_proc _ _ _ _ _ _ _ Hap)) as Hp0.
  sw_step ltac:(eapply wp_ap_curproc; [exact Hap|]). clear Hap. intros h1 Hap. wp_run. apply switches_before, wp_ret. cbn [k_initproc set_k_hw].
  rewrite bool_decide_eq_false_2 by done. replace (set_k_hw h1 s) with (put h1 (k_pt s) s) in * by (by destruct s).
  apply switches_before. eapply wp_mono; [apply (close_files_wp _ NOFILE 0 _ _ _ _ _ _ Hap Hst Hlen)|].
  { by rewrite drop_0, shared_put. }
  clear Hap. intros [] s' (h2 & t2 & pr2 & qs2 & -> & Hap & Hd2 & Hw2). cbn [k_pt put set_k_hw set_k_pt] in Hw2. rewrite drop_0, drop_refs_put in *.
  cbn [take app] in Hd2. set (s2 := drop_refs (ofile pr) s) in *. change (put h2 t2 (put h1 (k_pt s) s2)) with (put h2 t2 s2) in *.
  destruct (drop_refs_fields (ofile pr) s) as [ft Eft]. fold s2 in Eft.
  eapply switches_runs; [exact Hap|by eapply kept_state|apply begin_op_runs; by rewrite Eft|].
  clear Hap h2. intros [] s3 h3 t3 pr3 qs3 Hap Hd3 Hw3 ->. rewrite Hd2 in Hd3, Hw2. clear Hd2 pr2 qs2.
  sw_step ltac:(apply wp_proc_get with pr3; [apply Hap|]). wp_run. rewrite (f_equal cwd Hd3 : cwd pr3 = cwd pr), Hcwd. apply switches_before, wp_ret.
  eapply switches_runs; [exact Hap|by eapply kept_state|apply (iput_runs _ _ _ _ _ ci x); rewrite ?Eft; done|].
  clear Hap h3. intros [] s4 h4 t4 pr4 qs4 Hap Hd4 Hw4 ->. rewrite Hd3 in Hd4. clear Hd3 pr3 qs3.
  eapply switches_runs; [exact Hap|by eapply kept_state|apply end_op_empty_runs; cbn; rewrite ?Eft; done|].
  clear Hap h4. intros [] s5 h5 t5 pr5 qs5 Hap Hd5 Hw5 ->. rewrite Hd4 in Hd5. clear Hd4 pr4 qs4.
  assert (put_inode ci x s2 = set_k_log (set_outstanding 0 (k_log (put_inode ci x (set_k_log (set_outstanding 1 (k_log s2)) s2)))) (put_inode ci x (set_k_log (set_outstanding 1 (k_log s2)) s2))) as E5.
  { rewrite Eft. destruct s. cbn in *. destruct k_log. cbn in *. by subst. }
  rewrite <- E5 in Hap |- *. clear E5. set (s6 := put_inode ci x s2) in *.
  assert (state pr5 = RUNNING) as Hst5 by (by eapply kept_state). pose proof (ap_prio _ _ _ _ _ _ _ Hap) as Hb.
  sw_step ltac:(eapply wp_ap_set; [exact Hap|by rewrite Hst5|cbn; by rewrite Hst5|done|done|]). clear Hap. intros t6 Hap Ht6. wp_run.
  change (set_k_pt t6 (put h5 t5 s6)) with (put h5 t6 s6) in *.
  assert (data (set_cwd None pr5) = data (emptied pr)) as Hd6
    by (transitivity (set_cwd None (data pr5)); [by destruct pr5|rewrite Hd5; by destruct pr]).
  set (pr6 := set_cwd None pr5) in *. clear Hd5.
  eapply exit_section; [exact Hap|done|done|done| |done|].
  - change (k_initproc s2 = k_initproc s). by rewrite Eft.
  - rewrite <- Hd6. unfold pt_data at 2. rewrite Ht6, list_fmap_insert. eapply woken_step, woken_set; [exact Hw2|].
    etrans; [exact Hw3|]. etrans; [exact Hw4|exact Hw5].
Qed.

End leaving.

(** ** [wait] *)
Section waiting.
Context `{Linkage} `{Fuel} `{Disk} `{Serial} `{DevSw}.
Implicit Types (s : kernel) (p k : nat) (pr d : proc) (qs : aqueues) (l : list Z).

(** The slot after its process was freed. *)
Definition reaped d : proc :=
  set_state UNUSED (set_killed 0 (set_p_name (<[0%nat := 0]> (p_name d)) (set_parent None (set_pid 0 (set_kstack 0 d))))).

(** The first exited child of [p] in the table. *)
Definition first_exited p (ps : list proc) k d : Prop :=
  ps !! k = Some d /\ parent d = Some p /\ state d = ZOMBIE /\
  forall j e, (j < k)%nat -> ps !! j = Some e -> parent e = Some p -> state e <> ZOMBIE.

Lemma scan_kids_first p ps : forall i kids k d, first_exited p ps k d -> scan_kids p i ps kids = (Some (i + k)%nat, true).
Proof.
  induction ps as [|e ps IH]; intros i kids k d (Hk & Hp & Hz & Hbef); [done|]. cbn [scan_kids]. destruct k as [|k].
  - injection Hk as ->. rewrite !bool_decide_eq_true_2 by done. cbn. by rewrite Nat.add_0_r.
  - assert (first_exited p ps k d) as Hf by (split_and!; [done..|]; intros j e' Hj He; by apply (Hbef (S j)); [lia|]).
    rewrite (IH (S i) kids k d Hf), (IH (S i) true k d Hf). replace (i + S k)%nat with (S i + k)%nat by lia.
    case_bool_decide as Hp0; [|done]. cbn. rewrite bool_decide_eq_false_2; [done|]. by apply (Hbef 0%nat); [lia|..].
Qed.

Definition has_child p (ps : list proc) : bool := existsb (fun e => bool_decide (parent e = Some p)) ps.

Lemma scan_kids_none p ps : (forall j e, ps !! j = Some e -> parent e = Some p -> state e <> ZOMBIE) ->
  forall i kids, scan_kids p i ps kids = (None, kids || has_child p ps).
Proof.
  induction ps as [|e ps IH]; intros Hn i kids; cbn [scan_kids has_child existsb]; [by rewrite orb_false_r|].
  assert (forall j e', ps !! j = Some e' -> parent e' = Some p -> state e' <> ZOMBIE) as Hn' by (intros j e' He; by apply (Hn (S j))).
  case_bool_decide as Hp; cbn [negb orb].
  - rewrite bool_decide_eq_false_2 by (by apply (Hn 0%nat)). rewrite IH by done. by rewrite orb_true_r.
  - by apply IH.
Qed.

(** The scan does not see the queue links. *)
Lemma scan_kids_data p t : forall i kids, scan_kids p i (pt_data t) kids = scan_kids p i (pt_proc t) kids.
Proof. unfold pt_data. induction (pt_proc t) as [|e ps IH]; intros i kids; cbn; [done|]. by rewrite !IH. Qed.

(** Freeing the child [k], with [ptable.lock] held. *)
Lemma reap_wp P s c b p pr qs k d l :
  at_proc s c [L_ptable] b p pr qs -> k <> p -> pt_data (k_pt s) !! k = Some d -> state d = ZOMBIE ->
  free_pages s l -> page_ok (kstack d) -> kstack d ∉ l -> space_ok (k_mem s) (pgdir d) (kstack d :: l) ->
  wp P (reap k s) (fun r s' => r = pid d /\ exists h t m f, s' = put h t (set_k_freelist f (set_k_mem m s)) /\
    at_proc s' c [] b p pr qs /\ pt_data t = <[k := reaped d]> (pt_data (k_pt s)) /\
    free_pages s' (space_pages (pgdir d) (k_mem s) ++ kstack d :: l)).
Proof.
  intros Hap Hkp Hd Hz Hf Hks Hksl Hsp. apply pt_data_lookup_inv in Hd as (pk & Hpk & ->). unfold reap.
  pose proof (ap_hw _ _ _ _ _ _ _ Hap) as Hhw. pose proof (ap_queues _ _ _ _ _ _ _ Hap) as Hq.
  pose proof (prio_bound _ _ _ (proj2 (proj2 Hq)) Hpk) as Hb.
  apply wp_proc_get with pk; [done|]. apply wp_proc_get with pk; [done|].
  destruct (kfree_ok s (kstack pk) l c [L_ptable] b Hhw ltac:(not_in) Hf Hks Hksl) as (h1 & E1 & Hh1 & Hid1).
  apply wp_bind. rewrite E1. cbn [wp]. set (m1 := freed_mem (kstack pk) (k_freelist s) (k_mem s)).
  destruct (freed_same (k_mem s) (pgdir pk) (kstack pk) l (k_freelist s) (so_tables _ _ _ Hsp) Hks) as [Hpde Hpte]. fold m1 in Hpde, Hpte.
  pose proof (same_space_ok _ m1 _ _ Hsp Hpde Hpte) as Hsp1.
  eapply wp_idle_set; [exact Hq|exact Hpk|cbn in Hz |- *; by rewrite Hz..|exact Hb|done|]. intros t1 Hq1 Hp1 Ht1.
  apply wp_proc_get with (set_kstack 0 pk); [exact Hp1|]. cbn [pgdir set_kstack].
  set (s1 := set_k_pt t1 _). assert (free_pages s1 (kstack pk :: l)) as Hf1 by (by apply (freed_list s)).
  destruct (freevm_ok (pgdir pk) c [L_ptable] b s1 (kstack pk :: l) Hh1 ltac:(not_in) Hf1 Hsp1) as (m2 & f2 & h2 & E2 & Hh2 & Hid2 & Hf2 & _).
  change (k_mem s1) with m1 in Hf2. rewrite (space_pages_same _ (k_mem s) m1 Hpde Hpte) in Hf2.
  apply wp_bind. rewrite E2. cbn [wp]. clear E1 E2.
  eapply wp_idle_set; [exact Hq1|exact Hp1|cbn in Hz |- *; by rewrite Hz..|exact Hb|done|]. intros t2 Hq2 Hp2 Ht2.
  eapply wp_idle_set; [exact Hq2|exact Hp2|cbn in Hz |- *; by rewrite Hz..|exact Hb|done|]. intros t3 Hq3 Hp3 Ht3.
  eapply wp_idle_set; [exact Hq3|exact Hp3|cbn in Hz |- *; by rewrite Hz..|exact Hb|done|]. intros t4 Hq4 Hp4 Ht4.
  eapply wp_idle_set; [exact Hq4|exact Hp4|cbn in Hz |- *; by rewrite Hz..|exact Hb|done|]. intros t5 Hq5 Hp5 Ht5.
  eapply wp_idle_set; [exact Hq5|exact Hp5|cbn in Hz |- *; rewrite ?Hz; done..|exact Hb|done|]. intros t6 Hq6 Hp6 Ht6.
  assert (pt_proc t6 = <[k := reaped pk]> (pt_proc (k_pt s))) as Et.
  { cbn in Ht1, Ht2, Ht3, Ht4, Ht5, Ht6. by rewrite Ht6, Ht5, Ht4, Ht3, Ht2, Ht1, !list_insert_insert_eq. }
  set (s6 := put h2 t6 (set_k_freelist f2 (set_k_mem m2 s))).
  assert (at_proc s6 c [L_ptable] b p pr qs) as Hap6.
  { split; [exact Hh2| | |exact Hq6].
    - cbn. rewrite (cur_hw_id _ _ Hid2). cbn. rewrite (cur_hw_id _ _ Hid1). apply Hap.
    - unfold get_proc. cbn. rewrite Et, list_lookup_insert_ne by done. apply Hap. }
  eapply (wp_ap_release _ _ _ s6); [exact Hap6|done|]. intros h7 Hap7. apply wp_ret. split; [done|].
  exists h7, t6, m2, f2. split_and!; [done|exact Hap7| |exact Hf2]. unfold pt_data. by rewrite Et, list_fmap_insert.
Qed.

(** [wait] of a process with an exited child returns the child's pid without
    waiting, with its slot free and its memory back at the allocator. *)
Lemma wait_wp P s c b p pr qs k d l :
  at_proc s c [] b p pr qs -> state pr = RUNNING -> first_exited p (pt_data (k_pt s)) k d ->
  free_pages s l -> page_ok (kstack d) -> kstack d ∉ l -> space_ok (k_mem s) (pgdir d) (kstack d :: l) ->
  wp P (wait s) (fun r s' => r = pid d /\ exists h t m f, s' = put h t (set_k_freelist f (set_k_mem m s)) /\
    at_proc s' c [] b p pr qs /\ pt_data t = <[k := reaped d]> (pt_data (k_pt s)) /\
    free_pages s' (space_pages (pgdir d) (k_mem s) ++ kstack d :: l)).
Proof.
  intros Hap Hst Hk Hf Hks Hksl Hsp. unfold wait. eapply wp_ap_curproc; [exact Hap|]. clear Hap. intros h1 Hap.
  eapply wp_ap_acquire; [exact Hap|not_in|]. clear Hap. intros h2 Hap. set (s2 := set_k_hw h2 _) in *.
  assert (k <> p) as Hkp.
  { intros ->. pose proof (pt_data_lookup _ _ _ (ap_proc _ _ _ _ _ _ _ Hap)) as Hp. destruct Hk as (Hk & _ & Hz & _).
    change (pt_data (k_pt s) !! p = Some (data pr)) in Hp. rewrite Hk in Hp. injection Hp as ->. cbn in Hz. congruence. }
  assert (scan_kids p 0 (pt_proc (k_pt s2)) false = (Some k, true)) as Es by (rewrite <- scan_kids_data; exact (scan_kids_first p _ 0 false k d Hk)).
  assert (wait_loop fuel p s2 = reap k s2) as -> by (destruct fuel; cbn [wait_loop]; unfold bind, gets; cbn [obind]; by rewrite Es).
  eapply wp_mono; [apply (reap_wp P s2 c b p pr qs k d l Hap Hkp); [apply Hk|apply Hk|done..]|].
  intros r s' (-> & h & t & m & f & -> & Hrest). split; [done|]. by exists h, t, m, f.
Qed.

(** [wait] of a process without children, or of a killed one whose children
    all run, fails. *)
Lemma wait_fails_wp P s c b p pr qs :
  at_proc s c [] b p pr qs ->
  (forall j e, pt_data (k_pt s) !! j = Some e -> parent e = Some p -> state e <> ZOMBIE) ->
  has_child p (pt_data (k_pt s)) = false \/ killed pr <> 0 ->
  wp P (wait s) (fun r s' => r = -1 /\ exists h, s' = set_k_hw h s /\ at_proc s' c [] b p pr qs).
Proof.
  intros Hap Hz Hk. unfold wait. eapply wp_ap_curproc; [exact Hap|]. clear Hap. intros h1 Hap.
  eapply wp_ap_acquire; [exact Hap|not_in|]. clear Hap. intros h2 Hap. set (s2 := set_k_hw h2 _) in *.
  assert (scan_kids p 0 (pt_proc (k_pt s2)) false = (None, has_child p (pt_data (k_pt s)))) as Es by (rewrite <- scan_kids_data; by apply scan_kids_none).
  assert (forall n, wp P (wait_loop n p s2) (fun r s' => r = -1 /\ exists h, s' = set_k_hw h s /\ at_proc s' c [] b p pr qs)) as Hl; [|apply Hl].
  intros n. assert (wait_loop n p s2 = (x <- proc_get p killed ;;
    if negb (has_child p (pt_data (k_pt s))) || negb (x =? 0) then release L_ptable ;; ret (-1) else
    match n with O => stopm NoFuel | S n' => sleep (Some (C_proc p)) (Some L_ptable) ;; wait_loop n' p end) s2) as ->
    by (destruct n; cbn [wait_loop]; unfold bind at 1, gets; cbn [obind]; by rewrite Es).
  apply wp_proc_get with pr; [apply Hap|].
  assert (negb (has_child p (pt_data (k_pt s))) || negb (killed pr =? 0) = true) as ->.
  { destruct Hk as [->|Hk]; [done|]. rewrite (proj2 (Z.eqb_neq _ _) Hk). by rewrite orb_true_r. }
  eapply wp_ap_release; [exact Hap|done|]. intros h3 Hap3. apply wp_ret. split; [done|]. by exists h3.
Qed.


End waiting.

(** ** The main properties *)
Section properties.
Context `{Linkage} `{Fuel} `{Disk} `{Serial} `{DevSw}.
Implicit Types (s : kernel) (p k : nat) (pr d : proc) (qs : aqueues) (l : list Z).

(** C10: [exit] of a process other than [initproc] gives the CPU away exactly
    once, and never returns: should it ever be resumed, it panics.  At the
    switch the process is a zombie without files or directory, the files
    and the directory have one reference less for each it had, nobody sleeps on
    its parent, its children have [initproc] as their parent, nobody sleeps on [initproc] if
    one of them is a zombie, and the other processes are as they were, except
    for sleepers that were woken.  This is for a process whose files are open
    elsewhere too, whose directory stays in use or has links and is not locked, and
    while no transaction is under way, so that nothing else has to be waited
    for. *)
Theorem exit_leaves_zombie s c b p pr qs ci x :
  at_proc s c [] b p pr qs -> state pr = RUNNING -> k_initproc s <> Some p ->
  length (ofile pr) = NOFILE -> shared (ofile pr) s ->
  cwd pr = Some ci -> k_icache s !! ci = Some x -> sl_locked (the_sleeplock (SL_inode ci) s) = false -> keeps x -> - 2 ^ 31 < i_ref x < 2 ^ 31 ->
  outstanding (k_log s) = 0 -> committing (k_log s) = false -> lh_n (k_log s) = 0 ->
  switches (exited s p pr ci x) (resumed p) (exit_ s) (fun _ (o : outcome kernel unit) => o = Stop (Panic "zombie exit")).
Proof. apply exit_switches. Qed.

(** C11: [wait] of a process with an exited child returns the pid of the first one
    without waiting: its slot is free, its kernel stack, page tables and
    memory are back on the free list, once each, and nothing else changes.
    With no child, or killed and with no exited child, it returns -1 and
    changes nothing. *)
Theorem wait_collects P s c b p pr qs :
  at_proc s c [] b p pr qs -> state pr = RUNNING ->
  (forall k d l, first_exited p (pt_data (k_pt s)) k d ->
    free_pages s l -> page_ok (kstack d) -> kstack d ∉ l -> space_ok (k_mem s) (pgdir d) (kstack d :: l) ->
    wp P (wait s) (fun r s' => r = pid d /\ exists h t m f, s' = put h t (set_k_freelist f (set_k_mem m s)) /\
      at_proc s' c [] b p pr qs /\ pt_data t = <[k := reaped d]> (pt_data (k_pt s)) /\
      free_pages s' (space_pages (pgdir d) (k_mem s) ++ kstack d :: l))) /\
  ((forall j e, pt_data (k_pt s) !! j = Some e -> parent e = Some p -> state e <> ZOMBIE) ->
    has_child p (pt_data (k_pt s)) = false \/ killed pr <> 0 ->
    wp P (wait s) (fun r s' => r = -1 /\ exists h, s' = set_k_hw h s /\ at_proc s' c [] b p pr qs)).
Proof.
  intros Hap Hst. split.
  - intros k d l Hk Hf Hks Hksl Hsp. exact (wait_wp P s c b p pr qs k d l Hap Hst Hk Hf Hks Hksl Hsp).
  - intros Hz Hk. exact (wait_fails_wp P s c b p pr qs Hap Hz Hk).
Qed.

End properties.

(** Process 0 runs with two descriptors of one file; its parent, process 3, and
    [initproc], process 1, wait; its child, process 2, has exited. *)
Definition demo_parent : proc :=
  set_parent (Some 3%nat) (set_cwd (Some 0%nat) (set_ofile ([Some 0%nat; Some 0%nat] ++ replicate 14 None) (demo_proc RUNNING 1 0 None None))).
Definition demo_child : proc :=
  set_parent (Some 0%nat) (set_kstack 0x80305000 (set_pgdir 0x80302000 (demo_proc ZOMBIE 3 0 None None))).
Definition demo_inode_shared : inode := mkInode ROOTDEV 1 3 true T_DIR 0 0 1 512 (40 :: replicate 12 0).
Definition demo_family : kernel :=
  set_k_icache [demo_inode_shared] (set_k_ftable [mkFile FD_INODE 5 1 1 0 (Some 0%nat) 0] (set_k_initproc (Some 1%nat)
    (set_k_pt (mkPtable ([demo_parent; demo_proc SLEEPING 2 0 (Some (C_proc 1)) None; demo_child;
      demo_proc SLEEPING 4 0 (Some (C_proc 3)) None] ++ replicate 60 proc_zero) [None; None; None] [None; None; None]) demo_space))).

Lemma demo_family_at : at_proc demo_family 0 [] true 0 demo_parent (qs_of [[]; []; []]).
Proof.
  split; [apply (demo_hw_ok []), NoDup_nil_2|reflexivity|reflexivity|]. apply queues_check_ok. vm_compute. reflexivity.
Qed.

Lemma exit_leaves_zombie_witness :
  let _ : DevSw := {| devsw_read _ := None; devsw_write _ := None |} in
  let lnk := demo_linkage in let fuel0 : Fuel := 0%nat in let disk0 : Disk := memide_disk in let ser : Serial := true in
  switches (exited demo_family 0 demo_parent 0 demo_inode_shared) (resumed 0) (exit_ demo_family)
    (fun _ (o : outcome kernel unit) => o = Stop (Panic "zombie exit")).
Proof.
  intros dev lnk fuel0 disk0 ser. eapply exit_leaves_zombie.
  - exact demo_family_at.
  - reflexivity.
  - intros [=].
  - reflexivity.
  - vm_compute. tauto.
  - reflexivity.
  - reflexivity.
  - reflexivity.
  - intros _ [=].
  - cbn. lia.
  - reflexivity.
  - reflexivity.
  - reflexivity.
Defined.

Lemma wait_collects_witness :
  let _ : DevSw := {| devsw_read _ := None; devsw_write _ := None |} in
  let lnk := demo_linkage in let fuel0 : Fuel := 0%nat in let disk0 : Disk := memide_disk in let ser : Serial := true in
  wp atomic (wait demo_family) (fun r s' => r = 3 /\ pt_data (k_pt s') !! 2%nat = Some (reaped demo_child)).
Proof.
  intros dev lnk fuel0 disk0 ser.
  destruct (wait_collects atomic demo_family 0 true 0 demo_parent (qs_of [[]; []; []]) demo_family_at eq_refl) as [Hw _].
  eapply wp_mono; [apply (Hw 2%nat demo_child [0x80300000; 0x80301000])|].
  - split_and!; [reflexivity..|]. intros [|[|j]] e Hj He; [..|lia]; injection He as <-; cbn; intros [=].
  - split; [|apply (demo_free_pages [])]. vm_compute. repeat split; intros [=].
  - vm_compute. repeat split; intros [=].
  - rewrite !elem_of_cons, elem_of_nil. cbn. lia.
  - apply demo_space_ok. intros q. rewrite !elem_of_cons, elem_of_nil. cbn. lia.
  - intros r s' (-> & h & t & m & f & -> & _ & Ht & _). split; [reflexivity|]. cbn [k_pt put set_k_hw set_k_pt]. rewrite Ht. reflexivity.
Defined.
