(* ===== verification/Fork.v ===== *)
(** * Creating a process ([fork] of [kernel/proc.c])

    [fork] as a whole: the slot and the stack from [allocproc], the address
    space from [copyuvm], the trap frame, the open files and the directory, and
    the queue.  [forking] is the situation of a process that fills in the entry
    of its child. *)
From S2P Require Import Prelude Types Str Spinlock Queue Kalloc Sched Context Sleeplock Pipe Bio Log Console Vm Paging Reclaim Copy Fs File Proc Life.

(** ** What the child inherits *)
Section inherit.
Implicit Types (ft : list file) (l : list (option nat)).

(** One reference more for every descriptor of [l]. *)
Definition add_ref (f : nat) ft : list file := alter (fun x => set_f_ref (i32 (f_ref x + 1)) x) f ft.
Fixpoint add_refs l ft : list file :=
  match l with
  | [] => ft
  | o :: l' => add_refs l' (match o with Some f => add_ref f ft | None => ft end)
  end.
Fixpoint open_files l ft : Prop :=
  match l with
  | [] => True
  | None :: l' => open_files l' ft
  | Some f :: l' => (exists x, ft !! f = Some x /\ 1 <= f_ref x) /\ open_files l' (add_ref f ft)
  end.

(** The descriptors of the parent [l], over those of the slot [l']. *)
Fixpoint inherit l l' : list (option nat) :=
  match l, l' with
  | o :: k, o' :: k' => (match o with Some f => Some f | None => o' end) :: inherit k k'
  | _, _ => l'
  end.
End inherit.

Section fork.
Context `{Linkage} `{Fuel} `{Disk} `{Serial} `{DevSw}.
Context (c : nat) (b : bool) (p : nat) (pr : proc).
Implicit Types (s : kernel) (qs : aqueues) (pp : list proc) (np : nat) (prn : proc).

(** Process [p] fills in entry [np], which is [prn]; the other entries are
    those of [pp]. *)
Record forking s pp qs np prn : Prop := {
  fk_at : at_proc s c [] b p pr qs;
  fk_table : pt_proc (k_pt s) = <[np := prn]> pp;
  fk_slot : np <> p /\ (np < length pp)%nat;
  fk_state : state prn = EMBRYO;
  fk_prio : priority prn = 0 }.

Lemma fk_child s pp qs np prn : forking s pp qs np prn -> get_proc np (k_pt s) = Some prn.
Proof. intros [_ Ht [_ Hn] _ _]. unfold get_proc. rewrite Ht. by apply list_lookup_insert_eq. Qed.
Lemma fk_hw s pp qs np prn h : forking s pp qs np prn -> hw_ok h c [] b -> hw_id h = hw_id (k_hw s) -> forking (set_k_hw h s) pp qs np prn.
Proof. intros [Ha ? ? ? ?] Hh Hid. split; try done. by apply (at_proc_hw s c [] b p pr qs). Qed.
Lemma fk_same s s' pp qs np prn : k_hw s' = k_hw s -> k_pt s' = k_pt s -> forking s pp qs np prn -> forking s' pp qs np prn.
Proof. intros E1 E2 [[] Ht ? ? ?]. split; [split|..]; rewrite ?E1, ?E2; done. Qed.

Section rules.
Context {A : Type} (P : protocol kernel).
Implicit Types (Q : A -> kernel -> Prop).

Lemma wp_fk_set f (k : unit -> K A) s Q pp qs np prn : forking s pp qs np prn ->
  state (f prn) = EMBRYO -> priority (f prn) = 0 -> next_proc (f prn) = next_proc prn ->
  (forall t, forking (set_k_pt t s) pp qs np (f prn) -> wp P (k tt (set_k_pt t s)) Q) ->
  wp P ((x <- proc_set np f ;; k x) s) Q.
Proof.
  intros Hfk Hst Hpr Hnx Hk. pose proof (fk_child _ _ _ _ _ Hfk) as Hc. pose proof Hfk as [[Hh Hcur Hp Hq] Ht [Hne Hn] Hs0 Hp0].
  eapply wp_idle_set; [exact Hq|exact Hc|by rewrite Hs0|by rewrite Hst|rewrite Hpr; unfold NPRIO; lia|done|].
  intros t Hqt Hct Htt. apply Hk. split; [split; try done| |done|done|done].
  - unfold get_proc in *. cbn. rewrite Htt, list_lookup_insert_ne by done. done.
  - cbn. rewrite Htt, Ht. by rewrite list_insert_insert_eq.
Qed.
Lemma wp_fk_get {B} (f : proc -> B) (k : B -> K A) s Q pp qs np prn : forking s pp qs np prn ->
  wp P (k (f prn) s) Q -> wp P ((x <- proc_get np f ;; k x) s) Q.
Proof. intros Hfk Hk. apply wp_proc_get with prn; [by eapply fk_child|done]. Qed.
Lemma wp_fk_mine {B} (f : proc -> B) (k : B -> K A) s Q pp qs np prn : forking s pp qs np prn ->
  wp P (k (f pr) s) Q -> wp P ((x <- proc_get p f ;; k x) s) Q.
Proof. intros [[_ _ Hp _] _ _ _ _] Hk. by apply wp_proc_get with pr. Qed.

Lemma wp_fk_filedup f x (k : nat -> K A) s Q pp qs np prn : forking s pp qs np prn -> k_ftable s !! f = Some x -> 1 <= f_ref x ->
  (forall h, let s' := set_k_ftable (add_ref f (k_ftable s)) (set_k_hw h s) in forking s' pp qs np prn -> wp P (k f s') Q) ->
  wp P ((y <- filedup f ;; k y) s) Q.
Proof.
  intros Hfk Hf Hr Hk. unfold filedup. apply wp_assoc. eapply wp_acquire; [apply Hfk|apply not_elem_of_nil|]. intros h1 Hh1 Hid1.
  unfold file_get. wp_run. cbn [k_ftable set_k_hw]. apply wp_of_option with (f_ref x); [by rewrite Hf|].
  rewrite (proj2 (Z.ltb_ge (f_ref x) 1)) by lia. unfold file_set, file_get. wp_run. cbn [k_ftable set_k_hw]. apply wp_of_option with tt; [by rewrite Hf|].
  wp_run. eapply wp_release; [exact Hh1|done|]. intros h2 Hh2 Hid2. wp_run. cbn [k_ftable set_k_hw set_k_ftable] in *.
  specialize (Hk h2). cbv zeta in Hk.
  unfold add_ref in Hk. rewrite (alter_lookup_insert _ _ _ _ Hf). rewrite (alter_lookup_insert _ _ _ _ Hf) in Hk. apply Hk. apply (fk_same (set_k_hw h2 s)); [done|done|]. apply (fk_hw s pp qs np prn h2 Hfk Hh2). rewrite Hid2. exact Hid1.
Qed.
End rules.

(** The loop over the descriptors from [i] on. *)
Lemma dup_files_wp P n : forall i s pp qs np prn, forking s pp qs np prn -> length (ofile pr) = (i + n)%nat -> length (ofile prn) = (i + n)%nat ->
  open_files (drop i (ofile pr)) (k_ftable s) ->
  wp P (dup_files n p np i s) (fun _ s' => exists h t, s' = put h t (set_k_ftable (add_refs (drop i (ofile pr)) (k_ftable s)) s) /\
    forking s' pp qs np (set_ofile (take i (ofile prn) ++ inherit (drop i (ofile pr)) (drop i (ofile prn))) prn)).
Proof.
  induction n as [|n IH]; intros i s pp qs np prn Hfk Hl Hln Hop; cbn [dup_files].
  { apply wp_ret. exists (k_hw s), (k_pt s). rewrite !drop_ge, take_ge by lia. cbn [inherit add_refs]. rewrite app_nil_r. split; [by destruct s|].
    destruct prn; done. }
  destruct (lookup_lt_is_Some_2 (ofile pr) i) as [o Ho]; [lia|]. destruct (lookup_lt_is_Some_2 (ofile prn) i) as [o' Ho']; [lia|].
  rewrite (drop_S _ _ _ Ho) in Hop |- *. rewrite (drop_S _ _ _ Ho').
  eapply wp_fk_mine; [exact Hfk|]. apply wp_of_option with o; [done|].
  assert (forall q s1 h, forking s1 pp qs np (set_ofile (<[i := q]> (ofile prn)) prn) -> k_ftable s1 = match o with Some f => add_ref f (k_ftable s) | None => k_ftable s end ->
    (exists t, s1 = put h t (set_k_ftable (k_ftable s1) s)) -> q = match o with Some f => Some f | None => o' end ->
    wp P (dup_files n p np (S i) s1) (fun _ s' => exists h t, s' = put h t (set_k_ftable (add_refs (o :: drop (S i) (ofile pr)) (k_ftable s)) s) /\
      forking s' pp qs np (set_ofile (take i (ofile prn) ++ inherit (o :: drop (S i) (ofile pr)) (o' :: drop (S i) (ofile prn))) prn))) as Hrest.
  { intros q s1 h Hfk1 Eft (t1 & Es1) Hq. eapply wp_mono.
    - apply (IH (S i) s1 pp qs np _ Hfk1); [lia|cbn; rewrite length_insert; lia|]. rewrite Eft. destruct o as [f|]; [by destruct Hop|done].
    - intros [] s' (h' & t' & -> & Hfk'). exists h', t'. cbn [ofile set_ofile] in Hfk'.
      rewrite drop_insert_lt in Hfk' by lia. rewrite (take_S_r _ _ q) in Hfk' by (apply list_lookup_insert_eq; lia). rewrite take_insert_ge, <- app_assoc in Hfk' by lia.
      cbn [add_refs inherit]. rewrite <- Hq. split.
      + rewrite Eft. rewrite Es1. done.
      + destruct prn; exact Hfk'. }
  destruct o as [f|].
  - destruct Hop as [(x & Hx & Hr) Hop]. apply wp_assoc. eapply wp_fk_filedup; [exact Hfk|exact Hx|done|]. intros h s1 Hfk1.
    eapply wp_fk_set; [exact Hfk1|exact (fk_state _ _ _ _ _ Hfk)|exact (fk_prio _ _ _ _ _ Hfk)|done|]. intros t Hfk2.
    eapply (Hrest (Some f) _ h Hfk2); [done| |done]. exists t. unfold s1. by destruct s.
  - wp_run. apply (Hrest o' s (k_hw s)); [|done|exists (k_pt s); by destruct s|done]. rewrite list_insert_id by done. destruct prn; exact Hfk.
Qed.

(** ** The child's trap frame *)
Definition child_mem (nt t : Z) (m : gmap Z Z) : gmap Z Z := store32 (nt + tf_eax) 0 (memmove nt t (Z.to_nat sizeof_trapframe) m).

Lemma child_mem_load nt t m a : nt + sizeof_trapframe <= t \/ t + sizeof_trapframe <= nt ->
  load8 (child_mem nt t m) a = if decide (nt + tf_eax <= a < nt + tf_eax + 4) then 0 else
    if decide (nt <= a < nt + sizeof_trapframe) then u8 (load8 m (t + (a - nt))) else load8 m a.
Proof.
  intros Hd. unfold child_mem. rewrite load8_store32, memmove_disjoint by (unfold sizeof_trapframe in *; lia).
  change (Z.of_nat (Z.to_nat sizeof_trapframe)) with sizeof_trapframe. case_decide; [|done]. by rewrite Z.div_0_l by (apply Z.pow_nonzero; lia).
Qed.

(** ** The whole *)
Section main.
Context (s : kernel) (qs : aqueues) (l : list Z) (ci : nat) (x : inode) (kp : Z).
Hypothesis H_at : at_proc s c [] b p pr qs.
Hypothesis H_run : state pr = RUNNING.
Hypothesis H_free : free_pages s l.
Hypothesis H_bytes : Str.mem_ok (k_mem s).
Hypothesis H_space : space_ok (k_mem s) (pgdir pr) l.
Hypothesis H_size : 0 <= sz pr <= KERNBASE.
Hypothesis H_map : forall va, 0 <= va < sz pr -> pte_of (k_mem s) (pgdir pr) va <> None.
Hypothesis H_tf : page_ok kp /\ (kp ∉ l) /\ kp <= tf pr /\ tf pr + sizeof_trapframe <= kp + PGSIZE.
Hypothesis H_slots : forall j prj, get_proc j (k_pt s) = Some prj -> length (ofile prj) = NOFILE.
Hypothesis H_files : open_files (ofile pr) (k_ftable s).
Hypothesis H_cwd : cwd pr = Some ci /\ k_icache s !! ci = Some x.

(** The entry of the child, its kernel stack and its directory given, but for
    [ticks_running], which [fork] does not set. *)
Definition child (ks d : Z) (slot : proc) : proc :=
  set_p_name (copy_name (p_name slot) (p_name pr)) (set_cwd (Some ci) (set_ofile (inherit (ofile pr) (ofile slot))
    (set_parent (Some p) (set_sz (sz pr) (set_pgdir d (embryo (k_nextpid s) ks slot)))))).
Definition frame_of (ks : Z) : Z := ks + KSTACKSIZE - sizeof_trapframe.

Record forked (s' : kernel) (np : nat) (slot : proc) (ks d : Z) : Prop := {
  fd_slot : first_slot (fun e => bool_decide (state e = UNUSED)) (k_pt s) np slot;
  fd_table : exists ticks, pt_data (k_pt s') = <[np := data (set_state RUNNABLE (set_ticks_running ticks (child ks d slot)))]> (pt_data (k_pt s));
  fd_at : exists pr', at_proc s' c [] b p pr' (aenqueue 0 np qs) /\ data pr' = data pr;
  fd_files : k_ftable s' = add_refs (ofile pr) (k_ftable s);
  fd_cwd : k_icache s' = <[ci := set_i_ref (i32 (i_ref x + 1)) x]> (k_icache s);
  fd_copy : forall va, 0 <= va < sz pr -> page_copied (k_mem s) (pgdir pr) (k_mem s') d va;
  fd_rest : forall va, PGROUNDUP (sz pr) <= va < 2 ^ 32 -> pte_of (k_mem s') d va = kernel_entry kmap va;
  fd_pages : exists l', free_pages s' l' /\ space_ok (k_mem s') d l' /\ l ≡ₚ ks :: space_pages d (k_mem s') ++ l';
  fd_frame : forall o, 0 <= o < sizeof_trapframe ->
    load8 (k_mem s') (frame_of ks + o) = if decide (tf_eax <= o < tf_eax + 4) then 0 else load8 (k_mem s) (tf pr + o);
  fd_resume : load32 (k_mem s') (frame_of ks - 4 - sizeof_context + context_eip) = u32 forkret_addr /\
    load32 (k_mem s') (frame_of ks - 4) = u32 trapret_addr;
  fd_mem : forall a, (forall q, q ∈ l -> ~ q <= a < q + PGSIZE) -> load8 (k_mem s') a = load8 (k_mem s) a }.

(** There was no slot, or not enough memory, and nothing but an unused slot and
    the order of the free pages is different. *)
Record refused (s' : kernel) : Prop := {
  rf_why : (forall j e, get_proc j (k_pt s) = Some e -> state e <> UNUSED) \/ short_of l (sz pr / PGSIZE + 1);
  rf_at : at_proc s' c [] b p pr qs;
  rf_files : k_ftable s' = k_ftable s /\ k_icache s' = k_icache s;
  rf_table : forall j, get_proc j (k_pt s') = get_proc j (k_pt s) \/
    exists e e', get_proc j (k_pt s) = Some e /\ state e = UNUSED /\ get_proc j (k_pt s') = Some e' /\ state e' = UNUSED;
  rf_pages : exists l', free_pages s' l' /\ l' ≡ₚ l;
  rf_mem : forall a, (forall q, q ∈ l -> ~ q <= a < q + PGSIZE) -> load8 (k_mem s') a = load8 (k_mem s) a }.

(** *** After [allocproc] *)
Section allocated.
Context (ks : Z) (l' : list Z).
Hypothesis H_list : l = ks :: l'.
Let m1 := stack_mem ks (k_mem s).

Lemma ks_page : page_ok ks /\ (ks ∉ l') /\ NoDup l'.
Proof. destruct H_free as [Hf Hnd]. rewrite H_list in *. destruct Hf as (_ & Hp & _). apply NoDup_cons in Hnd as [? ?]. done. Qed.
Lemma alloc_frame a : ~ ks <= a < ks + PGSIZE -> load8 m1 a = load8 (k_mem s) a.
Proof. intros Ha. apply stack_frame. unfold KSTACKSIZE, sizeof_trapframe, sizeof_context, PGSIZE in *. lia. Qed.
Lemma alloc_bytes : Str.mem_ok m1.
Proof. unfold m1, stack_mem. cbv zeta. by apply store32_mem_ok, memset_mem_ok, store32_mem_ok. Qed.
Lemma alloc_other q a : page_ok q -> q <> ks -> q <= a < q + PGSIZE -> load8 m1 a = load8 (k_mem s) a.
Proof. intros Hq Hne Ha. apply alloc_frame. intros Ha'. apply Hne. by apply (in_page_eq q ks a); [..|apply ks_page| |]. Qed.
Lemma alloc_free : freelist_ok m1 (load32 (k_mem s) ks) l' /\ NoDup l'.
Proof.
  destruct ks_page as (_ & Hk & Hnd). split; [|done]. destruct H_free as [Hf _]. rewrite H_list in Hf. destruct Hf as (_ & _ & Hf).
  eapply freelist_ok_ext; [|exact Hf]. intros q a Hq. apply alloc_other; [by eapply freelist_pages|by intros ->].
Qed.
Lemma parent_page q : in_space (k_mem s) (pgdir pr) q -> page_ok q /\ q <> ks /\ q ∉ l'.
Proof.
  intros Hq. destruct (in_space_ok _ _ _ _ H_space Hq) as [? Hn]. rewrite H_list in Hn. apply not_elem_of_cons in Hn as [? ?]. done.
Qed.
Lemma alloc_parent : space_ok m1 (pgdir pr) l' /\ (forall va, 0 <= va < 2 ^ 32 -> pte_of m1 (pgdir pr) va = pte_of (k_mem s) (pgdir pr) va).
Proof.
  destruct (space_same (k_mem s) m1 (pgdir pr) l H_space) as (_ & Hpte & Hsp & _).
  { intros q a Hq. destruct (parent_page q Hq) as (? & ? & _). by apply alloc_other. }
  split; [|done]. eapply space_ok_sub; [|exact Hsp]. intros q Hq. rewrite H_list. by right.
Qed.
Lemma copied_from m d va : user va -> page_copied m1 (pgdir pr) m d va -> page_copied (k_mem s) (pgdir pr) m d va.
Proof.
  intros Hva (e & e' & E1 & E2 & Ef & Hc). destruct alloc_parent as [_ Hpte]. rewrite Hpte in E1 by (by apply user_range).
  exists e, e'. split_and!; [done|done|done|]. intros o Ho. rewrite Hc by done.
  assert (in_space (k_mem s) (pgdir pr) (P2V (PTE_ADDR e))) as Hin by (right; right; exists va; unfold page_at; by rewrite E1).
  destruct (parent_page _ Hin) as (? & ? & _). apply (alloc_other (P2V (PTE_ADDR e))); [done|done|lia].
Qed.
(** *** After [copyuvm]: the bytes of the child's frame are the last to change. *)
Section copied.
Context (s1 : kernel) (d : Z) (mc : gmap Z Z) (f : Z) (h : hw) (lc : list Z) (j : Z).
Hypothesis H_mem : k_mem s1 = m1.
Hypothesis H_built : building c [] b s1 l' d mc f h lc [].
Hypothesis H_j : sz pr <= j < sz pr + PGSIZE /\ j mod PGSIZE = 0.
Hypothesis H_copied : copied_to s1 (pgdir pr) d mc j.
Let m2 := child_mem (frame_of ks) (tf pr) mc.

Lemma frames_apart : frame_of ks + sizeof_trapframe <= tf pr \/ tf pr + sizeof_trapframe <= frame_of ks.
Proof.
  destruct H_tf as ((Ha & _) & Hkl & Hlo & Hhi), ks_page as ((Hb & _) & _). rewrite H_list in Hkl. apply not_elem_of_cons in Hkl as [Hne _].
  destruct (pages_disjoint kp ks Ha Hb Hne); unfold frame_of, KSTACKSIZE, PGSIZE, sizeof_trapframe in *; lia.
Qed.
Lemma frame_other a : ~ frame_of ks <= a < frame_of ks + sizeof_trapframe -> load8 m2 a = load8 mc a.
Proof. intros Ha. unfold m2. rewrite child_mem_load by exact frames_apart. unfold tf_eax, sizeof_trapframe in *. rewrite !decide_False by lia. done. Qed.
Lemma taken_other q a : q ∈ l' -> q <= a < q + PGSIZE -> load8 m2 a = load8 mc a.
Proof.
  intros Hq Ha. apply frame_other. intros Hf. destruct ks_page as (Hk & Hkl & _). apply Hkl.
  replace ks with q; [done|]. apply (in_page_eq q ks a); [by apply (bu_all _ _ _ _ _ _ _ _ _ _ _ H_built)|done|done|].
  unfold frame_of, KSTACKSIZE, PGSIZE, sizeof_trapframe in *. lia.
Qed.
Lemma kept a : (forall q, q ∈ l' -> ~ q <= a < q + PGSIZE) -> load8 mc a = load8 m1 a.
Proof. intros Ha. rewrite <- H_mem. by apply (bu_frame _ _ _ _ _ _ _ _ _ _ _ H_built). Qed.
Lemma kept_in q a : page_ok q -> q ∉ l' -> q <= a < q + PGSIZE -> load8 mc a = load8 m1 a.
Proof.
  intros Hq Hn Ha. apply kept. intros q' Hq' Ha'. apply Hn. replace q with q'; [done|].
  apply (in_page_eq q' q a); [by apply (bu_all _ _ _ _ _ _ _ _ _ _ _ H_built)|done|done|done].
Qed.
Lemma child_copied va : 0 <= va < sz pr -> page_copied (k_mem s) (pgdir pr) m2 d va.
Proof.
  intros Hva. assert (user va) as Hu by (unfold user; lia). apply copied_from; [done|].
  destruct (building_outside _ _ _ _ _ _ _ m2 _ _ _ _ H_built taken_other) as (_ & _ & Hpte & _).
  apply page_copied_keep with mc; [|by apply Hpte, user_range|].
  - rewrite <- H_mem. apply (ct_pages _ _ _ _ _ H_copied). lia.
  - intros v a Hv Ha. apply (taken_other v); [|done]. apply (bu_pages _ _ _ _ _ _ _ _ _ _ _ H_built). right; right; right; right. by exists va.
Qed.
Lemma child_rest va : PGROUNDUP (sz pr) <= va < 2 ^ 32 -> pte_of m2 d va = kernel_entry kmap va.
Proof.
  intros Hva. destruct (building_outside _ _ _ _ _ _ _ m2 _ _ _ _ H_built taken_other) as (_ & _ & Hpte & _).
  destruct (PGROUNDUP_spec (sz pr)) as [? ?]; [unfold KERNBASE, PGSIZE in *; lia|]. destruct H_j.
  rewrite Hpte by (unfold PGSIZE in *; lia). apply (ct_rest _ _ _ _ _ H_copied).
  unfold PGSIZE in *. pose proof (Z.div_mod j 4096). pose proof (Z.div_mod (PGROUNDUP (sz pr)) 4096). lia.
Qed.
Lemma child_pages : (freelist_ok m2 f lc /\ NoDup lc) /\ space_ok m2 d lc /\ l ≡ₚ ks :: space_pages d m2 ++ lc.
Proof.
  destruct (building_outside _ _ _ _ _ _ _ m2 _ _ _ _ H_built taken_other) as (Hf & Hsp & Hpte & Hpde).
  split_and!; [done|apply (bu_free _ _ _ _ _ _ _ _ _ _ _ H_built)|done|]. rewrite H_list, (space_pages_same d mc m2) by done.
  f_equiv. apply (building_pages c [] b (not_elem_of_nil _) _ _ _ _ _ _ _ _ H_built).
Qed.
Lemma child_frame o : 0 <= o < sizeof_trapframe ->
  load8 m2 (frame_of ks + o) = if decide (tf_eax <= o < tf_eax + 4) then 0 else load8 (k_mem s) (tf pr + o).
Proof.
  intros Ho. unfold m2. rewrite child_mem_load by exact frames_apart. destruct H_tf as (Hp & Hn & Hlo & Hhi).
  rewrite H_list in Hn. apply not_elem_of_cons in Hn as [Hne Hn]. case_decide; [rewrite decide_True by lia; done|].
  rewrite (decide_False (P := tf_eax <= o < _)), decide_True by lia. replace (tf pr + (frame_of ks + o - frame_of ks)) with (tf pr + o) by lia.
  rewrite (kept_in kp), (alloc_other kp) by (done || lia). apply u8_small. by apply load8_range.
Qed.
Lemma child_resume : load32 m2 (frame_of ks - 4 - sizeof_context + context_eip) = u32 forkret_addr /\ load32 m2 (frame_of ks - 4) = u32 trapret_addr.
Proof.
  destruct ks_page as (Hk & Hkl & _).
  assert (forall a, ks <= a -> a + 4 <= frame_of ks -> load32 m2 a = load32 m1 a) as Hs.
  { intros a Ha Ha'. apply load32_ext. intros y Hy. rewrite frame_other by lia. apply (kept_in ks); [done|done|].
    unfold frame_of, KSTACKSIZE, PGSIZE, sizeof_trapframe in *. lia. }
  rewrite !Hs by (unfold frame_of, KSTACKSIZE, sizeof_trapframe, sizeof_context, context_eip; lia).
  split; [apply stack_eip|]. rewrite <- (stack_ret ks (k_mem s)). f_equal. unfold frame_of. lia.
Qed.
Lemma child_elsewhere a : (forall q, q ∈ l -> ~ q <= a < q + PGSIZE) -> load8 m2 a = load8 (k_mem s) a.
Proof.
  intros Ha. assert (~ ks <= a < ks + PGSIZE) as Hk by (apply Ha; rewrite H_list; by left).
  rewrite frame_other, kept, alloc_frame; [done|done|intros q Hq; apply Ha; rewrite H_list; by right|].
  unfold frame_of, KSTACKSIZE, PGSIZE, sizeof_trapframe in *. lia.
Qed.
End copied.

(** *** The two ends of [fork] *)
Context (np : nat) (slot : proc) (s1 : kernel).
Hypothesis H_slot : first_slot (fun e => bool_decide (state e = UNUSED)) (k_pt s) np slot.
Hypothesis H_mem : k_mem s1 = m1.
Hypothesis H_kept : k_ftable s1 = k_ftable s /\ k_icache s1 = k_icache s.

Lemma refused_table t e : pt_proc t = <[np := e]> (pt_proc (k_pt s)) -> state e = UNUSED ->
  forall j, get_proc j t = get_proc j (k_pt s) \/
    exists e1 e', get_proc j (k_pt s) = Some e1 /\ state e1 = UNUSED /\ get_proc j t = Some e' /\ state e' = UNUSED.
Proof.
  intros Ht He j. destruct H_slot as (Hs & Hu & _). apply bool_decide_eq_true in Hu. unfold get_proc in *. rewrite Ht.
  destruct (decide (j = np)) as [->|]; [right|left; by rewrite list_lookup_insert_ne].
  exists slot, e. split_and!; [done|done| |done]. apply list_lookup_insert_eq. by eapply lookup_lt_Some.
Qed.

(** No memory for the copy: the stack and the slot are given back. *)
Lemma fork_gives_back m f h lg prn : given_back c [] b s1 l' m f h lg -> short_of l' (sz pr / PGSIZE) ->
  forking (after m f h s1) (pt_proc (k_pt s)) qs np prn -> kstack prn = ks ->
  wp atomic ((k <- proc_get np kstack ;; kfree k ;; proc_set np (set_kstack 0) ;; proc_set np (set_state UNUSED) ;; ret (-1)) (after m f h s1))
    (fun r s' => r = -1 /\ refused s').
Proof.
  intros [Hhw Hid Hf Hpg Hfr] Hshort Hfk Hks. eapply wp_fk_get; [exact Hfk|]. rewrite Hks. destruct ks_page as (Hk & Hkl & _).
  assert (ks ∉ lg) as Hn by (by rewrite Hpg).
  destruct (kfree_ok (after m f h s1) ks lg c [] b Hhw (not_elem_of_nil _) Hf Hk Hn) as (h' & E & Hhw' & Hid').
  rewrite (bind_done _ _ _ _ _ E). set (s2 := set_k_hw h' _).
  assert (forking s2 (pt_proc (k_pt s)) qs np prn) as Hfk2.
  { apply (fk_same (set_k_hw h' (after m f h s1))); [done|done|]. by eapply fk_hw. }
  eapply wp_fk_set; [exact Hfk2|apply Hfk|apply Hfk|done|]. intros t Hfk3.
  pose proof Hfk3 as [[Hh3 Hc3 Hp3 Hq3] Ht3 [Hne Hlt] Hs3 Hpr3].
  eapply wp_idle_set; [exact Hq3|by eapply fk_child|by rewrite Hs3|done|change (0 <= priority (set_kstack 0 prn) < Z.of_nat NPRIO); rewrite Hpr3; unfold NPRIO; lia|done|].
  intros t' Hq' Hc' Ht'. apply wp_ret. split; [done|]. cbn [k_pt set_k_pt] in *. rewrite Ht3, list_insert_insert_eq in Ht'. split; try done.
  - right. rewrite H_list. unfold short_of in *. cbn [length]. lia.
  - split; [done|done| |done]. unfold get_proc in *. cbn. rewrite Ht', list_lookup_insert_ne by done.
    rewrite Ht3, list_lookup_insert_ne in Hp3 by done. done.
  - by eapply refused_table.
  - exists (ks :: lg). split; [|rewrite H_list; by f_equiv]. by apply (freed_list (after m f h s1)).
  - intros a Ha. cbn. rewrite freed_mem_frame; [|apply Ha; rewrite H_list; by left].
    rewrite Hfr, H_mem; [|intros q Hq; apply Ha; rewrite H_list; by right]. apply alloc_frame. apply Ha. rewrite H_list. by left.
Qed.
(** The last steps, the child's memory complete: the directory, the name and the queue. *)
Lemma fork_queues s3 prn : forking s3 (pt_proc (k_pt s)) qs np prn -> k_icache s3 = k_icache s -> pid prn = k_nextpid s ->
  wp atomic ((k <- proc_get p cwd ;; k <- of_option "cwd" k ;; k <- idup k ;; proc_set np (set_cwd (Some k)) ;; nm <- proc_get p p_name ;;
    proc_set np (fun q => set_p_name (copy_name (p_name q) nm) q) ;; i <- proc_get np pid ;;
    acquire L_ptable ;; pt_do (enqueue np) ;; release L_ptable ;; ret i) s3)
    (fun r s' => r = k_nextpid s /\ exists h t pr', s' = put h t (set_k_icache (<[ci := set_i_ref (i32 (i_ref x + 1)) x]> (k_icache s)) s3) /\
      at_proc s' c [] b p pr' (aenqueue 0 np qs) /\ data pr' = data pr /\
      pt_data t = <[np := data (set_state RUNNABLE (set_p_name (copy_name (p_name prn) (p_name pr)) (set_cwd (Some ci) prn)))]> (pt_data (k_pt s))).
Proof.
  intros Hfk Hic Hpid. eapply wp_fk_mine; [exact Hfk|]. destruct H_cwd as [-> Hx]. cbn [of_option]. wp_run. unfold idup. apply wp_assoc.
  eapply wp_acquire; [apply Hfk|apply not_elem_of_nil|]. intros h2 Hh2 Hid2. unfold ip_set, ip_get. wp_run.
  apply wp_of_option with tt; [cbn; by rewrite Hic, Hx|]. wp_run. eapply wp_release; [exact Hh2|done|]. intros h3 Hh3 Hid3. wp_run.
  cbn [k_icache set_k_hw] in *. rewrite Hic. rewrite (alter_lookup_insert _ _ _ _ Hx).
  match goal with |- wp _ (_ ?S) _ => set (s4 := S) end.
  assert (forking s4 (pt_proc (k_pt s)) qs np prn) as Hfk4.
  { apply (fk_same (set_k_hw h3 s3)); [done|done|]. eapply fk_hw; [done|done|]. rewrite Hid3. exact Hid2. }
  eapply wp_fk_set; [exact Hfk4|apply Hfk|apply Hfk|done|]. intros t5 Hfk5. eapply wp_fk_mine; [exact Hfk5|].
  eapply wp_fk_set; [exact Hfk5|apply Hfk|apply Hfk|done|]. intros t6 Hfk6. eapply wp_fk_get; [exact Hfk6|].
  pose proof Hfk6 as [Ha6 Ht6 [Hne Hlt] Hs6 Hp6]. eapply wp_ap_acquire; [exact Ha6|apply not_elem_of_nil|]. intros h7 Ha7.
  destruct (enqueue_ok t6 qs np _ (ap_queues _ _ _ _ _ _ _ Ha6) (fk_child _ _ _ _ _ Hfk6)) as (t8 & E8 & Hq8 & Ht8); [by rewrite Hs6|].
  rewrite Hp6 in Hq8. apply wp_pt_do with t8; [exact E8|].
  destruct (pt_data_lookup_inv t8 p (data pr)) as (pr' & Hpr' & Hd').
  { rewrite Ht8. rewrite list_lookup_insert_ne by done. by apply pt_data_lookup, Ha6. }
  eapply wp_release; [apply Ha7|done|]. intros h9 Hh9 Hid9. apply wp_ret. split; [exact Hpid|].
  exists h9, t8, pr'. split_and!; [done| |done|].
  - split; [done| |done|done]. cbn. rewrite <- (ap_cur _ _ _ _ _ _ _ Ha7). by apply cur_hw_id.
  - rewrite Ht8. unfold pt_data. cbn [k_pt set_k_pt] in Ht6. rewrite Ht6, list_fmap_insert, list_insert_insert_eq. done.
Qed.
(** The copy is there: the rest of the child is filled in. *)
Lemma fork_completes d mc f h lc j : building c [] b s1 l' d mc f h lc [] -> sz pr <= j < sz pr + PGSIZE -> j mod PGSIZE = 0 ->
  copied_to s1 (pgdir pr) d mc j -> k_nextpid s1 = i32 (k_nextpid s + 1) -> forall t,
  forking (set_k_pt t (after mc f h s1)) (pt_proc (k_pt s)) qs np (set_pgdir d (embryo (k_nextpid s) ks slot)) ->
  wp atomic ((proc_set np (set_sz (sz pr)) ;; proc_set np (set_parent (Some p)) ;; t <- proc_get p tf ;; nt <- proc_get np tf ;;
    modify (upd_mem (memmove nt t (Z.to_nat sizeof_trapframe))) ;; modify (upd_mem (store32 (nt + tf_eax) 0)) ;; dup_files NOFILE p np 0 ;;
    k <- proc_get p cwd ;; k <- of_option "cwd" k ;; k <- idup k ;; proc_set np (set_cwd (Some k)) ;; nm <- proc_get p p_name ;;
    proc_set np (fun q => set_p_name (copy_name (p_name q) nm) q) ;; i <- proc_get np pid ;;
    acquire L_ptable ;; pt_do (enqueue np) ;; release L_ptable ;; ret i) (set_k_pt t (after mc f h s1)))
    (fun r s' => r = k_nextpid s /\ k_nextpid s' = i32 (k_nextpid s + 1) /\ forked s' np slot ks d).
Proof.
  intros Hb Hj Hja Hcp Hnp t Hfk. pose proof (conj Hj Hja) as Hjj.
  eapply wp_fk_set; [exact Hfk|done|done|done|]. intros t1 Hfk1. eapply wp_fk_set; [exact Hfk1|done|done|done|]. intros t2 Hfk2.
  eapply wp_fk_mine; [exact Hfk2|]. eapply wp_fk_get; [exact Hfk2|]. wp_run.
  match goal with |- wp _ (_ ?S) _ => set (s3 := S) end.
  assert (k_mem s3 = child_mem (frame_of ks) (tf pr) mc) as Hm3 by done.
  assert (forking s3 (pt_proc (k_pt s)) qs np (set_parent (Some p) (set_sz (sz pr) (set_pgdir d (embryo (k_nextpid s) ks slot))))) as Hfk3
    by (eapply (fk_same (set_k_pt t2 (set_k_pt t1 (set_k_pt t (after mc f h s1))))); done).
  assert (length (ofile pr) = NOFILE) as Hlp by (eapply H_slots; apply H_at).
  assert (length (ofile slot) = NOFILE) as Hls by (eapply H_slots; apply H_slot).
  apply wp_bind. eapply wp_mono; [apply (dup_files_wp atomic NOFILE 0 s3 _ _ _ _ Hfk3 Hlp Hls)|].
  { change (k_ftable s3) with (k_ftable s1). by rewrite (proj1 H_kept). }
  intros [] s4 (h4 & t4 & Es4 & Hfk4).
  eapply wp_mono; [apply (fork_queues s4 _ Hfk4); [|done]|].
  { rewrite Es4. change (k_icache s1 = k_icache s). apply H_kept. }
  intros r s' (-> & h' & t' & pr' & Es' & Hat & Hd & Ht). split; [done|].
  assert (k_mem s' = child_mem (frame_of ks) (tf pr) mc /\ k_freelist s' = f /\ k_nextpid s' = k_nextpid s1 /\
    k_ftable s' = add_refs (ofile pr) (k_ftable s1) /\ k_icache s' = <[ci := set_i_ref (i32 (i_ref x + 1)) x]> (k_icache s) /\ k_pt s' = t') as (Hm & Hfl & Hn & Hft & Hic & Hpt)
    by (rewrite Es', Es4; done).
  split; [congruence|]. split; rewrite ?Hm.
  - done.
  - exists (ticks_running slot). rewrite Hpt, Ht. by destruct slot.
  - by exists pr'.
  - rewrite Hft. by rewrite (proj1 H_kept).
  - done.
  - by eapply child_copied.
  - by eapply child_rest.
  - destruct (child_pages s1 d mc f h lc Hb) as (Hf & Hsp & Hp). exists lc. unfold free_pages. rewrite Hm, Hfl. done.
  - by eapply child_frame.
  - by eapply child_resume.
  - by eapply child_elsewhere.
Qed.
End allocated.

(** [fork] takes the slot, the stack and the copy, and completes the child. *)
Lemma fork_wp : wp atomic (fork s) (fun r s' => r = -1 /\ refused s' \/
  exists np slot ks d, r = k_nextpid s /\ k_nextpid s' = i32 (k_nextpid s + 1) /\ forked s' np slot ks d).
Proof.
  unfold fork. eapply wp_ap_curproc; [exact H_at|]. intros h0 Ha0. set (s0 := set_k_hw h0 s) in *. pose proof Ha0 as [Hh0 Hc0 Hp0 Hq0].
  apply wp_bind. eapply wp_mono; [apply (allocproc_wp atomic s0 c [] b qs l Hh0 (not_elem_of_nil _) (not_elem_of_nil _) Hq0 H_free)|].
  intros [np|] s1 (Hh1 & Hid1 & Hq1 & Hkept & Hr); assert (k_ftable s1 = k_ftable s /\ k_icache s1 = k_icache s) as Hk1 by (by rewrite Hkept).
  - destruct Hr as (ks & l' & slot & El & Hsl & Hn1 & Ht1 & Hm1 & Hf1). pose proof Hsl as (Hs & Hu & _). apply bool_decide_eq_true in Hu.
    assert (np <> p) as Hne by (intros ->; change (get_proc p (k_pt s) = Some pr) in Hp0; change (get_proc p (k_pt s) = Some slot) in Hs; congruence).
    assert (at_proc s1 c [] b p pr qs) as Ha1.
    { split; [done|by rewrite (cur_hw_id _ _ Hid1)| |done]. unfold get_proc in *. rewrite Ht1, list_lookup_insert_ne by done. done. }
    apply wp_proc_get with pr; [apply Ha1|]. apply wp_proc_get with pr; [apply Ha1|].
    assert (free_pages s1 l') as Hfp1 by (unfold free_pages; rewrite Hm1, Hf1; exact (alloc_free ks l' El)).
    destruct (alloc_parent ks l' El) as [Hsp1 Hpte1].
    destruct (copyuvm_ok c [] b (not_elem_of_nil _) s1 (pgdir pr) (sz pr) l') as (d & mc & f & h & lc & E & Hd); try done; try (rewrite Hm1).
    { by apply alloc_bytes. }
    { exact Hsp1. }
    { intros va Hva. rewrite Hpte1; [by apply H_map|]. unfold KERNBASE in *. lia. }
    rewrite (bind_done _ _ _ _ _ E). set (s2 := after mc f h s1).
    assert (hw_ok h c [] b /\ hw_id h = hw_id (k_hw s1)) as [Hh2 Hid2] by (destruct Hd as [(_ & Hg & _)|(_ & Hb & _)]; [split; apply Hg|split; apply Hb]).
    assert (forking s2 (pt_proc (k_pt s)) qs np (embryo (k_nextpid s) ks slot)) as Hfk2.
    { apply (fk_same (set_k_hw h s1)); [done|done|]. apply fk_hw; [|done|done]. split; [done|done| |done|done].
      split; [done|]. by eapply lookup_lt_Some. }
    eapply wp_fk_set; [exact Hfk2|done|done|done|]. intros t3 Hfk3. destruct Hd as [(-> & Hg & Hshort)|(Hd0 & Hb & j & Hj & Hja & Hcp)].
    + eapply wp_mono; [|intros r s' Hr; left; exact Hr].
      apply (fork_gives_back ks l' El np slot (set_k_pt t3 s1) Hsl Hm1 Hk1 mc f h lc (set_pgdir 0 (embryo (k_nextpid s) ks slot))); [by destruct Hg|done|exact Hfk3|done].
    + rewrite (proj2 (Z.eqb_neq d 0) Hd0). eapply wp_mono; [|intros r s' Hr; right; exists np, slot, ks, d; exact Hr].
      by apply (fork_completes ks l' El np slot s1 Hsl Hm1 Hk1 d mc f h lc j).
  - destruct Hr as (Hm & Hf & Hr). apply wp_ret. left. split; [done|].
    assert (exists l', free_pages s1 l' /\ l' ≡ₚ l) as Hpg by (exists l; unfold free_pages; rewrite Hm, Hf; done).
    assert (forall t e np slot, first_slot (fun e => bool_decide (state e = UNUSED)) (k_pt s) np slot -> pt_proc t = <[np := e]> (pt_proc (k_pt s)) -> get_proc p t = Some pr) as Hmine.
    { intros t e np slot (Hs & Hu & _) Ht. apply bool_decide_eq_true in Hu. unfold get_proc in *. rewrite Ht, list_lookup_insert_ne; [done|].
      intros ->. change (pt_proc (k_pt s) !! p = Some pr) in Hp0. congruence. }
    destruct Hr as [(Ht & _ & Hno)|(Hnil & np & slot & Hsl & _ & Ht)].
    + split; [by left| |done| |done|intros a _; by rewrite Hm]; [|intros j; left; by rewrite Ht].
      split; [done|by rewrite (cur_hw_id _ _ Hid1)|by rewrite Ht|done].
    + split; [right| |done| |done|intros a _; by rewrite Hm]; [|  |by eapply refused_table].
      { rewrite Hnil. unfold short_of. cbn [length]. pose proof (Z.div_pos (sz pr) PGSIZE). unfold PGSIZE in *. lia. }
      split; [done|by rewrite (cur_hw_id _ _ Hid1)|by eapply Hmine|done].
Qed.
End main.
End fork.


(** A process of one page with two descriptors of one file, and 1100 free pages. *)
Fixpoint page_list (base : Z) (n : nat) : list Z :=
  match n with O => [] | S n' => base :: page_list (base + PGSIZE) n' end.
Fixpoint link_pages (base : Z) (n : nat) (m : gmap Z Z) : gmap Z Z :=
  match n with
  | O => m
  | S n' => store32 base (if n' is O then 0 else base + PGSIZE) (link_pages (base + PGSIZE) n' m)
  end.

Section pages.
Implicit Types (m : gmap Z Z).
Lemma page_list_length n : forall base, length (page_list base n) = n.
Proof. induction n as [|n IH]; intros base; [done|]. cbn. by rewrite IH. Qed.
Lemma page_list_elem q n : forall base, q ∈ page_list base n -> exists i, 0 <= i < Z.of_nat n /\ q = base + PGSIZE * i.
Proof.
  induction n as [|n IH]; intros base; cbn; [by intros ?%elem_of_nil|]. intros [->|Hq]%elem_of_cons; [exists 0; lia|].
  destruct (IH _ Hq) as (i & ? & ->). exists (i + 1). lia.
Qed.
Lemma page_list_nodup n : forall base, NoDup (page_list base n).
Proof.
  induction n as [|n IH]; intros base; cbn; [apply NoDup_nil_2|]. apply NoDup_cons. split; [|apply IH].
  intros (i & ? & ?)%page_list_elem. unfold PGSIZE in *. lia.
Qed.
Lemma link_pages_frame m n : forall base a, a < base -> load8 (link_pages base n m) a = load8 m a.
Proof.
  induction n as [|n IH]; intros base a Ha; cbn; [done|]. rewrite load8_store32, decide_False by lia. apply IH. unfold PGSIZE. lia.
Qed.
Lemma link_pages_bytes m n : Str.mem_ok m -> forall base, Str.mem_ok (link_pages base n m).
Proof. intros Hm. induction n as [|n IH]; intros base; cbn; [done|]. by apply store32_mem_ok. Qed.
Lemma link_pages_list `{Linkage} m n : forall base, page_ok base -> base + PGSIZE * Z.of_nat n <= KERNBASE + PHYSTOP ->
  freelist_ok (link_pages base n m) (if n is O then 0 else base) (page_list base n).
Proof.
  induction n as [|n IH]; intros base Hb Hn; cbn [link_pages page_list freelist_ok]; [done|]. split_and!; [done|done|].
  rewrite load32_store32_eq. destruct n as [|n]; [done|].
  assert (page_ok (base + PGSIZE)) as Hb1.
  { destruct Hb as [Hm Hr]. split; [|unfold PGSIZE in *; lia]. unfold PGSIZE in *. rewrite <- (Z.mul_1_l 4096) at 1. by rewrite Z_mod_plus_full. }
  rewrite u32_small by (destruct Hb1; pose proof kend_range; unfold KERNLINK, KERNBASE, EXTMEM, PHYSTOP in *; lia).
  eapply freelist_ok_ext; [|apply (IH (base + PGSIZE)); [done|lia]].
  intros q a (i & Hi & ->)%page_list_elem Ha. by rewrite load8_store32, decide_False by (unfold PGSIZE in *; lia).
Qed.
End pages.

Definition demo_forker : proc := set_tf 0x80305000 (set_sz 4096 (set_pgdir 0x80302000 demo_parent)).
Definition demo_pages : list Z := page_list 0x80400000 1100.
Definition demo_forking : kernel :=
  set_k_mem (link_pages 0x80400000 1100 (k_mem demo_space)) (set_k_freelist 0x80400000
    (set_k_pt (mkPtable ([demo_forker; demo_proc SLEEPING 2 0 (Some (C_proc 1)) None] ++ replicate 62 proc_zero) [None; None; None] [None; None; None]) demo_family)).
Lemma demo_pages_above q : q ∈ demo_pages -> 0x80400000 <= q.
Proof. intros (i & ? & ->)%page_list_elem. unfold PGSIZE. lia. Qed.
Lemma demo_forking_space : let lnk := demo_linkage in
  space_ok (k_mem demo_forking) 0x80302000 demo_pages /\
  forall va, 0 <= va < 2 ^ 32 -> pte_of (k_mem demo_forking) 0x80302000 va = pte_of (k_mem demo_space) 0x80302000 va.
Proof.
  intros lnk. assert (space_ok (k_mem demo_space) 0x80302000 demo_pages) as Hsp.
  { apply demo_space_ok. intros q Hq%demo_pages_above. lia. }
  destruct (space_same (k_mem demo_space) (k_mem demo_forking) 0x80302000 demo_pages Hsp) as (_ & Hpte & Hsp' & _); [|by split].
  intros q x Hq Hx. apply link_pages_frame.
  assert (q < 0x80305000) as Hlow; [|unfold PGSIZE in *; lia]. apply Z.nle_gt. intros Hge.
  destruct (in_space_ok (k_mem demo_space) 0x80302000 [q] q) as [_ Hn]; [|done|by apply Hn, elem_of_cons; left].
  apply demo_space_ok. intros q' ->%list_elem_of_singleton. lia.
Qed.

