(* ===== verification/Syscall.v ===== *)
(** * System call arguments and process system calls ([kernel/syscall.c], [kernel/sysproc.c])

    How the kernel fetches arguments from the memory of the calling process,
    and the calls that concern processes and time.  The theorems say that an
    accepted pointer lies, with its whole object, in the process's memory. *)
From S2P Require Import Prelude Types Str Spinlock Queue Kalloc Sched Context Sleeplock Pipe Bio Log Console Vm Paging Fs File Proc.

Section args.
Context `{Linkage} `{Fuel} `{Serial}.

(** The result -1 is [None], and the fetched value [Some]. *)
Definition fetchint (addr : Z) : K (option Z) :=
  p <- curproc ;;
  size <- proc_get p sz ;;
  if (size <=? addr) || (size <? u32 (addr + 4)) then ret None else
  v <- vload32 addr ;;
  ret (Some (i32 v)).

(** The loop of [fetchstr] from [s]: the bytes up to the NUL. *)
Fixpoint str_loop (n : nat) (s ep : Z) : K (option (list Z)) :=
  if negb (s <? ep) then ret None else
  c <- vload8 s ;;
  if c =? 0 then ret (Some []) else
  match n with
  | O => stopm NoFuel
  | S n' => o <- str_loop n' (s + 1) ep ;; ret (cons c <$> o)
  end.
Definition fetchstr (addr : Z) : K (option (list Z)) :=
  p <- curproc ;;
  size <- proc_get p sz ;;
  if size <=? addr then ret None else
  str_loop (Z.to_nat (size - addr)) addr size.

Definition argint (n : Z) : K (option Z) :=
  p <- curproc ;;
  t <- proc_get p tf ;;
  esp <- gets (fun s => load32 (k_mem s) (t + tf_esp)) ;;
  fetchint (u32 (esp + 4 + 4 * n)).

Definition argptr (n size : Z) : K (option Z) :=
  p <- curproc ;;
  o <- argint n ;;
  match o with
  | None => ret None
  | Some i =>
      total <- proc_get p sz ;;
      if (size <? 0) || (total <=? u32 i) || (total <? u32 (u32 i + size)) then ret None
      else ret (Some (u32 i))
  end.

Definition argstr (n : Z) : K (option (list Z)) :=
  o <- argint n ;;
  match o with
  | None => ret None
  | Some a => fetchstr (u32 a)
  end.

End args.

Section calls.
Context `{Linkage} `{Fuel} `{Disk} `{Serial} `{DevSw}.

Definition sys_fork : K Z := fork.
Definition sys_exit : K Z := exit_.
Definition sys_wait : K Z := wait.

Definition sys_kill : K Z :=
  o <- argint 0 ;;
  match o with
  | None => ret (-1)
  | Some i => kill i
  end.

Definition sys_getpid : K Z :=
  p <- curproc ;;
  proc_get p pid.

Definition sys_sbrk : K Z :=
  o <- argint 0 ;;
  match o with
  | None => ret (-1)
  | Some n =>
      p <- curproc ;;
      addr <- proc_get p sz ;;
      r <- growproc n ;;
      if r <? 0 then ret (-1) else ret (i32 addr)
  end.

(** The loop [while(ticks - ticks0 < n)]: the comparison is between unsigned
    numbers. *)
Fixpoint sleep_loop (k : nat) (ticks0 n : Z) : K Z :=
  t <- gets k_ticks ;;
  if negb (u32 (t - ticks0) <? u32 n) then release L_tickslock ;; ret 0 else
  p <- curproc ;;
  d <- proc_get p killed ;;
  if negb (d =? 0) then release L_tickslock ;; ret (-1) else
  match k with
  | O => stopm NoFuel
  | S k' => sleep (Some C_ticks) (Some L_tickslock) ;; sleep_loop k' ticks0 n
  end.
Definition sys_sleep : K Z :=
  o <- argint 0 ;;
  match o with
  | None => ret (-1)
  | Some n =>
      acquire L_tickslock ;;
      ticks0 <- gets k_ticks ;;
      sleep_loop fuel ticks0 n
  end.

Definition sys_uptime : K Z :=
  acquire L_tickslock ;;
  x <- gets k_ticks ;;
  release L_tickslock ;;
  ret (i32 x).

End calls.

(** ** What the kernel reads from a process *)
Section fetch.
Context `{Linkage} `{Fuel} `{Serial}.
Implicit Types (s : kernel) (h : hw) (pr : proc) (va n size : Z).

(** The byte at a user address, through the page table in use. *)
Definition user_byte s va : Z :=
  load8 (k_mem s) (default 0 (translate (k_mem s) (P2V (h_cr3 (k_hw s))) va)).
Definition user_word s va : Z :=
  user_byte s va + 2 ^ 8 * user_byte s (va + 1) + 2 ^ 16 * user_byte s (va + 2) + 2 ^ 24 * user_byte s (va + 3).

(** CPU [c] runs process [p], all of whose memory is mapped.  Nothing is said
    of its registers or of what the memory holds. *)
Record in_user s (c : nat) (L : list lockid) (b : bool) (p : nat) pr : Prop := {
  iu_hw : hw_ok (k_hw s) c L b;
  iu_cur : cur (k_hw s) = Some p;
  iu_proc : get_proc p (k_pt s) = Some pr;
  iu_size : 0 <= sz pr <= KERNBASE;
  iu_mapped : forall va, 0 <= va < sz pr -> is_Some (translate (k_mem s) (P2V (h_cr3 (k_hw s))) va) }.

(** A fetch changes nothing but the interrupt bookkeeping of the CPU. *)
Definition fetches {A} (m : K A) s (a : A) c L b p pr : Prop :=
  exists h, m s = Done a (set_k_hw h s) /\ hw_id h = hw_id (k_hw s) /\ in_user (set_k_hw h s) c L b p pr.

Lemma in_user_hw s h c L b p pr :
  in_user s c L b p pr -> hw_ok h c L b -> hw_id h = hw_id (k_hw s) ->
  in_user (set_k_hw h s) c L b p pr /\ forall va, user_byte (set_k_hw h s) va = user_byte s va.
Proof.
  intros [? ? ? ? Hm] Hok Hid. assert (h_cr3 h = h_cr3 (k_hw s)) as E by (unfold hw_id in Hid; congruence).
  split; [split; try done|intros va]; cbn.
  - by rewrite (cur_hw_id _ _ Hid).
  - by rewrite E.
  - unfold user_byte. cbn. by rewrite E.
Qed.

Lemma fetches_bind {A B} (m : K A) (k : A -> K B) s a r c L b p pr :
  in_user s c L b p pr -> fetches m s a c L b p pr ->
  (forall h, in_user (set_k_hw h s) c L b p pr -> (forall va, user_byte (set_k_hw h s) va = user_byte s va) ->
    fetches (k a) (set_k_hw h s) r c L b p pr) ->
  fetches (x <- m ;; k x) s r c L b p pr.
Proof.
  intros Hu (h & E & Hid & Hu1) Hk. destruct (Hk h Hu1) as (h' & E' & Hid' & Hu').
  { by apply (in_user_hw s h c L b p pr Hu (iu_hw _ _ _ _ _ _ Hu1)). }
  exists h'. rewrite (bind_done _ _ _ _ _ E). split; [exact E'|]. split; [|exact Hu']. by rewrite Hid'.
Qed.

Lemma fetches_done {A} (m : K A) s a c L b p pr : in_user s c L b p pr -> m s = Done a s -> fetches m s a c L b p pr.
Proof. intros Hu E. exists (k_hw s). by rewrite set_k_hw_id. Qed.

Lemma fetches_curproc s c L b p pr : in_user s c L b p pr -> fetches curproc s p c L b p pr.
Proof.
  intros Hu. destruct (myproc_ok s c L b (iu_hw _ _ _ _ _ _ Hu)) as (h & E & Hok & Hid). exists h. split; [|split; [done|by apply in_user_hw]].
  unfold curproc. rewrite (bind_done _ _ _ _ _ E), (iu_cur _ _ _ _ _ _ Hu). done.
Qed.

Lemma fetches_proc_get {A} (f : proc -> A) s c L b p pr : in_user s c L b p pr -> fetches (proc_get p f) s (f pr) c L b p pr.
Proof.
  intros Hu. apply fetches_done; [done|]. unfold proc_get, bind, get. cbn [obind].
  by rewrite (iu_proc _ _ _ _ _ _ Hu).
Qed.

Lemma vload8_ok s va c L b p pr : in_user s c L b p pr -> 0 <= va < sz pr -> vload8 va s = Done (user_byte s va) s.
Proof.
  intros Hu Hva. pose proof (iu_size _ _ _ _ _ _ Hu). unfold vload8, kaddr, user_byte.
  rewrite (proj2 (Z.leb_gt KERNBASE va)) by lia. unfold bind, get. cbn [obind].
  destruct (iu_mapped _ _ _ _ _ _ Hu va Hva) as [x ->]. done.
Qed.

Lemma vload32_ok s va c L b p pr : in_user s c L b p pr -> 0 <= va -> va + 4 <= sz pr -> vload32 va s = Done (user_word s va) s.
Proof.
  intros Hu Hva Hsz. unfold vload32.
  rewrite (bind_done _ _ _ _ _ (vload8_ok s va c L b p pr Hu ltac:(lia))), (bind_done _ _ _ _ _ (vload8_ok s (va + 1) c L b p pr Hu ltac:(lia))),
    (bind_done _ _ _ _ _ (vload8_ok s (va + 2) c L b p pr Hu ltac:(lia))), (bind_done _ _ _ _ _ (vload8_ok s (va + 3) c L b p pr Hu ltac:(lia))).
  done.
Qed.

(** The whole object of [size] bytes at [va] is in the process. *)
Definition in_proc pr va size : bool := (va <? sz pr) && (va + size <=? sz pr).

Lemma in_proc_wrap pr va size : 0 <= sz pr <= KERNBASE -> 0 <= va -> 0 <= size < 2 ^ 31 ->
  (sz pr <=? va) || (sz pr <? u32 (va + size)) = negb (in_proc pr va size).
Proof.
  unfold in_proc, KERNBASE. intros Hsz Hva Hs. destruct (Z.leb_spec (sz pr) va), (Z.ltb_spec va (sz pr)); try lia. cbn.
  rewrite u32_small by lia. destruct (Z.leb_spec (va + size) (sz pr)); [apply Z.ltb_ge|apply Z.ltb_lt]; lia.
Qed.

Definition if_some {A} (b : bool) (a : A) : option A := if b then Some a else None.

Lemma fetchint_ok s va c L b p pr : in_user s c L b p pr -> 0 <= va ->
  fetches (fetchint va) s (if_some (in_proc pr va 4) (i32 (user_word s va))) c L b p pr.
Proof.
  intros Hu Hva. unfold fetchint. eapply fetches_bind; [done|by apply fetches_curproc|]. intros h Hu1 E1.
  eapply fetches_bind; [done|by apply fetches_proc_get|]. intros h' Hu2 E2. rewrite in_proc_wrap; [|apply Hu|done|lia].
  destruct (in_proc pr va 4) eqn:E; cbn [negb]; [|by apply fetches_done].
  apply andb_prop in E as [_ E%Z.leb_le]. apply fetches_done; [done|].
  rewrite (bind_done _ _ _ _ _ (vload32_ok _ va c L b p pr Hu2 Hva E)). unfold user_word. by rewrite !E2, !E1.
Qed.

(** The registers the process saved on entry to the kernel. *)
Definition user_esp s pr : Z := load32 (k_mem s) (tf pr + tf_esp).
Definition slot s pr n : Z := u32 (user_esp s pr + 4 + 4 * n).

Lemma argint_ok s n c L b p pr : in_user s c L b p pr ->
  fetches (argint n) s (if_some (in_proc pr (slot s pr n) 4) (i32 (user_word s (slot s pr n)))) c L b p pr.
Proof.
  intros Hu. unfold argint. eapply fetches_bind; [done|by apply fetches_curproc|]. intros h Hu1 E1.
  eapply fetches_bind; [done|by apply fetches_proc_get|]. intros h1 Hu2 E2.
  eapply fetches_bind; [done|by apply fetches_done|]. intros h2 Hu3 E3.
  change (load32 (k_mem _) _) with (user_esp s pr). fold (slot s pr n).
  replace (user_word s (slot s pr n)) with (user_word (set_k_hw h2 (set_k_hw h1 (set_k_hw h s))) (slot s pr n))
    by (unfold user_word; by rewrite !E3, !E2, !E1).
  apply fetchint_ok; [done|apply u32_range].
Qed.

(** C22: whatever a process puts in its registers and memory, [argptr] returns
    without a fault, and accepts the argument exactly when the stack slot that
    holds it and the whole object of [size] bytes it points to lie in the
    memory of the process; neither the sum [i + size] nor the address of the
    slot can wrap past the check. *)
Theorem argptr_checks s n size c L b p pr :
  in_user s c L b p pr -> - 2 ^ 31 <= size < 2 ^ 31 ->
  let a := slot s pr n in
  let ptr := u32 (user_word s a) in
  fetches (argptr n size) s
    (if_some (in_proc pr a 4 && (0 <=? size) && in_proc pr ptr size) ptr) c L b p pr.
Proof.
  intros Hu Hsz a ptr. unfold argptr. eapply fetches_bind; [done|by apply fetches_curproc|]. intros h Hu1 E1.
  eapply fetches_bind; [done|by apply argint_ok|]. intros h1 Hu2 E2. change (slot (set_k_hw h s) pr n) with a.
  assert (user_word (set_k_hw h s) a = user_word s a) as -> by (unfold user_word; by rewrite !E1).
  destruct (in_proc pr a 4); cbn [if_some andb]; [|by apply fetches_done].
  eapply fetches_bind; [done|by apply fetches_proc_get|]. intros h2 Hu3 E3. rewrite i32_u32. fold ptr.
  destruct (Z.leb_spec 0 size) as [Hpos|Hneg]; cbn [andb].
  - rewrite (proj2 (Z.ltb_ge size 0)) by lia. cbn [orb]. rewrite in_proc_wrap; [|apply Hu|apply u32_range|lia].
    destruct (in_proc pr ptr size); cbn [negb]; by apply fetches_done.
  - rewrite (proj2 (Z.ltb_lt size 0)) by lia. cbn [orb]. by apply fetches_done.
Qed.

(** The string at [va]: its bytes up to the first NUL before the end of the memory. *)
Inductive user_string s pr : Z -> option (list Z) -> Prop :=
  | us_outside va : sz pr <= va -> user_string s pr va None
  | us_end va : va < sz pr -> user_byte s va = 0 -> user_string s pr va (Some [])
  | us_byte va o : va < sz pr -> user_byte s va <> 0 -> user_string s pr (va + 1) o ->
      user_string s pr va (cons (user_byte s va) <$> o).

Lemma str_loop_ok s c L b p pr : 0 <= sz pr -> forall (k : nat) va, 0 <= va -> sz pr - va <= Z.of_nat k ->
  exists o, user_string s pr va o /\
    forall s', in_user s' c L b p pr -> (forall x, user_byte s' x = user_byte s x) -> str_loop k va (sz pr) s' = Done o s'.
Proof.
  intros Hsz. induction k as [|k IH]; intros va Hva Hk; destruct (Z.ltb_spec va (sz pr)) as [Hlt|Hge]; try lia.
  1, 3: exists None; split; [by constructor|]; intros s' _ _; cbn [str_loop]; by rewrite (proj2 (Z.ltb_ge va (sz pr))) by lia.
  assert (forall s', in_user s' c L b p pr -> (forall x, user_byte s' x = user_byte s x) -> vload8 va s' = Done (user_byte s va) s') as Hload.
  { intros s' Hu E. rewrite <- E. by apply (vload8_ok s' va c L b p pr). }
  destruct (Z.eq_dec (user_byte s va) 0) as [E|E].
  - exists (Some []). split; [by constructor|]. intros s' Hu Hx. cbn [str_loop].
    rewrite (proj2 (Z.ltb_lt va (sz pr)) Hlt). cbn [negb]. rewrite (bind_done _ _ _ _ _ (Hload s' Hu Hx)), E. done.
  - destruct (IH (va + 1)) as (o & Ho & E'); [lia|lia|]. eexists. split; [by constructor|]. intros s' Hu Hx. cbn [str_loop].
    rewrite (proj2 (Z.ltb_lt va (sz pr)) Hlt). cbn [negb]. rewrite (bind_done _ _ _ _ _ (Hload s' Hu Hx)), (proj2 (Z.eqb_neq _ _) E).
    by rewrite (bind_done _ _ _ _ _ (E' s' Hu Hx)).
Qed.

(** [argstr] on any argument of a process whose memory is mapped returns
    without a fault: the bytes of the string in the process's memory when a NUL
    ends it before the end of that memory, and an error otherwise. *)
Theorem argstr_checks s n c L b p pr :
  in_user s c L b p pr ->
  let a := slot s pr n in
  exists o, fetches (argstr n) s o c L b p pr /\
    if in_proc pr a 4 then user_string s pr (u32 (user_word s a)) o else o = None.
Proof.
  intros Hu a. pose proof (argint_ok s n c L b p pr Hu) as Hi. fold a in Hi. unfold argstr.
  destruct (in_proc pr a 4); cbn [if_some] in Hi.
  2:{ exists None. split; [|done]. eapply fetches_bind; [done|exact Hi|]. intros. by apply fetches_done. }
  set (ptr := u32 (user_word s a)).
  destruct (str_loop_ok s c L b p pr (proj1 (iu_size _ _ _ _ _ _ Hu)) (Z.to_nat (sz pr - ptr)) ptr) as (o & Ho & Eo); [apply u32_range|lia|].
  assert (sz pr <= ptr -> o = None) as Hout by (intros Hge; destruct Ho; [done|lia|lia]).
  exists o. split; [|done]. eapply fetches_bind; [done|exact Hi|]. intros h Hu1 E1. cbn beta iota. rewrite i32_u32. fold ptr.
  unfold fetchstr. eapply fetches_bind; [done|by apply fetches_curproc|]. intros h1 Hu2 E2.
  eapply fetches_bind; [done|by apply fetches_proc_get|]. intros h2 Hu3 E3.
  destruct (Z.leb_spec (sz pr) ptr) as [Hge|Hlt]; [rewrite Hout by done; by apply fetches_done|].
  apply fetches_done; [done|]. apply Eo; [done|]. intros x. by rewrite E3, E2, E1.
Qed.

End fetch.

(** A process of one page: its stack at 0x100 holds a pointer to the text at 0x200. *)
Definition demo_user_mem : gmap Z Z :=
  store32 0x80302000 0x303007 (store32 0x80303000 0x304007 (store32 (0x80305000 + tf_esp) 0x100
    (store32 0x80304104 0x200 (store32 0x80304200 0x6968 ∅)))).
Definition demo_user_proc : proc := set_sz PGSIZE (set_tf 0x80305000 (demo_proc RUNNING 1 0 None None)).
Definition demo_user : kernel :=
  set_k_mem demo_user_mem (set_k_pt (mkPtable [demo_user_proc] [] [])
    (kernel_zero (set_h_cr3 0x302000 (demo_hw [] true (Some 0%nat))))).

Lemma demo_in_user : in_user demo_user 0 [] true 0 demo_user_proc.
Proof.
  split; [|by vm_compute|done|by vm_compute|].
  - destruct (demo_hw_ok [] true (Some 0%nat) (NoDup_nil_2)). by split.
  - cbn [sz demo_user_proc set_sz]. unfold PGSIZE. intros va Hva. unfold translate, pte_of.
    assert (PDX va = 0 /\ PTX va = 0) as [-> ->].
    { destruct (PDX_spec va ltac:(lia)) as [-> _], (PTX_spec va ltac:(lia)) as [-> _]. by rewrite !Z.div_small by lia. }
    match goal with |- is_Some (_ ← ?o; _) => assert (o = Some 0x304007) as -> by (vm_compute; reflexivity) end.
    by eexists.
Qed.

Lemma argptr_checks_witness :
  let _ := demo_linkage in let _ : Fuel := 1%nat in
  fetches (argptr 0 3) demo_user (Some 0x200) 0 [] true 0 demo_user_proc.
Proof. intros H F. apply (argptr_checks demo_user 0 3 0 [] true 0 demo_user_proc); [apply demo_in_user|lia]. Defined.

Lemma argstr_checks_witness :
  let _ := demo_linkage in let _ : Fuel := 1%nat in
  exists o, fetches (argstr 0) demo_user o 0 [] true 0 demo_user_proc /\ user_string demo_user demo_user_proc 0x200 o.
Proof. intros H F. apply (argstr_checks demo_user 0 0 [] true 0 demo_user_proc). apply demo_in_user. Defined.

(** [growproc(-sz)], the shrinking of a process to nothing, reports failure and
    leaves [sz] as it was after all the pages have been freed and unmapped:
    [deallocuvm] returns the new size 0, which [growproc] takes for an error. *)
Definition demo_shrink : kernel :=
  set_k_pt (mkPtable [set_pgdir 0x80302000 demo_user_proc] [] []) demo_user.
Theorem growproc_to_zero :
  let _ := demo_linkage in let _ : Fuel := 1%nat in let _ : Serial := false in
  match growproc (- PGSIZE) demo_shrink with
  | Done r s' => r = -1 /\ (sz <$> get_proc 0 (k_pt s')) = Some PGSIZE /\
      translate (k_mem demo_shrink) 0x80302000 0x200 = Some 0x80304200 /\ translate (k_mem s') 0x80302000 0x200 = None
  | _ => False
  end.
Proof. vm_compute. repeat split; reflexivity. Qed.
