(* ===== verification/Exec.v ===== *)
(** * Program loading ([kernel/exec.c], [loaduvm] of [kernel/vm.c])

    [exec] reads an ELF file into a new page table, builds the user stack with
    the arguments, and only then replaces the image of the process; every
    failure before that point frees the new page table and leaves the process
    as it was. *)
From S2P Require Import Prelude Types Str Spinlock Queue Kalloc Sched Context Sleeplock Pipe Bio Log Console Vm Fs File Proc.

Definition MAXARG : nat := 32.
Definition ELF_MAGIC : Z := 0x464C457F.
Definition ELF_PROG_LOAD : Z := 1.

(** [struct elfhdr] (52 bytes) and [struct proghdr] (32 bytes). *)
Record elfhdr := mkElf { e_magic : Z; e_entry : Z; e_phoff : Z; e_phnum : Z }.
Definition sizeof_elfhdr : Z := 52.
Definition get_elf (l : list Z) : elfhdr := mkElf (word l 0) (word l 6) (word l 7) (half l 44).
Record proghdr := mkPh { ph_type : Z; ph_off : Z; ph_vaddr : Z; ph_filesz : Z; ph_memsz : Z }.
Definition sizeof_proghdr : Z := 32.
Definition get_ph (l : list Z) : proghdr := mkPh (word l 0) (word l 1) (word l 2) (word l 4) (word l 5).

(** A word as four bytes. *)
Definition word_le (v : Z) : list Z := [u8 v; u8 (v / 2 ^ 8); u8 (v / 2 ^ 16); u8 (v / 2 ^ 24)].

(** The path after its last slash. *)
Fixpoint basename (last path : list Z) : list Z :=
  match path with
  | [] => last
  | c :: path' => basename (if c =? slash then path' else last) path'
  end.

Section code.
Context `{Linkage} `{Fuel} `{Disk} `{Serial} `{DevSw}.

(** The loop of [loaduvm] from byte [i] of the segment. *)
Fixpoint load_pages (n : nat) (pgdir addr : Z) (ip : nat) (offset sz i : Z) : K Z :=
  if negb (i <? sz) then ret 0 else
  pte <- walkpgdir pgdir (u32 (addr + i)) false ;;
  if pte =? 0 then panic "loaduvm: address should exist" else
  e <- gets (fun s => load32 (k_mem s) pte) ;;
  let pa := PTE_ADDR e in
  let m := if sz - i <? PGSIZE then sz - i else PGSIZE in
  let* (r, l) := readi ip (u32 (offset + i)) m in
  vstore_bytes (P2V pa) l ;;
  if negb (r =? m) then ret (-1) else
  match n with
  | O => stopm NoFuel
  | S n' => load_pages n' pgdir addr ip offset sz (u32 (i + PGSIZE))
  end.
Definition loaduvm (pgdir addr : Z) (ip : nat) (offset sz : Z) : K Z :=
  if negb (addr mod PGSIZE =? 0) then panic "loaduvm: addr must be page aligned" else
  load_pages (S (Z.to_nat (sz / PGSIZE))) pgdir addr ip offset sz 0.

(** The loop of [exec] over the program headers: the size of the image, or
    [None] for [goto bad]. *)
Fixpoint load_segments (n : nat) (ip : nat) (pgdir off sz : Z) : K (option Z) :=
  match n with
  | O => ret (Some sz)
  | S n' =>
      let* (r, l) := readi ip (u32 off) sizeof_proghdr in
      if negb (r =? sizeof_proghdr) then ret None else
      let ph := get_ph l in
      if negb (ph_type ph =? ELF_PROG_LOAD) then load_segments n' ip pgdir (i32 (off + sizeof_proghdr)) sz else
      if ph_memsz ph <? ph_filesz ph then ret None else
      if u32 (ph_vaddr ph + ph_memsz ph) <? ph_vaddr ph then ret None else
      sz' <- allocuvm pgdir sz (u32 (ph_vaddr ph + ph_memsz ph)) ;;
      if sz' =? 0 then ret None else
      if negb (ph_vaddr ph mod PGSIZE =? 0) then ret None else
      r <- loaduvm pgdir (ph_vaddr ph) ip (ph_off ph) (ph_filesz ph) ;;
      if r <? 0 then ret None else
      load_segments n' ip pgdir (i32 (off + sizeof_proghdr)) sz'
  end.

(** From the ELF header to the end of that loop, with [ip] locked: the new
    page table (0 if none) and, unless [goto bad], the entry point and size. *)
Definition load_image (ip : nat) : K (Z * option (Z * Z)) :=
  let* (r, l) := readi ip 0 sizeof_elfhdr in
  if negb (r =? sizeof_elfhdr) then ret (0, None) else
  let elf := get_elf l in
  if negb (e_magic elf =? ELF_MAGIC) then ret (0, None) else
  pgdir <- setupkvm ;;
  if pgdir =? 0 then ret (0, None) else
  o <- load_segments (Z.to_nat (e_phnum elf)) ip pgdir (i32 (e_phoff elf)) 0 ;;
  ret (pgdir, (fun sz => (e_entry elf, sz)) <$> o).

(** The loop that pushes the argument strings: the stack pointer and the
    addresses of the strings. *)
Fixpoint push_args (pgdir : Z) (argv : list (list Z)) (argc : nat) (sp : Z) : K (option (Z * list Z)) :=
  match argv with
  | [] => ret (Some (sp, []))
  | a :: argv' =>
      if (MAXARG <=? argc)%nat then ret None else
      let sp := Z.land (u32 (sp - (Z.of_nat (length a) + 1))) (u32 (Z.lnot 3)) in
      r <- copyout pgdir sp (a ++ [0]) ;;
      if r <? 0 then ret None else
      o <- push_args pgdir argv' (S argc) sp ;;
      ret ((fun '(sp', l) => (sp', sp :: l)) <$> o)
  end.

(** The user stack: the final stack pointer, or [None] for [goto bad]. *)
Definition build_stack (pgdir sz : Z) (argv : list (list Z)) : K (option Z) :=
  o <- push_args pgdir argv 0 sz ;;
  match o with
  | None => ret None
  | Some (sp, ustack) =>
      let argc := Z.of_nat (length argv) in
      let frame := [0xffffffff; argc; u32 (sp - (argc + 1) * 4)] ++ ustack ++ [0] in
      let sp := u32 (sp - (3 + argc + 1) * 4) in
      r <- copyout pgdir sp (mjoin (word_le <$> frame)) ;;
      if r <? 0 then ret None else ret (Some sp)
  end.

Definition exec (path : list Z) (argv : list (list Z)) : K Z :=
  p <- curproc ;;
  begin_op ;;
  o <- namei path ;;
  match o with
  | None => end_op ;; cprintf (bytes "exec: fail" ++ [10]) [] ;; ret (-1)
  | Some ip =>
      ilock ip ;;
      let* (pd, img) := load_image ip in
      match img with
      | None =>
          whenm (negb (pd =? 0)) (freevm pd) ;;
          iunlockput ip ;;
          end_op ;;
          ret (-1)
      | Some (entry, sz) =>
          iunlockput ip ;;
          end_op ;;
          let sz := PGROUNDUP sz in
          sz <- allocuvm pd sz (u32 (sz + 2 * PGSIZE)) ;;
          if sz =? 0 then freevm pd ;; ret (-1) else
          clearpteu pd (u32 (sz - 2 * PGSIZE)) ;;
          o <- build_stack pd sz argv ;;
          match o with
          | None => freevm pd ;; ret (-1)
          | Some sp =>
              proc_set p (fun pr => set_p_name (copy_name (p_name pr) (basename path path)) pr) ;;
              old <- proc_get p pgdir ;;
              proc_set p (set_pgdir pd) ;;
              proc_set p (set_sz sz) ;;
              t <- proc_get p tf ;;
              modify (upd_mem (store32 (t + tf_eip) entry)) ;;
              modify (upd_mem (store32 (t + tf_esp) sp)) ;;
              switchuvm (Some p) ;;
              freevm old ;;
              ret 0
          end
      end
  end.

End code.
