(* ===== verification/Sysfile.v ===== *)
(** * File system calls ([kernel/sysfile.c])

    Each call checks its arguments, opens a transaction where it may write, and
    closes it on every path.  A call that reads stores the bytes in the memory
    of the process when it has them; a call that writes fetches them first. *)
From S2P Require Import Prelude Types Str Spinlock Queue Kalloc Sched Context Sleeplock Pipe Bio Log Console Vm Fs File Proc Syscall Exec.

Definition O_RDONLY : Z := 0.
Definition O_WRONLY : Z := 1.
Definition O_RDWR : Z := 2.
Definition O_CREATE : Z := 0x200.
Definition dot : list Z := [46].
Definition dotdot : list Z := [46; 46].

(** The lowest free file descriptor. *)
Fixpoint free_fd (i : nat) (l : list (option nat)) : option nat :=
  match l with
  | [] => None
  | None :: _ => Some i
  | Some _ :: l' => free_fd (S i) l'
  end.

Section code.
Context `{Linkage} `{Fuel} `{Disk} `{Serial} `{DevSw}.

(** The descriptor and the file. *)
Definition argfd (n : Z) : K (option (nat * nat)) :=
  o <- argint n ;;
  match o with
  | None => ret None
  | Some fd =>
      if (fd <? 0) || (Z.of_nat NOFILE <=? fd) then ret None else
      p <- curproc ;;
      l <- proc_get p ofile ;;
      f <- of_option "ofile" (l !! Z.to_nat fd) ;;
      ret ((fun f => (Z.to_nat fd, f)) <$> f)
  end.

Definition fdalloc (f : nat) : K (option nat) :=
  p <- curproc ;;
  l <- proc_get p ofile ;;
  match free_fd 0 (take NOFILE l) with
  | None => ret None
  | Some fd => proc_set p (fun pr => set_ofile (<[fd := Some f]> (ofile pr)) pr) ;; ret (Some fd)
  end.

Definition sys_dup : K Z :=
  o <- argfd 0 ;;
  match o with
  | None => ret (-1)
  | Some (_, f) =>
      o <- fdalloc f ;;
      match o with
      | None => ret (-1)
      | Some fd => filedup f ;; ret (Z.of_nat fd)
      end
  end.

(** The arguments [(fd, p, n)] of [read] and [write]. *)
Definition arg_buffer : K (option (nat * Z * Z)) :=
  o <- argfd 0 ;;
  match o with
  | None => ret None
  | Some (_, f) =>
      o <- argint 2 ;;
      match o with
      | None => ret None
      | Some n =>
          o <- argptr 1 n ;;
          ret ((fun p => (f, p, n)) <$> o)
      end
  end.

Definition sys_read : K Z :=
  o <- arg_buffer ;;
  match o with
  | None => ret (-1)
  | Some (f, p, n) =>
      let* (r, l) := fileread f n in
      vstore_bytes p l ;;
      ret r
  end.

Definition sys_write : K Z :=
  o <- arg_buffer ;;
  match o with
  | None => ret (-1)
  | Some (f, p, n) =>
      l <- vload_bytes p (Z.to_nat n) ;;
      filewrite f l
  end.

Definition sys_close : K Z :=
  o <- argfd 0 ;;
  match o with
  | None => ret (-1)
  | Some (fd, f) =>
      p <- curproc ;;
      proc_set p (fun pr => set_ofile (<[fd := None]> (ofile pr)) pr) ;;
      fileclose f ;;
      ret 0
  end.

(** [struct stat] has 20 bytes. *)
Definition sizeof_stat : Z := 20.
Definition store_stat (a : Z) (st : stat) : K unit :=
  vstore8 a (st_type st) ;;
  vstore8 (a + 1) (st_type st / 2 ^ 8) ;;
  vstore32 (a + 4) (st_dev st) ;;
  vstore32 (a + 8) (st_ino st) ;;
  vstore8 (a + 12) (st_nlink st) ;;
  vstore8 (a + 13) (st_nlink st / 2 ^ 8) ;;
  vstore32 (a + 16) (st_size st).
Definition sys_fstat : K Z :=
  o <- argfd 0 ;;
  match o with
  | None => ret (-1)
  | Some (_, f) =>
      o <- argptr 1 sizeof_stat ;;
      match o with
      | None => ret (-1)
      | Some a =>
          o <- filestat f ;;
          match o with
          | None => ret (-1)
          | Some st => store_stat a st ;; ret 0
          end
      end
  end.

(** The label [bad] of [sys_link]. *)
Definition unlink_again (ip : nat) : K Z :=
  ilock ip ;;
  ip_set ip (fun x => set_nlink (i16 (nlink x - 1)) x) ;;
  iupdate ip ;;
  iunlockput ip ;;
  end_op ;;
  ret (-1).

Definition sys_link : K Z :=
  o <- argstr 0 ;;
  match o with
  | None => ret (-1)
  | Some old =>
      o <- argstr 1 ;;
      match o with
      | None => ret (-1)
      | Some new =>
          begin_op ;;
          o <- namei old ;;
          match o with
          | None => end_op ;; ret (-1)
          | Some ip =>
              ilock ip ;;
              t <- ip_get ip i_type ;;
              if t =? T_DIR then iunlockput ip ;; end_op ;; ret (-1) else
              ip_set ip (fun x => set_nlink (i16 (nlink x + 1)) x) ;;
              iupdate ip ;;
              iunlock ip ;;
              o <- nameiparent new ;;
              match o with
              | None => unlink_again ip
              | Some (dp, name) =>
                  ilock dp ;;
                  d1 <- ip_get dp i_dev ;;
                  d2 <- ip_get ip i_dev ;;
                  ino <- ip_get ip inum ;;
                  r <- (if negb (d1 =? d2) then ret (-1) else dirlink dp name ino) ;;
                  iunlockput dp ;;
                  if r <? 0 then unlink_again ip else
                  iput ip ;;
                  end_op ;;
                  ret 0
              end
          end
      end
  end.

(** The loop of [isdirempty], past the entries [.] and [..]. *)
Fixpoint isempty_loop (n : nat) (dp : nat) (off : Z) : K bool :=
  size <- ip_get dp i_size ;;
  if negb (off <? size) then ret true else
  let* (r, de) := readi dp off sizeof_dirent in
  if negb (r =? sizeof_dirent) then panic "isdirempty: readi" else
  if negb (dirent_inum de =? 0) then ret false else
  match n with
  | O => stopm NoFuel
  | S n' => isempty_loop n' dp (off + sizeof_dirent)
  end.
Definition isdirempty (dp : nat) : K bool :=
  size <- ip_get dp i_size ;;
  isempty_loop (S (Z.to_nat (size / sizeof_dirent))) dp (2 * sizeof_dirent).

(** [unlink] once the entry at offset [off] of [dp] names [ip], both locked:
    tells whether the entry was removed. *)
Definition remove_entry (dp ip : nat) (off : Z) : K bool :=
  n <- ip_get ip nlink ;;
  if n <? 1 then panic "unlink: nlink < 1" else
  t <- ip_get ip i_type ;;
  e <- (if t =? T_DIR then isdirempty ip else ret true) ;;
  if negb e then iunlockput ip ;; ret false else
  r <- writei dp (replicate (Z.to_nat sizeof_dirent) 0) off ;;
  if negb (r =? sizeof_dirent) then panic "unlink: writei" else
  whenm (t =? T_DIR)
    (ip_set dp (fun x => set_nlink (i16 (nlink x - 1)) x) ;;
     iupdate dp) ;;
  iunlockput dp ;;
  ip_set ip (fun x => set_nlink (i16 (nlink x - 1)) x) ;;
  iupdate ip ;;
  iunlockput ip ;;
  ret true.

Definition sys_unlink : K Z :=
  o <- argstr 0 ;;
  match o with
  | None => ret (-1)
  | Some path =>
      begin_op ;;
      o <- nameiparent path ;;
      match o with
      | None => end_op ;; ret (-1)
      | Some (dp, name) =>
          ilock dp ;;
          ok <- (if (namecmp name dot =? 0) || (namecmp name dotdot =? 0) then ret false else
                 o <- dirlookup dp name ;;
                 match o with
                 | None => ret false
                 | Some (ip, off) => ilock ip ;; remove_entry dp ip off
                 end) ;;
          if ok : bool then end_op ;; ret 0
          else iunlockput dp ;; end_op ;; ret (-1)
      end
  end.

Definition create (path : list Z) (type major minor : Z) : K (option nat) :=
  o <- nameiparent path ;;
  match o with
  | None => ret None
  | Some (dp, name) =>
      ilock dp ;;
      o <- dirlookup dp name ;;
      match o with
      | Some (ip, _) =>
          iunlockput dp ;;
          ilock ip ;;
          t <- ip_get ip i_type ;;
          if (type =? T_FILE) && (t =? T_FILE) then ret (Some ip) else
          iunlockput ip ;; ret None
      | None =>
          dev <- ip_get dp i_dev ;;
          ip <- ialloc dev type ;;
          ilock ip ;;
          ip_set ip (fun x => set_nlink 1 (set_minor minor (set_major major x))) ;;
          iupdate ip ;;
          ino <- ip_get ip inum ;;
          whenm (type =? T_DIR)
            (ip_set dp (fun x => set_nlink (i16 (nlink x + 1)) x) ;;
             iupdate dp ;;
             dino <- ip_get dp inum ;;
             r <- dirlink ip dot ino ;;
             r' <- (if r <? 0 then ret (-1) else dirlink ip dotdot dino) ;;
             if r' <? 0 then panic "create dots" else ret tt) ;;
          r <- dirlink dp name ino ;;
          if r <? 0 then panic "create: dirlink" else
          iunlockput dp ;;
          ret (Some ip)
      end
  end.

(** The inode to open, locked; otherwise the transaction has been closed. *)
Definition open_inode (path : list Z) (omode : Z) : K (option nat) :=
  if bit_of omode O_CREATE then
    o <- create path T_FILE 0 0 ;;
    match o with
    | None => end_op ;; ret None
    | Some ip => ret (Some ip)
    end
  else
    o <- namei path ;;
    match o with
    | None => end_op ;; ret None
    | Some ip =>
        ilock ip ;;
        t <- ip_get ip i_type ;;
        if (t =? T_DIR) && negb (omode =? O_RDONLY) then iunlockput ip ;; end_op ;; ret None
        else ret (Some ip)
    end.

Definition b2z (b : bool) : Z := if b then 1 else 0.

Definition sys_open : K Z :=
  o <- argstr 0 ;;
  match o with
  | None => ret (-1)
  | Some path =>
      o <- argint 1 ;;
      match o with
      | None => ret (-1)
      | Some omode =>
          begin_op ;;
          o <- open_inode path (u32 omode) ;;
          match o with
          | None => ret (-1)
          | Some ip =>
              fo <- filealloc ;;
              fd <- match fo with None => ret None | Some f => fdalloc f end ;;
              match fo, fd with
              | Some f, Some fd =>
                  iunlock ip ;;
                  end_op ;;
                  file_set f (fun x => set_f_off 0 (set_f_ip (Some ip) (set_f_type FD_INODE x))) ;;
                  file_set f (set_readable (b2z (negb (bit_of (u32 omode) O_WRONLY)))) ;;
                  file_set f (set_writable (b2z (bit_of (u32 omode) O_WRONLY || bit_of (u32 omode) O_RDWR))) ;;
                  ret (Z.of_nat fd)
              | _, _ =>
                  close_opt fo ;;
                  iunlockput ip ;;
                  end_op ;;
                  ret (-1)
              end
          end
      end
  end.

(** The end of [mkdir] and [mknod]. *)
Definition finish_create (o : option nat) : K Z :=
  match o with
  | None => end_op ;; ret (-1)
  | Some ip => iunlockput ip ;; end_op ;; ret 0
  end.

Definition sys_mkdir : K Z :=
  begin_op ;;
  o <- argstr 0 ;;
  o <- match o with None => ret None | Some path => create path T_DIR 0 0 end ;;
  finish_create o.

Definition sys_mknod : K Z :=
  begin_op ;;
  o <- argstr 0 ;;
  o <- match o with
       | None => ret None
       | Some path =>
           o <- argint 1 ;;
           match o with
           | None => ret None
           | Some mj =>
               o <- argint 2 ;;
               match o with
               | None => ret None
               | Some mn => create path T_DEV (i16 mj) (i16 mn)
               end
           end
       end ;;
  finish_create o.

Definition sys_chdir : K Z :=
  p <- curproc ;;
  begin_op ;;
  o <- argstr 0 ;;
  o <- match o with None => ret None | Some path => namei path end ;;
  match o with
  | None => end_op ;; ret (-1)
  | Some ip =>
      ilock ip ;;
      t <- ip_get ip i_type ;;
      if negb (t =? T_DIR) then iunlockput ip ;; end_op ;; ret (-1) else
      iunlock ip ;;
      c <- proc_get p cwd ;;
      c <- of_option "cwd" c ;;
      iput c ;;
      end_op ;;
      proc_set p (set_cwd (Some ip)) ;;
      ret 0
  end.

(** The loop of [sys_exec] that fetches [argv], at most [MAXARG] words. *)
Fixpoint fetch_argv (n : nat) (uargv i : Z) : K (option (list (list Z))) :=
  match n with
  | O => ret None
  | S n' =>
      o <- fetchint (u32 (uargv + 4 * i)) ;;
      match o with
      | None => ret None
      | Some a =>
          if u32 a =? 0 then ret (Some []) else
          o <- fetchstr (u32 a) ;;
          match o with
          | None => ret None
          | Some s => o <- fetch_argv n' uargv (i + 1) ;; ret (cons s <$> o)
          end
      end
  end.
Definition sys_exec : K Z :=
  o <- argstr 0 ;;
  match o with
  | None => ret (-1)
  | Some path =>
      o <- argint 1 ;;
      match o with
      | None => ret (-1)
      | Some uargv =>
          o <- fetch_argv MAXARG (u32 uargv) 0 ;;
          match o with
          | None => ret (-1)
          | Some argv => exec path argv
          end
      end
  end.

Definition clear_fd (fd : nat) : K unit :=
  p <- curproc ;;
  proc_set p (fun pr => set_ofile (<[fd := None]> (ofile pr)) pr).
Definition sys_pipe : K Z :=
  o <- argptr 0 8 ;;
  match o with
  | None => ret (-1)
  | Some a =>
      o <- pipealloc ;;
      match o with
      | None => ret (-1)
      | Some (rf, wf) =>
          fd0 <- fdalloc rf ;;
          fd1 <- match fd0 with None => ret None | Some _ => fdalloc wf end ;;
          match fd0, fd1 with
          | Some x, Some y => vstore32 a (Z.of_nat x) ;; vstore32 (a + 4) (Z.of_nat y) ;; ret 0
          | _, _ =>
              match fd0 with Some x => clear_fd x | None => ret tt end ;;
              fileclose rf ;;
              fileclose wf ;;
              ret (-1)
          end
      end
  end.

End code.

(** ** Dispatch ([syscall] of [kernel/syscall.c]) *)
Section dispatch.
Context `{Linkage} `{Fuel} `{Disk} `{Serial} `{DevSw}.

(** The table [syscalls], by the numbers of [libs/syscall.h]. *)
Definition syscalls (num : Z) : option (K Z) :=
  match num with
  | 1 => Some sys_fork | 2 => Some sys_exit | 3 => Some sys_wait | 4 => Some sys_pipe
  | 5 => Some sys_read | 6 => Some sys_kill | 7 => Some sys_exec | 8 => Some sys_fstat
  | 9 => Some sys_chdir | 10 => Some sys_dup | 11 => Some sys_getpid | 12 => Some sys_sbrk
  | 13 => Some sys_sleep | 14 => Some sys_uptime | 15 => Some sys_open | 16 => Some sys_write
  | 17 => Some sys_mknod | 18 => Some sys_unlink | 19 => Some sys_link | 20 => Some sys_mkdir
  | 21 => Some sys_close | _ => None
  end.

Definition do_syscall : K unit :=
  p <- curproc ;;
  t <- proc_get p tf ;;
  num <- gets (fun s => i32 (load32 (k_mem s) (t + tf_eax))) ;;
  match syscalls num with
  | Some f =>
      r <- f ;;
      t <- proc_get p tf ;;
      modify (upd_mem (store32 (t + tf_eax) (u32 r)))
  | None =>
      i <- proc_get p pid ;;
      nm <- proc_get p p_name ;;
      cprintf (bytes "%d %s: unknown sys call %d" ++ [10]) [AInt i; AStr (Some nm); AInt num] ;;
      t <- proc_get p tf ;;
      modify (upd_mem (store32 (t + tf_eax) (u32 (-1))))
  end.

End dispatch.
