(* ===== verification/Ide.v ===== *)
(** * The IDE disk driver ([kernel/ide.c])

    The queue of requests: [idequeue] is the buffer being transferred, linked
    by [qnext] to those that wait.  The device is described by the blocks of
    disk 1, the file system's: a write command with its data changes a block,
    and the data register delivers the block of a read command; a command for
    disk 0, the boot disk, is outside the model ([Fault]).  The theorems show
    that the links represent a queue of requests served first come, first
    served. *)
From S2P Require Import Prelude Types Str Spinlock Queue Sched Context Sleeplock Bio.

(** What [ideinit] found, and whether the device reports an error when
    [ideintr] asks ([idewait(1)]). *)
Class Ide := {
  havedisk1 : bool;
  ide_error : kernel -> bool }.

(** The loop of [iderw] that finds the last request: the buffer to link from,
    [None] when the queue is empty. *)
Fixpoint last_request (n : nat) (bufs : list buf) (prev : option nat) (i : option nat) : option (option nat) :=
  match i with
  | None => Some prev
  | Some j =>
      match n with
      | O => None
      | S n' => x ← bufs !! j; last_request n' bufs (Some j) (qnext x)
      end
  end.

Section code.
Context `{Fuel} `{Ide}.

Definition SECTOR_SIZE : Z := 512.

(** [idestart]: the command is sent to the drive of the request. *)
Definition idestart (io : option nat) : K unit :=
  match io with
  | None => panic "idestart"
  | Some i =>
      bn <- buf_get i blockno ;;
      if FSSIZE <=? bn then panic "incorrect blockno" else
      if 7 <? BSIZE / SECTOR_SIZE then panic "idestart" else
      dv <- buf_get i b_dev ;;
      if Z.land dv 1 =? 0 then stopm (Fault "disk 0") else
      fl <- buf_get i b_flags ;;
      dt <- buf_get i b_data ;;
      whenm (flag fl B_DIRTY) (modify (put_block (bn * (BSIZE / SECTOR_SIZE)) dt))
  end.

Definition ideintr_ : K unit :=
  acquire L_idelock ;;
  io <- gets k_idequeue ;;
  match io with
  | None => release L_idelock
  | Some i =>
      q <- buf_get i qnext ;;
      modify (set_k_idequeue q) ;;
      fl <- buf_get i b_flags ;;
      e <- gets ide_error ;;
      whenm (negb (flag fl B_DIRTY) && negb e)
        (bn <- buf_get i blockno ;;
         o <- gets (fun s => k_disk s !! Z.to_nat bn) ;;
         dt <- of_option "disk" o ;;
         buf_set i (set_b_data dt)) ;;
      buf_set i (fun x => set_b_flags (Z.lor (b_flags x) B_VALID) x) ;;
      buf_set i (fun x => set_b_flags (Z.land (b_flags x) (Z.lnot B_DIRTY)) x) ;;
      wakeup (Some (C_buf i)) ;;
      q <- gets k_idequeue ;;
      whenm (bool_decide (q <> None)) (idestart q) ;;
      release L_idelock
  end.

(** [while((b->flags & (B_VALID|B_DIRTY)) != B_VALID) sleep(b, &idelock);] *)
Fixpoint wait_done (n : nat) (i : nat) : K unit :=
  fl <- buf_get i b_flags ;;
  if Z.land fl (Z.lor B_VALID B_DIRTY) =? B_VALID then ret tt else
  match n with
  | O => stopm NoFuel
  | S n' => sleep (Some (C_buf i)) (Some L_idelock) ;; wait_done n' i
  end.

(** [*pp = b] at the end of the queue. *)
Definition append_request (i : nat) : K unit :=
  buf_set i (set_qnext None) ;;
  q <- gets k_idequeue ;;
  bufs <- gets k_bufs ;;
  o <- of_option "idequeue" (last_request (S NBUF) bufs None q) ;;
  match o with
  | None => modify (set_k_idequeue (Some i))
  | Some j => buf_set j (set_qnext (Some i))
  end.

Definition ide_rw (i : nat) : K unit :=
  h <- holdingsleep (SL_buf i) ;;
  if negb h then panic "iderw: buf not locked" else
  fl <- buf_get i b_flags ;;
  if Z.land fl (Z.lor B_VALID B_DIRTY) =? B_VALID then panic "iderw: nothing to do" else
  dv <- buf_get i b_dev ;;
  if negb (dv =? 0) && negb havedisk1 then panic "iderw: ide disk 1 not present" else
  acquire L_idelock ;;
  append_request i ;;
  q <- gets k_idequeue ;;
  whenm (bool_decide (q = Some i)) (idestart (Some i)) ;;
  wait_done fuel i ;;
  release L_idelock.

Definition ide_disk : Disk := ide_rw.

End code.

(** ** The queue of requests *)
Section queue.
Implicit Types (bufs : list buf) (o : option nat) (q : list nat) (i j : nat) (x : buf) (s : kernel).

(** The links from [o] lead through the buffers of [q], in order. *)
Fixpoint linked bufs o q : Prop :=
  match q with
  | [] => o = None
  | i :: q' => o = Some i /\ exists x, bufs !! i = Some x /\ linked bufs (qnext x) q'
  end.
Definition requests s q : Prop := linked (k_bufs s) (k_idequeue s) q /\ NoDup q.

Lemma linked_ext bufs bufs' q : forall o,
  (forall i, i ∈ q -> qnext <$> bufs' !! i = qnext <$> bufs !! i) -> linked bufs o q -> linked bufs' o q.
Proof.
  induction q as [|i q IH]; intros o Hb; cbn [linked]; [done|]. intros (-> & x & Hx & Hl). split; [done|].
  pose proof (Hb i ltac:(left)) as Hi. rewrite Hx in Hi. destruct (bufs' !! i) as [x'|]; [|done]. injection Hi as Ei.
  exists x'. rewrite Ei. split; [done|]. apply IH; [|done]. intros j Hj. apply Hb. by right.
Qed.

Lemma linked_bound bufs q : forall o i, linked bufs o q -> i ∈ q -> (i < length bufs)%nat.
Proof.
  induction q as [|j q IH]; intros o i Hl Hi; [by apply elem_of_nil in Hi|]. destruct Hl as (_ & x & Hx & Hl).
  apply elem_of_cons in Hi as [->|Hi]; [by eapply lookup_lt_Some|by eapply IH].
Qed.

Lemma last_request_ok bufs q : forall n prev o,
  linked bufs o q -> (length q <= n)%nat -> last_request n bufs prev o = Some (match last q with Some j => Some j | None => prev end).
Proof.
  induction q as [|i q IH]; intros n prev o Hl Hn; cbn in Hl.
  - subst o. by destruct n.
  - destruct Hl as (-> & x & Hx & Hl). destruct n as [|n]; [cbn in Hn; lia|]. cbn [last_request]. rewrite Hx. cbn [mbind option_bind].
    rewrite (IH n (Some i) (qnext x) Hl) by (cbn in Hn; lia). rewrite last_cons. by destruct (last q).
Qed.

(** A buffer linked behind the last one. *)
Lemma linked_snoc bufs q i x : forall o,
  linked bufs o q -> NoDup q -> i ∉ q -> bufs !! i = Some x -> qnext x = None ->
  match last q with
  | Some j => forall y, bufs !! j = Some y -> linked (<[j := set_qnext (Some i) y]> bufs) o (q ++ [i])
  | None => linked bufs (Some i) (q ++ [i])
  end.
Proof.
  induction q as [|k q IH]; intros o Hl Hnd Hi Hx Hq.
  { cbn. split; [done|]. by exists x. }
  destruct Hl as (-> & z & Hz & Hl). apply NoDup_cons in Hnd as [Hk Hnd]. apply not_elem_of_cons in Hi as [Hik Hi].
  specialize (IH (qnext z) Hl Hnd Hi Hx Hq). rewrite last_cons. destruct (last q) as [j|] eqn:Ej.
  - intros y Hy. split; [done|]. exists z. split; [|by apply IH]. rewrite list_lookup_insert_ne; [done|].
    intros ->. apply Hk. apply last_Some in Ej as [q' ->]. apply elem_of_app. right. by left.
  - apply last_None in Ej as ->. intros y Hy. cbn. rewrite Hz in Hy. injection Hy as <-. split; [done|]. exists (set_qnext (Some i) z).
    rewrite list_lookup_insert_eq by (by eapply lookup_lt_Some). split; [done|]. split; [done|]. exists x. by rewrite list_lookup_insert_ne.
Qed.

End queue.

Section rules.
Context `{Fuel} `{Ide} (c : nat) (b : bool) (p : nat) (d : proc).
Implicit Types (q : list nat) (i j : nat) (x : buf) (s : kernel).

(** Only the links of the buffers and the head of the queue changed. *)
Definition relinked s s' : Prop :=
  s' = set_k_idequeue (k_idequeue s') (set_k_bufs (k_bufs s') s) /\
  set_qnext None <$> k_bufs s' = set_qnext None <$> k_bufs s.

Lemma append_request_runs s q i L :
  requests s q -> i ∉ q -> (i < length (k_bufs s))%nat -> (length q <= NBUF)%nat ->
  runs c b p d L L (append_request i) s (fun _ s' => requests s' (q ++ [i]) /\ relinked s s').
Proof.
  intros [Hl Hnd] Hi Hib Hq. unfold append_request. apply runs_buf_set; [done|]. set (x := set_qnext None (k_bufs s !!! i)).
  assert (linked (k_bufs (put_buf i x s)) (k_idequeue s) q) as Hl1.
  { apply (linked_ext (k_bufs s)); [|done]. intros j Hj. cbn. rewrite list_lookup_insert_ne by (intros ->; done). done. }
  assert (k_bufs (put_buf i x s) !! i = Some x) as Hx by (cbn; by apply list_lookup_insert_eq).
  assert (NoDup (q ++ [i])) as Hnd'.
  { apply NoDup_app. split_and!; [done| |apply NoDup_singleton]. intros j Hj. rewrite list_elem_of_singleton. intros ->. done. }
  assert (set_qnext None <$> k_bufs (put_buf i x s) = set_qnext None <$> k_bufs s) as Hs.
  { cbn. rewrite list_fmap_insert. apply list_insert_id. rewrite list_lookup_fmap, (list_lookup_lookup_total_lt _ _ Hib). done. }
  runs_step. rewrite (last_request_ok _ q) by (done || lia). runs_step.
  pose proof (linked_snoc _ q i x _ Hl1 Hnd Hi Hx eq_refl) as Hsn. destruct (last q) as [j|] eqn:Ej.
  - assert (j < length (k_bufs (put_buf i x s)))%nat as Hj.
    { eapply linked_bound; [exact Hl1|]. apply last_Some in Ej as [q' ->]. apply elem_of_app. right. by left. }
    apply runs_tail, runs_buf_set; [done|]. runs_step. split; [split; [apply Hsn, list_lookup_lookup_total_lt, Hj|done]|]. split; [by destruct s|].
    cbn in Hs |- *. rewrite list_fmap_insert, Hs. apply list_insert_id. rewrite <- Hs, list_lookup_fmap.
    cbn in Hj. rewrite (list_lookup_lookup_total_lt _ _ Hj). done.
  - apply runs_tail. runs_step. split; [by split|]. split; [by destruct s|done].
Qed.

(** The device does not see the CPU or the process table. *)
Context (device : forall s h t, ide_error (put h t s) = ide_error s).

(** A request the drive can serve. *)
Record request_ok s j : Prop := {
  rq_buf : (j < length (k_bufs s))%nat;
  rq_dev : Z.land (b_dev (k_bufs s !!! j)) 1 <> 0;
  rq_block : 0 <= blockno (k_bufs s !!! j) < FSSIZE;
  rq_disk : blockno (k_bufs s !!! j) < Z.of_nat (length (k_disk s)) }.

(** A write request changes the disk when it is started. *)
Definition started (o : option nat) s : kernel :=
  match o with
  | Some j => let x := k_bufs s !!! j in if flag (b_flags x) B_DIRTY then put_block (blockno x) (b_data x) s else s
  | None => s
  end.

(** The buffer when its request is done: a read one has the block's data. *)
Definition served (e : bool) (disk : list (list Z)) x : buf :=
  set_b_flags (Z.land (Z.lor (b_flags x) B_VALID) (Z.lnot B_DIRTY))
    (if negb (flag (b_flags x) B_DIRTY) && negb e then set_b_data (default [] (disk !! Z.to_nat (blockno x))) x else x).

Definition interrupted i (o : option nat) s : kernel :=
  started o (put_buf i (served (ide_error (set_k_idequeue o s)) (k_disk s) (k_bufs s !!! i)) (set_k_idequeue o s)).

Lemma idestart_runs {A} L L' (k : unit -> K A) s Q j :
  request_ok s j -> runs c b p d L L' (k tt) (started (Some j) s) Q -> runs c b p d L L' (y <- idestart (Some j) ;; k y) s Q.
Proof.
  intros [Hj Hdv Hb _] Hk. cbn [idestart started] in *. runs_step. apply runs_buf_get; [done|].
  rewrite (proj2 (Z.leb_gt _ _)) by lia. change (7 <? BSIZE / SECTOR_SIZE) with false. cbv iota. change (BSIZE / SECTOR_SIZE) with 1.
  runs_step. apply runs_buf_get; [done|]. rewrite (proj2 (Z.eqb_neq _ _)) by done. runs_step.
  do 2 (apply runs_buf_get; [done|]; runs_step). rewrite Z.mul_1_r. cbv zeta in Hk.
  destruct (flag _ _); [apply runs_when_true|apply runs_when_false]; by runs_step.
Qed.

Lemma ideintr_runs s i q :
  requests s (i :: q) -> request_ok s i -> (forall j, j ∈ q -> request_ok s j) ->
  runs c b p d [] [] ideintr_ s (fun _ s' => s' = interrupted i (head q) s).
Proof.
  intros [Hl Hnd] Hi Hq. pose proof Hi as [Hib _ Hbn Hdk]. destruct Hl as (Eq & x & Hx & Hl).
  pose proof (list_lookup_total_correct _ _ _ Hx) as Ex.
  assert (qnext x = head q) as En by (destruct q; [done|by destruct Hl]).
  unfold ideintr_. apply runs_acquire; [not_in|]. runs_step. rewrite Eq. apply runs_buf_get; [done|]. rewrite Ex, En. runs_step.
  apply runs_buf_get; [done|]. apply runs_gets; [intros h t; apply device|]. set (s1 := set_k_idequeue (head q) s).
  change (k_bufs s1 !!! i) with (k_bufs s !!! i). rewrite Ex. set (e := ide_error s1).
  destruct (lookup_lt_is_Some_2 (k_disk s) (Z.to_nat (blockno x))) as [blk Hblk]; [rewrite Ex in *; lia|].
  set (x' := if negb (flag (b_flags x) B_DIRTY) && negb e then set_b_data blk x else x).
  assert (runs c b p d [L_idelock] [] (
    buf_set i (fun x => set_b_flags (Z.lor (b_flags x) B_VALID) x) ;;
    buf_set i (fun x => set_b_flags (Z.land (b_flags x) (Z.lnot B_DIRTY)) x) ;;
    wakeup (Some (C_buf i)) ;; q <- gets k_idequeue ;; whenm (bool_decide (q <> None)) (idestart q) ;; release L_idelock)
    (put_buf i x' s1) (fun _ s' => s' = interrupted i (head q) s)) as Hrest.
  { apply runs_buf_set; [by rewrite put_buf_length|]. rewrite put_buf_lookup, put_buf_twice by done.
    apply runs_buf_set; [by rewrite put_buf_length|]. rewrite put_buf_lookup, put_buf_twice by done.
    apply runs_wakeup; [not_in|]. runs_step.
    set (s2 := put_buf i _ s1). assert (interrupted i (head q) s = started (head q) s2) as ->.
    { unfold interrupted, s2. fold s1 e. rewrite Ex. unfold served, x'. rewrite Hblk. cbn [default from_option]. by destruct (_ && _). }
    change (k_idequeue s2) with (head q). destruct q as [|j q].
    - apply runs_when_false. eapply runs_tail, runs_release; [done|]. by runs_step.
    - apply runs_when_true. apply idestart_runs; [|eapply runs_tail, runs_release; [done|]; by runs_step].
      destruct (Hq j ltac:(left)) as [Hj1 Hj2 Hj3 Hj4]. apply NoDup_cons in Hnd as [Hne _]. assert (i <> j) by (intros ->; apply Hne; by left).
      assert (k_bufs s2 !!! j = k_bufs s !!! j) as Ej by (by apply (put_buf_ne i j _ s1)).
      split; rewrite ?Ej; [unfold s2; by rewrite put_buf_length|done..]. }
  destruct (negb (flag (b_flags x) B_DIRTY) && negb e).
  - apply runs_when_true. runs_step. apply runs_buf_get; [done|]. change (k_bufs s1 !!! i) with (k_bufs s !!! i). rewrite Ex. runs_step.
    change (k_disk s1) with (k_disk s). rewrite Hblk. runs_step. apply runs_buf_set; [done|].
    change (k_bufs s1 !!! i) with (k_bufs s !!! i). rewrite Ex. exact Hrest.
  - apply runs_when_false. assert (put_buf i x' s1 = s1) as <-; [|exact Hrest].
    unfold put_buf, x'. rewrite list_insert_id by done. by destruct s.
Qed.

(** *** A batch of requests *)
Fixpoint interrupts (n : nat) : K unit :=
  match n with
  | O => ret tt
  | S n' => ideintr_ ;; interrupts n'
  end.

(** The writes of the requests [q], in order. *)
Definition batch_writes s q : list (Z * list Z) :=
  (fun j => (blockno (k_bufs s !!! j), b_data (k_bufs s !!! j))) <$> filter (fun j => flag (b_flags (k_bufs s !!! j)) B_DIRTY) q.

Lemma batch_writes_one s j :
  batch_writes s [j] = let x := k_bufs s !!! j in if flag (b_flags x) B_DIRTY then [(blockno x, b_data x)] else [].
Proof.
  unfold batch_writes. cbv zeta. destruct (flag (b_flags (k_bufs s !!! j)) B_DIRTY) eqn:Ef.
  - by rewrite filter_cons_True by (by rewrite Ef).
  - by rewrite filter_cons_False by (rewrite Ef; by intros []).
Qed.

(** What an interrupt leaves alone. *)
Lemma interrupted_spec s i q :
  requests s (i :: q) -> (forall j, j ∈ i :: q -> request_ok s j) ->
  let s' := interrupted i (head q) s in
  requests s' q /\ (forall j, j ∈ q -> request_ok s' j) /\ (forall j, j <> i -> k_bufs s' !!! j = k_bufs s !!! j) /\
  (b_flags (k_bufs s' !!! i) = Z.land (Z.lor (b_flags (k_bufs s !!! i)) B_VALID) (Z.lnot B_DIRTY)) /\
  k_writes s' = k_writes s ++ batch_writes s (option_list (head q)).
Proof.
  intros [(Eq & x & Hx & Hl) [Hi Hnd]%NoDup_cons] Hok s'. pose proof (rq_buf _ _ (Hok i ltac:(left))) as Hib.
  assert (qnext x = head q) as En by (destruct q; [done|by destruct Hl]).
  set (s2 := put_buf i (served (ide_error (set_k_idequeue (head q) s)) (k_disk s) (k_bufs s !!! i)) (set_k_idequeue (head q) s)).
  assert (forall o, k_bufs (started o s2) = k_bufs s2 /\ k_idequeue (started o s2) = head q /\ length (k_disk (started o s2)) = length (k_disk s)) as Hst.
  { intros [j|]; cbn [started]; [|done]. destruct (flag _ _); [|done]. cbn. by rewrite length_insert. }
  destruct (Hst (head q)) as (Eb & Ei & Ed). change (started (head q) s2) with s' in Eb, Ei, Ed.
  assert (forall j, j <> i -> k_bufs s' !!! j = k_bufs s !!! j) as Hne by (intros j Hj; rewrite Eb; unfold s2; by apply (put_buf_ne i j _ (set_k_idequeue (head q) s))).
  split_and!; [split; [|done]| |done| |].
  - rewrite Eb, Ei, <- En. apply (linked_ext (k_bufs s)); [|done]. intros j Hj. unfold s2. cbn. rewrite list_lookup_insert_ne by (intros ->; done). done.
  - intros j Hj. assert (j <> i) as Hji by (intros ->; done). destruct (Hok j ltac:(by right)) as [? ? ? ?].
    split; rewrite ?(Hne j Hji), ?Ed; [|done..]. rewrite Eb. unfold s2. by rewrite put_buf_length.
  - rewrite Eb. unfold s2. rewrite put_buf_lookup by done. unfold served. by destruct (_ && _).
  - unfold s', interrupted. fold s2. destruct q as [|j q]; cbn [head started]; [by rewrite app_nil_r|].
    change (option_list (Some j)) with [j]. rewrite batch_writes_one.
    assert (k_bufs s2 !!! j = k_bufs s !!! j) as -> by (rewrite <- Eb; apply Hne; intros ->; apply Hi; by left).
    cbv zeta. destruct (flag _ _); cbn; by rewrite ?app_nil_r.
Qed.

Lemma batch_writes_cons s j q : batch_writes s (j :: q) = batch_writes s [j] ++ batch_writes s q.
Proof. unfold batch_writes. change (j :: q) with ([j] ++ q). by rewrite filter_app, fmap_app. Qed.

Lemma batch_writes_ext s s' q : (forall j, j ∈ q -> k_bufs s' !!! j = k_bufs s !!! j) -> batch_writes s' q = batch_writes s q.
Proof.
  induction q as [|j q IH]; intros Hq; [done|]. rewrite (batch_writes_cons s'), (batch_writes_cons s), IH by (intros k Hk; apply Hq; by right).
  f_equal. rewrite !batch_writes_one. rewrite (Hq j); [done|left].
Qed.

Lemma interrupts_runs q : forall s,
  requests s q -> (forall j, j ∈ q -> request_ok s j) ->
  runs c b p d [] [] (interrupts (length q)) s (fun _ s' =>
    requests s' [] /\ k_writes s' = k_writes s ++ batch_writes s (tail q) /\
    (forall j, j ∈ q -> b_flags (k_bufs s' !!! j) = Z.land (Z.lor (b_flags (k_bufs s !!! j)) B_VALID) (Z.lnot B_DIRTY)) /\
    forall j, j ∉ q -> k_bufs s' !!! j = k_bufs s !!! j).
Proof.
  induction q as [|i q IH]; intros s Hr Hok; cbn [length interrupts].
  { apply runs_ret. split_and!; [done|by rewrite app_nil_r|intros j Hj; by apply elem_of_nil in Hj|done]. }
  destruct (interrupted_spec s i q Hr Hok) as (Hr' & Hok' & Hne & Hfl & Hw).
  eapply runs_bind, runs_mono; [apply (ideintr_runs s i q Hr); [apply Hok; left|intros j Hj; apply Hok; by right]|].
  intros [] s1 ->. set (s1 := interrupted i (head q) s) in *. eapply runs_mono; [by apply IH|].
  intros [] s2 (Hr2 & Hw2 & Hfl2 & Hne2). destruct Hr as [_ [Hi _]%NoDup_cons]. split_and!; [done| | |].
  - rewrite Hw2, Hw, <- app_assoc. f_equal. cbn [tail]. destruct q as [|j q]; [done|]. cbn [head tail]. change (option_list (Some j)) with [j].
    rewrite (batch_writes_ext s s1), <- batch_writes_cons; [done|]. intros k Hk. apply Hne. intros ->. apply Hi. by right.
  - intros j [->|Hj]%elem_of_cons; [by rewrite Hne2|]. rewrite Hfl2 by done. by rewrite Hne by (intros ->; done).
  - intros j [Hji Hj]%not_elem_of_cons. by rewrite Hne2, Hne.
Qed.


End rules.

(** ** The main property *)

(** C33: Requests to the IDE driver are served first come, first served.
    [iderw] appends its buffer to the queue and changes nothing else but links;
    the interrupts that follow complete the requests of the queue one by one:
    the disk sees the writes of the waiting requests in the order of the queue,
    every buffer of the queue ends valid and clean, and no other is touched. *)
Theorem ide_in_order `{Fuel} `{Ide} c b p d s q i L :
  (forall s h t, ide_error (put h t s) = ide_error s) ->
  requests s q -> i ∉ q -> (length q <= NBUF)%nat -> (forall j, j ∈ q ++ [i] -> request_ok s j) ->
  runs c b p d L L (append_request i) s (fun _ s' => requests s' (q ++ [i]) /\ relinked s s') /\
  runs c b p d [] [] (interrupts (length q)) s (fun _ s' =>
    requests s' [] /\ k_writes s' = k_writes s ++ batch_writes s (tail q) /\
    (forall j, j ∈ q -> b_flags (k_bufs s' !!! j) = Z.land (Z.lor (b_flags (k_bufs s !!! j)) B_VALID) (Z.lnot B_DIRTY)) /\
    forall j, j ∉ q -> k_bufs s' !!! j = k_bufs s !!! j).
Proof.
  intros Hdev Hr Hi Hlen Hok. split.
  - apply append_request_runs; [done|done| |done]. apply (rq_buf _ _ (Hok i ltac:(apply elem_of_app; right; by left))).
  - apply interrupts_runs; [done|done|]. intros j Hj. apply Hok, elem_of_app. by left.
Qed.

(** Three buffers, two of them in the queue: a read of block 7 and a write of block 9. *)
Definition demo_requests : kernel :=
  set_k_idequeue (Some 1%nat) (set_k_disk (replicate 20 (replicate 512 0)) (set_k_bufs
    [mkBuf B_DIRTY 1 5 1 0 0 None (replicate 512 1); mkBuf 0 1 7 1 0 0 (Some 2%nat) (replicate 512 2); mkBuf B_DIRTY 1 9 1 0 0 None (replicate 512 3)]
    (demo_kernel [] (Some 0%nat)))).

Lemma ide_in_order_witness :
  let fuel0 : Fuel := 0%nat in let dev : Ide := {| havedisk1 := true; ide_error _ := false |} in
  runs 0 true 0 (demo_proc RUNNING 1 0 None None) [L_idelock] [L_idelock] (append_request 0) demo_requests
    (fun _ s' => requests s' [1%nat; 2%nat; 0%nat]) /\
  runs 0 true 0 (demo_proc RUNNING 1 0 None None) [] [] (interrupts 2) demo_requests
    (fun _ s' => k_writes s' = [(9, replicate 512 3)]).
Proof.
  intros fuel0 dev.
  destruct (ide_in_order 0 true 0 (demo_proc RUNNING 1 0 None None) demo_requests [1%nat; 2%nat] 0%nat [L_idelock]) as [H1 H2].
  - reflexivity.
  - split; [|apply NoDup_cons; split; [by intros ?%list_elem_of_singleton|apply NoDup_singleton]].
    split; [reflexivity|]. eexists; split; [reflexivity|]. split; [reflexivity|]. eexists; split; [reflexivity|]. reflexivity.
  - rewrite !elem_of_cons, elem_of_nil. lia.
  - cbn. unfold NBUF. lia.
  - cbn. intros j Hj. rewrite !elem_of_cons, elem_of_nil in Hj. destruct Hj as [->|[->|[->|[]]]]; (split; [cbn; lia|by vm_compute|split; by vm_compute|by vm_compute]).
  - split; [eapply runs_mono; [exact H1|intros [] s' [Hr _]; exact Hr]|].
    eapply runs_mono; [exact H2|]. intros [] s' (_ & Hw & _). rewrite Hw. reflexivity.
Defined.

