(* ===== verification/Pio.v ===== *)
(** * The registers of the disk controller ([kernel/ide.c])

    [Ide] describes the queue of requests over a disk of blocks.  Here are the
    functions of [ide.c] that talk to the controller: waiting for it, the probe
    of the second drive, the command of a request with the words of a write,
    and the words of a read.  The theorem shows that, on the controller of
    [Device], they move a block between memory and the disk. *)
From S2P Require Import Prelude Types Str Device Boot Apic Spinlock Queue Sched Context Sleeplock Bio.

(** The fields of a [struct buf] a command uses; the data by its address. *)
Record ibuf := mkIbuf { ib_flags : Z; ib_dev : Z; ib_blockno : Z; ib_data : Z }.

Section code.
Context {D : Type} `{!Bus D} `{!Patience}.
#[local] Abbreviation IO := (@IO D).

Definition IDE_BSY : Z := 0x80.
Definition IDE_DRDY : Z := 0x40.
Definition IDE_DF : Z := 0x20.
Definition IDE_ERR : Z := 0x01.
Definition IDE_CMD_READ : Z := 0x20.
Definition IDE_CMD_WRITE : Z := 0x30.
Definition IDE_CMD_RDMUL : Z := 0xc4.
Definition IDE_CMD_WRMUL : Z := 0xc5.

Fixpoint idewait_loop (n : nat) : IO Z :=
  r <- inb 0x1f7 ;;
  if Z.land r (Z.lor IDE_BSY IDE_DRDY) =? IDE_DRDY then ret r else
  match n with O => stopm NoFuel | S n' => idewait_loop n' end.
Definition idewait (checkerr : bool) : IO Z :=
  r <- idewait_loop patience ;;
  if checkerr && negb (Z.land r (Z.lor IDE_DF IDE_ERR) =? 0) then ret (-1) else ret 0.

Fixpoint probe_disk1 (n : nat) : IO bool :=
  match n with
  | O => ret false
  | S n' => r <- inb 0x1f7 ;; if negb (r =? 0) then ret true else probe_disk1 n'
  end.
(** The value of [havedisk1]; [initlock] is left out. *)
Definition ideinit (ncpu : Z) : IO bool :=
  ioapicenable IRQ_IDE (ncpu - 1) ;;
  idewait false ;;
  outb 0x1f6 (Z.lor 0xe0 (Z.shiftl 1 4)) ;;
  b <- probe_disk1 1000 ;;
  outb 0x1f6 (Z.lor 0xe0 (Z.shiftl 0 4)) ;;
  ret b.

(** [idestart]. *)
Definition pio_start (o : option ibuf) : IO unit :=
  match o with
  | None => panic "idestart"
  | Some b =>
      if FSSIZE <=? ib_blockno b then panic "incorrect blockno" else
      let sector_per_block := BSIZE / 512 in
      let sector := ib_blockno b * sector_per_block in
      let read_cmd := if sector_per_block =? 1 then IDE_CMD_READ else IDE_CMD_RDMUL in
      let write_cmd := if sector_per_block =? 1 then IDE_CMD_WRITE else IDE_CMD_WRMUL in
      if 7 <? sector_per_block then panic "idestart" else
      idewait false ;;
      outb 0x3f6 0 ;;
      outb 0x1f2 sector_per_block ;;
      outb 0x1f3 (Z.land sector 0xff) ;;
      outb 0x1f4 (Z.land (Z.shiftr sector 8) 0xff) ;;
      outb 0x1f5 (Z.land (Z.shiftr sector 16) 0xff) ;;
      outb 0x1f6 (Z.lor (Z.lor 0xe0 (Z.shiftl (Z.land (ib_dev b) 1) 4)) (Z.land (Z.shiftr sector 24) 0x0f)) ;;
      if flag (ib_flags b) B_DIRTY then
        outb 0x1f7 write_cmd ;;
        outsl 0x1f0 (ib_data b) (Z.to_nat (BSIZE / 4))
      else outb 0x1f7 read_cmd
  end.

(** [ideintr]: the data of a read that did not fail. *)
Definition pio_data (b : ibuf) : IO unit :=
  if flag (ib_flags b) B_DIRTY then ret tt else
  r <- idewait true ;;
  if 0 <=? r then insl 0x1f0 (ib_data b) (Z.to_nat (BSIZE / 4)) else ret tt.
End code.

Section proofs.
Context `{!Patience}.
Implicit Types (d : ata) (m : gmap Z Z) (a : Z) (b : ibuf).

Lemma wp_idewait {A} P (k : Z -> IO A) Q c m d : disk_ok d ->
  wp P (k 0 (mkMach m (idle d))) Q -> wp P ((x <- idewait c ;; k x) (mkMach m d)) Q.
Proof.
  intros [_ [Hb _]] Hk. unfold idewait. apply wp_assoc.
  enough (forall (n : nat) (k : Z -> IO A) d, (a_busy d <= n)%nat -> wp P (k 0x40 (mkMach m (idle d))) Q ->
    wp P ((r <- idewait_loop n ;; k r) (mkMach m d)) Q) as Hl.
  { apply (Hl patience (fun r => y <- (if c && negb (Z.land r (Z.lor IDE_DF IDE_ERR) =? 0) then ret (-1) else ret 0) ;; k y)); [done|].
    replace (c && _) with false by (by destruct c). by apply wp_ret_bind. }
  clear. intros n k. induction n as [|n IH]; intros d Hn Hk; cbn [idewait_loop]; apply wp_assoc, wp_inb; cbn in *.
  - destruct d as [? ? ? ? ? bz ? ? ? ?]. cbn in *. destruct bz; [|lia]. cbn. exact Hk.
  - destruct d as [? ? ? ? ? bz ? ? ? ?]. cbn in *. destruct bz as [|bz]; cbn; [exact Hk|]. apply IH; [cbn; lia|exact Hk].
Qed.

(** The words of memory, as [outsl] sends them. *)
Definition mem_words m a (n : nat) : list Z := (fun k => load32 m (a + 4 * Z.of_nat k)) <$> seq 0 n.
Lemma mem_words_S m a n : mem_words m a (S n) = load32 m a :: mem_words m (a + 4) n.
Proof.
  unfold mem_words. cbn [seq]. rewrite fmap_cons. f_equal; [f_equal; lia|]. rewrite <- fmap_S_seq, <- list_fmap_compose.
  apply list_fmap_ext. intros ? k ?. cbn. f_equal. lia.
Qed.

Definition filled d ws : ata :=
  mkAta (a_count d) (a_lba0 d) (a_lba1 d) (a_lba2 d) (a_drive d) (a_busy d) (a_latency d) (a_out d) None
    (<[(ata_unit d, ata_lba d) := bytes_of ws]> (a_sectors d)).
Lemma wp_outsl P Q m n : forall a ws d, a_in d = Some ws -> (length ws + S n = 128)%nat ->
  Q tt (mkMach m (filled d (ws ++ mem_words m a (S n)))) -> wp P (outsl 0x1f0 a (S n) (mkMach m d)) Q.
Proof.
  induction n as [|n IH]; intros a ws d Hin Hlen HQ; cbn [outsl]; apply wp_gets, wp_io_write; cbn [m_mem m_dev bus_write ata_bus ata_write].
  all: rewrite Hin, length_app; cbn [length]; rewrite mem_words_S in HQ.
  - rewrite (proj2 (Nat.eqb_eq _ 128)) by lia. apply wp_ret. exact HQ.
  - rewrite (proj2 (Nat.eqb_neq _ 128)) by lia. apply (IH _ (ws ++ [load32 m a])); [done|rewrite length_app; cbn; lia|].
    rewrite <- app_assoc. exact HQ.
Qed.

(** The bytes of the words are the bytes of memory. *)
Lemma bytes_of_mem_words m n : Str.mem_ok m -> forall a, bytes_of (mem_words m a n) = mem_bytes m a (4 * n).
Proof.
  intros Hm. induction n as [|n IH]; intros a; [done|]. rewrite mem_words_S. replace (4 * S n)%nat with (S (S (S (S (4 * n))))) by lia.
  rewrite !mem_bytes_S. unfold bytes_of. cbn [fmap list_fmap concat]. fold (bytes_of (mem_words m (a + 4) n)). rewrite IH.
  pose proof (load8_range m a Hm). pose proof (load8_range m (a + 1) Hm). pose proof (load8_range m (a + 2) Hm). pose proof (load8_range m (a + 3) Hm).
  pose proof (word_byte (load8 m a) (load8 m (a + 1)) (load8 m (a + 2)) (load8 m (a + 3))) as Hw.
  fold (load32 m a) in Hw.
  pose proof (Hw 0) as Hw0. pose proof (Hw 1) as Hw1. pose proof (Hw 2) as Hw2. pose proof (Hw 3) as Hw3.
  change (8 * 1) with 8 in Hw1. change (8 * 2) with 16 in Hw2. change (8 * 3) with 24 in Hw3. rewrite Z.div_1_r in Hw0. rewrite Hw0, Hw1, Hw2, Hw3 by lia. cbn [Z.eqb Pos.eqb app].
  replace (a + 1 + 1) with (a + 2) by lia. replace (a + 2 + 1) with (a + 3) by lia. replace (a + 3 + 1) with (a + 4) by lia. done.
Qed.

(** Sector [n] below [FSSIZE] in the task file. *)
Lemma task_file (n u : Z) : 0 <= n < FSSIZE -> u = 0 \/ u = 1 ->
  let dr := u8 (Z.lor (Z.lor 0xe0 (Z.shiftl u 4)) (Z.land (Z.shiftr n 24) 0x0f)) in
  u8 (Z.land n 0xff) + 2 ^ 8 * u8 (Z.land (Z.shiftr n 8) 0xff) + 2 ^ 16 * u8 (Z.land (Z.shiftr n 16) 0xff) + 2 ^ 24 * Z.land dr 15 = n /\
  Z.land (Z.shiftr dr 4) 1 = u.
Proof.
  unfold FSSIZE. intros Hn Hu. cbv zeta. rewrite !Z.shiftr_div_pow2 by lia. rewrite (Z.div_small n (2 ^ 24)), (Z.div_small n (2 ^ 16)) by lia.
  rewrite !(Z.land_ones _ 8) by lia. unfold u8. rewrite !(Z.mod_small (_ mod 2 ^ 8)) by (apply Z.mod_pos_bound; lia).
  rewrite (Z.mod_small (n / 2 ^ 8)) by (Z.to_euclidean_division_equations; lia).
  pose proof (Z.div_mod n (2 ^ 8)). change (0 mod 2 ^ 8) with 0.
  destruct Hu as [-> | ->]; (split; [|reflexivity]); match goal with |- context [Z.land ?x 15] => change (Z.land x 15) with 0 end; lia.
Qed.

(** A block of the disk has been moved by the request [b]. *)
Definition transferred b m d m' d' : Prop :=
  let u := Z.land (ib_dev b) 1 in
  let n := ib_blockno b in
  if flag (ib_flags b) B_DIRTY then m' = m /\ a_sectors d' = <[(u, n) := mem_bytes m (ib_data b) 512]> (a_sectors d)
  else a_sectors d' = a_sectors d /\ mem_bytes m' (ib_data b) 512 = ata_sector d u n /\
    forall a, ~ (ib_data b <= a < ib_data b + 512) -> load8 m' a = load8 m a.

(** The command of a request, on a controller that takes it. *)
Definition commanded b m d : ata :=
  let u := Z.land (ib_dev b) 1 in
  let n := ib_blockno b in
  let dr := u8 (Z.lor (Z.lor 0xe0 (Z.shiftl u 4)) (Z.land (Z.shiftr n 24) 0x0f)) in
  if flag (ib_flags b) B_DIRTY then
    mkAta 1 (u8 (Z.land n 0xff)) (u8 (Z.land (Z.shiftr n 8) 0xff)) (u8 (Z.land (Z.shiftr n 16) 0xff)) dr (a_latency d) (a_latency d) [] None
      (<[(u, n) := mem_bytes m (ib_data b) 512]> (a_sectors d))
  else
    mkAta 1 (u8 (Z.land n 0xff)) (u8 (Z.land (Z.shiftr n 8) 0xff)) (u8 (Z.land (Z.shiftr n 16) 0xff)) dr (a_latency d) (a_latency d)
      (words_of (ata_sector d u n)) None (a_sectors d).

Lemma pio_start_runs b m d Q : disk_ok d -> Str.mem_ok m -> 0 <= ib_blockno b < FSSIZE ->
  Q tt (mkMach m (commanded b m d)) -> wp atomic (pio_start (Some b) (mkMach m d)) Q.
Proof.
  intros Hd Hm Hn HQ. unfold pio_start. destruct (Z.leb_spec FSSIZE (ib_blockno b)); [lia|].
  change (BSIZE / 512) with 1. cbv zeta. change (7 <? 1) with false. change (1 =? 1) with true. cbv iota. rewrite Z.mul_1_r.
  set (n := ib_blockno b) in *. set (u := Z.land (ib_dev b) 1).
  assert (u = 0 \/ u = 1) as Hu.
  { unfold u. rewrite (Z.land_ones _ 1) by lia. pose proof (Z.mod_pos_bound (ib_dev b) 2). change (2 ^ 1) with 2. lia. }
  destruct (task_file n u Hn Hu) as [El Eu]. unfold commanded in HQ. fold n u in HQ. cbv zeta in *.
  set (dr := u8 (Z.lor _ _)) in *.
  apply wp_idewait; [done|]. do 6 apply wp_outb. cbn [m_mem m_dev bus_write ata_bus].
  change (ata_write (Port8 0x3f6) (u8 0) (idle d)) with (idle d). cbn [ata_write]. cbn [idle a_count a_lba0 a_lba1 a_lba2 a_drive a_busy a_latency a_out a_in a_sectors].
  change (u8 1) with 1. destruct (flag (ib_flags b) B_DIRTY).
  - apply wp_outb. cbn [m_mem m_dev bus_write ata_bus ata_write]. change (u8 IDE_CMD_WRITE) with 0x30. cbn [Z.eqb Pos.eqb].
    cbn [a_count a_lba0 a_lba1 a_lba2 a_drive a_busy a_latency a_out a_in a_sectors].
    change (Z.to_nat (BSIZE / 4)) with (S 127). apply (wp_outsl _ _ _ _ _ []); [done|done|]. rewrite app_nil_l.
    unfold filled, ata_lba, ata_unit. cbn [a_count a_lba0 a_lba1 a_lba2 a_drive a_busy a_latency a_out a_in a_sectors].
    fold dr. rewrite El, Eu, bytes_of_mem_words by done. exact HQ.
  - apply wp_tail, wp_outb, wp_ret. cbn [m_mem m_dev bus_write ata_bus ata_write]. change (u8 IDE_CMD_READ) with 0x20. cbn [Z.eqb Pos.eqb].
    unfold ata_sector, ata_lba, ata_unit. cbn [a_count a_lba0 a_lba1 a_lba2 a_drive a_busy a_latency a_out a_in a_sectors].
    fold dr. rewrite El, Eu. exact HQ.
Qed.

Lemma mem_bytes_ok m a : Str.mem_ok m -> bytes_ok (mem_bytes m a 512).
Proof.
  intros Hm. split; [apply mem_bytes_length|]. apply Forall_fmap, Forall_forall. intros k _. by apply load8_range.
Qed.
Lemma commanded_ok b m d : disk_ok d -> Str.mem_ok m -> disk_ok (commanded b m d).
Proof.
  intros [Hs [Hb Hl]] Hm. unfold commanded. cbv zeta. destruct (flag _ _); (split; [|done]); cbn [a_sectors]; [|done].
  intros k l. rewrite lookup_insert. case_decide; [intros [= <-]; by apply mem_bytes_ok|apply Hs].
Qed.
Lemma mem_bytes_put_sector a l m : bytes_ok l -> mem_bytes (put_sector a l m) a 512 = l.
Proof.
  intros Hl. apply list_eq_same_length with (n := 512%nat); [by destruct Hl|apply mem_bytes_length|].
  intros k x y Hk Hx Hy. apply list_lookup_total_correct in Hx, Hy. subst. rewrite mem_bytes_lookup by done.
  rewrite load8_put_sector by done. rewrite decide_True by lia. f_equal. lia.
Qed.

(** C40: what the port accesses of a request do, once [idestart] has sent the
    command and the interrupt handler has taken the data: a dirty buffer is on
    the disk, in the sector and on the drive it names, and nothing else has
    changed; another buffer holds the sector, and no other byte of memory and
    nothing on the disk has changed.  The controller may be busy for as long as
    the bound on waiting allows. *)
Theorem pio_transfers b m d : disk_ok d -> Str.mem_ok m -> 0 <= ib_blockno b < FSSIZE ->
  wp atomic ((pio_start (Some b) ;; pio_data b) (mkMach m d)) (fun _ s => transferred b m d (m_mem s) (m_dev s) /\ disk_ok (m_dev s)).
Proof.
  intros Hd Hm Hn. pose proof (commanded_ok b m d Hd Hm) as Hc. apply wp_bind, pio_start_runs; [done|done|done|].
  unfold pio_data, transferred. cbv zeta. unfold commanded in *. cbv zeta in *. destruct (flag (ib_flags b) B_DIRTY).
  - apply wp_ret. done.
  - apply wp_idewait; [done|]. change (0 <=? 0) with true. cbv iota.
    set (l := ata_sector d (Z.land (ib_dev b) 1) (ib_blockno b)) in *. change (Z.to_nat (BSIZE / 4)) with (length (words_of l)).
    apply wp_tail, wp_insl; [done|]. apply wp_ret. cbn [m_mem m_dev]. fold (put_sector (ib_data b) l m).
    assert (bytes_ok l) as Hl by (by apply sector_ok). split; [|by destruct Hc as [Hs [_ Hla]]; split; [|split; [apply Nat.le_0_l|]]].
    split; [done|]. split; [by apply mem_bytes_put_sector|]. intros a Ha. by rewrite load8_put_sector, decide_False.
Qed.
End proofs.

(** A block is written from a buffer and read back into another one. *)
Definition demo_wbuf : ibuf := mkIbuf B_DIRTY 1 777 0x80200000.
Definition demo_bmem : gmap Z Z := {[0x80200000 := 42]}.
Lemma pio_transfers_witness : let _ : Patience := 8%nat in
  wp atomic ((pio_start (Some demo_wbuf) ;; pio_data demo_wbuf) (mkMach demo_bmem demo_boot_disk)) (fun _ s =>
    m_mem s = demo_bmem /\ ata_sector (m_dev s) 1 777 = 42 :: replicate 511 0 /\ ata_sector (m_dev s) 0 1 = ata_sector demo_boot_disk 0 1).
Proof.
  intros pt. eapply wp_mono.
  - apply (@pio_transfers pt demo_wbuf demo_bmem demo_boot_disk).
    + apply demo_boot_disk_ok. unfold patience, pt. lia.
    + apply map_Forall_singleton. lia.
    + vm_compute. split; congruence.
  - intros [] s [[Hm Hs] _]. split; [exact Hm|]. unfold ata_sector. rewrite Hs. split; [vm_compute; reflexivity|].
    rewrite lookup_insert_ne by (vm_compute; discriminate). reflexivity.
Defined.
