(* ===== verification/Consio.v ===== *)
(** * The console as a device, and the keyboard ([kernel/console.c], [kernel/kbd.c], [kernel/kbd.h], [kernel/uart.c])

    [consoleread] and [consolewrite] are what [devsw] holds for the console;
    [kbd_step] is the decoding of one scan code, a state machine over the
    shift state. *)
From S2P Require Import Prelude Types Str Spinlock Queue Kalloc Sched Context Sleeplock Bio Log Console Fs.

Definition CONSOLE : Z := 1.

Section device.
Context `{Fuel} `{Disk} `{Serial}.

(** The loop [while(input.r == input.w)]: tells whether there is input. *)
Fixpoint wait_input (k : nat) : K bool :=
  r <- cons_get in_r ;;
  w <- cons_get in_w ;;
  if negb (r =? w) then ret true else
  p <- curproc ;;
  d <- proc_get p killed ;;
  if negb (d =? 0) then release L_cons ;; ret false else
  match k with
  | O => stopm NoFuel
  | S k' => sleep (Some C_input_r) (Some L_cons) ;; wait_input k'
  end.

(** The loop of [consoleread]: the bytes read, or [None] when the process has
    been killed; [first] tells whether nothing has been read yet. *)
Fixpoint read_line (n : nat) (first : bool) : K (option (list Z)) :=
  match n with
  | O => ret (Some [])
  | S n' =>
      ok <- wait_input fuel ;;
      if negb ok then ret None else
      r <- cons_get in_r ;;
      c <- in_byte r ;;
      cons_set (set_in_r (u32 (r + 1))) ;;
      if c =? ctrl 68 then
        whenm (negb first) (cons_set (fun x => set_in_r (u32 (in_r x - 1)) x)) ;;
        ret (Some [])
      else if c =? 10 then ret (Some [c])
      else o <- read_line n' false ;; ret (cons c <$> o)
  end.

Definition consoleread (ip : nat) (n : Z) : K (Z * list Z) :=
  iunlock ip ;;
  acquire L_cons ;;
  o <- read_line (Z.to_nat n) true ;;
  match o with
  | None => ilock ip ;; ret (-1, [])
  | Some l =>
      release L_cons ;;
      ilock ip ;;
      ret (Z.of_nat (length l), l)
  end.

Definition consolewrite (ip : nat) (buf : list Z) : K Z :=
  iunlock ip ;;
  acquire L_cons ;;
  consputs buf ;;
  release L_cons ;;
  ilock ip ;;
  ret (Z.of_nat (length buf)).

(** [consoleinit] without the routing of the keyboard interrupt. *)
Definition consoleinit : K unit :=
  initlock L_cons "console" ;;
  cons_set (set_c_locking true).

(** The device table after [consoleinit]. *)
Definition console_devsw : DevSw :=
  {| devsw_read m := if m =? CONSOLE then Some consoleread else None;
     devsw_write m := if m =? CONSOLE then Some consolewrite else None |}.

End device.

(** ** The keyboard *)
Definition SHIFT : Z := 1.
Definition CTL : Z := 2.
Definition ALT : Z := 4.
Definition CAPSLOCK : Z := 8.
Definition NUMLOCK : Z := 16.
Definition SCROLLLOCK : Z := 32.
Definition E0ESC : Z := 64.

Definition shiftcode (d : Z) : Z :=
  match d with 0x1D => CTL | 0x2A => SHIFT | 0x36 => SHIFT | 0x38 => ALT | 0x9D => CTL | 0xB8 => ALT | _ => 0 end.
Definition togglecode (d : Z) : Z :=
  match d with 0x3A => CAPSLOCK | 0x45 => NUMLOCK | 0x46 => SCROLLLOCK | _ => 0 end.

(** The keys that all three maps of [kbd.h] list by index from 0x97 on; the
    Enter and division keys of the keypad differ. *)
Definition extended (enter div d : Z) : Z :=
  match d with
  | 0x9C => enter | 0xB5 => div
  | 0xC8 => 0xE2 | 0xD0 => 0xE3 | 0xC9 => 0xE6 | 0xD1 => 0xE7 | 0xCB => 0xE4 | 0xCD => 0xE5
  | 0x97 => 0xE0 | 0xCF => 0xE1 | 0xD2 => 0xE8 | 0xD3 => 0xE9
  | _ => 0
  end.
Definition table (l : list Z) (enter div d : Z) : Z :=
  match l !! Z.to_nat d with Some v => v | None => extended enter div d end.

Definition normalmap : Z -> Z := table
  ([0; 0x1B] ++ bytes "1234567890-=" ++ [8; 9] ++ bytes "qwertyuiop[]" ++ [10; 0] ++ bytes "asdfghjkl;'`" ++ [0]
   ++ bytes "\zxcvbnm,./" ++ [0] ++ bytes "*" ++ [0] ++ bytes " " ++ replicate 13 0 ++ bytes "789-456+1230." ++ [0; 0; 0; 0])
  10 47.
Definition shiftmap : Z -> Z := table
  ([0; 0x1B] ++ bytes "!@#$%^&*()_+" ++ [8; 9] ++ bytes "QWERTYUIOP{}" ++ [10; 0] ++ bytes "ASDFGHJKL:" ++ [34; 126; 0]
   ++ bytes "|ZXCVBNM<>?" ++ [0] ++ bytes "*" ++ [0] ++ bytes " " ++ replicate 13 0 ++ bytes "789-456+1230." ++ [0; 0; 0; 0])
  10 47.
(** [C(x)] is [x - '@'], stored in a byte. *)
Definition ctl (l : list Z) : list Z := (fun c => u8 (c - 64)) <$> l.
Definition ctlmap : Z -> Z := table
  (replicate 16 0 ++ ctl (bytes "QWERTYUIOP") ++ [0; 0; 13; 0] ++ ctl (bytes "ASDFGHJKL") ++ [0; 0; 0; 0]
   ++ ctl (bytes "\ZXCVBNM") ++ [0; 0] ++ ctl (bytes "/") ++ [0; 0])
  13 (u8 (47 - 64)).

(** [charcode[shift & (CTL | SHIFT)]]. *)
Definition charcode (sh : Z) : Z -> Z :=
  match Z.land sh (Z.lor CTL SHIFT) with 0 => normalmap | 1 => shiftmap | _ => ctlmap end.

(** [kbdgetc] once the controller has delivered the byte [data]: the character
    and the new shift state. *)
Definition kbd_step (shift data : Z) : Z * Z :=
  if data =? 0xE0 then (0, Z.lor shift E0ESC)
  else if negb (Z.land data 0x80 =? 0) then
    let data := if negb (Z.land shift E0ESC =? 0) then data else Z.land data 0x7F in
    (0, Z.land shift (u32 (Z.lnot (Z.lor (shiftcode data) E0ESC))))
  else
    let esc := negb (Z.land shift E0ESC =? 0) in
    let data := if esc then Z.lor data 0x80 else data in
    let shift := if esc then Z.land shift (u32 (Z.lnot E0ESC)) else shift in
    let shift := Z.lor shift (shiftcode data) in
    let shift := Z.lxor shift (togglecode data) in
    let c := charcode shift data in
    let c := if negb (Z.land shift CAPSLOCK =? 0) then
               if (97 <=? c) && (c <=? 122) then c - 32
               else if (65 <=? c) && (c <=? 90) then c + 32 else c
             else c in
    (c, shift).

(** The characters typed by a sequence of scan codes; 0 is no character. *)
Fixpoint kbd_run (shift : Z) (codes : list Z) : list Z * Z :=
  match codes with
  | [] => ([], shift)
  | d :: codes' =>
      let '(c, sh) := kbd_step shift d in
      let '(l, sh') := kbd_run sh codes' in
      (c :: l, sh')
  end.

(** ** The decoder is well typed *)
Section typed.
Implicit Types (sh d : Z) (codes : list Z).

(** The seven bits of the shift state. *)
Definition shift_ok sh : Prop := 0 <= sh < 128.

Definition step_typed sh d : bool :=
  let '(c, sh') := kbd_step sh d in (0 <=? c) && (c <? 256) && (0 <=? sh') && (sh' <? 128).

(** The shift state once the key with code [d] has been pressed and released: a
    lock key flips its lock, a modifier is up, also if the other key of the pair
    is still held. *)
Definition after_key sh d : Z := Z.land (Z.lxor sh (togglecode d)) (Z.lnot (shiftcode d)).

(** Pressing and releasing a key, plain or extended, in a state with no prefix
    pending; a release whose byte is the prefix itself ([d] = 0x60) is no key. *)
Definition press_release sh d : bool :=
  negb (Z.land sh E0ESC =? 0) || (d =? 0x60) ||
  (((kbd_run sh [d; Z.lor d 0x80]).2 =? after_key sh d) &&
   ((kbd_run sh [0xE0; d; 0xE0; Z.lor d 0x80]).2 =? after_key sh (Z.lor d 0x80))).

Definition for_all (n : nat) (f : Z -> bool) : bool := forallb (fun k => f (Z.of_nat k)) (seq 0 n).

Lemma for_all_spec n f d : for_all n f = true -> 0 <= d < Z.of_nat n -> f d = true.
Proof.
  unfold for_all. rewrite forallb_forall. intros Hall Hd. rewrite <- (Z2Nat.id d) by lia. apply Hall, in_seq. lia.
Qed.

Lemma steps_typed : for_all 128 (fun sh => for_all 256 (step_typed sh)) = true.
Proof. vm_compute. reflexivity. Qed.

Lemma keys_released : for_all 128 (fun sh => for_all 128 (press_release sh)) = true.
Proof. vm_compute. reflexivity. Qed.

Lemma kbd_step_typed sh d : shift_ok sh -> 0 <= d < 256 -> 0 <= (kbd_step sh d).1 < 256 /\ shift_ok (kbd_step sh d).2.
Proof.
  intros Hs Hd. pose proof (for_all_spec 256 _ d (for_all_spec 128 _ sh steps_typed Hs) Hd) as Ht. unfold step_typed in Ht.
  destruct (kbd_step sh d) as [c sh']. unfold shift_ok. cbn. lia.
Qed.

(** C34: whatever bytes the keyboard controller delivers, [kbdgetc] stays in a
    valid shift state (seven flags) and yields only bytes, so that [consoleintr]
    never mistakes a key for its end-of-input or its erase code.  When no prefix
    byte 0xE0 is pending, pressing and releasing a key, plain or extended, with
    any code but 0x60 (whose release byte is the prefix itself), leaves the shift
    state as it was except for the key's own flags: a lock is flipped, and the
    flag of a modifier is down afterwards. *)
Theorem kbd_typed sh codes :
  shift_ok sh -> Forall (fun d => 0 <= d < 256) codes ->
  Forall (fun c => 0 <= c < 256) (kbd_run sh codes).1 /\ shift_ok (kbd_run sh codes).2 /\
  forall d, 0 <= d < 128 -> d <> 0x60 -> Z.land sh E0ESC = 0 ->
    (kbd_run sh [d; Z.lor d 0x80]).2 = after_key sh d /\
    (kbd_run sh [0xE0; d; 0xE0; Z.lor d 0x80]).2 = after_key sh (Z.lor d 0x80).
Proof.
  intros Hs Hc. split_and!.
  - revert sh Hs. induction Hc as [|d codes Hd _ IH]; intros sh Hs; cbn; [done|].
    destruct (kbd_step_typed sh d Hs Hd) as [H1 H2]. destruct (kbd_step sh d) as [c sh']. specialize (IH sh' H2).
    destruct (kbd_run sh' codes). by constructor.
  - revert sh Hs. induction Hc as [|d codes Hd _ IH]; intros sh Hs; cbn; [done|].
    destruct (kbd_step_typed sh d Hs Hd) as [H1 H2]. destruct (kbd_step sh d) as [c sh']. specialize (IH sh' H2).
    by destruct (kbd_run sh' codes).
  - intros d Hd Hne Hl. pose proof (for_all_spec 128 _ d (for_all_spec 128 _ sh keys_released Hs) Hd) as Hp.
    unfold press_release in Hp. rewrite Hl, (proj2 (Z.eqb_neq d 0x60) Hne) in Hp. change (negb (0 =? 0) || false) with false in Hp.
    rewrite orb_false_l in Hp. apply andb_prop in Hp as [H1 H2]. split; by apply Z.eqb_eq.
Qed.

End typed.

Lemma kbd_typed_witness :
  shift_ok (kbd_run 0 [0x2A; 0x1E; 0x9E; 0xAA; 0x1E]).2 /\ (kbd_run SHIFT [0x3A; 0xBA]).2 = Z.lor SHIFT CAPSLOCK /\
  (kbd_run CTL [0xE0; 0x1D; 0xE0; 0x9D]).2 = 0.
Proof.
  split_and!.
  - apply (kbd_typed 0 [0x2A; 0x1E; 0x9E; 0xAA; 0x1E]); [unfold shift_ok; lia|repeat constructor; lia].
  - apply (kbd_typed SHIFT []); [vm_compute; split; congruence|constructor|lia|lia|reflexivity].
  - apply (kbd_typed CTL []) with (d := 0x1D); [vm_compute; split; congruence|constructor|lia|lia|reflexivity].
Defined.
