(* ===== verification/Kbd.v ===== *)
(** * The keyboard controller ([kernel/kbd.c])

    [kbdgetc] at the level of the controller's ports, around the decoder
    [kbd_step]; [poll] is the loop in which [consoleintr] calls it.  The theorem
    is about a controller with a queue of bytes that the keyboard has sent. *)
From S2P Require Import Prelude Types Str Device Spinlock Queue Kalloc Sched Context Sleeplock Bio Log Console Fs Consio.

Definition KBSTATP : Z := 0x64.
Definition KBS_DIB : Z := 0x01.
Definition KBDATAP : Z := 0x60.

Section code.
Context {D : Type} `{!Bus D}.

(** [kbdgetc], with its static variable [shift] passed along. *)
Definition kbdgetc_io (shift : Z) : IO (Z * Z) :=
  st <- inb KBSTATP ;;
  if Z.land st KBS_DIB =? 0 then ret (-1, shift) else
  data <- inb KBDATAP ;;
  ret (kbd_step shift data).

(** [while((c = getc()) >= 0)] of [consoleintr]: the characters in order. *)
Fixpoint poll (n : nat) (shift : Z) : IO (list Z * Z) :=
  match n with
  | O => stopm NoFuel
  | S n' =>
      r <- kbdgetc_io shift ;;
      let '(c, sh) := r in
      if c <? 0 then ret ([], sh) else
      r <- poll n' sh ;;
      let '(l, sh') := r in
      ret (c :: l, sh')
  end.
End code.

(** A controller that holds the bytes [l]: the status says whether there is
    one, a read of the data takes it. *)
#[local] Instance kbd_bus : Bus (list Z) := {|
  bus_read a l :=
    match a with
    | Port8 p => if p =? KBSTATP then (if l is [] then 0 else KBS_DIB, l)
                 else if p =? KBDATAP then (default 0 (head l), tail l) else (0, l)
    | _ => (0, l)
    end;
  bus_write _ _ l := l |}.

(** One interrupt takes every byte the controller holds: the loop of
    [consoleintr] gets the characters the decoder makes of the bytes, in order,
    keeps the shift state for the next interrupt, and ends with the controller
    empty. *)
Theorem kbd_drained n mem l shift :
  (length l < n)%nat -> Forall (fun d => 0 <= d < 256) l -> shift_ok shift ->
  poll n shift (mkMach mem l) = Done (kbd_run shift l) (mkMach mem []).
Proof.
  revert n shift. induction l as [|d l IH]; intros n shift Hn Hl Hs; (destruct n as [|n]; [cbn in Hn; lia|]); [done|].
  apply Forall_cons in Hl as [Hd Hl]. destruct (kbd_step_typed shift d Hs Hd) as [Hc Hs'].
  assert (kbdgetc_io shift (mkMach mem (d :: l)) = Done (kbd_step shift d) (mkMach mem l)) as E.
  { change (kbdgetc_io shift (mkMach mem (d :: l))) with (Done (S := mach (list Z)) (kbd_step shift (u8 d)) (mkMach mem l)). by rewrite u8_small. }
  cbn [poll kbd_run]. rewrite (bind_done _ _ _ _ _ E). clear E. destruct (kbd_step shift d) as [c sh]. cbn [fst snd] in *.
  destruct (Z.ltb_spec c 0); [lia|]. rewrite (bind_done _ _ _ _ _ (IH n sh ltac:(cbn in Hn; lia) Hl Hs')). by destruct (kbd_run sh l).
Qed.

Lemma kbd_drained_witness : poll 3 0 (mkMach ∅ [0x2A; 0x1E]) = Done ([0; 65], SHIFT) (mkMach ∅ []).
Proof. rewrite (kbd_drained 3 ∅ [0x2A; 0x1E] 0); [reflexivity|cbn; lia|repeat constructor; lia|unfold shift_ok; lia]. Defined.
