(* ===== verification/Panic.v ===== *)
(** * Panic ([panic] of [kernel/console.c])

    The routines of the kernel end with [Stop (Panic msg)] where the code calls
    [panic]; here is what [panic] then does before it spins.  It may be called
    with any locks held, [cons.lock] included, and with interrupts in any state. *)
From S2P Require Import Prelude Types Str Spinlock Queue Kalloc Sched Console.

Section code.
Context `{Serial}.

Fixpoint print_pcs (l : list Z) : K unit :=
  match l with
  | [] => ret tt
  | v :: l' => cprintf (bytes " %p") [AInt v] ;; print_pcs l'
  end.

(** [panic(s)] up to the endless loop: [s] is the text of the message, and
    [frame] the address of the parameter. *)
Definition panic_prints (s : list Z) (frame : Z) : K unit :=
  cli ;;
  cons_set (set_c_locking false) ;;
  id <- gets (fun k => h_lapicid (k_hw k)) ;;
  cprintf (bytes "lapicid %d: panic: ") [AInt id] ;;
  cprintf s [] ;;
  cprintf [10] [] ;;
  m <- gets k_mem ;;
  print_pcs (getcallerpcs (load32 m) frame) ;;
  cons_set (set_panicked true).
End code.

Section text.
Context `{Serial}.
Implicit Types (s : kernel) (out : list Z) (y : console).

(** With locking off [cprintf] does not touch the locks. *)
Lemma cprintf_unlocked fmt args s :
  c_locking (k_cons s) = false -> cons_ok (k_cons s) -> Forall is_byte fmt -> Forall arg_bytes args -> args_fit fmt args = true ->
  exists out y, formats fmt args out /\ cprintf fmt args s = Done tt (set_k_cons y s) /\ prints out (k_cons s) y.
Proof.
  intros Hl Hs Hf Ha Hfit. destruct (cprintf_loop_emits (length fmt) fmt args ltac:(done) Hf Ha Hfit) as (out & Hout & He).
  destruct (He s Hs) as (y & E & Hy). exists out, y. split_and!; [done| |done].
  unfold cprintf, cons_get. rewrite (bind_done _ _ s (c_locking (k_cons s)) s), Hl by done.
  cbn [whenm]. rewrite (bind_done _ _ _ tt s) by done. by rewrite (bind_done _ _ _ _ _ E).
Qed.

(** The text of a format without conversions. *)
Definition plain (l : list Z) : Prop := Forall (fun c => is_byte c /\ c <> 0 /\ c <> 37) l.
Lemma formats_plain l fmt args out : plain l -> formats (l ++ fmt) args out -> exists out', out = l ++ out' /\ formats fmt args out'.
Proof.
  intros Hl. revert out. induction Hl as [|c l (_ & H0 & H37) Hl IH]; intros out Hf; [by exists out|].
  cbn [app] in Hf. inversion Hf as [| |? ? ? out1 _ _ Hf'| | | | | | |]; subst; try done.
  destruct (IH _ Hf') as (out' & -> & ?). by exists out'.
Qed.
Lemma plain_formats l args out : plain l -> formats l args out -> out = l.
Proof.
  intros Hl Hf. rewrite <- (app_nil_r l) in Hf. apply formats_plain in Hf as (out' & -> & Hf); [|done].
  inversion Hf; subst. apply app_nil_r.
Qed.
Lemma plain_fit l args : plain l -> args_fit l args = true.
Proof.
  induction 1 as [|c l (_ & H0 & H37) Hl IH]; [done|]. cbn [args_fit]. by rewrite (proj2 (Z.eqb_neq _ _) H0), (proj2 (Z.eqb_neq _ _) H37).
Qed.
Lemma plain_bytes l : plain l -> Forall is_byte l.
Proof. intros Hl. eapply Forall_impl; [exact Hl|]. by intros c [? _]. Qed.

(** The return addresses: each as a space and a hexadecimal numeral. *)
Inductive pcs_text : list Z -> list Z -> Prop :=
  | PT_nil : pcs_text [] []
  | PT_cons v l t out : numeral 16 (u32 v) t -> pcs_text l out -> pcs_text (v :: l) ((32 :: t) ++ out).

Lemma print_pcs_prints l : forall s, c_locking (k_cons s) = false -> cons_ok (k_cons s) ->
  exists out y, pcs_text l out /\ print_pcs l s = Done tt (set_k_cons y s) /\ prints out (k_cons s) y.
Proof.
  induction l as [|v l IH]; intros s Hl Hs; cbn [print_pcs].
  { exists [], (k_cons s). split_and!; [constructor|by destruct s|by apply prints_nil]. }
  destruct (cprintf_unlocked (bytes " %p") [AInt v] s Hl Hs) as (out & y & Hf & E & Hy); [apply text_bytes|by repeat constructor|done|].
  destruct (IH (set_k_cons y s)) as (out' & z & Ht & E' & Hz); [exact (eq_trans (pr_locking _ _ _ Hy) Hl)|apply Hy|].
  exists (out ++ out'), z. rewrite (bind_done _ _ _ _ _ E). split_and!; [|done|by eapply prints_app].
  change (bytes " %p") with ([32] ++ [37; 112]) in Hf. apply formats_plain in Hf as (o & -> & Hf); [|by repeat constructor].
  inversion Hf as [| | | | | |? ? ? ? ? ? _ Hn Hf''| | |]; subst; [done| |set_solver].
  inversion Hf''; subst. rewrite app_nil_r. by constructor.
Qed.

(** The report of [panic]. *)
Inductive panic_text (id : Z) (msg pcs : list Z) : list Z -> Prop :=
  | PT t out : decimal (i32 id) t -> pcs_text pcs out ->
      panic_text id msg pcs (bytes "lapicid " ++ t ++ bytes ": panic: " ++ msg ++ [10] ++ out).

Lemma head_text id out : formats (bytes "lapicid %d: panic: ") [AInt id] out ->
  exists t, decimal (i32 id) t /\ out = bytes "lapicid " ++ t ++ bytes ": panic: ".
Proof.
  change (bytes "lapicid %d: panic: ") with (bytes "lapicid " ++ 37 :: 100 :: bytes ": panic: ").
  intros Hf. apply formats_plain in Hf as (o & -> & Hf); [|by repeat constructor].
  inversion Hf as [| | | | |? ? ? t o' Hd Hf'|? ? ? ? ? ? [E|E]| | |]; subst; try done; [|set_solver].
  exists t. split; [done|]. apply plain_formats in Hf'; [by subst|by repeat constructor].
Qed.

(** [panic] always reports: whatever locks are held, it sends the line with
    the processor, the message and the ten return addresses, and leaves the
    machine with interrupts off, the locks as they were, and the console in the
    state in which every processor that prints a character spins for ever. *)
Theorem panic_reports msg frame s :
  cons_ok (k_cons s) -> plain msg ->
  exists out x, panic_text (h_lapicid (k_hw s)) msg (getcallerpcs (load32 (k_mem s)) frame) out /\
    panic_prints msg frame s = Done tt (set_k_cons x (set_k_hw (set_h_if false (k_hw s)) s)) /\
    uart_out x = uart_out (k_cons s) ++ (if uart then out else []) /\
    forall c s', k_cons s' = x -> consputc c s' = Stop Spin.
Proof.
  intros Hs Hm. unfold panic_prints, cons_set. set (s0 := set_k_cons (set_c_locking false (k_cons s)) (upd_hw (set_h_if false) s)).
  rewrite (bind_done cli _ _ tt (upd_hw (set_h_if false) s)), (bind_done (modify _) _ _ tt s0) by done.
  rewrite (bind_done (gets _) _ _ (h_lapicid (k_hw s)) s0) by done.
  assert (cons_ok (k_cons s0)) as Hs0 by (destruct Hs; by split).
  destruct (cprintf_unlocked (bytes "lapicid %d: panic: ") [AInt (h_lapicid (k_hw s))] s0 eq_refl Hs0) as (o1 & y1 & Hf1 & E1 & Hy1); [apply text_bytes|by repeat constructor|done|].
  rewrite (bind_done _ _ _ _ _ E1). apply head_text in Hf1 as (t & Ht & ->).
  destruct (cprintf_unlocked msg [] (set_k_cons y1 s0) (pr_locking _ _ _ Hy1) (pr_ok _ _ _ Hy1)) as (o2 & y2 & Hf2 & E2 & Hy2); [by apply plain_bytes|constructor|by apply plain_fit|].
  rewrite (bind_done _ _ _ _ _ E2). apply plain_formats in Hf2; [subst o2|done].
  pose proof (eq_trans (pr_locking _ _ _ Hy2) (pr_locking _ _ _ Hy1)) as Hl2.
  destruct (cprintf_unlocked [10] [] (set_k_cons y2 s0) Hl2 (pr_ok _ _ _ Hy2)) as (o3 & y3 & Hf3 & E3 & Hy3); [by repeat constructor|constructor|done|].
  change (set_k_cons y2 (set_k_cons y1 s0)) with (set_k_cons y2 s0). rewrite (bind_done _ _ _ _ _ E3). apply plain_formats in Hf3; [subst o3|by repeat constructor].
  change (set_k_cons y3 (set_k_cons y2 s0)) with (set_k_cons y3 s0). rewrite (bind_done (gets _) _ _ (k_mem s) (set_k_cons y3 s0)) by done.
  destruct (print_pcs_prints (getcallerpcs (load32 (k_mem s)) frame) (set_k_cons y3 s0)) as (o4 & y4 & Hp & E4 & Hy4); [exact (eq_trans (pr_locking _ _ _ Hy3) Hl2)|apply Hy3|].
  rewrite (bind_done _ _ _ _ _ E4). eexists _, (set_panicked true y4). split_and!; [by constructor|done| |].
  - pose proof (pr_uart _ _ _ (prints_app _ _ _ _ _ Hy1 (prints_app _ _ _ _ _ Hy2 (prints_app _ _ _ _ _ Hy3 Hy4)))) as Hu.
    cbn in Hu. cbn [uart_out set_panicked]. rewrite Hu. by rewrite <- !app_assoc.
  - intros c s' E. unfold consputc, cons_get. by rewrite (bind_done _ _ s' (panicked (k_cons s')) s'), E by done.
Qed.
End text.

Lemma panic_reports_witness : let _ : Serial := true in
  exists out x, panic_text 0 (bytes "acquire") (getcallerpcs (load32 ∅) 0x80115000) out /\
    panic_prints (bytes "acquire") 0x80115000 demo_cons_state = Done tt (set_k_cons x (set_k_hw (set_h_if false (k_hw demo_cons_state)) demo_cons_state)) /\
    uart_out x = out.
Proof.
  intros ser. destruct (panic_reports (bytes "acquire") 0x80115000 demo_cons_state) as (out & x & Hp & E & Hu & _).
  - by split.
  - repeat constructor; discriminate.
  - exists out, x. split; [exact Hp|]. split; [exact E|exact Hu].
Defined.
