(* ===== verification/Main.v ===== *)
(** * Starting the kernel ([kernel/main.c])

    A [board] joins the state of the kernel with the devices on the bus, the
    descriptor tables of the processors and the globals of the drivers; memory
    is shared by the two sides.  [main], [mpenter] and [mpmain] are the code of
    [main.c] over it.  While the boot processor waits for another one, [others]
    is what that processor does: from the start-up interrupt through
    [entryother.S] and [mpenter] into its scheduler.  From then on it runs rounds
    of its scheduler whenever the schedule [turns], a parameter, lets it, while
    the boot processor goes on: [other_rounds].  A round is not divided, as it
    runs under [ptable.lock]. *)
From S2P Require Import Prelude Types Str Protect Device Boot Apic Mp Spinlock Queue Kalloc Sched Context Sleeplock Pipe Bio Log Console Vm Fs File Proc Pio Consio.

(** What the build links into the kernel: the image of [entryother.S], the
    addresses of [mpenter] and of [entrypgdir], and the table [vectors].  The
    image fits between its place and the kernel. *)
Class Image `{Linkage} := {
  entryother_code : list Z;
  mpenter_addr : Z;
  entrypgdir_addr : Z;
  vectors : Z -> Z;
  entryother_fits : Z.of_nat (length entryother_code) <= EXTMEM - 0x7000;
  mpenter_range : KERNLINK <= mpenter_addr < kend;
  entrypgdir_range : KERNLINK <= entrypgdir_addr < kend }.

(** The points of the boot processor's path at which other processors may run:
    while it waits for processor [c], with [n] polls of its patience left, and
    before the calls of [kinit2] and [userinit].  [turns] names the processors
    that run a round at each, in order. *)
Inductive place := WhileStarting (c n : nat) | BeforeKinit2 | BeforeUserinit.
Class Schedule := turns : place -> list nat.

(** ** The page directory of the entry code *)
Definition PDXSHIFT : Z := 22.
Definition PTE_PS : Z := 0x080.
Definition entrypgdir : list Z :=
  let e := Z.lor (Z.lor (Z.lor 0 PTE_P) PTE_W) PTE_PS in
  <[Z.to_nat (Z.shiftr KERNBASE PDXSHIFT) := e]> (<[0%nat := e]> (replicate NPDENTRIES 0)).
(** What the hardware does with a directory of 4-megabyte pages. *)
Definition big_translate (dir : list Z) (va : Z) : option Z :=
  e ← dir !! Z.to_nat (va / 2 ^ 22);
  if bit_of e PTE_P && bit_of e PTE_PS then Some (e / 2 ^ 22 * 2 ^ 22 + va mod 2 ^ 22) else None.

(** ** The board *)
Record board (D : Type) := mkBoard {
  b_kernel : kernel;
  b_dev : D;                       (* the devices on the bus *)
  b_lapic : Z;                     (* lapic, the address of the local APIC *)
  b_ioapicid : Z;
  b_idt : list gatedesc;           (* idt *)
  b_gdt : list (list segdesc);     (* cpus[i].gdt *)
  b_gdtr : list Z;                 (* the limits in the registers of each processor *)
  b_idtr : list Z;
  b_started : list bool;           (* cpus[i].started *)
  b_uart : bool;
  b_havedisk1 : bool;
  b_sipi : option (Z * Z) }.       (* a start-up interrupt on its way: APIC id and address *)
Arguments mkBoard {D}.
Arguments b_kernel {D}.
Arguments b_dev {D}.
Arguments b_lapic {D}.
Arguments b_ioapicid {D}.
Arguments b_idt {D}.
Arguments b_gdt {D}.
Arguments b_gdtr {D}.
Arguments b_idtr {D}.
Arguments b_started {D}.
Arguments b_uart {D}.
Arguments b_havedisk1 {D}.
Arguments b_sipi {D}.

(** [cpus] and the tables as the loader leaves them. *)
Definition MAXCPU : nat := 8.
Definition cpu_zero : cpu := mkCpu 0 0 false None 0.
Definition seg_zero : segdesc := mkSegdesc 0 0 0 0 0 0 0 0 0 0 0 0 0.
Definition gate_zero : gatedesc := mkGatedesc 0 0 0 0 0 0 0 0 0.
Definition gdt_zero : list segdesc := replicate NSEGS seg_zero.
(** The board when [main] is called: the memory and the disk, the devices, and a
    processor with the APIC id [id] on the page table of the entry code. *)
Definition loaded {D} `{Linkage} `{!Image} (mem : gmap Z Z) (disk : list (list Z)) (d : D) (id : Z) : board D :=
  mkBoard (set_k_disk disk (set_k_mem mem (kernel_zero (mkHw false id (V2P entrypgdir_addr) (replicate MAXCPU cpu_zero) 0 ∅))))
    d 0 0 (replicate 256 gate_zero) (replicate MAXCPU gdt_zero) (replicate MAXCPU 0) (replicate MAXCPU 0) (replicate MAXCPU false)
    false false None.

Section board.
Context {D : Type}.
Implicit Types (b : board D).
Definition set_kernel k b : board D :=
  mkBoard k (b_dev b) (b_lapic b) (b_ioapicid b) (b_idt b) (b_gdt b) (b_gdtr b) (b_idtr b) (b_started b) (b_uart b) (b_havedisk1 b) (b_sipi b).
Definition set_dev m d b : board D :=
  mkBoard (set_k_mem m (b_kernel b)) d (b_lapic b) (b_ioapicid b) (b_idt b) (b_gdt b) (b_gdtr b) (b_idtr b) (b_started b) (b_uart b) (b_havedisk1 b) (b_sipi b).
Definition set_apics l i b : board D :=
  mkBoard (b_kernel b) (b_dev b) l i (b_idt b) (b_gdt b) (b_gdtr b) (b_idtr b) (b_started b) (b_uart b) (b_havedisk1 b) (b_sipi b).
Definition set_idt x b : board D :=
  mkBoard (b_kernel b) (b_dev b) (b_lapic b) (b_ioapicid b) x (b_gdt b) (b_gdtr b) (b_idtr b) (b_started b) (b_uart b) (b_havedisk1 b) (b_sipi b).
Definition set_gdt c x limit b : board D :=
  mkBoard (b_kernel b) (b_dev b) (b_lapic b) (b_ioapicid b) (b_idt b) (<[c := x]> (b_gdt b)) (<[c := limit]> (b_gdtr b)) (b_idtr b) (b_started b) (b_uart b) (b_havedisk1 b) (b_sipi b).
Definition set_idtr c limit b : board D :=
  mkBoard (b_kernel b) (b_dev b) (b_lapic b) (b_ioapicid b) (b_idt b) (b_gdt b) (b_gdtr b) (<[c := limit]> (b_idtr b)) (b_started b) (b_uart b) (b_havedisk1 b) (b_sipi b).
Definition set_started c b : board D :=
  mkBoard (b_kernel b) (b_dev b) (b_lapic b) (b_ioapicid b) (b_idt b) (b_gdt b) (b_gdtr b) (b_idtr b) (<[c := true]> (b_started b)) (b_uart b) (b_havedisk1 b) (b_sipi b).
Definition set_uart x b : board D :=
  mkBoard (b_kernel b) (b_dev b) (b_lapic b) (b_ioapicid b) (b_idt b) (b_gdt b) (b_gdtr b) (b_idtr b) (b_started b) x (b_havedisk1 b) (b_sipi b).
Definition set_havedisk1 x b : board D :=
  mkBoard (b_kernel b) (b_dev b) (b_lapic b) (b_ioapicid b) (b_idt b) (b_gdt b) (b_gdtr b) (b_idtr b) (b_started b) (b_uart b) x (b_sipi b).
Definition set_sipi x b : board D :=
  mkBoard (b_kernel b) (b_dev b) (b_lapic b) (b_ioapicid b) (b_idt b) (b_gdt b) (b_gdtr b) (b_idtr b) (b_started b) (b_uart b) (b_havedisk1 b) x.

Definition B (A : Type) : Type := board D -> outcome (board D) A.

(** A routine of the kernel, and a routine that talks to the bus. *)
Fixpoint from_kernel {A} (b : board D) (o : outcome kernel A) : outcome (board D) A :=
  match o with
  | Done a s => Done a (set_kernel s b)
  | Stop e => Stop e
  | Switch s k => Switch (set_kernel s b) (fun b' => from_kernel b' (k (b_kernel b')))
  end.
Definition on_kernel {A} (m : K A) : B A := fun b => from_kernel b (m (b_kernel b)).
Fixpoint from_bus {A} (b : board D) (o : outcome (mach D) A) : outcome (board D) A :=
  match o with
  | Done a s => Done a (set_dev (m_mem s) (m_dev s) b)
  | Stop e => Stop e
  | Switch s k => Switch (set_dev (m_mem s) (m_dev s) b) (fun b' => from_bus b' (k (mkMach (k_mem (b_kernel b')) (b_dev b'))))
  end.
Definition on_bus {A} (m : @IO D A) : B A := fun b => from_bus b (m (mkMach (k_mem (b_kernel b)) (b_dev b))).
End board.

Section code.
Context {D : Type} `{!Bus D} `{!Patience} `{Linkage} `{Fuel} `{Disk} `{DevSw} `{Initcode} `{!Image} `{Schedule}.
#[local] Abbreviation B := (@B D).

(** [cprintf] of a line. *)
Definition print (fmt : string) (args : list arg) : B unit :=
  u <- gets b_uart ;;
  on_kernel (@cprintf u (bytes fmt ++ [10]) args).

(** ** The initialisation of the parts *)
(** The [apicid]s and [ncpu]. *)
Definition known_cpus (ids : list Z) (h : hw) : hw :=
  mkHw (h_if h) (h_lapicid h) (h_cr3 h)
    (imap (fun i r => match ids !! i with Some a => mkCpu a (ncli r) (intena r) (c_proc r) (Types.ts_esp0 r) | None => r end) (h_cpus h))
    (length ids) (h_locks h).
(** The length of the table is a [ushort] and an entry has 8 bytes or more. *)
Definition mpinit_ : B unit :=
  i <- on_bus (mpinit (Z.to_nat 8192)) ;;
  modify (set_apics (mi_lapic i) (mi_ioapicid i)) ;;
  on_kernel (modify (upd_hw (known_cpus (mi_apicids i)))).
Definition lapicinit_ : B unit :=
  l <- gets b_lapic ;;
  on_bus (lapicinit l).
Definition seginit_ : B unit :=
  c <- on_kernel cpuid ;;
  b <- get ;;
  g <- of_option "cpus" (b_gdt b !! c) ;;
  let '(g, limit) := seginit g in
  modify (set_gdt c g limit).
Definition ioapicinit_ : B unit :=
  i <- gets b_ioapicid ;;
  w <- on_bus (ioapicinit i) ;;
  if w : bool then print "ioapicinit: id isn't equal to ioapicid; not a MP" [] else ret tt.
Definition consoleinit_ : B unit :=
  on_kernel consoleinit ;;
  on_bus (ioapicenable IRQ_KBD 0).
Definition uartinit_ : B unit :=
  u <- on_bus uartinit ;;
  modify (set_uart u).
Definition tvinit_ : B unit :=
  b <- get ;;
  modify (set_idt (tvinit vectors (b_idt b))) ;;
  on_kernel (initlock L_tickslock "time").
Definition ideinit_ : B unit :=
  on_kernel (initlock L_idelock "ide") ;;
  n <- gets (fun b => h_ncpu (k_hw (b_kernel b))) ;;
  h <- on_bus (ideinit (Z.of_nat n)) ;;
  modify (set_havedisk1 h).
Definition idtinit_ (c : nat) : B unit :=
  b <- get ;;
  modify (set_idtr c (idtinit (b_idt b))).

(** ** The processors *)
(** [mpmain] up to the call of [scheduler]. *)
Definition mpmain_start : B unit :=
  c1 <- on_kernel cpuid ;;
  c2 <- on_kernel cpuid ;;
  print "cpu%d: starting %d" [AInt (Z.of_nat c1); AInt (Z.of_nat c2)] ;;
  idtinit_ c1 ;;
  c <- on_kernel mycpu ;;
  modify (set_started c).
Definition mpmain (rounds : nat) : B unit :=
  mpmain_start ;;
  on_kernel (scheduler rounds).
(** [mpenter] up to the call of [scheduler] in [mpmain]. *)
Definition mpenter_start : B unit :=
  on_kernel switchkvm ;;
  seginit_ ;;
  lapicinit_ ;;
  mpmain_start.
Definition mpenter (rounds : nat) : B unit :=
  mpenter_start ;;
  on_kernel (scheduler rounds).

(** [m] on the processor with the APIC id [id], with interrupts off and the page
    table [cr3]; the waiting processor then goes on with its own registers. *)
Definition on_cpu (id cr3 : Z) (m : B unit) : B unit :=
  h <- gets (fun b => k_hw (b_kernel b)) ;;
  on_kernel (modify (upd_hw (fun h => mkHw false id cr3 (h_cpus h) (h_ncpu h) (h_locks h)))) ;;
  m ;;
  on_kernel (modify (upd_hw (fun h' => mkHw (h_if h) (h_lapicid h) (h_cr3 h) (h_cpus h') (h_ncpu h') (h_locks h')))).
(** [scheduler] up to its loop. *)
Definition scheduler_enter : K unit :=
  c <- mycpu ;;
  set_cpu_proc c None.
(** [entryother.S] and what it calls, up to the loop of [scheduler]: the stack,
    the function and the page table are in the words below the code; stack and
    function have to be mapped. *)
Definition others : B unit :=
  b <- get ;;
  match b_sipi b with
  | None => ret tt
  | Some (id, addr) =>
      modify (set_sipi None) ;;
      let m := k_mem (b_kernel b) in
      let word n := load32 m (P2V addr - n) in
      if bool_decide (word 12 = V2P entrypgdir_addr) && bool_decide (word 8 = mpenter_addr)
         && bool_decide (is_Some (big_translate entrypgdir (word 4 - 1))) && bool_decide (is_Some (big_translate entrypgdir mpenter_addr))
      then on_cpu id (word 12) (mpenter_start ;; on_kernel scheduler_enter)
      else stopm (Fault "entryother")
  end.

(** A round of the scheduler of processor [c], if it is one of the others and has
    come that far; it runs on the kernel's page table. *)
Definition other_round (c : nat) : B unit :=
  b <- get ;;
  let h := k_hw (b_kernel b) in
  match take (h_ncpu h) (h_cpus h) !! c, b_started b !! c with
  | Some r, Some true =>
      if apicid r =? h_lapicid h then ret tt
      else on_cpu (apicid r) (V2P (k_kpgdir (b_kernel b))) (on_kernel (scheduler_round c))
  | _, _ => ret tt
  end.
Fixpoint other_rounds (l : list nat) : B unit :=
  match l with
  | [] => ret tt
  | c :: l' => other_round c ;; other_rounds l'
  end.

(** [while(c->started == 0);] *)
Fixpoint wait_started (n : nat) (c : nat) : B unit :=
  b <- get ;;
  st <- of_option "cpus" (b_started b !! c) ;;
  if st : bool then ret tt else
  match n with
  | O => stopm NoFuel
  | S n' => others ;; other_rounds (turns (WhileStarting c n')) ;; wait_started n' c
  end.

Definition store_word (a v : Z) : B unit := on_kernel (modify (upd_mem (store32 a v))).
(** The loop over [cpus], with [n] processors left from [c] on. *)
Fixpoint startothers_loop (code : Z) (n : nat) (c : nat) : B unit :=
  match n with
  | O => ret tt
  | S n' =>
      me <- on_kernel mycpu ;;
      (if decide (c = me) then ret tt else
        stack <- on_kernel kalloc ;;
        store_word (code - 4) (u32 (stack + KSTACKSIZE)) ;;
        store_word (code - 8) mpenter_addr ;;
        store_word (code - 12) (V2P entrypgdir_addr) ;;
        b <- get ;;
        r <- of_option "cpus" (h_cpus (k_hw (b_kernel b)) !! c) ;;
        on_bus (lapicstartap (b_lapic b) (apicid r) (V2P code)) ;;
        modify (set_sipi (Some (apicid r, V2P code))) ;;
        wait_started patience c) ;;
      startothers_loop code n' (S c)
  end.
Definition startothers : B unit :=
  let code := P2V 0x7000 in
  on_kernel (vstore_bytes code entryother_code) ;;
  n <- gets (fun b => h_ncpu (k_hw (b_kernel b))) ;;
  startothers_loop code n 0.

(** [main] up to the call of [mpmain]. *)
Definition main_init : B unit :=
  on_kernel (kinit1 kend (P2V (4 * 1024 * 1024))) ;;
  on_kernel kvmalloc ;;
  mpinit_ ;;
  lapicinit_ ;;
  seginit_ ;;
  on_bus picinit ;;
  ioapicinit_ ;;
  consoleinit_ ;;
  uartinit_ ;;
  on_kernel pinit ;;
  tvinit_ ;;
  on_kernel binit ;;
  on_kernel fileinit ;;
  ideinit_ ;;
  startothers ;;
  other_rounds (turns BeforeKinit2) ;;
  on_kernel (kinit2 (P2V (4 * 1024 * 1024)) (P2V PHYSTOP)) ;;
  other_rounds (turns BeforeUserinit) ;;
  on_kernel userinit.
Definition main (rounds : nat) : B unit :=
  main_init ;;
  mpmain rounds.
End code.
