(* ===== verification/Startup.v ===== *)
(** * The kernel after [main]

    [main] brings the state the loader leaves into the state that the theorems
    on the scheduler, on processes and on memory start from.  Before
    [kinit2] the page allocator takes no lock, and before [mpinit] no processor
    is known; [early] transfers what is known of the routines of [Kalloc], [Vm]
    and [Copy] to that time. *)
From S2P Require Import Prelude Types Str Protect Device Boot Apic Mp Spinlock Queue Kalloc Sched Context Sleeplock Pipe Bio Log Console Vm Paging Reclaim Copy Fs File Proc Pio Consio Main.

(** ** Before the allocator takes locks *)
Section early.
Context `{Linkage}.
Implicit Types (s : kernel).

(** The routine changes memory and the free list only, does not look at the
    processors, and stores bytes. *)
Definition early_done {A} s (h : hw) (o1 o2 : outcome kernel A) : Prop :=
  match o1 with
  | Done a s' => s' = after (k_mem s') (k_freelist s') (k_hw s) s /\ o2 = Done a (set_k_hw h s') /\ (Str.mem_ok (k_mem s) -> Str.mem_ok (k_mem s'))
  | Stop e => o2 = Stop e
  | Switch _ _ => False
  end.
Definition early {A} (m : K A) : Prop := forall s h, k_use_lock s = false -> early_done s h (m s) (m (set_k_hw h s)).

Lemma early_ret {A} (a : A) : early (ret a).
Proof. intros s h Hu. split; [by destruct s|done]. Qed.
Lemma early_stop {A} e : early (stopm e : K A).
Proof. done. Qed.
Lemma early_panic {A} e : early (panic e : K A).
Proof. done. Qed.
Lemma early_bind {A B} (m : K A) (k : A -> K B) : early m -> (forall a, early (k a)) -> early (x <- m ;; k x).
Proof.
  intros Hm Hk s h Hu. specialize (Hm s h Hu). unfold bind. destruct (m s) as [a s1|e|]; [|by cbn in Hm |- *; rewrite Hm|done].
  destruct Hm as (E1 & -> & Hb1). cbn [obind]. assert (k_use_lock s1 = false) as Hu1 by (by rewrite E1).
  specialize (Hk a s1 h Hu1). unfold early_done in *. destruct (k a s1) as [b s2|e|]; [|done|done]. destruct Hk as (E2 & -> & Hb2). split; [|split; [done|tauto]].
  rewrite E2 at 1. rewrite E1. by destruct s.
Qed.
Lemma early_mem f : (forall m, Str.mem_ok m -> Str.mem_ok (f m)) -> early (modify (upd_mem f)).
Proof. intros Hf s h Hu. split; [by destruct s|]. split; [by destruct s|apply Hf]. Qed.
Lemma early_get {A} (f : kernel -> A) : (forall s h, f (set_k_hw h s) = f s) -> early (gets f).
Proof. intros Hf s h Hu. split; [by destruct s|]. split; [|done]. unfold gets. by rewrite Hf. Qed.
Lemma early_when b (m : K unit) : early m -> early (whenm b m).
Proof. intros Hm. destruct b; [done|apply early_ret]. Qed.
Lemma early_if {A} (b : bool) (m m' : K A) : early m -> early m' -> early (if b then m else m').
Proof. by destruct b. Qed.

(** The lock is not taken. *)
Lemma early_unlocked {A} (m : K unit) (k : K A) : early k -> early (u <- gets k_use_lock ;; whenm u m ;; k).
Proof.
  intros Hk s h Hu. specialize (Hk s h Hu). unfold bind, gets. cbn [obind k_use_lock set_k_hw]. rewrite Hu. exact Hk.
Qed.
Lemma early_unlock (m : K unit) : early (u <- gets k_use_lock ;; whenm u m).
Proof. intros s h Hu. unfold bind, gets. cbn [obind k_use_lock set_k_hw]. rewrite Hu. apply (early_ret tt s h Hu). Qed.
End early.

Create HintDb early discriminated.
#[export] Hint Resolve early_ret early_stop early_panic early_unlock store32_mem_ok memset_mem_ok : early.
Ltac early_step :=
  first
  [ solve [auto with early]
  | apply early_unlocked
  | apply early_mem; intros ? ?; auto with early
  | apply early_get; reflexivity
  | apply early_when
  | apply early_if
  | apply early_bind; [|intros ?] ].
Ltac early := repeat early_step.

Section routines.
Context `{Linkage}.

Lemma early_push v : early (modify (fun s => upd_mem (store32 v (k_freelist s)) s) ;; modify (set_k_freelist v)).
Proof. intros s h Hu. split; [by destruct s|]. split; [by destruct s|]. cbn. apply store32_mem_ok. Qed.
Lemma early_kfree v : early (kfree v).
Proof.
  unfold kfree. apply early_if; [early|]. apply early_bind; [early|]. intros []. apply early_unlocked.
  intros s h Hu. pose proof (early_bind _ (fun _ => u <- gets k_use_lock ;; whenm u (release L_kmem)) (early_push v) (fun _ => early_unlock _) s h Hu) as He.
  exact He.
Qed.
Lemma early_kalloc : early kalloc.
Proof.
  unfold kalloc. apply early_unlocked. apply early_bind; [early|]. intros r. apply early_bind; [|intros []; apply early_unlocked, early_ret].
  apply early_when. intros s h Hu. split; [by destruct s|]. split; [by destruct s|done].
Qed.
#[local] Hint Resolve early_kfree early_kalloc : early.
Lemma early_freerange_loop n : forall p e, early (freerange_loop n p e).
Proof. induction n as [|n IH]; intros p e; cbn [freerange_loop]; early. Qed.
Lemma early_walkpgdir d va al : early (walkpgdir d va al).
Proof. unfold walkpgdir. early. Qed.
#[local] Hint Resolve early_walkpgdir : early.
Lemma early_map_loop n : forall d a last pa perm, early (map_loop n d a last pa perm).
Proof. induction n as [|n IH]; intros d a last pa perm; cbn [map_loop]; early. Qed.
Lemma early_dealloc_loop n : forall d a e, early (dealloc_loop n d a e).
Proof. induction n as [|n IH]; intros d a e; cbn [dealloc_loop]; early. Qed.
Lemma early_free_tables n : forall d i, early (free_tables n d i).
Proof. induction n as [|n IH]; intros d i; cbn [free_tables]; early. Qed.
#[local] Hint Resolve early_map_loop early_dealloc_loop early_free_tables : early.
Lemma early_freevm d : early (freevm d).
Proof. unfold freevm, deallocuvm. early. Qed.
#[local] Hint Resolve early_freevm : early.
Lemma early_map_kernel d l : early (map_kernel d l).
Proof. induction l as [|[[[? ?] ?] ?] l IH]; cbn [map_kernel]; unfold mappages; early. Qed.
#[local] Hint Resolve early_map_kernel : early.
Lemma early_setupkvm : early setupkvm.
Proof. unfold setupkvm. early. Qed.

(** What a routine does with known processors, it does without. *)
Lemma early_run {A} (m : K A) s hf a s' : early m -> k_use_lock s = false -> m (set_k_hw hf s) = Done a s' ->
  m s = Done a (after (k_mem s') (k_freelist s') (k_hw s) s) /\ (Str.mem_ok (k_mem s) -> Str.mem_ok (k_mem s')).
Proof.
  intros Hm Hu E. specialize (Hm (set_k_hw hf s) (k_hw s) Hu). rewrite E in Hm. destruct Hm as (E1 & E2 & Hb).
  replace (set_k_hw (k_hw s) (set_k_hw hf s)) with s in E2 by (by destruct s). rewrite E2. split; [|exact Hb]. rewrite E1 at 1. by destruct s.
Qed.
End routines.

(** ** The page allocator and the kernel's page table *)
Section memory.
Context `{Linkage}.
Implicit Types (s : kernel) (l : list Z) (m : gmap Z Z).

(** Any machine with one processor will do. *)
Definition some_hw : hw := demo_hw [] false None.
Lemma some_hw_ok : hw_ok some_hw 0 [] false.
Proof. apply demo_hw_ok. apply NoDup_nil_2. Qed.

Definition whole_pages (vstart vend : Z) : list Z :=
  let first := PGROUNDUP vstart in reverse (pages first (Z.to_nat ((vend - first) / PGSIZE))).

Lemma freerange_early s l vstart vend : k_use_lock s = false -> free_pages s l ->
  kend <= vstart < KERNBASE + PHYSTOP -> PGROUNDUP vstart <= vend <= KERNBASE + PHYSTOP -> (forall q, q ∈ l -> q < vstart \/ vend <= q) ->
  exists m f, freerange vstart vend s = Done tt (after m f (k_hw s) s) /\ freelist_ok m f (whole_pages vstart vend ++ l) /\
    NoDup (whole_pages vstart vend ++ l) /\ (forall a, ~ PGROUNDUP vstart <= a < vend -> load8 m a = load8 (k_mem s) a) /\
    (Str.mem_ok (k_mem s) -> Str.mem_ok m).
Proof.
  intros Hu Hf Hs He Hl. destruct (freerange_pages (set_k_hw some_hw s) l vstart vend 0 [] false some_hw_ok) as (s' & E & _ & [Hf' Hnd] & Hfr); try done.
  { apply not_elem_of_nil. }
  destruct (early_run (freerange vstart vend) s some_hw tt s') as [E' Hb]; [apply early_freerange_loop|done|done|].
  exists (k_mem s'), (k_freelist s'). done.
Qed.

(** The table [kd] of the kernel: complete, made of pages that were free, with
    [l] still free and [X] in use for something else. *)
Record kspace m (f kd : Z) (all X l : list Z) : Prop := {
  ks_all : forall p, p ∈ all -> page_ok p;
  ks_free : freelist_ok m f l /\ NoDup l;
  ks_pages : all ≡ₚ X ++ space_pages kd m ++ l;
  ks_space : space_ok m kd l;
  ks_pte : forall va, 0 <= va < 2 ^ 32 -> pte_of m kd va = kernel_entry kmap va }.

Lemma setupkvm_early s l : k_use_lock s = false -> free_pages s l -> 65 < Z.of_nat (length l) ->
  exists kd m f l', setupkvm s = Done kd (after m f (k_hw s) s) /\ kspace m f kd l [] l' /\ Z.of_nat (length l) <= 65 + Z.of_nat (length l') /\
    (forall x, (forall p, p ∈ l -> ~ p <= x < p + PGSIZE) -> load8 m x = load8 (k_mem s) x) /\ (Str.mem_ok (k_mem s) -> Str.mem_ok m).
Proof.
  intros Hu Hf Hlen. destruct (setupkvm_ok 0 [] false (not_elem_of_nil _) (set_k_hw some_hw s) l some_hw_ok Hf) as (kd & m & f & h & l' & E & Hkd).
  destruct Hkd as [(_ & _ & ?)|(Hkd & Hb & Hc & Hpte)]; [lia|].
  destruct (early_run setupkvm s some_hw kd _ early_setupkvm Hu E) as [E' Hmb].
  exists kd, m, f, l'. split; [exact E'|]. split; [|split; [done|split; [|done]]].
  - split; [apply Hb|apply Hb| |apply Hb|done]. by apply (building_pages 0 [] false (not_elem_of_nil _) _ _ _ _ _ _ _ [] Hb).
  - intros x Hx. by apply (bu_frame _ _ _ _ _ _ _ _ _ _ _ Hb).
Qed.

(** The table, the free list and the pages in use do not depend on the rest of memory. *)
Lemma kspace_write m m1 f kd all X l : kspace m f kd all X l ->
  (forall p x, p ∈ l \/ in_space m kd p -> p <= x < p + PGSIZE -> load8 m1 x = load8 m x) -> kspace m1 f kd all X l.
Proof.
  intros [Hall [Hf Hnd] Hpg Hsp Hpte] Hm. destruct (space_same m m1 kd l Hsp) as (Hpde1 & Hpte1 & Hsp1 & _); [intros q x Hq; apply Hm; by right|].
  split; try done.
  - split; [|done]. eapply freelist_ok_ext; [|exact Hf]. intros q x Hq. apply Hm. by left.
  - by rewrite (space_pages_same kd m m1 Hpde1 Hpte1).
  - intros va Hva. rewrite Hpte1 by done. by apply Hpte.
Qed.

Lemma kspace_page m f kd all X l p : kspace m f kd all X l -> p ∈ l \/ in_space m kd p -> p ∈ all.
Proof. intros Hks Hp. rewrite (ks_pages _ _ _ _ _ _ Hks), !elem_of_app, elem_of_space_pages. tauto. Qed.

(** Memory outside the pages, and a page in use. *)
Lemma kspace_outside m m1 f kd all X l : kspace m f kd all X l -> (forall p x, p ∈ all -> p <= x < p + PGSIZE -> load8 m1 x = load8 m x) ->
  kspace m1 f kd all X l.
Proof. intros Hks Hm. eapply kspace_write; [done|]. intros p x Hp. apply Hm. by eapply kspace_page. Qed.
Lemma kspace_used m m1 f kd all X l : NoDup all -> kspace m f kd all X l ->
  (forall x, (forall p, p ∈ X -> ~ p <= x < p + PGSIZE) -> load8 m1 x = load8 m x) -> kspace m1 f kd all X l.
Proof.
  intros Hnd Hks Hm. eapply kspace_write; [done|]. intros p x Hp Hx. apply Hm. intros q Hq Hx'.
  pose proof (kspace_page _ _ _ _ _ _ _ Hks Hp) as Hpa. pose proof Hks as [Hall _ Hpg _ _].
  assert (q ∈ all) as Hqa by (rewrite Hpg, elem_of_app; by left). assert (p = q) as -> by (apply (in_page_eq p q x); auto).
  rewrite Hpg in Hnd. apply NoDup_app in Hnd as (_ & Hd & _). apply (Hd q Hq). rewrite elem_of_app, elem_of_space_pages. tauto.
Qed.

Lemma kspace_take m f kd all X p l : kspace m f kd all X (p :: l) -> f = p /\ page_ok p /\ kspace m (load32 m p) kd all (p :: X) l.
Proof.
  intros [Hall [Hf Hnd] Hpg Hsp Hpte]. destruct Hf as (-> & Hp & Hf). split; [done|]. split; [done|]. apply NoDup_cons in Hnd as [_ Hnd]. split; try done.
  - rewrite Hpg. cbn [app]. rewrite <- Permutation_middle, <- Permutation_middle. done.
  - eapply space_ok_sub; [|exact Hsp]. intros q Hq. by right.
Qed.

(** More pages are freed. *)
Lemma kspace_more m m1 f f1 kd all X l new : kspace m f kd all X l -> freelist_ok m1 f1 (new ++ l) -> NoDup (new ++ l) ->
  (forall p, p ∈ new -> p ∉ all) -> (forall p x, p ∈ all -> p <= x < p + PGSIZE -> load8 m1 x = load8 m x) -> kspace m1 f1 kd (new ++ all) X (new ++ l).
Proof.
  intros Hks Hf Hnd Hnew Hm. pose proof (kspace_outside _ m1 _ _ _ _ _ Hks Hm) as Hks1. pose proof Hks1 as [Hall _ Hpg Hsp Hpte]. split; try done.
  - intros p [Hp|Hp]%elem_of_app; [|by apply Hall]. eapply freelist_pages; [exact Hf|]. apply elem_of_app. by left.
  - rewrite Hpg, Permutation_app_swap_app. apply Permutation_app_head, Permutation_app_swap_app.
  - assert (forall q, in_space m1 kd q -> q ∉ new) as Hq by (intros q Hq Hn; apply (Hnew q Hn), (kspace_page _ _ _ _ _ _ _ Hks1); by right).
    destruct Hsp as [[Hd Hdu Ht Hi] Hv Hinj]. split; [split| |]; try done.
    + intros [Hn|?]%elem_of_app; [|done]. apply (Hq kd); [by left|done].
    + intros i Hx Hpr. destruct (Ht i Hx Hpr) as (? & ? & Hn). split_and!; [done|done|]. intros [Hn'|?]%elem_of_app; [|done].
      eapply Hq; [|exact Hn']. right; left. by exists i.
    + intros va v Hva Hpa. destruct (Hv va v Hva Hpa) as (? & ? & Hn & ?). split_and!; [done|done| |done]. intros [Hn'|?]%elem_of_app; [|done].
      apply (Hq v); [|exact Hn']. right; right. by exists va.
Qed.
End memory.

(** ** The devices *)
Section bus.
Context {D : Type} `{!Bus D} `{!Patience}.

(** The routine returns and leaves memory alone. *)
Definition quiet {A} (m : @IO D A) : Prop := forall mem d, exists a d', m (mkMach mem d) = Done a (mkMach mem d').

(** What the kernel takes for granted: the local APIC delivers an interrupt, and
    the disk gets ready, within the time the kernel waits. *)
Class Responsive := {
  apic_delivers : forall lapic, quiet (wait_delivered patience lapic);
  disk_ready : quiet (idewait_loop patience) }.

Lemma quiet_ret {A} (a : A) : quiet (ret a).
Proof. intros mem d. by eexists _, _. Qed.
Lemma quiet_bind {A B} (m : @IO D A) (k : A -> @IO D B) : quiet m -> (forall a, quiet (k a)) -> quiet (x <- m ;; k x).
Proof.
  intros Hm Hk mem d. destruct (Hm mem d) as (a & d1 & E). destruct (Hk a mem d1) as (b & d2 & E2). exists b, d2. by rewrite (bind_done _ _ _ _ _ E).
Qed.
Lemma quiet_read a : quiet (io_read a).
Proof. intros mem d. unfold io_read. cbn. destruct (bus_read a d) as [v d']. by eexists _, _. Qed.
Lemma quiet_write a v : quiet (io_write a v).
Proof. intros mem d. by eexists _, _. Qed.
Lemma quiet_if {A} (b : bool) (m m' : @IO D A) : quiet m -> quiet m' -> quiet (if b then m else m').
Proof. by destruct b. Qed.
End bus.
Arguments Responsive D {_ _}.

Create HintDb quiet discriminated.
#[export] Hint Resolve quiet_ret quiet_read quiet_write apic_delivers disk_ready : quiet.
Ltac quiet := repeat first [ solve [auto with quiet] | apply quiet_if | apply quiet_bind; [|intros ?] ].

Section quiet.
Context {D : Type} `{!Bus D} `{!Patience} `{!Responsive D}.
Implicit Types (n : nat).

Lemma quiet_inb p : quiet (@inb D _ p).
Proof. unfold inb. quiet. Qed.
Lemma quiet_outb p v : quiet (@outb D _ p v).
Proof. unfold outb. quiet. Qed.
Lemma quiet_lapicw l i v : quiet (@lapicw D _ l i v).
Proof. unfold lapicw. quiet. Qed.
#[local] Hint Resolve quiet_inb quiet_outb quiet_lapicw : quiet.
Lemma quiet_lapicinit l : quiet (@lapicinit D _ _ l).
Proof. unfold lapicinit. quiet. Qed.
Lemma quiet_mask_all n : forall i, quiet (@mask_all D _ n i).
Proof. induction n as [|n IH]; intros i; cbn [mask_all]; unfold ioapicwrite; quiet. Qed.
#[local] Hint Resolve quiet_mask_all : quiet.
Lemma quiet_ioapicinit i : quiet (@ioapicinit D _ i).
Proof. unfold ioapicinit, ioapicread. cbv zeta. quiet. Qed.
Lemma quiet_ioapicenable i c : quiet (@ioapicenable D _ i c).
Proof. unfold ioapicenable, ioapicwrite. quiet. Qed.
Lemma quiet_picinit : quiet (@picinit D _).
Proof. unfold picinit. quiet. Qed.
#[local] Hint Resolve quiet_ioapicenable : quiet.
Lemma quiet_wait_sent n : quiet (@wait_sent D _ n).
Proof. induction n as [|n IH]; cbn [wait_sent]; quiet. Qed.
Lemma quiet_uart_puts u l : quiet (@uart_puts D _ u l).
Proof. pose proof (quiet_wait_sent 128). induction l as [|c l IH]; cbn [uart_puts]; unfold uart_putc; quiet. Qed.
#[local] Hint Resolve quiet_uart_puts : quiet.
Lemma quiet_uartinit : quiet (@uartinit D _).
Proof. unfold uartinit. quiet. Qed.
Lemma quiet_probe n : quiet (@probe_disk1 D _ n).
Proof. induction n as [|n IH]; cbn [probe_disk1]; quiet. Qed.
#[local] Hint Resolve quiet_probe : quiet.
Lemma quiet_ideinit (k : Z) : quiet (@ideinit D _ _ k).
Proof. unfold ideinit, idewait. quiet. Qed.
Lemma quiet_ipis n : forall l a p, quiet (@startup_ipis D _ n l a p).
Proof. induction n as [|n IH]; intros l a p; cbn [startup_ipis]; quiet. Qed.

(** The warm-reset vector that [lapicstartap] stores. *)
Lemma lapicstartap_done l id a mem d : exists mem' d', lapicstartap l id a (mkMach mem d) = Done tt (mkMach mem' d') /\
  forall x, ~ P2V 0x467 <= x < P2V 0x46b -> load8 mem' x = load8 mem x.
Proof.
  unfold lapicstartap. destruct (quiet_outb CMOS_PORT 0xF mem d) as ([] & d1 & E1). rewrite (bind_done _ _ _ _ _ E1).
  destruct (quiet_outb (CMOS_PORT + 1) 0x0A mem d1) as ([] & d2 & E2). rewrite (bind_done _ _ _ _ _ E2).
  set (w := P2V (Z.lor (Z.shiftl 0x40 4) 0x67)). unfold modify at 1, bind at 1. cbn [obind m_mem m_dev].
  set (mem' := store8 (w + 3) _ _).
  assert (quiet (lapicw l ICRHI (u32 (Z.shiftl id 24)) ;; lapicw l ICRLO (Z.lor (Z.lor INIT LEVEL) ASSERT) ;;
    lapicw l ICRLO (Z.lor INIT LEVEL) ;; startup_ipis 2 l id a)) as Hq by (pose proof (quiet_ipis 2); quiet).
  destruct (Hq mem' d2) as ([] & d3 & E3). exists mem', d3. split; [exact E3|]. intros x Hx. unfold mem'.
  change w with (P2V 0x467). change (P2V 0x46b) with (P2V 0x467 + 4) in Hx. rewrite !load8_store8. by rewrite !decide_False by lia.
Qed.
End quiet.

(** ** The processors *)
Section processors.
Implicit Types (s : kernel) (h : hw) (id cr a : Z) (ids : list Z) (c : nat).

(** No processor holds a lock or runs a process; the one that executes has the
    APIC id [id], the page table [cr3] and interrupts off. *)
Record idle_hw h id cr3 ids : Prop := {
  ih_if : h_if h = false;
  ih_id : h_lapicid h = id;
  ih_cr3 : h_cr3 h = cr3;
  ih_ncpu : h_ncpu h = length ids;
  ih_cpus : forall i a, ids !! i = Some a -> exists r, h_cpus h !! i = Some r /\ apicid r = a /\ ncli r = 0 /\ c_proc r = None;
  ih_free : forall lk, locked (h_locks h !!! lk) = false }.

Lemma find_cpu_at id l : forall c k, (apicid <$> l) !! c = Some id -> NoDup (apicid <$> l) -> find_cpu id k l = Some (k + c)%nat.
Proof.
  induction l as [|r l IH]; intros c k Hc Hnd; [done|]. cbn [fmap list_fmap] in *. apply NoDup_cons in Hnd as [Hr Hnd]. cbn [find_cpu].
  destruct c as [|c].
  - injection Hc as <-. rewrite Z.eqb_refl. f_equal. lia.
  - rewrite (proj2 (Z.eqb_neq (apicid r) id)); [rewrite (IH c); [f_equal; lia|done|done]|]. intros E. apply Hr. rewrite E. by apply list_elem_of_lookup_2 with c.
Qed.

Lemma idle_ids h id cr3 ids : idle_hw h id cr3 ids -> apicid <$> take (h_ncpu h) (h_cpus h) = ids.
Proof.
  intros [_ _ _ Hn Hc _]. rewrite Hn. apply list_eq. intros i. rewrite list_lookup_fmap. destruct (ids !! i) as [a|] eqn:Ei.
  - pose proof (lookup_lt_Some _ _ _ Ei). destruct (Hc i a Ei) as (r & Hr & <- & _). by rewrite lookup_take_lt, Hr by done.
  - apply lookup_ge_None in Ei. by rewrite lookup_take_ge.
Qed.

Lemma idle_cpu h id cr3 ids c : idle_hw h id cr3 ids -> NoDup ids -> ids !! c = Some id ->
  find_cpu id 0 (take (h_ncpu h) (h_cpus h)) = Some c /\ exists r, h_cpus h !! c = Some r /\ apicid r = id /\ ncli r = 0 /\ c_proc r = None.
Proof.
  intros Hi Hnd Hc. split; [|by apply (ih_cpus _ _ _ _ Hi)]. pose proof (idle_ids _ _ _ _ Hi) as E. rewrite (find_cpu_at id _ c); by rewrite ?E.
Qed.
Lemma idle_ok h id cr3 ids c : idle_hw h id cr3 ids -> NoDup ids -> ids !! c = Some id -> hw_ok h c [] false.
Proof.
  intros Hi Hnd Hc. destruct (idle_cpu _ _ _ _ _ Hi Hnd Hc) as (Hf & r & Hr & _ & Hn & _). pose proof Hi as [Hif Hid _ _ _ Hfree]. split.
  - by rewrite Hid.
  - by exists r.
  - done.
  - intros lk _. apply Hfree.
  - by intros lk ?%elem_of_nil.
  - constructor.
Qed.

(** The records of the other processors. *)
Definition others_same c h h' : Prop := forall j, j <> c -> h_cpus h' !! j = h_cpus h !! j.
Lemma idle_back h h' id cr3 ids c : idle_hw h id cr3 ids -> NoDup ids -> ids !! c = Some id ->
  hw_ok h' c [] false -> hw_id h' = hw_id h -> others_same c h h' -> idle_hw h' id cr3 ids.
Proof.
  intros Hi Hnd Hc [_ (r & Hr & Hn & _) Hif Hfree _ _] [= E1 E2 E3 E4] Ho. pose proof Hi as [_ ? ? ? Hcpus _]. split; try congruence.
  - intros i a Ha. destruct (decide (i = c)) as [->|Hne]; [|rewrite Ho by done; by apply Hcpus].
    exists r. split; [done|]. destruct (Hcpus c a Ha) as (r0 & Hr0 & Ha0 & _ & Hp0).
    apply (f_equal (fun l => l !! c)) in E4. rewrite !list_lookup_fmap, Hr, Hr0 in E4. injection E4 as E5 E6 _. split_and!; [congruence|done|congruence].
  - intros lk. apply Hfree. apply not_elem_of_nil.
Qed.

Lemma acquire_others lk s s' c r : at_cpu (k_hw s) c r -> 0 <= ncli r -> acquire lk s = Done tt s' -> others_same c (k_hw s) (k_hw s').
Proof.
  intros Hat Hn E. rewrite (acquire_at _ _ _ _ Hat Hn) in E. destruct (locked (the_lock lk s)); [by case_bool_decide|]. injection E as <-.
  intros j Hj. cbn. by rewrite list_lookup_insert_ne.
Qed.
Lemma release_others lk s s' c r : at_cpu (k_hw s) c r -> 0 < ncli r -> h_if (k_hw s) = false -> release lk s = Done tt s' -> others_same c (k_hw s) (k_hw s').
Proof.
  intros Hat Hn Hi. unfold release. rewrite (bind_done _ _ _ _ _ (holding_inner lk s c r Hat Hn Hi)). destruct (_ && _); [|done]. cbn [negb].
  unfold set_lock, modify, upd_hw, bind. cbn [obind].
  rewrite (popcli_ok _ c r) by (done || lia). intros [= <-] j Hj. cbn. by rewrite list_lookup_insert_ne.
Qed.
End processors.

(** ** Locks and buffers *)
Section locks.
Implicit Types (s : kernel).

(** Locks are initialised, none is taken. *)
Definition relocked s s' : Prop := exists locks sl,
  s' = set_k_hw (set_h_locks locks (k_hw s)) (set_k_sleeplocks sl s) /\
  (forall lk, locked (h_locks (k_hw s) !!! lk) = false -> locked (locks !!! lk) = false) /\
  (forall l, sl_locked (k_sleeplocks s !!! l) = false -> sl_locked (sl !!! l) = false).
Lemma relocked_trans s s1 s2 : relocked s s1 -> relocked s1 s2 -> relocked s s2.
Proof. intros (? & ? & -> & Ha & Hb) (lk & sl & -> & Ha1 & Hb1). exists lk, sl. split; [by destruct s|]. cbn in *. split; auto. Qed.
Lemma initlock_done lk name s : exists s', initlock lk name s = Done tt s' /\ relocked s s'.
Proof.
  eexists. split; [done|]. eexists _, (k_sleeplocks s). split; [by destruct s|]. split; [|done]. intros lk' Hlk. destruct (decide (lk = lk')) as [->|Hne].
  - by rewrite lookup_total_insert_eq.
  - by rewrite lookup_total_insert_ne.
Qed.
Lemma initsleeplock_done l name s : exists s', initsleeplock l name s = Done tt s' /\ relocked s s'.
Proof.
  destruct (initlock_done (L_sleep l) "sleep lock" s) as (s1 & E & Hr). unfold initsleeplock. rewrite (bind_done _ _ _ _ _ E). eexists. split; [done|].
  eapply relocked_trans; [exact Hr|]. exists (h_locks (k_hw s1)), (<[l := mkSleeplock false name 0]> (k_sleeplocks s1)). split; [by destruct s1 as [[]]|].
  split; [done|]. intros l' Hl.
  destruct (decide (l = l')) as [->|Hne]; [by rewrite lookup_total_insert_eq|by rewrite lookup_total_insert_ne].
Qed.
Lemma relocked_bufs s s' bs : relocked s s' -> relocked (set_k_bufs bs s) (set_k_bufs bs s').
Proof. intros (lk & sl & -> & Ha & Hb). exists lk, sl. split; [by destruct s|]. split; [exact Ha|exact Hb]. Qed.

Lemma buf_get_done {A} i (f : buf -> A) s : (i < length (k_bufs s))%nat -> buf_get i f s = Done (f (k_bufs s !!! i)) s.
Proof. intros Hi. destruct (lookup_lt_is_Some_2 _ _ Hi) as [x Hx]. unfold buf_get, gets, bind. cbn [obind]. by rewrite Hx, (list_lookup_total_correct _ _ _ Hx). Qed.
Lemma buf_set_done i f s : (i < length (k_bufs s))%nat -> buf_set i f s = Done tt (set_k_bufs (<[i := f (k_bufs s !!! i)]> (k_bufs s)) s).
Proof. intros Hi. destruct (lookup_lt_is_Some_2 _ _ Hi) as [x Hx]. unfold buf_set, gets, bind. cbn [obind]. by rewrite Hx, (list_lookup_total_correct _ _ _ Hx). Qed.

Lemma push_front_bounded i bufs : bounded bufs -> (i < NBUF)%nat -> bounded (push_front i bufs).
Proof.
  intros Hb Hi. unfold push_front. cbv zeta.
  assert (forall bufs j, bounded bufs -> (nx bufs j <= NBUF)%nat) as Hn by (intros ?? [_ Hx]; apply Hx).
  repeat first [done | lia | apply bounded_next | apply bounded_prev | apply Hn].
Qed.

Lemma binit_step_done i s : bounded (k_bufs s) -> (i < NBUF)%nat ->
  exists s', binit_step i s = Done tt (set_k_bufs (push_front i (k_bufs s)) s') /\ relocked s s'.
Proof.
  intros Hb Hi. pose proof Hb as [Hl Hlinks]. unfold binit_step, push_front. cbv zeta.
  rewrite (bind_done _ _ _ _ _ (buf_get_done NBUF b_next s ltac:(lia))). fold (nx (k_bufs s) NBUF).
  set (B1 := set_next i (nx (k_bufs s) NBUF) (k_bufs s)). set (B2 := set_prev i NBUF B1).
  assert (bounded B2) as Hb2 by (apply bounded_prev; [apply bounded_next; [done|lia|apply Hlinks]|lia|done]). pose proof Hb2 as [Hl2 Hlinks2].
  rewrite (bind_done _ _ _ tt (set_k_bufs B1 s)) by (by rewrite buf_set_done by lia).
  rewrite (bind_done _ _ _ tt (set_k_bufs B2 s)) by (rewrite buf_set_done; [by destruct s|cbn; unfold B1; rewrite set_next_length; lia]).
  destruct (initsleeplock_done (SL_buf i) "buffer" (set_k_bufs B2 s)) as (s1 & E1 & Hr). rewrite (bind_done _ _ _ _ _ E1). clear E1.
  destruct Hr as (lk & sl & -> & Ha & Hs).
  set (s1 := set_k_hw _ _). assert (k_bufs s1 = B2) as Eb1 by done.
  rewrite (bind_done _ _ _ _ _ (buf_get_done NBUF b_next s1 ltac:(rewrite Eb1; lia))). unfold s1. cbn [k_bufs set_k_bufs set_k_hw set_k_sleeplocks k_hw]. fold (nx B2 NBUF).
  pose proof (proj1 (Hlinks2 NBUF)) as Hn2.
  rewrite (bind_done _ _ _ tt (set_k_bufs (set_prev (nx B2 NBUF) i B2) (set_k_hw (set_h_locks lk (k_hw s)) (set_k_sleeplocks sl s))))
    by (rewrite buf_set_done by (cbn; lia); by destruct s).
  rewrite buf_set_done by (cbn; rewrite set_prev_length; lia).
  eexists (set_k_hw (set_h_locks lk (k_hw s)) (set_k_sleeplocks sl s)). split; [by destruct s|]. exists lk, sl. done.
Qed.
Lemma binit_loop_done idx : forall s, bounded (k_bufs s) -> (forall i, i ∈ idx -> (i < NBUF)%nat) ->
  exists s', binit_loop idx s = Done tt (set_k_bufs (fold_left (fun bufs i => push_front i bufs) idx (k_bufs s)) s') /\ relocked s s'.
Proof.
  induction idx as [|i idx IH]; intros s Hb Hi; cbn [binit_loop fold_left].
  { exists s. split; [by destruct s|]. exists (h_locks (k_hw s)), (k_sleeplocks s). split; [by destruct s as [[]]|done]. }
  destruct (binit_step_done i s Hb (Hi i ltac:(by left))) as (s1 & E1 & Hr1). rewrite (bind_done _ _ _ _ _ E1).
  destruct (IH (set_k_bufs (push_front i (k_bufs s)) s1)) as (s2 & E2 & Hr2); [by apply push_front_bounded, Hi; [|left]|intros j Hj; apply Hi; by right|].
  rewrite E2. exists (set_k_bufs (k_bufs s) s2). split; [by destruct s2|]. eapply relocked_trans; [exact Hr1|].
  destruct Hr1 as (lk1 & sl1 & -> & _ & _). apply (relocked_bufs _ _ (k_bufs s)) in Hr2. replace (set_k_hw (set_h_locks lk1 (k_hw s)) (set_k_sleeplocks sl1 s)) with
    (set_k_bufs (k_bufs s) (set_k_bufs (push_front i (k_bufs s)) (set_k_hw (set_h_locks lk1 (k_hw s)) (set_k_sleeplocks sl1 s)))) by (by destruct s). exact Hr2.
Qed.

#[local] Transparent init_bufs.
Lemma binit_done s : k_bufs s = replicate (S NBUF) buf_zero -> exists s', binit s = Done tt (set_k_bufs init_bufs s') /\ relocked s s'.
Proof.
  intros Eb. unfold binit. destruct (initlock_done L_bcache "bcache" s) as (s1 & E1 & Hr1). rewrite (bind_done _ _ _ _ _ E1).
  assert (k_bufs s1 = replicate (S NBUF) buf_zero) as Eb1 by (destruct Hr1 as (? & ? & -> & _); exact Eb).
  rewrite (bind_done _ _ _ tt s1) by (rewrite buf_set_done, Eb1 by (rewrite Eb1, length_replicate; lia); destruct s1; cbn in Eb1; by rewrite Eb1).
  rewrite (bind_done _ _ _ tt s1) by (rewrite buf_set_done, Eb1 by (rewrite Eb1, length_replicate; lia); destruct s1; cbn in Eb1; by rewrite Eb1).
  destruct (binit_loop_done (seq 0 NBUF) s1) as (s2 & E2 & Hr2).
  - rewrite Eb1. split; [done|]. intros j. unfold nx, pv. rewrite list_lookup_total_alt. destruct (decide (j < S NBUF)%nat).
    + rewrite lookup_replicate_2 by done. cbn. done.
    + rewrite lookup_ge_None_2 by (rewrite length_replicate; lia). cbn. unfold NBUF. lia.
  - intros i Hi. apply elem_of_seq in Hi. lia.
  - rewrite E2, Eb1. exists s2. unfold init_bufs. split; [reflexivity|]. exact (relocked_trans _ _ _ Hr1 Hr2).
Qed.
End locks.

(** ** The board *)
Section board.
Context {D : Type} `{!Bus D} `{!Patience} `{!Responsive D}.
Implicit Types (w : board D).

Lemma on_kernel_done {A} (m : K A) w a s : m (b_kernel w) = Done a s -> on_kernel m w = Done a (set_kernel s w).
Proof. intros E. unfold on_kernel. by rewrite E. Qed.
Lemma on_bus_quiet {A} (m : @IO D A) w : quiet m -> exists a d, on_bus m w = Done a (set_dev (k_mem (b_kernel w)) d w).
Proof. intros Hm. destruct (Hm (k_mem (b_kernel w)) (b_dev w)) as (a & d & E). exists a, d. unfold on_bus. by rewrite E. Qed.
Lemma kernel_set_dev w d : b_kernel (set_dev (k_mem (b_kernel w)) d w) = b_kernel w.
Proof. cbn. by destruct (b_kernel w). Qed.

(** [cprintf] on processor [c]. *)
Lemma cprintf_on `{Serial} fmt args s c : hw_ok (k_hw s) c [] false -> cons_ok (k_cons s) -> Forall is_byte fmt -> Forall arg_bytes args -> args_fit fmt args = true ->
  exists h x, cprintf fmt args s = Done tt (set_k_hw h (set_k_cons x s)) /\ hw_ok h c [] false /\ hw_id h = hw_id (k_hw s) /\ cons_ok x /\ others_same c (k_hw s) h.
Proof.
  intros Hok Hs Hf Ha Hfit. destruct (cprintf_loop_emits (length fmt) fmt args ltac:(done) Hf Ha Hfit) as (out & Hout & He).
  unfold cprintf, cons_get. rewrite (bind_done _ _ s (c_locking (k_cons s)) s) by done.
  destruct (c_locking (k_cons s)) eqn:Elk; cbn [whenm].
  - destruct (acquire_ok L_cons s c [] false Hok (not_elem_of_nil _)) as (h1 & E1 & Hok1 & Hid1).
    destruct (He (set_k_hw h1 s) Hs) as (x & E2 & Hx).
    destruct (release_ok L_cons (set_k_cons x (set_k_hw h1 s)) c [] false Hok1) as (h2 & E3 & Hok2 & Hid2).
    exists h2, x. rewrite (bind_done _ _ _ _ _ E1), (bind_done _ _ _ _ _ E2), E3.
    destruct (hw_ok_at _ _ _ _ Hok) as (r & Hat & Hn & _ & _). destruct (hw_ok_at _ _ _ _ Hok1) as (r1 & Hat1 & Hn1 & _ & Hi1).
    split_and!; [done|done|by rewrite Hid2|apply Hx|]. cbn in Hn, Hn1.
    pose proof (release_others L_cons (set_k_cons x (set_k_hw h1 s)) _ c r1 Hat1 ltac:(lia) (Hi1 ltac:(lia)) E3) as Ho3.
    pose proof (acquire_others L_cons s _ c r Hat ltac:(lia) E1) as Ho1.
    intros j Hj. transitivity (h_cpus h1 !! j); [by apply Ho3|by apply Ho1].
  - destruct (He s Hs) as (x & E2 & Hx). exists (k_hw s), x.
    rewrite (bind_done _ _ _ tt s) by done. rewrite (bind_done _ _ _ _ _ E2). split_and!; [by destruct s|done|done|apply Hx|done].
Qed.

Lemma print_done fmt args w c : hw_ok (k_hw (b_kernel w)) c [] false -> cons_ok (k_cons (b_kernel w)) -> Forall arg_bytes args -> args_fit (bytes fmt ++ [10]) args = true ->
  exists h x, print fmt args w = Done tt (set_kernel (set_k_hw h (set_k_cons x (b_kernel w))) w) /\
    hw_ok h c [] false /\ hw_id h = hw_id (k_hw (b_kernel w)) /\ cons_ok x /\ others_same c (k_hw (b_kernel w)) h.
Proof.
  intros Hok Hs Ha Hfit. destruct (@cprintf_on (b_uart w) (bytes fmt ++ [10]) args (b_kernel w) c Hok Hs) as (h & x & E & Hh); [|done|done|].
  - apply Forall_app. split; [apply text_bytes|]. constructor; [by split|constructor].
  - exists h, x. split; [|done]. unfold print. rewrite (bind_done _ _ w (b_uart w) w) by done. by apply on_kernel_done.
Qed.

Lemma cpuid_done w c : hw_ok (k_hw (b_kernel w)) c [] false -> on_kernel cpuid w = Done c w.
Proof.
  intros Hok. destruct (hw_ok_at _ _ _ _ Hok) as (r & Hat & _). rewrite (on_kernel_done _ _ c (b_kernel w)); [by destruct w|].
  apply (mycpu_ok _ c r Hat). by rewrite (ho_if _ _ _ _ Hok).
Qed.

(** [mpmain] on processor [c]. *)
Lemma mpmain_done w c : hw_ok (k_hw (b_kernel w)) c [] false -> cons_ok (k_cons (b_kernel w)) ->
  exists h x, mpmain_start w = Done tt (set_started c (set_idtr c (idtinit (b_idt w)) (set_kernel (set_k_hw h (set_k_cons x (b_kernel w))) w))) /\
    hw_ok h c [] false /\ hw_id h = hw_id (k_hw (b_kernel w)) /\ cons_ok x /\ others_same c (k_hw (b_kernel w)) h.
Proof.
  intros Hok Hs. unfold mpmain_start. rewrite (bind_done _ _ _ _ _ (cpuid_done _ _ Hok)), (bind_done _ _ _ _ _ (cpuid_done _ _ Hok)).
  destruct (print_done "cpu%d: starting %d" [AInt (Z.of_nat c); AInt (Z.of_nat c)] w c Hok Hs) as (h & x & E & Hh); [by repeat constructor|done|].
  rewrite (bind_done _ _ _ _ _ E). exists h, x. split; [|done]. set (w1 := set_kernel _ w). set (w2 := set_idtr c (idtinit (b_idt w)) w1).
  rewrite (bind_done _ _ w1 tt w2) by done. by rewrite (bind_done (on_kernel mycpu) _ w2 c w2 (cpuid_done w2 c (proj1 Hh))).
Qed.

Lemma seginit_done w c g : hw_ok (k_hw (b_kernel w)) c [] false -> b_gdt w !! c = Some g ->
  seginit_ w = Done tt (set_gdt c (seginit g).1 (seginit g).2 w).
Proof.
  intros Hok Hg. unfold seginit_. rewrite (bind_done _ _ _ _ _ (cpuid_done _ _ Hok)). unfold get, bind. cbn [obind]. rewrite Hg. cbn [of_option ret obind]. done.
Qed.
Lemma lapicinit_done w : exists d, lapicinit_ w = Done tt (set_dev (k_mem (b_kernel w)) d w).
Proof.
  unfold lapicinit_. rewrite (bind_done _ _ w (b_lapic w) w) by done. destruct (on_bus_quiet _ w (quiet_lapicinit (b_lapic w))) as ([] & d & E). by exists d.
Qed.
End board.

(** ** Starting the other processors *)
(** The entry code sees the first 4 megabytes at 0 and at [KERNBASE]. *)
Lemma entrypgdir_maps va : KERNBASE <= va < KERNBASE + 0x400000 -> big_translate entrypgdir va = Some (va - KERNBASE).
Proof.
  intros Hva. unfold big_translate. assert (va / 2 ^ 22 = 512) as -> by (unfold KERNBASE in *; Z.to_euclidean_division_equations; lia).
  assert (entrypgdir !! Z.to_nat 512 = Some 0x83) as -> by (by vm_compute). cbn [mbind option_bind]. change (bit_of 0x83 PTE_P && bit_of 0x83 PTE_PS) with true. cbv iota.
  f_equal. unfold KERNBASE in *. change (0x83 / 2 ^ 22 * 2 ^ 22) with 0. Z.to_euclidean_division_equations. lia.
Qed.

Lemma vstore_bytes_done l : forall va s, KERNBASE <= va -> exists m, vstore_bytes va l s = Done tt (set_k_mem m s) /\
  forall x, load8 m x = if decide (va <= x < va + Z.of_nat (length l)) then u8 (l !!! Z.to_nat (x - va)) else load8 (k_mem s) x.
Proof.
  induction l as [|v l IH]; intros va s Hva; cbn [vstore_bytes].
  { exists (k_mem s). split; [by destruct s|]. intros x. by rewrite decide_False by (cbn; lia). }
  assert (vstore8 va v s = Done tt (upd_mem (store8 va v) s)) as E.
  { unfold vstore8, kaddr. by rewrite (proj2 (Z.leb_le KERNBASE va) Hva). }
  rewrite (bind_done _ _ _ _ _ E). destruct (IH (va + 1) (upd_mem (store8 va v) s)) as (m & E2 & Hm); [lia|]. exists m. split; [rewrite E2; by destruct s|].
  intros x. rewrite Hm. cbn [length k_mem upd_mem set_k_mem]. rewrite load8_store8. repeat case_decide; try lia; try done.
  - replace (Z.to_nat (x - va)) with (S (Z.to_nat (x - (va + 1)))) by lia. done.
  - subst. by rewrite Z.sub_diag.
Qed.

Section starting.
Context {D : Type} `{!Bus D} `{!Patience} `{!Responsive D} `{Linkage} `{!Image} `{Schedule}.
Context (ids : list Z) (boot : nat) (id0 kd : Z) (all : list Z).
Hypothesis ids_once : NoDup ids.
Hypothesis boot_known : ids !! boot = Some id0.
Hypothesis patient : (1 <= patience)%nat.
Hypothesis all_low : forall p, p ∈ all -> p + PGSIZE <= KERNBASE + 0x400000.
Implicit Types (w : board D) (X l : list Z).

(** The kernel between [mpinit] and [kinit2], on the processor [id]. *)
Record starting (k : kernel) (id cr : Z) X l : Prop := {
  sg_hw : idle_hw (k_hw k) id cr ids;
  sg_mem : kspace (k_mem k) (k_freelist k) kd all X l;
  sg_lock : k_use_lock k = false;
  sg_cons : cons_ok (k_cons k);
  sg_kd : k_kpgdir k = kd }.
Lemma starting_ok k id cr X l c : starting k id cr X l -> ids !! c = Some id -> hw_ok (k_hw k) c [] false.
Proof. intros Hs Hc. by eapply idle_ok; [apply Hs| |]. Qed.

(** The parts of the kernel that the start of a processor leaves alone. *)
Definition unchanged (k k' : kernel) : Prop := k' = set_k_hw (k_hw k') (set_k_mem (k_mem k') (set_k_freelist (k_freelist k') (set_k_cons (k_cons k') k))).
Lemma unchanged_refl k : unchanged k k.
Proof. by destruct k. Qed.
Lemma unchanged_trans k k1 k2 : unchanged k k1 -> unchanged k1 k2 -> unchanged k k2.
Proof. intros E1 E2. unfold unchanged. rewrite E2, E1. by destruct k. Qed.

(** What processor [c] has after [mpmain]. *)
Record ready (idt : list gatedesc) w (c : nat) : Prop := {
  rd_gdt : b_gdt w !! c = Some (seginit gdt_zero).1;
  rd_gdtr : b_gdtr w !! c = Some (seginit gdt_zero).2;
  rd_idtr : b_idtr w !! c = Some (idtinit idt);
  rd_started : b_started w !! c = Some true }.
Record sized w : Prop := {
  sz_gdtr : length (b_gdtr w) = MAXCPU;
  sz_idtr : length (b_idtr w) = MAXCPU;
  sz_started : length (b_started w) = MAXCPU }.
(** It touches the entries of its own only. *)
Record only w w' (c : nat) : Prop := {
  on_globals : b_lapic w' = b_lapic w /\ b_ioapicid w' = b_ioapicid w /\ b_idt w' = b_idt w /\ b_uart w' = b_uart w /\ b_havedisk1 w' = b_havedisk1 w;
  on_sized : sized w -> sized w';
  on_others : forall j, j <> c -> b_gdt w' !! j = b_gdt w !! j /\ b_gdtr w' !! j = b_gdtr w !! j /\ b_idtr w' !! j = b_idtr w !! j /\ b_started w' !! j = b_started w !! j }.

Lemma mpenter_done w c id cr X l : starting (b_kernel w) id cr X l -> ids !! c = Some id -> (c < MAXCPU)%nat -> sized w ->
  b_gdt w !! c = Some gdt_zero -> b_started w !! c = Some false ->
  exists w', mpenter_start w = Done tt w' /\ starting (b_kernel w') id (V2P kd) X l /\ unchanged (b_kernel w) (b_kernel w') /\
    ready (b_idt w) w' c /\ only w w' c /\ b_sipi w' = b_sipi w.
Proof.
  intros Hs Hc Hmax [Hz1 Hz2 Hz3] Hg Hst. unfold mpenter_start. pose proof Hs as [Hi Hm Hl Hco Hk].
  set (w1 := set_kernel (upd_hw (set_h_cr3 (V2P kd)) (b_kernel w)) w).
  rewrite (bind_done _ _ w tt w1) by (unfold on_kernel, switchkvm, bind, gets, lcr3; cbn; by rewrite Hk).
  assert (idle_hw (k_hw (b_kernel w1)) id (V2P kd) ids) as Hi1 by (by destruct Hi).
  assert (hw_ok (k_hw (b_kernel w1)) c [] false) as Hok1 by (by eapply idle_ok).
  rewrite (bind_done _ _ _ _ _ (seginit_done w1 c gdt_zero Hok1 Hg)). set (w2 := set_gdt _ _ _ w1).
  destruct (lapicinit_done w2) as [d E3]. rewrite (bind_done _ _ _ _ _ E3). set (w3 := set_dev _ d w2).
  assert (b_kernel w3 = b_kernel w1) as Ek by (unfold w3; by rewrite kernel_set_dev).
  destruct (mpmain_done w3 c) as (h & x & E4 & Hok4 & Hid4 & Hx & Ho); [by rewrite Ek|rewrite Ek; exact Hco|].
  rewrite E4. eexists. split; [done|]. cbn [b_kernel set_started set_idtr set_kernel]. rewrite Ek in *. split; [|split; [by destruct w as [[]]|split; [|split; [|done]]]].
  - split; try done. cbn. by apply (idle_back (k_hw (b_kernel w1)) _ id (V2P kd) ids c).
  - split; cbn; rewrite list_lookup_insert_eq; try done.
    + by apply lookup_lt_Some in Hg.
    + by rewrite Hz1.
    + by rewrite Hz2.
    + by apply lookup_lt_Some in Hst.
  - split; [done|intros _; split; cbn; by rewrite length_insert|]. intros j Hj. cbn. by rewrite !list_lookup_insert_ne.
Qed.

(** *** The schedulers of the other processors *)
Lemma scheduler_enter_done w c id cr : idle_hw (k_hw (b_kernel w)) id cr ids -> ids !! c = Some id -> on_kernel scheduler_enter w = Done tt w.
Proof.
  intros Hi Hc. pose proof (idle_ok _ _ _ _ _ Hi ids_once Hc) as Hok. destruct (idle_cpu _ _ _ _ _ Hi ids_once Hc) as (Hf & r & Hr & _ & _ & Hp).
  rewrite (on_kernel_done _ _ tt (b_kernel w)); [by destruct w|]. unfold scheduler_enter. rewrite (bind_done _ _ _ c (b_kernel w)).
  - unfold set_cpu_proc, modify, upd_hw. rewrite (alter_lookup_insert _ _ _ _ Hr), list_insert_id by (rewrite Hr; destruct r; cbn in Hp; by rewrite Hp).
    f_equal. by destruct (b_kernel w) as [[]].
  - apply (mycpu_ok _ c r); [split; [by rewrite (ih_id _ _ _ _ Hi)|done]|apply (ih_if _ _ _ _ Hi)].
Qed.

(** A round finds nothing to run, and leaves every processor idle. *)
Lemma round_idle k c id cr : idle_hw (k_hw k) id cr ids -> ids !! c = Some id -> queues_ok (k_pt k) aempty ->
  exists h, scheduler_round c k = Done tt (set_k_hw h k) /\ idle_hw (set_h_if false h) id cr ids.
Proof.
  clear patient. intros Hi Hc Hq. pose proof (idle_ok _ _ _ _ _ Hi ids_once Hc) as Hok. unfold scheduler_round.
  set (k1 := upd_hw (set_h_if true) k). rewrite (bind_done sti _ k tt k1) by done.
  assert (hw_ok (k_hw k1) c [] true) as Hok1 by (by eapply hw_ok_sti).
  destruct (acquire_ok L_ptable k1 c [] true Hok1 (not_elem_of_nil _)) as (h2 & E2 & Hok2 & Hid2). rewrite (bind_done _ _ _ _ _ E2).
  rewrite (bind_done _ _ _ _ _ (pick_none c aempty (set_k_hw h2 k1) Hq NPRIO 0 eq_refl ltac:(done))).
  destruct (release_ok L_ptable (set_k_hw h2 k1) c [] true Hok2) as (h3 & E3 & Hok3 & Hid3).
  destruct (hw_ok_at _ _ _ _ Hok1) as (r1 & Hat1 & Hn1 & _ & _). destruct (hw_ok_at _ _ _ _ Hok2) as (r2 & Hat2 & Hn2 & _ & Hi2). cbn in Hn1, Hn2.
  pose proof (acquire_others L_ptable k1 _ c r1 Hat1 ltac:(lia) E2) as Ho2.
  pose proof (release_others L_ptable (set_k_hw h2 k1) _ c r2 Hat2 ltac:(lia) (Hi2 ltac:(lia)) E3) as Ho3.
  exists h3. split; [by destruct k|]. apply (idle_back (k_hw k) _ id cr ids c); try done.
  - destruct Hok3 as [? (r & ? & ? & _) _ ? ? ?]. split; try done. by exists r.
  - unfold hw_id in *. cbn in *. congruence.
  - intros j Hj. transitivity (h_cpus h2 !! j); [by apply Ho3|by apply Ho2].
Qed.

Lemma other_round_done w c cr : idle_hw (k_hw (b_kernel w)) id0 cr ids -> queues_ok (k_pt (b_kernel w)) aempty ->
  exists h, other_round c w = Done tt (set_kernel (set_k_hw h (b_kernel w)) w) /\ idle_hw h id0 cr ids.
Proof.
  intros Hi Hq. assert (Done tt w = Done tt (set_kernel (set_k_hw (k_hw (b_kernel w)) (b_kernel w)) w)) as Hsame by (by destruct w as [[]]).
  unfold other_round. rewrite (bind_done _ _ w w w) by done. cbv zeta. destruct (take _ _ !! c) as [r|] eqn:Er; [|by eexists].
  destruct (b_started w !! c) as [[]|]; [|by eexists..]. destruct (apicid r =? _); [by eexists|].
  assert (ids !! c = Some (apicid r)) as Hc by (rewrite <- (idle_ids _ _ _ _ Hi), list_lookup_fmap, Er; done).
  set (k1 := upd_hw (fun h => mkHw false (apicid r) (V2P (k_kpgdir (b_kernel w))) (h_cpus h) (h_ncpu h) (h_locks h)) (b_kernel w)).
  assert (idle_hw (k_hw k1) (apicid r) (V2P (k_kpgdir (b_kernel w))) ids) as Hi1 by (by destruct Hi).
  destruct (round_idle k1 c _ _ Hi1 Hc Hq) as (h & E & Hh). unfold on_cpu.
  rewrite (bind_done _ _ w (k_hw (b_kernel w)) w) by done. rewrite (bind_done _ _ w tt (set_kernel k1 w)) by done.
  rewrite (bind_done _ _ _ _ _ (on_kernel_done (scheduler_round c) (set_kernel k1 w) tt _ E)). eexists. split; [reflexivity|].
  destruct Hi as [? ? ? _ _ _], Hh as [_ _ _ ? ? ?]. by split.
Qed.

Lemma other_rounds_done (cs : list nat) : forall w cr, idle_hw (k_hw (b_kernel w)) id0 cr ids -> queues_ok (k_pt (b_kernel w)) aempty ->
  exists h, other_rounds cs w = Done tt (set_kernel (set_k_hw h (b_kernel w)) w) /\ idle_hw h id0 cr ids.
Proof.
  induction cs as [|c cs IH]; intros w cr Hi Hq; cbn [other_rounds].
  - exists (k_hw (b_kernel w)). split; [by destruct w as [[]]|done].
  - destruct (other_round_done w c cr Hi Hq) as (h & E & Hh). rewrite (bind_done _ _ _ _ _ E).
    destruct (IH (set_kernel (set_k_hw h (b_kernel w)) w) cr Hh Hq) as (h' & E' & Hh'). rewrite E'. by exists h'.
Qed.

(** The start-up interrupt: the processor finds its stack, its function and its
    page table in the words below the code, and the boot processor goes on as it was. *)
Definition start_words m stack : Prop :=
  load32 m (P2V 0x7000 - 4) = stack /\ load32 m (P2V 0x7000 - 8) = mpenter_addr /\ load32 m (P2V 0x7000 - 12) = V2P entrypgdir_addr.
Lemma others_done w c id cr stack X l : starting (b_kernel w) id0 cr X l -> ids !! c = Some id -> (c < MAXCPU)%nat -> sized w ->
  b_gdt w !! c = Some gdt_zero -> b_started w !! c = Some false ->
  b_sipi w = Some (id, 0x7000) -> start_words (k_mem (b_kernel w)) stack -> KERNBASE < stack <= KERNBASE + 0x400000 -> kend <= KERNBASE + 0x400000 ->
  exists w', others w = Done tt w' /\ starting (b_kernel w') id0 cr X l /\ unchanged (b_kernel w) (b_kernel w') /\
    ready (b_idt w) w' c /\ only w w' c.
Proof.
  intros Hs Hc Hmax Hz Hg Hst Hsipi (W1 & W2 & W3) Hstk Hend. unfold others. rewrite (bind_done _ _ w w w) by done. rewrite Hsipi.
  rewrite (bind_done _ _ w tt (set_sipi None w)) by done. cbv zeta. rewrite W1, W2, W3. pose proof mpenter_range. unfold KERNLINK, EXTMEM in *.
  rewrite !bool_decide_eq_true_2 by (done || (rewrite entrypgdir_maps by lia; by eexists)). cbn [andb]. unfold on_cpu.
  set (h0 := k_hw (b_kernel w)). rewrite (bind_done _ _ (set_sipi None w) h0 (set_sipi None w)) by done.
  set (w1 := set_kernel (upd_hw (fun h => mkHw false id (V2P entrypgdir_addr) (h_cpus h) (h_ncpu h) (h_locks h)) (b_kernel w)) (set_sipi None w)).
  rewrite (bind_done _ _ _ tt w1) by done. pose proof Hs as [Hi Hm Hl Hco Hk].
  destruct (mpenter_done w1 c id (V2P entrypgdir_addr) X l) as (w2 & E2 & Hs2 & Hu2 & Hr2 & Ho2 & _); try done.
  { split; try done. by destruct Hi. }
  { by destruct Hz. }
  assert ((mpenter_start ;; on_kernel scheduler_enter) w1 = Done tt w2) as E3.
  { rewrite (bind_done _ _ _ _ _ E2). by apply (scheduler_enter_done w2 c id (V2P kd)); [apply Hs2|]. }
  rewrite (bind_done _ _ _ _ _ E3). eexists. split; [done|]. destruct Hs2 as [Hi2 Hm2 Hl2 Hc2 Hk2]. split; [|split; [|split]].
  - split; try done. destruct Hi as [? ? ? _ _ _], Hi2 as [_ _ _ ? ? ?]. by split.
  - cbn. eapply unchanged_trans; [|eapply unchanged_trans; [exact Hu2|]]; [by destruct w as [[]]|by destruct (b_kernel w2)].
  - by destruct Hr2.
  - destruct Ho2 as [Hg2 Hz2 Hj2]. split; [exact Hg2| |exact Hj2]. intros [? ? ?]. destruct Hz2 as [? ? ?]; by split.
Qed.

Lemma start_words_stored m p m4 : page_ok p ->
  (forall x, ~ P2V 0x467 <= x < P2V 0x46b -> load8 m4 x = load8 (store32 (P2V 0x7000 - 12) (V2P entrypgdir_addr)
    (store32 (P2V 0x7000 - 8) mpenter_addr (store32 (P2V 0x7000 - 4) (u32 (p + KSTACKSIZE)) m))) x) ->
  start_words m4 (p + KSTACKSIZE).
Proof.
  intros Hp Hm4. change (P2V 0x467) with 0x80000467 in Hm4. change (P2V 0x46b) with 0x8000046b in Hm4. unfold start_words. change (P2V 0x7000) with 0x80007000 in *.
  pose proof Hp as [_ Hpr]. pose proof mpenter_range. pose proof kend_range. unfold KERNLINK, KERNBASE, EXTMEM, PHYSTOP, KSTACKSIZE in *.
  set (M := store32 _ _ _) in Hm4. assert (forall a, 0x80006000 <= a -> load32 m4 a = load32 M a) as Hl by (intros a Ha; apply load32_ext; intros x Hx; apply Hm4; lia).
  rewrite !Hl by lia. unfold M. split_and!.
  - rewrite !load32_store32_ne by lia. rewrite load32_store32_eq, u32_u32. apply u32_small. lia.
  - rewrite !load32_store32_ne by lia. rewrite load32_store32_eq. apply u32_small. lia.
  - rewrite load32_store32_eq. apply u32_u32.
Qed.

(** The words for the entry code and the reset vector lie below the pages of the allocator. *)
Lemma start_stores_low m v m4 p x :
  (forall x, ~ P2V 0x467 <= x < P2V 0x46b -> load8 m4 x = load8 (store32 (P2V 0x7000 - 12) (V2P entrypgdir_addr)
    (store32 (P2V 0x7000 - 8) mpenter_addr (store32 (P2V 0x7000 - 4) v m))) x) ->
  page_ok p -> p <= x < p + PGSIZE -> load8 m4 x = load8 m x.
Proof.
  intros Hm4 [_ Hp] Hx. pose proof kend_range. unfold KERNLINK, KERNBASE, EXTMEM in *.
  change (P2V 0x467) with 0x80000467 in Hm4. change (P2V 0x46b) with 0x8000046b in Hm4. change (P2V 0x7000) with 0x80007000 in Hm4.
  rewrite Hm4, !load8_store32 by lia. by rewrite !decide_False by lia.
Qed.

(** The boot processor polls until [others] has done its part, and goes on after
    the rounds of the processors that run already. *)
Lemma wait_started_done w w' c cr : b_started w !! c = Some false -> others w = Done tt w' -> b_started w' !! c = Some true ->
  idle_hw (k_hw (b_kernel w')) id0 cr ids -> queues_ok (k_pt (b_kernel w')) aempty ->
  exists h, wait_started patience c w = Done tt (set_kernel (set_k_hw h (b_kernel w')) w') /\ idle_hw h id0 cr ids.
Proof.
  intros Hw E Hw' Hi Hq. pose proof patient as Hp. pose proof (fun n => other_rounds_done (turns (WhileStarting c n)) w' cr Hi Hq) as Hor. destruct patience as [|n]; [lia|]. cbn [wait_started].
  rewrite (bind_done _ _ w w w), Hw, (bind_done _ _ w false w), (bind_done _ _ _ _ _ E) by done.
  destruct (Hor n) as (h & Er & Hh). exists h. split; [|done].
  rewrite (bind_done _ _ _ _ _ Er). set (w2 := set_kernel _ w').
  destruct n as [|n]; cbn [wait_started]; rewrite (bind_done _ _ w2 w2 w2) by done; cbn [b_started w2 set_kernel]; rewrite Hw', (bind_done _ _ w2 true w2) by done; done.
Qed.

(** The loop of [startothers]. *)
Definition progress (idt : list gatedesc) w (i : nat) : Prop :=
  forall j, (j < length ids)%nat -> j <> boot -> if decide (j < i)%nat then ready idt w j else b_gdt w !! j = Some gdt_zero /\ b_started w !! j = Some false.
(** A processor is started. *)
Lemma start_one w c id cr p X l : starting (b_kernel w) id0 cr X (p :: l) -> queues_ok (k_pt (b_kernel w)) aempty -> ids !! c = Some id -> c <> boot -> (length ids <= MAXCPU)%nat -> sized w ->
  b_gdt w !! c = Some gdt_zero -> b_started w !! c = Some false -> kend <= KERNBASE + 0x400000 ->
  exists w', (stack <- on_kernel kalloc ;;
      store_word (P2V 0x7000 - 4) (u32 (stack + KSTACKSIZE)) ;;
      store_word (P2V 0x7000 - 8) mpenter_addr ;;
      store_word (P2V 0x7000 - 12) (V2P entrypgdir_addr) ;;
      b <- get ;;
      r <- of_option "cpus" (h_cpus (k_hw (b_kernel b)) !! c) ;;
      on_bus (lapicstartap (b_lapic b) (apicid r) (V2P (P2V 0x7000))) ;;
      modify (set_sipi (Some (apicid r, V2P (P2V 0x7000)))) ;;
      wait_started patience c) w = Done tt w' /\
    starting (b_kernel w') id0 cr (p :: X) l /\ unchanged (b_kernel w) (b_kernel w') /\ ready (b_idt w) w' c /\ only w w' c.
Proof.
  intros Hs Hq Hc Hcb Hmax Hz Hg Hst Hend. pose proof Hs as [Hi Hm Hl Hco Hk]. destruct (kspace_take _ _ _ _ _ _ _ Hm) as (Ef & Hp & Hm1).
  set (k := b_kernel w) in *. pose proof (ks_all _ _ _ _ _ _ Hm) as Hpok.
  assert (p ∈ all) as Hpa by (eapply kspace_page; [exact Hm|]; left; by left).
  assert (kalloc k = Done p (set_k_freelist (load32 (k_mem k) p) k)) as Ea.
  { destruct (kalloc_ok (set_k_hw some_hw k) (p :: l) 0 [] false some_hw_ok (not_elem_of_nil _) (ks_free _ _ _ _ _ _ Hm)) as (h' & E & _).
    destruct (early_run kalloc k some_hw _ _ early_kalloc Hl E) as [E' _]. rewrite E'. cbn. rewrite Ef. by destruct k. }
  rewrite (bind_done _ _ _ _ _ (on_kernel_done kalloc w p _ Ea)). clear Ea.
  set (m1 := store32 (P2V 0x7000 - 4) (u32 (p + KSTACKSIZE)) (k_mem k)). set (m2 := store32 (P2V 0x7000 - 8) mpenter_addr m1).
  set (m3 := store32 (P2V 0x7000 - 12) (V2P entrypgdir_addr) m2).
  set (k3 := set_k_mem m3 (set_k_freelist (load32 (k_mem k) p) k)). set (w3 := set_kernel k3 w).
  do 3 (erewrite bind_done by reflexivity). erewrite (bind_done get) by reflexivity. cbn [b_kernel set_kernel].
  change (h_cpus (k_hw _)) with (h_cpus (k_hw k)).
  destruct (ih_cpus _ _ _ _ Hi c id Hc) as (r & Hr & Har & _). fold k in Hr. rewrite Hr. rewrite (bind_done _ _ _ r w3) by done. rewrite Har.
  destruct (lapicstartap_done (b_lapic w) id 0x7000 m3 (b_dev w)) as (m4 & d4 & E4 & Hm4).
  set (w4 := set_dev m4 d4 w3). change (V2P (P2V 0x7000)) with 0x7000.
  assert (on_bus (lapicstartap (b_lapic w) id 0x7000) w3 = Done tt w4) as E5 by (unfold on_bus; change (mkMach (k_mem (b_kernel w3)) (b_dev w3)) with (mkMach m3 (b_dev w)); by rewrite E4).
  rewrite (bind_done _ _ _ _ _ E5). clear E4 E5. set (w5 := set_sipi (Some (id, 0x7000)) w4). rewrite (bind_done _ _ _ tt w5) by done.
  assert (starting (b_kernel w5) id0 cr (p :: X) l) as Hs5.
  { split; try done. cbn. eapply kspace_outside; [exact Hm1|]. intros q x Hqa Hx. by eapply start_stores_low; [exact Hm4|apply Hpok|]. }
  pose proof (all_low p Hpa) as Hlow. pose proof (proj2 Hp) as Hpr. pose proof kend_range as Hkr. unfold KERNLINK, KERNBASE, EXTMEM, PGSIZE in *.
  destruct (others_done w5 c id cr (p + KSTACKSIZE) (p :: X) l Hs5) as (w' & Eo & Hs' & Hu' & Hr' & Ho'); try done.
  { apply lookup_lt_Some in Hc. lia. } { by destruct Hz. } { by apply (start_words_stored (k_mem k) p m4). } { unfold KSTACKSIZE, KERNBASE. lia. }
  assert (k_pt (b_kernel w') = k_pt k) as Hpt by exact (f_equal k_pt Hu').
  destruct (wait_started_done w5 w' c cr Hst Eo (rd_started _ _ _ Hr') (sg_hw _ _ _ _ _ Hs') ltac:(by rewrite Hpt)) as (h & Ew & Hh).
  eexists. split; [exact Ew|]. split; [by destruct Hs'|]. split; [|split; [by destruct Hr'|]].
  - eapply unchanged_trans; [|eapply unchanged_trans; [exact Hu'|]]; [by destruct w as [[]]|by destruct w' as [[]]].
  - destruct Ho' as [Hg' Hz' Hj']. split; [exact Hg'| |exact Hj']. intros [? ? ?]. destruct Hz' as [? ? ?]; by split.
Qed.

(** Board and kernel apart from what the start of processors touches. *)
Definition same_globals w w' : Prop :=
  b_lapic w' = b_lapic w /\ b_ioapicid w' = b_ioapicid w /\ b_idt w' = b_idt w /\ b_uart w' = b_uart w /\ b_havedisk1 w' = b_havedisk1 w.
Definition same_entry w w' c : Prop := b_gdt w' !! c = b_gdt w !! c /\ b_gdtr w' !! c = b_gdtr w !! c.
Lemma ready_same idt w w' c j : only w w' c -> j <> c -> ready idt w j -> ready idt w' j.
Proof. intros [_ _ Ho] Hj [? ? ? ?]. destruct (Ho j Hj) as (? & ? & ? & ?). split; congruence. Qed.

Lemma startothers_loop_done idt n : forall w i cr X l, starting (b_kernel w) id0 cr X l -> queues_ok (k_pt (b_kernel w)) aempty -> (i + n = length ids)%nat -> (n <= length l)%nat ->
  (length ids <= MAXCPU)%nat -> sized w -> b_idt w = idt -> progress idt w i -> kend <= KERNBASE + 0x400000 ->
  exists w' X' l', startothers_loop (P2V 0x7000) n i w = Done tt w' /\ starting (b_kernel w') id0 cr X' l' /\ unchanged (b_kernel w) (b_kernel w') /\
    progress idt w' (length ids) /\ sized w' /\ same_globals w w' /\ same_entry w w' boot /\
    (length X' + (if decide (i <= boot) then 1 else 0) = length X + n)%nat.
Proof.
  pose proof (lookup_lt_Some _ _ _ boot_known) as Hbl. induction n as [|n IH]; intros w i cr X l Hs Hq Hn Hl Hmax Hz Eidt Hpr Hend; cbn [startothers_loop].
  { exists w, X, l. replace (length ids) with i by lia. split; [done|]. split; [done|]. split; [apply unchanged_refl|]. split_and!; try done. rewrite decide_False by lia. lia. }
  pose proof (starting_ok _ _ _ _ _ boot Hs boot_known) as Hok. rewrite (bind_done _ _ _ _ _ (cpuid_done w boot Hok : on_kernel mycpu w = Done boot w)).
  destruct (decide (i = boot)) as [->|Hib].
  - rewrite (bind_done _ _ w tt w) by done. destruct (IH w (S boot) cr X l) as (w' & X' & l' & E & ? & ? & ? & ? & ? & ? & Hx); try done; [lia|lia| |].
    { intros j Hj Hjb. specialize (Hpr j Hj Hjb). repeat case_decide; try done; lia. }
    exists w', X', l'. split_and!; try done. rewrite decide_False in Hx by lia. rewrite decide_True by lia. lia.
  - destruct (lookup_lt_is_Some_2 ids i) as [id Hid]; [lia|]. pose proof (Hpr i ltac:(lia) Hib) as Hpi. rewrite decide_False in Hpi by lia.
    destruct Hpi as [Hg Hst]. destruct l as [|p l]; [cbn in Hl; lia|].
    destruct (start_one w i id cr p X l Hs Hq Hid Hib Hmax Hz Hg Hst Hend) as (w1 & E1 & Hs1 & Hu1 & Hr1 & Ho1). rewrite (bind_done _ _ _ _ _ E1).
    destruct (IH w1 (S i) cr (p :: X) l Hs1) as (w2 & X2 & l2 & E2 & Hs2 & Hu2 & Hp2 & Hz2 & Hg2 & He2 & Hx2); try done.
    + replace (k_pt (b_kernel w1)) with (k_pt (b_kernel w)); [done|exact (eq_sym (f_equal k_pt Hu1))]. + lia. + cbn in Hl. lia. + by apply Ho1. + rewrite <- Eidt. apply Ho1.
    + intros j Hj Hjb. specialize (Hpr j Hj Hjb). destruct (decide (j = i)) as [->|Hji]; [rewrite decide_True by lia; by rewrite <- Eidt|].
      destruct (decide (j < S i)%nat); destruct (decide (j < i)%nat); try lia; [by eapply ready_same|].
      destruct (on_others _ _ _ Ho1 j Hji) as (-> & _ & _ & ->). done.
    + exists w2, X2, l2. split_and!; try done; [by eapply unchanged_trans|..].
      * destruct (on_globals _ _ _ Ho1) as (? & ? & ? & ? & ?), Hg2 as (? & ? & ? & ? & ?). split_and!; congruence.
      * destruct (on_others _ _ _ Ho1 boot ltac:(done)) as (? & ? & _). destruct He2. split; congruence.
      * cbn [length] in Hx2. repeat case_decide; lia.
Qed.

Lemma startothers_done w cr X l : starting (b_kernel w) id0 cr X l -> queues_ok (k_pt (b_kernel w)) aempty -> (length ids <= length l)%nat -> (length ids <= MAXCPU)%nat -> sized w ->
  progress (b_idt w) w 0 -> kend <= KERNBASE + 0x400000 ->
  exists w' X' l', startothers w = Done tt w' /\ starting (b_kernel w') id0 cr X' l' /\ unchanged (b_kernel w) (b_kernel w') /\
    progress (b_idt w) w' (length ids) /\ sized w' /\ same_globals w w' /\ same_entry w w' boot /\ (S (length X') = length X + length ids)%nat.
Proof.
  intros Hs Hq Hl Hmax Hz Hp Hend. unfold startothers. cbv zeta. pose proof Hs as [Hi Hm Hlk Hc Hk].
  destruct (vstore_bytes_done entryother_code (P2V 0x7000) (b_kernel w)) as (m & E & Hld); [by vm_compute|].
  rewrite (bind_done _ _ _ _ _ (on_kernel_done _ _ _ _ E)). set (w1 := set_kernel _ w).
  rewrite (bind_done _ _ w1 (length ids) w1) by (unfold gets, w1; cbn; by rewrite (ih_ncpu _ _ _ _ Hi)).
  destruct (startothers_loop_done (b_idt w) (length ids) w1 0 cr X l) as (w2 & X2 & l2 & E2 & Hs2 & Hu2 & Hrest); try done.
  - split; try done. cbn. eapply kspace_outside; [exact Hm|]. intros q x Hqa Hx. rewrite Hld, decide_False; [done|].
    pose proof (ks_all _ _ _ _ _ _ Hm q Hqa) as [_ ?]. pose proof kend_range. pose proof entryother_fits. change (P2V 0x7000) with (KERNBASE + 0x7000). unfold KERNLINK in *. lia.
  - by destruct Hz.
  - exists w2, X2, l2. split; [done|]. split; [done|]. split; [eapply unchanged_trans; [|exact Hu2]; by destruct w as [[]]|].
    destruct Hrest as (? & ? & ? & ? & Hx). rewrite decide_True in Hx by lia. split_and!; try done. lia.
Qed.
End starting.

(** ** The tables of the BIOS *)
Section bios.
Context `{Linkage}.
Implicit Types (m : gmap Z Z) (conf lapic : Z) (es : list mpentry).

(** The tables lie below the end of the kernel, out of the way of the allocator. *)
Record bios m conf lapic es : Prop := {
  bi_points : mp_points m conf;
  bi_table : table_at m conf lapic es (44 + size es);
  bi_areas : forall p, p ∈ mp_areas m -> p + 16 <= kend;
  bi_low : conf + 44 + size es <= kend }.

Lemma mem_bytes_ext m m' p n : (forall x, p <= x < p + Z.of_nat n -> load8 m' x = load8 m x) -> mem_bytes m' p n = mem_bytes m p n.
Proof. intros Hm. unfold mem_bytes. apply list_fmap_ext. intros i k [-> Hk]%lookup_seq. apply Hm. lia. Qed.
Lemma first_mp_in m l p : first_mp m l = Some p -> p ∈ l.
Proof. unfold first_mp. intros Hp. apply head_Some_elem_of, list_elem_of_filter in Hp. apply Hp. Qed.
Lemma first_mp_ext m m' l : (forall p x, p ∈ l -> p <= x < p + 16 -> load8 m' x = load8 m x) -> first_mp m' l = first_mp m l.
Proof.
  intros Hm. unfold first_mp. f_equal. induction l as [|p l IH]; [done|]. rewrite !filter_cons, IH by (intros q x Hq; apply Hm; by right).
  assert (mp_valid m' p <-> mp_valid m p) as Hv.
  { unfold mp_valid. rewrite (mem_bytes_ext m m' p 4), (mem_bytes_ext m m' p 16); [done|intros x Hx; apply (Hm p); [by left|lia]..]. }
  repeat case_decide; tauto.
Qed.

Lemma bios_ext m m' conf lapic es : bios m conf lapic es -> (forall x, x < kend -> load8 m' x = load8 m x) -> mp_points m' conf /\ table_at m' conf lapic es (44 + size es).
Proof.
  intros [(mp & Hf & Hpa & Hc) [Hs Hv Hl Hsum Hla Hb Hok Hfit] Ha Hlow] Hm. pose proof kend_range as Hk. unfold KERNLINK, EXTMEM in Hk. pose proof (size_nonneg es).
  assert (mp_areas m' = mp_areas m) as Ea.
  { unfold mp_areas, ebda, basemem, load16. change (P2V 0x40E) with (KERNBASE + 0x40E). change (P2V 0x413) with (KERNBASE + 0x413). by rewrite !Hm by lia. }
  pose proof (Ha mp (first_mp_in _ _ _ Hf)) as Hmp.
  assert (load32 m' (mp + 4) = load32 m (mp + 4)) as El by (apply load32_ext; intros; apply Hm; lia). split.
  - exists mp. rewrite El, Ea. split; [|done]. rewrite <- Hf. apply first_mp_ext. intros p x Hp Hx. apply Hm. specialize (Ha p Hp). lia.
  - split; try done.
    + rewrite <- Hs. apply mem_bytes_ext. intros x Hx. apply Hm. lia.
    + by rewrite Hm by lia.
    + unfold load16. rewrite !Hm by lia. done.
    + rewrite <- Hsum. f_equal. apply mem_bytes_ext. intros x Hx. apply Hm. lia.
    + rewrite <- Hla. apply load32_ext. intros x Hx. apply Hm. lia.
    + intros k v Hkv. rewrite <- (Hb k v Hkv). apply Hm. apply lookup_lt_Some in Hkv. unfold size in *. lia.
Qed.
End bios.

(** ** Up to the start of the other processors *)
Section prefix.
Context {D : Type} `{!Bus D} `{!Patience} `{!Responsive D} `{Linkage} `{!Image}.
Context (mem : gmap Z Z) (disk : list (list Z)) (dev0 : D) (conf lapic : Z) (es : list mpentry) (boot : nat) (id0 : Z).
#[local] Abbreviation ids := (take 8 (processors es)).
#[local] Abbreviation low := (whole_pages kend (P2V (4 * 1024 * 1024))).
Hypothesis mem_bytes_ok : Str.mem_ok mem.
Hypothesis tables : bios mem conf lapic es.
Hypothesis ids_once : NoDup ids.
Hypothesis boot_known : ids !! boot = Some id0.
Hypothesis room : PGROUNDUP kend + 80 * PGSIZE <= KERNBASE + 0x400000.
Implicit Types (w : board D) (k : kernel).

Lemma elem_of_pages n : forall a p, p ∈ pages a n -> a <= p /\ p + PGSIZE <= a + PGSIZE * Z.of_nat n.
Proof.
  induction n as [|n IH]; intros a p Hp; cbn [pages] in Hp; [by apply elem_of_nil in Hp|]. unfold PGSIZE in *.
  apply elem_of_cons in Hp as [->|Hp%IH]; lia.
Qed.
Lemma length_pages n : forall a, length (pages a n) = n.
Proof. induction n as [|n IH]; intros a; cbn; [done|]. by rewrite IH. Qed.
Lemma elem_of_whole a e p : PGROUNDUP a <= e -> p ∈ whole_pages a e -> PGROUNDUP a <= p /\ p + PGSIZE <= e.
Proof.
  intros He Hp. unfold whole_pages in Hp. apply elem_of_reverse, elem_of_pages in Hp as [? Hp]. split; [done|].
  rewrite Z2Nat.id in Hp by (apply Z.div_pos; unfold PGSIZE; lia). pose proof (Z.mul_div_le (e - PGROUNDUP a) PGSIZE ltac:(done)). lia.
Qed.
Lemma length_whole a e : PGROUNDUP a <= e -> Z.of_nat (length (whole_pages a e)) = (e - PGROUNDUP a) / PGSIZE.
Proof. intros He. unfold whole_pages. rewrite length_reverse, length_pages, Z2Nat.id; [done|]. apply Z.div_pos; unfold PGSIZE; lia. Qed.

Lemma low_end : P2V (4 * 1024 * 1024) = KERNBASE + 0x400000.
Proof. done. Qed.
Lemma low_pages : PGROUNDUP kend <= P2V (4 * 1024 * 1024) <= KERNBASE + PHYSTOP /\ kend <= PGROUNDUP kend /\ 80 <= Z.of_nat (length low) /\
  forall p, p ∈ low -> kend <= p /\ p + PGSIZE <= KERNBASE + 0x400000.
Proof.
  pose proof kend_range as Hk. destruct (PGROUNDUP_spec kend) as [_ Hr]; [unfold KERNLINK, KERNBASE, EXTMEM, PHYSTOP, PGSIZE in *; lia|].
  rewrite low_end. assert (PGROUNDUP kend <= KERNBASE + 0x400000) as Hle by (unfold PGSIZE in *; lia).
  split; [unfold PHYSTOP; lia|]. split; [lia|]. split.
  - rewrite length_whole by done. apply Z.div_le_lower_bound; [done|]. lia.
  - intros p Hp. destruct (elem_of_whole _ _ _ Hle Hp). lia.
Qed.

(** The kernel's data that nothing has used yet. *)
Record fresh k : Prop := {
  fr_pt : k_pt k = ptable_zero;
  fr_pid : k_nextpid k = 1;
  fr_icache : k_icache k = replicate NINODE inode_zero;
  fr_ftable : k_ftable k = replicate NFILE file_zero;
  fr_first : k_first k = true;
  fr_disk : k_disk k = disk;
  fr_sleep : forall l, sl_locked (k_sleeplocks k !!! l) = false }.

(** [kinit1] and [kvmalloc]. *)
Lemma memory_done : exists kd m f l h, (on_kernel (kinit1 kend (P2V (4 * 1024 * 1024))) ;; on_kernel kvmalloc) (loaded mem disk dev0 id0) =
    Done tt (set_kernel (set_k_kpgdir kd (after m f h (b_kernel (loaded mem disk dev0 id0)))) (loaded mem disk dev0 id0)) /\
  kspace m f kd low [] l /\ 15 <= Z.of_nat (length l) /\ Str.mem_ok m /\ (forall x, x < kend -> load8 m x = load8 mem x) /\
  h_if h = false /\ h_lapicid h = id0 /\ h_cr3 h = V2P kd /\ h_cpus h = replicate MAXCPU cpu_zero /\ h_ncpu h = 0%nat /\ forall lk, locked (h_locks h !!! lk) = false.
Proof.
  destruct low_pages as (He & Hk & Hlen & Hlow). pose proof kend_range as Hr. set (w0 := loaded mem disk dev0 id0).
  destruct (initlock_done L_kmem "kmem" (b_kernel w0)) as (s1 & E1 & locks & sl & Es1 & Hlk & _).
  set (s2 := set_k_use_lock false s1). assert (s2 = set_k_hw (set_h_locks locks (k_hw (b_kernel w0))) (b_kernel w0)) as Es2.
  { unfold s2. rewrite Es1. injection E1 as E1. rewrite <- E1 in Es1. apply (f_equal k_sleeplocks) in Es1. cbn in Es1. by rewrite <- Es1. }
  destruct (freerange_early s2 [] kend (P2V (4 * 1024 * 1024))) as (m1 & f1 & E2 & Hf1 & Hnd1 & Hfr1 & Hb1); try done.
  { rewrite Es2. split; [done|constructor]. } { lia. } { by intros q ?%elem_of_nil. }
  rewrite app_nil_r in Hf1, Hnd1. set (s3 := after m1 f1 (k_hw s2) s2).
  assert (kinit1 kend (P2V (4 * 1024 * 1024)) (b_kernel w0) = Done tt s3) as E3.
  { unfold kinit1. rewrite (bind_done _ _ _ _ _ E1). rewrite (bind_done _ _ s1 tt s2) by done. exact E2. }
  rewrite (bind_done _ _ _ _ _ (on_kernel_done _ w0 _ _ E3)).
  destruct (setupkvm_early s3 low) as (kd & m & f & l & E4 & Hks & Hc & Hfr & Hb); [done|by split|lia|].
  exists kd, m, f, l, (set_h_cr3 (V2P kd) (set_h_locks locks (k_hw (b_kernel w0)))). split; [|split; [done|split; [lia|split; [|split]]]].
  - unfold on_kernel, kvmalloc. cbn [b_kernel set_kernel]. rewrite (bind_done _ _ _ _ _ E4). unfold s3. rewrite Es2. by destruct w0 as [[]].
  - apply Hb, Hb1. by rewrite Es2.
  - intros x Hx. rewrite Hfr by (intros p Hp; specialize (Hlow p Hp); lia). cbn [k_mem s3 after set_k_hw set_k_freelist set_k_mem].
    rewrite Hfr1 by lia. by rewrite Es2.
  - split_and!; try done. intros lk. apply Hlk. change (locked ((∅ : gmap lockid spinlock) !!! lk) = false). by rewrite lookup_total_empty.
Qed.

(** The board between [mpinit] and [startothers]. *)
Record pre w kd l gdts gdtr idt bufs : Prop := {
  pe_start : starting ids kd low (b_kernel w) id0 (V2P kd) [] l;
  pe_fresh : fresh (b_kernel w);
  pe_bufs : k_bufs (b_kernel w) = bufs;
  pe_gdt : b_gdt w = gdts;
  pe_gdtr : b_gdtr w = gdtr;
  pe_idtr : b_idtr w = replicate MAXCPU 0;
  pe_started : b_started w = replicate MAXCPU false;
  pe_idt : b_idt w = idt }.

Lemma known_cpu i a : (i < MAXCPU)%nat -> ids !! i = Some a ->
  h_cpus (known_cpus ids (mkHw false id0 0 (replicate MAXCPU cpu_zero) 0 ∅)) !! i = Some (mkCpu a 0 false None 0).
Proof. intros Hi Ha. cbn [known_cpus h_cpus]. rewrite list_lookup_imap, lookup_replicate_2 by done. cbn [fmap option_fmap option_map]. by rewrite Ha. Qed.

Lemma mpinit_done w kd m f l h : b_kernel w = set_k_kpgdir kd (after m f h (b_kernel (loaded mem disk dev0 id0))) ->
  kspace m f kd low [] l -> Str.mem_ok m -> (forall x, x < kend -> load8 m x = load8 mem x) ->
  h_if h = false -> h_lapicid h = id0 -> h_cr3 h = V2P kd -> h_cpus h = replicate MAXCPU cpu_zero -> (forall lk, locked (h_locks h !!! lk) = false) ->
  b_gdt w = replicate MAXCPU gdt_zero -> b_gdtr w = replicate MAXCPU 0 -> b_idtr w = replicate MAXCPU 0 -> b_started w = replicate MAXCPU false ->
  b_idt w = replicate 256 gate_zero ->
  exists w', mpinit_ w = Done tt w' /\
    pre w' kd l (replicate MAXCPU gdt_zero) (replicate MAXCPU 0) (replicate 256 gate_zero) (replicate (S NBUF) buf_zero) /\
    b_lapic w' = lapic /\ b_ioapicid w' = default 0 (last (ioapics es)).
Proof.
  intros Ek Hks Hb Hm Hif Hid Hcr Hcpus Hlk Hg Hgr Hir Hst Hidt. destruct (bios_ext _ m _ _ _ tables Hm) as [Hpt Htab].
  pose proof (mpinit_discovers (Z.to_nat 8192) m conf lapic es (b_dev w) Hb Hpt Htab ltac:(by vm_compute)) as Hw.
  apply wp_atomic_done in Hw as (i & s & E & -> & Em). unfold mpinit_.
  assert (on_bus (mpinit (Z.to_nat 8192)) w = Done (described lapic es) (set_dev m (m_dev s) w)) as E1.
  { unfold on_bus. rewrite Ek. change (k_mem _) with m. rewrite E, <- Em. done. }
  rewrite (bind_done _ _ _ _ _ E1). set (w1 := set_dev m (m_dev s) w). set (w2 := set_apics lapic (default 0 (last (ioapics es))) w1).
  rewrite (bind_done _ _ w1 tt w2) by done. eexists. split; [done|]. subst w2 w1. cbn [b_kernel set_kernel set_apics set_dev]. rewrite Ek. split; [|done].
  split; try done. split; try done. split; try done.
  intros i a Ha. assert (i < MAXCPU)%nat as Hi by (apply lookup_lt_Some in Ha; rewrite length_take in Ha; unfold MAXCPU; lia).
  exists (mkCpu a 0 false None 0). split; [|done]. change (h_cpus (known_cpus ids h) !! i = Some (mkCpu a 0 false None 0)).
  rewrite <- (known_cpu i a Hi Ha). cbn [known_cpus h_cpus]. by rewrite Hcpus.
Qed.

Lemma pre_bus {A} w kd l g gr idt bufs (m : @IO D A) : pre w kd l g gr idt bufs -> quiet m -> exists a w', on_bus m w = Done a w' /\ pre w' kd l g gr idt bufs.
Proof.
  intros [Hs Hf ? ? ? ? ? ?] Hq. destruct (on_bus_quiet m w Hq) as (a & d & E). exists a, (set_dev (k_mem (b_kernel w)) d w). split; [done|].
  split; rewrite ?kernel_set_dev; done.
Qed.
Lemma pre_locks w kd l g gr idt bufs k' : pre w kd l g gr idt bufs -> relocked (b_kernel w) k' -> pre (set_kernel k' w) kd l g gr idt bufs.
Proof.
  intros [[Hi ? ? ? ?] Hf ? ? ? ? ? ?] (locks & sl & -> & Hl & Hsl). split; try done.
  - split; try done. destruct Hi as [? ? ? ? ? Hfree]. split; try done. intros lk. apply Hl, Hfree.
  - destruct Hf. split; try done. intros sl'. by apply Hsl.
Qed.
Lemma pre_init w kd l g gr idt bufs lk name : pre w kd l g gr idt bufs -> exists w', on_kernel (initlock lk name) w = Done tt w' /\ pre w' kd l g gr idt bufs.
Proof.
  intros Hp. destruct (initlock_done lk name (b_kernel w)) as (s & E & Hr). exists (set_kernel s w). split; [by apply on_kernel_done|by apply pre_locks].
Qed.
Lemma pre_lapicinit w kd l g gr idt bufs : pre w kd l g gr idt bufs -> exists w', lapicinit_ w = Done tt w' /\ pre w' kd l g gr idt bufs.
Proof. intros Hp. unfold lapicinit_. destruct (pre_bus w kd l g gr idt bufs _ Hp (quiet_lapicinit (b_lapic w))) as ([] & w' & E & Hp'). by exists w'. Qed.
Lemma pre_print w kd l g gr idt bufs fmt : pre w kd l g gr idt bufs -> args_fit (bytes fmt ++ [10]) [] = true ->
  exists w', print fmt [] w = Done tt w' /\ pre w' kd l g gr idt bufs.
Proof.
  intros [Hs Hf ? ? ? ? ? ?] Hfit. pose proof (starting_ok _ _ _ ids_once _ _ _ _ _ boot Hs boot_known) as Hok. pose proof Hs as [Hi ? ? Hc ?].
  destruct (print_done fmt [] w boot Hok Hc) as (h & x & E & Hh & Hid & Hx & Ho); [constructor|done|]. eexists. split; [exact E|]. split; try done.
  - split; try done. by apply (idle_back (k_hw (b_kernel w)) _ id0 (V2P kd) ids boot).
  - by destruct Hf.
Qed.

Lemma bind_done_assoc {S A} (m1 m2 : S -> outcome S unit) (k : S -> outcome S A) x x' : (m1 ;; m2) x = Done tt x' -> (m1 ;; m2 ;; k) x = k x'.
Proof. unfold bind. destruct (m1 x) as [? w1| |]; cbn [obind]; [|done|done]. by intros ->. Qed.

#[local] Abbreviation gdts1 := (<[boot := (seginit gdt_zero).1]> (replicate MAXCPU gdt_zero)).
#[local] Abbreviation gdtr1 := (<[boot := (seginit gdt_zero).2]> (replicate MAXCPU 0)).
#[local] Abbreviation idt0 := (replicate 256 gate_zero).
#[local] Abbreviation idt1 := (tvinit vectors idt0).
#[local] Abbreviation bufs0 := (replicate (S NBUF) buf_zero).

(** The routines of [main], one by one. *)
Lemma pre_seginit w kd l idt bufs : pre w kd l (replicate MAXCPU gdt_zero) (replicate MAXCPU 0) idt bufs -> (boot < MAXCPU)%nat ->
  exists w', seginit_ w = Done tt w' /\ pre w' kd l gdts1 gdtr1 idt bufs.
Proof.
  intros Hp Hb. pose proof Hp as [Hs ? ? Hg Hr ? ? ?]. pose proof (starting_ok _ _ _ ids_once _ _ _ _ _ boot Hs boot_known) as Hok.
  eexists. split; [by apply (seginit_done w boot gdt_zero Hok); rewrite Hg; apply lookup_replicate_2|]. split; try done; cbn; by rewrite ?Hg, ?Hr.
Qed.
Lemma pre_picinit w kd l g gr idt bufs : pre w kd l g gr idt bufs -> exists w', on_bus picinit w = Done tt w' /\ pre w' kd l g gr idt bufs.
Proof. intros Hp. destruct (pre_bus _ _ _ _ _ _ _ _ Hp quiet_picinit) as ([] & w' & E & Hp'). by exists w'. Qed.
Lemma pre_ioapicinit w kd l g gr idt bufs : pre w kd l g gr idt bufs -> exists w', ioapicinit_ w = Done tt w' /\ pre w' kd l g gr idt bufs.
Proof.
  intros Hp. unfold ioapicinit_. rewrite (bind_done _ _ w (b_ioapicid w) w) by done.
  destruct (pre_bus _ _ _ _ _ _ _ _ Hp (quiet_ioapicinit (b_ioapicid w))) as (b & w' & E & Hp'). rewrite (bind_done _ _ _ _ _ E).
  destruct b; [by apply pre_print|by exists w'].
Qed.
Lemma pre_consoleinit w kd l g gr idt bufs : pre w kd l g gr idt bufs -> exists w', consoleinit_ w = Done tt w' /\ pre w' kd l g gr idt bufs.
Proof.
  intros Hp. destruct (initlock_done L_cons "console" (b_kernel w)) as (s & E & Hr). pose proof (pre_locks _ _ _ _ _ _ _ _ Hp Hr) as Hp1.
  set (k2 := set_k_cons (set_c_locking true (k_cons s)) s).
  assert (pre (set_kernel k2 w) kd l g gr idt bufs) as Hp2.
  { destruct Hp1 as [[? ? ? Hc ?] [] ? ? ? ? ? ?]. split; try done. split; try done. by destruct Hc. }
  destruct (pre_bus _ _ _ _ _ _ _ _ Hp2 (quiet_ioapicenable IRQ_KBD 0)) as ([] & w' & E' & Hp'). exists w'. split; [|done]. unfold consoleinit_.
  rewrite (bind_done _ _ w tt (set_kernel k2 w)); [exact E'|]. apply on_kernel_done. unfold consoleinit. by rewrite (bind_done _ _ _ _ _ E).
Qed.
Lemma pre_uartinit w kd l g gr idt bufs : pre w kd l g gr idt bufs -> exists w', uartinit_ w = Done tt w' /\ pre w' kd l g gr idt bufs.
Proof.
  intros Hp. unfold uartinit_. destruct (pre_bus _ _ _ _ _ _ _ _ Hp quiet_uartinit) as (u & w' & E & [? ? ? ? ? ? ? ?]). rewrite (bind_done _ _ _ _ _ E).
  by eexists.
Qed.
Lemma pre_tvinit w kd l g gr idt bufs : pre w kd l g gr idt bufs -> exists w', tvinit_ w = Done tt w' /\ pre w' kd l g gr (tvinit vectors idt) bufs.
Proof.
  intros Hp. unfold tvinit_. rewrite (bind_done _ _ w w w) by done. set (w1 := set_idt (tvinit vectors (b_idt w)) w). rewrite (bind_done _ _ w tt w1) by done.
  apply pre_init. destruct Hp as [? ? ? ? ? ? ? <-]. by split.
Qed.
Lemma pre_binit w kd l g gr idt : pre w kd l g gr idt bufs0 -> exists w', on_kernel binit w = Done tt w' /\ pre w' kd l g gr idt init_bufs.
Proof.
  intros Hp. destruct (binit_done (b_kernel w) (pe_bufs _ _ _ _ _ _ _ Hp)) as (s & E & Hr). eexists. split; [by apply on_kernel_done|].
  destruct (pre_locks _ _ _ _ _ _ _ _ Hp Hr) as [[] [] ? ? ? ? ? ?]. split; try done; split; done.
Qed.
Lemma pre_ideinit w kd l g gr idt bufs : pre w kd l g gr idt bufs -> exists w', ideinit_ w = Done tt w' /\ pre w' kd l g gr idt bufs.
Proof.
  intros Hp. unfold ideinit_. destruct (pre_init _ _ _ _ _ _ _ L_idelock "ide" Hp) as (w1 & E & Hp1). rewrite (bind_done _ _ _ _ _ E).
  set (n := h_ncpu (k_hw (b_kernel w1))). rewrite (bind_done _ _ w1 n w1) by done.
  destruct (pre_bus _ _ _ _ _ _ _ _ Hp1 (quiet_ideinit (Z.of_nat n))) as (b & w2 & E2 & [? ? ? ? ? ? ? ?]). rewrite (bind_done _ _ _ _ _ E2). by eexists.
Qed.

(** The processor's own tables, the devices, the locks and the buffers. *)
Lemma devices_done w kd l (k : @B D unit) : pre w kd l (replicate MAXCPU gdt_zero) (replicate MAXCPU 0) idt0 bufs0 -> (boot < MAXCPU)%nat ->
  exists w', (lapicinit_ ;; seginit_ ;; on_bus picinit ;; ioapicinit_ ;; consoleinit_ ;; uartinit_ ;; on_kernel pinit ;; tvinit_ ;;
      on_kernel binit ;; on_kernel fileinit ;; ideinit_ ;; k) w = k w' /\
    pre w' kd l gdts1 gdtr1 idt1 init_bufs.
Proof.
  intros Hp0 Hb. destruct (pre_lapicinit _ _ _ _ _ _ _ Hp0) as (w0 & E0 & Hp). rewrite (bind_done _ _ _ _ _ E0). clear Hp0 E0.
  destruct (pre_seginit _ _ _ _ _ Hp Hb) as (w1 & E1 & Hp1). rewrite (bind_done _ _ _ _ _ E1). clear Hp E1.
  destruct (pre_picinit _ _ _ _ _ _ _ Hp1) as (w2 & E2 & Hp2). rewrite (bind_done _ _ _ _ _ E2). clear Hp1 E2.
  destruct (pre_ioapicinit _ _ _ _ _ _ _ Hp2) as (w3 & E3 & Hp3). rewrite (bind_done _ _ _ _ _ E3). clear Hp2 E3.
  destruct (pre_consoleinit _ _ _ _ _ _ _ Hp3) as (w4 & E4 & Hp4). rewrite (bind_done _ _ _ _ _ E4). clear Hp3 E4.
  destruct (pre_uartinit _ _ _ _ _ _ _ Hp4) as (w5 & E5 & Hp5). rewrite (bind_done _ _ _ _ _ E5). clear Hp4 E5.
  destruct (pre_init _ _ _ _ _ _ _ L_ptable "ptable" Hp5) as (w6 & E6 & Hp6). rewrite (bind_done (on_kernel pinit) _ _ _ _ E6). clear Hp5 E6.
  destruct (pre_tvinit _ _ _ _ _ _ _ Hp6) as (w7 & E7 & Hp7). rewrite (bind_done _ _ _ _ _ E7). clear Hp6 E7.
  destruct (pre_binit _ _ _ _ _ _ Hp7) as (w8 & E8 & Hp8). rewrite (bind_done _ _ _ _ _ E8). clear Hp7 E8.
  destruct (pre_init _ _ _ _ _ _ _ L_ftable "ftable" Hp8) as (w9 & E9 & Hp9). rewrite (bind_done (on_kernel fileinit) _ _ _ _ E9). clear Hp8 E9.
  destruct (pre_ideinit _ _ _ _ _ _ _ Hp9) as (w10 & E10 & Hp10). rewrite (bind_done _ _ _ _ _ E10). by exists w10.
Qed.
End prefix.
