(* ===== verification/Userinit.v ===== *)
(** * The first process, and the kernel after [main]

    [userinit] of [kernel/proc.c] on the kernel that [main] has prepared, and
    [main] as a whole: from the state the loader leaves, through [userinit], to
    the call of [scheduler], while the other processors run their schedulers. *)
From S2P Require Import Prelude Types Str Protect Device Boot Apic Mp Spinlock Queue Kalloc Sched Policy Context Sleeplock Pipe Bio Log Console Vm Paging Reclaim Copy Fs File Proc Pio Consio Main Startup.

(** ** The page of [initcode] *)
Section inituvm.
Context `{Linkage} (c : nat) (b : bool).
Implicit Types (s : kernel) (m : gmap Z Z) (l : list Z).
#[local] Abbreviation building := (building c [] b).
#[local] Abbreviation nolocks := (not_elem_of_nil L_kmem).

(** Stores into a page of the user part. *)
Lemma building_user s l d m m1 f h l' va v : building s l d m f h l' [] -> user va -> page_at m d va = Some v ->
  (forall x, ~ v <= x < v + PGSIZE -> load8 m1 x = load8 m x) ->
  building s l d m1 f h l' [] /\ (forall va, 0 <= va < 2 ^ 32 -> pte_of m1 d va = pte_of m d va).
Proof.
  intros Hb Hu Hv Hm. pose proof Hb as [Hhw Hid [Hnd Hall] [Hf Hnd'] Hsp Hheld Hpg Hfr].
  destruct (space_owned m m1 d l' Hsp) as (_ & Hpte & Hsp1 & Hin).
  { intros x Hx. apply Hm. intros Hvx. by eapply (user_not_owned m d l' va v x). }
  assert (in_space m d v) as Hvs by (right; right; by exists va). destruct (in_space_ok _ _ _ _ Hsp Hvs) as [Hvok Hvl].
  split; [split|done]; try done.
  - split; [|done]. eapply freelist_ok_ext; [|exact Hf]. intros q x Hq Hx. apply Hm. intros Hvx. apply Hvl. replace v with q; [done|].
    apply (in_page_eq q v x); [by eapply freelist_pages|done|done|done].
  - split; [constructor|]. by intros q ?%elem_of_nil.
  - intros p. rewrite Hin. apply Hpg.
  - intros x Hx. rewrite Hm; [by apply Hfr|]. apply Hx, Hpg. auto.
Qed.

(** [inituvm] with pages enough: page 0 holds the program and then zeros. *)
Lemma inituvm_ok s l d m f h l' init : building s l d m f h l' [] -> (forall va, user va -> pte_of m d va = None) ->
  2000 < Z.of_nat (length l) -> Z.of_nat (length init) < PGSIZE ->
  exists v m1 f1 h1 l1, inituvm d init (after m f h s) = Done tt (after m1 f1 h1 s) /\ building s l d m1 f1 h1 l1 [] /\ page_ok v /\ page_at m1 d 0 = Some v /\
    (forall va, 0 <= va < 2 ^ 32 -> pte_of m1 d va = if decide (0 <= va < PGSIZE) then Some (Z.lor (V2P v) (Z.lor (Z.lor PTE_W PTE_U) PTE_P)) else pte_of m d va) /\
    (forall o, 0 <= o < PGSIZE -> load8 m1 (v + o) = if decide (o < Z.of_nat (length init)) then u8 (init !!! Z.to_nat o) else 0).
Proof.
  intros Hb Hnone Hlen Hinit. assert (forall va, user va -> page_at m d va = None) as Hnp by (intros va Hva; unfold page_at; by rewrite Hnone).
  destruct l' as [|v l'].
  { pose proof (out_of_memory c [] b nolocks s l d m f h [] 0 Hb ltac:(cbn; lia) ltac:(lia) ltac:(auto)) as Hs. unfold short_of, NPDENTRIES in Hs. lia. }
  unfold inituvm. destruct (Z.leb_spec PGSIZE (Z.of_nat (length init))); [lia|].
  destruct (kalloc_ok (after m f h s) (v :: l') c [] b (bu_hw _ _ _ _ _ _ _ _ _ _ _ Hb) nolocks (bu_free _ _ _ _ _ _ _ _ _ _ _ Hb)) as (h0 & E0 & Hh0 & Hid0).
  destruct (building_take c [] b s l d m f h v l' Hb) as (Hv & -> & Hb1). rewrite (bind_done _ _ _ _ _ E0). destruct (page_range v Hv) as [Hvr _].
  cbn [k_freelist after set_k_hw set_k_freelist set_k_mem]. rewrite (proj2 (Z.eqb_neq v 0)) by (unfold KERNBASE in *; lia).
  apply (building_hw c [] b _ _ _ _ _ _ _ _ h0) in Hb1; [|done|done]. set (m1 := memset v 0 PGSIZE m).
  destruct (building_store c [] b s l d m m1 (load32 m v) h0 l' [v] Hb1) as [Hb2 Hpte2].
  { intros x Hx. unfold m1. rewrite memset_load8, decide_False; [done|apply Hx; by left|done]. }
  rewrite (bind_done _ _ _ tt (after m1 (load32 m v) h0 s)) by done.
  assert (forall va, user va -> pte_of m1 d va = None) as Hnone1 by (intros va Hva; rewrite Hpte2 by (by apply user_range); auto).
  destruct (map_copy c [] b nolocks s l d m1 (load32 m v) h0 l' v 0 (Z.lor PTE_W PTE_U) Hb2) as (x & m2 & f2 & h2 & l2 & E2 & Hx); try done.
  { intros va Hva. apply Hnone1. unfold user, PGSIZE, KERNBASE in *. lia. }
  rewrite (bind_done _ _ _ _ _ E2). destruct Hx as [(_ & Hb3 & -> & Hsame)|(_ & Hb3 & Hown & Hpte3)].
  { pose proof (out_of_memory c [] b nolocks s l d m2 f2 h2 [v] 0 Hb3 ltac:(cbn; lia) ltac:(lia)) as Hs. unfold short_of, NPDENTRIES in Hs.
    enough (Z.of_nat (length l) <= 2 + Z.of_nat 1024 + 0) by lia. apply Hs. intros va Hva _. rewrite Hsame by done. unfold page_at. by rewrite Hnone1. }
  destruct (vstore_bytes_done init v (after m2 f2 h2 s)) as (m3 & E3 & Hm3); [unfold KERNBASE in *; lia|]. cbn [k_mem after set_k_hw set_k_freelist set_k_mem] in Hm3.
  destruct (page_phys v Hv) as (Hal & Hpr & Hpv).
  assert (page_at m2 d 0 = Some v) as Hat.
  { unfold page_at. rewrite Hpte3, decide_True by (unfold PGSIZE; lia). cbn [fmap option_fmap option_map]. by rewrite PTE_ADDR_lor, Hpv. }
  destruct (building_user s l d m2 m3 f2 h2 l2 0 v Hb3) as [Hb4 Hpte4]; [by vm_compute|done|intros y Hy; rewrite Hm3, decide_False; [done|lia]|].
  exists v, m3, f2, h2, l2. split; [rewrite E3; by destruct s|]. split; [done|]. split; [done|]. split; [|split].
  - unfold page_at in *. by rewrite Hpte4.
  - intros va Hva. rewrite Hpte4, Hpte3 by done. repeat case_decide; try lia; [done|by apply Hpte2].
  - intros o Ho. rewrite Hm3. replace (v + o - v) with o by lia. repeat case_decide; try lia.
    rewrite Hown; [|eapply (user_not_owned m2 d l2 0 v); [apply Hb3|by vm_compute|done|lia]]. unfold m1. by rewrite memset_load8, decide_True by (done || lia).
Qed.
End inituvm.

(** ** The trap frame *)
Definition user_cs : Z := Z.lor (Z.shiftl SEG_UCODE 3) DPL_USER.
Definition user_ds : Z := Z.lor (Z.shiftl SEG_UDATA 3) DPL_USER.
Definition user_frame (t : Z) (m : gmap Z Z) : gmap Z Z :=
  store32 (t + tf_eip) 0 (store32 (t + tf_esp) PGSIZE (store32 (t + tf_eflags) FL_IF
    (store16 (t + tf_ss) user_ds (store16 (t + tf_es) user_ds (store16 (t + tf_ds) user_ds (store16 (t + tf_code) user_cs (memset t 0 sizeof_trapframe m))))))).
Lemma user_frame_other t m a : ~ t <= a < t + sizeof_trapframe -> load8 (user_frame t m) a = load8 m a.
Proof.
  unfold user_frame, store16, sizeof_trapframe, tf_eip, tf_esp, tf_eflags, tf_ss, tf_es, tf_ds, tf_code. intros Ha.
  rewrite !load8_store32, !load8_store8, memset_load8, !decide_False by lia. done.
Qed.
(** The process starts at address 0 with the stack at the end of its page, in
    user mode and with interrupts on. *)
Record starts_user m t : Prop := {
  su_eip : load32 m (t + tf_eip) = 0;
  su_esp : load32 m (t + tf_esp) = PGSIZE;
  su_flags : load32 m (t + tf_eflags) = FL_IF;
  su_cs : load32 m (t + tf_code) = user_cs;
  su_ds : load32 m (t + tf_ds) = user_ds /\ load32 m (t + tf_es) = user_ds /\ load32 m (t + tf_ss) = user_ds }.
Lemma user_frame_starts t m : starts_user (user_frame t m) t.
Proof.
  unfold user_frame, store16, tf_eip, tf_esp, tf_eflags, tf_ss, tf_es, tf_ds, tf_code. split; [..|split_and!];
    unfold tf_eip, tf_esp, tf_eflags, tf_ss, tf_es, tf_ds, tf_code.
  1: by rewrite load32_store32_eq. 1: rewrite load32_store32_ne by lia; by rewrite load32_store32_eq.
  1: rewrite !load32_store32_ne by lia; by rewrite load32_store32_eq.
  all: rewrite !load32_store32_ne by lia; unfold load32; rewrite !load8_store8, ?memset_load8 by done; unfold sizeof_trapframe;
    repeat (first [rewrite decide_True by lia | rewrite decide_False by lia]); done.
Qed.

(** ** The pages *)
Section pages.
Context `{Linkage} (c : nat) (b : bool).
Implicit Types (s : kernel) (m : gmap Z Z) (l X : list Z).

(** A space [d] built from the free pages, and then stores into pages in use:
    both tables are as they were, and every page is accounted for. *)
Lemma kspace_built s d m' m1 f f' h kd all X l l' : kspace (k_mem s) f kd all X l -> NoDup all -> building c [] b s l d m' f' h l' [] ->
  (forall x, (forall p, p ∈ X -> ~ p <= x < p + PGSIZE) -> load8 m1 x = load8 m' x) ->
  kspace m1 f' kd all (space_pages d m1 ++ X) l' /\ space_ok m1 d l' /\ (forall va, 0 <= va < 2 ^ 32 -> pte_of m1 d va = pte_of m' d va) /\
  (forall p x, p ∈ l -> p <= x < p + PGSIZE -> load8 m1 x = load8 m' x).
Proof.
  intros [Hall [Hf Hnd] Hpg Hsp Hpte] Hall1 Hb Hm. pose proof Hall1 as Hdis. rewrite Hpg in Hdis. apply NoDup_app in Hdis as (_ & HdX & Hrest).
  apply NoDup_app in Hrest as (_ & Hdk & _).
  assert (forall p, p ∈ X \/ in_space (k_mem s) kd p \/ p ∈ l -> p ∈ all) as Hin by (intros p Hp; rewrite Hpg, !elem_of_app, elem_of_space_pages; tauto).
  assert (forall p q x, p ∈ all -> q ∈ all -> p <= x < p + PGSIZE -> q <= x < q + PGSIZE -> p = q) as Heq by (intros p q x Hp Hq ? ?; apply (in_page_eq p q x); auto).
  assert (forall p x, p ∈ l -> p <= x < p + PGSIZE -> load8 m1 x = load8 m' x) as Hl.
  { intros p x Hp Hx. apply Hm. intros q Hq Hx'. assert (p = q) as -> by (apply (Heq p q x); auto). apply (HdX q Hq). rewrite elem_of_app. by right. }
  destruct (building_outside c [] b s l d m' m1 f' h l' [] Hb Hl) as (Hf1 & Hsp1 & Hpte1 & Hpde1).
  assert (forall q x, in_space (k_mem s) kd q -> q <= x < q + PGSIZE -> load8 m1 x = load8 (k_mem s) x) as Hk.
  { intros q x Hq Hx. rewrite Hm; [apply (bu_frame _ _ _ _ _ _ _ _ _ _ _ Hb)|]; intros p Hp Hx'; assert (p = q) as -> by (apply (Heq p q x); auto).
    - apply (Hdk q); [by apply elem_of_space_pages|done].
    - apply (HdX q Hp). rewrite elem_of_app, elem_of_space_pages. by left. }
  destruct (space_same (k_mem s) m1 kd l Hsp Hk) as (Hkde & Hkte & Hksp & _).
  pose proof (building_pages c [] b (not_elem_of_nil _) _ _ _ _ _ _ _ _ Hb) as Hbp. rewrite app_nil_l in Hbp.
  split; [split; try done|done].
  - split; [done|apply Hb].
  - rewrite (space_pages_same kd (k_mem s) m1 Hkde Hkte), (space_pages_same d m' m1 Hpde1 Hpte1), Hpg, Hbp, <- app_assoc.
    rewrite (Permutation_app_swap_app (space_pages d m') X). apply Permutation_app_head. apply Permutation_app_swap_app.
  - eapply space_ok_sub; [|exact Hksp]. intros p Hp. rewrite Hbp, elem_of_app. by right.
  - intros va Hva. rewrite Hkte by done. auto.
Qed.
End pages.

(** ** [userinit] *)
Section userinit.
Context `{Linkage} `{Fuel} `{Disk} `{Serial} `{DevSw} `{Initcode}.
Context (c : nat) (b : bool) (s : kernel) (kd : Z) (all X l : list Z).
Hypothesis H_hw : hw_ok (k_hw s) c [] b.
Hypothesis H_pages : kspace (k_mem s) (k_freelist s) kd all X l.
Hypothesis H_once : NoDup all.
Hypothesis H_many : 3000 < Z.of_nat (length l).
Hypothesis H_pt : k_pt s = ptable_zero.
Hypothesis H_pid : k_nextpid s = 1.
Hypothesis H_icache : k_icache s = replicate NINODE inode_zero.
Hypothesis H_code : Z.of_nat (length initcode) < PGSIZE.

(** The entry of the root directory in the cache, and the entry of the process. *)
Definition root_inode : inode := set_i_valid false (set_i_ref 1 (set_inum ROOTINO (set_i_dev ROOTDEV inode_zero))).
Definition first_entry (ks d : Z) : proc :=
  set_cwd (Some 0%nat) (set_p_name (copy_name (p_name proc_zero) (bytes "initcode")) (set_sz PGSIZE (set_pgdir d (embryo 1 ks proc_zero)))).

(** Entry 0 is being filled in; it is [prn]. *)
Record filling s1 prn : Prop := {
  fi_hw : hw_ok (k_hw s1) c [] b;
  fi_id : hw_id (k_hw s1) = hw_id (k_hw s);
  fi_queues : queues_ok (k_pt s1) aempty;
  fi_table : pt_proc (k_pt s1) = <[0%nat := prn]> (pt_proc ptable_zero);
  fi_state : state prn = EMBRYO;
  fi_prio : priority prn = 0 }.
Lemma fi_get s1 prn : filling s1 prn -> get_proc 0 (k_pt s1) = Some prn.
Proof. intros [_ _ _ Ht _ _]. unfold get_proc. rewrite Ht. apply list_lookup_insert_eq, (Nat.lt_0_succ 63). Qed.
Lemma wp_fi_set {A} f (k : unit -> K A) s1 prn Q : filling s1 prn -> state (f prn) = EMBRYO -> priority (f prn) = 0 -> next_proc (f prn) = next_proc prn ->
  (forall t, filling (set_k_pt t s1) (f prn) -> wp atomic (k tt (set_k_pt t s1)) Q) -> wp atomic ((x <- proc_set 0 f ;; k x) s1) Q.
Proof.
  intros Hfi Hst Hpr Hnx Hk. pose proof Hfi as [Hh Hid Hq Ht Hs0 Hp0].
  eapply wp_idle_set; [exact Hq|by eapply fi_get|by rewrite Hs0|by rewrite Hst|rewrite Hpr; unfold NPRIO; lia|done|].
  intros t Hqt _ Htt. apply Hk. split; try done. cbn. rewrite Htt, Ht. by rewrite list_insert_insert_eq.
Qed.
Lemma fi_same s1 s2 prn : k_hw s2 = k_hw s1 -> k_pt s2 = k_pt s1 -> filling s1 prn -> filling s2 prn.
Proof. intros E1 E2 []. split; rewrite ?E1, ?E2; done. Qed.

Lemma wp_namei_root {A} (k : option nat -> K A) s1 Q : hw_ok (k_hw s1) c [] b -> k_icache s1 = replicate NINODE inode_zero ->
  (forall h, hw_ok h c [] b -> hw_id h = hw_id (k_hw s1) ->
    wp atomic (k (Some 0%nat) (set_k_icache (<[0%nat := root_inode]> (replicate NINODE inode_zero)) (set_k_hw h s1))) Q) ->
  wp atomic ((x <- namei [slash] ;; k x) s1) Q.
Proof.
  intros Hh Hic Hk. unfold namei, namex. rewrite bool_decide_eq_true_2 by done. wp_run. unfold iget. apply wp_assoc.
  eapply wp_acquire; [exact Hh|apply not_elem_of_nil|]. intros h1 Hh1 Hid1. wp_run. cbn [k_icache set_k_hw]. rewrite Hic.
  change (find_inode ROOTDEV ROOTINO 0 None (replicate NINODE inode_zero)) with (@inr nat (option nat) (Some 0%nat)). cbv iota.
  unfold ip_set, ip_get. wp_run. apply wp_of_option with tt; [cbn [k_icache set_k_hw]; by rewrite Hic|]. wp_run.
  eapply wp_release; [exact Hh1|done|]. intros h2 Hh2 Hid2. wp_run. change (namex_loop (length [slash]) 0 [slash] false []) with (@ret kernel _ (Some (0%nat, @nil Z))). wp_run.
  cbn [fmap option_fmap option_map fst]. cbn [k_icache set_k_hw]. rewrite Hic. apply Hk; [done|]. by rewrite Hid2.
Qed.

(** The end of [userinit], from the trap frame on. *)
Lemma userinit_ends s1 ks d : filling s1 (set_pgdir d (embryo 1 ks proc_zero)) -> k_icache s1 = replicate NINODE inode_zero ->
  wp atomic ((proc_set 0 (set_sz PGSIZE) ;; t <- proc_get 0 tf ;;
    (let ds := Z.lor (Z.shiftl SEG_UDATA 3) DPL_USER in
     modify (upd_mem (memset t 0 sizeof_trapframe)) ;; modify (upd_mem (store16 (t + tf_code) (Z.lor (Z.shiftl SEG_UCODE 3) DPL_USER))) ;;
     modify (upd_mem (store16 (t + tf_ds) ds)) ;; modify (upd_mem (store16 (t + tf_es) ds)) ;; modify (upd_mem (store16 (t + tf_ss) ds)) ;;
     modify (upd_mem (store32 (t + tf_eflags) FL_IF)) ;; modify (upd_mem (store32 (t + tf_esp) PGSIZE)) ;; modify (upd_mem (store32 (t + tf_eip) 0)) ;;
     proc_set 0 (fun pr => set_p_name (copy_name (p_name pr) (bytes "initcode")) pr) ;;
     root <- namei [slash] ;; proc_set 0 (set_cwd root) ;; acquire L_ptable ;; pt_do (enqueue 0) ;; release L_ptable)) s1)
    (fun _ s' => exists h t, s' = put h t (set_k_icache (<[0%nat := root_inode]> (replicate NINODE inode_zero))
        (set_k_mem (user_frame (ks + KSTACKSIZE - sizeof_trapframe) (k_mem s1)) s1)) /\
      hw_ok h c [] b /\ hw_id h = hw_id (k_hw s) /\ queues_ok t (aenqueue 0 0 aempty) /\
      pt_data t = <[0%nat := data (set_state RUNNABLE (first_entry ks d))]> (pt_data ptable_zero)).
Proof.
  intros Hfi Hic. eapply wp_fi_set; [exact Hfi|done|done|done|]. intros t1 Hfi1. eapply wp_proc_get; [by eapply fi_get|]. cbv zeta. wp_run.
  match goal with |- wp _ (bind _ _ ?S) _ => set (s2 := S) end.
  assert (k_mem s2 = user_frame (ks + KSTACKSIZE - sizeof_trapframe) (k_mem s1)) as Hm2 by done.
  assert (filling s2 (set_sz PGSIZE (set_pgdir d (embryo 1 ks proc_zero)))) as Hfi2 by (by apply (fi_same (set_k_pt t1 s1))).
  eapply wp_fi_set; [exact Hfi2|done|done|done|]. intros t3 Hfi3.
  apply wp_namei_root; [apply Hfi3|exact Hic|]. intros h4 Hh4 Hid4.
  match goal with |- wp _ (bind _ _ ?S) _ => set (s4 := S) end.
  assert (filling s4 (set_p_name (copy_name (p_name proc_zero) (bytes "initcode")) (set_sz PGSIZE (set_pgdir d (embryo 1 ks proc_zero))))) as Hfi4.
  { destruct Hfi3. split; try done. cbn. by rewrite Hid4. }
  eapply wp_fi_set; [exact Hfi4|done|done|done|]. intros t5 Hfi5. pose proof Hfi5 as [Hh5 Hid5 Hq5 Ht5 Hs5 Hp5].
  eapply wp_acquire; [exact Hh5|apply not_elem_of_nil|]. intros h6 Hh6 Hid6.
  destruct (enqueue_ok t5 aempty 0 _ Hq5 (fi_get _ _ Hfi5)) as (t7 & E7 & Hq7 & Ht7); [by rewrite Hs5|]. rewrite Hp5 in Hq7.
  apply wp_pt_do with t7; [exact E7|]. match goal with |- wp _ (release _ ?S) _ => set (s7 := S) end.
  destruct (release_ok L_ptable s7 c [] b Hh6) as (h8 & E8 & Hh8 & Hid8). rewrite E8. cbn [wp]. exists h8, t7. split_and!; try done.
  - rewrite Hid8. cbn. by rewrite Hid6.
  - rewrite Ht7. unfold pt_data. cbn [k_pt set_k_pt] in Ht5. by rewrite Ht5, list_fmap_insert, list_insert_insert_eq.
Qed.

(** What the kernel has when the first process exists: on the stack [ks], in the
    space [d] with the page [v], and with the pages [l'] still free. *)
Record born s' (ks d v : Z) (l' : list Z) : Prop := {
  bo_hw : hw_ok (k_hw s') c [] b /\ hw_id (k_hw s') = hw_id (k_hw s);
  bo_queues : queues_ok (k_pt s') (aenqueue 0 0 aempty);
  bo_table : pt_data (k_pt s') = <[0%nat := data (set_state RUNNABLE (first_entry ks d))]> (pt_data ptable_zero);
  bo_init : k_initproc s' = Some 0%nat /\ k_nextpid s' = 2;
  bo_cwd : k_icache s' = <[0%nat := root_inode]> (replicate NINODE inode_zero);
  bo_map : forall va, 0 <= va < 2 ^ 32 -> pte_of (k_mem s') d va =
    if decide (0 <= va < PGSIZE) then Some (Z.lor (V2P v) (Z.lor (Z.lor PTE_W PTE_U) PTE_P)) else kernel_entry kmap va;
  bo_code : forall o, 0 <= o < PGSIZE -> load8 (k_mem s') (v + o) = if decide (o < Z.of_nat (length initcode)) then u8 (initcode !!! Z.to_nat o) else 0;
  bo_frame : starts_user (k_mem s') (ks + KSTACKSIZE - sizeof_trapframe);
  bo_resume : load32 (k_mem s') (ks + KSTACKSIZE - sizeof_trapframe - 4 - sizeof_context + context_eip) = u32 forkret_addr /\
    load32 (k_mem s') (ks + KSTACKSIZE - sizeof_trapframe - 4) = u32 trapret_addr;
  bo_pages : kspace (k_mem s') (k_freelist s') kd all (space_pages d (k_mem s') ++ ks :: X) l' /\ space_ok (k_mem s') d l';
  bo_kept : s' = set_k_icache (k_icache s') (set_k_initproc (k_initproc s') (set_k_hw (k_hw s') (set_k_pt (k_pt s')
    (set_k_mem (k_mem s') (set_k_freelist (k_freelist s') (set_k_nextpid (k_nextpid s') s)))))) }.

(** The slot, the process number and the stack. *)
Lemma first_alloc s1 r : alloc_kept s s1 ->
  (let unused := fun pr => bool_decide (state pr = UNUSED) in
   match r with
   | None => k_mem s1 = k_mem s /\ k_freelist s1 = k_freelist s /\
       ((k_pt s1 = k_pt s /\ k_nextpid s1 = k_nextpid s /\ forall j prj, get_proc j (k_pt s) = Some prj -> state prj <> UNUSED)
       \/ (l = [] /\ exists p pr, first_slot unused (k_pt s) p pr /\ k_nextpid s1 = i32 (k_nextpid s + 1)
          /\ pt_proc (k_pt s1) = <[p := set_state UNUSED (set_kstack 0
               (set_priority 0 (set_pid (k_nextpid s) (set_state EMBRYO pr))))]> (pt_proc (k_pt s))))
   | Some p =>
       exists ks l' pr, l = ks :: l' /\ first_slot unused (k_pt s) p pr
         /\ k_nextpid s1 = i32 (k_nextpid s + 1)
         /\ pt_proc (k_pt s1) = <[p := embryo (k_nextpid s) ks pr]> (pt_proc (k_pt s))
         /\ k_mem s1 = stack_mem ks (k_mem s) /\ k_freelist s1 = load32 (k_mem s) ks
   end) ->
  r = Some 0%nat /\ exists ks l1, l = ks :: l1 /\ k_nextpid s1 = 2 /\ pt_proc (k_pt s1) = <[0%nat := embryo 1 ks proc_zero]> (pt_proc ptable_zero) /\
    k_mem s1 = stack_mem ks (k_mem s) /\ kspace (k_mem s1) (k_freelist s1) kd all (ks :: X) l1.
Proof.
  intros Hkept Hr. cbv zeta in Hr. destruct r as [np|].
  - destruct Hr as (ks & l1 & slot & El & (Hs & Hu & Hb) & Hn & Ht & Hm & Hf). rewrite H_pt, H_pid in *.
    assert (np = 0%nat) as ->.
    { destruct np as [|np]; [done|]. specialize (Hb 0%nat proc_zero ltac:(lia) eq_refl). by apply bool_decide_eq_false in Hb. }
    assert (slot = proc_zero) as -> by (injection Hs as <-; done). split; [done|]. exists ks, l1. split_and!; try done.
    pose proof H_pages as Hks. rewrite El in Hks. destruct (kspace_take _ _ _ _ _ _ _ Hks) as (_ & _ & Hks1). rewrite Hm, Hf.
    eapply kspace_used; [done|exact Hks1|]. intros x Hx. apply stack_frame. specialize (Hx ks ltac:(by left)).
    unfold KSTACKSIZE, sizeof_trapframe, sizeof_context, PGSIZE in *. lia.
  - exfalso. destruct Hr as (_ & _ & [(_ & _ & Hno)|(-> & _)]); [|cbn in H_many; lia]. rewrite H_pt in Hno. by apply (Hno 0%nat proc_zero).
Qed.

(** The words that make the process start in [forkret]. *)
Lemma resume_kept m ks m0 :
  (forall x, ks + KSTACKSIZE - sizeof_trapframe - 4 - sizeof_context <= x < ks + KSTACKSIZE - sizeof_trapframe -> load8 m x = load8 (stack_mem ks m0) x) ->
  load32 m (ks + KSTACKSIZE - sizeof_trapframe - 4 - sizeof_context + context_eip) = u32 forkret_addr /\
  load32 m (ks + KSTACKSIZE - sizeof_trapframe - 4) = u32 trapret_addr.
Proof.
  intros Hm. pose proof (stack_ret ks m0) as Er. replace (ks + KSTACKSIZE - sizeof_trapframe - 4 - sizeof_context + sizeof_context) with (ks + KSTACKSIZE - sizeof_trapframe - 4) in Er by lia.
  rewrite <- (stack_eip ks m0), <- Er. split; apply load32_ext; intros x Hx; apply Hm; unfold KSTACKSIZE, sizeof_trapframe, sizeof_context, context_eip in *; lia.
Qed.

(** [userinit] makes the first process. *)
Lemma userinit_wp : wp atomic (userinit s) (fun _ s' => exists ks d v l', born s' ks d v l').
Proof.
  unfold userinit. apply wp_bind. assert (queues_ok (k_pt s) aempty) as Hq0 by (rewrite H_pt; apply boot_queues_ok).
  eapply wp_mono; [apply (allocproc_wp atomic s c [] b aempty l H_hw (not_elem_of_nil _) (not_elem_of_nil _) Hq0 (ks_free _ _ _ _ _ _ H_pages))|].
  intros r s1 (Hh1 & Hid1 & Hq1 & Hkept & Hr). destruct (first_alloc s1 r Hkept Hr) as (-> & ks & l1 & El & Hn1 & Ht1 & Hm1 & Hks1). clear Hr. wp_run.
  set (s2 := set_k_initproc (Some 0%nat) s1). assert (Z.of_nat (length l) = 1 + Z.of_nat (length l1)) as Hl1 by (rewrite El; cbn; lia).
  destruct (setupkvm_ok c [] b (not_elem_of_nil _) s2 l1 Hh1 (ks_free _ _ _ _ _ _ Hks1)) as (d & m2 & f2 & h2 & l2 & E2 & [(_ & _ & ?)|(Hd & Hb2 & _ & Hpte2)]); [lia|].
  rewrite (bind_done _ _ _ _ _ E2). clear E2.
  assert (filling (after m2 f2 h2 s2) (embryo 1 ks proc_zero)) as Hfi.
  { split; try done; [apply Hb2|]. cbn. rewrite (bu_id _ _ _ _ _ _ _ _ _ _ _ Hb2). exact Hid1. }
  eapply wp_fi_set; [exact Hfi|done|done|done|]. intros t3 Hfi3. rewrite (proj2 (Z.eqb_neq d 0) Hd). set (s3 := set_k_pt t3 s2).
  assert (building c [] b s3 l1 d m2 f2 h2 l2 []) as Hb3 by (by destruct Hb2).
  destruct (inituvm_ok c b s3 l1 d m2 f2 h2 l2 initcode Hb3) as (v & m4 & f4 & h4 & l4 & E4 & Hb4 & Hv & Hat4 & Hpte4 & Hcode4); [|lia|done|].
  { intros va Hva. rewrite Hpte2 by (by apply user_range). apply kernel_entry_user; [apply kmap_ok|done]. }
  rewrite (bind_done _ _ _ tt (after m4 f4 h4 s3)) by exact E4. clear E4.
  assert (filling (after m4 f4 h4 s3) (set_pgdir d (embryo 1 ks proc_zero))) as Hfi4.
  { destruct Hfi3. split; try done; [apply Hb4|]. cbn. rewrite (bu_id _ _ _ _ _ _ _ _ _ _ _ Hb4). exact Hid1. }
  eapply wp_mono; [apply (userinit_ends _ ks d Hfi4)|].
  { cbn. by rewrite Hkept. }
  intros [] s' (h & t & Es' & Hh & Hid & Hq & Hd5). exists ks, d, v, l4. set (tf0 := ks + KSTACKSIZE - sizeof_trapframe) in *. cbn [k_mem after set_k_hw set_k_freelist set_k_mem] in Es'.
  assert (ks ∉ l1 /\ page_ok ks) as [Hkl Hkok].
  { pose proof (ks_free _ _ _ _ _ _ H_pages) as [Hf Hnd]. rewrite El in Hf, Hnd. apply NoDup_cons in Hnd as [? _]. by destruct Hf as (_ & ? & _). }
  pose proof (bu_all _ _ _ _ _ _ _ _ _ _ _ Hb4) as [_ Hok1].
  assert (forall x, ~ ks <= x < ks + PGSIZE -> load8 (user_frame tf0 m4) x = load8 m4 x) as Hother.
  { intros x Hx. apply user_frame_other. unfold tf0, KSTACKSIZE, PGSIZE, sizeof_trapframe in *. lia. }
  destruct (kspace_built c b s3 d m4 (user_frame tf0 m4) (k_freelist s1) f4 h4 kd all (ks :: X) l1 l4 Hks1 H_once Hb4) as (Hks & Hsp & Hpte & Hl).
  { intros x Hx. apply Hother, Hx. by left. }
  rewrite Es'. split; try done.
  - intros va Hva. cbn [k_mem put set_k_hw set_k_pt set_k_icache set_k_mem]. rewrite Hpte, Hpte4 by done. case_decide; [done|by apply Hpte2].
  - intros o Ho. cbn [k_mem put set_k_hw set_k_pt set_k_icache set_k_mem]. rewrite (Hl v); [by apply Hcode4| |lia].
    apply (bu_pages _ _ _ _ _ _ _ _ _ _ _ Hb4). right; right; right; right. exists 0. split; [by vm_compute|done].
  - apply user_frame_starts.
  - apply (resume_kept (user_frame tf0 m4) ks (k_mem s)). intros x Hx. rewrite user_frame_other by (unfold tf0, KSTACKSIZE, sizeof_trapframe in *; lia).
    rewrite (bu_frame _ _ _ _ _ _ _ _ _ _ _ Hb4); [change (k_mem s3) with (k_mem s1); by rewrite Hm1|]. intros p Hp Hx'. apply Hkl.
    replace ks with p; [done|]. apply (in_page_eq p ks x); [by apply Hok1|done|done|]. unfold KSTACKSIZE, PGSIZE, sizeof_trapframe, sizeof_context in *. lia.
  - cbn. unfold s3, s2. rewrite Hkept. by destruct s.
Qed.
End userinit.

(** ** [main] *)
Section main.
Context {D : Type} `{!Bus D} `{!Patience} `{!Responsive D} `{Linkage} `{Fuel} `{Disk} `{DevSw} `{Initcode} `{!Image} `{Schedule}.
Context (mem : gmap Z Z) (disk : list (list Z)) (dev0 : D) (conf lapic : Z) (es : list mpentry) (boot : nat) (id0 : Z).
#[local] Abbreviation ids := (take 8 (processors es)).
Hypothesis patient : (1 <= patience)%nat.
Hypothesis mem_bytes_ok : Str.mem_ok mem.
Hypothesis tables : bios mem conf lapic es.
Hypothesis ids_once : NoDup ids.
Hypothesis boot_known : ids !! boot = Some id0.
Hypothesis room : PGROUNDUP kend + 80 * PGSIZE <= KERNBASE + 0x400000.
Hypothesis disk_blocks : Forall (fun blk => length blk = Z.to_nat BSIZE) disk.
Hypothesis initcode_fits : Z.of_nat (length initcode) < PGSIZE.

(** The pages that [kinit1] and [kinit2] give to the allocator. *)
#[local] Abbreviation low := (whole_pages kend (P2V (4 * 1024 * 1024))).
#[local] Abbreviation high := (whole_pages (P2V (4 * 1024 * 1024)) (P2V PHYSTOP)).
#[local] Abbreviation managed := (high ++ low).

(** The state in which [userinit] returns to [main]. *)
Record booted (w : board D) (ks d v : Z) (stacks free : list Z) : Prop := {
  bt_cpus : apicid <$> take (h_ncpu (k_hw (b_kernel w))) (h_cpus (k_hw (b_kernel w))) = ids;
  bt_hw : hw_ok (k_hw (b_kernel w)) boot [] false /\ cur (k_hw (b_kernel w)) = None;
  bt_ready : forall c, (c < length ids)%nat -> c <> boot -> ready (tvinit vectors (replicate 256 gate_zero)) w c;
  bt_tables : b_idt w = tvinit vectors (replicate 256 gate_zero) /\
    b_gdt w !! boot = Some (seginit gdt_zero).1 /\ b_gdtr w !! boot = Some (seginit gdt_zero).2;
  bt_kernel : h_cr3 (k_hw (b_kernel w)) = V2P (k_kpgdir (b_kernel w)) /\
    forall va, 0 <= va < 2 ^ 32 -> pte_of (k_mem (b_kernel w)) (k_kpgdir (b_kernel w)) va = kernel_entry kmap va;
  bt_lock : k_use_lock (b_kernel w) = true;
  bt_free : free_pages (b_kernel w) free;
  bt_pages : managed ≡ₚ (space_pages d (k_mem (b_kernel w)) ++ ks :: stacks) ++ space_pages (k_kpgdir (b_kernel w)) (k_mem (b_kernel w)) ++ free;
  bt_stacks : S (length stacks) = length ids;
  bt_queues : queues_ok (k_pt (b_kernel w)) (aenqueue 0 0 aempty) /\ switchable (k_pt (b_kernel w));
  bt_table : pt_data (k_pt (b_kernel w)) = <[0%nat := data (set_state RUNNABLE (first_entry ks d))]> (pt_data ptable_zero);
  bt_init : k_initproc (b_kernel w) = Some 0%nat /\ k_nextpid (b_kernel w) = 2;
  bt_space : space_ok (k_mem (b_kernel w)) d free;
  bt_map : forall va, 0 <= va < 2 ^ 32 -> pte_of (k_mem (b_kernel w)) d va =
    if decide (0 <= va < PGSIZE) then Some (Z.lor (V2P v) (Z.lor (Z.lor PTE_W PTE_U) PTE_P)) else kernel_entry kmap va;
  bt_code : forall o, 0 <= o < PGSIZE -> load8 (k_mem (b_kernel w)) (v + o) = if decide (o < Z.of_nat (length initcode)) then u8 (initcode !!! Z.to_nat o) else 0;
  bt_frame : starts_user (k_mem (b_kernel w)) (ks + KSTACKSIZE - sizeof_trapframe);
  bt_resume : load32 (k_mem (b_kernel w)) (ks + KSTACKSIZE - sizeof_trapframe - 4 - sizeof_context + context_eip) = u32 forkret_addr /\
    load32 (k_mem (b_kernel w)) (ks + KSTACKSIZE - sizeof_trapframe - 4) = u32 trapret_addr;
  bt_cwd : k_icache (b_kernel w) = <[0%nat := root_inode]> (replicate NINODE inode_zero);
  bt_cache : bcache_ok (b_kernel w) 1 (reverse (seq 0 NBUF)) [] }.

Lemma pages_once n : forall a, NoDup (pages a n).
Proof.
  induction n as [|n IH]; intros a; cbn [pages]; constructor; [|apply IH]. intros Hp%elem_of_pages. unfold PGSIZE in *. lia.
Qed.
Lemma whole_once a e : NoDup (whole_pages a e).
Proof. unfold whole_pages. rewrite reverse_Permutation. apply pages_once. Qed.
Lemma managed_once : NoDup managed.
Proof.
  destruct (low_pages room) as (_ & _ & _ & Hlow). apply NoDup_app. split; [apply whole_once|]. split; [|apply whole_once].
  intros p Hp Hp'. apply Hlow in Hp' as [_ Hp']. apply (elem_of_whole (P2V (4 * 1024 * 1024)) (P2V PHYSTOP)) in Hp; [|by vm_compute].
  change (PGROUNDUP (P2V (4 * 1024 * 1024))) with (KERNBASE + 0x400000) in Hp. unfold PGSIZE in *. lia.
Qed.

(** [kinit2]. *)
Lemma kinit2_done k kd X l : k_use_lock k = false -> kspace (k_mem k) (k_freelist k) kd low X l ->
  exists m f, kinit2 (P2V (4 * 1024 * 1024)) (P2V PHYSTOP) k = Done tt (set_k_use_lock true (after m f (k_hw k) k)) /\
    kspace m f kd managed X (high ++ l) /\ 3000 < Z.of_nat (length (high ++ l)).
Proof.
  intros Hu Hks. destruct (low_pages room) as (_ & _ & _ & Hlow). pose proof kend_range as Hk.
  assert (PGROUNDUP (P2V (4 * 1024 * 1024)) = P2V (4 * 1024 * 1024)) as Er by (by vm_compute).
  assert (P2V (4 * 1024 * 1024) = KERNBASE + 0x400000 /\ P2V PHYSTOP = KERNBASE + PHYSTOP) as [E1 E2] by done.
  assert (forall q, q ∈ l -> q ∈ low) as Hl by (intros q Hq; eapply kspace_page; [exact Hks|by left]).
  assert (kend < KERNBASE + 0x400000) as Hke by (unfold PGSIZE in *; destruct (PGROUNDUP_spec kend); unfold KERNLINK, KERNBASE, EXTMEM, PHYSTOP, PGSIZE in *; lia).
  destruct (freerange_early k l (P2V (4 * 1024 * 1024)) (P2V PHYSTOP) Hu (ks_free _ _ _ _ _ _ Hks)) as (m & f & E & Hf & Hnd & Hfr & _).
  - rewrite E1. unfold PHYSTOP. lia.
  - rewrite Er, E1, E2. unfold PHYSTOP. lia.
  - intros q Hq%Hl%Hlow. left. rewrite E1. unfold PGSIZE in *. lia.
  - exists m, f. split; [unfold kinit2; rewrite (bind_done _ _ _ _ _ E); done|]. split.
    + apply (kspace_more (k_mem k) m (k_freelist k) f kd low X l high Hks Hf Hnd).
      * intros p Hp Hp'. pose proof managed_once as Hd. apply NoDup_app in Hd as (_ & Hd & _). by apply (Hd p).
      * intros p x [_ Hp]%Hlow Hx. apply Hfr. rewrite Er, E1. lia.
    + rewrite length_app, Nat2Z.inj_add. rewrite length_whole by (rewrite Er, E1, E2; unfold PHYSTOP; lia). rewrite Er, E1, E2. unfold PHYSTOP, PGSIZE.
      replace (KERNBASE + 0xE000000 - (KERNBASE + 0x400000)) with 0xDC00000 by lia. change (0xDC00000 / 4096) with 56320. lia.
Qed.

(** *** Small facts on the parts *)
Lemma hw_id_apics h h' : hw_id h = hw_id h' -> h_cr3 h = h_cr3 h' /\ apicid <$> take (h_ncpu h) (h_cpus h) = apicid <$> take (h_ncpu h') (h_cpus h').
Proof.
  intros [= _ Hcr Hn Hc]. split; [done|]. rewrite Hn, !fmap_take. f_equal. apply (f_equal (fmap (fun x => x.1.1))) in Hc. by rewrite <- !list_fmap_compose in Hc.
Qed.
Lemma idle_cur h cr : idle_hw h id0 cr ids -> cur h = None.
Proof. intros Hi. destruct (idle_cpu _ _ _ _ _ Hi ids_once boot_known) as (Hf & r & Hr & _ & _ & Hp). unfold cur. rewrite (ih_id _ _ _ _ Hi), Hf, Hr. done. Qed.
Lemma unchanged_fresh k k' : unchanged k k' -> fresh disk k -> fresh disk k' /\ k_bufs k' = k_bufs k.
Proof. intros E []. split; [split|]; by rewrite E. Qed.
Lemma first_switchable t ks d : pt_data t = <[0%nat := data (set_state RUNNABLE (first_entry ks d))]> (pt_data ptable_zero) -> ks <> 0 -> d <> 0 -> switchable t.
Proof.
  intros Ht Hks Hd p pr Hp Hs. apply pt_data_lookup in Hp. rewrite Ht in Hp. destruct (decide (p = 0%nat)) as [->|Hne].
  - rewrite list_lookup_insert_eq in Hp by (apply (Nat.lt_0_succ 63)). injection Hp as E1 E2 E3. by rewrite <- E2, <- E3.
  - rewrite list_lookup_insert_ne in Hp by done. unfold pt_data, ptable_zero in Hp. cbn [pt_proc] in Hp.
    apply list_lookup_fmap_Some in Hp as (q & Hd' & [-> _]%lookup_replicate). assert (state pr = UNUSED) as E by (by injection Hd'). by rewrite E in Hs.
Qed.

(** *** The last steps *)
Lemma main_ends (w : board D) kd X l : starting ids kd low (b_kernel w) id0 (V2P kd) X l -> fresh disk (b_kernel w) -> k_bufs (b_kernel w) = init_bufs ->
  b_idt w = tvinit vectors (replicate 256 gate_zero) -> progress ids boot (b_idt w) w (length ids) -> sized w -> b_gdt w !! boot = Some (seginit gdt_zero).1 ->
  b_gdtr w !! boot = Some (seginit gdt_zero).2 -> S (length X) = length ids ->
  exists w' ks d v l', (other_rounds (turns BeforeKinit2) ;; on_kernel (kinit2 (P2V (4 * 1024 * 1024)) (P2V PHYSTOP)) ;;
    other_rounds (turns BeforeUserinit) ;; on_kernel userinit) w = Done tt w' /\ booted w' ks d v X l' /\ sized w' /\ cons_ok (k_cons (b_kernel w')).
Proof.
  intros [Hi0 Hks Hu Hc Hkd] Hfr Hbufs Hidt Hpr Hz Hg Hgr HX.
  assert (queues_ok (k_pt (b_kernel w)) aempty) as Hq0 by (rewrite (fr_pt _ _ Hfr); apply boot_queues_ok).
  destruct (other_rounds_done ids id0 ids_once (turns BeforeKinit2) w (V2P kd) Hi0 Hq0) as (h0 & E0 & Hi). rewrite (bind_done _ _ _ _ _ E0). clear E0.
  set (k0 := set_k_hw h0 (b_kernel w)).
  destruct (kinit2_done k0 kd X l Hu Hks) as (m & f & E1 & Hks1 & Hmany). rewrite (bind_done _ _ _ _ _ (on_kernel_done _ (set_kernel k0 w) _ _ E1)). clear E1.
  set (ka := set_k_use_lock true _).
  destruct (other_rounds_done ids id0 ids_once (turns BeforeUserinit) (set_kernel ka (set_kernel k0 w)) (V2P kd) Hi Hq0) as (h1 & E1 & Hi1).
  rewrite (bind_done _ _ _ _ _ E1). clear E1. set (k1 := set_k_hw h1 _). set (w1 := set_kernel k1 _).
  assert (hw_ok (k_hw k1) boot [] false) as Hok by (by eapply idle_ok).
  pose proof (userinit_wp boot false k1 kd managed X (high ++ l) Hok Hks1 managed_once Hmany (fr_pt _ _ Hfr) (fr_pid _ _ Hfr) (fr_icache _ _ Hfr) initcode_fits) as Hw.
  apply wp_atomic_done in Hw as ([] & k2 & E2 & ks & d & v & l' & [[Hok2 Hid2] Hq Ht Hin Hcw Hmap Hcode Hframe Hres [Hks2 Hsp2] Hkept]).
  rewrite (on_kernel_done userinit w1 tt k2 E2). clear E2. exists (set_kernel k2 w1), ks, d, v, l'. split; [done|].
  assert (k_cons k2 = k_cons (b_kernel w)) as Hc2 by exact (f_equal k_cons Hkept).
  assert (k_kpgdir k2 = kd) as Hkd2 by exact (eq_trans (f_equal k_kpgdir Hkept) Hkd).
  destruct (hw_id_apics _ _ Hid2) as [Hcr Hap]. split.
  2: { split; [destruct Hz; split; assumption|]. change (cons_ok (k_cons k2)). rewrite Hc2. exact Hc. }
  assert (forall p, p ∈ space_pages d (k_mem k2) ++ ks :: X -> p <> 0) as Hnz.
  { intros p Hp. assert (p ∈ managed) as Hpm by (rewrite (ks_pages _ _ _ _ _ _ Hks2), elem_of_app; by left).
    destruct (page_range p (ks_all _ _ _ _ _ _ Hks2 p Hpm)). unfold KERNBASE in *. lia. }
  split; cbn [b_kernel set_kernel w1]; rewrite ?Hkd2.
  - rewrite Hap. by eapply idle_ids.
  - split; [exact Hok2|]. rewrite (cur_hw_id _ _ Hid2). by eapply idle_cur.
  - intros j Hj Hne. specialize (Hpr j Hj Hne). rewrite decide_True in Hpr by done. rewrite <- Hidt. destruct Hpr. split; assumption.
  - exact (conj Hidt (conj Hg Hgr)).
  - rewrite Hcr. split; [exact (ih_cr3 _ _ _ _ Hi1)|]. exact (ks_pte _ _ _ _ _ _ Hks2).
  - exact (f_equal k_use_lock Hkept).
  - exact (ks_free _ _ _ _ _ _ Hks2).
  - exact (ks_pages _ _ _ _ _ _ Hks2).
  - exact HX.
  - split; [exact Hq|]. eapply first_switchable; [exact Ht|apply Hnz; apply elem_of_app; right; by left|apply Hnz; apply elem_of_app; left; by left].
  - exact Ht.
  - exact Hin.
  - exact Hsp2.
  - exact Hmap.
  - exact Hcode.
  - exact Hframe.
  - exact Hres.
  - exact Hcw.
  - apply init_bcache_ok; [exact (eq_trans (f_equal k_bufs Hkept) Hbufs)| |].
    + intros sl. transitivity (sl_locked (k_sleeplocks (b_kernel w) !!! sl)); [exact (f_equal (fun k => sl_locked (k_sleeplocks k !!! sl)) Hkept)|apply (fr_sleep _ _ Hfr)].
    + replace (k_disk _) with disk; [exact disk_blocks|]. rewrite <- (fr_disk _ _ Hfr). exact (eq_sym (f_equal k_disk Hkept)).
Qed.

Lemma boot_slot : (boot < length ids)%nat /\ (length ids <= MAXCPU)%nat.
Proof. clear patient room initcode_fits. pose proof (lookup_lt_Some _ _ _ boot_known). rewrite length_take in *. unfold MAXCPU. lia. Qed.

Lemma main_init_done : exists w ks d v stacks free, main_init (loaded mem disk dev0 id0) = Done tt w /\
  booted w ks d v stacks free /\ sized w /\ cons_ok (k_cons (b_kernel w)).
Proof.
  destruct boot_slot as [Hbl Hbm]. unfold main_init.
  destruct (memory_done mem disk dev0 id0 mem_bytes_ok room) as (kd & m & f & l & h & E1 & Hks & Hlen & Hb & Hm & Hh1 & Hh2 & Hh3 & Hh4 & _ & Hh6).
  rewrite (bind_done_assoc _ _ _ _ _ E1). clear E1. set (w1 := set_kernel _ _).
  destruct (mpinit_done mem disk dev0 conf lapic es id0 tables w1 kd m f l h eq_refl Hks Hb Hm Hh1 Hh2 Hh3 Hh4 Hh6 eq_refl eq_refl eq_refl eq_refl eq_refl) as (w2 & E2 & Hp2 & _).
  rewrite (bind_done _ _ _ _ _ E2). clear E2.
  destruct (devices_done disk es boot id0 ids_once boot_known w2 kd l (startothers ;; other_rounds (turns BeforeKinit2) ;;
    on_kernel (kinit2 (P2V (4 * 1024 * 1024)) (P2V PHYSTOP)) ;; other_rounds (turns BeforeUserinit) ;; on_kernel userinit) Hp2 ltac:(lia)) as (w3 & E3 & [Hs Hfr Hbufs Hg Hgr Hir Hst Hidt]).
  rewrite E3. clear E3 Hp2. destruct (low_pages room) as (_ & Hk0 & _ & Hlow).
  destruct (startothers_done ids boot id0 kd low ids_once boot_known patient (fun p Hp => proj2 (Hlow p Hp)) w3 (V2P kd) [] l Hs ltac:(rewrite (fr_pt _ _ Hfr); apply boot_queues_ok)) as
    (w4 & X & l4 & E4 & Hs4 & Hu4 & Hp4 & Hz4 & Hgl4 & Hen4 & HX); [unfold MAXCPU in *; lia|done|split; [rewrite Hgr|rewrite Hir|rewrite Hst]; by rewrite ?length_insert| | |].
  { intros j Hj Hjb. rewrite decide_False by lia. rewrite Hg, Hst, list_lookup_insert_ne by done. split; apply lookup_replicate_2; lia. }
  { unfold PGSIZE in *. lia. }
  rewrite (bind_done _ _ _ _ _ E4). clear E4. destruct (unchanged_fresh _ _ Hu4 Hfr) as [Hfr4 Hb4]. destruct Hen4 as [Hg4 Hgr4], Hgl4 as (_ & _ & Hi4 & _).
  destruct (main_ends w4 kd X l4 Hs4 Hfr4) as (w5 & ks & d & v & free & E5 & Hbt).
  - by rewrite Hb4.
  - by rewrite Hi4.
  - by rewrite Hi4.
  - done.
  - rewrite Hg4, Hg. apply list_lookup_insert_eq. rewrite length_replicate. lia.
  - rewrite Hgr4, Hgr. apply list_lookup_insert_eq. rewrite length_replicate. lia.
  - done.
  - exists w5, ks, d, v, X, free. exact (conj E5 Hbt).
Qed.

(** The boot processor reports and reaches its scheduler: it has the state of
    [w], but for the console, its own entries and what locks touch. *)
Record reported (w w' : board D) : Prop := {
  rp_kernel : exists h x, b_kernel w' = set_k_hw h (set_k_cons x (b_kernel w)) /\ hw_ok h boot [] false /\ hw_id h = hw_id (k_hw (b_kernel w));
  rp_ready : ready (b_idt w) w' boot;
  rp_only : only w w' boot }.

Lemma boot_reports w ks d v stacks free : booted w ks d v stacks free -> sized w -> cons_ok (k_cons (b_kernel w)) ->
  exists w', mpmain_start w = Done tt w' /\ reported w w'.
Proof.
  intros [_ [Hok _] _ (_ & Hg & Hgr)] [Hz1 Hz2 Hz3] Hc. destruct boot_slot as [Hbl Hbm]. clear patient room initcode_fits.
  destruct (mpmain_done w boot Hok Hc) as (h & x & E & Hok' & Hid & _). eexists. split; [exact E|]. split.
  - by exists h, x.
  - split; cbn; [done|done|apply list_lookup_insert_eq; lia..].
  - split; [done|intros _; split; cbn; by rewrite ?length_insert|]. intros j Hj. cbn. by rewrite !list_lookup_insert_ne.
Qed.
End main.

(** C8: [main] brings the machine up.  It starts where the loader left it, with
    interrupts off, in a machine whose BIOS describes its processors, each once,
    and the boot processor among the first [NCPU]; devices answer within
    [patience] polls, the first 4 megabytes have 80 pages behind the kernel, and
    [initcode] fits a page.  Then, whatever rounds the other processors run of
    their schedulers, once started, between the steps of [main], [userinit]
    returns, and in that state: every processor of the table (the first [NCPU])
    is known, and every other one has its segment and interrupt tables loaded and
    has reported that it is up, on a kernel stack of its own that the entry code
    could use; the boot processor is outside every critical section and runs no
    process; the kernel's page table, in use, maps exactly [kmap]; the
    allocator takes its lock, and its pages are the whole pages from the end of
    the kernel to [PHYSTOP], each free, a stack, or in one of the two page tables;
    process 0 is the one process, number 1, [initproc], runnable and first in
    queue 0, with [initcode] at address 0 of its space, a trap frame that starts it
    there in user mode and a context that starts it in [forkret], and the root
    directory as its own; the buffer cache is empty.  From then on any processor
    may take the process.  If the boot processor goes on first, it loads its
    interrupt table, reports, and calls [scheduler] with nothing else changed,
    and its first round switches to process 0. *)
Theorem main_boots {D} `{!Bus D} `{!Patience} `{!Responsive D} `{Linkage} `{Fuel} `{Disk} `{DevSw} `{Initcode} `{!Image} `{Schedule}
    mem disk (dev0 : D) conf lapic es boot id0 :
  (1 <= patience)%nat -> Str.mem_ok mem -> bios mem conf lapic es ->
  NoDup (take 8 (processors es)) -> take 8 (processors es) !! boot = Some id0 ->
  PGROUNDUP kend + 80 * PGSIZE <= KERNBASE + 0x400000 ->
  Forall (fun blk => length blk = Z.to_nat BSIZE) disk -> Z.of_nat (length initcode) < PGSIZE ->
  exists w ks d v stacks free, main_init (loaded mem disk dev0 id0) = Done tt w /\ booted es boot w ks d v stacks free /\
  exists w', reported boot w w' /\
    (forall rounds, main rounds (loaded mem disk dev0 id0) = on_kernel (scheduler rounds) w') /\
    switches (dispatched boot (b_kernel w') (aenqueue 0 0 aempty)) (came_back boot) (scheduler_round boot (b_kernel w'))
      (fun s' o => wp atomic o (fun _ => in_scheduler boot [] s')).
Proof.
  intros Hpa Hm Hb Hnd Hid Hroom Hdisk Hcode.
  destruct (main_init_done mem disk dev0 conf lapic es boot id0 Hpa Hm Hb Hnd Hid Hroom Hdisk Hcode) as (w & ks & d & v & stacks & free & E & Hbt & Hz & Hc).
  exists w, ks, d, v, stacks, free. split; [exact E|]. split; [exact Hbt|].
  destruct (boot_reports es boot id0 Hid w ks d v stacks free Hbt Hz Hc) as (w' & E' & Hrp). exists w'. split; [exact Hrp|].
  split; [intros rounds; unfold main, mpmain; by rewrite (bind_done _ _ _ _ _ E), (bind_done _ _ _ _ _ E')|].
  destruct (rp_kernel _ _ _ Hrp) as (h & x & Ek & Hok & _). destruct (bt_queues _ _ _ _ _ _ _ _ Hbt) as [Hq Hsw]. rewrite Ek.
  apply (scheduler_round_switches boot false); [exact Hok|exact Hq|exact Hsw|]. exists 0%nat. by split; [apply Nat.lt_0_succ|].
Qed.

(** A machine of two processors whose devices are always ready, and a kernel image. *)
Definition demo_bus : Bus unit := {| bus_read _ d := (0x40, d); bus_write _ _ d := d |}.
Definition demo_image : @Image demo_linkage.
Proof.
  refine (@Build_Image demo_linkage (replicate 100 0x90) 0x80103000 0x8010a000 (fun i => 0x80105000 + 16 * i) _ _ _); vm_compute; (done || split; done).
Defined.
Lemma demo_responsive : let _ := demo_bus in let _ : Patience := 1%nat in Responsive unit.
Proof. split; intros; intros mem []; by eexists _, _. Qed.
Lemma demo_bios : @bios demo_linkage (Mp.demo_mem 100 128 []) (P2V 0x1000) 0xfee00000 demo_entries.
Proof.
  split.
  - apply demo_points; vm_compute; reflexivity.
  - split; [vm_compute; reflexivity|right; vm_compute; reflexivity|vm_compute; reflexivity|vm_compute; reflexivity|vm_compute; reflexivity| | |].
    + apply bytes_atb_spec. vm_compute. reflexivity.
    + repeat constructor.
    + split; [|split]; vm_compute; (reflexivity || discriminate).
  - assert (forallb (fun p => p + 16 <=? @kend demo_linkage) (mp_areas (Mp.demo_mem 100 128 [])) = true) as Hall by (vm_compute; reflexivity).
    intros p Hp. apply Z.leb_le. exact (proj1 (forallb_forall _ _) Hall p (proj1 (list_elem_of_In _ _) Hp)).
  - vm_compute. discriminate.
Qed.

Lemma main_boots_witness : let _ := demo_linkage in let _ := demo_bus in let _ : Patience := 1%nat in let _ := demo_image in
  let _ : Fuel := 0%nat in let _ : Disk := memide_disk in let _ : DevSw := {| devsw_read _ := None; devsw_write _ := None |} in let _ : Initcode := [0x68; 0x24; 0] in
  let _ : Schedule := fun _ => [1; 1]%nat in
  exists w ks d v stack free, main_init (loaded (Mp.demo_mem 100 128 []) (replicate 10 (replicate 512 0)) tt 0) = Done tt w /\
    @booted unit _ _ _ demo_entries 0 w ks d v [stack] free.
Proof.
  intros lnk bus pat img fu dk dv ic sc.
  destruct (@main_boots unit bus pat demo_responsive lnk fu dk dv ic img sc (Mp.demo_mem 100 128 []) (replicate 10 (replicate 512 0)) tt (P2V 0x1000) 0xfee00000 demo_entries 0 0)
    as (w & ks & d & v & stacks & free & E & Hbt & _).
  - exact (le_n 1).
  - apply demo_mem_ok.
  - exact demo_bios.
  - apply NoDup_cons. split; [by intros ?%list_elem_of_singleton|apply NoDup_singleton].
  - reflexivity.
  - vm_compute. discriminate.
  - by apply Forall_replicate.
  - vm_compute. reflexivity.
  - pose proof (bt_stacks _ _ _ _ _ _ _ _ Hbt) as Hl. destruct stacks as [|stack [|? ?]]; [discriminate Hl| |discriminate Hl].
    exists w, ks, d, v, stack, free. exact (conj E Hbt).
Defined.
