(* ===== verification/Editor.v ===== *)
(** * The line editor of the console ([consoleintr] and [consoleread] of [kernel/console.c])

    The circular input buffer with its three counters is described by two
    sequences: the bytes ready to be read and the line being edited.  One
    character of [consoleintr] acts on them as an editor does, and
    [consoleread] takes the first line that is ready. *)
From S2P Require Import Prelude Types Str Spinlock Queue Kalloc Sched Context Sleeplock Bio Log Console Fs Consio.

(** ** The abstract editor *)
Record input := mkInput { i_ready : list Z; i_line : list Z }.

Definition i_size (i : input) : nat := length (i_ready i) + length (i_line i).
Definition i_commit (i : input) : input := mkInput (i_ready i ++ i_line i) [].

(** What one character does, and whether a reader may go on. *)
Definition i_edit (c : Z) (i : input) : input * bool :=
  let '(mkInput ready line) := i in
  if c =? ctrl 80 then (i, false)
  else if c =? ctrl 85 then (mkInput ready [], false)
  else if (c =? ctrl 72) || (c =? 0x7f) then (mkInput ready (take (length line - 1) line), false)
  else if (c =? 0) || (128 <=? i_size i)%nat then (i, false)
  else
    let c := if c =? 13 then 10 else c in
    let i := mkInput ready (line ++ [c]) in
    if (c =? 10) || (c =? ctrl 68) || (i_size i =? 128)%nat then (i_commit i, true) else (i, false).

(** ** The ring *)
Section ring.
Implicit Types (x y : console) (ready line : list Z) (v : Z) (i k : nat).

(** Position [k] after the read counter. *)
Definition cell x k : nat := Z.to_nat ((in_r x + Z.of_nat k) mod INPUT_BUF).

Record ring_ok x ready line : Prop := {
  io_len : length (in_buf x) = 128%nat;
  io_r : 0 <= in_r x < 2 ^ 32;
  io_w : in_w x = u32 (in_r x + Z.of_nat (length ready));
  io_e : in_e x = u32 (in_r x + Z.of_nat (length ready + length line));
  io_room : (length ready + length line <= 128)%nat;
  io_bytes : forall i v, (ready ++ line) !! i = Some v -> in_buf x !! cell x i = Some v }.

(** The line being edited has no newline: a newline makes it ready. *)
Definition input_ok x (i : input) : Prop := ring_ok x (i_ready i) (i_line i) /\ 10 ∉ i_line i.

Lemma ring128 (a : Z) : u32 a mod INPUT_BUF = a mod INPUT_BUF.
Proof.
  unfold u32, INPUT_BUF. rewrite (Z.mod_eq a (2 ^ 32)) by lia.
  replace (a - 2 ^ 32 * (a / 2 ^ 32)) with (a + (- (2 ^ 25) * (a / 2 ^ 32)) * 128) by lia.
  by rewrite Z.mod_add.
Qed.

Lemma cell_lt x k : (cell x k < 128)%nat.
Proof. unfold cell, INPUT_BUF. pose proof (Z.mod_pos_bound (in_r x + Z.of_nat k) 128). lia. Qed.

Lemma cell_inj x i k : (i < 128)%nat -> (k < 128)%nat -> cell x i = cell x k -> i = k.
Proof.
  unfold cell, INPUT_BUF. intros Hi Hk E.
  pose proof (Z.mod_pos_bound (in_r x + Z.of_nat i) 128). pose proof (Z.mod_pos_bound (in_r x + Z.of_nat k) 128).
  apply Z2Nat.inj in E; [|lia..].
  assert ((Z.of_nat i - Z.of_nat k) mod 128 = 0) as E'.
  { replace (Z.of_nat i - Z.of_nat k) with (in_r x + Z.of_nat i - (in_r x + Z.of_nat k)) by lia.
    by rewrite Zminus_mod, E, Z.sub_diag. }
  apply Z.mod_divide in E' as [q Hq]; lia.
Qed.

Lemma u32_offset (r n : Z) : 0 <= n < 2 ^ 32 -> u32 (u32 (r + n) - r) = n.
Proof. intros Hn. rewrite u32_sub_l. replace (r + n - r) with n by lia. by apply u32_small. Qed.

(** The comparisons the code makes on its counters. *)
Lemma ring_empty x ready line : ring_ok x ready line -> (in_e x =? in_w x) = bool_decide (line = []).
Proof.
  intros [_ Hr Hw He Hroom _]. rewrite He, Hw. destruct line as [|v l]; cbn [length].
  - rewrite Nat.add_0_r, Z.eqb_refl. done.
  - rewrite bool_decide_false by done. apply Z.eqb_neq. intros [k Hk]%u32_eq_iff. cbn in Hroom. lia.
Qed.

Lemma ring_size x ready line : ring_ok x ready line -> u32 (in_e x - in_r x) = Z.of_nat (length ready + length line).
Proof. intros [_ Hr Hw He Hroom _]. rewrite He. apply u32_offset. lia. Qed.

Lemma ring_full x ready line : ring_ok x ready line ->
  (in_e x =? u32 (in_r x + INPUT_BUF)) = (length ready + length line =? 128)%nat.
Proof.
  intros [_ Hr Hw He Hroom _]. rewrite He. unfold INPUT_BUF. destruct (Nat.eqb_spec (length ready + length line) 128) as [->|Hn].
  - apply Z.eqb_refl.
  - apply Z.eqb_neq. intros [k Hk]%u32_eq_iff. lia.
Qed.

(** Storing a byte, making the line ready, erasing a byte, reading a byte. *)
Definition stored v x : console :=
  set_in_e (u32 (in_e x + 1)) (set_in_buf (<[Z.to_nat (in_e x mod INPUT_BUF) := v]> (in_buf x)) x).

Lemma ring_store x ready line v :
  ring_ok x ready line -> (length ready + length line < 128)%nat -> ring_ok (stored v x) ready (line ++ [v]).
Proof.
  intros [Hl Hr Hw He Hroom Hb] Hlt. assert (Z.to_nat (in_e x mod INPUT_BUF) = cell x (length (ready ++ line))) as Ee.
  { unfold cell. by rewrite He, ring128, length_app. }
  split; cbn; [by rewrite length_insert|done|done| |rewrite length_app; cbn; lia|].
  - rewrite He, u32_add_l, length_app. cbn. f_equal. lia.
  - intros i w Hi. change (cell (stored v x) i) with (cell x i). rewrite Ee, app_assoc in *.
    destruct (decide (i < length (ready ++ line))%nat) as [Hil|Hil].
    + rewrite lookup_app_l in Hi by done. rewrite list_lookup_insert_ne; [by apply Hb|].
      intros E%cell_inj; [lia|rewrite length_app; lia|rewrite length_app in Hil; lia].
    + apply lookup_lt_Some in Hi as Hi2. rewrite length_app in Hi2. cbn in Hi2.
      assert (i = length (ready ++ line)) as -> by lia. rewrite lookup_snoc_eq in Hi. injection Hi as <-.
      apply list_lookup_insert_eq. rewrite Hl. apply cell_lt.
Qed.

Lemma ring_commit x ready line : ring_ok x ready line -> ring_ok (set_in_w (in_e x) x) (ready ++ line) [].
Proof.
  intros [Hl Hr Hw He Hroom Hb]. split; cbn; try done; rewrite ?length_app, ?Nat.add_0_r; [done|done|done|].
  intros i v. rewrite app_nil_r. apply Hb.
Qed.

Lemma ring_last x ready line v : ring_ok x ready (line ++ [v]) ->
  in_buf x !! Z.to_nat (u32 (in_e x - 1) mod INPUT_BUF) = Some v /\ ring_ok (set_in_e (u32 (in_e x - 1)) x) ready line.
Proof.
  intros [Hl Hr Hw He Hroom Hb]. rewrite length_app in *. cbn [length] in *.
  assert (u32 (in_e x - 1) = u32 (in_r x + Z.of_nat (length ready + length line))) as E1.
  { rewrite He, u32_sub_l. f_equal. lia. }
  split.
  - rewrite E1, ring128, <- length_app. apply Hb. rewrite app_assoc. apply lookup_snoc_eq.
  - split; cbn; try done; [lia|]. intros i w Hi. apply Hb. rewrite app_assoc. by apply lookup_app_l_Some.
Qed.

Lemma ring_read x v ready line : ring_ok x (v :: ready) line ->
  in_buf x !! Z.to_nat (in_r x mod INPUT_BUF) = Some v /\ (in_r x =? in_w x) = false /\
  ring_ok (set_in_r (u32 (in_r x + 1)) x) ready line.
Proof.
  intros [Hl Hr Hw He Hroom Hb]. cbn [length] in *. split; [|split].
  - specialize (Hb 0%nat v eq_refl). unfold cell in Hb. by rewrite Z.add_0_r in Hb.
  - apply Z.eqb_neq. rewrite Hw. intros E. rewrite <- (u32_small (in_r x)) in E at 1 by lia.
    apply u32_eq_iff in E as [k Hk]. lia.
  - split; cbn; [done|apply u32_range| | |lia|].
    + rewrite Hw, u32_add_l. f_equal. lia.
    + rewrite He, u32_add_l. f_equal. lia.
    + intros i w Hi. rewrite <- (Hb (S i) w Hi). f_equal. unfold cell. cbn.
      rewrite <- (ring128 (u32 (in_r x + 1) + _)), u32_add_l, ring128. do 2 f_equal. lia.
Qed.

End ring.

(** ** One character *)
Section edit.
Context `{Serial}.
Implicit Types (x y : console) (s : kernel) (c : Z) (ready line : list Z).

Lemma ring_ok_prints out x y ready line : prints out x y -> ring_ok x ready line -> ring_ok y ready line.
Proof.
  intros [_ _ (E1 & E2 & E3 & E4) _] [? ? ? ? ? Hb]. split; try congruence; try lia.
  intros i v. unfold cell. rewrite E1, E2. apply Hb.
Qed.

Lemma backspace_emits : emits (consputc BACKSPACE) [8; 32; 8].
Proof.
  intros s Hs. unfold consputc, cons_get. rewrite (bind_done _ _ s (panicked (k_cons s)) s) by done.
  rewrite (co_alive _ Hs). change (BACKSPACE =? BACKSPACE) with true. cbv iota.
  set (x := set_uart_out (uart_out (k_cons s) ++ if uart then [8; 32; 8] else []) (k_cons s)).
  rewrite (bind_done _ _ _ tt (set_k_cons x s)).
  2:{ rewrite (bind_done _ _ _ _ _ (uartputc_ok 8 s)), (bind_done _ _ _ _ _ (uartputc_ok 32 _)), uartputc_ok.
      unfold x. cbn. destruct uart; by rewrite ?app_nil_r, <- ?app_assoc. }
  destruct (cgaputc_ok BACKSPACE (set_k_cons x s)) as (y & E & Hok & Hu & Hin & Hl); [by destruct Hs|].
  exists y. split; [by rewrite E|]. by split.
Qed.

Lemma wp_emits {A} P m out (k : unit -> K A) s Q :
  emits m out -> cons_ok (k_cons s) ->
  (forall y, prints out (k_cons s) y -> wp P (k tt (set_k_cons y s)) Q) ->
  wp P ((x <- m ;; k x) s) Q.
Proof. intros Hm Hs Hk. destruct (Hm s Hs) as (y & E & Hy). rewrite (bind_done _ _ _ _ _ E). by apply Hk. Qed.

(** Erasing one byte of the line, as both erasing commands do. *)
Lemma wp_erase {A} P (k : unit -> K A) s Q ready line v :
  cons_ok (k_cons s) -> ring_ok (k_cons s) ready (line ++ [v]) ->
  (forall y, cons_ok y -> ring_ok y ready line -> wp P (k tt (set_k_cons y s)) Q) ->
  wp P ((x <- consputc BACKSPACE ;; k x) (set_k_cons (set_in_e (u32 (in_e (k_cons s) - 1)) (k_cons s)) s)) Q.
Proof.
  intros Hs Hr Hk. apply ring_last in Hr as [_ Hr]. eapply wp_emits; [apply backspace_emits|by destruct Hs|].
  intros y Hy. apply (Hk y); [apply Hy|]. by eapply ring_ok_prints.
Qed.

Lemma wp_kill_line {A} P (k : unit -> K A) Q ready line : forall n s,
  (length line <= n)%nat -> 10 ∉ line -> cons_ok (k_cons s) -> ring_ok (k_cons s) ready line ->
  (forall y, cons_ok y -> ring_ok y ready [] -> wp P (k tt (set_k_cons y s)) Q) ->
  wp P ((x <- kill_line n ;; k x) s) Q.
Proof.
  induction line as [|v line IH] using rev_ind; intros n s Hn H10 Hs Hr Hk.
  { destruct n; cbn [kill_line]; unfold cons_get; wp_run; rewrite (ring_empty _ _ _ Hr); cbn [bool_decide]; wp_run;
      by rewrite <- (set_k_cons_id s); apply Hk. }
  destruct n as [|n]; [rewrite length_app in Hn; cbn in Hn; lia|]. cbn [kill_line]. unfold cons_get, in_byte. wp_run.
  rewrite (ring_empty _ _ _ Hr), bool_decide_false by (by destruct line). unfold cons_get. wp_run.
  destruct (ring_last _ _ _ _ Hr) as [E _]. eapply wp_of_option; [exact E|].
  rewrite (proj2 (Z.eqb_neq v 10)) by (intros ->; apply H10; set_solver). unfold cons_set. wp_run.
  eapply wp_erase; [done|done|]. intros y Hy Hry. apply (IH n (set_k_cons y s)); [rewrite length_app in Hn; cbn in Hn; lia|set_solver|done|done|].
  intros z Hz Hrz. by apply Hk.
Qed.

(** The state after a character. *)
Definition edited (s : kernel) (ch : nat) (L : list lockid) (b : bool) (woken : bool) (i : input) (s' : kernel) : Prop :=
  exists h t x, s' = set_k_hw h (set_k_pt t (set_k_cons x s)) /\
    hw_ok h ch L b /\ hw_id h = hw_id (k_hw s) /\
    (exists qs, queues_ok t qs) /\
    pt_data t = (if woken then wake (Some C_input_r) <$> pt_data (k_pt s) else pt_data (k_pt s)) /\
    cons_ok x /\ input_ok x i.

Lemma edited_cons s ch L b qs y i :
  hw_ok (k_hw s) ch L b -> queues_ok (k_pt s) qs -> cons_ok y -> input_ok y i ->
  edited s ch L b false i (set_k_cons y s).
Proof. intros. exists (k_hw s), (k_pt s), y. split_and!; try done. by exists qs. Qed.

(** C24: for every character the interrupt handler gets, [edit] (the body of the
    loop of [consoleintr]) acts on the ready bytes and the edited line as the
    abstract editor does: backspace and [C('U')] erase within the current line
    and never a byte already ready, a character is dropped when the buffer is
    full, a newline, [C('D')] or a full buffer makes the line ready and wakes
    the readers (and only then), and only [C('P')] asks for the process list. *)
Theorem edit_refines c s ch L b qs i :
  hw_ok (k_hw s) ch L b -> L_ptable ∉ L -> queues_ok (k_pt s) qs ->
  cons_ok (k_cons s) -> input_ok (k_cons s) i -> 0 <= c < 256 ->
  exists s', edit c s = Done (c =? ctrl 80) s' /\ edited s ch L b (i_edit c i).2 (i_edit c i).1 s'.
Proof.
  intros Hhw HL Hq Hs [Hr H10] Hc. destruct i as [ready line]. cbn [i_ready i_line] in *.
  assert (forall y (i : input), cons_ok y -> input_ok y i -> edited s ch L b false i (set_k_cons y s)) as Hdone
    by (intros; by eapply edited_cons).
  enough (wp atomic (edit c s) (fun d s' => d = (c =? ctrl 80) /\ edited s ch L b (i_edit c (mkInput ready line)).2 (i_edit c (mkInput ready line)).1 s')) as Hw
    by (apply wp_atomic_done in Hw as (d & s' & E & -> & Hs'); eauto).
  unfold edit, i_edit. destruct (c =? ctrl 80) eqn:E80.
  { wp_run. split; [done|]. rewrite <- (set_k_cons_id s) at 2. by apply Hdone. }
  destruct (c =? ctrl 85) eqn:E85.
  { eapply wp_kill_line; [|done|done|done|]; [pose proof (io_room _ _ _ Hr); change (Z.to_nat INPUT_BUF) with 128%nat; lia|].
    intros y Hy Hry. wp_run. split; [done|]. apply Hdone; [done|]. split; [done|apply not_elem_of_nil]. }
  destruct ((c =? ctrl 72) || (c =? 0x7f)) eqn:Ebs.
  { unfold cons_get. wp_run. rewrite (ring_empty _ _ _ Hr). destruct line as [|v line _] using rev_ind; cbn [bool_decide negb].
    - wp_run. split; [done|]. rewrite <- (set_k_cons_id s) at 2. by apply Hdone.
    - rewrite bool_decide_false by (by destruct line). cbn [negb]. unfold cons_set. wp_run. eapply wp_erase; [done|done|].
      intros y Hy Hry. wp_run. split; [done|]. rewrite length_app. cbn. rewrite Nat.add_sub, take_app_length. apply Hdone; [done|].
      split; [done|]. cbn. set_solver. }
  unfold cons_get. wp_run. rewrite (ring_size _ _ _ Hr).
  assert ((Z.of_nat (length ready + length line) <? INPUT_BUF) = negb (128 <=? i_size (mkInput ready line))%nat) as ->.
  { unfold i_size, INPUT_BUF. cbn [i_ready i_line]. destruct (Nat.leb_spec 128 (length ready + length line)); cbn [negb]; [apply Z.ltb_ge|apply Z.ltb_lt]; lia. }
  rewrite <- negb_orb. destruct ((c =? 0) || _) eqn:Efull; cbn [negb].
  { wp_run. split; [done|]. rewrite <- (set_k_cons_id s) at 2. by apply Hdone. }
  apply orb_false_iff in Efull as [_ Efull%Nat.leb_gt]. cbv zeta.
  set (c' := if c =? 13 then 10 else c).
  assert (0 <= c' < 256) as Hc' by (unfold c'; destruct (c =? 13); lia).
  assert (u8 c' = c') as Eu by (unfold u8; by rewrite Z.mod_small).
  unfold cons_set. wp_run. rewrite Eu.
  match goal with |- wp _ (_ ?st) _ => change st with (set_k_cons (stored c' (k_cons s)) s) end.
  pose proof (ring_store _ _ _ c' Hr Efull) as Hr'.
  eapply wp_emits; [by apply consputc_emits|by destruct Hs|]. intros y Hy. pose proof (ring_ok_prints _ _ _ _ _ Hy Hr') as Hry.
  change (set_k_cons y (set_k_cons _ s)) with (set_k_cons y s). wp_run. change (k_cons (set_k_cons y s)) with y.
  rewrite (ring_full _ _ _ Hry). change (length ready + length (line ++ [c']))%nat with (i_size (mkInput ready (line ++ [c']))).
  destruct ((c' =? 10) || _ || _) eqn:Ecommit; wp_run.
  - eapply wp_wakeup; [done|done|done|]. intros h t Hh Hid Hqt Ht. wp_run. split; [done|].
    exists h, t, (set_in_w (in_e y) y). split_and!; try done; [by eexists|by destruct Hy as [[] ? ? ?]|].
    split; [by apply ring_commit|apply not_elem_of_nil].
  - split; [done|]. apply Hdone; [apply Hy|]. split; [done|]. cbn. apply orb_false_iff in Ecommit as [[E10%Z.eqb_neq _]%orb_false_iff _].
    set_solver.
Qed.

End edit.

(** ** Reading *)
Section read.
Context `{Fuel} `{Disk} `{Serial}.
Implicit Types (x : console) (s : kernel) (ready line l : list Z).

(** The part of the ready bytes one read of at most [n] takes, and the rest:
    up to a newline, or up to [C('D')], which ends the read and stays for the
    next one unless it comes first.  [None] when the reader has to wait. *)
Fixpoint take_line (n : nat) (first : bool) (ready : list Z) : option (list Z * list Z) :=
  match n, ready with
  | O, _ => Some ([], ready)
  | S n', [] => None
  | S n', c :: rest =>
      if c =? ctrl 68 then Some ([], if first then rest else ready)
      else if c =? 10 then Some ([c], rest)
      else match take_line n' false rest with Some (l, r) => Some (c :: l, r) | None => None end
  end.

Lemma wait_input_ready k s : (in_r (k_cons s) =? in_w (k_cons s)) = false -> wait_input k s = Done true s.
Proof. intros E. destruct k; cbn [wait_input]; unfold cons_get, bind, gets; cbn [obind]; by rewrite E. Qed.

Lemma read_line_ok n : forall first s ready line l rest,
  ring_ok (k_cons s) ready line -> take_line n first ready = Some (l, rest) ->
  exists r, read_line n first s = Done (Some l) (set_k_cons (set_in_r r (k_cons s)) s) /\
    ring_ok (set_in_r r (k_cons s)) rest line.
Proof.
  assert (forall s, set_k_cons (set_in_r (in_r (k_cons s)) (k_cons s)) s = s) as Hid by (by intros [???????????????????? []]).
  induction n as [|n IH]; intros first s ready line l rest Hr E; cbn [take_line read_line] in *.
  { injection E as <- <-. exists (in_r (k_cons s)). rewrite Hid. split; [done|]. by destruct Hr. }
  destruct ready as [|c ready]; [done|]. destruct (ring_read _ _ _ _ Hr) as (Hc & Hne & Hr').
  rewrite (bind_done _ _ _ _ _ (wait_input_ready fuel s Hne)). cbn [negb]. unfold cons_get.
  rewrite (bind_done _ _ _ (in_r (k_cons s)) s) by done.
  rewrite (bind_done _ _ _ c s) by (unfold in_byte, cons_get, bind, gets; cbn [obind]; by rewrite Hc).
  set (r1 := u32 (in_r (k_cons s) + 1)) in *. unfold cons_set.
  rewrite (bind_done _ _ _ tt (set_k_cons (set_in_r r1 (k_cons s)) s)) by done.
  destruct (c =? ctrl 68).
  - injection E as <- <-. destruct first; cbn [negb].
    + by exists r1.
    + exists (in_r (k_cons s)). rewrite Hid. split; [|by destruct Hr].
      assert (u32 (r1 - 1) = in_r (k_cons s)) as E1.
      { unfold r1. rewrite u32_sub_l. replace (in_r (k_cons s) + 1 - 1) with (in_r (k_cons s)) by lia. apply u32_small, Hr. }
      unfold whenm, modify, bind, ret. cbn [obind]. cbn [k_cons set_k_cons in_r set_in_r]. rewrite E1. f_equal. exact (Hid s).
  - destruct (c =? 10); [injection E as <- <-; by exists r1|].
    destruct (take_line n false ready) as [[l' rest']|] eqn:Et; [|done]. injection E as <- <-.
    destruct (IH false (set_k_cons (set_in_r r1 (k_cons s)) s) ready line l' rest' Hr' Et) as (r & E2 & Hr2). exists r. by rewrite (bind_done _ _ _ _ _ E2).
Qed.

(** when the ready input holds a line, the loop of [consoleread] returns at
    once: it takes exactly the bytes up to and including the newline, or up to
    [C('D')], or the [n] bytes asked for, leaves the rest and the line being
    edited in the buffer, and changes nothing but the read counter. *)
Theorem read_line_takes n s i l rest :
  input_ok (k_cons s) i -> take_line n true (i_ready i) = Some (l, rest) ->
  exists r, read_line n true s = Done (Some l) (set_k_cons (set_in_r r (k_cons s)) s) /\
    input_ok (set_in_r r (k_cons s)) (mkInput rest (i_line i)).
Proof.
  intros [Hr H10] E. destruct (read_line_ok n true s _ _ _ _ Hr E) as (r & E' & Hr'). by exists r.
Qed.

End read.

(** An editor whose counters have wrapped: a line ready, two bytes in the next. *)
Definition demo_input : console :=
  mkConsole ([108; 10; 99; 100] ++ replicate 123 0 ++ [101]) (2 ^ 32 - 1) 2 4 true false (replicate 2048 0) 0 [].
Definition demo_input_state : kernel := set_k_cons demo_input (set_k_pt demo_ptable (kernel_zero (demo_hw [L_cons] true None))).

Lemma demo_input_ok : input_ok demo_input (mkInput [101; 108; 10] [99; 100]).
Proof.
  split; [|apply (bool_decide_unpack _); by vm_compute]. split; [done|cbn; lia|by vm_compute|by vm_compute|cbn; lia|].
  intros i v Hi. do 5 (destruct i as [|i]; [by injection Hi as <-|]). done.
Qed.

Lemma edit_refines_witness :
  let _ : Serial := true in
  exists s', edit 13 demo_input_state = Done false s' /\
    edited demo_input_state 0 [L_cons] true true (mkInput [101; 108; 10; 99; 100; 10] []) s'.
Proof.
  intros Hs. apply (edit_refines 13 demo_input_state 0 [L_cons] true (qs_of demo_queues) (mkInput [101; 108; 10] [99; 100])).
  - apply demo_hw_ok, NoDup_singleton.
  - not_in.
  - apply demo_queues_ok.
  - by split.
  - apply demo_input_ok.
  - lia.
Defined.

Lemma read_line_takes_witness :
  let _ : Fuel := 1%nat in let _ : Serial := false in
  exists r, read_line 100 true demo_input_state = Done (Some [101; 108; 10]) (set_k_cons (set_in_r r demo_input) demo_input_state) /\
    input_ok (set_in_r r demo_input) (mkInput [] [99; 100]).
Proof.
  intros Hf Hs. apply (read_line_takes 100 demo_input_state (mkInput [101; 108; 10] [99; 100])); [apply demo_input_ok|by vm_compute].
Defined.
