(* ===== verification/Trap.v ===== *)
(** * Traps and the clock ([kernel/trap.c])

    [trap] is transcribed whole; the handlers it dispatches to ([syscall],
    [exit], the IDE, keyboard and serial interrupt handlers, and the write to
    the interrupt controller's end-of-interrupt register) are the operations
    of the interface [TrapOps].  The theorems are about the clock tick: the
    sleepers on [&ticks] wake, every [BOOSTTIMER] ticks all priorities are
    reset, and the running process is preempted when it has used its quantum
    of [2^priority] ticks. *)
From S2P Require Import Prelude Types Str Spinlock Queue Kalloc Sched Console.

(** The fields of [struct trapframe] the handler reads, and its address; the
    register [%cr2], which [rcr2] reads. *)
Record trapframe := mkTf { tf_addr : Z; trapno : Z; t_err : Z; t_eip : Z; tf_cs : Z; t_cr2 : Z }.

(** The handlers [trap] calls. *)
Class TrapOps := {
  syscall : K unit;
  exit : K unit;
  ideintr : K unit;
  kbdintr : K unit;
  uartintr : K unit;
  lapiceoi : K unit }.

Section code.
Context `{TrapOps} `{Serial}.

(** The case [T_IRQ0 + IRQ_TIMER] up to [lapiceoi]. *)
Definition clock_tick : K unit :=
  id <- cpuid ;;
  whenm (id =? 0)%nat
    (acquire L_tickslock ;;
     modify (fun s => set_k_ticks (u32 (k_ticks s + 1)) s) ;;
     wakeup (Some C_ticks) ;;
     n <- gets k_ticks ;;
     whenm (n mod BOOSTTIMER =? 0) priority_boost ;;
     release L_tickslock).

(** [myproc() && myproc()->killed && (tf->cs&3) == DPL_USER]. *)
Definition must_exit (tf : trapframe) : K bool :=
  po <- myproc ;;
  match po with
  | None => ret false
  | Some _ =>
      p <- curproc ;;
      k <- proc_get p killed ;;
      ret (negb (k =? 0) && (Z.land (tf_cs tf) 3 =? DPL_USER))
  end.

(** Force the process to give up the CPU at the end of its quantum. *)
Definition quantum (tf : trapframe) : K unit :=
  po <- myproc ;;
  match po with
  | None => ret tt
  | Some _ =>
      p <- curproc ;;
      st <- proc_get p state ;;
      if bool_decide (st = RUNNING) && (trapno tf =? T_IRQ0 + IRQ_TIMER) then
        p <- curproc ;;
        proc_set p (fun pr => set_ticks_running (u32 (ticks_running pr + 1)) pr) ;;
        p <- curproc ;;
        pri <- proc_get p priority ;;
        p <- curproc ;;
        n <- proc_get p ticks_running ;;
        whenm (u32 (Z.shiftl 1 pri) <=? n) yield
      else ret tt
  end.

(** The formats of the diagnostics. *)
Definition spurious_fmt : list Z := bytes "cpu%d: spurious interrupt at %x:%x" ++ [10].
Definition unexpected_fmt : list Z := bytes "unexpected trap %d from cpu %d eip %x (cr2=0x%x)" ++ [10].
Definition kill_fmt : list Z := bytes "pid %d %s: trap %d err %d on cpu %d eip 0x%x addr 0x%x--kill proc" ++ [10].

(** The [switch] on the trap number. *)
Definition dispatch (tf : trapframe) : K unit :=
  let n := trapno tf in
  if n =? T_IRQ0 + IRQ_TIMER then clock_tick ;; lapiceoi
  else if n =? T_IRQ0 + IRQ_IDE then ideintr ;; lapiceoi
  else if n =? T_IRQ0 + IRQ_IDE + 1 then ret tt
  else if n =? T_IRQ0 + IRQ_KBD then kbdintr ;; lapiceoi
  else if n =? T_IRQ0 + IRQ_COM1 then uartintr ;; lapiceoi
  else if (n =? T_IRQ0 + 7) || (n =? T_IRQ0 + IRQ_SPURIOUS) then
    id <- cpuid ;;
    cprintf spurious_fmt [AInt (Z.of_nat id); AInt (tf_cs tf); AInt (t_eip tf)] ;;
    lapiceoi
  else
    po <- myproc ;;
    if bool_decide (po = None) || (Z.land (tf_cs tf) 3 =? 0) then
      id <- cpuid ;;
      cprintf unexpected_fmt [AInt n; AInt (Z.of_nat id); AInt (t_eip tf); AInt (t_cr2 tf)] ;;
      panic "trap"
    else
    p <- curproc ;;
    i <- proc_get p pid ;;
    p <- curproc ;;
    nm <- proc_get p p_name ;;
    id <- cpuid ;;
    cprintf kill_fmt [AInt i; AStr (Some nm); AInt n; AInt (t_err tf); AInt (Z.of_nat id); AInt (t_eip tf); AInt (t_cr2 tf)] ;;
    p <- curproc ;;
    proc_set p (set_killed 1).

Definition trap (tf : trapframe) : K unit :=
  if trapno tf =? T_SYSCALL then
    p <- curproc ;;
    k <- proc_get p killed ;;
    whenm (negb (k =? 0)) exit ;;
    p <- curproc ;;
    proc_set p (set_tf (tf_addr tf)) ;;
    syscall ;;
    p <- curproc ;;
    k <- proc_get p killed ;;
    whenm (negb (k =? 0)) exit
  else
    dispatch tf ;;
    e <- must_exit tf ;;
    whenm e exit ;;
    quantum tf ;;
    e <- must_exit tf ;;
    whenm e exit.

End code.

(** ** The clock tick *)
Section tick.
Context {A : Type} (P : protocol kernel).
Implicit Types (s : kernel) (h : hw) (Q : A -> kernel -> Prop) (qs : aqueues) (t : ptable).

(** The process table and its queues after a tick that makes [ticks] equal to [n]. *)
Definition tick_data (n : Z) (ps : list proc) : list proc :=
  if n mod BOOSTTIMER =? 0 then set_priority 0 <$> (wake (Some C_ticks) <$> ps)
  else wake (Some C_ticks) <$> ps.
Definition tick_queues (n : Z) (ps : list proc) qs : aqueues :=
  let qs' := awaken (Some C_ticks) ps (seq 0 NPROC) qs in
  if n mod BOOSTTIMER =? 0 then aboost qs' else qs'.

Lemma hw_ok_cpuid s c L : hw_ok (k_hw s) c L false -> cpuid s = Done c s.
Proof.
  intros Hok. destruct (hw_ok_at _ _ _ _ Hok) as (r & Hat & _ & _ & _).
  apply mycpu_ok with r; [done|]. rewrite (ho_if _ _ _ _ Hok). by destruct L.
Qed.

Lemma wp_clock_tick (k : unit -> K A) s Q c qs :
  hw_ok (k_hw s) c [] false -> queues_ok (k_pt s) qs ->
  (c <> 0%nat -> wp P (k tt s) Q) ->
  (c = 0%nat -> forall h t, hw_ok h c [] false -> hw_id h = hw_id (k_hw s) ->
    let n := u32 (k_ticks s + 1) in
    queues_ok t (tick_queues n (pt_data (k_pt s)) qs) ->
    pt_data t = tick_data n (pt_data (k_pt s)) ->
    wp P (k tt (set_k_hw h (set_k_pt t (set_k_ticks n s)))) Q) ->
  wp P ((x <- clock_tick ;; k x) s) Q.
Proof.
  intros Hhw Hq Hne Hk. unfold clock_tick. wp_run.
  rewrite (bind_done _ _ _ _ _ (hw_ok_cpuid _ _ _ Hhw)).
  destruct (Nat.eqb_spec c 0) as [Ec|Ec]; [|by apply wp_when_false, Hne].
  apply wp_when_true. wp_run. eapply wp_acquire; [done|by apply not_elem_of_nil|]. intros h1 Hhw1 Hid1. wp_run.
  eapply wp_wakeup; [done|by apply not_elem_of_cons; split; [|apply not_elem_of_nil]|done|].
  intros h2 t2 Hhw2 Hid2 Hq2 Ht2. wp_run. cbn [k_ticks set_k_hw set_k_pt set_k_ticks].
  specialize (Hk Ec). unfold tick_queues, tick_data in Hk. cbv zeta in Hk.
  destruct (_ mod BOOSTTIMER =? 0).
  - apply wp_when_true. eapply wp_priority_boost; [done|by apply not_elem_of_cons; split; [|apply not_elem_of_nil]|done|].
    intros h3 t3 Hhw3 Hid3 Hq3 Ht3. eapply wp_release; [done|done|]. intros h4 Hhw4 Hid4. apply Hk; try done.
    + rewrite Hid4. simpl. rewrite Hid3. simpl. by rewrite Hid2.
    + rewrite Ht3. simpl. by rewrite Ht2.
  - apply wp_when_false. eapply wp_release; [done|done|]. intros h4 Hhw4 Hid4. apply Hk; try done.
    rewrite Hid4. simpl. by rewrite Hid2.
Qed.

End tick.

(** ** The quantum *)
Section quantum.
Implicit Types (s : kernel) (qs : aqueues) (p : nat) (pr : proc).

(** The ticks a process may run at its priority. *)
Definition quantum_of pr : Z := 2 ^ priority pr.

Lemma quantum_shift pri : 0 <= pri < Z.of_nat NPRIO -> u32 (Z.shiftl 1 pri) = 2 ^ pri.
Proof.
  intros Hp. rewrite Z.shiftl_1_l. apply u32_small. split; [lia|].
  apply Z.pow_lt_mono_r; unfold NPRIO in *; lia.
Qed.

(** The process charged one tick. *)
Definition charge pr : proc := set_ticks_running (ticks_running pr + 1) pr.

Section timer.
Context (tf : trapframe) (s : kernel) (c : nat) (b : bool) (p : nat) (pr : proc) (qs : aqueues).
Hypothesis running : at_proc s c [] b p pr qs.
Hypothesis running_state : state pr = RUNNING.
Hypothesis timer : trapno tf = T_IRQ0 + IRQ_TIMER.
Hypothesis few_ticks : 0 <= ticks_running pr < 2 ^ 32 - 1.

Lemma charge_eq : set_ticks_running (u32 (ticks_running pr + 1)) pr = charge pr.
Proof. unfold charge. by rewrite u32_small by lia. Qed.

(** Before the end of the quantum: the charge, and no switch. *)
Lemma quantum_continues : ticks_running pr + 1 < quantum_of pr ->
  wp atomic (quantum tf s) (fun _ s' => at_proc s' c [] b p (charge pr) qs /\
    exists h t, s' = set_k_hw h (set_k_pt t s) /\ pt_proc t = <[p := charge pr]> (pt_proc (k_pt s))).
Proof.
  intros Hlt. pose proof running as Hap. pose proof (ap_prio _ _ _ _ _ _ _ Hap) as Hb. unfold quantum.
  eapply wp_ap_myproc; [done|]. clear Hap. intros h1 Hap. eapply wp_ap_curproc; [done|]. clear Hap. intros h2 Hap.
  apply wp_proc_get with pr; [apply Hap|]. rewrite running_state, timer, bool_decide_eq_true_2, Z.eqb_refl by done. cbn [andb].
  eapply wp_ap_curproc; [done|]. clear Hap. intros h3 Hap.
  eapply wp_ap_set; [done|by rewrite running_state|by simpl; rewrite running_state|done|done|]. clear Hap. rewrite charge_eq. intros t1 Hap Ht1.
  eapply wp_ap_curproc; [done|]. clear Hap. intros h4 Hap. apply wp_proc_get with (charge pr); [apply Hap|].
  eapply wp_ap_curproc; [done|]. clear Hap. intros h5 Hap. apply wp_proc_get with (charge pr); [apply Hap|].
  change (priority (charge pr)) with (priority pr). rewrite (quantum_shift _ Hb). fold (quantum_of pr).
  change (ticks_running (charge pr)) with (ticks_running pr + 1). rewrite (proj2 (Z.leb_gt _ _) Hlt).
  apply wp_ret. split; [done|]. exists h5, t1. split; [by destruct s|done].
Qed.

(** At the end of the quantum: the switch of [yield]. *)
Lemma quantum_ends : quantum_of pr <= ticks_running pr + 1 ->
  switches (fun s1 => at_switch p c b s s1 /\
        queues_ok (k_pt s1) (aenqueue (Z.to_nat (priority (demote pr))) p qs) /\
        pt_data (k_pt s1) = <[p := data (set_state RUNNABLE (demote pr))]> (pt_data (k_pt s)))
    (resumed p) (quantum tf s)
    (fun s' o => wp atomic o (fun _ s'' => returned p [] b s'' /\ exists h, s'' = set_k_hw h s')).
Proof.
  intros Hle. pose proof running as Hap. pose proof (ap_prio _ _ _ _ _ _ _ Hap) as Hb. unfold quantum.
  sw_step ltac:(eapply wp_ap_myproc; [done|]). clear Hap. intros h1 Hap. wp_run.
  sw_step ltac:(eapply wp_ap_curproc; [done|]). clear Hap. intros h2 Hap. wp_run.
  sw_step ltac:(apply wp_proc_get with pr; [apply Hap|]). wp_run. rewrite running_state, timer, bool_decide_eq_true_2, Z.eqb_refl by done. cbn [andb].
  sw_step ltac:(eapply wp_ap_curproc; [done|]). clear Hap. intros h3 Hap. wp_run.
  sw_step ltac:(eapply wp_ap_set; [done|by rewrite running_state|by simpl; rewrite running_state|done|done|]). clear Hap. rewrite charge_eq. intros t1 Hap Ht1. wp_run.
  sw_step ltac:(eapply wp_ap_curproc; [done|]). clear Hap. intros h4 Hap. wp_run. sw_step ltac:(apply wp_proc_get with (charge pr); [apply Hap|]). wp_run.
  sw_step ltac:(eapply wp_ap_curproc; [done|]). clear Hap. intros h5 Hap. wp_run. sw_step ltac:(apply wp_proc_get with (charge pr); [apply Hap|]). wp_run.
  change (priority (charge pr)) with (priority pr). rewrite (quantum_shift _ Hb). fold (quantum_of pr).
  change (ticks_running (charge pr)) with (ticks_running pr + 1). rewrite (proj2 (Z.leb_le _ _) Hle). cbn [whenm].
  eapply switches_mono; [by apply (yield_once _ c b p (charge pr) qs)| |done|done].
  intros s1 ([Hon (h & t & ->)] & Hq & Hd). split; [split; [done|by exists h, t; destruct s]|]. split; [done|].
  rewrite Hd. unfold pt_data at 1. simpl. rewrite Ht1, list_fmap_insert, list_insert_insert_eq. done.
Qed.
End timer.

End quantum.

(** ** The main properties *)
Section properties.
Implicit Types (s : kernel) (qs : aqueues) (p : nat) (pr : proc).

(** The clock interrupt on CPU 0 advances [ticks] modulo 2^32, wakes exactly
    the processes that sleep on [&ticks], and, when [ticks] is a multiple of
    [BOOSTTIMER], gives every process the top priority and merges the queues;
    on the other CPUs it changes nothing.  It never stops or switches. *)
Theorem clock_tick_effect s c qs :
  hw_ok (k_hw s) c [] false -> queues_ok (k_pt s) qs ->
  wp atomic (clock_tick s) (fun _ s' =>
    hw_ok (k_hw s') c [] false /\
    if (c =? 0)%nat then
      let n := u32 (k_ticks s + 1) in
      k_ticks s' = n /\ queues_ok (k_pt s') (tick_queues n (pt_data (k_pt s)) qs) /\
      pt_data (k_pt s') = tick_data n (pt_data (k_pt s))
    else s' = s).
Proof.
  intros Hhw Hq. apply wp_tail. eapply wp_clock_tick; [done|done|..].
  - intros Hc. apply wp_ret. split; [done|]. by destruct (Nat.eqb_spec c 0).
  - intros -> h t Hh Hid n Ht Hd. apply wp_ret. split; [done|]. by split_and!.
Qed.


(** The state [s'] after the message about a trap of a user program: its text
    has gone out, the process is marked killed, and nothing else has changed but
    the state of locks and console. *)
Definition fault_args tf c pr : list arg :=
  [AInt (pid pr); AStr (Some (p_name pr)); AInt (trapno tf); AInt (t_err tf); AInt (Z.of_nat c); AInt (t_eip tf); AInt (t_cr2 tf)].
Definition faulted `{Serial} tf s c p pr qs s' : Prop :=
  (exists out, formats kill_fmt (fault_args tf c pr) out /\ prints out (k_cons s) (k_cons s')) /\
  at_proc s' c [] false p (set_killed 1 pr) qs /\
  pt_proc (k_pt s') = <[p := set_killed 1 pr]> (pt_proc (k_pt s)) /\
  exists h x t, s' = set_k_hw h (set_k_cons x (set_k_pt t s)).
(** The traps with a case of their own. *)
Definition handled : list Z :=
  T_SYSCALL :: map (Z.add T_IRQ0) [IRQ_TIMER; IRQ_IDE; IRQ_IDE + 1; IRQ_KBD; IRQ_COM1; 7; IRQ_SPURIOUS].

Lemma not_elem_of_handled n : n ∉ handled ->
  n <> T_SYSCALL /\ n <> T_IRQ0 + IRQ_TIMER /\ n <> T_IRQ0 + IRQ_IDE /\ n <> T_IRQ0 + IRQ_IDE + 1 /\ n <> T_IRQ0 + IRQ_KBD /\
  n <> T_IRQ0 + IRQ_COM1 /\ n <> T_IRQ0 + 7 /\ n <> T_IRQ0 + IRQ_SPURIOUS /\ True.
Proof. unfold handled. cbn [map]. rewrite !not_elem_of_cons. intros (?&?&?&?&?&?&?&?&_). by split_and!. Qed.

Section fault.
Context `{TrapOps} `{Serial}.

Lemma dispatch_fault tf s c p pr qs :
  at_proc s c [] false p pr qs -> state pr <> RUNNABLE -> 0 <= priority pr < Z.of_nat NPRIO ->
  cons_ok (k_cons s) -> Forall is_byte (p_name pr) -> Z.land (tf_cs tf) 3 = DPL_USER -> trapno tf ∉ handled ->
  wp atomic (dispatch tf s) (fun _ => faulted tf s c p pr qs).
Proof.
  intros Hap Hst Hpri Hc Hnm Hcs (N0 & N1 & N2 & N3 & N4 & N5 & N6 & N7 & _)%not_elem_of_handled.
  unfold dispatch. rewrite !(proj2 (Z.eqb_neq _ _)) by done. cbn [orb].
  eapply wp_ap_myproc; [done|]. clear Hap. intros h1 Hap. rewrite bool_decide_eq_false_2, Hcs by done. cbn [orb DPL_USER Z.eqb].
  eapply wp_ap_curproc; [done|]. clear Hap. intros h2 Hap. apply wp_proc_get with pr; [apply Hap|].
  eapply wp_ap_curproc; [done|]. clear Hap. intros h3 Hap. apply wp_proc_get with pr; [apply Hap|].
  rewrite (bind_done _ _ _ _ _ (hw_ok_cpuid _ _ _ (ap_hw _ _ _ _ _ _ _ Hap))).
  destruct (cprintf_output kill_fmt (fault_args tf c pr) _ c [] false (ap_hw _ _ _ _ _ _ _ Hap) (not_elem_of_nil _) Hc) as (out & h4 & x & Hf & Hx & E & Hh & Hid).
  { apply Forall_app. split; [apply text_bytes|by repeat constructor]. } { by repeat constructor. } { done. }
  rewrite (bind_done _ _ _ _ _ E). clear E.
  assert (at_proc (set_k_hw h4 (set_k_cons x s)) c [] false p pr qs) as Hap'.
  { destruct Hap as [_ A2 A3 A4]. split; try done. cbn in *. by rewrite (cur_hw_id _ _ Hid). }
  eapply wp_ap_curproc; [done|]. clear Hap Hap'. intros h5 Hap. apply wp_tail.
  eapply wp_ap_set; [done|done|done|done|done|]. intros t Hap' Ht. apply wp_ret. split; [by exists out|]. split_and!; [done|done|].
  exists h5, x, t. by destruct s.
Qed.

Lemma must_exit_killed tf s c p pr qs : at_proc s c [] false p pr qs -> killed pr = 1 -> Z.land (tf_cs tf) 3 = DPL_USER ->
  wp atomic (must_exit tf s) (fun e s' => e = true /\ exists h, s' = set_k_hw h s /\ at_proc s' c [] false p pr qs).
Proof.
  intros Hap Hk Hcs. unfold must_exit. eapply wp_ap_myproc; [done|]. clear Hap. intros h1 Hap.
  eapply wp_ap_curproc; [done|]. clear Hap. intros h2 Hap. apply wp_proc_get with pr; [apply Hap|]. rewrite Hk, Hcs. apply wp_ret.
  split; [done|]. by exists h2.
Qed.

(** C9: A trap of a user program that [trap] has no case for (a page fault, a divide
    error, a forbidden instruction): the message about it, with the pid, name,
    trap number, error code, processor and addresses, reaches the console, the
    process is marked killed and nothing else changes but the state of locks, and
    [trap] then calls [exit] in this state. *)
Theorem user_fault_kills tf s c p pr qs :
  at_proc s c [] false p pr qs -> state pr <> RUNNABLE -> 0 <= priority pr < Z.of_nat NPRIO ->
  cons_ok (k_cons s) -> Forall is_byte (p_name pr) -> Z.land (tf_cs tf) 3 = DPL_USER -> trapno tf ∉ handled ->
  exists s', faulted tf s c p pr qs s' /\
    trap tf s = (exit ;; quantum tf ;; e <- must_exit tf ;; whenm e exit) s'.
Proof.
  intros Hap Hst Hpri Hc Hnm Hcs Hno.
  destruct (proj1 (wp_atomic_done _ _) (dispatch_fault _ _ _ _ _ _ Hap Hst Hpri Hc Hnm Hcs Hno)) as ([] & s1 & E1 & Hf & Hap1 & Ht1 & h1 & x & t & Hs1).
  destruct (proj1 (wp_atomic_done _ _) (must_exit_killed _ _ _ _ _ _ Hap1 eq_refl Hcs)) as (e & s2 & E2 & -> & h & -> & Hap2).
  exists (set_k_hw h s1). split; [split_and!; [done|done|done|]; exists h, x, t; subst s1; by destruct s|]. unfold trap. apply not_elem_of_handled in Hno as (N0 & _).
  rewrite (proj2 (Z.eqb_neq _ _) N0), (bind_done _ _ _ _ _ E1), (bind_done _ _ _ _ _ E2). done.
Qed.
End fault.

End properties.

Lemma clock_tick_effect_witness :
  wp atomic (clock_tick (set_k_ticks 99 (set_k_hw (demo_hw [] false (Some 0%nat)) (demo_kernel [] (Some 0%nat)))))
    (fun _ s' => k_ticks s' = 100 /\ pt_data (k_pt s') = tick_data 100 (pt_data demo_ptable)).
Proof.
  eapply wp_mono; [apply (clock_tick_effect _ 0 (qs_of demo_queues))|].
  - apply (demo_hw_ok [] false), NoDup_nil_2.
  - apply demo_queues_ok.
  - intros [] s' (_ & Hn & _ & Hd). split; [exact Hn|exact Hd].
Defined.


Lemma user_fault_kills_witness :
  let _ : TrapOps := {| syscall := ret tt; exit := panic "zombie exit"; ideintr := ret tt; kbdintr := ret tt; uartintr := ret tt; lapiceoi := ret tt |} in
  let _ : Serial := true in
  let s := set_k_hw (demo_hw [] false (Some 0%nat)) (demo_kernel [] (Some 0%nat)) in
  trap (mkTf 0 14 6 0x1000 0x1b 0x80000000) s = Stop (Panic "zombie exit").
Proof.
  intros ops ser s.
  destruct (@user_fault_kills ops ser (mkTf 0 14 6 0x1000 0x1b 0x80000000) s 0 0 (demo_proc RUNNING 1 0 None None) (qs_of demo_queues)) as (s' & _ & E).
  - split; [apply (demo_hw_ok [] false), NoDup_nil_2|reflexivity|reflexivity|apply demo_queues_ok].
  - discriminate.
  - split; reflexivity || discriminate.
  - by split.
  - apply Forall_replicate. by split.
  - reflexivity.
  - apply (bool_decide_eq_true_1 (trapno _ ∉ handled)). reflexivity.
  - rewrite E. reflexivity.
Defined.
