(* ===== verification/Ulib.v ===== *)
(** * The user library ([libs/ulib.c], [libs/printf.c])

    User programs are modelled by the system calls they make ([uprog]) over
    strings given as lists of bytes without the terminating NUL.  The theorems
    show that [atoi] reads back what [printf] prints.  The functions that write
    to memory are over the memory of [Str]. *)
From S2P Require Import Prelude Str Console.

(** ** Programs that make system calls *)
(** A system call with its arguments. *)
Inductive ucall :=
  | URead (fd n : Z) | UWrite (fd : Z) (l : list Z) | UOpen (path : list Z) (mode : Z) | UClose (fd : Z)
  | UDup (fd : Z) | UPipe | UFork | UWait | UExec (path : list Z) (argv : list (list Z)) | UChdir (path : list Z)
  | UFstat (fd : Z) | ULink (old new : list Z) | UUnlink (path : list Z) | UMkdir (path : list Z)
  | UMknod (path : list Z) (major minor : Z) | UKill (pid : Z) | USleep (n : Z) | UGetpid | UUptime | USbrk (n : Z)
  (* calls with an address for a buffer, a string or the stack *)
  | UReadAt (fd p n : Z) | ULinkAt (old : list Z) (p : Z) | USleepAt (p : Z)
  (* the accesses to memory outside the program's own variables, to ports, and to the heap *)
  | UPeek (p : Z) | UPoke (p v : Z) | UPeek32 (p : Z) | UPoke32 (p v : Z) | UIn (port : Z) | UOut (port v : Z)
  | UMalloc (n : Z) | UFree (p : Z).

(** What the kernel returns: the result, the bytes read, the two ends of a pipe. *)
Record uresp := mkResp { r_val : Z; r_data : list Z; r_fds : Z * Z }.

Inductive uprog (A : Type) :=
  | URet (a : A)
  | UExit
  | UFuel
  | UCall (c : ucall) (k : uresp -> uprog A).
Arguments URet {_} _.
Arguments UExit {_}.
Arguments UFuel {_}.
Arguments UCall {_} _ _.

Fixpoint ubind {A B} (m : uprog A) (f : A -> uprog B) : uprog B :=
  match m with
  | URet a => f a
  | UExit => UExit
  | UFuel => UFuel
  | UCall c k => UCall c (fun r => ubind (k r) f)
  end.
Definition ucall_ (c : ucall) : uprog uresp := UCall c (fun r => URet r).

Declare Scope user_scope.
Notation "x <~ m ;; k" := (ubind m (fun x => k))
  (at level 100, m at next level, right associativity) : user_scope.
Notation "m ~;; k" := (ubind m (fun _ => k))
  (at level 100, k at level 200, right associativity) : user_scope.
#[local] Open Scope user_scope.

(** *** A session: the reads return given chunks, the writes are collected *)
Inductive uend (A : Type) := Returned (a : A) (rest : list (list Z)) | Exited | OutOfFuel.
Arguments Returned {_} _ _.
Arguments Exited {_}.
Arguments OutOfFuel {_}.

(** What the program writes and how it ends when its reads return the chunks
    [ins] in order and then the end of the file, writes accept all their bytes,
    and the other calls return 0. *)
Fixpoint session {A} (p : uprog A) (ins : list (list Z)) : list Z * uend A :=
  match p with
  | URet a => ([], Returned a ins)
  | UExit => ([], Exited)
  | UFuel => ([], OutOfFuel)
  | UCall (URead _ _) k =>
      match ins with
      | [] => session (k (mkResp 0 [] (0, 0))) []
      | l :: ins' => session (k (mkResp (Z.of_nat (length l)) l (0, 0))) ins'
      end
  | UCall (UWrite _ l) k =>
      let '(o, e) := session (k (mkResp (Z.of_nat (length l)) [] (0, 0))) ins in (l ++ o, e)
  | UCall _ k => session (k (mkResp 0 [] (0, 0))) ins
  end.

Lemma session_bind {A B} (m : uprog A) (f : A -> uprog B) : forall ins,
  session (ubind m f) ins =
    match session m ins with
    | (o, Returned a rest) => let '(o', e) := session (f a) rest in (o ++ o', e)
    | (o, Exited) => (o, Exited)
    | (o, OutOfFuel) => (o, OutOfFuel)
    end.
Proof.
  induction m as [a| | |c k IH]; intros ins; cbn [ubind session]; [by destruct (session (f a) ins)|done|done|].
  destruct c; try apply IH; [destruct ins; apply IH|]. rewrite IH.
  destruct (session (k _) ins) as [o [a rest| |]]; [|done|done]. destruct (session (f a) rest). by rewrite app_assoc.
Qed.

(** ** [ulib.c] *)
(** [strcmp]; bytes are compared as unsigned. *)
Fixpoint strcmp (p q : list Z) : Z :=
  match p, q with
  | a :: p', b :: q' => if a =? b then strcmp p' q' else a - b
  | a :: _, [] => a
  | [], b :: _ => - b
  | [], [] => 0
  end.

(** The index of the first [c] in the string; the NUL is not searched. *)
Fixpoint strchr (s : list Z) (c : Z) : option nat :=
  match s with
  | [] => None
  | b :: s' => if b =? c then Some O else S <$> strchr s' c
  end.

(** [atoi] over [int]: digits up to the first other character. *)
Definition is_digit (c : Z) : bool := (48 <=? c) && (c <=? 57).
Fixpoint atoi_loop (n : Z) (s : list Z) : Z :=
  match s with
  | c :: s' => if is_digit c then atoi_loop (i32 (n * 10 + c - 48)) s' else n
  | [] => n
  end.
Definition atoi (s : list Z) : Z := atoi_loop 0 s.

(** [gets]: the loop [for(i=0; i+1 < max; )]. *)
Fixpoint gets_loop (n : nat) : uprog (list Z) :=
  match n with
  | O => URet []
  | S n' =>
      r <~ ucall_ (URead 0 1) ;;
      if r_val r <? 1 then URet [] else
      match r_data r with
      | [] => URet []
      | c :: _ =>
          if (c =? 10) || (c =? 13) then URet [c]
          else l <~ gets_loop n' ;; URet (c :: l)
      end
  end.
Definition gets (max : Z) : uprog (list Z) := gets_loop (Z.to_nat (max - 1)).

Definition ustat (path : list Z) : uprog (option uresp) :=
  r <~ ucall_ (UOpen path 0) ;;
  if r_val r <? 0 then URet None else
  let fd := r_val r in
  st <~ ucall_ (UFstat fd) ;;
  ucall_ (UClose fd) ~;;
  URet (if r_val st <? 0 then None else Some st).

(** ** [printf.c] *)
Definition putc (fd c : Z) : uprog unit := ucall_ (UWrite fd [u8 c]) ~;; URet tt.
Fixpoint puts (fd : Z) (l : list Z) : uprog unit :=
  match l with
  | [] => URet tt
  | c :: l' => putc fd c ~;; puts fd l'
  end.

Lemma session_puts fd l ins : Forall (fun c => 0 <= c < 256) l -> session (puts fd l) ins = (l, Returned tt ins).
Proof.
  induction l as [|c l IH]; intros Hl; [done|]. apply Forall_cons in Hl as [Hc Hl]. cbn [puts]. rewrite session_bind. cbn.
  rewrite (IH Hl). cbn. unfold u8. by rewrite Z.mod_small.
Qed.

(** The user library prints digits above 9 in upper case. *)
Definition udigit (v : Z) : Z := if v <? 10 then 48 + v else 65 + (v - 10).
Fixpoint udigits (n : nat) (x base : Z) : list Z :=
  match n with
  | O => []
  | S n' => udigit (x mod base) :: (if x / base =? 0 then [] else udigits n' (x / base) base)
  end.
Definition int_chars (xx base : Z) (sgn : bool) : list Z :=
  let neg := sgn && (xx <? 0) in
  let x := if neg then u32 (- xx) else u32 xx in
  reverse (udigits 32 x base ++ (if neg then [45] else [])).
Definition uprintint (fd xx base : Z) (sgn : bool) : uprog unit := puts fd (int_chars xx base sgn).

(** One character of the format in state [pct] ([%] seen or not): the new
    state and the remaining arguments.  A missing argument ends the program. *)
Definition print_char (fd : Z) (pct : bool) (c : Z) (args : list arg) : uprog (bool * list arg) :=
  if negb pct then
    if c =? 37 then URet (true, args) else putc fd c ~;; URet (false, args)
  else if c =? 100 then
    match args with AInt v :: a => uprintint fd (i32 v) 10 true ~;; URet (false, a) | _ => UExit end
  else if (c =? 120) || (c =? 112) then
    match args with AInt v :: a => uprintint fd (i32 v) 16 false ~;; URet (false, a) | _ => UExit end
  else if c =? 115 then
    match args with
    | AStr o :: a => puts fd (cstr (default (bytes "(null)") o)) ~;; URet (false, a)
    | _ => UExit
    end
  else if c =? 99 then
    match args with AInt v :: a => putc fd v ~;; URet (false, a) | _ => UExit end
  else if c =? 37 then putc fd c ~;; URet (false, args)
  else putc fd 37 ~;; putc fd c ~;; URet (false, args).
Fixpoint printf_loop (fd : Z) (pct : bool) (fmt : list Z) (args : list arg) : uprog unit :=
  match fmt with
  | [] => URet tt
  | c :: fmt' =>
      r <~ print_char fd pct c args ;;
      printf_loop fd r.1 fmt' r.2
  end.
Definition printf (fd : Z) (fmt : list Z) (args : list arg) : uprog unit := printf_loop fd false (cstr fmt) args.

(** ** [atoi] reads back what [printf] prints *)
Section numbers.
Implicit Types (x d acc : Z) (ds rest : list Z).

Lemma udigits_decimal (n : nat) : forall x, 0 <= x -> udigits n x 10 = digits n x 10.
Proof.
  induction n as [|n IH]; intros x Hx; cbn; [done|]. pose proof (Z.mod_pos_bound x 10 ltac:(lia)).
  unfold udigit, digit. rewrite (proj2 (Z.ltb_lt _ _)) by lia. by rewrite IH by (apply Z.div_pos; lia).
Qed.

Lemma value_snoc ds d : value 10 (ds ++ [d]) = value 10 ds + 10 ^ Z.of_nat (length ds) * d.
Proof.
  induction ds as [|v ds IH]; cbn [value foldr app]; [cbn; lia|]. fold (value 10 (ds ++ [d])). fold (value 10 ds). rewrite IH.
  cbn [length]. rewrite Nat2Z.inj_succ, Z.pow_succ_r by lia. lia.
Qed.

Lemma value_nonneg ds : Forall (fun d => 0 <= d < 10) ds -> 0 <= value 10 ds.
Proof. induction 1 as [|v ds Hv _ IH]; cbn; [lia|]. fold (value 10 ds). lia. Qed.

(** Digits read after [acc], most significant first. *)
Lemma atoi_digits ds rest : Forall (fun d => 0 <= d < 10) ds -> is_digit (default 0 (head rest)) = false -> forall acc,
  0 <= acc -> acc * 10 ^ Z.of_nat (length ds) + value 10 ds < 2 ^ 31 ->
  atoi_loop acc (reverse (digit <$> ds) ++ rest) = acc * 10 ^ Z.of_nat (length ds) + value 10 ds.
Proof.
  intros Hds Hrest. induction ds as [|d ds IH] using rev_ind; intros acc Ha Hb.
  { destruct rest as [|c rest]; cbn in *; [lia|]. rewrite Hrest. lia. }
  apply Forall_app in Hds as [Hds Hd]. apply Forall_cons in Hd as [Hd _]. specialize (IH Hds). pose proof (value_nonneg ds Hds).
  rewrite value_snoc, length_app in *. cbn [length] in *. rewrite Nat2Z.inj_add, Z.pow_add_r in * by lia.
  change (10 ^ Z.of_nat 1) with 10 in *. set (q := 10 ^ Z.of_nat (length ds)) in *.
  assert (0 < q) by (apply Z.pow_pos_nonneg; lia).
  rewrite fmap_app, reverse_app. cbn [fmap list_fmap reverse rev_append app atoi_loop].
  assert (digit d = 48 + d) as -> by (unfold digit; by rewrite (proj2 (Z.ltb_lt d 10)) by lia).
  replace (is_digit (48 + d)) with true by (unfold is_digit; symmetry; apply andb_true_intro; split; apply Z.leb_le; lia).
  assert ((acc * 10 + d) * q + value 10 ds < 2 ^ 31) as Hb' by lia.
  replace (acc * 10 + (48 + d) - 48) with (acc * 10 + d) by lia. rewrite i32_small by nia. rewrite IH by lia. lia.
Qed.

(** the text [printf] makes of a non-negative [int] for [%d], followed by
    anything that is not a digit, is read back by [atoi] as the same number. *)
Theorem atoi_printint x rest :
  0 <= x < 2 ^ 31 -> is_digit (default 0 (head rest)) = false -> atoi (int_chars x 10 true ++ rest) = x.
Proof.
  intros Hx Hrest. unfold int_chars. rewrite (proj2 (Z.ltb_ge x 0)) by lia. cbn [andb]. rewrite app_nil_r, u32_small by lia.
  rewrite udigits_decimal by lia. destruct (digits_spec 10 32 ltac:(lia) x) as (ds & -> & Hv & _ & Hds & _).
  { split; [lia|]. eapply Z.lt_le_trans; [apply Hx|]. by vm_compute. } { lia. }
  unfold atoi. rewrite atoi_digits; [by rewrite Hv|done|done|lia|]. rewrite Hv. lia.
Qed.

End numbers.

Lemma atoi_printint_witness : atoi (int_chars 2147483647 10 true ++ bytes " processes") = 2147483647.
Proof. apply (atoi_printint 2147483647 (bytes " processes")); [lia|reflexivity]. Defined.

(** ** [ulib.c]: the functions that write to memory *)
Section memory.
Implicit Types (m : gmap Z Z) (n : nat).

(** [strcpy] and [strlen], with a bound on the number of bytes. *)
Fixpoint ustrcpy (fuel : nat) (s t : Z) m : option (gmap Z Z) :=
  match fuel with
  | O => None
  | S fuel' =>
      let c := load8 m t in
      let m := store8 s c m in
      if c =? 0 then Some m else ustrcpy fuel' (s + 1) (t + 1) m
  end.
Fixpoint ustrlen_loop (fuel : nat) (s n : Z) m : option Z :=
  match fuel with
  | O => None
  | S fuel' => if load8 m (s + n) =? 0 then Some n else ustrlen_loop fuel' s (n + 1) m
  end.
Definition ustrlen (fuel : nat) (s : Z) m : option Z := ustrlen_loop fuel s 0 m.
Definition umemset (dst c : Z) n m : gmap Z Z := stosb dst c n m.
(** [while(n-- > 0) *dst++ = *src++;] *)
Fixpoint umemmove (dst src : Z) n m : gmap Z Z :=
  match n with
  | O => m
  | S n' => umemmove (dst + 1) (src + 1) n' (store8 dst (load8 m src) m)
  end.

(** A string of [k] bytes, none of them NUL, with the NUL. *)
Definition cstring_at m (t : Z) (k : nat) : Prop :=
  load8 m (t + Z.of_nat k) = 0 /\ forall i, 0 <= i < Z.of_nat k -> load8 m (t + i) <> 0.

Lemma ustrlen_loop_ok m s k j : cstring_at m s k -> (j <= k)%nat -> forall fuel, (k - j < fuel)%nat -> ustrlen_loop fuel s (Z.of_nat j) m = Some (Z.of_nat k).
Proof.
  intros [H0 Hn] Hj fuel. revert j Hj. induction fuel as [|fuel IH]; intros j Hj Hf; [lia|]. cbn [ustrlen_loop].
  destruct (decide (j = k)) as [->|]; [by rewrite H0|]. rewrite (proj2 (Z.eqb_neq _ 0)) by (apply Hn; lia).
  replace (Z.of_nat j + 1) with (Z.of_nat (S j)) by lia. apply IH; lia.
Qed.
(** [strlen] is the number of bytes before the NUL. *)
Lemma ustrlen_ok m s k fuel : cstring_at m s k -> (k < fuel)%nat -> ustrlen fuel s m = Some (Z.of_nat k).
Proof. intros Hs Hf. apply (ustrlen_loop_ok m s k 0); [done|lia|lia]. Qed.

(** [strcpy] of a string whose bytes lie apart from the destination copies it
    with its NUL and writes nothing else. *)
Lemma ustrcpy_ok k : forall s t m fuel, mem_ok m -> cstring_at m t k -> s + Z.of_nat k < t \/ t + Z.of_nat k < s -> (k < fuel)%nat ->
  exists m', ustrcpy fuel s t m = Some m' /\
    forall a, load8 m' a = if decide (s <= a <= s + Z.of_nat k) then load8 m (t + (a - s)) else load8 m a.
Proof.
  induction k as [|k IH]; intros s t m fuel Hm [H0 Hn] Hd Hf; (destruct fuel as [|fuel]; [lia|]); cbn [ustrcpy].
  - rewrite Z.add_0_r in H0. rewrite H0. eexists. split; [done|]. intros a. rewrite load8_store8. repeat case_decide; try lia; try done.
    subst a. replace (t + (s - s)) with t by lia. by rewrite H0.
  - rewrite (proj2 (Z.eqb_neq (load8 m t) 0)) by (specialize (Hn 0); rewrite Z.add_0_r in Hn; apply Hn; lia).
    destruct (IH (s + 1) (t + 1) (store8 s (load8 m t) m) fuel) as (m' & E & Hm'); [by apply store8_mem_ok| |lia|lia|].
    + split.
      * rewrite load8_store8, decide_False by lia. rewrite <- H0. f_equal. lia.
      * intros i Hi. rewrite load8_store8, decide_False by lia. replace (t + 1 + i) with (t + (i + 1)) by lia. apply Hn. lia.
    + exists m'. split; [done|]. intros a. rewrite Hm', !load8_store8. rewrite u8_small by (by apply load8_range).
      repeat case_decide; try lia; try done; f_equal; lia.
Qed.

(** [memmove] copies when the destination does not begin inside the source. *)
Lemma umemmove_ok n : forall dst src m a, mem_ok m -> dst <= src \/ src + Z.of_nat n <= dst ->
  load8 (umemmove dst src n m) a = if decide (dst <= a < dst + Z.of_nat n) then load8 m (src + (a - dst)) else load8 m a.
Proof.
  induction n as [|n IH]; intros d s m a Hm Hd; cbn [umemmove]; [by rewrite decide_False by lia|].
  rewrite IH by (auto using store8_mem_ok || lia). rewrite !load8_store8. rewrite u8_small by (by apply load8_range).
  repeat case_decide; try lia; try done; f_equal; lia.
Qed.
(** If it begins inside, the first bytes are repeated: [memmove] of the user
    library is the forward copy of [memcpy], unlike that of the kernel. *)
Theorem umemmove_overlap (src : Z) m : 0 <= load8 m src < 256 -> load8 (umemmove (src + 1) src 2 m) (src + 2) = load8 m src.
Proof.
  intros Hb. cbn [umemmove]. rewrite !load8_store8. rewrite !decide_True by lia. by rewrite !(u8_small (load8 m src)) by done.
Qed.
End memory.
