(* ===== verification/Umalloc.v ===== *)
(** * The user memory allocator ([libs/umalloc.c])

    The Kernighan and Ritchie allocator.  Blocks are measured in units of
    [sizeof(Header)] = 8 bytes and addressed by unit; [hdr] gives the header at
    a unit address: the next free block and the size in units.  The free list
    is circular, in address order except at its wrap, and starts anywhere
    ([freep]).  The number of units of a request, the product in the argument of
    [sbrk] and its conversion to [int] are computed in 32 bits; sums of sizes of
    blocks of the heap, which add up to less than memory, are not reduced. *)
From stdpp Require Import sorting.
From S2P Require Import Prelude.

Record header := mkHeader { h_ptr : Z; h_size : Z }.

(** The heap: the headers in memory, the pointer [freep] (0 is null), and the
    end of the data segment, all in units. *)
Record heap := mkHeap { hdr : gmap Z header; freep : Z; brk : Z }.
Definition set_hdr a h (s : heap) : heap := mkHeap (<[a := h]> (hdr s)) (freep s) (brk s).
Definition set_freep p (s : heap) : heap := mkHeap (hdr s) p (brk s).

(** What the allocator uses: the address of the static [base], and the system
    call [sbrk]: from the end of the data segment and an [int] of bytes, the new
    end ([None] for -1).  [sys_sbrk] and [growproc] move the end by exactly the
    bytes asked for when these are not negative; nothing is promised otherwise
    (the kernel shrinks the segment, or leaves it as it is). *)
Class Arena := {
  base : Z;
  sbrk : Z -> Z -> option Z;
  sbrk_grows e n e' : 0 <= n -> sbrk e n = Some e' -> e' = e + n / 8 }.

Section code.
Context `{Arena}.

(** Assignments to [p->s.ptr] and [p->s.size]. *)
Definition set_ptr (p v : Z) (s : heap) : option heap := h ← hdr s !! p; Some (set_hdr p (mkHeader v (h_size h)) s).
Definition set_size (p v : Z) (s : heap) : option heap := h ← hdr s !! p; Some (set_hdr p (mkHeader (h_ptr h) v) s).

(** The search of [free] for the place of block [bp], from [p]. *)
Fixpoint find_place (n : nat) (bp p : Z) (s : heap) : option Z :=
  h ← hdr s !! p;
  if (p <? bp) && (bp <? h_ptr h) then Some p
  else if (h_ptr h <=? p) && ((p <? bp) || (bp <? h_ptr h)) then Some p
  else match n with O => None | S n' => find_place n' bp (h_ptr h) s end.

(** [free] of the block whose header is at [bp]; the list has at most [n] blocks. *)
Definition ufree (n : nat) (bp : Z) (s : heap) : option heap :=
  p ← find_place n bp (freep s) s;
  hp ← hdr s !! p;
  hb ← hdr s !! bp;
  s ← (if bp + h_size hb =? h_ptr hp then
         hn ← hdr s !! h_ptr hp;
         s ← set_size bp (h_size hb + h_size hn) s;
         set_ptr bp (h_ptr hn) s
       else set_ptr bp (h_ptr hp) s);
  hp ← hdr s !! p;
  hb ← hdr s !! bp;
  s ← (if p + h_size hp =? bp then
         s ← set_size p (h_size hp + h_size hb) s;
         set_ptr p (h_ptr hb) s
       else set_ptr p bp s);
  Some (set_freep p s).

(** [sbrk] of [nu] units, a [uint] product passed as an [int]: the old end of
    the segment becomes a block of [nu] units. *)
Definition morecore (n : nat) (nu : Z) (s : heap) : option (Z * heap) :=
  let nu := if nu <? 4096 then 4096 else nu in
  match sbrk (brk s) (i32 (u32 (nu * 8))) with
  | None => Some (0, s)
  | Some e =>
      let hp := brk s in
      let s := mkHeap (hdr s) (freep s) e in
      let s := set_hdr hp (mkHeader 0 nu) s in
      s ← ufree n hp s;
      Some (freep s, s)
  end.

(** The loop of [malloc]: the block found (0 when there is no memory). *)
Definition take_block (nunits prevp p : Z) (h : header) (s : heap) : option (Z * heap) :=
  '(r, s) ← (if h_size h =? nunits then
               s ← set_ptr prevp (h_ptr h) s; Some (p, s)
             else
               s ← set_size p (h_size h - nunits) s;
               let p' := p + (h_size h - nunits) in
               Some (p', set_hdr p' (mkHeader (default 0 (h_ptr <$> hdr s !! p')) nunits) s));
  Some (r, set_freep prevp s).
Fixpoint malloc_loop (k n : nat) (nunits prevp p : Z) (s : heap) : option (Z * heap) :=
  h ← hdr s !! p;
  if nunits <=? h_size h then take_block nunits prevp p h s
  else
    '(q, s) ← (if p =? freep s then morecore n nunits s else Some (p, s));
    if q =? 0 then Some (0, s) else
    match k with
    | O => None
    | S k' => h ← hdr s !! q; malloc_loop k' n nunits q (h_ptr h) s
    end.

(** [malloc] of [nbytes]: the unit address of the header of the block. *)
Definition malloc (n : nat) (nbytes : Z) (s : heap) : option (Z * heap) :=
  let nunits := u32 (nbytes + 8 - 1) / 8 + 1 in
  let s := if freep s =? 0 then set_freep base (set_hdr base (mkHeader base 0) s) else s in
  h ← hdr s !! freep s;
  malloc_loop (n + n) n nunits (freep s) (h_ptr h) s.

End code.

(** The number of units is computed in 32 bits: a request of 2^32 - 1 bytes, or
    of any size that close to the top, is treated as a request of no bytes and
    is granted a block without data. *)
Theorem malloc_overflow `{Arena} n nbytes s : 2 ^ 32 - 7 <= nbytes < 2 ^ 32 -> malloc n nbytes s = malloc n 0 s.
Proof.
  intros Hn. unfold malloc. assert (u32 (nbytes + 8 - 1) = nbytes + 7 - 2 ^ 32) as ->.
  { unfold u32. symmetry. apply (Z.mod_unique _ _ 1); lia. }
  rewrite Z.div_small by lia. reflexivity.
Qed.

(** ** The free list

    A list of blocks (address and size, in units), each pointing to the next
    and the last to [e]; a ring points back to its first block. *)
Section ring.
Implicit Types (s : heap) (F U V : list (Z * Z)) (a p e z : Z).

Definition head_addr F e : Z := match F with [] => e | b :: _ => b.1 end.
Fixpoint lseg F e s : Prop :=
  match F with
  | [] => True
  | b :: F' => hdr s !! b.1 = Some (mkHeader (head_addr F' e) b.2) /\ lseg F' e s
  end.
Definition ring F s : Prop := lseg F (head_addr F 0) s.

Lemma head_addr_app U V e : head_addr (U ++ V) e = head_addr U (head_addr V e).
Proof. by destruct U. Qed.

Lemma lseg_app U V e s : lseg (U ++ V) e s <-> lseg U (head_addr V e) s /\ lseg V e s.
Proof.
  induction U as [|b U IH]; cbn; [tauto|]. rewrite IH, head_addr_app. tauto.
Qed.

(** A ring may be read from any of its blocks. *)
Lemma ring_rot U V s : ring (U ++ V) s <-> ring (V ++ U) s.
Proof.
  unfold ring. rewrite !lseg_app, !head_addr_app. destruct U as [|u U], V as [|v V]; cbn [head_addr lseg]; tauto.
Qed.

Lemma ring_cons p z U s : ring ((p, z) :: U) s <-> hdr s !! p = Some (mkHeader (head_addr U p) z) /\ lseg U p s.
Proof. done. Qed.
Lemma ring_snoc p z U s : ring (U ++ [(p, z)]) s <-> hdr s !! p = Some (mkHeader (head_addr U p) z) /\ lseg U p s.
Proof. rewrite ring_rot. apply ring_cons. Qed.

Lemma set_hdr_eq p h s : hdr (set_hdr p h s) !! p = Some h.
Proof. apply lookup_insert_eq. Qed.
Lemma set_hdr_ne p q h s : p <> q -> hdr (set_hdr p h s) !! q = hdr s !! q.
Proof. apply lookup_insert_ne. Qed.

(** Headers outside the list do not matter to it. *)
Lemma lseg_frame F e s s' : lseg F e s -> (forall a, a ∈ F.*1 -> hdr s' !! a = hdr s !! a) -> lseg F e s'.
Proof.
  induction F as [|b F IH]; cbn; [done|]. intros [Hb HF] E. split; [rewrite E; [done|left]|].
  apply IH; [done|]. intros a Ha. apply E. by right.
Qed.
Lemma lseg_set F e p h s : lseg F e s -> p ∉ F.*1 -> lseg F e (set_hdr p h s).
Proof. intros HF Hp. eapply lseg_frame; [done|]. intros a Ha. apply set_hdr_ne. by intros ->. Qed.
Lemma lseg_freep F e p s : lseg F e (set_freep p s) <-> lseg F e s.
Proof. split; intros HF; by eapply lseg_frame. Qed.
Lemma lseg_hdr F e s p z U V : lseg F e s -> F = U ++ (p, z) :: V -> hdr s !! p = Some (mkHeader (head_addr V e) z).
Proof. intros HF ->. apply lseg_app in HF as [_ [H _]]. exact H. Qed.
End ring.

(** ** The invariant

    [F] is the free list in address order from [base], [A] gives the size of
    every block handed out.  All blocks are apart and inside the segment, and no
    two free blocks touch. *)
Section invariant.
Context `{Arena}.
Implicit Types (s : heap) (F L R U V : list (Z * Z)) (A : gmap Z Z) (a b p q z w : Z) (x y : Z * Z).

Definition before x y : Prop := x.1 + x.2 < y.1.
Definition apart x y : Prop := x.1 + x.2 <= y.1 \/ y.1 + y.2 <= x.1.

Record layout F A (hi : Z) : Prop := {
  lo_base : 0 < base < hi /\ exists F', F = (base, 0) :: F' /\ Forall (fun x => 0 < x.2) F';
  lo_sorted : StronglySorted before F;
  lo_hi : forall x, x ∈ F -> x.1 + x.2 <= hi;
  lo_used : forall a w, A !! a = Some w -> base < a /\ 0 < w /\ a + w <= hi;
  lo_apart : forall a w x, A !! a = Some w -> x ∈ F -> apart x (a, w);
  lo_disj : forall a w a' w', A !! a = Some w -> A !! a' = Some w' -> a <> a' -> apart (a, w) (a', w') }.
Record heap_ok F A s : Prop := {
  ho_layout : layout F A (brk s);
  ho_ring : ring F s;
  ho_freep : freep s ∈ F.*1;
  ho_used : forall a w, A !! a = Some w -> exists h, hdr s !! a = Some h /\ h_size h = w }.

(** A free block among the others. *)
Lemma sorted_mid L x R : StronglySorted before (L ++ x :: R) <->
  StronglySorted before L /\ StronglySorted before R /\ (forall y, y ∈ L -> before y x) /\ (forall y, y ∈ R -> before x y) /\
  (forall y y', y ∈ L -> y' ∈ R -> before y y').
Proof.
  rewrite StronglySorted_app, StronglySorted_cons, Forall_forall. split.
  - intros (H1 & H2 & H3 & H4). split_and!; set_solver.
  - intros (H1 & H2 & H3 & H4 & H5). split_and!; [|done|done|done]. intros y y' Hy [->|Hy']%elem_of_cons; auto.
Qed.

Lemma place_exists F b : forall x, StronglySorted before (x :: F) -> Forall (fun y => 0 < y.2) F -> x.1 < b -> b ∉ F.*1 ->
  exists L y R, x :: F = L ++ y :: R /\ y.1 < b /\ forall y', y' ∈ R -> b < y'.1.
Proof.
  induction F as [|y F IH]; intros x HS Hpos Hx Hb.
  - exists [], x, []. split_and!; [done|done|set_solver].
  - apply StronglySorted_cons in HS as [Hall HS]. apply Forall_cons in Hpos as [Hpy Hpos].
    rewrite fmap_cons in Hb. apply not_elem_of_cons in Hb as [Hy Hb].
    destruct (Z.lt_ge_cases y.1 b) as [Hlt|Hge].
    + destruct (IH y HS Hpos Hlt Hb) as (L & y' & R & E & Hy' & HR). exists (x :: L), y', R. by rewrite E.
    + exists [], x, (y :: F). split_and!; [done|done|]. apply StronglySorted_cons in HS as [Hally _]. rewrite Forall_forall in Hally.
      intros y' [->|Hy']%elem_of_cons; [lia|]. specialize (Hally y' Hy'). unfold before in Hally. lia.
Qed.

Lemma layout_nonneg F A hi x : layout F A hi -> x ∈ F -> 0 <= x.2 /\ base <= x.1 /\ (x.1 = base -> x = (base, 0)).
Proof.
  intros [[Hb (F' & -> & Hpos)] HS _ _ _ _] [->|Hx]%elem_of_cons; [cbn; split_and!; [lia|lia|done]|].
  rewrite Forall_forall in Hpos. specialize (Hpos x Hx). apply StronglySorted_cons in HS as [Hall _]. rewrite Forall_forall in Hall.
  specialize (Hall x Hx). unfold before in Hall. cbn in *. split_and!; lia.
Qed.

(** The place of a block that is in use. *)
Lemma layout_place F A hi b w : layout F A hi -> A !! b = Some w -> exists L p z R, F = L ++ (p, z) :: R /\
  p < b /\ p + z <= b /\ (forall y, y ∈ R -> b + w <= y.1) /\ (forall y, y ∈ L -> before y (p, z)) /\ (forall y, y ∈ R -> before (p, z) y).
Proof.
  intros HL Hb. destruct (lo_used _ _ _ HL b w Hb) as (Hb0 & Hw & _). pose proof (lo_base _ _ _ HL) as [_ (F' & EF & Hpos)].
  pose proof (lo_apart _ _ _ HL b w) as Hap. pose proof (lo_sorted _ _ _ HL) as HS. rewrite EF in HS.
  assert (b ∉ F'.*1) as Hn.
  { intros (x & Ex & Hx)%list_elem_of_fmap. specialize (Hap x Hb ltac:(rewrite EF; by right)). unfold apart in Hap. cbn in Hap.
    rewrite Forall_forall in Hpos. specialize (Hpos x Hx). lia. }
  destruct (place_exists F' b (base, 0) HS Hpos Hb0 Hn) as (L & [p z] & R & E & Hp & HR). exists L, p, z, R. cbn in Hp.
  rewrite EF, E. rewrite E in HS. apply sorted_mid in HS as (_ & _ & H1 & H2 & _). rewrite EF, E in Hap. unfold apart in Hap. cbn in Hap.
  split_and!; try done.
  - destruct (Hap (p, z) Hb ltac:(set_solver)); cbn in *; lia.
  - intros y Hy. specialize (HR y Hy). destruct (Hap y Hb ltac:(set_solver)) as [Hc|Hc]; [|done].
    assert (0 <= y.2) by (eapply (layout_nonneg F A); [done|rewrite EF, E; set_solver]). lia.
Qed.
(** ** [free] *)
Section find_place.
Context (F L R : list (Z * Z)) (p z b : Z) (s : heap).
Hypotheses (EF : F = L ++ (p, z) :: R) (HF : lseg F base s) (HS : StronglySorted before F)
  (Hpos : forall x, x ∈ F -> 0 <= x.2 /\ base <= x.1) (Hp : base <= p < b) (HR : forall y, y ∈ R -> b < y.1).

Lemma find_here (n : nat) : find_place n b p s = Some p.
Proof.
  rewrite EF in HF. apply lseg_app in HF as [_ [Hh _]]. cbn in Hh. destruct n; cbn; rewrite Hh; cbn.
  all: destruct R as [|y R']; cbn.
  all: try (pose proof (HR y ltac:(left)); rewrite (proj2 (Z.ltb_lt p b)), (proj2 (Z.ltb_lt b y.1)) by lia; done).
  all: rewrite (proj2 (Z.ltb_ge b base)), andb_false_r, (proj2 (Z.leb_le base p)), (proj2 (Z.ltb_lt p b)) by lia; done.
Qed.

Lemma find_left L2 : forall (n : nat) L1, L = L1 ++ L2 -> (length L2 <= n)%nat -> find_place n b (head_addr L2 p) s = Some p.
Proof.
  induction L2 as [|y L2 IH]; intros n L1 EL Hn; [apply find_here|]. destruct n as [|n]; [cbn in Hn; lia|].
  assert (F = L1 ++ y :: L2 ++ (p, z) :: R) as E by (rewrite EF, EL, <- app_assoc; done).
  pose proof HF as HF'. rewrite E in HF'. apply lseg_app in HF' as [_ [Hh _]]. cbn [head_addr find_place]. rewrite Hh. cbn [h_ptr mbind option_bind].
  pose proof HS as HS'. rewrite E in HS'. apply sorted_mid in HS' as (_ & H2 & _ & Hy & _). pose proof (Hpos y ltac:(rewrite E; set_solver)) as Hyp.
  assert (y.1 < head_addr (L2 ++ (p, z) :: R) base <= p) as Hn1.
  { split.
    - destruct L2 as [|y2 L2]; [specialize (Hy (p, z) ltac:(cbn; set_solver))|specialize (Hy y2 ltac:(cbn; set_solver))]; unfold before in Hy; cbn in *; lia.
    - destruct L2 as [|y2 L2]; [done|]. cbn. apply sorted_mid in H2 as (_ & _ & H3 & _). specialize (H3 y2 ltac:(set_solver)). unfold before in H3.
      pose proof (Hpos y2 ltac:(rewrite E; set_solver)). cbn in *. lia. }
  rewrite (proj2 (Z.ltb_ge b _)), andb_false_r, (proj2 (Z.leb_gt _ y.1)) by lia. cbn.
  rewrite head_addr_app. apply (IH n (L1 ++ [y])); [by rewrite <- app_assoc|cbn in Hn; lia].
Qed.

Lemma find_right R2 : forall (n : nat) R1, R = R1 ++ R2 -> (length R2 + length L <= n)%nat ->
  head_addr L p = base -> find_place n b (head_addr R2 base) s = Some p.
Proof.
  induction R2 as [|y R2 IH]; intros n R1 ER Hn Eb; cbn [head_addr length] in *.
  - rewrite <- Eb. apply (find_left L n []); [done|lia].
  - destruct n as [|n]; [lia|].
    assert (F = (L ++ (p, z) :: R1) ++ y :: R2) as E by (rewrite EF, ER, <- app_assoc; done).
    pose proof HF as HF'. rewrite E in HF'. apply lseg_app in HF' as [_ [Hh _]]. cbn [find_place]. rewrite Hh. cbn [h_ptr mbind option_bind].
    pose proof (HR y ltac:(rewrite ER; set_solver)). pose proof HS as HS'. rewrite E in HS'. apply sorted_mid in HS' as (_ & _ & _ & Hy & _).
    pose proof (Hpos y ltac:(rewrite E; set_solver)).
    rewrite (proj2 (Z.ltb_ge y.1 b)) by lia. cbn [andb orb].
    assert ((head_addr R2 base <=? y.1) && (b <? head_addr R2 base) = false) as ->.
    { destruct R2 as [|y2 R2]; cbn; [rewrite (proj2 (Z.ltb_ge b base)) by lia; apply andb_false_r|].
      specialize (Hy y2 ltac:(left)). unfold before in Hy. rewrite (proj2 (Z.leb_gt y2.1 y.1)) by lia. done. }
    apply (IH n (R1 ++ [y])); [by rewrite <- app_assoc|lia|done].
Qed.

Lemma find_place_from (n : nat) q : q ∈ F.*1 -> head_addr F 0 = base -> (length F <= n)%nat -> find_place n b q s = Some p.
Proof.
  intros (x & -> & Hx)%list_elem_of_fmap Eb Hn. rewrite EF in Hx, Hn, Eb. rewrite length_app in Hn. cbn in Hn. rewrite head_addr_app in Eb. cbn in Eb.
  apply elem_of_app in Hx as [Hx|[->|Hx]%elem_of_cons].
  - apply list_elem_of_split in Hx as (L1 & L2 & EL). apply (find_left (x :: L2) n L1); [done|]. rewrite EL in Hn. rewrite length_app in Hn. cbn in *. lia.
  - apply find_here.
  - apply list_elem_of_split in Hx as (R1 & R2 & ER). apply (find_right (x :: R2) n R1); [done| |done].
    rewrite ER, length_app in Hn. cbn in *. lia.
Qed.
End find_place.

(** The list after [free]: block [(b, w)] joined with the block behind it, then
    with the block before it. *)
Definition join_next b w R : Z * list (Z * Z) :=
  match R with
  | (c, v) :: R' => if b + w =? c then (w + v, R') else (w, R)
  | [] => (w, [])
  end.
Definition join_prev p z b w R : list (Z * Z) := if p + z =? b then (p, z + w) :: R else (p, z) :: (b, w) :: R.
Definition units F : Z := foldr (fun x n => x.2 + n) 0 F.
Lemma units_app U V : units (U ++ V) = units U + units V.
Proof. unfold units. induction U as [|u U IH]; cbn [app foldr]; lia. Qed.

Lemma layout_not_free F A hi b w : layout F A hi -> A !! b = Some w -> b ∉ F.*1.
Proof.
  intros HL Hb (x & Ex & Hx)%list_elem_of_fmap. destruct (lo_used _ _ _ HL b w Hb) as (? & ? & _).
  destruct (layout_nonneg F A hi x HL Hx) as (? & ? & E). pose proof (lo_apart _ _ _ HL b w x Hb Hx) as Hap. unfold apart in Hap. cbn in Hap.
  destruct (lo_base _ _ _ HL) as [_ (F' & -> & Hpos)]. apply elem_of_cons in Hx as [->|Hx]; [cbn in *; lia|].
  rewrite Forall_forall in Hpos. specialize (Hpos x Hx). lia.
Qed.

(** What the joined block [(b, w1)] and the blocks [R1] behind it keep. *)
Record joined L p z R1 A b w w1 (hi : Z) : Prop := {
  jo_block : 0 < w <= w1 /\ b + w1 <= hi;
  jo_left : p < b /\ p + z <= b /\ (forall y, y ∈ L -> before y (p, z));
  jo_right : forall y, y ∈ R1 -> b + w1 < y.1;
  jo_sorted : StronglySorted before R1 /\ StronglySorted before L;
  jo_rest : layout (L ++ (p, z) :: R1) A hi;
  jo_apart : forall a v, A !! a = Some v -> a <> b -> apart (b, w1) (a, v) }.

(** Any part of the free list that keeps its first block. *)
Lemma layout_drop L y R A hi : L <> [] -> layout (L ++ y :: R) A hi -> layout (L ++ R) A hi.
Proof.
  intros HL [[Hb (F' & EF & Hpos)] HS Hhi Hu Hap Hd]. apply sorted_mid in HS as (S1 & S2 & S3 & S4 & S5).
  destruct L as [|l L]; [done|]. injection EF as -> <-. apply Forall_app in Hpos as [P1 [_ P2]%Forall_cons]. split; try done.
  - split; [done|]. exists (L ++ R). split; [done|]. by apply Forall_app.
  - by apply StronglySorted_app.
  - intros x Hx. apply Hhi. set_solver.
  - intros a w x Ha Hx. apply Hap; [done|]. set_solver.
Qed.

Lemma join_next_ok L p z R A b w hi : layout (L ++ (p, z) :: R) A hi -> A !! b = Some w ->
  p < b -> p + z <= b -> (forall y, y ∈ R -> b + w <= y.1) ->
  let '(w1, R1) := join_next b w R in joined L p z R1 A b w w1 hi /\ w1 + units R1 = w + units R.
Proof.
  intros HL Hb Hp Hpz HR. destruct (lo_used _ _ _ HL b w Hb) as (_ & Hw & Hhi). pose proof (lo_sorted _ _ _ HL) as HS.
  pose proof HS as (S1 & S2 & S3 & S4 & S5)%sorted_mid.
  assert (forall a v, A !! a = Some v -> a <> b -> apart (b, w) (a, v)) as Hd by (intros a v Ha Hne; eapply lo_disj; eauto).
  destruct R as [|[c v] R']; cbn [join_next].
  { split; [|done]. split; try done; first [lia|set_solver]. }
  apply StronglySorted_cons in S2 as [Hc S2]. rewrite Forall_forall in Hc. unfold before in Hc. cbn in Hc.
  assert (0 < v) as Hv.
  { destruct (lo_base _ _ _ HL) as [_ (F' & EF & Hpos)]. destruct L as [|l L]; simplify_eq/=.
    - by apply Forall_cons in Hpos as [? _].
    - apply Forall_app in Hpos as [_ [_ [? _]%Forall_cons]%Forall_cons]. done. }
  pose proof (HR (c, v) ltac:(left)) as Hbc. cbn in Hbc. pose proof (lo_hi _ _ _ HL (c, v) ltac:(set_solver)) as Hchi. cbn in Hchi.
  destruct (Z.eqb_spec (b + w) c) as [E|E].
  - split; [|change (units ((c, v) :: R')) with (v + units R'); lia]. split; try done; [lia| | |].
    + intros y Hy. specialize (Hc y Hy). lia.
    + change ((p, z) :: R') with ([(p, z)] ++ R'). rewrite app_assoc. apply layout_drop with (c, v); [destruct L; done|]. by rewrite <- app_assoc.
    + intros a u Ha Hne. pose proof (Hd a u Ha Hne) as H1. pose proof (lo_apart _ _ _ HL a u (c, v) Ha ltac:(set_solver)) as H2.
      pose proof (lo_used _ _ _ HL a u Ha). unfold apart in *. cbn in *. lia.
  - split; [|done]. split; [lia|done| | |done|done].
    + intros y [->|Hy]%elem_of_cons; [cbn; lia|]. specialize (Hc y Hy). lia.
    + split; [|done]. constructor; [done|]. by apply Forall_forall.
Qed.

Lemma join_prev_ok L p z R1 A b w w1 hi : joined L p z R1 A b w w1 hi -> A !! b = Some w ->
  layout (L ++ join_prev p z b w1 R1) (delete b A) hi.
Proof.
  intros [[Hw Hhi] (Hp & Hpz & HL) HR [S1 S2] Hlo Hap] Hb. pose proof Hlo as [[Hb0 (F' & EF & Hpos)] HS Hh Hu Ha Hd].
  apply sorted_mid in HS as (_ & _ & _ & S4 & S5).
  pose proof (layout_nonneg _ _ _ (p, z) Hlo ltac:(set_solver)) as (Hz & _ & _). cbn in Hz.
  assert (forall a v, delete b A !! a = Some v -> A !! a = Some v /\ a <> b) as HA by (intros a v [? ?]%lookup_delete_Some; done).
  assert (exists F'', L ++ join_prev p z b w1 R1 = (base, 0) :: F'' /\ Forall (fun x => 0 < x.2) F'') as HB.
  { unfold join_prev. destruct L as [|l L]; simplify_eq/=.
    - rewrite (proj2 (Z.eqb_neq (base + 0) b)) by lia. eexists. split; [done|]. constructor; [cbn; lia|done].
    - eexists. split; [done|]. apply Forall_app in Hpos as [P1 [Pz P2]%Forall_cons]. apply Forall_app. split; [done|]. cbn in Pz.
      destruct (p + z =? b); repeat constructor; cbn; (done || lia). }
  split; [done|..]; unfold join_prev; destruct (Z.eqb_spec (p + z) b) as [E|E].
  - apply sorted_mid. split_and!; try done. intros y Hy. specialize (HR y Hy). unfold before. cbn. lia.
  - apply sorted_mid. split_and!; try done.
    + constructor; [done|]. by apply Forall_forall.
    + intros y [->|Hy]%elem_of_cons; [unfold before; cbn; lia|]. by apply S4.
    + intros y y' Hy [->|Hy']%elem_of_cons; [|by apply S5]. specialize (HL y Hy). unfold before in *. cbn in *. lia.
  - intros x [Hx|[->|Hx]%elem_of_cons]%elem_of_app; [apply Hh; set_solver|cbn; lia|apply Hh; set_solver].
  - intros x [Hx|[->|[->|Hx]%elem_of_cons]%elem_of_cons]%elem_of_app; [apply Hh; set_solver|apply (Hh (p, z)); set_solver|cbn; lia|apply Hh; set_solver].
  - intros a v [Hv _]%HA. by apply Hu.
  - intros a v [Hv _]%HA. by apply Hu.
  - intros a v x [Hv Hne]%HA Hx. pose proof (Hap a v Hv Hne) as H1. pose proof (Ha a v (p, z) Hv ltac:(set_solver)) as H2. pose proof (Hu a v Hv).
    apply elem_of_app in Hx as [Hx|[->|Hx]%elem_of_cons]; [apply Ha; set_solver| |apply Ha; set_solver]. unfold apart in *. cbn in *. lia.
  - intros a v x [Hv Hne]%HA Hx. apply elem_of_app in Hx as [Hx|[->|[->|Hx]%elem_of_cons]%elem_of_cons]; [apply Ha; set_solver|apply Ha; set_solver|by apply Hap|apply Ha; set_solver].
  - intros a v a' v' [Hv _]%HA [Hv' _]%HA. by apply Hd.
  - intros a v a' v' [Hv _]%HA [Hv' _]%HA. by apply Hd.
Qed.
Lemma set_both p h v q s : hdr s !! p = Some h -> (s ← set_size p v s; set_ptr p q s) = Some (set_hdr p (mkHeader q v) s).
Proof.
  intros Hh. unfold set_size. rewrite Hh. cbn. unfold set_ptr. rewrite set_hdr_eq. cbn. unfold set_hdr. cbn. by rewrite insert_insert_eq.
Qed.

(** The two assignments of [free], on the free list. *)
Lemma ufree_run (n : nat) F L p z R b w t s : F = L ++ (p, z) :: R -> lseg F base s -> find_place n b (freep s) s = Some p ->
  hdr s !! b = Some (mkHeader t w) -> b ∉ F.*1 -> base < b -> 0 < w ->
  let '(w1, R1) := join_next b w R in
  ufree n b s = Some (set_freep p (
    if p + z =? b then set_hdr p (mkHeader (head_addr R1 base) (z + w1)) (set_hdr b (mkHeader (head_addr R1 base) w1) s)
    else set_hdr p (mkHeader b z) (set_hdr b (mkHeader (head_addr R1 base) w1) s))).
Proof.
  intros EF HF Hfind Hb Hn Hbb Hw. subst F. apply lseg_app in HF as [HL [Hp HR]]. cbn in Hp.
  assert (p <> b) as Hpb by (intros ->; apply Hn; rewrite fmap_app; set_solver).
  destruct (join_next b w R) as [w1 R1] eqn:Ej. unfold ufree. rewrite Hfind. cbn [mbind option_bind]. rewrite Hp. cbn [mbind option_bind h_ptr]. rewrite Hb. cbn [mbind option_bind h_size].
  assert ((if b + w =? head_addr R base then hn ← hdr s !! head_addr R base; s ← set_size b (w + h_size hn) s; set_ptr b (h_ptr hn) s
           else set_ptr b (head_addr R base) s) = Some (set_hdr b (mkHeader (head_addr R1 base) w1) s)) as ->.
  { destruct R as [|[c v] R']; cbn [join_next head_addr fst] in *.
    - injection Ej as <- <-. rewrite (proj2 (Z.eqb_neq (b + w) base)) by lia. unfold set_ptr. by rewrite Hb.
    - destruct (Z.eqb_spec (b + w) c); injection Ej as <- <-.
      + destruct HR as [Hc _]. cbn in Hc. rewrite Hc. cbn [mbind option_bind h_size h_ptr]. by rewrite (set_both b (mkHeader t w)).
      + unfold set_ptr. by rewrite Hb. }
  cbn [mbind option_bind]. rewrite (set_hdr_ne b p) by congruence. rewrite Hp, set_hdr_eq. cbn [mbind option_bind h_ptr h_size].
  destruct (p + z =? b).
  - rewrite (set_both p (mkHeader (head_addr R base) z)); [done|]. rewrite (set_hdr_ne b p) by congruence. done.
  - unfold set_ptr. rewrite (set_hdr_ne b p) by congruence. by rewrite Hp.
Qed.
Lemma ring_base F A hi s : layout F A hi -> (ring F s <-> lseg F base s).
Proof. intros [[_ (F' & -> & _)] _ _ _ _ _]. done. Qed.

(** Addresses in the list are distinct. *)
Lemma layout_mid L p z R A hi : layout (L ++ (p, z) :: R) A hi -> p ∉ L.*1 /\ p ∉ R.*1.
Proof.
  intros HL. pose proof (lo_sorted _ _ _ HL) as (_ & _ & S3 & S4 & _)%sorted_mid. split; intros (x & Ex & Hx)%list_elem_of_fmap.
  - specialize (S3 x Hx). destruct (layout_nonneg _ _ _ x HL ltac:(set_solver)). unfold before in S3. cbn in S3. lia.
  - specialize (S4 x Hx). destruct (layout_nonneg _ _ _ (p, z) HL ltac:(set_solver)). unfold before in S4. cbn in *. lia.
Qed.

Lemma join_next_seg b w R w1 R1 s : join_next b w R = (w1, R1) -> lseg R base s -> lseg R1 base s /\ R1.*1 ⊆ R.*1 /\ (length R1 <= length R)%nat.
Proof.
  destruct R as [|[c v] R']; cbn [join_next]; [intros [= <- <-]; done|]. destruct (b + w =? c); intros [= <- <-] HR; [|done].
  destruct HR as [_ HR]. split_and!; [done|set_solver|cbn; lia].
Qed.

(** What [free] of a block in use does: it returns, the block is free and the
    others are as they were. *)
Lemma ufree_ok (n : nat) F A s b w : heap_ok F A s -> A !! b = Some w -> (length F <= n)%nat ->
  exists F' s', ufree n b s = Some s' /\ heap_ok F' (delete b A) s' /\ units F' = units F + w /\ brk s' = brk s /\
    (length F' <= S (length F))%nat /\ exists x, x ∈ F' /\ w <= x.2.
Proof.
  intros [Hlo Hring Hfp Hus] Hb Hn. pose proof Hring as Hseg. rewrite (ring_base _ _ _ _ Hlo) in Hseg.
  destruct (layout_place _ _ _ _ _ Hlo Hb) as (L & p & z & R & EF & Hp & Hpz & HR & HLp & HpR).
  destruct (lo_used _ _ _ Hlo b w Hb) as (Hbb & Hw & Hbhi). destruct (Hus b w Hb) as ([t w'] & Hhb & Hhw). cbn in Hhw. subst w'.
  pose proof (layout_not_free _ _ _ _ _ Hlo Hb) as Hnb.
  assert (find_place n b (freep s) s = Some p) as Hfind.
  { eapply (find_place_from F L R p z); try done.
    - apply Hlo.
    - intros x Hx. by destruct (layout_nonneg _ _ _ x Hlo Hx) as (? & ? & _).
    - split; [|done]. by apply (layout_nonneg _ _ _ (p, z) Hlo); rewrite EF; set_solver.
    - intros y Hy. specialize (HR y Hy). lia.
    - by destruct (lo_base _ _ _ Hlo) as [_ (F' & -> & _)]. }
  pose proof (ufree_run n F L p z R b w t s EF Hseg Hfind Hhb Hnb Hbb Hw) as Hrun.
  rewrite EF in Hlo. pose proof (join_next_ok L p z R A b w (brk s) Hlo Hb Hp Hpz HR) as Hj.
  destruct (join_next b w R) as [w1 R1] eqn:Ej. destruct Hj as [Hj Hun]. pose proof (join_prev_ok _ _ _ _ _ _ _ _ _ Hj Hb) as Hlo'.
  exists (L ++ join_prev p z b w1 R1). eexists. split; [exact Hrun|].
  rewrite EF in Hseg. apply lseg_app in Hseg as [HsL [Hsp HsR]]. destruct (join_next_seg _ _ _ _ _ _ Ej HsR) as (HsR1 & Hsub & Hlen).
  destruct (layout_mid _ _ _ _ _ _ Hlo) as [HpL HpR']. cbn [fst snd head_addr] in *.
  assert (b ∉ L.*1 /\ b ∉ R1.*1 /\ p ∉ R1.*1 /\ b <> p) as (HbL & HbR1 & HpR1 & Hbp).
  { rewrite EF, fmap_app in Hnb. cbn in Hnb. split_and!; set_solver. }
  set (s1 := set_hdr b (mkHeader (head_addr R1 base) w1) s).
  assert (lseg L p s1 /\ lseg R1 base s1) as [HL1 HR1] by (split; by apply lseg_set).
  split; [split|split_and!].
  - destruct (p + z =? b); exact Hlo'.
  - rewrite (ring_base _ _ _ _ Hlo'), lseg_freep. unfold join_prev. destruct (p + z =? b); apply lseg_app; cbn [head_addr fst lseg snd].
    + split; [by apply lseg_set|]. split; [apply set_hdr_eq|by apply lseg_set].
    + split; [by apply lseg_set|]. split_and!; [apply set_hdr_eq| |by apply lseg_set]. cbn. rewrite lookup_insert_ne by done. apply lookup_insert_eq.
  - cbn [freep set_freep]. unfold join_prev. rewrite fmap_app. destruct (p + z =? b); cbn; set_solver.
  - intros a v [Hne Ha]%lookup_delete_Some. destruct (Hus a v Ha) as (h & Hh & Hv). exists h. split; [|done].
    assert (a <> p) as Hap. { intros ->. apply (layout_not_free _ _ _ _ _ Hlo Ha). rewrite fmap_app. cbn. set_solver. }
    destruct (p + z =? b); cbn; by rewrite !lookup_insert_ne.
  - rewrite EF, !units_app. unfold join_prev. destruct (p + z =? b); cbn [units foldr snd]; fold (units R1) (units R); lia.
  - by destruct (p + z =? b).
  - rewrite EF, !length_app. unfold join_prev. destruct (p + z =? b); cbn; lia.
  - destruct Hj as [[Hw1 _] _ _ _ _ _]. pose proof (layout_nonneg _ _ _ (p, z) Hlo ltac:(set_solver)) as (Hz & _). cbn in Hz.
    unfold join_prev. destruct (p + z =? b); [exists (p, z + w1)|exists (b, w1)]; (split; [set_solver|cbn; lia]).
Qed.
(** ** [malloc] *)
Definition last_addr U e : Z := default e (fst <$> last U).
Lemma last_addr_snoc U x e : last_addr (U ++ [x]) e = x.1.
Proof. unfold last_addr. by rewrite last_snoc. Qed.
Lemma last_addr_cons U x e : last_addr (x :: U) e = last_addr U x.1.
Proof. unfold last_addr. rewrite last_cons. by destruct (last U). Qed.
Lemma last_addr_app U V e : last_addr (U ++ V) e = last_addr V (last_addr U e).
Proof. unfold last_addr. rewrite last_app. by destruct (last V). Qed.

(** The loop passes over blocks that are too small. *)
Lemma malloc_skip (k n : nat) nu U : forall q prev s, lseg U q s -> (forall x, x ∈ U -> x.2 < nu /\ x.1 <> freep s /\ x.1 <> 0) ->
  malloc_loop (length U + k) n nu prev (head_addr U q) s = malloc_loop k n nu (last_addr U prev) q s.
Proof.
  induction U as [|x U IH]; intros q prev s HU Hx; [done|]. destruct HU as [Hh HU].
  destruct (Hx x ltac:(left)) as (H1 & H2 & H3). cbn [length Nat.add head_addr malloc_loop]. rewrite Hh. cbn [mbind option_bind h_size].
  rewrite (proj2 (Z.leb_gt nu x.2)), (proj2 (Z.eqb_neq x.1 (freep s))) by done. cbn [mbind option_bind].
  rewrite (proj2 (Z.eqb_neq x.1 0)), Hh by done. cbn [mbind option_bind h_ptr]. rewrite last_addr_cons. apply IH; [done|].
  intros y Hy. apply Hx. by right.
Qed.

Lemma first_fit nu W : (exists x, x ∈ W /\ nu <= x.2) ->
  exists U x V, W = U ++ x :: V /\ nu <= x.2 /\ forall y, y ∈ U -> y.2 < nu.
Proof.
  induction W as [|y W IH]; intros (x & Hx & Hnu); [set_solver|]. destruct (Z.le_gt_cases nu y.2) as [Hy|Hy].
  - exists [], y, W. split_and!; [done|done|set_solver].
  - apply elem_of_cons in Hx as [->|Hx]; [lia|]. destruct (IH ltac:(eauto)) as (U & x' & V & -> & Hx' & HU).
    exists (y :: U), x', V. split_and!; [done|done|]. intros y' [->|Hy']%elem_of_cons; [done|auto].
Qed.

(** The free list, read from the block behind [freep]. *)
Lemma heap_freep F A s : heap_ok F A s -> exists L z R, F = L ++ (freep s, z) :: R /\ freep s <> 0 /\
  hdr s !! freep s = Some (mkHeader (head_addr (R ++ L) (freep s)) z) /\ lseg (R ++ L) (freep s) s /\
  (forall x, x ∈ R ++ L -> x.1 <> freep s /\ x.1 <> 0).
Proof.
  intros [Hlo Hr Hf _]. apply list_elem_of_fmap in Hf as ([f z] & -> & Hf). apply list_elem_of_split in Hf as (L & R & ->).
  exists L, z, R. cbn [fst]. destruct (lo_base _ _ _ Hlo) as [Hb _]. destruct (layout_mid _ _ _ _ _ _ Hlo) as [H1 H2].
  rewrite ring_rot in Hr. cbn [app] in Hr. apply ring_cons in Hr as [Hh Hs]. split_and!; try done.
  - destruct (layout_nonneg _ _ _ (f, z) Hlo ltac:(set_solver)) as (_ & ? & _). cbn in *. lia.
  - intros x Hx. split.
    + intros E. apply elem_of_app in Hx as [Hx|Hx]; [apply H2|apply H1]; rewrite <- E; by apply list_elem_of_fmap_2.
    + destruct (layout_nonneg _ _ _ x Hlo ltac:(set_solver)) as (_ & ? & _). lia.
Qed.

(** If some block is large enough, the loop takes one, and knows its predecessor. *)
Definition found nu U p z V s (r : option (Z * heap)) : Prop :=
  U <> [] /\ nu <= z /\ r = take_block nu (last_addr U 0) p (mkHeader (head_addr V base) z) s.

Lemma fit_not_first nu U p z V A hi : layout (U ++ (p, z) :: V) A hi -> 0 < nu <= z -> U <> [].
Proof. intros [[_ (F' & EF & _)] _ _ _ _ _] Hz ->. cbn in EF. injection EF as _ -> _. lia. Qed.
Lemma last_addr_default U e e' : U <> [] -> last_addr U e = last_addr U e'.
Proof. unfold last_addr. destruct U as [|x U]; [done|]. by destruct (last_is_Some (x :: U)) as [_ [y ->]]. Qed.

(** The walk [X] to the first block that is large enough. *)
Lemma malloc_walk (k n : nat) nu X p h prev s : lseg X p s -> hdr s !! p = Some h -> nu <= h_size h ->
  (forall x, x ∈ X -> x.2 < nu /\ x.1 <> freep s /\ x.1 <> 0) -> (length X <= k)%nat ->
  malloc_loop k n nu prev (head_addr X p) s = take_block nu (last_addr X prev) p h s.
Proof.
  intros HX Hh Hfit Hsm Hk. replace k with (length X + (k - length X))%nat by lia. rewrite malloc_skip by done.
  destruct (k - length X)%nat; cbn; rewrite Hh; cbn; by rewrite (proj2 (Z.leb_le nu (h_size h)) Hfit).
Qed.

Lemma malloc_finds (k n : nat) nu F A s : heap_ok F A s -> 0 < nu -> (exists x, x ∈ F /\ nu <= x.2) -> (length F <= k)%nat ->
  exists U p z V hf, F = U ++ (p, z) :: V /\ hdr s !! freep s = Some hf /\
    found nu U p z V s (malloc_loop k n nu (freep s) (h_ptr hf) s).
Proof.
  intros Hok Hnu (x & Hx & Hxnu) Hk. pose proof Hok as [Hlo Hr _ _]. rewrite (ring_base _ _ _ _ Hlo) in Hr.
  destruct (heap_freep _ _ _ Hok) as (L & zf & R & EF & Hf0 & Hhf & Hseg & Hne). set (f := freep s) in *.
  assert (forall U p z V (X : list (Z * Z)), F = U ++ (p, z) :: V -> nu <= z -> lseg X p s -> (forall y, y ∈ X -> y.2 < nu /\ y.1 <> f /\ y.1 <> 0) ->
    (length X <= k)%nat -> last_addr X f = last_addr U 0 -> head_addr (R ++ L) f = head_addr X p ->
    exists U p z V hf, F = U ++ (p, z) :: V /\ hdr s !! f = Some hf /\ found nu U p z V s (malloc_loop k n nu f (h_ptr hf) s)) as Hgo.
  { intros U p z V X EU Hz HX Hsm HkX El Eh. exists U, p, z, V. eexists. split_and!; [done|exact Hhf|]. cbn [h_ptr]. rewrite Eh.
    rewrite EU in Hlo. split_and!; [by eapply fit_not_first|done|]. rewrite <- El.
    apply malloc_walk; try done. rewrite EU in Hr. by apply lseg_app in Hr as [_ [? _]]. }
  assert (length F = length L + S (length R))%nat as HlF by (rewrite EF, length_app; done).
  destruct (decide (Exists (fun x => nu <= x.2) R)) as [HR|HR].
  { apply Exists_exists in HR. destruct (first_fit nu R HR) as (R1 & [p z] & R2 & ER & Hz & HR1). subst R. rewrite <- app_assoc in *. apply lseg_app in Hseg as [Hs1 _].
    rewrite length_app in HlF. cbn in *.
    apply (Hgo (L ++ (f, zf) :: R1) p z R2 R1); [by rewrite EF, <- app_assoc|done|done| |lia| |by destruct R1].
    - intros y Hy. split; [by apply HR1|]. apply Hne. set_solver.
    - by rewrite last_addr_app, last_addr_cons. }
  assert (forall y, y ∈ R -> y.2 < nu) as HsR.
  { intros y Hy. destruct (Z.lt_ge_cases y.2 nu) as [|Hc]; [done|]. destruct HR. apply Exists_exists. eauto. }
  destruct (decide (Exists (fun x => nu <= x.2) L)) as [HL|HL].
  { apply Exists_exists in HL. destruct (first_fit nu L HL) as (L1 & [p z] & L2 & EL & Hz & HL1). subst L.
    assert (L1 <> []) as HL1n. { rewrite EF, <- app_assoc in Hlo. by eapply fit_not_first. }
    replace (R ++ L1 ++ (p, z) :: L2) with ((R ++ L1) ++ (p, z) :: L2) in * by (by rewrite <- app_assoc). apply lseg_app in Hseg as [Hs1 _].
    rewrite length_app in HlF. cbn in *.
    apply (Hgo L1 p z (L2 ++ (f, zf) :: R) (R ++ L1)); [by rewrite EF, <- app_assoc|done|done| |rewrite length_app; lia| |].
    - intros y Hy. split; [apply elem_of_app in Hy as [Hy|Hy]; auto|]. apply Hne. set_solver.
    - rewrite last_addr_app. by apply last_addr_default.
    - by rewrite head_addr_app. }
  assert (forall y, y ∈ L -> y.2 < nu) as HsL.
  { intros y Hy. destruct (Z.lt_ge_cases y.2 nu) as [|Hc]; [done|]. destruct HL. apply Exists_exists. eauto. }
  assert (nu <= zf) as Hzf.
  { rewrite EF in Hx. apply elem_of_app in Hx as [Hx|[->|Hx]%elem_of_cons]; [specialize (HsL x Hx); lia|done|specialize (HsR x Hx); lia]. }
  assert (L <> []) as HLn. { rewrite EF in Hlo. by eapply fit_not_first. }
  apply (Hgo L f zf R (R ++ L)); [done|done|done| |rewrite length_app; lia| |done].
  - intros y Hy. split; [apply elem_of_app in Hy as [Hy|Hy]; auto|]. by apply Hne.
  - rewrite last_addr_app. by apply last_addr_default.
Qed.
(** A block leaves the free list, or shrinks, and is handed out. *)
Lemma layout_use F A hi p w : layout F A hi -> base < p -> 0 < w -> p + w <= hi ->
  (forall x, x ∈ F -> apart x (p, w)) -> (forall a v, A !! a = Some v -> apart (a, v) (p, w)) -> layout F (<[p := w]> A) hi.
Proof.
  intros [Hb HS Hh Hu Ha Hd] Hp Hw Hhi HF HA. split; try done.
  - intros a v [[<- <-]|[_ Hv]]%lookup_insert_Some; [done|by apply Hu].
  - intros a v x [[<- <-]|[_ Hv]]%lookup_insert_Some Hx; [by apply HF|by apply Ha].
  - intros a v a' v' [[<- <-]|[_ Hv]]%lookup_insert_Some [[<- <-]|[_ Hv']]%lookup_insert_Some Hne; [done| |by apply HA|by apply Hd].
    specialize (HA a' v' Hv'). unfold apart in *. lia.
Qed.

Lemma layout_shrink U p z z' V A hi : layout (U ++ (p, z) :: V) A hi -> U <> [] -> 0 < z' <= z -> layout (U ++ (p, z') :: V) A hi.
Proof.
  intros [[Hb (F' & EF & Hpos)] HS Hh Hu Ha Hd] HU Hz. apply sorted_mid in HS as (S1 & S2 & S3 & S4 & S5).
  destruct U as [|u U]; [done|]. injection EF as -> <-. apply Forall_app in Hpos as [P1 [_ P2]%Forall_cons].
  assert (forall x, x ∈ ((base, 0) :: U) ++ (p, z') :: V -> x = (p, z') \/ x ∈ ((base, 0) :: U) ++ (p, z) :: V) as Hin by set_solver.
  assert ((p, z) ∈ ((base, 0) :: U) ++ (p, z) :: V) as Hpz by set_solver.
  split; try done.
  - split; [done|]. eexists. split; [done|]. apply Forall_app. split; [done|]. constructor; [cbn; lia|done].
  - apply sorted_mid. split_and!; try done. intros y Hy. specialize (S4 y Hy). unfold before in *. cbn in *. lia.
  - intros x [->|Hx]%Hin; [|by apply Hh]. specialize (Hh (p, z) Hpz). cbn in *. lia.
  - intros a w x Hw [->|Hx]%Hin; [|by apply Ha]. specialize (Ha a w (p, z) Hw Hpz). unfold apart in *. cbn in *. lia.
Qed.

Lemma layout_between U p z V A hi : layout (U ++ (p, z) :: V) A hi -> forall x, x ∈ U ++ V -> apart x (p, z).
Proof.
  intros HL x Hx. pose proof (lo_sorted _ _ _ HL) as (_ & _ & S3 & S4 & _)%sorted_mid. unfold before, apart in *. cbn in *.
  apply elem_of_app in Hx as [Hx|Hx]; [specialize (S3 x Hx)|specialize (S4 x Hx)]; lia.
Qed.

(** What [malloc] returns when it finds a block: the block [r] of [nu] units,
    which was free, and nothing else changes hands. *)
Record grants nu F A s F' r s' : Prop := {
  gt_ok : heap_ok F' (<[r := nu]> A) s';
  gt_new : A !! r = None /\ r <> 0;
  gt_units : units F' + nu = units F + (brk s' - brk s) }.

Lemma take_exact nu U p z V A s : heap_ok (U ++ (p, z) :: V) A s -> 0 < nu -> U <> [] -> z = nu ->
  exists r F' s', take_block nu (last_addr U 0) p (mkHeader (head_addr V base) z) s = Some (r, s') /\ grants nu (U ++ (p, z) :: V) A s F' r s'.
Proof.
  intros [Hlo Hr Hf Hus] Hnu HU ->. pose proof Hr as Hs. rewrite (ring_base _ _ _ _ Hlo) in Hs.
  destruct (exists_last HU) as (U' & [pr zp] & ->). rewrite last_addr_snoc. cbn [fst].
  pose proof (layout_drop _ _ _ _ _ HU Hlo) as Hlo1.
  apply lseg_app in Hs as [[HsU [Hpr _]]%lseg_app [Hp HsV]]. cbn [head_addr fst snd] in *.
  exists p, (U' ++ (pr, zp) :: V). eexists. split.
  { unfold take_block. cbn [h_size h_ptr]. rewrite Z.eqb_refl. unfold set_ptr. rewrite Hpr. reflexivity. }
  rewrite <- app_assoc in Hlo. cbn [app] in Hlo. destruct (layout_mid _ _ _ _ _ _ Hlo) as [Hn1 Hn2]. rewrite <- app_assoc in *. cbn [app] in *.
  assert (A !! p = None) as Hnone.
  { destruct (A !! p) as [w|] eqn:E; [|done]. exfalso. apply (layout_not_free _ _ _ _ _ Hlo E). rewrite !fmap_app. cbn. set_solver. }
  assert (base < p) as Hbp.
  { destruct (layout_nonneg _ _ _ (p, nu) Hlo ltac:(set_solver)) as (_ & H1 & H2). cbn in *. destruct (Z.eq_dec p base) as [E|]; [|lia]. specialize (H2 E). injection H2 as _ E2. lia. }
  split; [split| |].
  - apply layout_use; [exact Hlo1|done|done| | |].
    + apply (lo_hi _ _ _ Hlo (p, nu)). set_solver.
    + pose proof (layout_between (U' ++ [(pr, zp)]) p nu V A (brk s)) as Hbt. rewrite <- !app_assoc in Hbt. cbn [app] in Hbt. by apply Hbt.
    + intros a v Hv. pose proof (lo_apart _ _ _ Hlo a v (p, nu) Hv ltac:(set_solver)) as H1. unfold apart in *. lia.
  - rewrite (ring_base _ _ _ _ Hlo1), lseg_freep. apply lseg_app. split; [cbn; apply lseg_set; [done|set_solver]|].
    split; [apply set_hdr_eq|]. apply lseg_set; [done|]. rewrite fmap_cons in Hn2. set_solver.
  - cbn. rewrite fmap_app. cbn. set_solver.
  - intros a v [[<- <-]|[Hne Hv]]%lookup_insert_Some.
    + exists (mkHeader (head_addr V base) nu). split; [|done]. cbn. rewrite lookup_insert_ne; [done|]. rewrite fmap_cons in Hn2. set_solver.
    + destruct (Hus a v Hv) as (h & Hh & Eh). exists h. split; [|done]. cbn. rewrite lookup_insert_ne; [done|].
      intros <-. apply (layout_not_free _ _ _ _ _ Hlo Hv). rewrite fmap_app. cbn. set_solver.
  - split; [done|]. destruct (lo_base _ _ _ Hlo) as [? _]. lia.
  - rewrite !units_app. cbn [units foldr snd brk set_freep set_hdr]. fold (units V). lia.
Qed.

Lemma take_split nu U p z V A s : heap_ok (U ++ (p, z) :: V) A s -> 0 < nu < z -> U <> [] ->
  exists r F' s', take_block nu (last_addr U 0) p (mkHeader (head_addr V base) z) s = Some (r, s') /\ grants nu (U ++ (p, z) :: V) A s F' r s'.
Proof.
  intros [Hlo Hr Hf Hus] Hnu HU. pose proof Hr as Hs. rewrite (ring_base _ _ _ _ Hlo) in Hs.
  pose proof (layout_shrink U p z (z - nu) V A _ Hlo HU ltac:(lia)) as Hlo1. destruct (layout_mid _ _ _ _ _ _ Hlo) as [Hn1 Hn2].
  apply lseg_app in Hs as [HsU [Hp HsV]]. cbn [head_addr fst snd] in *. set (r := p + (z - nu)).
  assert (forall x, x ∈ U ++ V -> apart x (p, z)) as Hbt by (by eapply layout_between).
  assert (base <= p) as Hbp by (by apply (layout_nonneg _ _ _ (p, z) Hlo); set_solver).
  assert (forall a v, A !! a = Some v -> apart (p, z) (a, v) /\ 0 < v) as HA.
  { intros a v Hv. split; [apply (lo_apart _ _ _ Hlo); [done|set_solver]|]. by apply (lo_used _ _ _ Hlo a). }
  assert (r ∉ (U ++ (p, z - nu) :: V).*1) as Hnr.
  { intros (x & Ex & Hx)%list_elem_of_fmap. assert (x = (p, z - nu) \/ x ∈ U ++ V) as [->|Hx'] by set_solver; [cbn in Ex; lia|].
    specialize (Hbt x Hx'). destruct (layout_nonneg _ _ _ x Hlo1 Hx) as (? & _). unfold apart in Hbt. cbn in *. lia. }
  rewrite fmap_app, fmap_cons in Hnr. apply not_elem_of_app in Hnr as [Hr1 [Hr2 Hr3]%not_elem_of_cons]. cbn in Hr2.
  exists r, (U ++ (p, z - nu) :: V). eexists. split.
  { unfold take_block. cbn [h_size h_ptr]. rewrite (proj2 (Z.eqb_neq z nu)) by lia. unfold set_size. rewrite Hp. reflexivity. }
  fold r. split; [split| |].
  - apply layout_use; [exact Hlo1|unfold r; lia|lia| | |].
    + pose proof (lo_hi _ _ _ Hlo (p, z) ltac:(set_solver)). cbn in *. lia.
    + intros x Hx. assert (x = (p, z - nu) \/ x ∈ U ++ V) as [->|Hx'] by set_solver; [unfold apart; cbn; lia|].
      specialize (Hbt x Hx'). unfold apart in *. cbn in *. lia.
    + intros a v Hv. destruct (HA a v Hv). unfold apart in *. cbn in *. lia.
  - rewrite (ring_base _ _ _ _ Hlo1), lseg_freep. apply lseg_app. split; [apply lseg_set; [by apply lseg_set|done]|].
    split; [cbn; rewrite lookup_insert_ne by done; apply lookup_insert_eq|]. apply lseg_set; [by apply lseg_set|done].
  - cbn. destruct (exists_last HU) as (U' & [pr zp] & ->). rewrite last_addr_snoc, !fmap_app. cbn. set_solver.
  - intros a v [[<- <-]|[Hne Hv]]%lookup_insert_Some.
    + eexists. split; [apply lookup_insert_eq|done].
    + destruct (Hus a v Hv) as (h & Hh & Eh). exists h. split; [|done]. cbn. rewrite !lookup_insert_ne; [done| |done].
      intros <-. apply (layout_not_free _ _ _ _ _ Hlo Hv). rewrite fmap_app. cbn. set_solver.
  - split; [|unfold r; destruct (lo_base _ _ _ Hlo) as [? _]; lia]. destruct (A !! r) as [w|] eqn:E; [|done]. exfalso.
    destruct (HA r w E). unfold apart, r in *. cbn in *. lia.
  - rewrite !units_app. cbn [units foldr snd brk set_freep set_hdr]. fold (units V). lia.
Qed.

(** Handing out a free block asks the kernel for nothing. *)
Lemma take_block_brk nu pr p h s r s' : take_block nu pr p h s = Some (r, s') -> brk s' = brk s.
Proof.
  unfold take_block, set_ptr, set_size. destruct (h_size h =? nu), (hdr s !! pr), (hdr s !! p); cbn; intros E; try discriminate E; by injection E as _ <-.
Qed.

Lemma malloc_granted (k n : nat) nu F A s : heap_ok F A s -> 0 < nu -> (exists x, x ∈ F /\ nu <= x.2) -> (length F <= k)%nat ->
  exists hf r F' s', hdr s !! freep s = Some hf /\ malloc_loop k n nu (freep s) (h_ptr hf) s = Some (r, s') /\
    brk s' = brk s /\ grants nu F A s F' r s'.
Proof.
  intros Hok Hnu Hx Hk. destruct (malloc_finds k n nu F A s Hok Hnu Hx Hk) as (U & p & z & V & hf & EF & Hhf & HU & Hz & Hr).
  exists hf. rewrite Hr. subst F. destruct (Z.eq_dec z nu) as [E|E].
  - destruct (take_exact nu U p z V A s Hok Hnu HU E) as (r & F' & s' & Ht & ?). apply take_block_brk in Ht as Hb. by exists r, F', s'.
  - destruct (take_split nu U p z V A s Hok ltac:(lia) HU) as (r & F' & s' & Ht & ?). apply take_block_brk in Ht as Hb. by exists r, F', s'.
Qed.

(** More memory from the kernel becomes a free block of at least [nu] units. *)
Lemma morecore_ok (n : nat) nu F A s : heap_ok F A s -> 0 < nu -> nu * 8 < 2 ^ 31 -> (length F <= n)%nat ->
  match sbrk (brk s) (Z.max nu 4096 * 8) with
  | Some e =>
      exists F' s', morecore n nu s = Some (freep s', s') /\ heap_ok F' A s' /\ (length F' <= S (length F))%nat /\
        units F' = units F + (brk s' - brk s) /\ brk s' = brk s + Z.max nu 4096 /\ exists x, x ∈ F' /\ nu <= x.2
  | None => morecore n nu s = Some (0, s)
  end.
Proof.
  intros [Hlo Hr Hf Hus] Hnu Hmax Hn. unfold morecore. replace (if nu <? 4096 then 4096 else nu) with (Z.max nu 4096) by (destruct (Z.ltb_spec nu 4096); lia).
  set (w := Z.max nu 4096). rewrite u32_small, i32_small by (unfold w; lia). set (b := brk s) in *.
  destruct (sbrk b (w * 8)) as [e|] eqn:Es; [|done]. apply sbrk_grows in Es; [|unfold w; lia]. rewrite Z.div_mul in Es by lia. subst e.
  set (s1 := set_hdr b (mkHeader 0 w) (mkHeap (hdr s) (freep s) (b + w))).
  assert (A !! b = None) as HA.
  { destruct (A !! b) as [v|] eqn:E; [|done]. pose proof (lo_used _ _ _ Hlo b v E). lia. }
  assert (forall x, x ∈ F -> x.1 <> b) as HFb.
  { intros x Hx. pose proof (lo_hi _ _ _ Hlo x Hx) as H1. destruct (lo_base _ _ _ Hlo) as [Hb (F' & EF & Hpos)]. rewrite EF in Hx.
    apply elem_of_cons in Hx as [->|Hx]; [cbn; lia|]. rewrite Forall_forall in Hpos. specialize (Hpos x Hx). lia. }
  assert (heap_ok F (<[b := w]> A) s1) as Hok1.
  { split.
    - destruct Hlo as [Hb HS Hh Hu Ha Hd]. cbn [brk s1 set_hdr].
      assert (layout F A (b + w)) as Hlo'.
      { split; try done; [split; [lia|apply Hb]| |]; [intros x Hx; specialize (Hh x Hx); lia|intros a v Hv; specialize (Hu a v Hv); lia]. }
      apply layout_use; [done|lia|lia|lia| |].
      + intros x Hx. specialize (Hh x Hx). left. cbn. lia.
      + intros a v Hv. specialize (Hu a v Hv). left. cbn. lia.
    - unfold ring in *. apply lseg_set; [by eapply lseg_frame|]. intros (x & Ex & Hx)%list_elem_of_fmap. by apply (HFb x Hx).
    - done.
    - intros a v [[<- <-]|[Hne Hv]]%lookup_insert_Some; [eexists; split; [apply lookup_insert_eq|done]|].
      destruct (Hus a v Hv) as (h & Hh & Eh). exists h. split; [|done]. cbn. by rewrite lookup_insert_ne. }
  destruct (ufree_ok n F _ s1 b w Hok1 (lookup_insert_eq _ _ _) Hn) as (F' & s' & Hrun & Hok' & Hun & Hbrk & Hlen & x & Hx & Hxw).
  rewrite delete_insert_id in Hok' by done. exists F', s'. rewrite Hrun. split_and!; try done.
  - rewrite Hun, Hbrk. cbn. lia.
  - exists x. split; [done|lia].
Qed.

(** The state of the allocator, used or not. *)
Definition allocator F A s : Prop :=
  heap_ok F A s \/ (freep s = 0 /\ 0 < base < brk s /\ F = [(base, 0)] /\ A = ∅).
Lemma allocator_init F A s : allocator F A s ->
  heap_ok F A (if freep s =? 0 then set_freep base (set_hdr base (mkHeader base 0) s) else s).
Proof.
  intros [Hok|(-> & Hb & -> & ->)].
  - destruct (heap_freep _ _ _ Hok) as (_ & _ & _ & _ & Hf & _). by rewrite (proj2 (Z.eqb_neq _ _) Hf).
  - split; [|split; [apply lookup_insert_eq|done]|cbn; set_solver|set_solver].
    split; [split; [done|]; exists []; done|repeat constructor| |set_solver|set_solver|set_solver].
    intros x ->%list_elem_of_singleton. cbn. lia.
Qed.

Definition nunits_of (nbytes : Z) : Z := (nbytes + 7) / 8 + 1.

(** C36: what [malloc] promises for a request of less than 2 GB (at most
    [2^31 - 16] bytes, so that the argument of [sbrk] is a positive [int]): with
    a bound on the length of the free list it always returns.  If a free block is
    large enough it asks the kernel for nothing and returns such a block.
    Otherwise it calls [sbrk] for the larger of the request and 4096 units: it
    returns 0 exactly when that call refuses, and then nothing has changed hands;
    when it is granted the segment has grown by that much and a block is
    returned.  A block returned was not in use, lies within the segment, is apart
    from all blocks in use and from all free blocks, and has room for the bytes
    asked for; the units it hands out are those the free list loses or [sbrk]
    adds. *)
Theorem malloc_allocates (n : nat) nbytes F A s : allocator F A s -> 0 <= nbytes <= 2 ^ 31 - 16 -> (length F < n)%nat ->
  let nu := nunits_of nbytes in
  nbytes <= 8 * (nu - 1) /\ exists r s', malloc n nbytes s = Some (r, s') /\
  if bool_decide (Exists (fun x => nu <= x.2) F) then brk s' = brk s /\ exists F', grants nu F A s F' r s'
  else match sbrk (brk s) (Z.max nu 4096 * 8) with
       | None => r = 0 /\ heap_ok F A s' /\ brk s' = brk s
       | Some _ => brk s' = brk s + Z.max nu 4096 /\ exists F', grants nu F A s F' r s'
       end.
Proof.
  intros Hal Hnb Hn nu. pose proof (Z.div_mod (nbytes + 7) 8 ltac:(lia)) as Hdm. pose proof (Z.mod_pos_bound (nbytes + 7) 8 ltac:(lia)) as Hmb.
  assert (0 < nu) as Hnu by (unfold nu, nunits_of; pose proof (Z.div_pos (nbytes + 7) 8); lia).
  split; [unfold nu, nunits_of; lia|]. apply allocator_init in Hal as Hok. unfold malloc. replace (nbytes + 8 - 1) with (nbytes + 7) by lia. rewrite u32_small by lia. fold (nunits_of nbytes). fold nu.
  set (s0 := if freep s =? 0 then _ else s) in *. assert (brk s0 = brk s) as Hbrk by (unfold s0; by destruct (freep s =? 0)). clearbody s0.
  assert (nu * 8 < 2 ^ 31) as Hmax by (unfold nu, nunits_of; lia). case_bool_decide as HF.
  - apply Exists_exists in HF. destruct (malloc_granted (n + n) n nu F A s0 Hok Hnu HF ltac:(lia)) as (hf & r & F' & s' & Hh & Hr & Hb & Hg).
    exists r, s'. rewrite Hh. cbn [mbind option_bind]. split; [done|]. split; [lia|]. exists F'. destruct Hg as [H1 H2 H3]. split; [done|done|lia].
  - assert (forall x, x ∈ F -> x.2 < nu) as Hsm.
    { intros x Hx. destruct (Z.lt_ge_cases x.2 nu) as [|Hc]; [done|]. destruct HF. apply Exists_exists. eauto. }
    destruct (heap_freep _ _ _ Hok) as (L & zf & R & EF & Hf0 & Hhf & Hseg & Hne). rewrite Hhf. cbn [mbind option_bind h_ptr].
    assert (length (R ++ L) < n)%nat as HlRL by (rewrite EF in Hn; rewrite !length_app in *; cbn in *; lia).
    replace (n + n)%nat with (length (R ++ L) + (n + n - length (R ++ L)))%nat by lia.
    rewrite malloc_skip; [|done|]. 2: { intros x Hx. split; [apply Hsm; rewrite EF; set_solver|by apply Hne]. }
    destruct (n + n - length (R ++ L))%nat as [|k] eqn:Ek; [lia|]. cbn [malloc_loop]. rewrite Hhf. cbn [mbind option_bind h_size].
    rewrite (proj2 (Z.leb_gt nu zf)) by (apply (Hsm (freep s0, zf)); rewrite EF; set_solver). rewrite Z.eqb_refl.
    pose proof (morecore_ok n nu F A s0 Hok Hnu Hmax ltac:(lia)) as Hmc. rewrite Hbrk in Hmc. destruct (sbrk (brk s) (Z.max nu 4096 * 8)).
    + destruct Hmc as (F1 & s1 & -> & Hok1 & Hlen1 & Hun1 & Hbrk1 & Hx1). cbn [mbind option_bind].
      destruct (heap_freep _ _ _ Hok1) as (_ & _ & _ & _ & Hf1 & _). rewrite (proj2 (Z.eqb_neq _ _) Hf1).
      destruct (malloc_granted k n nu F1 A s1 Hok1 Hnu Hx1 ltac:(lia)) as (hf & r & F' & s' & Hh & Hr & Hb & Hg). exists r, s'. rewrite Hh. cbn [mbind option_bind].
      split; [done|]. split; [lia|]. exists F'. destruct Hg as [H1 H2 H3]. split; [done|done|lia].
    + rewrite Hmc. cbn. exists 0, s0. by split_and!.
Qed.

(** C37: what [free] promises: given a block in use it returns, the block is free,
    every other block keeps its place, the free blocks grow by exactly its
    units, and no two free blocks touch. *)
Theorem ufree_releases (n : nat) F A s b w : heap_ok F A s -> A !! b = Some w -> (length F <= n)%nat ->
  exists F' s', ufree n b s = Some s' /\ heap_ok F' (delete b A) s' /\ units F' = units F + w /\ brk s' = brk s.
Proof.
  intros Hok Hb Hn. destruct (ufree_ok n F A s b w Hok Hb Hn) as (F' & s' & ? & ? & ? & ? & _). by exists F', s'.
Qed.
End invariant.

(** An arena whose [sbrk] grants up to 2^20 bytes and, as [growproc] with
    [deallocuvm], reports success and leaves the segment alone when asked to move
    its end below 0: a call of [malloc] that is granted, one that is refused, and
    the [free] of a block. *)
#[local] Instance demo_arena : Arena.
Proof.
  refine {| base := 100; sbrk e n := if n <? 0 then Some e else if n <=? 2 ^ 20 then Some (e + n / 8) else None |}.
  intros e n e' Hn. rewrite (proj2 (Z.ltb_ge _ _) Hn). destruct (n <=? 2 ^ 20); intros E; [by injection E|discriminate E].
Defined.
Definition demo_heap : heap := mkHeap ∅ 0 1000.
Lemma malloc_allocates_witness :
  (exists r s', malloc 3 20 demo_heap = Some (r, s') /\ r = 5092 /\ brk s' = 5096 /\
     exists F', grants (nunits_of 20) [(100, 0)] ∅ demo_heap F' r s') /\
  exists s', malloc 3 (2 ^ 31 - 16) demo_heap = Some (0, s') /\ heap_ok [(100, 0)] ∅ s'.
Proof.
  assert (allocator [(100, 0)] ∅ demo_heap) as Hal by (right; cbn; split_and!; (done || lia)). split.
  - destruct (malloc_allocates 3 20 [(100, 0)] ∅ demo_heap Hal ltac:(lia) ltac:(cbn; lia)) as (_ & r & s' & Hr & Hb & Hg).
    exists r, s'. split; [exact Hr|]. split; [|split; [exact Hb|exact Hg]].
    assert (fst <$> malloc 3 20 demo_heap = Some 5092) as E by (vm_compute; reflexivity). rewrite Hr in E. injection E as E. exact E.
  - destruct (malloc_allocates 3 (2 ^ 31 - 16) [(100, 0)] ∅ demo_heap Hal ltac:(lia) ltac:(cbn; lia)) as (_ & r & s' & Hr & -> & Hok & _).
    exists s'. split; [exact Hr|exact Hok].
Defined.

(** Beyond 2 GB the argument of [sbrk] is a negative [int]: the kernel reports
    success without growing the segment, and [malloc] returns a block that is
    not in it. *)
Example malloc_huge :
  match malloc 3 (2 ^ 31) demo_heap with
  | Some (r, s') => r <> 0 /\ brk s' = brk demo_heap /\ brk s' <= r
  | None => False
  end.
Proof. vm_compute. split_and!; congruence. Qed.

Definition demo_used : heap :=
  mkHeap {[100 := mkHeader 1000 0; 1000 := mkHeader 100 4092; 5092 := mkHeader 0 4]} 100 5096.
Lemma demo_used_ok : heap_ok [(100, 0); (1000, 4092)] {[5092 := 4]} demo_used.
Proof.
  assert (forall a w, ({[5092 := 4]} : gmap Z Z) !! a = Some w -> a = 5092 /\ w = 4) as HA by (by intros a w [<- <-]%lookup_singleton_Some).
  split; [split|..].
  - cbn. split; [lia|]. exists [(1000, 4092)]. split; [done|]. repeat constructor.
  - repeat constructor; unfold before; cbn; lia.
  - intros x [->|[->|Hx]%elem_of_cons]%elem_of_cons; [cbn; lia|cbn; lia|set_solver].
  - intros a w [-> ->]%HA. cbn. lia.
  - intros a w x [-> ->]%HA Hx. apply elem_of_cons in Hx as [->|[->|Hx]%elem_of_cons]; [left; cbn; lia|left; cbn; lia|set_solver].
  - intros a w a' w' [-> ->]%HA [-> ->]%HA. done.
  - repeat split.
  - cbn. set_solver.
  - intros a w [-> ->]%HA. eexists. split; reflexivity.
Qed.
Lemma ufree_releases_witness : exists F' s', ufree 2 5092 demo_used = Some s' /\ units F' = 4096 /\ heap_ok F' ∅ s'.
Proof.
  destruct (ufree_releases 2 _ _ demo_used 5092 4 demo_used_ok ltac:(reflexivity) ltac:(cbn; lia)) as (F' & s' & Hr & Hok & Hu & _).
  exists F', s'. split; [exact Hr|]. split; [rewrite Hu; reflexivity|]. rewrite delete_singleton_eq in Hok. exact Hok.
Defined.
