(* ===== verification/Sh.v ===== *)
(** * The shell ([user/sh.c])

    The recursive-descent parser over a line given as a list of bytes and
    positions in it, the pass that terminates the words, and the routine that
    runs a command by system calls.  A syntax error ends the shell process
    with a message ([inl]); every recursive call consumes fuel, and
    [parsecmd] has enough. *)
From S2P Require Import Prelude Console Ulib.
#[local] Open Scope user_scope.

Definition MAXARGS : nat := 10.
Definition O_WRONLY_CREATE : Z := 0x201.

(** A word of the line: its first position and the position after its last. *)
Definition token : Type := nat * nat.

(** [struct cmd] with its variants [execcmd], [redircmd], [pipecmd], [listcmd]
    and [backcmd]. *)
Inductive cmd :=
  | EXEC (argv : list token)
  | REDIR (c : cmd) (file : token) (mode fd : Z)
  | PIPE (left right : cmd)
  | LIST (left right : cmd)
  | BACK (c : cmd).

(** ** The lexer *)
Definition whitespace : list Z := [32; 9; 13; 10; 11].
Definition symbols : list Z := bytes "<|>&;()".

(** [strchr(set, c)] as a truth value; the user library's does not find the NUL. *)
Definition is_in (set : list Z) (c : Z) : bool := bool_decide (c ∈ set).

Section lexer.
Context (buf : list Z).

(** [*s]; the byte after the line is its NUL. *)
Definition at_ (s : nat) : Z := default 0 (buf !! s).

Fixpoint skip_while (f : Z -> bool) (n s : nat) : nat :=
  match n with
  | O => s
  | S n' => if f (at_ s) then skip_while f n' (S s) else s
  end.
Definition skip_space (es s : nat) : nat := skip_while (is_in whitespace) (es - s) s.

(** [gettoken]: the token, its extent, and the new position. *)
Definition gettoken (es s : nat) : Z * token * nat :=
  let s := skip_space es s in
  let c := at_ s in
  let '(tok, e) :=
    if c =? 0 then (c, s)
    else if bool_decide (c ∈ bytes "|();&<") then (c, S s)
    else if c =? 62 then (if at_ (S s) =? 62 then (43, S (S s)) else (c, S s))
    else (97, skip_while (fun c => negb (is_in whitespace c) && negb (is_in symbols c)) (es - s) s) in
  (tok, (s, e), skip_space es e).

(** [peek]: whether the next character is one of [toks], and the position. *)
Definition peek (es s : nat) (toks : list Z) : bool * nat :=
  let s := skip_space es s in
  (negb (at_ s =? 0) && is_in toks (at_ s), s).

(** ** The parser: [inl] is a syntax error with the text printed, or [None] for
    exhausted fuel. *)
Definition perror : Type := option (list Z).
Definition panic_ (msg : string) : perror := Some (bytes msg ++ [10]).
Definition presult (A : Type) : Type := (perror + A)%type.
Definition pbind {A B} (m : presult A) (f : A -> presult B) : presult B :=
  match m with inl e => inl e | inr a => f a end.
Notation "'let!' p ':=' m 'in' k" := (pbind m (fun p => k)) (at level 100, p pattern, m at next level, k at level 200).

(** The redirections at [s], in order, at most [n]. *)
Fixpoint parseredirs (n : nat) (es s : nat) (c : cmd) : presult (cmd * nat) :=
  let '(b, s) := peek es s (bytes "<>") in
  if negb b then inr (c, s) else
  let '(tok, _, s) := gettoken es s in
  let '(tok2, w, s) := gettoken es s in
  if negb (tok2 =? 97) then inl (panic_ "missing file for redirection") else
  let c := if tok =? 60 then REDIR c w 0 0 else REDIR c w O_WRONLY_CREATE 1 in
  match n with
  | O => inl None
  | S n' => parseredirs n' es s c
  end.

(** The redirections wrap the command whose arguments are still being read:
    [wrap] holds them, and is applied to the command at the end. *)
Fixpoint redirs_list (n : nat) (es s : nat) : presult (list (token * Z * Z) * nat) :=
  let '(b, s) := peek es s (bytes "<>") in
  if negb b then inr ([], s) else
  let '(tok, _, s) := gettoken es s in
  let '(tok2, w, s) := gettoken es s in
  if negb (tok2 =? 97) then inl (panic_ "missing file for redirection") else
  let r := if tok =? 60 then (w, 0, 0) else (w, O_WRONLY_CREATE, 1) in
  match n with
  | O => inl None
  | S n' => let! (l, s) := redirs_list n' es s in inr (r :: l, s)
  end.
Definition wrap (c : cmd) (l : list (token * Z * Z)) : cmd :=
  fold_left (fun c '(w, mode, fd) => REDIR c w mode fd) l c.

(** The loop of [parseexec]: the arguments and the redirections among them. *)
Fixpoint parse_args (n : nat) (es s : nat) (argv : list token) (rs : list (token * Z * Z)) : presult (cmd * nat) :=
  let '(b, s) := peek es s (bytes "|)&;") in
  if b then inr (wrap (EXEC argv) rs, s) else
  let '(tok, w, s) := gettoken es s in
  if tok =? 0 then inr (wrap (EXEC argv) rs, s) else
  if negb (tok =? 97) then inl (panic_ "syntax") else
  let argv := argv ++ [w] in
  if (MAXARGS <=? length argv)%nat then inl (panic_ "too many args") else
  let! (l, s) := redirs_list n es s in
  match n with
  | O => inl None
  | S n' => parse_args n' es s argv (rs ++ l)
  end.

(** The loop of [parseline] on [&]. *)
Fixpoint parse_backs (n : nat) (es s : nat) (c : cmd) : presult (cmd * nat) :=
  let '(b, s) := peek es s (bytes "&") in
  if negb b then inr (c, s) else
  let '(_, _, s) := gettoken es s in
  match n with
  | O => inl None
  | S n' => parse_backs n' es s (BACK c)
  end.

Fixpoint parseline (n : nat) (es s : nat) : presult (cmd * nat) :=
  match n with
  | O => inl None
  | S n' =>
      let! (c, s) := parsepipe n' es s in
      let! (c, s) := parse_backs n' es s c in
      let '(b, s) := peek es s (bytes ";") in
      if negb b then inr (c, s) else
      let '(_, _, s) := gettoken es s in
      let! (c2, s) := parseline n' es s in
      inr (LIST c c2, s)
  end
with parsepipe (n : nat) (es s : nat) : presult (cmd * nat) :=
  match n with
  | O => inl None
  | S n' =>
      let! (c, s) := parseexec n' es s in
      let '(b, s) := peek es s (bytes "|") in
      if negb b then inr (c, s) else
      let '(_, _, s) := gettoken es s in
      let! (c2, s) := parsepipe n' es s in
      inr (PIPE c c2, s)
  end
with parseexec (n : nat) (es s : nat) : presult (cmd * nat) :=
  match n with
  | O => inl None
  | S n' =>
      let '(b, s) := peek es s (bytes "(") in
      if b then parseblock n' es s else
      let! (rs, s) := redirs_list n' es s in
      parse_args n' es s [] rs
  end
with parseblock (n : nat) (es s : nat) : presult (cmd * nat) :=
  match n with
  | O => inl None
  | S n' =>
      let '(b, s) := peek es s (bytes "(") in
      if negb b then inl (panic_ "parseblock") else
      let '(_, _, s) := gettoken es s in
      let! (c, s) := parseline n' es s in
      let '(b, s) := peek es s (bytes ")") in
      if negb b then inl (panic_ "syntax - missing )") else
      let '(_, _, s) := gettoken es s in
      parseredirs n' es s c
  end.

(** Four calls at most are nested between two positions of the line. *)
Definition parse_fuel (es : nat) : nat := 4 * es + 5.

(** The command, before [nulterminate]. *)
Definition parsecmd : presult cmd :=
  let es := length buf in
  let! (c, s) := parseline (parse_fuel es) es 0 in
  let '(_, s) := peek es s [] in
  if negb (s =? es)%nat then inl (Some (bytes "leftovers: " ++ drop s buf ++ [10] ++ bytes "syntax" ++ [10])) else inr c.

End lexer.

(** ** [nulterminate]: a NUL is stored after every word of the command. *)
Fixpoint nulterminate (c : cmd) (buf : list Z) : list Z :=
  match c with
  | EXEC argv => fold_left (fun b w => <[w.2 := 0]> b) argv buf
  | REDIR c w _ _ => <[w.2 := 0]> (nulterminate c buf)
  | PIPE l r => nulterminate r (nulterminate l buf)
  | LIST l r => nulterminate r (nulterminate l buf)
  | BACK c => nulterminate c buf
  end.

(** The C string at a position of the line. *)
Definition str_at (buf : list Z) (q : nat) : list Z := cstr (drop q buf).

(** ** Running a command *)
Section run.
Context (buf : list Z).

Definition die (msg : list Z) : uprog unit := printf 2 (bytes "%s" ++ [10]) [AStr (Some msg)] ~;; UExit.
Definition fork1 : uprog Z :=
  r <~ ucall_ UFork ;;
  if r_val r =? -1 then die (bytes "fork") ~;; UExit else URet (r_val r).

(** [runcmd] never returns. *)
Fixpoint runcmd (c : cmd) : uprog unit :=
  match c with
  | EXEC argv =>
      match argv with
      | [] => UExit
      | w :: _ =>
          ucall_ (UExec (str_at buf w.1) ((fun w : token => str_at buf w.1) <$> argv)) ~;;
          printf 2 (bytes "exec %s failed" ++ [10]) [AStr (Some (str_at buf w.1))] ~;;
          UExit
      end
  | REDIR c file mode fd =>
      ucall_ (UClose fd) ~;;
      r <~ ucall_ (UOpen (str_at buf file.1) mode) ;;
      if r_val r <? 0 then
        printf 2 (bytes "open %s failed" ++ [10]) [AStr (Some (str_at buf file.1))] ~;; UExit
      else runcmd c ~;; UExit
  | LIST l r =>
      i <~ fork1 ;;
      (if i =? 0 then runcmd l else URet tt) ~;;
      ucall_ UWait ~;;
      runcmd r ~;; UExit
  | PIPE l r =>
      pr <~ ucall_ UPipe ;;
      if r_val pr <? 0 then die (bytes "pipe") else
      let p0 := fst (r_fds pr) in
      let p1 := snd (r_fds pr) in
      i <~ fork1 ;;
      (if i =? 0 then
         ucall_ (UClose 1) ~;; ucall_ (UDup p1) ~;; ucall_ (UClose p0) ~;; ucall_ (UClose p1) ~;; runcmd l
       else URet tt) ~;;
      j <~ fork1 ;;
      (if j =? 0 then
         ucall_ (UClose 0) ~;; ucall_ (UDup p0) ~;; ucall_ (UClose p0) ~;; ucall_ (UClose p1) ~;; runcmd r
       else URet tt) ~;;
      ucall_ (UClose p0) ~;;
      ucall_ (UClose p1) ~;;
      ucall_ UWait ~;;
      ucall_ UWait ~;;
      UExit
  | BACK c =>
      i <~ fork1 ;;
      (if i =? 0 then runcmd c else URet tt) ~;;
      UExit
  end.

End run.

(** ** Reading commands *)
(** [getcmd]: the line, or [None] at the end of the input. *)
Definition getcmd (nbuf : Z) : uprog (option (list Z)) :=
  printf 2 (bytes "$ ") [] ~;;
  l <~ gets nbuf ;;
  URet (if default 0 (head l) =? 0 then None else Some (cstr l)).

(** [while((fd = open("console", O_RDWR)) >= 0)]: at most four files are opened. *)
Fixpoint open_console (n : nat) : uprog unit :=
  r <~ ucall_ (UOpen (bytes "console") 2) ;;
  if r_val r <? 0 then URet tt
  else if 3 <=? r_val r then ucall_ (UClose (r_val r)) ~;; URet tt
  else match n with O => UFuel | S n' => open_console n' end.

(** The main loop, for at most [n] commands. *)
Fixpoint sh_loop (n : nat) : uprog unit :=
  match n with
  | O => UFuel
  | S n' =>
      o <~ getcmd 100 ;;
      match o with
      | None => UExit
      | Some l =>
          if bool_decide (take 3 l = bytes "cd ") then
            let dir := drop 3 (take (length l - 1) l) in
            r <~ ucall_ (UChdir dir) ;;
            (if r_val r <? 0 then printf 2 (bytes "cannot cd %s" ++ [10]) [AStr (Some dir)] else URet tt) ~;;
            sh_loop n'
          else
            i <~ fork1 ;;
            (if i =? 0 then
               match parsecmd l with
               | inr c => runcmd (nulterminate c (l ++ [0])) c
               | inl (Some e) => puts 2 e ~;; UExit
               | inl None => UFuel
               end
             else URet tt) ~;;
            ucall_ UWait ~;;
            sh_loop n'
      end
  end.
Definition sh_main (n : nat) : uprog unit :=
  open_console 3 ~;;
  sh_loop n.

(** ** The lexer makes progress *)
Section lexing.
Context (buf : list Z).
#[local] Abbreviation es := (length buf).
#[local] Abbreviation at_ := (at_ buf).
Implicit Types (s n : nat) (w : token) (c : cmd).

Lemma at_nonzero s : at_ s <> 0 -> (s < es)%nat.
Proof.
  unfold Sh.at_. intros Hs. destruct (buf !! s) as [v|] eqn:E; [|done]. by apply lookup_lt_Some in E.
Qed.

Lemma skip_while_bounds f n : forall s, (s <= skip_while buf f n s <= s + n)%nat.
Proof.
  induction n as [|n IH]; intros s; cbn [skip_while]; [lia|]. destruct (f _); [|lia]. specialize (IH (S s)). lia.
Qed.

(** All bytes skipped satisfy [f], and the loop stops at one that does not or at its bound. *)
Lemma skip_while_inside f n : forall s i,
  (s <= i < skip_while buf f n s)%nat -> f (at_ i) = true.
Proof.
  induction n as [|n IH]; intros s i; cbn [skip_while]; [lia|]. destruct (f (at_ s)) eqn:E; [|lia].
  intros Hi. destruct (decide (i = s)) as [->|]; [done|]. apply (IH (S s)). lia.
Qed.

Lemma skip_while_stop f n : forall s,
  skip_while buf f n s = (s + n)%nat \/ f (at_ (skip_while buf f n s)) = false.
Proof.
  induction n as [|n IH]; intros s; cbn [skip_while]; [left; lia|]. destruct (f (at_ s)) eqn:E; [|by right].
  destruct (IH (S s)) as [->|?]; [left; lia|by right].
Qed.

Lemma skip_space_bounds s : (s <= es)%nat -> (s <= skip_space buf es s <= es)%nat.
Proof. intros Hs. pose proof (skip_while_bounds (is_in whitespace) (es - s) s). unfold skip_space. lia. Qed.

Lemma skip_space_stop s : (s <= es)%nat -> at_ (skip_space buf es s) <> 0 -> is_in whitespace (at_ (skip_space buf es s)) = false.
Proof.
  intros Hs Hn%at_nonzero. destruct (skip_while_stop (is_in whitespace) (es - s) s) as [E|E]; [|done].
  unfold skip_space in Hn. lia.
Qed.

Definition separator (c : Z) : bool := is_in whitespace c || is_in symbols c.

(** A word: bytes that separate nothing, followed by a separator or the end. *)
Record word_ok w : Prop := {
  wo_range : (w.1 < w.2 <= es)%nat;
  wo_inside : forall i, (w.1 <= i < w.2)%nat -> separator (at_ i) = false;
  wo_end : w.2 = es \/ separator (at_ w.2) = true }.

Lemma symbol_cases (c : Z) : is_in symbols c = true -> c ∈ bytes "|();&<" \/ c = 62.
Proof.
  unfold is_in. rewrite bool_decide_eq_true. change (bytes "|();&<") with [124; 40; 41; 59; 38; 60].
  change symbols with [60; 124; 62; 38; 59; 40; 41]. rewrite !elem_of_cons. tauto.
Qed.

Lemma word_not_symbol : 97 ∉ bytes "|();&<".
Proof. apply (bool_decide_unpack _). by vm_compute. Qed.

Lemma gettoken_spec s tok w s' :
  (s <= es)%nat -> gettoken buf es s = (tok, w, s') ->
  (s <= s' <= es)%nat /\ (at_ (skip_space buf es s) <> 0 -> (s < s')%nat) /\ (tok <> 0 -> at_ (skip_space buf es s) <> 0) /\
  (tok = 97 -> word_ok w).
Proof.
  intros Hs. unfold gettoken. pose proof (skip_space_bounds s Hs) as Hb. pose proof (skip_space_stop s Hs) as Hst.
  set (p := skip_space buf es s) in *. set (c := at_ p) in *.
  assert (c <> 0 -> (p < es)%nat) as Hp by apply at_nonzero.
  assert (forall e, (p <= e <= es)%nat -> (s <= skip_space buf es e <= es /\ e <= skip_space buf es e)%nat) as Hsk.
  { intros e He. pose proof (skip_space_bounds e). lia. }
  destruct (Z.eqb_spec c 0) as [E0|E0].
  { intros [= <- <- <-]. pose proof (Hsk p). split; [lia|]. split; [done|]. split; [done|]. intros E. rewrite E in E0. done. }
  specialize (Hp E0).
  case_bool_decide as Hin.
  { intros [= <- <- <-]. pose proof (Hsk (S p)). split; [lia|]. split; [lia|]. split; [done|]. intros Ea. rewrite Ea in Hin. by apply word_not_symbol in Hin. }
  destruct (Z.eqb_spec c 62) as [E62|E62].
  { destruct (Z.eqb_spec (at_ (S p)) 62) as [E|E]; intros [= <- <- <-].
    - assert (S p < es)%nat by (apply at_nonzero; rewrite E; lia). pose proof (Hsk (S (S p))). split; [lia|]. split; [lia|]. by split.
    - pose proof (Hsk (S p)). split; [lia|]. split; [lia|]. split; [done|]. intros Ea. rewrite Ea in E62. done. }
  intros [= <- <- <-]. set (f := fun c : Z => negb (is_in whitespace c) && negb (is_in symbols c)).
  assert (forall c : Z, f c = negb (separator c)) as Hf by (intros; unfold f, separator; by rewrite negb_orb).
  set (e := skip_while buf f (es - p) p). pose proof (skip_while_bounds f (es - p) p) as He. fold e in He.
  assert (f c = true) as Hfc.
  { unfold f. rewrite Hst by done. destruct (is_in symbols c) eqn:Es; [|done]. by apply symbol_cases in Es as [?|?]. }
  assert (p < e)%nat as Hpe.
  { unfold e. replace (es - p)%nat with (S (es - p - 1)) by lia. cbn [skip_while]. fold c. rewrite Hfc.
    pose proof (skip_while_bounds f (es - p - 1) (S p)). lia. }
  pose proof (Hsk e). split; [lia|]. split; [lia|]. split; [done|]. intros _. split; cbn.
  - lia.
  - intros i Hi. pose proof (skip_while_inside f (es - p) p i Hi) as Hi'. rewrite Hf in Hi'. by destruct (separator _).
  - destruct (skip_while_stop f (es - p) p) as [E|E]; fold e in E; [left; lia|]. right. rewrite Hf in E. by destruct (separator _).
Qed.

Lemma peek_spec s toks b s' :
  (s <= es)%nat -> peek buf es s toks = (b, s') ->
  (s <= s' <= es)%nat /\ (b = true -> at_ (skip_space buf es s') <> 0) /\ s' = skip_space buf es s.
Proof.
  intros Hs. unfold peek. intros [= <- <-]. pose proof (skip_space_bounds s Hs) as Hb. split; [done|]. split; [|done].
  intros [Hn%negb_true_iff%Z.eqb_neq _]%andb_prop. pose proof (skip_space_stop s Hs Hn) as Hw.
  assert (skip_space buf es (skip_space buf es s) = skip_space buf es s) as ->; [|done].
  unfold skip_space at 1. destruct (es - skip_space buf es s)%nat; [done|]. cbn [skip_while]. by rewrite Hw.
Qed.

(** ** The parser returns *)
(** A parse from [s] that does not run out of fuel, ends at a position of the
    line not before [s], and yields a result satisfying [P]. *)
Definition good {A} (P : A -> Prop) (s : nat) (r : presult (A * nat)) : Prop :=
  match r with
  | inl None => False
  | inl (Some _) => True
  | inr (a, s') => (s <= s' <= es)%nat /\ P a
  end.

Lemma good_bind {A B} (P : A -> Prop) (Q : B -> Prop) s (m : presult (A * nat)) (k : A * nat -> presult (B * nat)) :
  good P s m ->
  (forall a s', (s <= s' <= es)%nat -> P a -> good Q s (k (a, s'))) ->
  good Q s (pbind m k).
Proof. destruct m as [[?|]|[a s']]; cbn; [done|done|]. intros [??] Hk. by apply Hk. Qed.

Lemma good_weaken {A} (P : A -> Prop) s s' (r : presult (A * nat)) : (s <= s')%nat -> good P s' r -> good P s r.
Proof. destruct r as [[?|]|[a e]]; cbn; [done|done|]. intros ? [? ?]. split; [lia|done]. Qed.

(** The words of a command. *)
Fixpoint cmd_words (c : cmd) : list token :=
  match c with
  | EXEC argv => argv
  | REDIR c w _ _ => w :: cmd_words c
  | PIPE l r | LIST l r => cmd_words l ++ cmd_words r
  | BACK c => cmd_words c
  end.
Definition cmd_ok c : Prop := Forall word_ok (cmd_words c).
Definition redir_ok (r : token * Z * Z) : Prop := word_ok r.1.1.

Lemma cmd_ok_wrap l : forall c, cmd_ok c -> Forall redir_ok l -> cmd_ok (wrap c l).
Proof.
  induction l as [|[[w m] fd] l IH]; intros c Hc Hl; [done|]. apply Forall_cons in Hl as [??].
  apply (IH (REDIR c w m fd)); [|done]. by constructor.
Qed.

(** One look at the next character, one token read: the facts of [peek_spec]
    and [gettoken_spec], with the progress made when a token is known there. *)
Ltac take_peek b p :=
  match goal with |- context [peek buf es ?s ?t] =>
    destruct (peek buf es s t) as [b p] eqn:?E;
    apply peek_spec in E as (?Hp & ?Hb & _); [|lia]
  end.
Ltac take_token tok w q :=
  match goal with |- context [gettoken buf es ?s] =>
    destruct (gettoken buf es s) as [[tok w] q] eqn:?E;
    apply gettoken_spec in E as (?Hq & ?Hlt & ?Ht & ?Hw); [|lia]
  end.
Ltac progress_made :=
  repeat match goal with
  | H : true = true -> _ |- _ => specialize (H eq_refl)
  | H : 97 <> 0 -> _ |- _ => specialize (H ltac:(done))
  | H : 97 = 97 -> _ |- _ => specialize (H eq_refl)
  | H : ?x <> 0, H' : ?x <> 0 -> _ |- _ => specialize (H' H)
  end.

Lemma parseredirs_good n : forall s c, (s <= es)%nat -> (es - s <= n)%nat -> cmd_ok c ->
  good cmd_ok s (parseredirs buf n es s c).
Proof.
  induction n as [|n IH]; intros s c Hs Hn Hc; cbn [parseredirs]; take_peek b p.
  all: destruct b; cbn [negb]; [|split; [lia|done]].
  all: take_token tok w1 q.
  all: take_token tok2 w q'.
  all: destruct (Z.eqb_spec tok2 97) as [->|]; cbn [negb]; [|done].
  all: progress_made.
  - lia.
  - apply (good_weaken _ _ q'); [lia|]. apply IH; [lia|lia|]. destruct (tok =? 60); constructor; auto.
Qed.

Lemma redirs_list_good n : forall s, (s <= es)%nat -> (es - s <= n)%nat ->
  good (Forall redir_ok) s (redirs_list buf n es s).
Proof.
  induction n as [|n IH]; intros s Hs Hn; cbn [redirs_list]; take_peek b p.
  all: destruct b; cbn [negb]; [|split; [lia|done]].
  all: take_token tok w1 q.
  all: take_token tok2 w q'.
  all: destruct (Z.eqb_spec tok2 97) as [->|]; cbn [negb]; [|done].
  all: progress_made.
  - lia.
  - apply (good_weaken _ _ q'); [lia|]. eapply good_bind; [apply IH; lia|]. intros l e He Hl. split; [lia|].
    constructor; [|done]. destruct (tok =? 60); auto.
Qed.

Lemma parse_args_good n : forall s argv rs, (s <= es)%nat -> (es - s <= n)%nat -> Forall word_ok argv -> Forall redir_ok rs ->
  good cmd_ok s (parse_args buf n es s argv rs).
Proof.
  induction n as [|n IH]; intros s argv rs Hs Hn Ha Hr; cbn [parse_args]; take_peek b p.
  all: destruct b; [split; [lia|by apply cmd_ok_wrap]|].
  all: take_token tok w q.
  all: destruct (Z.eqb_spec tok 0) as [->|]; [split; [lia|by apply cmd_ok_wrap]|].
  all: destruct (Z.eqb_spec tok 97) as [->|]; cbn [negb]; [|done].
  all: destruct (Nat.leb _ _); [done|]; progress_made; apply (good_weaken _ _ q); [lia|].
  - lia.
  - eapply good_bind; [apply redirs_list_good; lia|]. intros l e He Hl. apply (good_weaken _ _ e); [lia|].
    apply IH; [lia|lia| |by apply Forall_app]. apply Forall_app; split; [done|]. by apply Forall_singleton.
Qed.

Lemma parse_backs_good n : forall s c, (s <= es)%nat -> (es - s <= n)%nat -> cmd_ok c ->
  good cmd_ok s (parse_backs buf n es s c).
Proof.
  induction n as [|n IH]; intros s c Hs Hn Hc; cbn [parse_backs]; take_peek b p.
  all: destruct b; cbn [negb]; [|split; [lia|done]].
  all: take_token tok w1 q.
  all: progress_made.
  - lia.
  - apply (good_weaken _ _ q); [lia|]. apply IH; [lia|lia|done].
Qed.

(** The four mutually recursive routines, each with the fuel it needs for the
    rest of the line. *)
Definition parsers_good n : Prop := forall s, (s <= es)%nat ->
  ((4 * (es - s) + 4 <= n)%nat -> good cmd_ok s (parseline buf n es s)) /\
  ((4 * (es - s) + 3 <= n)%nat -> good cmd_ok s (parsepipe buf n es s)) /\
  ((4 * (es - s) + 2 <= n)%nat -> good cmd_ok s (parseexec buf n es s)) /\
  ((4 * (es - s) + 1 <= n)%nat -> good cmd_ok s (parseblock buf n es s)).

Lemma parseline_good n : parsers_good n -> forall s, (s <= es)%nat -> (4 * (es - s) + 4 <= S n)%nat ->
  good cmd_ok s (parseline buf (S n) es s).
Proof.
  intros IH s Hs Hn. cbn [parseline]. eapply good_bind; [by apply IH; lia|]. intros c e He Hc.
  apply (good_weaken _ _ e); [lia|]. eapply good_bind; [apply parse_backs_good; [lia|lia|done]|]. intros c1 e1 He1 Hc1.
  cbn beta iota. take_peek b p. destruct b; cbn [negb]; [|split; [lia|done]]. take_token tok w q. progress_made.
  apply (good_weaken _ _ q); [lia|]. eapply good_bind; [by apply IH; lia|]. intros c2 e2 He2 Hc2.
  split; [lia|]. by apply Forall_app.
Qed.

Lemma parsepipe_good n : parsers_good n -> forall s, (s <= es)%nat -> (4 * (es - s) + 3 <= S n)%nat ->
  good cmd_ok s (parsepipe buf (S n) es s).
Proof.
  intros IH s Hs Hn. cbn [parsepipe]. eapply good_bind; [by apply IH; lia|]. intros c e He Hc.
  apply (good_weaken _ _ e); [lia|].
  cbn beta iota. take_peek b p. destruct b; cbn [negb]; [|split; [lia|done]]. take_token tok w q. progress_made.
  apply (good_weaken _ _ q); [lia|]. eapply good_bind; [by apply IH; lia|]. intros c2 e2 He2 Hc2.
  split; [lia|]. by apply Forall_app.
Qed.

Lemma parseexec_good n : parsers_good n -> forall s, (s <= es)%nat -> (4 * (es - s) + 2 <= S n)%nat ->
  good cmd_ok s (parseexec buf (S n) es s).
Proof.
  intros IH s Hs Hn. cbn [parseexec]. take_peek b p. apply (good_weaken _ _ p); [lia|]. destruct b; [by apply IH; lia|].
  eapply good_bind; [apply redirs_list_good; lia|]. intros rs e He Hr.
  apply (good_weaken _ _ e); [lia|]. apply parse_args_good; [lia|lia|constructor|done].
Qed.

Lemma parseblock_good n : parsers_good n -> forall s, (s <= es)%nat -> (4 * (es - s) + 1 <= S n)%nat ->
  good cmd_ok s (parseblock buf (S n) es s).
Proof.
  intros IH s Hs Hn. cbn [parseblock]. take_peek b p. destruct b; cbn [negb]; [|done]. take_token tok w q. progress_made.
  apply (good_weaken _ _ q); [lia|]. eapply good_bind; [by apply IH; lia|]. intros c e He Hc.
  cbn beta iota. take_peek b2 p2. destruct b2; cbn [negb]; [|done]. take_token tok2 w2 q2.
  apply (good_weaken _ _ q2); [lia|]. apply parseredirs_good; [lia|lia|done].
Qed.

Lemma parsers_good_all n : parsers_good n.
Proof.
  induction n as [|n IH]; intros s Hs; [lia|].
  split; [by apply parseline_good|]. split; [by apply parsepipe_good|]. split; [by apply parseexec_good|]. by apply parseblock_good.
Qed.

Lemma parsecmd_good : match parsecmd buf with inl None => False | inl _ => True | inr c => cmd_ok c end.
Proof.
  unfold parsecmd, parse_fuel. destruct (parsers_good_all (4 * es + 5) 0%nat ltac:(lia)) as [H _]. specialize (H ltac:(lia)).
  destruct (parseline buf _ es 0%nat) as [[?|]|[c e]]; cbn in *; [done|done|]. destruct (negb _); [done|]. by destruct H.
Qed.

End lexing.

(** C23: the recursive-descent parser of the shell ends on every line: [parsecmd],
    with fuel linear in the length of the line, returns a command or a syntax
    error with its message, and never runs out of fuel. *)
Theorem parsecmd_total buf : parsecmd buf <> inl None.
Proof. pose proof (parsecmd_good buf) as H. intros E. by rewrite E in H. Qed.


(** ** The words of a command *)
Section words.
Implicit Types (buf b : list Z) (i k : nat) (w : token) (c : cmd).

Lemma cstr_take b : forall k,
  (forall i, (i < k)%nat -> exists v, b !! i = Some v /\ v <> 0) -> b !! k = Some 0 -> cstr b = take k b.
Proof.
  induction b as [|v b IH]; intros k Hk H0; [done|]. destruct k as [|k]; cbn; [by injection H0 as ->|].
  destruct (Hk 0%nat ltac:(lia)) as (v' & [= ->] & Hv). destruct (Z.eqb_spec v' 0) as [?|_]; [done|]. f_equal. apply IH; [|done].
  intros i Hi. apply (Hk (S i)). lia.
Qed.

(** The store of a NUL at a position of the buffer. *)
Definition marked (l : list nat) (i : nat) (o : option Z) : option Z :=
  if bool_decide (i ∈ l) then (fun _ => 0) <$> o else o.

Lemma marked_insert b i k : (<[k := 0]> b : list Z) !! i = marked [k] i (b !! i).
Proof.
  unfold marked. case_bool_decide as H.
  - apply list_elem_of_singleton in H as ->. destruct (b !! k) eqn:E; cbn.
    + apply list_lookup_insert_eq. by eapply lookup_lt_Some.
    + apply lookup_ge_None. rewrite length_insert. by apply lookup_ge_None.
  - apply list_lookup_insert_ne. intros ->. apply H. by constructor.
Qed.

Lemma marked_app l1 l2 i o : marked l2 i (marked l1 i o) = marked (l1 ++ l2) i o.
Proof.
  unfold marked. rewrite (bool_decide_ext (i ∈ l1 ++ l2) (i ∈ l1 \/ i ∈ l2)) by apply elem_of_app.
  destruct o; repeat case_bool_decide; cbn; tauto || naive_solver.
Qed.

Lemma marked_perm l1 l2 i o : (forall k, k ∈ l1 <-> k ∈ l2) -> marked l1 i o = marked l2 i o.
Proof. intros H. unfold marked. by rewrite (bool_decide_ext _ _ (H i)). Qed.

(** [nulterminate] stores a NUL at the end of every word and nowhere else. *)
Lemma nulterminate_lookup c : forall b i,
  nulterminate c b !! i = marked (snd <$> cmd_words c) i (b !! i).
Proof.
  induction c as [argv|c IH w m fd|l IHl r IHr|l IHl r IHr|c IH]; intros b i; cbn [nulterminate cmd_words].
  - revert b. induction argv as [|w l IH]; intros b; cbn; [done|]. rewrite IH, marked_insert. apply marked_app.
  - rewrite marked_insert, IH, marked_app. apply marked_perm. intros k. cbn. set_solver.
  - rewrite IHr, IHl, marked_app. by rewrite fmap_app.
  - rewrite IHr, IHl, marked_app. by rewrite fmap_app.
  - apply IH.
Qed.

(** No word ends inside another. *)
Lemma word_ends_outside buf w w' : word_ok buf w -> word_ok buf w' -> ~ (w.1 <= w'.2 < w.2)%nat.
Proof.
  intros Hw Hw' Hi. destruct (wo_end _ _ Hw') as [E|E]; [pose proof (wo_range _ _ Hw); lia|].
  by rewrite (wo_inside _ _ Hw) in E by done.
Qed.

Lemma terminated_word buf c w :
  0 ∉ buf -> cmd_ok buf c -> w ∈ cmd_words c ->
  str_at (nulterminate c (buf ++ [0])) w.1 = take (w.2 - w.1) (drop w.1 buf).
Proof.
  intros H0 Hc Hw. unfold cmd_ok in Hc. rewrite Forall_forall in Hc. pose proof (wo_range _ _ (Hc _ Hw)) as Hr.
  assert (forall i, (w.1 <= i < w.2)%nat -> nulterminate c (buf ++ [0]) !! i = buf !! i) as Hin.
  { intros i Hi. rewrite nulterminate_lookup. unfold marked. rewrite bool_decide_false, lookup_app_l; [done|lia|].
    intros (w' & -> & Hw')%list_elem_of_fmap. by apply (word_ends_outside buf w w'); auto. }
  unfold str_at. rewrite (cstr_take _ (w.2 - w.1)).
  - apply list_eq. intros i. destruct (decide (i < w.2 - w.1)%nat) as [Hi|Hi].
    + rewrite !lookup_take_lt, !lookup_drop by done. apply Hin. lia.
    + rewrite !lookup_take_ge by lia. done.
  - intros i Hi. rewrite lookup_drop, Hin by lia. destruct (lookup_lt_is_Some_2 buf (w.1 + i)) as [v Hv]; [lia|].
    exists v. split; [done|]. intros ->. apply H0. by eapply list_elem_of_lookup_2.
  - rewrite lookup_drop, nulterminate_lookup. replace (w.1 + (w.2 - w.1))%nat with w.2 by lia. unfold marked.
    rewrite bool_decide_true by (apply list_elem_of_fmap; eauto).
    destruct (lookup_lt_is_Some_2 (buf ++ [0]) w.2) as [v ->]; [rewrite length_app; cbn; lia|done].
Qed.

(** C31: after a line without NUL bytes is parsed and terminated in place, every
    word of the command (each argument and each file of a redirection), read as
    a C string from its first byte, is the text the word has in the line: the
    NULs stored after the words never cut another word short. *)
Theorem nulterminate_words buf c w :
  0 ∉ buf -> parsecmd buf = inr c -> w ∈ cmd_words c ->
  str_at (nulterminate c (buf ++ [0])) w.1 = take (w.2 - w.1) (drop w.1 buf).
Proof. intros H0 E. apply terminated_word; [done|]. pose proof (parsecmd_good buf) as H. by rewrite E in H. Qed.

Definition example_line : list Z := bytes "cat<in|wc -l>>out;(ls a&)>b".
Definition example_cmd : cmd :=
  LIST (PIPE (REDIR (EXEC [(0, 3)%nat]) (4, 6)%nat 0 0)
             (REDIR (EXEC [(7, 9)%nat; (10, 12)%nat]) (14, 17)%nat O_WRONLY_CREATE 1))
       (REDIR (BACK (EXEC [(19, 21)%nat; (22, 23)%nat])) (26, 27)%nat O_WRONLY_CREATE 1).
Lemma nulterminate_words_witness :
  parsecmd example_line = inr example_cmd /\
  str_at (nulterminate example_cmd (example_line ++ [0])) 14 = bytes "out".
Proof.
  split; [by vm_compute|].
  apply (nulterminate_words example_line example_cmd (14, 17)%nat).
  - apply (bool_decide_unpack _). by vm_compute.
  - by vm_compute.
  - apply (bool_decide_unpack _). by vm_compute.
Defined.

End words.
