(* ===== verification/Grep.v ===== *)
(** * grep ([user/grep.c])

    The regular expression matcher, on expressions and text given as lists of
    bytes without the terminating NUL, and the loop that reads a file through
    a buffer of 1024 bytes.  The theorems say that [match_] decides the
    language of the expression, defined by induction on its syntax. *)
From S2P Require Import Prelude Console Ulib.
#[local] Open Scope user_scope.

(** ** The matcher *)
Definition star : Z := 42.
Definition dollar : Z := 36.
Definition period : Z := 46.
Definition caret : Z := 94.

(** [re[0]=='.' || re[0]==c]. *)
Definition one (r c : Z) : bool := (r =? period) || (r =? c).

(** [matchstar] with the continuation [here] that matches the rest. *)
Fixpoint matchstar (here : list Z -> bool) (c : Z) (text : list Z) : bool :=
  here text ||
  match text with
  | [] => false
  | t :: text' => if (t =? c) || (c =? period) then matchstar here c text' else false
  end.

(** [matchhere]: the recursion is on the expression. *)
Fixpoint matchhere (re : list Z) (text : list Z) : bool :=
  match re with
  | [] => true
  | r :: re' =>
      match re' with
      | s :: re'' =>
          if s =? star then matchstar (matchhere re'') r text
          else match text with t :: text' => if one r t then matchhere re' text' else false | [] => false end
      | [] =>
          if r =? dollar then bool_decide (text = [])
          else match text with t :: text' => if one r t then matchhere re' text' else false | [] => false end
      end
  end.

(** The [do]-[while] loop of [match]. *)
Fixpoint match_any (re text : list Z) : bool :=
  matchhere re text || match text with [] => false | _ :: text' => match_any re text' end.
Definition match_ (re text : list Z) : bool :=
  match re with
  | r :: re' => if r =? caret then matchhere re' text else match_any re text
  | [] => match_any re text
  end.

(** ** The loop over the input *)
(** The lines of the buffer from [p] on are matched and printed; the rest of
    the buffer is returned. *)
Fixpoint lines (n : nat) (pattern p : list Z) : uprog (list Z) :=
  match strchr (cstr p) 10 with
  | None => URet p
  | Some q =>
      (if match_ pattern (cstr (take q p)) then ucall_ (UWrite 1 (take (S q) p)) ~;; URet tt else URet tt) ~;;
      match n with
      | O => UFuel
      | S n' => lines n' pattern (drop (S q) p)
      end
  end.

(** [grep]: [m] bytes of an incomplete line are in the buffer.  When the
    buffer has no newline it is discarded ([if(p == buf) m = 0;]). *)
Definition BUFSIZE : Z := 1024.
Fixpoint grep_loop (n : nat) (pattern : list Z) (fd : Z) (rest : list Z) : uprog unit :=
  r <~ ucall_ (URead fd (BUFSIZE - Z.of_nat (length rest) - 1)) ;;
  if r_val r <=? 0 then URet tt else
  let buf := rest ++ r_data r in
  p <~ lines (length buf) pattern buf ;;
  let rest := if (length p =? length buf)%nat then [] else p in
  match n with
  | O => UFuel
  | S n' => grep_loop n' pattern fd rest
  end.

(** The loop of [main] over the files. *)
Fixpoint grep_files (n : nat) (pattern : list Z) (files : list (list Z)) : uprog unit :=
  match files with
  | [] => UExit
  | f :: files' =>
      r <~ ucall_ (UOpen f 0) ;;
      if r_val r <? 0 then
        printf 1 (bytes "grep: cannot open %s" ++ [10]) [AStr (Some f)] ~;; UExit
      else
        grep_loop n pattern (r_val r) [] ~;;
        ucall_ (UClose (r_val r)) ~;;
        grep_files n pattern files'
  end.
Definition grep_main (n : nat) (argv : list (list Z)) : uprog unit :=
  match argv with
  | _ :: pattern :: files =>
      match files with
      | [] => grep_loop n pattern 0 [] ~;; UExit
      | _ => grep_files n pattern files
      end
  | _ => printf 2 (bytes "usage: grep pattern [file ...]" ++ [10]) [] ~;; UExit
  end.

(** ** The language of an expression *)
(** [accepts re text]: a prefix of [text] is in the language of [re]. *)
Inductive accepts : list Z -> list Z -> Prop :=
  | acc_nil text : accepts [] text
  | acc_star r re pre text :
      Forall (fun t => one r t = true) pre -> accepts re text -> accepts (r :: star :: re) (pre ++ text)
  | acc_end : accepts [dollar] []
  | acc_char r re t text :
      head re <> Some star -> ~ (r = dollar /\ re = []) ->
      one r t = true -> accepts re text -> accepts (r :: re) (t :: text).

(** [finds re text]: [re] matches somewhere in [text], at its start when it
    begins with a caret. *)
Definition finds (re text : list Z) : Prop :=
  match re with
  | r :: re' => if r =? caret then accepts re' text else exists pre post, text = pre ++ post /\ accepts re post
  | [] => True
  end.

Lemma matchstar_spec (here : list Z -> bool) c text :
  matchstar here c text = true <->
  exists pre post, text = pre ++ post /\ Forall (fun t => one c t = true) pre /\ here post = true.
Proof.
  assert (forall t, (t =? c) || (c =? period) = one c t) as Hone.
  { intros t. unfold one. rewrite Z.eqb_sym. apply orb_comm. }
  induction text as [|t text IH]; cbn [matchstar]; rewrite ?Hone.
  - rewrite orb_false_r. split.
    + intros Hh. exists [], []. auto.
    + intros (pre & post & E & _ & Hh). symmetry in E. by apply app_eq_nil in E as [-> ->].
  - rewrite orb_true_iff. split.
    + intros [Hh|Hs]; [exists [], (t :: text); auto|]. destruct (one c t) eqn:Ht; [|done].
      apply IH in Hs as (pre & post & -> & Hpre & Hh). exists (t :: pre), post. auto.
    + intros ([|x pre] & post & E & Hpre & Hh); [cbn in E; subst; by left|right].
      injection E as <- ->. apply Forall_cons in Hpre as [Hx Hpre]. rewrite Hx. apply IH. eauto.
Qed.

Lemma matchhere_spec re : forall text, matchhere re text = true <-> accepts re text.
Proof.
  assert (forall n re, (length re <= n)%nat -> forall text, matchhere re text = true <-> accepts re text) as Hall;
    [|by apply (Hall (length re))].
  clear re. induction n as [|n IH]; intros re Hlen text.
  { destruct re; [|simpl in Hlen; lia]. split; [constructor|done]. }
  destruct re as [|r re]; [split; [constructor|done]|]. simpl in Hlen.
  assert (head re <> Some star -> ~ (r = dollar /\ re = []) ->
    match text with t :: text' => if one r t then matchhere re text' else false | [] => false end = true
      <-> accepts (r :: re) text) as Hchar.
  { intros Hs Hd. destruct text as [|t text].
    - split; [done|]. intros Ha. inversion Ha; subst; [|by destruct Hd].
      match goal with E : _ ++ _ = [] |- _ => apply app_eq_nil in E as [-> ->] end. by destruct Hs.
    - destruct (one r t) eqn:Ht; rewrite ?(IH re) by lia.
      + split; [by constructor|]. intros Ha. inversion Ha; subst; [by destruct Hs|done].
      + split; [done|]. intros Ha. inversion Ha; subst; [by destruct Hs|congruence]. }
  destruct re as [|s re].
  - cbn [matchhere]. destruct (Z.eqb_spec r dollar) as [->|Hr]; [|apply Hchar; [done|tauto]].
    rewrite bool_decide_eq_true. split; [intros ->; constructor|]. intros Ha. inversion Ha; subst; [done|tauto].
  - cbn [matchhere]. destruct (Z.eqb_spec s star) as [->|Hs].
    + rewrite matchstar_spec. split.
      * intros (pre & post & -> & Hpre & Hh). constructor; [done|]. apply IH; [simpl in Hlen; lia|done].
      * intros Ha. inversion Ha as [|? ? pre post Hpre Hp| |? ? ? ? Hh]; subst; [|by destruct Hh].
        exists pre, post. split_and!; [done|done|]. apply IH; [simpl in Hlen; lia|done].
    + apply Hchar; [by intros [= ->]|by intros [_ ?]].
Qed.

Lemma match_any_spec re text :
  match_any re text = true <-> exists pre post, text = pre ++ post /\ accepts re post.
Proof.
  induction text as [|t text IH]; cbn [match_any]; rewrite orb_true_iff, matchhere_spec.
  - split; [intros [Ha|]; [by exists [], []|done]|].
    intros (pre & post & E & Ha). symmetry in E. apply app_eq_nil in E as [-> ->]. by left.
  - rewrite IH. split.
    + intros [Ha|(pre & post & -> & Ha)]; [by exists [], (t :: text)|by exists (t :: pre), post].
    + intros ([|x pre] & post & E & Ha); [cbn in E; subst; by left|right]. injection E as <- ->. eauto.
Qed.

(** C32: The matcher of [grep] decides the language of its expressions: it answers
    yes exactly when the expression, read as literal characters, [.], [c*] and
    a final [$], matches a part of the text, one at its start after a [^]. *)
Theorem match_correct re text : match_ re text = true <-> finds re text.
Proof.
  unfold match_, finds. destruct re as [|r re].
  - destruct text; done.
  - destruct (r =? caret); [apply matchhere_spec|apply match_any_spec].
Qed.

(** ** A line that arrives in two reads *)
(** The line [abc] matches, and is printed when one read returns it; when a
    pipe delivers it as [ab] and [c] with the newline, nothing is printed. *)
Lemma grep_drops_split_line :
  match_ (bytes "^abc") (bytes "abc") = true /\
  session (grep_loop 10 (bytes "^abc") 0 []) [bytes "abc" ++ [10]] = (bytes "abc" ++ [10], Returned tt []) /\
  session (grep_loop 10 (bytes "^abc") 0 []) [bytes "ab"; bytes "c" ++ [10]] = ([], Returned tt []).
Proof. vm_compute. auto. Qed.
