(* ===== verification/Programs.v ===== *)
(** * Small user programs ([user/])

    [cat], [wc], [ls], [echo], [kill], [ln], [mkdir], [rm], [zombie], [init],
    [iobench], [forktest] and [stressfs], as programs that make system calls.  A loop over
    the input, or one that never ends, takes a bound.  The theorems are about
    sessions with an input that arrives in chunks of any size: [cat] copies it
    and [wc] counts its lines, words and bytes. *)
From S2P Require Import Prelude Console Ulib.
#[local] Open Scope user_scope.

Definition nl : list Z := [10].

(** [for(i = 1; i < argc; i++)] over the arguments. *)
Fixpoint each_arg (f : list Z -> uprog unit) (args : list (list Z)) : uprog unit :=
  match args with
  | [] => URet tt
  | a :: args' => f a ~;; each_arg f args'
  end.

(** ** cat *)
Fixpoint cat (n : nat) (fd : Z) : uprog unit :=
  r <~ ucall_ (URead fd 512) ;;
  if 0 <? r_val r then
    w <~ ucall_ (UWrite 1 (take (Z.to_nat (r_val r)) (r_data r))) ;;
    if negb (r_val w =? r_val r) then printf 1 (bytes "cat: write error" ++ nl) [] ~;; UExit else
    match n with
    | O => UFuel
    | S n' => cat n' fd
    end
  else if r_val r <? 0 then printf 1 (bytes "cat: read error" ++ nl) [] ~;; UExit
  else URet tt.
Definition cat_main (n : nat) (argv : list (list Z)) : uprog unit :=
  match tail argv with
  | [] => cat n 0 ~;; UExit
  | files =>
      each_arg (fun f =>
        r <~ ucall_ (UOpen f 0) ;;
        if r_val r <? 0 then printf 1 (bytes "cat: cannot open %s" ++ nl) [AStr (Some f)] ~;; UExit else
        cat n (r_val r) ~;;
        ucall_ (UClose (r_val r)) ~;; URet tt) files ~;;
      UExit
  end.

(** ** wc *)
Record counts := mkCounts { w_lines : Z; w_words : Z; w_chars : Z; inword : bool }.
(** [strchr(" \r\t\n\v", c)]. *)
Definition is_space (c : Z) : bool := bool_decide (strchr [32; 13; 9; 10; 11] c <> None).
Definition wc_char (k : counts) (ch : Z) : counts :=
  let c := i32 (w_chars k + 1) in
  let l := if ch =? 10 then i32 (w_lines k + 1) else w_lines k in
  if is_space ch then mkCounts l (w_words k) c false
  else if negb (inword k) then mkCounts l (i32 (w_words k + 1)) c true
  else mkCounts l (w_words k) c (inword k).
Fixpoint wc_loop (n : nat) (fd : Z) (k : counts) : uprog counts :=
  r <~ ucall_ (URead fd 512) ;;
  if 0 <? r_val r then
    let k' := foldl wc_char k (take (Z.to_nat (r_val r)) (r_data r)) in
    match n with
    | O => UFuel
    | S n' => wc_loop n' fd k'
    end
  else if r_val r <? 0 then printf 1 (bytes "wc: read error" ++ nl) [] ~;; UExit
  else URet k.
Definition wc (n : nat) (fd : Z) (name : list Z) : uprog unit :=
  k <~ wc_loop n fd (mkCounts 0 0 0 false) ;;
  printf 1 (bytes "%d %d %d %s" ++ nl) [AInt (w_lines k); AInt (w_words k); AInt (w_chars k); AStr (Some name)].
Definition wc_main (n : nat) (argv : list (list Z)) : uprog unit :=
  match tail argv with
  | [] => wc n 0 [] ~;; UExit
  | files =>
      each_arg (fun f =>
        r <~ ucall_ (UOpen f 0) ;;
        if r_val r <? 0 then printf 1 (bytes "wc: cannot open %s" ++ nl) [AStr (Some f)] ~;; UExit else
        wc n (r_val r) f ~;;
        ucall_ (UClose (r_val r)) ~;; URet tt) files ~;;
      UExit
  end.

(** ** ls *)
Definition UDIRSIZ : nat := 14.
(** The text after the last slash. *)
Fixpoint after_slash (path : list Z) : option (list Z) :=
  match path with
  | [] => None
  | c :: path' =>
      match after_slash path' with
      | Some p => Some p
      | None => if c =? 47 then Some path' else None
      end
  end.
Definition fmtname (path : list Z) : list Z :=
  let p := default path (after_slash path) in
  if (UDIRSIZ <=? length p)%nat then p else p ++ replicate (UDIRSIZ - length p) 32.

(** The fields of [struct stat] as [fstat] stores it. *)
Definition st_short (l : list Z) (k : nat) : Z := i16 (l !!! k + 2 ^ 8 * l !!! (k + 1)%nat).
Definition st_uint (l : list Z) (k : nat) : Z :=
  l !!! k + 2 ^ 8 * l !!! (k + 1)%nat + 2 ^ 16 * l !!! (k + 2)%nat + 2 ^ 24 * l !!! (k + 3)%nat.
Definition print_entry (path st : list Z) : uprog unit :=
  printf 1 (bytes "%s %d %d %d" ++ nl)
    [AStr (Some (fmtname path)); AInt (st_short st 0); AInt (st_uint st 8); AInt (st_uint st 16)].

(** The loop over the entries of a directory. *)
Fixpoint ls_dir (n : nat) (fd : Z) (path : list Z) : uprog unit :=
  r <~ ucall_ (URead fd 16) ;;
  if negb (r_val r =? 16) then URet tt else
  let de := r_data r in
  (if de !!! 0%nat + 2 ^ 8 * de !!! 1%nat =? 0 then URet tt else
   let buf := cstr (path ++ [47] ++ drop 2 de) in
   o <~ ustat buf ;;
   match o with
   | None => printf 1 (bytes "ls: cannot stat %s" ++ nl) [AStr (Some buf)]
   | Some st => print_entry buf (r_data st)
   end) ~;;
  match n with
  | O => UFuel
  | S n' => ls_dir n' fd path
  end.
Definition ls (n : nat) (path : list Z) : uprog unit :=
  r <~ ucall_ (UOpen path 0) ;;
  if r_val r <? 0 then printf 2 (bytes "ls: cannot open %s" ++ nl) [AStr (Some path)] else
  let fd := r_val r in
  st <~ ucall_ (UFstat fd) ;;
  if r_val st <? 0 then
    printf 2 (bytes "ls: cannot stat %s" ++ nl) [AStr (Some path)] ~;; ucall_ (UClose fd) ~;; URet tt
  else
    (if st_short (r_data st) 0 =? 2 then print_entry path (r_data st)
     else if st_short (r_data st) 0 =? 1 then
       if 512 <? Z.of_nat (length path) + 1 + Z.of_nat UDIRSIZ + 1 then printf 1 (bytes "ls: path too long" ++ nl) []
       else ls_dir n fd path
     else URet tt) ~;;
    ucall_ (UClose fd) ~;;
    URet tt.
Definition ls_main (n : nat) (argv : list (list Z)) : uprog unit :=
  match tail argv with
  | [] => ls n (bytes ".") ~;; UExit
  | files => each_arg (ls n) files ~;; UExit
  end.

(** ** echo, kill, ln, mkdir, rm, zombie *)
Fixpoint echo_args (args : list (list Z)) : uprog unit :=
  match args with
  | [] => URet tt
  | a :: args' =>
      printf 1 (bytes "%s%s") [AStr (Some a); AStr (Some (match args' with [] => nl | _ => bytes " " end))] ~;;
      echo_args args'
  end.
Definition echo_main (argv : list (list Z)) : uprog unit := echo_args (tail argv) ~;; UExit.

Definition kill_main (argv : list (list Z)) : uprog unit :=
  match tail argv with
  | [] => printf 2 (bytes "usage: kill pid..." ++ nl) [] ~;; UExit
  | pids => each_arg (fun a => ucall_ (UKill (atoi a)) ~;; URet tt) pids ~;; UExit
  end.

Definition ln_main (argv : list (list Z)) : uprog unit :=
  match argv with
  | [_; old; new] =>
      r <~ ucall_ (ULink old new) ;;
      (if r_val r <? 0 then printf 2 (bytes "link %s %s: failed" ++ nl) [AStr (Some old); AStr (Some new)] else URet tt) ~;;
      UExit
  | _ => printf 2 (bytes "Usage: ln old new" ++ nl) [] ~;; UExit
  end.

(** The loops of [mkdir] and [rm], which stop at the first failure. *)
Fixpoint until_failure (call : list Z -> ucall) (msg : list Z) (args : list (list Z)) : uprog unit :=
  match args with
  | [] => URet tt
  | a :: args' =>
      r <~ ucall_ (call a) ;;
      if r_val r <? 0 then printf 2 msg [AStr (Some a)] else until_failure call msg args'
  end.
Definition mkdir_main (argv : list (list Z)) : uprog unit :=
  match tail argv with
  | [] => printf 2 (bytes "Usage: mkdir files..." ++ nl) [] ~;; UExit
  | files => until_failure UMkdir (bytes "mkdir: %s failed to create" ++ nl) files ~;; UExit
  end.
Definition rm_main (argv : list (list Z)) : uprog unit :=
  match tail argv with
  | [] => printf 2 (bytes "Usage: rm files..." ++ nl) [] ~;; UExit
  | files => until_failure UUnlink (bytes "rm: %s failed to delete" ++ nl) files ~;; UExit
  end.

Definition zombie_main : uprog unit :=
  r <~ ucall_ UFork ;;
  (if 0 <? r_val r then ucall_ (USleep 5) ~;; URet tt else URet tt) ~;;
  UExit.

(** ** init *)
(** [while((wpid=wait()) >= 0 && wpid != pid)]: reap orphans until the shell ends. *)
Fixpoint reap_orphans (n : nat) (pid : Z) : uprog unit :=
  r <~ ucall_ UWait ;;
  if (0 <=? r_val r) && negb (r_val r =? pid) then
    printf 1 (bytes "zombie!" ++ nl) [] ~;;
    match n with
    | O => UFuel
    | S n' => reap_orphans n' pid
    end
  else URet tt.
Fixpoint init_loop (n : nat) : uprog unit :=
  printf 1 (bytes "init: starting sh" ++ nl) [] ~;;
  r <~ ucall_ UFork ;;
  let pid := r_val r in
  (if pid <? 0 then printf 1 (bytes "init: fork failed" ++ nl) [] ~;; UExit else URet tt) ~;;
  (if pid =? 0 then
     ucall_ (UExec (bytes "sh") [bytes "sh"]) ~;;
     printf 1 (bytes "init: exec sh failed" ++ nl) [] ~;;
     UExit
   else URet tt) ~;;
  reap_orphans n pid ~;;
  match n with
  | O => UFuel
  | S n' => init_loop n'
  end.
(** The console as descriptors 0, 1 and 2. *)
Definition init_console : uprog unit :=
  r <~ ucall_ (UOpen (bytes "console") 2) ;;
  (if r_val r <? 0 then
     ucall_ (UMknod (bytes "console") 1 1) ~;;
     ucall_ (UOpen (bytes "console") 2) ~;; URet tt
   else URet tt) ~;;
  ucall_ (UDup 0) ~;;
  ucall_ (UDup 0) ~;;
  URet tt.
Definition init_main (n : nat) : uprog unit :=
  init_console ~;;
  init_loop n.

(** ** iobench *)
Definition OPSIZE : nat := 16.
Definition TIMES : nat := 32.
Definition MINTICKS : Z := 250.
Definition iobench_path (pid : Z) : list Z := [u8 (48 + pid / 10); u8 (48 + pid mod 10)] ++ bytes "iops".
(** [TIMES] calls of the same kind; the data the writes send is what the last
    read left in the buffer. *)
Fixpoint writes (n : nat) (fd : Z) (data : list Z) : uprog unit :=
  match n with O => URet tt | S n' => ucall_ (UWrite fd data) ~;; writes n' fd data end.
Fixpoint reads (n : nat) (fd : Z) (data : list Z) : uprog (list Z) :=
  match n with
  | O => URet data
  | S n' =>
      r <~ ucall_ (URead fd (Z.of_nat OPSIZE)) ;;
      let got := take OPSIZE (r_data r) in
      reads n' fd (got ++ drop (length got) data)
  end.
Fixpoint iobench_loop (n : nat) (pid start ops : Z) (data : list Z) : uprog unit :=
  match n with
  | O => UFuel
  | S n' =>
      e <~ ucall_ UUptime ;;
      let elapsed := i32 (r_val e - start) in
      so <~ (if MINTICKS <=? elapsed then
               printf 1 ([9; 9; 9; 9; 9] ++ bytes "%d: IO: %d, ticks: %d" ++ nl) [AInt pid; AInt ops; AInt elapsed] ~;;
               st <~ ucall_ UUptime ;;
               URet (r_val st, 0)
             else URet (start, ops)) ;;
      let '(start, ops) := so in
      w <~ ucall_ (UOpen (iobench_path pid) 0x201) ;;
      r <~ ucall_ (UOpen (iobench_path pid) 0) ;;
      writes TIMES (r_val w) data ~;;
      data <~ reads TIMES (r_val r) data ;;
      ucall_ (UClose (r_val w)) ~;;
      ucall_ (UClose (r_val r)) ~;;
      iobench_loop n' pid start (i32 (ops + 2 * Z.of_nat TIMES)) data
  end.
Definition iobench_main (n : nat) : uprog unit :=
  p <~ ucall_ UGetpid ;;
  st <~ ucall_ UUptime ;;
  iobench_loop n (r_val p) (r_val st) 0 (replicate OPSIZE 97).

(** ** forktest and stressfs *)
Definition FORKS : nat := 1000.
(** [forktest.c] has a [printf] of its own that writes the format as it is. *)
Definition fprint (fd : Z) (s : list Z) : uprog unit := ucall_ (UWrite fd s) ~;; URet tt.
(** The number of forks made before one failed; a child exits at once. *)
Fixpoint fork_all (n : nat) (done : nat) : uprog nat :=
  match n with
  | O => URet done
  | S n' =>
      r <~ ucall_ UFork ;;
      if r_val r <? 0 then URet done
      else if r_val r =? 0 then UExit
      else fork_all n' (S done)
  end.
Fixpoint wait_all (n : nat) : uprog unit :=
  match n with
  | O => URet tt
  | S n' =>
      r <~ ucall_ UWait ;;
      if r_val r <? 0 then fprint 1 (bytes "wait stopped early" ++ nl) ~;; UExit else wait_all n'
  end.
Definition forktest : uprog unit :=
  fprint 1 (bytes "fork test" ++ nl) ~;;
  n <~ fork_all FORKS 0 ;;
  (if (n =? FORKS)%nat then fprint 1 (bytes "fork claimed to work N times!" ++ nl) ~;; UExit else URet tt) ~;;
  wait_all n ~;;
  r <~ ucall_ UWait ;;
  (if negb (r_val r =? -1) then fprint 1 (bytes "wait got too many" ++ nl) ~;; UExit else URet tt) ~;;
  fprint 1 (bytes "fork test OK" ++ nl).
Definition forktest_main : uprog unit := forktest ~;; UExit.

(** [for(i = 0; i < 4; i++) if(fork() > 0) break;] *)
Fixpoint fork_chain (n : nat) (i : Z) : uprog Z :=
  match n with
  | O => URet i
  | S n' =>
      r <~ ucall_ UFork ;;
      if 0 <? r_val r then URet i else fork_chain n' (i + 1)
  end.
Fixpoint repeat_call (n : nat) (c : ucall) : uprog unit :=
  match n with
  | O => URet tt
  | S n' => ucall_ c ~;; repeat_call n' c
  end.
Definition stressfs_main : uprog unit :=
  printf 1 (bytes "stressfs starting" ++ nl) [] ~;;
  i <~ fork_chain 4 0 ;;
  printf 1 (bytes "write %d" ++ nl) [AInt i] ~;;
  let path := bytes "stressfs" ++ [u8 (48 + i)] in
  r <~ ucall_ (UOpen path 0x202) ;;
  repeat_call 20 (UWrite (r_val r) (replicate 512 97)) ~;;
  ucall_ (UClose (r_val r)) ~;;
  printf 1 (bytes "read" ++ nl) [] ~;;
  r <~ ucall_ (UOpen path 0) ;;
  repeat_call 20 (URead (r_val r) 512) ~;;
  ucall_ (UClose (r_val r)) ~;;
  ucall_ UWait ~;;
  UExit.

(** ** cat copies its input *)
Lemma cat_copies n fd ins :
  Forall (fun l => l <> []) ins -> (length ins <= n)%nat -> session (cat n fd) ins = (mjoin ins, Returned tt []).
Proof.
  revert n. induction ins as [|l ins IH]; intros n Hne Hn; [by destruct n|]. apply Forall_cons in Hne as [Hl Hne].
  assert (0 < length l)%nat as Hpos by (destruct l; [done|cbn; lia]). destruct n as [|n]; [cbn in Hn; lia|].
  cbn [cat]. rewrite session_bind. cbn [session ucall_ r_val r_data]. rewrite (proj2 (Z.ltb_lt 0 (Z.of_nat (length l)))) by lia.
  rewrite session_bind. cbn [session ucall_ r_val]. rewrite Nat2Z.id, firstn_all, Z.eqb_refl. cbn [negb].
  rewrite IH by (done || cbn in Hn; lia). cbn. by rewrite app_nil_r.
Qed.

(** ** wc counts lines, words and bytes *)
Section wc.
Implicit Types (text name w : list Z) (k : counts).

(** The pieces of the text between spaces. *)
Fixpoint split_spaces text : list Z * list (list Z) :=
  match text with
  | [] => ([], [])
  | c :: text' => let '(w, ws) := split_spaces text' in if is_space c then ([], w :: ws) else (c :: w, ws)
  end.
Definition nonempty w : bool := match w with [] => false | _ => true end.
Definition word_count text : Z := let '(w, ws) := split_spaces text in Z.of_nat (length (List.filter nonempty (w :: ws))).
Definition line_count text : Z := Z.of_nat (length (List.filter (Z.eqb 10) text)).

Lemma wc_fold text : forall k,
  0 <= w_lines k <= w_chars k -> 0 <= w_words k <= w_chars k -> w_chars k + Z.of_nat (length text) < 2 ^ 31 ->
  let k' := foldl wc_char k text in
  w_lines k' = w_lines k + line_count text /\ w_chars k' = w_chars k + Z.of_nat (length text) /\
  w_words k' = w_words k + word_count text - (if inword k && nonempty (split_spaces text).1 then 1 else 0).
Proof.
  induction text as [|c text IH]; intros k Hl Hw Hb.
  { unfold line_count, word_count. cbn. rewrite andb_false_r. lia. }
  cbn [length] in Hb. cbn [foldl].
  assert (wc_char k c = mkCounts (if c =? 10 then w_lines k + 1 else w_lines k)
    (if is_space c then w_words k else if inword k then w_words k else w_words k + 1) (w_chars k + 1) (negb (is_space c))) as Ek.
  { unfold wc_char. rewrite !i32_small by lia. destruct (is_space c), (inword k); done. }
  rewrite Ek. clear Ek. unfold line_count, word_count in *. cbn [List.filter length split_spaces].
  destruct (split_spaces text) as [w ws]. assert ((10 =? c) = (c =? 10)) as -> by apply Z.eqb_sym.
  destruct (c =? 10), (is_space c), (inword k), (nonempty w) eqn:Ew; cbn [fst List.filter length nonempty andb negb]; rewrite ?Ew;
    (edestruct IH as (H1 & H2 & H3); [..|cbv zeta; rewrite H1, H2, H3]); cbn [w_lines w_words w_chars inword fst List.filter length andb]; rewrite ?Ew; cbn [length]; lia.
Qed.

Lemma counts_bounded text : 0 <= line_count text <= Z.of_nat (length text) /\ 0 <= word_count text <= Z.of_nat (length text).
Proof.
  induction text as [|c text IH]; [done|]. unfold line_count, word_count in *. cbn [List.filter split_spaces length]. destruct (split_spaces text) as [w ws].
  cbn [List.filter] in IH. destruct (10 =? c), (is_space c), (nonempty w) eqn:Ew; cbn [List.filter nonempty length] in *; rewrite ?Ew; cbn [length] in *; lia.
Qed.

(** What [wc] prints. *)
Definition wc_report text name : list Z :=
  int_chars (line_count text) 10 true ++ [32] ++ int_chars (word_count text) 10 true ++ [32] ++
  int_chars (Z.of_nat (length text)) 10 true ++ [32] ++ cstr name ++ [10].

Lemma int_chars_bytes x : 0 <= x < 2 ^ 31 -> Forall (fun c => 0 <= c < 256) (int_chars x 10 true).
Proof.
  intros Hx. unfold int_chars. rewrite (proj2 (Z.ltb_ge x 0)) by lia. cbn [andb]. rewrite app_nil_r, u32_small by lia.
  apply Forall_reverse. generalize 32%nat. intros n. assert (0 <= x) as Hx0 by lia. clear Hx. revert x Hx0.
  induction n as [|n IH]; intros x Hx; cbn [udigits]; [done|]. apply Forall_cons. split.
  - unfold udigit. pose proof (Z.mod_pos_bound x 10 ltac:(lia)). destruct (Z.ltb_spec (x mod 10) 10); lia.
  - destruct (x / 10 =? 0); [done|]. apply IH, Z.div_pos; lia.
Qed.

Lemma wc_loop_counts n fd ins : forall k,
  Forall (fun l => l <> []) ins -> (length ins <= n)%nat ->
  session (wc_loop n fd k) ins = ([], Returned (foldl wc_char k (mjoin ins)) []).
Proof.
  revert n. induction ins as [|l ins IH]; intros n k Hne Hn; [by destruct n|]. apply Forall_cons in Hne as [Hl Hne].
  assert (0 < length l)%nat as Hpos by (destruct l; [done|cbn; lia]). destruct n as [|n]; [cbn in Hn; lia|].
  cbn [wc_loop]. rewrite session_bind. cbn [session ucall_ r_val r_data]. rewrite (proj2 (Z.ltb_lt 0 (Z.of_nat (length l)))) by lia.
  rewrite Nat2Z.id, firstn_all, IH by (done || cbn in Hn; lia). cbn [mjoin list_join app]. by rewrite foldl_app.
Qed.

(** A number of the format, and a character. *)
Lemma session_number fd x fmt args ins o e :
  0 <= x < 2 ^ 31 -> session (printf_loop fd false fmt args) ins = (o, e) ->
  session (printf_loop fd false (37 :: 100 :: fmt) (AInt x :: args)) ins = (int_chars x 10 true ++ o, e).
Proof.
  intros Hx E. cbn [printf_loop print_char negb Z.eqb Pos.eqb ubind fst snd]. rewrite session_bind. rewrite session_bind.
  unfold uprintint. rewrite i32_small by lia. rewrite session_puts by (by apply int_chars_bytes). cbn [session]. cbn [fst snd]. rewrite E. by rewrite app_nil_r.
Qed.

Lemma session_char fd c fmt args ins o e :
  0 <= c < 256 -> c <> 37 -> session (printf_loop fd false fmt args) ins = (o, e) ->
  session (printf_loop fd false (c :: fmt) args) ins = (c :: o, e).
Proof.
  intros Hc Hne E. cbn [printf_loop]. unfold print_char. cbn [negb]. rewrite (proj2 (Z.eqb_neq c 37)) by done.
  rewrite session_bind. cbn [putc ucall_ ubind session fst snd]. rewrite E. unfold u8. by rewrite Z.mod_small.
Qed.

Lemma cstr_forall (P : Z -> Prop) l : Forall P l -> Forall P (cstr l).
Proof. induction l as [|c l IH]; intros Hl; [done|]. apply Forall_cons in Hl as [Hc Hl]. cbn. destruct (c =? 0); [done|]. apply Forall_cons. auto. Qed.

Lemma session_string fd t fmt args ins o e :
  Forall (fun c => 0 <= c < 256) t -> session (printf_loop fd false fmt args) ins = (o, e) ->
  session (printf_loop fd false (37 :: 115 :: fmt) (AStr (Some t) :: args)) ins = (cstr t ++ o, e).
Proof.
  intros Ht E. cbn [printf_loop print_char negb Z.eqb Pos.eqb ubind fst snd orb]. rewrite session_bind, session_bind.
  cbn [default from_option]. rewrite session_puts by (by apply cstr_forall). cbn [session fst snd]. rewrite E. by rewrite app_nil_r.
Qed.

(** Whatever the chunks in which its input arrives, [wc] prints the number of
    lines, of words, which are the non-empty pieces between spaces, and of
    bytes of the whole input. *)
Theorem wc_counts n fd name ins :
  Forall (fun l => l <> []) ins -> (length ins <= n)%nat -> Z.of_nat (length (mjoin ins)) < 2 ^ 31 -> Forall (fun c => 0 <= c < 256) name ->
  session (wc n fd name) ins = (wc_report (mjoin ins) name, Returned tt []).
Proof.
  intros Hne Hn Hlen Hname. unfold wc. rewrite session_bind, wc_loop_counts by done. set (text := mjoin ins) in *.
  destruct (wc_fold text (mkCounts 0 0 0 false)) as (Hl & Hc & Hw); [cbn; lia..|]. cbn [w_lines w_words w_chars inword andb] in Hl, Hc, Hw.
  rewrite Hl, Hc, Hw, !Z.add_0_l, Z.sub_0_r. destruct (counts_bounded text) as [Hlb Hwb].
  change (printf 1 (bytes "%d %d %d %s" ++ nl)) with (printf_loop 1 false [37; 100; 32; 37; 100; 32; 37; 100; 32; 37; 115; 10]).
  erewrite session_number; [|lia|]. 2: { apply session_char; [lia|lia|]. apply session_number; [lia|]. apply session_char; [lia|lia|].
    apply session_number; [lia|]. apply session_char; [lia|lia|]. apply session_string; [done|]. apply session_char; [lia|lia|]. reflexivity. }
  done.
Qed.

End wc.

Lemma wc_counts_witness :
  session (wc 5 0 (bytes "f")) [bytes "two wo"; bytes "rds" ++ [10]] = (bytes "1 2 10 f" ++ [10], Returned tt []).
Proof.
  rewrite (wc_counts 5 0 (bytes "f") [bytes "two wo"; bytes "rds" ++ [10]]).
  - reflexivity.
  - repeat (apply Forall_cons; split; [done|]). done.
  - cbn. lia.
  - by vm_compute.
  - repeat (apply Forall_cons; split; [vm_compute; split; [intros [=]|done]|]). done.
Defined.
