(* ===== verification/Usertests.v ===== *)
(** * The test program ([user/usertests.c])

    The tests of the system calls, as programs that make system calls.  The
    array [buf] is passed from test to test; a loop that ends when a call says
    so takes a bound [n], and so does one that never ends.  The theorems are
    about the tests as judges of what the kernel returns. *)
From S2P Require Import Prelude Types Console Exec Sysfile Ulib.
#[local] Open Scope user_scope.

(** ** Printing and calling *)
Definition stdout : Z := 1.
Definition tellf (fd : Z) (s : string) (args : list arg) : uprog unit := printf fd (bytes s) args.
Definition sayf (fd : Z) (s : string) (args : list arg) : uprog unit := printf fd (bytes s ++ [10]) args.
Definition say (s : string) : uprog unit := sayf stdout s [].
Definition fail {A} (s : string) : uprog A := say s ~;; UExit.
(** [if(b){ printf(1, s); exit(); }] *)
Definition fail_if (b : bool) (s : string) : uprog unit := if b then fail s else URet tt.
Definition failf_if (b : bool) (s : string) (args : list arg) : uprog unit := if b then sayf stdout s args ~;; UExit else URet tt.
Definition call (c : ucall) : uprog Z := r <~ ucall_ c ;; URet (r_val r).
Definition do_ (c : ucall) : uprog unit := ucall_ c ~;; URet tt.
(** [read(fd, buf, n)]: the result and the array. *)
Definition overlay (got buf : list Z) : list Z := got ++ drop (length got) buf.
Definition read_buf (fd n : Z) (buf : list Z) : uprog (Z * list Z) :=
  r <~ ucall_ (URead fd n) ;;
  URet (r_val r, overlay (take (Z.to_nat (r_val r)) (r_data r)) buf).
(** [for(i = 0; i < n; i++)] *)
Fixpoint for_ (n : nat) (i : Z) (body : Z -> uprog unit) : uprog unit :=
  match n with
  | O => URet tt
  | S n' => body i ~;; for_ n' (i + 1) body
  end.
Definition open_ (path : string) (mode : Z) : uprog Z := call (UOpen (bytes path) mode).
Definition unlink_ (path : string) : uprog Z := call (UUnlink (bytes path)).
Definition mkdir_ (path : string) : uprog Z := call (UMkdir (bytes path)).
Definition chdir_ (path : string) : uprog Z := call (UChdir (bytes path)).
Definition link_ (old new : string) : uprog Z := call (ULink (bytes old) (bytes new)).
(** A string written in place. *)
Definition write_ (fd : Z) (s : string) : uprog Z := call (UWrite fd (bytes s)).

Definition O_CREATE_RDWR : Z := Z.lor O_CREATE O_RDWR.
Definition BUFLEN : Z := 8192.

(** ** Directories in use *)
Definition iputtest : uprog unit :=
  say "iput test" ~;;
  r <~ mkdir_ "iputdir" ;;
  fail_if (r <? 0) "mkdir failed" ~;;
  r <~ chdir_ "iputdir" ;;
  fail_if (r <? 0) "chdir iputdir failed" ~;;
  r <~ unlink_ "../iputdir" ;;
  fail_if (r <? 0) "unlink ../iputdir failed" ~;;
  r <~ chdir_ "/" ;;
  fail_if (r <? 0) "chdir / failed" ~;;
  say "iput test ok".

Definition exitiputtest : uprog unit :=
  say "exitiput test" ~;;
  pid <~ call UFork ;;
  fail_if (pid <? 0) "fork failed" ~;;
  (if pid =? 0 then
     r <~ mkdir_ "iputdir" ;;
     fail_if (r <? 0) "mkdir failed" ~;;
     r <~ chdir_ "iputdir" ;;
     fail_if (r <? 0) "child chdir failed" ~;;
     r <~ unlink_ "../iputdir" ;;
     fail_if (r <? 0) "unlink ../iputdir failed" ~;;
     UExit
   else URet tt) ~;;
  do_ UWait ~;;
  say "exitiput test ok".

Definition openiputtest : uprog unit :=
  say "openiput test" ~;;
  r <~ mkdir_ "oidir" ;;
  fail_if (r <? 0) "mkdir oidir failed" ~;;
  pid <~ call UFork ;;
  fail_if (pid <? 0) "fork failed" ~;;
  (if pid =? 0 then
     fd <~ open_ "oidir" O_RDWR ;;
     fail_if (0 <=? fd) "open directory for write succeeded" ~;;
     UExit
   else URet tt) ~;;
  do_ (USleep 1) ~;;
  r <~ unlink_ "oidir" ;;
  fail_if (negb (r =? 0)) "unlink failed" ~;;
  do_ UWait ~;;
  say "openiput test ok".

(** ** Simple file system tests *)
Definition opentest : uprog unit :=
  say "open test" ~;;
  fd <~ open_ "echo" 0 ;;
  fail_if (fd <? 0) "open echo failed!" ~;;
  do_ (UClose fd) ~;;
  fd <~ open_ "doesnotexist" 0 ;;
  fail_if (0 <=? fd) "open doesnotexist succeeded!" ~;;
  say "open test ok".

Definition writetest (buf : list Z) : uprog (list Z) :=
  say "small file test" ~;;
  fd <~ open_ "small" O_CREATE_RDWR ;;
  (if 0 <=? fd then say "creat small succeeded; ok" else fail "error: creat small failed!") ~;;
  for_ 100 0 (fun i =>
    r <~ write_ fd "aaaaaaaaaa" ;;
    failf_if (negb (r =? 10)) "error: write aa %d new file failed" [AInt i] ~;;
    r <~ write_ fd "bbbbbbbbbb" ;;
    failf_if (negb (r =? 10)) "error: write bb %d new file failed" [AInt i]) ~;;
  say "writes ok" ~;;
  do_ (UClose fd) ~;;
  fd <~ open_ "small" O_RDONLY ;;
  (if 0 <=? fd then say "open small succeeded ok" else fail "error: open small failed!") ~;;
  ib <~ read_buf fd 2000 buf ;;
  (if ib.1 =? 2000 then say "read succeeded ok" else fail "read failed") ~;;
  do_ (UClose fd) ~;;
  r <~ unlink_ "small" ;;
  fail_if (r <? 0) "unlink small failed" ~;;
  say "small file test ok" ~;;
  URet ib.2.

(** The first [int] of [buf]. *)
Definition int_bytes (i : Z) : list Z := [u8 i; u8 (i / 2 ^ 8); u8 (i / 2 ^ 16); u8 (i / 2 ^ 24)].
Definition int_at (buf : list Z) : Z :=
  i32 (buf !!! 0%nat + 2 ^ 8 * buf !!! 1%nat + 2 ^ 16 * buf !!! 2%nat + 2 ^ 24 * buf !!! 3%nat).
Fixpoint write_blocks (k : nat) (i fd : Z) (buf : list Z) : uprog (list Z) :=
  match k with
  | O => URet buf
  | S k' =>
      let buf := overlay (int_bytes i) buf in
      r <~ call (UWrite fd (take 512 buf)) ;;
      failf_if (negb (r =? 512)) "error: write big file failed" [AInt i] ~;;
      write_blocks k' (i + 1) fd buf
  end.
Fixpoint read_blocks (n : nat) (fd k : Z) (buf : list Z) : uprog (list Z) :=
  ib <~ read_buf fd 512 buf ;;
  let '(i, buf) := ib in
  if i =? 0 then
    (if k =? MAXFILE - 1 then tellf stdout "read only %d blocks from big" [AInt k] ~;; UExit else URet tt) ~;;
    URet buf
  else
    failf_if (negb (i =? 512)) "read failed %d" [AInt i] ~;;
    failf_if (negb (int_at buf =? k)) "read content of block %d is %d" [AInt k; AInt (int_at buf)] ~;;
    match n with
    | O => UFuel
    | S n' => read_blocks n' fd (i32 (k + 1)) buf
    end.
Definition writetest1 (n : nat) (buf : list Z) : uprog (list Z) :=
  say "big files test" ~;;
  fd <~ open_ "big" O_CREATE_RDWR ;;
  fail_if (fd <? 0) "error: creat big failed!" ~;;
  buf <~ write_blocks (Z.to_nat MAXFILE) 0 fd buf ;;
  do_ (UClose fd) ~;;
  fd <~ open_ "big" O_RDONLY ;;
  fail_if (fd <? 0) "error: open big failed!" ~;;
  buf <~ read_blocks n fd 0 buf ;;
  do_ (UClose fd) ~;;
  r <~ unlink_ "big" ;;
  fail_if (r <? 0) "unlink big failed" ~;;
  say "big files ok" ~;;
  URet buf.

Definition createtest : uprog unit :=
  say "many creates, followed by unlink test" ~;;
  for_ 52 0 (fun i =>
    fd <~ call (UOpen [97; u8 (48 + i)] O_CREATE_RDWR) ;;
    do_ (UClose fd)) ~;;
  for_ 52 0 (fun i => do_ (UUnlink [97; u8 (48 + i)])) ~;;
  say "many creates, followed by unlink; ok".

Definition dirtest : uprog unit :=
  say "mkdir test" ~;;
  r <~ mkdir_ "dir0" ;;
  fail_if (r <? 0) "mkdir failed" ~;;
  r <~ chdir_ "dir0" ;;
  fail_if (r <? 0) "chdir dir0 failed" ~;;
  r <~ chdir_ ".." ;;
  fail_if (r <? 0) "chdir .. failed" ~;;
  r <~ unlink_ "dir0" ;;
  fail_if (r <? 0) "unlink dir0 failed" ~;;
  say "mkdir test ok".

Definition echoargv : list (list Z) := [bytes "echo"; bytes "ALL"; bytes "TESTS"; bytes "PASSED"].
Definition exectest : uprog unit :=
  say "exec test" ~;;
  r <~ call (UExec (bytes "echo") echoargv) ;;
  fail_if (r <? 0) "exec echo failed".

(** ** Processes and pipes *)
(** A loop that makes no call exhausts every bound. *)
Definition spin {A} : uprog A := UFuel.

Definition pipe_bytes (seq : Z) (k : nat) : list Z := (fun j => u8 (seq + Z.of_nat j)) <$> List.seq 0 k.
Fixpoint pipe1_write (k : nat) (seq fd : Z) (buf : list Z) : uprog unit :=
  match k with
  | O => URet tt
  | S k' =>
      let buf := overlay (pipe_bytes seq 1033) buf in
      r <~ call (UWrite fd (take 1033 buf)) ;;
      fail_if (negb (r =? 1033)) "pipe1 oops 1" ~;;
      pipe1_write k' (seq + 1033) fd buf
  end.
(** The bytes [l] against the sequence from [seq] on: the next [seq], if they agree. *)
Fixpoint pipe1_check (l : list Z) (seq : Z) : option Z :=
  match l with
  | [] => Some seq
  | c :: l' => if negb (Z.land c 0xff =? Z.land seq 0xff) then None else pipe1_check l' (i32 (seq + 1))
  end.
(** The loop of the parent: the total and the array, or nothing after a wrong byte. *)
Fixpoint pipe1_read (n : nat) (fd seq total cc : Z) (buf : list Z) : uprog (option Z * list Z) :=
  nb <~ read_buf fd cc buf ;;
  let '(k, buf) := nb in
  if 0 <? k then
    match pipe1_check (take (Z.to_nat k) buf) seq with
    | None => say "pipe1 oops 2" ~;; URet (None, buf)
    | Some seq' =>
        let cc := i32 (cc * 2) in
        let cc := if BUFLEN <? cc then BUFLEN else cc in
        match n with
        | O => UFuel
        | S n' => pipe1_read n' fd seq' (i32 (total + k)) cc buf
        end
    end
  else URet (Some total, buf).
Definition pipe1_parent (n : nat) (fds : Z * Z) (buf : list Z) : uprog (list Z) :=
  do_ (UClose fds.2) ~;;
  tb <~ pipe1_read n fds.1 0 0 1 buf ;;
  match tb with
  | (None, buf) => URet buf
  | (Some total, buf) =>
      failf_if (negb (total =? 5 * 1033)) "pipe1 oops 3 total %d" [AInt total] ~;;
      do_ (UClose fds.1) ~;;
      do_ UWait ~;;
      say "pipe1 ok" ~;;
      URet buf
  end.
Definition pipe1 (n : nat) (buf : list Z) : uprog (list Z) :=
  r <~ ucall_ UPipe ;;
  fail_if (negb (r_val r =? 0)) "pipe() failed" ~;;
  let fds := r_fds r in
  pid <~ call UFork ;;
  if pid =? 0 then
    do_ (UClose fds.1) ~;;
    pipe1_write 5 0 fds.2 buf ~;;
    UExit
  else if 0 <? pid then pipe1_parent n fds buf
  else fail "fork() failed".

Definition preempt (buf : list Z) : uprog (list Z) :=
  tellf 1 "preempt: " [] ~;;
  pid1 <~ call UFork ;;
  (if pid1 =? 0 then spin else URet tt) ~;;
  pid2 <~ call UFork ;;
  (if pid2 =? 0 then spin else URet tt) ~;;
  p <~ ucall_ UPipe ;;
  let pfds := r_fds p in
  pid3 <~ call UFork ;;
  (if pid3 =? 0 then
     do_ (UClose pfds.1) ~;;
     r <~ write_ pfds.2 "x" ;;
     (if negb (r =? 1) then tellf 1 "preempt write error" [] else URet tt) ~;;
     do_ (UClose pfds.2) ~;;
     spin
   else URet tt) ~;;
  do_ (UClose pfds.2) ~;;
  nb <~ read_buf pfds.1 BUFLEN buf ;;
  if negb (nb.1 =? 1) then tellf 1 "preempt read error" [] ~;; URet nb.2 else
  do_ (UClose pfds.1) ~;;
  tellf 1 "kill... " [] ~;;
  do_ (UKill pid1) ~;;
  do_ (UKill pid2) ~;;
  do_ (UKill pid3) ~;;
  tellf 1 "wait... " [] ~;;
  do_ UWait ~;;
  do_ UWait ~;;
  do_ UWait ~;;
  say "preempt ok" ~;;
  URet nb.2.

Fixpoint exitwait_loop (k : nat) : uprog unit :=
  match k with
  | O => say "exitwait ok"
  | S k' =>
      pid <~ call UFork ;;
      if pid <? 0 then say "fork failed"
      else if negb (pid =? 0) then
        w <~ call UWait ;;
        if negb (w =? pid) then say "wait wrong pid" else exitwait_loop k'
      else UExit
  end.
Definition exitwait : uprog unit := exitwait_loop 100.

(** Take all memory, linked through the first word of each block, and free it. *)
Fixpoint mem_take (n : nat) (m1 : Z) : uprog Z :=
  m2 <~ call (UMalloc 10001) ;;
  if negb (m2 =? 0) then
    do_ (UPoke32 m2 m1) ~;;
    match n with O => UFuel | S n' => mem_take n' m2 end
  else URet m1.
Fixpoint mem_free (n : nat) (m1 : Z) : uprog unit :=
  if negb (m1 =? 0) then
    m2 <~ call (UPeek32 m1) ;;
    do_ (UFree m1) ~;;
    match n with O => UFuel | S n' => mem_free n' m2 end
  else URet tt.
Definition mem (n : nat) : uprog unit :=
  say "mem test" ~;;
  ppid <~ call UGetpid ;;
  pid <~ call UFork ;;
  if pid =? 0 then
    m1 <~ mem_take n 0 ;;
    mem_free n m1 ~;;
    m1 <~ call (UMalloc (1024 * 20)) ;;
    (if m1 =? 0 then
       say "couldn't allocate mem?!!" ~;;
       do_ (UKill ppid) ~;;
       UExit
     else URet tt) ~;;
    do_ (UFree m1) ~;;
    say "mem ok" ~;;
    UExit
  else do_ UWait.

(** ** Several processes on one file or directory *)
Fixpoint sharedfd_write (k : nat) (fd c : Z) : uprog unit :=
  match k with
  | O => URet tt
  | S k' =>
      r <~ call (UWrite fd (replicate 10 c)) ;;
      if negb (r =? 10) then say "fstests: write sharedfd failed" else sharedfd_write k' fd c
  end.
Definition count (c : Z) (l : list Z) : Z := Z.of_nat (length (List.filter (Z.eqb c) l)).
Fixpoint sharedfd_read (n : nat) (fd nc np : Z) (buf : list Z) : uprog (Z * Z) :=
  kb <~ read_buf fd 10 buf ;;
  let '(k, buf) := kb in
  if 0 <? k then
    match n with
    | O => UFuel
    | S n' => sharedfd_read n' fd (i32 (nc + count 99 buf)) (i32 (np + count 112 buf)) buf
    end
  else URet (nc, np).
Definition sharedfd (n : nat) : uprog unit :=
  say "sharedfd test" ~;;
  do_ (UUnlink (bytes "sharedfd")) ~;;
  fd <~ open_ "sharedfd" O_CREATE_RDWR ;;
  if fd <? 0 then tellf 1 "fstests: cannot open sharedfd for writing" [] else
  pid <~ call UFork ;;
  let c := if pid =? 0 then 99 else 112 in
  sharedfd_write 1000 fd c ~;;
  (if pid =? 0 then UExit else do_ UWait) ~;;
  do_ (UClose fd) ~;;
  fd <~ open_ "sharedfd" 0 ;;
  if fd <? 0 then say "fstests: cannot open sharedfd for reading" else
  k <~ sharedfd_read n fd 0 0 (replicate 10 c) ;;
  let '(nc, np) := k in
  do_ (UClose fd) ~;;
  do_ (UUnlink (bytes "sharedfd")) ~;;
  if (nc =? 10000) && (np =? 10000) then say "sharedfd ok"
  else sayf 1 "sharedfd oops %d %d" [AInt nc; AInt np] ~;; UExit.

Definition fourfiles_name (i : Z) : list Z := [102; 48 + i].
Fixpoint fourfiles_write (k : nat) (fd : Z) (buf : list Z) : uprog unit :=
  match k with
  | O => URet tt
  | S k' =>
      n <~ call (UWrite fd (take 500 buf)) ;;
      failf_if (negb (n =? 500)) "write failed %d" [AInt n] ~;;
      fourfiles_write k' fd buf
  end.
Fixpoint fourfiles_read (n : nat) (fd i total : Z) (buf : list Z) : uprog (Z * list Z) :=
  kb <~ read_buf fd BUFLEN buf ;;
  let '(k, buf) := kb in
  if 0 <? k then
    fail_if (negb (forallb (Z.eqb (48 + i)) (take (Z.to_nat k) buf))) "wrong char" ~;;
    match n with
    | O => UFuel
    | S n' => fourfiles_read n' fd i (i32 (total + k)) buf
    end
  else URet (total, buf).
Fixpoint fourfiles_check (j : nat) (n : nat) (i : Z) (buf : list Z) : uprog (list Z) :=
  match j with
  | O => URet buf
  | S j' =>
      fd <~ call (UOpen (fourfiles_name i) 0) ;;
      tb <~ fourfiles_read n fd i 0 buf ;;
      let '(total, buf) := tb in
      do_ (UClose fd) ~;;
      failf_if (negb (total =? 12 * 500)) "wrong length %d" [AInt total] ~;;
      do_ (UUnlink (fourfiles_name i)) ~;;
      fourfiles_check j' n (i + 1) buf
  end.
Definition fourfiles (n : nat) (buf : list Z) : uprog (list Z) :=
  say "fourfiles test" ~;;
  for_ 4 0 (fun pi =>
    do_ (UUnlink (fourfiles_name pi)) ~;;
    pid <~ call UFork ;;
    fail_if (pid <? 0) "fork failed" ~;;
    if pid =? 0 then
      fd <~ call (UOpen (fourfiles_name pi) O_CREATE_RDWR) ;;
      fail_if (fd <? 0) "create failed" ~;;
      fourfiles_write 12 fd (overlay (replicate 512 (48 + pi)) buf) ~;;
      UExit
    else URet tt) ~;;
  for_ 4 0 (fun _ => do_ UWait) ~;;
  buf <~ fourfiles_check 2 n 0 buf ;;
  say "fourfiles ok" ~;;
  URet buf.

(** The names are ['p' + pi] followed by ['0' + i]. *)
Definition cd_name (pi i : Z) : list Z := [112 + pi; 48 + i].
Definition CD_N : Z := 20.
Definition createdelete_child (pi : Z) : uprog unit :=
  for_ (Z.to_nat CD_N) 0 (fun i =>
    fd <~ call (UOpen (cd_name pi i) O_CREATE_RDWR) ;;
    fail_if (fd <? 0) "create failed" ~;;
    do_ (UClose fd) ~;;
    if (0 <? i) && (i mod 2 =? 0) then
      r <~ call (UUnlink (cd_name pi (i / 2))) ;;
      fail_if (r <? 0) "unlink failed"
    else URet tt) ~;;
  UExit.
Definition createdelete_check : uprog unit :=
  for_ (Z.to_nat CD_N) 0 (fun i =>
    for_ 4 0 (fun pi =>
      fd <~ call (UOpen (cd_name pi i) 0) ;;
      (if ((i =? 0) || (CD_N / 2 <=? i)) && (fd <? 0) then
         sayf 1 "oops createdelete %s didn't exist" [AStr (Some (cd_name pi i))] ~;; UExit
       else if ((1 <=? i) && (i <? CD_N / 2)) && (0 <=? fd) then
         sayf 1 "oops createdelete %s did exist" [AStr (Some (cd_name pi i))] ~;; UExit
       else URet tt) ~;;
      if 0 <=? fd then do_ (UClose fd) else URet tt)).
Definition createdelete_cleanup : uprog unit :=
  for_ (Z.to_nat CD_N) 0 (fun i => for_ 4 0 (fun _ => do_ (UUnlink (cd_name i i)))).
Definition createdelete : uprog unit :=
  say "createdelete test" ~;;
  for_ 4 0 (fun pi =>
    pid <~ call UFork ;;
    fail_if (pid <? 0) "fork failed" ~;;
    if pid =? 0 then createdelete_child pi else URet tt) ~;;
  for_ 4 0 (fun _ => do_ UWait) ~;;
  createdelete_check ~;;
  createdelete_cleanup ~;;
  say "createdelete ok".

(** ** Links *)
Definition unlinkread (buf : list Z) : uprog (list Z) :=
  say "unlinkread test" ~;;
  fd <~ open_ "unlinkread" O_CREATE_RDWR ;;
  fail_if (fd <? 0) "create unlinkread failed" ~;;
  write_ fd "hello" ~;;
  do_ (UClose fd) ~;;
  fd <~ open_ "unlinkread" O_RDWR ;;
  fail_if (fd <? 0) "open unlinkread failed" ~;;
  r <~ unlink_ "unlinkread" ;;
  fail_if (negb (r =? 0)) "unlink unlinkread failed" ~;;
  fd1 <~ open_ "unlinkread" O_CREATE_RDWR ;;
  write_ fd1 "yyy" ~;;
  do_ (UClose fd1) ~;;
  kb <~ read_buf fd BUFLEN buf ;;
  let '(k, buf) := kb in
  (if negb (k =? 5) then tellf 1 "unlinkread read failed" [] ~;; UExit else URet tt) ~;;
  fail_if (negb (buf !!! 0%nat =? 104)) "unlinkread wrong data" ~;;
  r <~ call (UWrite fd (take 10 buf)) ;;
  fail_if (negb (r =? 10)) "unlinkread write failed" ~;;
  do_ (UClose fd) ~;;
  do_ (UUnlink (bytes "unlinkread")) ~;;
  say "unlinkread ok" ~;;
  URet buf.

Definition linktest (buf : list Z) : uprog (list Z) :=
  say "linktest" ~;;
  do_ (UUnlink (bytes "lf1")) ~;;
  do_ (UUnlink (bytes "lf2")) ~;;
  fd <~ open_ "lf1" O_CREATE_RDWR ;;
  fail_if (fd <? 0) "create lf1 failed" ~;;
  r <~ write_ fd "hello" ;;
  fail_if (negb (r =? 5)) "write lf1 failed" ~;;
  do_ (UClose fd) ~;;
  r <~ link_ "lf1" "lf2" ;;
  fail_if (r <? 0) "link lf1 lf2 failed" ~;;
  do_ (UUnlink (bytes "lf1")) ~;;
  r <~ open_ "lf1" 0 ;;
  fail_if (0 <=? r) "unlinked lf1 but it is still there!" ~;;
  fd <~ open_ "lf2" 0 ;;
  fail_if (fd <? 0) "open lf2 failed" ~;;
  kb <~ read_buf fd BUFLEN buf ;;
  fail_if (negb (kb.1 =? 5)) "read lf2 failed" ~;;
  do_ (UClose fd) ~;;
  r <~ link_ "lf2" "lf2" ;;
  fail_if (0 <=? r) "link lf2 lf2 succeeded! oops" ~;;
  do_ (UUnlink (bytes "lf2")) ~;;
  r <~ link_ "lf2" "lf1" ;;
  fail_if (0 <=? r) "link non-existant succeeded! oops" ~;;
  r <~ link_ "." "lf1" ;;
  fail_if (0 <=? r) "link . lf1 succeeded! oops" ~;;
  say "linktest ok" ~;;
  URet kb.2.

Definition con_name (i : Z) : list Z := [67; 48 + i].
(** The listing of the directory: [fa] are the files seen, [k] their number. *)
Fixpoint concreate_scan (n : nat) (fd k : Z) (fa : list bool) (de : list Z) : uprog Z :=
  rb <~ read_buf fd 16 de ;;
  let '(r, de) := rb in
  if 0 <? r then
    match n with
    | O => UFuel
    | S n' =>
        let name := drop 2 de in
        if de !!! 0%nat + 2 ^ 8 * de !!! 1%nat =? 0 then concreate_scan n' fd k fa de
        else if (name !!! 0%nat =? 67) && (name !!! 2%nat =? 0) then
          let i := i8 (name !!! 1%nat) - 48 in
          if (i <? 0) || (40 <=? i) then sayf 1 "concreate weird file %s" [AStr (Some name)] ~;; UExit
          else if default false (fa !! Z.to_nat i) then sayf 1 "concreate duplicate file %s" [AStr (Some name)] ~;; UExit
          else concreate_scan n' fd (k + 1) (<[Z.to_nat i := true]> fa) de
        else concreate_scan n' fd k fa de
    end
  else URet k.
(** [close(open(file, 0))] *)
Definition open_close (path : list Z) (mode : Z) : uprog unit := fd <~ call (UOpen path mode) ;; do_ (UClose fd).
Definition concreate (n : nat) : uprog unit :=
  say "concreate test" ~;;
  for_ 40 0 (fun i =>
    do_ (UUnlink (con_name i)) ~;;
    pid <~ call UFork ;;
    (if negb (pid =? 0) && (i mod 3 =? 1) then do_ (ULink (bytes "C0") (con_name i))
     else if (pid =? 0) && (i mod 5 =? 1) then do_ (ULink (bytes "C0") (con_name i))
     else
       fd <~ call (UOpen (con_name i) O_CREATE_RDWR) ;;
       failf_if (fd <? 0) "concreate create %s failed" [AStr (Some (con_name i))] ~;;
       do_ (UClose fd)) ~;;
    if pid =? 0 then UExit else do_ UWait) ~;;
  fd <~ open_ "." 0 ;;
  k <~ concreate_scan n fd 0 (replicate 40 false) (replicate 16 0) ;;
  do_ (UClose fd) ~;;
  fail_if (negb (k =? 40)) "concreate not enough files in directory listing" ~;;
  for_ 40 0 (fun i =>
    pid <~ call UFork ;;
    fail_if (pid <? 0) "fork failed" ~;;
    (if ((i mod 3 =? 0) && (pid =? 0)) || ((i mod 3 =? 1) && negb (pid =? 0)) then
       for_ 4 0 (fun _ => open_close (con_name i) 0)
     else for_ 4 0 (fun _ => do_ (UUnlink (con_name i)))) ~;;
    if pid =? 0 then UExit else do_ UWait) ~;;
  say "concreate ok".

Fixpoint linkunlink_loop (k : nat) (x : Z) : uprog unit :=
  match k with
  | O => URet tt
  | S k' =>
      let x := u32 (x * 1103515245 + 12345) in
      (if x mod 3 =? 0 then open_close (bytes "x") (Z.lor O_RDWR O_CREATE)
       else if x mod 3 =? 1 then do_ (ULink (bytes "cat") (bytes "x"))
       else do_ (UUnlink (bytes "x"))) ~;;
      linkunlink_loop k' x
  end.
Definition linkunlink : uprog unit :=
  say "linkunlink test" ~;;
  do_ (UUnlink (bytes "x")) ~;;
  pid <~ call UFork ;;
  fail_if (pid <? 0) "fork failed" ~;;
  linkunlink_loop 100 (if negb (pid =? 0) then 1 else 97) ~;;
  (if negb (pid =? 0) then do_ UWait else UExit) ~;;
  say "linkunlink ok".

Definition bd_name (i : Z) : list Z := [120; 48 + i / 64; 48 + i mod 64].
Definition bigdir : uprog unit :=
  say "bigdir test" ~;;
  do_ (UUnlink (bytes "bd")) ~;;
  fd <~ open_ "bd" O_CREATE ;;
  fail_if (fd <? 0) "bigdir create failed" ~;;
  do_ (UClose fd) ~;;
  for_ 500 0 (fun i =>
    r <~ call (ULink (bytes "bd") (bd_name i)) ;;
    fail_if (negb (r =? 0)) "bigdir link failed") ~;;
  do_ (UUnlink (bytes "bd")) ~;;
  for_ 500 0 (fun i =>
    r <~ call (UUnlink (bd_name i)) ;;
    (if negb (r =? 0) then tellf 1 "bigdir unlink failed" [] ~;; UExit else URet tt)) ~;;
  say "bigdir ok".

(** ** Paths *)
(** [if(bad(call)){ printf(1, s); exit(); }] *)
Definition refuse (c : ucall) (bad : Z -> bool) (s : string) : uprog unit := r <~ call c ;; fail_if (bad r) s.
Definition nonzero (r : Z) : bool := negb (r =? 0).
Definition zero (r : Z) : bool := r =? 0.
Definition negative (r : Z) : bool := r <? 0.
Definition nonnegative (r : Z) : bool := 0 <=? r.

Definition subdir (buf : list Z) : uprog (list Z) :=
  say "subdir test" ~;;
  do_ (UUnlink (bytes "ff")) ~;;
  refuse (UMkdir (bytes "dd")) nonzero "subdir mkdir dd failed" ~;;
  fd <~ open_ "dd/ff" O_CREATE_RDWR ;;
  fail_if (fd <? 0) "create dd/ff failed" ~;;
  write_ fd "ff" ~;;
  do_ (UClose fd) ~;;
  refuse (UUnlink (bytes "dd")) nonnegative "unlink dd (non-empty dir) succeeded!" ~;;
  refuse (UMkdir (bytes "/dd/dd")) nonzero "subdir mkdir dd/dd failed" ~;;
  fd <~ open_ "dd/dd/ff" O_CREATE_RDWR ;;
  fail_if (fd <? 0) "create dd/dd/ff failed" ~;;
  write_ fd "FF" ~;;
  do_ (UClose fd) ~;;
  fd <~ open_ "dd/dd/../ff" 0 ;;
  fail_if (fd <? 0) "open dd/dd/../ff failed" ~;;
  kb <~ read_buf fd BUFLEN buf ;;
  let '(cc, buf) := kb in
  fail_if (negb (cc =? 2) || negb (buf !!! 0%nat =? 102)) "dd/dd/../ff wrong content" ~;;
  do_ (UClose fd) ~;;
  refuse (ULink (bytes "dd/dd/ff") (bytes "dd/dd/ffff")) nonzero "link dd/dd/ff dd/dd/ffff failed" ~;;
  refuse (UUnlink (bytes "dd/dd/ff")) nonzero "unlink dd/dd/ff failed" ~;;
  refuse (UOpen (bytes "dd/dd/ff") O_RDONLY) nonnegative "open (unlinked) dd/dd/ff succeeded" ~;;
  refuse (UChdir (bytes "dd")) nonzero "chdir dd failed" ~;;
  refuse (UChdir (bytes "dd/../../dd")) nonzero "chdir dd/../../dd failed" ~;;
  refuse (UChdir (bytes "dd/../../../dd")) nonzero "chdir dd/../../dd failed" ~;;
  refuse (UChdir (bytes "./..")) nonzero "chdir ./.. failed" ~;;
  fd <~ open_ "dd/dd/ffff" 0 ;;
  fail_if (fd <? 0) "open dd/dd/ffff failed" ~;;
  kb <~ read_buf fd BUFLEN buf ;;
  let '(cc, buf) := kb in
  fail_if (negb (cc =? 2)) "read dd/dd/ffff wrong len" ~;;
  do_ (UClose fd) ~;;
  refuse (UOpen (bytes "dd/dd/ff") O_RDONLY) nonnegative "open (unlinked) dd/dd/ff succeeded!" ~;;
  refuse (UOpen (bytes "dd/ff/ff") O_CREATE_RDWR) nonnegative "create dd/ff/ff succeeded!" ~;;
  refuse (UOpen (bytes "dd/xx/ff") O_CREATE_RDWR) nonnegative "create dd/xx/ff succeeded!" ~;;
  refuse (UOpen (bytes "dd") O_CREATE) nonnegative "create dd succeeded!" ~;;
  refuse (UOpen (bytes "dd") O_RDWR) nonnegative "open dd rdwr succeeded!" ~;;
  refuse (UOpen (bytes "dd") O_WRONLY) nonnegative "open dd wronly succeeded!" ~;;
  refuse (ULink (bytes "dd/ff/ff") (bytes "dd/dd/xx")) zero "link dd/ff/ff dd/dd/xx succeeded!" ~;;
  refuse (ULink (bytes "dd/xx/ff") (bytes "dd/dd/xx")) zero "link dd/xx/ff dd/dd/xx succeeded!" ~;;
  refuse (ULink (bytes "dd/ff") (bytes "dd/dd/ffff")) zero "link dd/ff dd/dd/ffff succeeded!" ~;;
  refuse (UMkdir (bytes "dd/ff/ff")) zero "mkdir dd/ff/ff succeeded!" ~;;
  refuse (UMkdir (bytes "dd/xx/ff")) zero "mkdir dd/xx/ff succeeded!" ~;;
  refuse (UMkdir (bytes "dd/dd/ffff")) zero "mkdir dd/dd/ffff succeeded!" ~;;
  refuse (UUnlink (bytes "dd/xx/ff")) zero "unlink dd/xx/ff succeeded!" ~;;
  refuse (UUnlink (bytes "dd/ff/ff")) zero "unlink dd/ff/ff succeeded!" ~;;
  refuse (UChdir (bytes "dd/ff")) zero "chdir dd/ff succeeded!" ~;;
  refuse (UChdir (bytes "dd/xx")) zero "chdir dd/xx succeeded!" ~;;
  refuse (UUnlink (bytes "dd/dd/ffff")) nonzero "unlink dd/dd/ff failed" ~;;
  refuse (UUnlink (bytes "dd/ff")) nonzero "unlink dd/ff failed" ~;;
  refuse (UUnlink (bytes "dd")) zero "unlink non-empty dd succeeded!" ~;;
  refuse (UUnlink (bytes "dd/dd")) negative "unlink dd/dd failed" ~;;
  refuse (UUnlink (bytes "dd")) negative "unlink dd failed" ~;;
  say "subdir ok" ~;;
  URet buf.

Definition bigwrite_one (sz : Z) (buf : list Z) : uprog unit :=
  fd <~ open_ "bigwrite" O_CREATE_RDWR ;;
  fail_if (fd <? 0) "cannot create bigwrite" ~;;
  for_ 2 0 (fun _ =>
    cc <~ call (UWrite fd (take (Z.to_nat sz) buf)) ;;
    failf_if (negb (cc =? sz)) "write(%d) ret %d" [AInt sz; AInt cc]) ~;;
  do_ (UClose fd) ~;;
  do_ (UUnlink (bytes "bigwrite")).
(** [for(sz = 499; sz < 12*512; sz += 471)]: twelve sizes. *)
Definition bigwrite (buf : list Z) : uprog unit :=
  say "bigwrite test" ~;;
  do_ (UUnlink (bytes "bigwrite")) ~;;
  for_ 12 0 (fun k => bigwrite_one (499 + 471 * k) buf) ~;;
  say "bigwrite ok".

Fixpoint bigfile_write (k : nat) (i fd : Z) (buf : list Z) : uprog (list Z) :=
  match k with
  | O => URet buf
  | S k' =>
      let buf := overlay (replicate 600 (u8 i)) buf in
      r <~ call (UWrite fd (take 600 buf)) ;;
      fail_if (negb (r =? 600)) "write bigfile failed" ~;;
      bigfile_write k' (i + 1) fd buf
  end.
Fixpoint bigfile_read (n : nat) (i fd total : Z) (buf : list Z) : uprog (Z * list Z) :=
  kb <~ read_buf fd 300 buf ;;
  let '(cc, buf) := kb in
  fail_if (cc <? 0) "read bigfile failed" ~;;
  if cc =? 0 then URet (total, buf) else
  fail_if (negb (cc =? 300)) "short read bigfile" ~;;
  fail_if (negb (i8 (buf !!! 0%nat) =? i / 2) || negb (i8 (buf !!! 299%nat) =? i / 2)) "read bigfile wrong data" ~;;
  match n with
  | O => UFuel
  | S n' => bigfile_read n' (i32 (i + 1)) fd (i32 (total + cc)) buf
  end.
Definition bigfile (n : nat) (buf : list Z) : uprog (list Z) :=
  say "bigfile test" ~;;
  do_ (UUnlink (bytes "bigfile")) ~;;
  fd <~ open_ "bigfile" O_CREATE_RDWR ;;
  (if fd <? 0 then tellf 1 "cannot create bigfile" [] ~;; UExit else URet tt) ~;;
  buf <~ bigfile_write 20 0 fd buf ;;
  do_ (UClose fd) ~;;
  fd <~ open_ "bigfile" 0 ;;
  fail_if (fd <? 0) "cannot open bigfile" ~;;
  tb <~ bigfile_read n 0 fd 0 buf ;;
  do_ (UClose fd) ~;;
  fail_if (negb (tb.1 =? 20 * 600)) "read bigfile wrong total" ~;;
  do_ (UUnlink (bytes "bigfile")) ~;;
  say "bigfile test ok" ~;;
  URet tb.2.

Definition fourteen : uprog unit :=
  say "fourteen test" ~;;
  refuse (UMkdir (bytes "12345678901234")) nonzero "mkdir 12345678901234 failed" ~;;
  refuse (UMkdir (bytes "12345678901234/123456789012345")) nonzero "mkdir 12345678901234/123456789012345 failed" ~;;
  fd <~ open_ "123456789012345/123456789012345/123456789012345" O_CREATE ;;
  fail_if (fd <? 0) "create 123456789012345/123456789012345/123456789012345 failed" ~;;
  do_ (UClose fd) ~;;
  fd <~ open_ "12345678901234/12345678901234/12345678901234" 0 ;;
  fail_if (fd <? 0) "open 12345678901234/12345678901234/12345678901234 failed" ~;;
  do_ (UClose fd) ~;;
  refuse (UMkdir (bytes "12345678901234/12345678901234")) zero "mkdir 12345678901234/12345678901234 succeeded!" ~;;
  refuse (UMkdir (bytes "123456789012345/12345678901234")) zero "mkdir 12345678901234/123456789012345 succeeded!" ~;;
  say "fourteen ok".

Definition rmdot : uprog unit :=
  say "rmdot test" ~;;
  refuse (UMkdir (bytes "dots")) nonzero "mkdir dots failed" ~;;
  refuse (UChdir (bytes "dots")) nonzero "chdir dots failed" ~;;
  refuse (UUnlink (bytes ".")) zero "rm . worked!" ~;;
  refuse (UUnlink (bytes "..")) zero "rm .. worked!" ~;;
  refuse (UChdir (bytes "/")) nonzero "chdir / failed" ~;;
  refuse (UUnlink (bytes "dots/.")) zero "unlink dots/. worked!" ~;;
  refuse (UUnlink (bytes "dots/..")) zero "unlink dots/.. worked!" ~;;
  refuse (UUnlink (bytes "dots")) nonzero "unlink dots failed!" ~;;
  say "rmdot ok".

Definition dirfile : uprog unit :=
  say "dir vs file" ~;;
  fd <~ open_ "dirfile" O_CREATE ;;
  fail_if (fd <? 0) "create dirfile failed" ~;;
  do_ (UClose fd) ~;;
  refuse (UChdir (bytes "dirfile")) zero "chdir dirfile succeeded!" ~;;
  refuse (UOpen (bytes "dirfile/xx") 0) nonnegative "create dirfile/xx succeeded!" ~;;
  refuse (UOpen (bytes "dirfile/xx") O_CREATE) nonnegative "create dirfile/xx succeeded!" ~;;
  refuse (UMkdir (bytes "dirfile/xx")) zero "mkdir dirfile/xx succeeded!" ~;;
  refuse (UUnlink (bytes "dirfile/xx")) zero "unlink dirfile/xx succeeded!" ~;;
  refuse (ULink (bytes "README") (bytes "dirfile/xx")) zero "link to dirfile/xx succeeded!" ~;;
  refuse (UUnlink (bytes "dirfile")) nonzero "unlink dirfile failed!" ~;;
  refuse (UOpen (bytes ".") O_RDWR) nonnegative "open . for writing succeeded!" ~;;
  fd <~ open_ "." 0 ;;
  r <~ write_ fd "x" ;;
  fail_if (0 <? r) "write . succeeded!" ~;;
  do_ (UClose fd) ~;;
  say "dir vs file OK".

Definition iref : uprog unit :=
  say "empty file name" ~;;
  for_ 51 0 (fun _ =>
    refuse (UMkdir (bytes "irefd")) nonzero "mkdir irefd failed" ~;;
    refuse (UChdir (bytes "irefd")) nonzero "chdir irefd failed" ~;;
    do_ (UMkdir []) ~;;
    do_ (ULink (bytes "README") []) ~;;
    fd <~ call (UOpen [] O_CREATE) ;;
    (if 0 <=? fd then do_ (UClose fd) else URet tt) ~;;
    fd <~ open_ "xx" O_CREATE ;;
    (if 0 <=? fd then do_ (UClose fd) else URet tt) ~;;
    do_ (UUnlink (bytes "xx"))) ~;;
  do_ (UChdir (bytes "/")) ~;;
  say "empty file name OK".

(** ** Memory and arguments *)
Fixpoint fork_many (k : nat) (n : nat) : uprog nat :=
  match k with
  | O => URet n
  | S k' =>
      pid <~ call UFork ;;
      if pid <? 0 then URet n
      else if pid =? 0 then UExit
      else fork_many k' (S n)
  end.
Fixpoint wait_many (n : nat) : uprog unit :=
  match n with
  | O => URet tt
  | S n' =>
      r <~ call UWait ;;
      fail_if (r <? 0) "wait stopped early" ~;;
      wait_many n'
  end.
Definition forktest : uprog unit :=
  say "fork test" ~;;
  n <~ fork_many 1000 0 ;;
  fail_if (n =? 1000)%nat "fork claimed to work 1000 times!" ~;;
  wait_many n ~;;
  r <~ call UWait ;;
  fail_if (negb (r =? -1)) "wait got too many" ~;;
  say "fork test OK".

Definition sbrk (n : Z) : uprog Z := r <~ call (USbrk (i32 n)) ;; URet (u32 r).
Definition BIG : Z := 100 * 1024 * 1024.
Definition lastaddr : Z := BIG - 1.
(** One byte at a time, each written; the end of the memory. *)
Fixpoint sbrk_bytes (k : nat) (i a : Z) : uprog Z :=
  match k with
  | O => URet a
  | S k' =>
      b <~ sbrk 1 ;;
      failf_if (negb (b =? a)) "sbrk test failed %d %x %x" [AInt i; AInt a; AInt b] ~;;
      do_ (UPoke b 1) ~;;
      sbrk_bytes k' (i + 1) (u32 (b + 1))
  end.
Definition sbrk_small : uprog unit :=
  a <~ sbrk 0 ;;
  a <~ sbrk_bytes (Z.to_nat 5000) 0 a ;;
  pid <~ call UFork ;;
  fail_if (pid <? 0) "sbrk test fork failed" ~;;
  sbrk 1 ~;;
  c <~ sbrk 1 ;;
  fail_if (negb (c =? u32 (a + 1))) "sbrk test failed post-fork" ~;;
  (if pid =? 0 then UExit else URet tt) ~;;
  do_ UWait.
Definition sbrk_big (oldbrk : Z) : uprog unit :=
  a <~ sbrk 0 ;;
  p <~ sbrk (u32 (BIG - a)) ;;
  fail_if (negb (p =? a)) "sbrk test failed to grow big address space; enough phys mem?" ~;;
  do_ (UPoke lastaddr 99) ~;;
  a <~ sbrk 0 ;;
  c <~ sbrk (-4096) ;;
  fail_if (c =? 0xffffffff) "sbrk could not deallocate" ~;;
  c <~ sbrk 0 ;;
  failf_if (negb (c =? u32 (a - 4096))) "sbrk deallocation produced wrong address, a %x c %x" [AInt a; AInt c] ~;;
  a <~ sbrk 0 ;;
  c <~ sbrk 4096 ;;
  wrong <~ (if negb (c =? a) then URet true else e <~ sbrk 0 ;; URet (negb (e =? u32 (a + 4096)))) ;;
  failf_if wrong "sbrk re-allocation failed, a %x c %x" [AInt a; AInt c] ~;;
  v <~ call (UPeek lastaddr) ;;
  fail_if (v =? 99) "sbrk de-allocation didn't really deallocate" ~;;
  a <~ sbrk 0 ;;
  e <~ sbrk 0 ;;
  c <~ sbrk (- (e - oldbrk)) ;;
  failf_if (negb (c =? a)) "sbrk downsize failed, a %x c %x" [AInt a; AInt c].
(** Reading the kernel's memory, every 50000 bytes of its first 2000000. *)
Definition sbrk_kernel : uprog unit :=
  for_ 40 0 (fun k =>
    let a := KERNBASE + 50000 * k in
    ppid <~ call UGetpid ;;
    pid <~ call UFork ;;
    fail_if (pid <? 0) "fork failed" ~;;
    (if pid =? 0 then
       v <~ call (UPeek a) ;;
       sayf stdout "oops could read %x = %x" [AInt a; AInt v] ~;;
       do_ (UKill ppid) ~;;
       UExit
     else URet tt) ~;;
    do_ UWait).
Fixpoint sleep_forever {A} (n : nat) : uprog A :=
  do_ (USleep 1000) ~;;
  match n with O => UFuel | S n' => sleep_forever n' end.
Fixpoint sbrk_children (k : nat) (n : nat) (fds : Z * Z) : uprog (list Z) :=
  match k with
  | O => URet []
  | S k' =>
      pid <~ call UFork ;;
      (if pid =? 0 then
         e <~ sbrk 0 ;;
         sbrk (u32 (BIG - e)) ~;;
         write_ fds.2 "x" ~;;
         sleep_forever n
       else URet tt) ~;;
      (if negb (pid =? -1) then do_ (URead fds.1 1) else URet tt) ~;;
      pids <~ sbrk_children k' n fds ;;
      URet (pid :: pids)
  end.
Fixpoint kill_children (pids : list Z) : uprog unit :=
  match pids with
  | [] => URet tt
  | pid :: pids' =>
      (if pid =? -1 then URet tt else do_ (UKill pid) ~;; do_ UWait) ~;;
      kill_children pids'
  end.
Definition sbrktest (n : nat) : uprog unit :=
  say "sbrk test" ~;;
  oldbrk <~ sbrk 0 ;;
  sbrk_small ~;;
  sbrk_big oldbrk ~;;
  sbrk_kernel ~;;
  p <~ ucall_ UPipe ;;
  fail_if (negb (r_val p =? 0)) "pipe() failed" ~;;
  pids <~ sbrk_children 10 n (r_fds p) ;;
  c <~ sbrk 4096 ;;
  kill_children pids ~;;
  fail_if (c =? 0xffffffff) "failed sbrk leaked memory" ~;;
  e <~ sbrk 0 ;;
  (if oldbrk <? e then e <~ sbrk 0 ;; sbrk (- (e - oldbrk)) ~;; URet tt else URet tt) ~;;
  say "sbrk test OK".

Definition validateint (p : Z) : uprog unit := do_ (USleepAt p).
(** [for(p = 0; p <= 1100*1024; p += 4096)] *)
Definition validatetest : uprog unit :=
  say "validate test" ~;;
  for_ 276 0 (fun k =>
    let p := 4096 * k in
    pid <~ call UFork ;;
    (if pid =? 0 then validateint p ~;; UExit else URet tt) ~;;
    do_ (USleep 0) ~;;
    do_ (USleep 0) ~;;
    do_ (UKill pid) ~;;
    do_ UWait ~;;
    r <~ call (ULinkAt (bytes "nosuchfile") p) ;;
    fail_if (negb (r =? -1)) "link should not succeed") ~;;
  say "validate ok".

Definition bsstest (uninit : list Z) : uprog unit :=
  say "bss test" ~;;
  fail_if (existsb nonzero uninit) "bss test failed" ~;;
  say "bss test ok".

Definition bigarg : list Z := bytes "bigargs test: failed" ++ [10] ++ replicate 199 32.
Definition bigargtest : uprog unit :=
  do_ (UUnlink (bytes "bigarg-ok")) ~;;
  pid <~ call UFork ;;
  (if pid =? 0 then
     say "bigarg test" ~;;
     do_ (UExec (bytes "echo") (replicate (MAXARG - 1) bigarg)) ~;;
     say "bigarg test ok" ~;;
     fd <~ open_ "bigarg-ok" O_CREATE ;;
     do_ (UClose fd) ~;;
     UExit
   else fail_if (pid <? 0) "bigargtest: fork failed") ~;;
  do_ UWait ~;;
  fd <~ open_ "bigarg-ok" 0 ;;
  fail_if (fd <? 0) "bigarg test failed!" ~;;
  do_ (UClose fd) ~;;
  do_ (UUnlink (bytes "bigarg-ok")).

Definition fsfull_name (k : Z) : list Z := [102; u8 (48 + k / 1000); u8 (48 + k mod 1000 / 100); u8 (48 + k mod 100 / 10); u8 (48 + k mod 10)].
Fixpoint fsfull_write (n : nat) (fd total : Z) (buf : list Z) : uprog Z :=
  cc <~ call (UWrite fd (take 512 buf)) ;;
  if cc <? 512 then URet total else
  match n with O => UFuel | S n' => fsfull_write n' fd (i32 (total + cc)) buf end.
(** The number of the file at which the first loop ends. *)
Fixpoint fsfull_create (n : nat) (k : Z) (buf : list Z) : uprog Z :=
  sayf 1 "writing %s" [AStr (Some (fsfull_name k))] ~;;
  fd <~ call (UOpen (fsfull_name k) O_CREATE_RDWR) ;;
  if fd <? 0 then sayf 1 "open %s failed" [AStr (Some (fsfull_name k))] ~;; URet k else
  total <~ fsfull_write n fd 0 buf ;;
  sayf 1 "wrote %d bytes" [AInt total] ~;;
  do_ (UClose fd) ~;;
  if total =? 0 then URet k else
  match n with O => UFuel | S n' => fsfull_create n' (i32 (k + 1)) buf end.
Fixpoint fsfull_remove (j : nat) : uprog unit :=
  do_ (UUnlink (fsfull_name (Z.of_nat j))) ~;;
  match j with O => URet tt | S j' => fsfull_remove j' end.
Definition fsfull (n : nat) (buf : list Z) : uprog unit :=
  say "fsfull test" ~;;
  k <~ fsfull_create n 0 buf ;;
  fsfull_remove (Z.to_nat k) ~;;
  say "fsfull test finished".

Definition RTC_ADDR : Z := 0x70.
Definition RTC_DATA : Z := 0x71.
Definition uio : uprog unit :=
  say "uio test" ~;;
  pid <~ call UFork ;;
  (if pid =? 0 then
     do_ (UOut RTC_ADDR 0x09) ~;;
     do_ (UIn RTC_DATA) ~;;
     fail "uio: uio succeeded; test FAILED"
   else fail_if (pid <? 0) "fork failed") ~;;
  do_ UWait ~;;
  say "uio test done".

Definition argptest : uprog unit :=
  fd <~ open_ "init" O_RDONLY ;;
  (if fd <? 0 then sayf 2 "open failed" [] ~;; UExit else URet tt) ~;;
  e <~ sbrk 0 ;;
  do_ (UReadAt fd (u32 (e - 1)) (-1)) ~;;
  do_ (UClose fd) ~;;
  say "arg test passed".

(** The next state of the generator, which is also its result. *)
Definition rand (randstate : Z) : Z := u32 (randstate * 1664525 + 1013904223).

Definition usertests_main (n : nat) : uprog unit :=
  let buf := replicate (Z.to_nat BUFLEN) 0 in
  say "usertests starting" ~;;
  r <~ open_ "usertests.ran" 0 ;;
  fail_if (0 <=? r) "already ran user tests -- rebuild fs.img" ~;;
  open_close (bytes "usertests.ran") O_CREATE ~;;
  argptest ~;;
  createdelete ~;;
  linkunlink ~;;
  concreate n ~;;
  buf <~ fourfiles n buf ;;
  sharedfd n ~;;
  bigargtest ~;;
  bigwrite buf ~;;
  bigargtest ~;;
  bsstest (replicate (Z.to_nat 10000) 0) ~;;
  sbrktest n ~;;
  validatetest ~;;
  opentest ~;;
  buf <~ writetest buf ;;
  buf <~ writetest1 n buf ;;
  createtest ~;;
  openiputtest ~;;
  exitiputtest ~;;
  iputtest ~;;
  mem n ~;;
  buf <~ pipe1 n buf ;;
  buf <~ preempt buf ;;
  exitwait ~;;
  rmdot ~;;
  fourteen ~;;
  buf <~ bigfile n buf ;;
  buf <~ subdir buf ;;
  buf <~ linktest buf ;;
  unlinkread buf ~;;
  dirfile ~;;
  iref ~;;
  forktest ~;;
  bigdir ~;;
  uio ~;;
  exectest ~;;
  UExit.

(** ** The tests as judges *)
Section judges.
Implicit Types (l buf : list Z) (ins : list (list Z)).

(** The bytes of the sequence from [seq] on. *)
Lemma pipe_bytes_length seq k : length (pipe_bytes seq k) = k.
Proof. unfold pipe_bytes. by rewrite length_fmap, length_seq. Qed.
Lemma pipe_bytes_S seq k : pipe_bytes seq (S k) = u8 seq :: pipe_bytes (seq + 1) k.
Proof.
  unfold pipe_bytes. rewrite <- cons_seq, fmap_cons, Z.add_0_r. f_equal. rewrite <- fmap_S_seq, <- list_fmap_compose.
  apply list_fmap_ext. intros j x _. unfold compose. f_equal. lia.
Qed.
Lemma pipe_bytes_app seq k k' : pipe_bytes seq (k + k') = pipe_bytes seq k ++ pipe_bytes (seq + Z.of_nat k) k'.
Proof.
  revert seq. induction k as [|k IH]; intros seq; [by rewrite Z.add_0_r|].
  change (S k + k')%nat with (S (k + k')). rewrite !pipe_bytes_S, IH. replace (seq + Z.of_nat (S k)) with (seq + 1 + Z.of_nat k) by lia. done.
Qed.
Lemma land_255 x : Z.land x 0xff = u8 x.
Proof. change 0xff with (Z.ones 8). by apply Z.land_ones. Qed.

(** The check of one chunk. *)
Lemma pipe1_check_ok l : forall seq, Forall (fun c => 0 <= c < 256) l -> 0 <= seq -> seq + Z.of_nat (length l) < 2 ^ 31 ->
  pipe1_check l seq = if bool_decide (l = pipe_bytes seq (length l)) then Some (seq + Z.of_nat (length l)) else None.
Proof.
  induction l as [|c l IH]; intros seq Hl Hs Hb; cbn [pipe1_check length]; [by rewrite Z.add_0_r|].
  apply Forall_cons in Hl as [Hc Hl]. cbn [length] in Hb. rewrite pipe_bytes_S, !land_255. unfold u8 at 1. rewrite Z.mod_small by lia.
  destruct (Z.eqb_spec c (u8 seq)) as [->|Hne]; cbn [negb].
  - rewrite i32_small by lia. rewrite IH by (done || lia). destruct (decide (l = pipe_bytes (seq + 1) (length l))) as [E|E].
    + rewrite !bool_decide_eq_true_2; [f_equal; lia|by f_equal|done].
    + rewrite !bool_decide_eq_false_2; [done|by intros [= ?]|done].
  - rewrite bool_decide_eq_false_2; [done|by intros [= ? _]].
Qed.

Lemma overlay_got l buf : take (Z.to_nat (Z.of_nat (length l))) (overlay (take (Z.to_nat (Z.of_nat (length l))) l) buf) = l.
Proof. rewrite Nat2Z.id, firstn_all. unfold overlay. by apply take_app_length. Qed.

Lemma session_oops2 ins : session (say "pipe1 oops 2") ins = (bytes "pipe1 oops 2" ++ [10], Returned tt ins).
Proof. vm_compute. reflexivity. Qed.

(** The loop accepts exactly the bytes of the sequence. *)
Lemma pipe1_read_spec n fd ins : forall seq total cc buf,
  Forall (fun l => l <> [] /\ Forall (fun c => 0 <= c < 256) l) ins -> (length ins <= n)%nat -> 0 <= seq -> 0 <= total ->
  seq + Z.of_nat (length (mjoin ins)) < 2 ^ 31 -> total + Z.of_nat (length (mjoin ins)) < 2 ^ 31 ->
  exists buf' rest, session (pipe1_read n fd seq total cc buf) ins =
    if bool_decide (mjoin ins = pipe_bytes seq (length (mjoin ins)))
    then ([], Returned (Some (total + Z.of_nat (length (mjoin ins))), buf') [])
    else (bytes "pipe1 oops 2" ++ [10], Returned (None, buf') rest).
Proof.
  revert n. induction ins as [|l ins IH]; intros n seq total cc buf Hins Hn Hs Ht Hb Hb'.
  { exists (overlay [] buf), []. cbn [mjoin list_join length]. rewrite bool_decide_eq_true_2 by done. rewrite Z.add_0_r. by destruct n. }
  apply Forall_cons in Hins as [[Hne Hl] Hins]. destruct n as [|n]; [cbn in Hn; lia|].
  assert (0 < Z.of_nat (length l)) as Hpos by (destruct l; [done|cbn; lia]).
  assert (mjoin (l :: ins) = l ++ mjoin ins) as Ej by done. rewrite Ej, length_app in *. clear Ej.
  cbn [pipe1_read]. rewrite session_bind. unfold read_buf at 1. cbn [ubind ucall_ session r_val r_data]. cbv beta iota.
  rewrite (proj2 (Z.ltb_lt _ _) Hpos), overlay_got, pipe1_check_ok by (done || lia). rewrite pipe_bytes_app.
  destruct (decide (l = pipe_bytes seq (length l))) as [E|E].
  - rewrite (bool_decide_eq_true_2 (l = _)) by done. rewrite i32_small by lia.
    destruct (IH n (seq + Z.of_nat (length l)) (total + Z.of_nat (length l)) (if BUFLEN <? i32 (cc * 2) then BUFLEN else i32 (cc * 2))
      (overlay (take (Z.to_nat (Z.of_nat (length l))) l) buf)) as (buf' & rest & ->); [done|cbn in Hn; lia|lia|lia|lia|lia|].
    exists buf', rest. set (q := pipe_bytes (seq + _) _). destruct (decide (mjoin ins = q)) as [E'|E'].
    + rewrite !bool_decide_eq_true_2; [|by rewrite <- E, E'|done]. rewrite <- Z.add_assoc, Nat2Z.inj_add. done.
    + rewrite !bool_decide_eq_false_2; [done| |done]. rewrite <- E. intros Ea. apply app_inv_head in Ea. done.
  - rewrite (bool_decide_eq_false_2 (l = _)) by done. rewrite session_bind, session_oops2. cbn [session]. eexists _, ins.
    rewrite bool_decide_eq_false_2; [rewrite app_nil_r; done|]. intros [Ea _]%app_inj_1; [done|by rewrite pipe_bytes_length].
Qed.

Lemma session_ok fds ins : session (do_ (UClose fds) ~;; do_ UWait ~;; say "pipe1 ok" ~;; URet tt) ins = (bytes "pipe1 ok" ++ [10], Returned tt ins).
Proof. vm_compute. reflexivity. Qed.
Lemma session_fmt_char fd c fmt args ins : 0 <= c < 256 -> c <> 37 ->
  (session (printf_loop fd false (c :: fmt) args) ins).1 = c :: (session (printf_loop fd false fmt args) ins).1.
Proof.
  intros Hc Hne. cbn [printf_loop]. unfold print_char. cbn [negb]. rewrite (proj2 (Z.eqb_neq c 37)) by done.
  rewrite session_bind. cbn [putc ucall_ ubind session fst snd]. unfold u8. rewrite Z.mod_small by done. by destruct (session (printf_loop _ _ _ _) _).
Qed.
(** The report of a wrong length is not that of success. *)
Lemma oops3_text total ins :
  exists o, (session (sayf stdout "pipe1 oops 3 total %d" [AInt total]) ins).1 = bytes "pipe1 oops 3 total " ++ o.
Proof.
  unfold sayf, printf. change (cstr _) with (bytes "pipe1 oops 3 total %d" ++ [10]).
  change (bytes "pipe1 oops 3 total %d" ++ [10]) with (bytes "pipe1 oops 3 total " ++ [37; 100; 10]).
  set (t := [37; 100; 10]). exists (session (printf_loop stdout false t [AInt total]) ins).1.
  assert (Forall (fun c => 0 <= c < 256 /\ c <> 37) (bytes "pipe1 oops 3 total ")) as Hb by (vm_compute; repeat constructor; intros [=]).
  induction Hb as [|c l [Hc Hne] _ IH]; [done|]. cbn [app]. by rewrite session_fmt_char, IH.
Qed.
End judges.

(** The parent of [pipe1] reports success exactly when the bytes that come out
    of the pipe, in whatever chunks, are the 5165 that the child puts in: a
    lost, repeated, changed or reordered byte is noticed. *)
Theorem pipe1_checks n fds buf ins :
  Forall (fun l => l <> [] /\ Forall (fun c => 0 <= c < 256) l) ins -> (length ins <= n)%nat -> Z.of_nat (length (mjoin ins)) < 2 ^ 31 ->
  (session (pipe1_parent n fds buf) ins).1 = bytes "pipe1 ok" ++ [10] <-> mjoin ins = pipe_bytes 0 (5 * 1033).
Proof.
  intros Hins Hn Hb. destruct (pipe1_read_spec n fds.1 ins 0 0 1 buf) as (buf' & rest & E); [done|done|lia|lia|lia|lia|].
  unfold pipe1_parent. rewrite session_bind. cbn [do_ ucall_ ubind session]. rewrite session_bind, E. clear E.
  destruct (decide (mjoin ins = pipe_bytes 0 (length (mjoin ins)))) as [Hm|Hm].
  - rewrite bool_decide_eq_true_2 by done. cbn [app]. destruct (Z.eqb_spec (0 + Z.of_nat (length (mjoin ins))) (5 * 1033)) as [El|El].
    + cbn [negb failf_if ubind]. split; [intros _; rewrite Hm at 1; f_equal; lia|intros _; vm_compute; reflexivity].
    + cbn [negb failf_if]. rewrite session_bind, session_bind. destruct (oops3_text (0 + Z.of_nat (length (mjoin ins))) []) as [o Ho].
      destruct (session (sayf _ _ _) _) as [o' e]. cbn in Ho. subst o'. split; [|intros Em; exfalso; apply El; rewrite Em, pipe_bytes_length; done].
      intros Eo. exfalso. revert Eo. clear. destruct e as [[] r| |]; cbn; discriminate.
  - rewrite bool_decide_eq_false_2 by done. cbn [session app]. split; [intros Eo; exfalso; revert Eo; clear; discriminate|intros Em; exfalso; apply Hm]. rewrite Em at 1. f_equal. rewrite Em. symmetry. apply pipe_bytes_length.
Qed.

Lemma pipe1_checks_witness :
  (session (pipe1_parent 1 (3, 4) []) [pipe_bytes 0 (5 * 1033)]).1 = bytes "pipe1 ok" ++ [10].
Proof.
  refine (proj2 (pipe1_checks 1 (3, 4) [] [pipe_bytes 0 (5 * 1033)] _ _ _) _).
  - constructor; [|constructor]. split; [intros E%(f_equal (@length Z)); rewrite pipe_bytes_length in E; discriminate E|].
    unfold pipe_bytes. apply Forall_fmap, Forall_true. intros j. unfold compose, u8. apply Z.mod_pos_bound. lia.
  - apply le_n.
  - change (mjoin [pipe_bytes 0 (5 * 1033)]) with (pipe_bytes 0 (5 * 1033) ++ []). rewrite app_nil_r, pipe_bytes_length. reflexivity.
  - apply app_nil_r.
Defined.
