(* ===== verification/Mkfs.v ===== *)
(** * The tool that builds the disk image ([mkfs/mkfs.c])

    The image is a list of blocks and the tool a computation over it and the
    counters [freeinode] and [freeblock].  A failed [assert] is a [panic]; a
    file that cannot be opened, a path without a slash and a read past the end
    of the image are a [Fault].  Other errors of the host, the messages and the
    check of the arguments are left out.  The files of the command line are
    given as the lists of bytes that reading them returns.

    The theorem says that the image is a file system that holds the files: its
    proof keeps, next to the image, the table of inodes and the contents of
    the files ([image_ok]), and shows what each step does to them. *)
From stdpp Require Import functions.
From S2P Require Import Programs.
From S2P Require Import Prelude Types Bio Log Console Fs Fsdata FsSpec Balloc.

Record mkstate := mkMk { img : list (list Z); freeinode : Z; freeblock : Z }.
Definition set_img (f : list (list Z) -> list (list Z)) (s : mkstate) : mkstate := mkMk (f (img s)) (freeinode s) (freeblock s).
Definition M (A : Type) : Type := mkstate -> outcome mkstate A.

(** The layout. *)
Definition NINODES : Z := 200.
Definition nbitmap : Z := FSSIZE / (BSIZE * 8) + 1.
Definition ninodeblocks : Z := NINODES / IPB + 1.
Definition mknlog : Z := LOGSIZE.
Definition nmeta : Z := 2 + mknlog + ninodeblocks + nbitmap.
Definition mksb : superblock :=
  mkSuperblock FSSIZE (FSSIZE - nmeta) NINODES mknlog 2 (2 + mknlog) (2 + mknlog + ninodeblocks).

Definition zeroes : list Z := replicate (Z.to_nat BSIZE) 0.

(** [wsect] past the end extends the file; [rsect] there fails. *)
Definition wsect (sec : Z) (buf : list Z) : M unit :=
  modify (set_img (fun l =>
    let k := Z.to_nat sec in
    if (k <? length l)%nat then <[k := buf]> l else l ++ replicate (k - length l) zeroes ++ [buf])).
Definition rsect (sec : Z) : M (list Z) :=
  o <- gets (fun s => img s !! Z.to_nat sec) ;;
  of_option "read" o.

Definition mk_iblock (ino : Z) : Z := u32 (ino / IPB + inodestart mksb).
Definition winode (ino : Z) (d : dinode) : M unit :=
  buf <- rsect (mk_iblock ino) ;;
  wsect (mk_iblock ino) (put_dinode (Z.to_nat (ino mod IPB)) d buf).
Definition rinode (ino : Z) : M dinode :=
  buf <- rsect (mk_iblock ino) ;;
  ret (get_dinode buf (Z.to_nat (ino mod IPB))).

Definition mk_ialloc (type : Z) : M Z :=
  ino <- gets freeinode ;;
  modify (fun s => mkMk (img s) (u32 (freeinode s + 1)) (freeblock s)) ;;
  winode ino (mkDinode (i16 type) 0 0 1 0 (replicate (S NDIRECT) 0)) ;;
  ret ino.

(** [freeblock++]. *)
Definition next_block : M Z :=
  b <- gets freeblock ;;
  modify (fun s => mkMk (img s) (freeinode s) (u32 (freeblock s + 1))) ;;
  ret b.

Definition mk_balloc (used : Z) : M unit :=
  if negb (used <? BSIZE * 8) then panic "assert" else
  wsect (bmapstart mksb) (foldl (fun buf i => set_bit (Z.of_nat i) buf) zeroes (seq 0 (Z.to_nat used))).

Definition set_addr (k : nat) (b : Z) (d : dinode) : dinode :=
  mkDinode (di_type d) (di_major d) (di_minor d) (di_nlink d) (di_size d) (<[k := b]> (di_addrs d)).
(** The block of [iappend] for block [fbn] of the file, allocated if absent. *)
Definition behind_indirect (din : dinode) (fbn : Z) : M (Z * dinode) :=
  let a := di_addrs din !!! NDIRECT in
  let k := Z.to_nat (fbn - Z.of_nat NDIRECT) in
  indirect <- rsect a ;;
  if word indirect k =? 0 then
    b <- next_block ;;
    wsect a (set_word k b indirect) ;;
    ret (b, din)
  else ret (word indirect k, din).
Definition append_block (din : dinode) (fbn : Z) : M (Z * dinode) :=
  if fbn <? Z.of_nat NDIRECT then
    let k := Z.to_nat fbn in
    if di_addrs din !!! k =? 0 then b <- next_block ;; ret (b, set_addr k b din)
    else ret (di_addrs din !!! k, din)
  else
    din <- (if di_addrs din !!! NDIRECT =? 0 then b <- next_block ;; ret (set_addr NDIRECT b din) else ret din) ;;
    behind_indirect din fbn.

(** The loop of [iappend]; every round stores at least a byte. *)
Fixpoint append_loop (n : nat) (din : dinode) (off : Z) (p : list Z) : M (dinode * Z) :=
  match p with
  | [] => ret (din, off)
  | _ =>
      let fbn := off / BSIZE in
      if negb (fbn <? MAXFILE) then panic "assert" else
      let* (x, din) := append_block din fbn in
      let n1 := Z.min (Z.of_nat (length p)) ((fbn + 1) * BSIZE - off) in
      buf <- rsect x ;;
      wsect x (splice (Z.to_nat (off - fbn * BSIZE)) (take (Z.to_nat n1) p) buf) ;;
      match n with
      | O => stopm NoFuel
      | S n' => append_loop n' din (u32 (off + n1)) (drop (Z.to_nat n1) p)
      end
  end.
Definition iappend (ino : Z) (p : list Z) : M unit :=
  din <- rinode ino ;;
  let* (din, off) := append_loop (length p) din (di_size din) p in
  winode ino (mkDinode (di_type din) (di_major din) (di_minor din) (di_nlink din) off (di_addrs din)).

Fixpoint append_all (ino : Z) (chunks : list (list Z)) : M unit :=
  match chunks with
  | [] => ret tt
  | l :: chunks' => iappend ino l ;; append_all ino chunks'
  end.

(** A file of the command line: its path, and what reading it returns if it
    can be opened.  [rindex] of a path without a slash is a null pointer. *)
Definition host_file : Type := list Z * option (list (list Z)).
Definition shortname (path : list Z) : option (list Z) :=
  (fun p => match p with 95 :: p' => p' | _ => p end) <$> after_slash path.
Definition add_file (rootino : Z) (f : host_file) : M unit :=
  name <- of_option "rindex" (shortname f.1) ;;
  chunks <- of_option "open" f.2 ;;
  ino <- mk_ialloc T_FILE ;;
  iappend rootino (mk_dirent (u16 ino) name) ;;
  append_all ino chunks.
Fixpoint add_files (rootino : Z) (files : list host_file) : M unit :=
  match files with
  | [] => ret tt
  | f :: files' => add_file rootino f ;; add_files rootino files'
  end.

Fixpoint clear_blocks (n : nat) (i : Z) : M unit :=
  match n with
  | O => ret tt
  | S n' => wsect i zeroes ;; clear_blocks n' (i + 1)
  end.

Definition sb_words : list Z :=
  [sb_size mksb; nblocks mksb; ninodes mksb; nlog mksb; logstart mksb; inodestart mksb; bmapstart mksb].

Definition mkfs (files : list host_file) : M unit :=
  modify (fun s => mkMk (img s) (freeinode s) nmeta) ;;
  clear_blocks (Z.to_nat FSSIZE) 0 ;;
  wsect 1 (set_words 0 sb_words zeroes) ;;
  rootino <- mk_ialloc T_DIR ;;
  if negb (rootino =? ROOTINO) then panic "assert" else
  iappend rootino (mk_dirent (u16 rootino) (bytes ".")) ;;
  iappend rootino (mk_dirent (u16 rootino) (bytes "..")) ;;
  add_files rootino files ;;
  din <- rinode rootino ;;
  winode rootino (mkDinode (di_type din) (di_major din) (di_minor din) (di_nlink din)
    (u32 ((di_size din / BSIZE + 1) * BSIZE)) (di_addrs din)) ;;
  used <- gets freeblock ;;
  mk_balloc used.
Definition mkfs_start : mkstate := mkMk [] 1 0.

(** A small image, built in full. *)
Definition demo_files : list host_file :=
  [(bytes "user/_cat", Some [replicate 512 1; replicate 100 2]); (bytes "../README", Some [bytes "xv6"])].
Example mkfs_demo :
  match mkfs demo_files mkfs_start with
  | Done _ s => freeblock s = 63 /\ length (img s) = 1000%nat /\
      bit_set (img s !!! 58%nat) 62 = true /\ bit_set (img s !!! 58%nat) 63 = false /\
      take 16 (drop 32 (img s !!! 59%nat)) = mk_dirent 2 (bytes "cat")
  | _ => False
  end.
Proof. vm_compute. auto. Qed.

(** ** What an image holds *)
Section images.
Implicit Types (l : list (list Z)) (d : dinode) (T : Z -> dinode) (C : Z -> list Z) (k m : nat) (i b fb : Z).

Definition blk l b : list Z := l !!! Z.to_nat b.
Definition inode_at l i : dinode := get_dinode (blk l (mk_iblock i)) (Z.to_nat (i mod IPB)).

(** The block numbers an inode refers to: the direct blocks, at [NDIRECT] the
    indirect block, and behind it the [NINDIRECT] blocks the indirect block
    lists. *)
Definition slot l d k : Z :=
  if (k <=? NDIRECT)%nat then di_addrs d !!! k
  else if (di_addrs d !!! NDIRECT =? 0) || (S NDIRECT + Z.to_nat NINDIRECT <=? k)%nat then 0
  else word (blk l (di_addrs d !!! NDIRECT)) (k - S NDIRECT).
(** The slot for block [n] of the file. *)
Definition file_slot (n : nat) : nat := if (n <? NDIRECT)%nat then n else S n.

(** The file of inode [d] has the bytes of [c] from its start. *)
Definition holds_bytes l d (c : list Z) : Prop := forall (o : nat) v, c !! o = Some v ->
  slot l d (file_slot (o / 512)) <> 0 /\ blk l (slot l d (file_slot (o / 512))) !! (o mod 512)%nat = Some v.

(** The image has inodes [T] whose files begin with [C], and the blocks from
    [fb] on are free: every block in use is referred to once. *)
Record image_ok T C l fb : Prop := {
  im_len : length l = Z.to_nat FSSIZE;
  im_blk : forall b, 0 <= b < FSSIZE -> length (blk l b) = Z.to_nat BSIZE;
  im_fb : nmeta <= fb <= FSSIZE;
  im_ok : forall i, dinode_ok (T i);
  im_range : forall i k, slot l (T i) k <> 0 -> nmeta <= slot l (T i) k < fb;
  im_uniq : forall i j k m, slot l (T i) k <> 0 -> slot l (T i) k = slot l (T j) m -> i = j /\ k = m;
  im_fresh : forall b, fb <= b < FSSIZE -> blk l b = zeroes;
  im_data : forall i, holds_bytes l (T i) (C i) }.

Lemma nmeta_eq : nmeta = 59. Proof. done. Qed.
Lemma blk_insert l b b' x : 0 <= b < Z.of_nat (length l) -> 0 <= b' ->
  blk (<[Z.to_nat b := x]> l) b' = if decide (b' = b) then x else blk l b'.
Proof.
  intros Hb Hb'. unfold blk. case_decide as E; [subst; by rewrite list_lookup_total_insert_eq by lia|].
  rewrite list_lookup_total_insert_ne by lia. done.
Qed.

Lemma slot_ext l l' d k :
  (di_addrs d !!! NDIRECT <> 0 -> blk l' (di_addrs d !!! NDIRECT) = blk l (di_addrs d !!! NDIRECT)) -> slot l' d k = slot l d k.
Proof. intros E. unfold slot. destruct (k <=? NDIRECT)%nat; [done|]. destruct (Z.eqb_spec (di_addrs d !!! NDIRECT) 0); [done|]. by rewrite E. Qed.

Lemma slot_indirect l d : slot l d NDIRECT = di_addrs d !!! NDIRECT.
Proof. done. Qed.
Lemma file_slot_ne n : file_slot n <> NDIRECT.
Proof. unfold file_slot. destruct (Nat.ltb_spec n NDIRECT); lia. Qed.
Lemma file_slot_inj n n' : file_slot n = file_slot n' -> n = n'.
Proof. unfold file_slot. destruct (Nat.ltb_spec n NDIRECT), (Nat.ltb_spec n' NDIRECT); lia. Qed.

Lemma word_zeroes k : (k < Z.to_nat NINDIRECT)%nat -> word zeroes k = 0.
Proof.
  intros Hk. change (Z.to_nat NINDIRECT) with 128%nat in Hk. unfold word, zeroes. change (Z.to_nat BSIZE) with 512%nat.
  by rewrite !lookup_total_replicate_2 by lia.
Qed.

(** A write to a block that no inode refers to, below the data blocks. *)
Lemma image_meta T C l fb b x : image_ok T C l fb -> 0 <= b < nmeta -> length x = Z.to_nat BSIZE ->
  image_ok T C (<[Z.to_nat b := x]> l) fb.
Proof.
  intros [Hl Hb Hf Ho Hr Hu Hz Hd] Hn Hx. rewrite nmeta_eq in *.
  assert (0 <= b < Z.of_nat (length l)) as Hbl by (rewrite Hl; unfold FSSIZE in *; lia).
  assert (forall b', nmeta <= b' -> blk (<[Z.to_nat b := x]> l) b' = blk l b') as Hk.
  { intros b' Hb'. rewrite nmeta_eq in Hb'. rewrite blk_insert by lia. by rewrite decide_False by lia. }
  assert (forall i k, slot (<[Z.to_nat b := x]> l) (T i) k = slot l (T i) k) as Es.
  { intros i k. apply slot_ext. intros H0. apply Hk. specialize (Hr i NDIRECT). rewrite slot_indirect in Hr. by apply Hr. }
  split; try done.
  - by rewrite length_insert.
  - intros b' Hb'. rewrite blk_insert by lia. case_decide; [done|]. by apply Hb.
  - intros i k. rewrite !Es. apply Hr.
  - intros i j k m. rewrite !Es. apply Hu.
  - intros b' Hb'. rewrite Hk by (rewrite nmeta_eq; lia). by apply Hz.
  - intros i o v Hv. rewrite Es. destruct (Hd i o v Hv) as [H1 H2]. split; [done|].
    rewrite Hk by (rewrite nmeta_eq; by apply Hr). done.
Qed.

(** The free block [fb] becomes slot [k] of inode [i]. *)
Lemma image_alloc T C l fb T' l' i k : image_ok T C l fb -> fb < FSSIZE ->
  (forall j, dinode_ok (T' j)) -> length l' = length l ->
  (forall j m, slot l' (T' j) m = if decide (j = i /\ m = k) then fb else slot l (T j) m) -> slot l (T i) k = 0 ->
  (forall b, 0 <= b < FSSIZE -> length (blk l' b) = length (blk l b)) ->
  (forall b, 0 <= b -> (forall j, b <> slot l (T j) NDIRECT) -> blk l' b = blk l b) ->
  image_ok T' C l' (fb + 1).
Proof.
  intros [Hl Hb Hf Ho Hr Hu Hz Hd] Hfb Ho' Hl' Es E0 Hbl Hk. rewrite nmeta_eq in *.
  split; try done; rewrite ?nmeta_eq.
  - congruence.
  - intros b Hb'. rewrite Hbl by done. by apply Hb.
  - lia.
  - intros j m. rewrite Es. case_decide; [lia|]. intros Hne. apply Hr in Hne. lia.
  - intros j j' m m'. rewrite !Es. do 2 case_decide; intros Hne E.
    + destruct_and!. by subst.
    + specialize (Hr j' m'). rewrite <- E in Hr. specialize (Hr ltac:(lia)). lia.
    + apply Hr in Hne. lia.
    + by apply Hu.
  - intros b Hb'. rewrite Hk; [by apply Hz; lia|lia|]. intros j Ej. subst b. specialize (Hr j NDIRECT ltac:(lia)). lia.
  - intros j o v Hv. rewrite Es. destruct (Hd j o v Hv) as [H1 H2]. case_decide as Hc; [destruct Hc as [-> <-]; by rewrite E0 in H1|].
    split; [done|]. rewrite Hk; [done|apply Hr in H1; lia|]. intros j' E. apply Hu in E as [_ E]; [|done]. by apply file_slot_ne in E.
Qed.

(** ... of the inode itself, *)
Lemma set_addr_ok k b d : dinode_ok d -> 0 <= b < 2 ^ 32 -> dinode_ok (set_addr k b d).
Proof.
  intros [Hs Hz [Hl Ha]] Hb. split; cbn; [done|done|]. split; [by rewrite length_insert|]. by apply Forall_insert.
Qed.

Lemma slot_set_addr l k b d m : dinode_ok d -> (k <= NDIRECT)%nat -> slot l d k = 0 -> blk l b = zeroes ->
  slot l (set_addr k b d) m = if decide (m = k) then b else slot l d m.
Proof.
  intros [_ _ [Hl _]] Hk E0 Hz. unfold slot in *. cbn [set_addr di_addrs].
  rewrite (proj2 (Nat.leb_le k NDIRECT) Hk) in E0.
  destruct (Nat.leb_spec m NDIRECT) as [Hm|Hm].
  - case_decide as E; [subst; by rewrite list_lookup_total_insert_eq by lia|]. by rewrite list_lookup_total_insert_ne by done.
  - rewrite decide_False by lia. destruct (decide (k = NDIRECT)) as [->|Hne].
    + rewrite list_lookup_total_insert_eq, E0, Hz by lia. destruct (Nat.leb_spec (S NDIRECT + Z.to_nat NINDIRECT) m); [by rewrite !orb_true_r|].
      rewrite word_zeroes by lia. by destruct (b =? 0).
    + by rewrite list_lookup_total_insert_ne by done.
Qed.

Lemma image_direct T C l fb i k : image_ok T C l fb -> fb < FSSIZE -> (k <= NDIRECT)%nat -> slot l (T i) k = 0 ->
  image_ok (<[i := set_addr k fb (T i)]> T) C l (fb + 1).
Proof.
  intros Him Hfb Hk E0. pose proof (im_fb _ _ _ _ Him) as Hf. rewrite nmeta_eq in Hf. eapply image_alloc; try done.
  - intros j. destruct (decide (i = j)) as [<-|Hne]; [rewrite fn_lookup_insert|rewrite fn_lookup_insert_ne by done; by apply Him].
    apply set_addr_ok; [by apply Him|]. unfold FSSIZE in *. lia.
  - intros j m. destruct (decide (i = j)) as [<-|Hne]; [rewrite fn_lookup_insert|rewrite fn_lookup_insert_ne by done].
    + rewrite slot_set_addr; [|by apply Him|done|done|apply Him; lia]. do 2 case_decide; naive_solver.
    + by rewrite decide_False by naive_solver.
Qed.

(** ... or of its indirect block. *)
Lemma slot_set_word l l' d k b m : let a := di_addrs d !!! NDIRECT in
  a <> 0 -> blk l' a = set_word k b (blk l a) -> length (blk l a) = Z.to_nat BSIZE -> (k < Z.to_nat NINDIRECT)%nat -> 0 <= b < 2 ^ 32 ->
  slot l' d m = if decide (m = S NDIRECT + k)%nat then b else slot l d m.
Proof.
  intros a Ha E Hl Hk Hb. change (Z.to_nat BSIZE) with 512%nat in Hl. change (Z.to_nat NINDIRECT) with 128%nat in Hk.
  unfold slot. fold a. rewrite (proj2 (Z.eqb_neq a 0) Ha), orb_false_l, E.
  destruct (Nat.leb_spec m NDIRECT) as [Hm|Hm]; [by rewrite decide_False by lia|].
  destruct (Nat.leb_spec (S NDIRECT + Z.to_nat NINDIRECT) m) as [Hm'|Hm'];
    change (Z.to_nat NINDIRECT) with 128%nat in Hm'; [by rewrite decide_False by lia|].
  case_decide as Em; [|by rewrite word_set_word_ne by lia]. subst m. replace (S NDIRECT + k - S NDIRECT)%nat with k by lia.
  rewrite word_set_word by lia. by apply u32_small.
Qed.

Lemma image_indirect T C l fb i k : image_ok T C l fb -> fb < FSSIZE -> (k < Z.to_nat NINDIRECT)%nat ->
  slot l (T i) NDIRECT <> 0 -> slot l (T i) (S NDIRECT + k) = 0 ->
  image_ok T C (<[Z.to_nat (slot l (T i) NDIRECT) := set_word k fb (blk l (slot l (T i) NDIRECT))]> l) (fb + 1).
Proof.
  intros Him Hfb Hk Ha E0. set (a := slot l (T i) NDIRECT) in *.
  pose proof (im_fb _ _ _ _ Him) as Hf. pose proof (im_range _ _ _ _ Him i NDIRECT Ha) as Har. fold a in Har. rewrite nmeta_eq in *.
  pose proof (im_len _ _ _ _ Him) as Hl. pose proof (im_blk _ _ _ _ Him a ltac:(lia)) as Hb.
  assert (0 <= a < Z.of_nat (length l)) as Hal by (rewrite Hl; unfold FSSIZE in *; lia).
  eapply (image_alloc T C l fb T _ i (S NDIRECT + k)); try done.
  - apply Him.
  - by rewrite length_insert.
  - intros j m. destruct (decide (j = i)) as [->|Hne].
    + rewrite (slot_set_word l _ (T i) k fb); try done; [|rewrite <- (slot_indirect l); fold a|unfold FSSIZE in *; lia].
      * do 2 case_decide; naive_solver.
      * by rewrite blk_insert, decide_True by (done || lia).
    + rewrite decide_False by naive_solver. apply slot_ext. rewrite <- (slot_indirect l). intros Hj.
      pose proof (im_range _ _ _ _ Him j NDIRECT Hj). rewrite nmeta_eq in *. rewrite blk_insert, decide_False; [done| |lia|lia].
      intros E. by apply (im_uniq _ _ _ _ Him) in E as [-> _].
  - intros b Hb'. rewrite blk_insert by lia. case_decide; [subst; apply set_word_length|done].
  - intros b Hb' Hj. rewrite blk_insert by lia. rewrite decide_False; [done|]. intros ->. by apply (Hj i).
Qed.
(** Bytes [c] written behind the [length (C i)] that the file has. *)
Lemma image_write T C l fb i (c : list Z) : image_ok T C l fb ->
  let o := length (C i) in let x := slot l (T i) (file_slot (o / 512)) in
  x <> 0 -> (o mod 512 + length c <= 512)%nat ->
  image_ok T (<[i := C i ++ c]> C) (<[Z.to_nat x := splice (o mod 512) c (blk l x)]> l) fb.
Proof.
  intros Him o x Hx Hc. pose proof Him as [Hl Hb Hf Ho Hr Hu Hz Hd]. pose proof (Hr i _ Hx) as Hxr. fold x in Hxr. rewrite nmeta_eq in *.
  assert (0 <= x < Z.of_nat (length l)) as Hxl by (rewrite Hl; unfold FSSIZE in *; lia).
  pose proof (Hb x ltac:(lia)) as Hbx. change (Z.to_nat BSIZE) with 512%nat in Hbx. set (l' := <[Z.to_nat x := _]> l).
  assert (forall j k, slot l' (T j) k = slot l (T j) k) as Es.
  { intros j k. apply slot_ext. rewrite <- (slot_indirect l). intros Hj. pose proof (Hr j NDIRECT Hj). unfold l'. rewrite blk_insert, decide_False; [done| |lia|lia].
    intros E. apply Hu in E as [_ E]; [|done]. symmetry in E. by apply file_slot_ne in E. }
  assert (length (splice (o mod 512) c (blk l x)) = 512%nat) as Hsl by (rewrite splice_length; lia).
  split; try done; rewrite ?nmeta_eq; try done.
  - unfold l'. by rewrite length_insert.
  - intros b Hb'. unfold l'. rewrite blk_insert by lia. case_decide; [done|by apply Hb].
  - intros j k. rewrite !Es. apply Hr.
  - intros j j' k m. rewrite !Es. apply Hu.
  - intros b Hb'. unfold l'. rewrite blk_insert, decide_False by lia. by apply Hz.
  - intros j q v. rewrite Es.
    assert (forall v, C j !! q = Some v -> ~ (j = i /\ q / 512 = o / 512)%nat -> slot l (T j) (file_slot (q / 512)) <> 0 /\
      blk l' (slot l (T j) (file_slot (q / 512))) !! (q mod 512)%nat = Some v) as Hold.
    { intros v' Hv Hn. destruct (Hd j q v' Hv) as [H1 H2]. split; [done|]. pose proof (Hr _ _ H1). unfold l'. rewrite blk_insert, decide_False; [done| |lia|lia].
      intros E. apply Hn. apply Hu in E as [-> E]; [|done]. by apply file_slot_inj in E. }
    destruct (decide (i = j)) as [<-|Hne]; [rewrite fn_lookup_insert|rewrite fn_lookup_insert_ne by done; intros Hv; apply Hold; [done|naive_solver]].
    intros Hv. destruct (decide (q / 512 = o / 512)%nat) as [Eq|Nq].
    + rewrite Eq. fold x. split; [done|]. unfold l'. rewrite blk_insert, decide_True by (done || lia). rewrite splice_lookup by lia.
      pose proof (Nat.div_mod_eq q 512). pose proof (Nat.div_mod_eq o 512).
      destruct (decide (q < o)%nat) as [Hq|Hq].
      * rewrite lookup_app_l in Hv by done. rewrite decide_False by lia. destruct (Hd i q v Hv) as [_ H2]. by rewrite Eq in H2.
      * rewrite lookup_app_r in Hv by (unfold o in Hq; lia). pose proof (lookup_lt_Some _ _ _ Hv). fold o in Hv, H1.
        rewrite decide_True by lia. rewrite <- Hv. f_equal. lia.
    + pose proof (lookup_lt_Some _ _ _ Hv) as Hlt. rewrite length_app in Hlt. fold o in Hlt.
      assert (q < o)%nat by (pose proof (Nat.div_mod_eq q 512); pose proof (Nat.div_mod_eq o 512); pose proof (Nat.mod_upper_bound q 512); nia).
      rewrite lookup_app_l in Hv by done. apply Hold; [done|naive_solver].
Qed.

(** The inodes of the image are [T], and the metadata blocks other than their
    own are kept by a write of one. *)
Definition on_disk T l : Prop := forall i, 0 <= i < NINODES -> inode_at l i = T i.
Lemma iblock_range i : 0 <= i < NINODES -> mk_iblock i = i / 8 + 32 /\ 32 <= mk_iblock i < 58.
Proof.
  unfold NINODES. intros Hi. unfold mk_iblock. change (inodestart mksb) with 32. change IPB with 8.
  assert (0 <= i / 8 < 25) by (split; [apply Z.div_pos; lia|apply Z.div_lt_upper_bound; lia]). rewrite u32_small by lia. lia.
Qed.

Lemma on_disk_ext T l l' : on_disk T l -> (forall b, 32 <= b < 58 -> blk l' b = blk l b) -> on_disk T l'.
Proof. intros Ht E i Hi. unfold inode_at. rewrite E by (by apply iblock_range). by apply Ht. Qed.

Lemma on_disk_write T l i d : on_disk T l -> 0 <= i < NINODES -> dinode_ok d ->
  (forall b, 32 <= b < 58 -> length (blk l b) = Z.to_nat BSIZE) -> (58 <= length l)%nat ->
  on_disk (<[i := d]> T) (<[Z.to_nat (mk_iblock i) := put_dinode (Z.to_nat (i mod IPB)) d (blk l (mk_iblock i))]> l).
Proof.
  intros Ht Hi Hd Hb Hl j Hj. destruct (iblock_range i Hi) as [Ei Hri]. destruct (iblock_range j Hj) as [Ej Hrj].
  pose proof (Z.mod_pos_bound i 8 ltac:(lia)). pose proof (Z.mod_pos_bound j 8 ltac:(lia)). change IPB with 8.
  destruct (dinode_roundtrip (Z.to_nat (i mod 8)) d (blk l (mk_iblock i)) Hd ltac:(lia) ltac:(by apply Hb)) as [G1 G2].
  unfold inode_at. change IPB with 8. rewrite blk_insert by lia.
  destruct (decide (i = j)) as [<-|Hne]; [by rewrite fn_lookup_insert, decide_True|]. rewrite fn_lookup_insert_ne by done.
  rewrite <- Ht by done. unfold inode_at. change IPB with 8. case_decide as E; [|done]. rewrite E. apply G2; [lia|].
  intros Em. apply Hne. rewrite (Z.div_mod i 8), (Z.div_mod j 8) by lia. lia.
Qed.

Lemma put_dinode_length k d (dt : list Z) : length (put_dinode k d dt) = length dt.
Proof. unfold put_dinode. by rewrite set_words_length, set_word_length, !set_half_length. Qed.
(** The description of an image counts pointwise. *)
Definition same_fun {A} : relation (Z -> A) := pointwise_relation Z (=).
#[global] Instance image_ok_proper : Proper (same_fun ==> same_fun ==> eq ==> eq ==> iff) image_ok.
Proof.
  assert (forall T T' C C' l fb, same_fun T T' -> same_fun C C' -> image_ok T C l fb -> image_ok T' C' l fb) as H.
  { intros T T' C C' l fb Et Ec [Hl Hb Hf Ho Hr Hu Hz Hd]. split; try done.
    - intros i. rewrite <- Et. apply Ho.
    - intros i k. rewrite <- Et. apply Hr.
    - intros i j k m. rewrite <- !Et. apply Hu.
    - intros i. rewrite <- Et, <- Ec. apply Hd. }
  intros T T' Et C C' Ec l l' <- fb fb' <-. split; apply H; done.
Qed.
#[global] Instance on_disk_proper : Proper (same_fun ==> eq ==> iff) on_disk.
Proof. intros T T' Et l l' <-. split; intros H i Hi; [rewrite <- Et|rewrite Et]; by apply H. Qed.

Lemma same_fun_twice {A} i (x y : A) (f : Z -> A) : same_fun (<[i := x]> (<[i := y]> f)) (<[i := x]> f).
Proof. intros j. destruct (decide (i = j)) as [<-|]; [by rewrite !fn_lookup_insert|by rewrite !fn_lookup_insert_ne]. Qed.
Lemma same_fun_id {A} i (f : Z -> A) : same_fun (<[i := f i]> f) f.
Proof. intros j. destruct (decide (i = j)) as [<-|]; [by rewrite fn_lookup_insert|by rewrite fn_lookup_insert_ne]. Qed.
End images.

(** ** The tool, step by step *)
Section steps.
Implicit Types (s : mkstate) (d : dinode) (T : Z -> dinode) (C : Z -> list Z) (k m : nat) (i b : Z).

(** The tool may give up (a failed [assert], a file it cannot open, a full
    image), but always ends. *)
Definition aborts : protocol mkstate := Protocol (fun _ => False) (fun _ _ => False) (fun e => e <> NoFuel).

Lemma wp_rsect {A} b (f : list Z -> M A) s Q :
  ((Z.to_nat b < length (img s))%nat -> wp aborts (f (blk (img s) b) s) Q) -> wp aborts ((x <- rsect b ;; f x) s) Q.
Proof.
  intros Hk. unfold rsect. wp_run. destruct (img s !! Z.to_nat b) as [x|] eqn:E; [|done].
  specialize (Hk (lookup_lt_Some _ _ _ E)). unfold blk in Hk. by rewrite (list_lookup_total_correct _ _ _ E) in Hk.
Qed.

Definition put_blk b x s : mkstate := set_img (fun l => <[Z.to_nat b := x]> l) s.
Lemma wp_wsect {A} b x (f : unit -> M A) s Q :
  (Z.to_nat b < length (img s))%nat -> wp aborts (f tt (put_blk b x s)) Q -> wp aborts ((y <- wsect b x ;; f y) s) Q.
Proof.
  intros Hb Hk. unfold wsect. apply wp_modify. unfold set_img. cbv zeta. rewrite (proj2 (Nat.ltb_lt _ _) Hb). done.
Qed.

Lemma wp_next_block {A} (f : Z -> M A) s Q :
  0 <= freeblock s <= FSSIZE ->
  wp aborts (f (freeblock s) (mkMk (img s) (freeinode s) (freeblock s + 1))) Q -> wp aborts ((y <- next_block ;; f y) s) Q.
Proof. intros Hf Hk. unfold next_block. wp_run. rewrite u32_small by (unfold FSSIZE in *; lia). done. Qed.

(** What the data part of the tool leaves alone. *)
Definition same_meta s s' : Prop := (forall b, 0 <= b < nmeta -> blk (img s') b = blk (img s) b) /\ freeinode s' = freeinode s.
Definition same_kind d d' : Prop :=
  d' = mkDinode (di_type d) (di_major d) (di_minor d) (di_nlink d) (di_size d) (di_addrs d').
Lemma same_kind_trans d d1 d2 : same_kind d d1 -> same_kind d1 d2 -> same_kind d d2.
Proof. unfold same_kind. intros -> E2. rewrite E2. done. Qed.
Lemma same_meta_trans s s1 s2 : same_meta s s1 -> same_meta s1 s2 -> same_meta s s2.
Proof. intros [H1 E1] [H2 E2]. split; [|congruence]. intros b Hb. by rewrite H2, H1. Qed.
Lemma same_meta_put b x s : nmeta <= b < Z.of_nat (length (img s)) -> same_meta s (put_blk b x s).
Proof. rewrite nmeta_eq. intros Hb. split; [|done]. rewrite nmeta_eq. intros b' Hb'. cbn. by rewrite blk_insert, decide_False by lia. Qed.

Definition image_of T C s : Prop := image_ok T C (img s) (freeblock s).
Lemma image_of_length T C s b : image_of T C s -> (Z.to_nat b < length (img s))%nat <-> b < FSSIZE.
Proof. intros H. rewrite (im_len _ _ _ _ H). unfold FSSIZE. lia. Qed.

(** The state in which block [n] of the file of [i] is block [x]. *)
Record block_at T C i s n x d s' : Prop := {
  ba_image : image_of (<[i := d]> T) C s';
  ba_slot : x = slot (img s') d (file_slot (Z.to_nat n)) /\ x <> 0;
  ba_meta : same_meta s s';
  ba_kind : same_kind (T i) d }.

Lemma same_meta_refl s : same_meta s s.
Proof. by split. Qed.
Lemma same_kind_addr k b d : same_kind d (set_addr k b d).
Proof. done. Qed.
Lemma same_kind_refl d : same_kind d d.
Proof. by destruct d. Qed.

Lemma block_at_here T C i s n : image_of T C s -> slot (img s) (T i) (file_slot (Z.to_nat n)) <> 0 ->
  block_at T C i s n (slot (img s) (T i) (file_slot (Z.to_nat n))) (T i) s.
Proof.
  intros Him Hx. split; [|done|apply same_meta_refl|apply same_kind_refl]. unfold image_of. by rewrite same_fun_id.
Qed.

Lemma block_at_step T C i s n d1 s1 x d s' : same_meta s s1 -> same_kind (T i) d1 ->
  block_at (<[i := d1]> T) C i s1 n x d s' -> block_at T C i s n x d s'.
Proof.
  intros Hm Hk [Hi Hs Hm' Hk']. rewrite fn_lookup_insert in Hk'. unfold image_of in Hi. rewrite same_fun_twice in Hi.
  split; [done|done|by eapply same_meta_trans|by eapply same_kind_trans].
Qed.

(** A new direct or indirect block. *)
Lemma block_alloc T C i s k : image_of T C s -> (k <= NDIRECT)%nat -> slot (img s) (T i) k = 0 -> freeblock s < FSSIZE ->
  let s1 := mkMk (img s) (freeinode s) (freeblock s + 1) in
  image_of (<[i := set_addr k (freeblock s) (T i)]> T) C s1 /\
  slot (img s1) (set_addr k (freeblock s) (T i)) k = freeblock s /\ freeblock s <> 0 /\ same_meta s s1.
Proof.
  intros Him Hk E0 Hf s1. pose proof (im_fb _ _ _ _ Him) as Hfb. rewrite nmeta_eq in Hfb. split_and!; [by apply image_direct| |lia|by split].
  cbn. rewrite slot_set_addr; [by rewrite decide_True|by apply Him|done|done|apply Him; lia].
Qed.

Lemma wp_behind_indirect T C s i n (Q : Z * dinode -> mkstate -> Prop) :
  length (img s) = Z.to_nat FSSIZE -> slot (img s) (T i) NDIRECT <> 0 -> (slot (img s) (T i) NDIRECT < FSSIZE -> image_of T C s) ->
  Z.of_nat NDIRECT <= n < MAXFILE ->
  (forall x d s', length (img s') = length (img s) -> (x < FSSIZE -> block_at T C i s n x d s') -> Q (x, d) s') -> wp aborts (behind_indirect (T i) n s) Q.
Proof.
  intros Hl Ha Him Hn HQ. unfold behind_indirect. cbv zeta. set (k := Z.to_nat (n - Z.of_nat NDIRECT)).
  assert (k < Z.to_nat NINDIRECT)%nat as Hk by (unfold k; change MAXFILE with 140 in Hn; change (Z.to_nat NINDIRECT) with 128%nat; unfold NDIRECT in *; lia).
  assert (file_slot (Z.to_nat n) = S NDIRECT + k)%nat as Ek.
  { unfold file_slot, k. destruct (Nat.ltb_spec (Z.to_nat n) NDIRECT); lia. }
  apply wp_rsect. intros Hlt. rewrite <- (slot_indirect (img s)) in *. set (a := slot (img s) (T i) NDIRECT) in *.
  specialize (Him ltac:(rewrite Hl in Hlt; unfold FSSIZE in *; lia)).
  pose proof (im_fb _ _ _ _ Him) as Hf. pose proof (im_range _ _ _ _ Him i NDIRECT Ha) as Har. fold a in Har. rewrite nmeta_eq in *.
  assert (slot (img s) (T i) (S NDIRECT + k) = word (blk (img s) a) k) as Ew.
  { unfold slot. rewrite <- (slot_indirect (img s)). fold a. rewrite (proj2 (Nat.leb_gt (S NDIRECT + k) NDIRECT)) by lia. rewrite (proj2 (Z.eqb_neq a 0) Ha).
    rewrite (proj2 (Nat.leb_gt (S NDIRECT + Z.to_nat NINDIRECT) (S NDIRECT + k))) by lia. cbn [orb]. f_equal. lia. }
  rewrite <- Ew. destruct (Z.eqb_spec (slot (img s) (T i) (S NDIRECT + k)) 0) as [E0|E0].
  - apply wp_next_block; [lia|]. apply wp_wsect; [done|]. apply wp_ret, HQ; [apply length_insert|]. intros Hx. split.
    + unfold image_of. rewrite same_fun_id. by apply image_indirect.
    + rewrite Ek. split; [|lia]. cbn [img put_blk set_img]. symmetry. rewrite (slot_set_word (img s) _ (T i) k (freeblock s)); [by rewrite decide_True|done| |apply Him; rewrite <- (slot_indirect (img s)); fold a; lia|done|unfold FSSIZE in *; lia].
      rewrite <- (slot_indirect (img s)). fold a. by rewrite blk_insert, decide_True by (done || lia).
    + apply (same_meta_put a _ (mkMk (img s) (freeinode s) (freeblock s + 1))). rewrite nmeta_eq. cbn [img]. lia.
    + apply same_kind_refl.
  - apply wp_ret, HQ; [done|]. intros _. rewrite <- Ek. apply block_at_here; [done|by rewrite Ek].
Qed.

Lemma wp_append_block T C s i n (Q : Z * dinode -> mkstate -> Prop) : image_of T C s -> 0 <= n < MAXFILE ->
  (forall x d s', length (img s') = length (img s) -> (x < FSSIZE -> block_at T C i s n x d s') -> Q (x, d) s') -> wp aborts (append_block (T i) n s) Q.
Proof.
  intros Him Hn HQ. pose proof (im_fb _ _ _ _ Him) as Hf. pose proof (im_len _ _ _ _ Him) as Hl. rewrite nmeta_eq in Hf.
  unfold append_block. cbv zeta. destruct (Z.ltb_spec n (Z.of_nat NDIRECT)) as [Hd|Hd].
  - set (k := Z.to_nat n). assert (k < NDIRECT)%nat as Hk by (unfold k; lia).
    assert (file_slot k = k) as Ek by (unfold file_slot; by rewrite (proj2 (Nat.ltb_lt _ _) Hk)).
    assert (slot (img s) (T i) k = di_addrs (T i) !!! k) as Es by (unfold slot; by rewrite (proj2 (Nat.leb_le k NDIRECT)) by lia).
    rewrite <- Es. destruct (Z.eqb_spec (slot (img s) (T i) k) 0) as [E0|E0].
    + apply wp_next_block; [lia|]. apply wp_ret, HQ; [done|]. intros Hx.
      destruct (block_alloc T C i s k Him ltac:(lia) E0 Hx) as (H1 & H2 & H3 & H4).
      split; [done| |done|apply same_kind_addr]. fold k. rewrite Ek. by rewrite H2.
    + apply wp_ret, HQ; [done|]. intros _. rewrite <- Ek at 1. by apply block_at_here; [|fold k; rewrite Ek].
  - rewrite <- (slot_indirect (img s)). destruct (Z.eqb_spec (slot (img s) (T i) NDIRECT) 0) as [E0|E0].
    + apply wp_assoc, wp_next_block; [lia|]. wp_run. set (d1 := set_addr NDIRECT (freeblock s) (T i)). set (s1 := mkMk _ _ _).
      pose proof (block_alloc T C i s NDIRECT Him ltac:(lia) E0) as Hal. cbv zeta in Hal. fold s1 d1 in Hal.
      assert (slot (img s1) d1 NDIRECT = freeblock s) as Ed.
      { rewrite slot_indirect. apply list_lookup_total_insert_eq. destruct (im_ok _ _ _ _ Him i) as [_ _ [-> _]]. lia. }
      pose proof (wp_behind_indirect (<[i := d1]> T) C s1 i n Q) as Hb. rewrite !fn_lookup_insert, Ed in Hb.
      apply Hb; [done|lia|intros Hlt; by apply Hal|lia|]. intros x d s' Hls Hx. apply HQ; [by rewrite Hls|]. intros Hlt.
      eapply block_at_step; [..|by apply Hx]; [by split|apply same_kind_addr].
    + wp_run. apply (wp_behind_indirect T C s i n Q); done || lia.
Qed.
(** What [append_loop] leaves. *)
Record appended T C i s (p : list Z) d off s' : Prop := {
  ap_image : image_of (<[i := d]> T) (<[i := C i ++ p]> C) s';
  ap_off : off = Z.of_nat (length (C i ++ p)) /\ off < 2 ^ 32;
  ap_meta : same_meta s s';
  ap_kind : same_kind (T i) d }.

Lemma appended_block T C i s n d x s1 (c : list Z) :
  block_at T C i s n x d s1 -> n = Z.of_nat (length (C i) / 512) -> (length (C i) mod 512 + length c <= 512)%nat ->
  image_of (<[i := d]> T) (<[i := C i ++ c]> C) (put_blk x (splice (length (C i) mod 512) c (blk (img s1) x)) s1) /\
  same_meta s (put_blk x (splice (length (C i) mod 512) c (blk (img s1) x)) s1).
Proof.
  intros [Him [Hx Hx0] Hm Hk] -> Hc. rewrite Nat2Z.id in Hx. 
  pose proof (image_write _ _ _ _ i c Him) as Hw. cbv zeta in Hw. rewrite fn_lookup_insert, <- Hx in Hw. 
  pose proof (im_range _ _ _ _ Him i (file_slot (length (C i) / 512))) as Hr. rewrite fn_lookup_insert, <- Hx in Hr. specialize (Hr Hx0).
  pose proof (im_fb _ _ _ _ Him). pose proof (im_len _ _ _ _ Him). split; [by apply Hw|].
  eapply same_meta_trans; [done|]. apply same_meta_put. unfold FSSIZE in *. lia.
Qed.

Lemma append_loop_S f d off (p : list Z) : p <> [] -> append_loop (S f) d off p =
  (let fbn := off / BSIZE in
   if negb (fbn <? MAXFILE) then panic "assert" else
   let* (x, din) := append_block d fbn in
   let n1 := Z.min (Z.of_nat (length p)) ((fbn + 1) * BSIZE - off) in
   buf <- rsect x ;;
   wsect x (splice (Z.to_nat (off - fbn * BSIZE)) (take (Z.to_nat n1) p) buf) ;;
   append_loop f din (u32 (off + n1)) (drop (Z.to_nat n1) p)).
Proof. by destruct p. Qed.

Lemma appended_trans T C i s d1 c s1 p d off s' : same_meta s s1 -> same_kind (T i) d1 ->
  appended (<[i := d1]> T) (<[i := C i ++ c]> C) i s1 p d off s' -> appended T C i s (c ++ p) d off s'.
Proof.
  intros Hm Hk [Hi Ho Hm' Hk']. rewrite fn_lookup_insert in Hk'. rewrite fn_lookup_insert in Hi, Ho. rewrite <- app_assoc in Hi, Ho.
  unfold image_of in Hi. rewrite !same_fun_twice in Hi. split; [done|done|by eapply same_meta_trans|by eapply same_kind_trans].
Qed.

Lemma wp_append_loop i (f : nat) : forall T C s (p : list Z), image_of T C s -> (length p <= f)%nat ->
  Z.of_nat (length (C i)) < 2 ^ 32 ->
  wp aborts (append_loop f (T i) (Z.of_nat (length (C i))) p s) (fun '(d, off) s' => appended T C i s p d off s').
Proof.
  induction f as [|f IH]; intros T C s p Him Hp Hc; (destruct (decide (p = [])) as [->|Hne]; [|assert (0 < length p)%nat by (destruct p; cbn; [done|lia])]).
  1, 3: apply wp_ret; split; [|by rewrite app_nil_r|apply same_meta_refl|apply same_kind_refl];
    unfold image_of; rewrite same_fun_id, app_nil_r, same_fun_id; exact Him.
  1: lia.
  rewrite append_loop_S by done. set (o := length (C i)) in *. change BSIZE with 512. cbv zeta.
  assert (Z.of_nat o / 512 = Z.of_nat (o / 512)) as -> by (by rewrite (Nat2Z.inj_div o 512)).
  set (n := (o / 512)%nat) in *. pose proof (Nat.div_mod_eq o 512) as Hdm. fold n in Hdm. pose proof (Nat.mod_upper_bound o 512 ltac:(lia)) as Hmu.
  destruct (Z.ltb_spec (Z.of_nat n) MAXFILE) as [Hn|]; [|done]. cbn [negb].
  apply wp_bind. apply (wp_append_block T C s i (Z.of_nat n)); [done|lia|]. intros x d s1 Hls Hat.
  apply wp_rsect. intros Hx.
  replace (Z.to_nat (Z.of_nat o - Z.of_nat n * 512)) with (o mod 512)%nat by lia.
  set (n1 := Z.min (Z.of_nat (length p)) ((Z.of_nat n + 1) * 512 - Z.of_nat o)).
  assert (x < FSSIZE) as Hxs by (rewrite Hls in Hx; by apply (image_of_length T C s)). specialize (Hat Hxs).
  set (c := take (Z.to_nat n1) p). assert (length c = Z.to_nat n1) as Hcl by (unfold c; rewrite length_take; lia).
  destruct (appended_block T C i s (Z.of_nat n) d x s1 c Hat) as [Hi Hm]; [done|fold o; lia|].
  apply wp_wsect; [done|]. fold o in Hi, Hm. set (s2 := put_blk _ _ s1) in *.
  pose proof (IH _ _ s2 (drop (Z.to_nat n1) p) Hi) as Hl. rewrite !fn_lookup_insert, length_app in Hl. fold o in Hl.
  change MAXFILE with 140 in Hn. rewrite u32_small by lia.
  replace (Z.of_nat (o + length c)) with (Z.of_nat o + n1) in Hl by lia.
  eapply wp_mono; [apply Hl; [rewrite length_drop; lia|lia]|]. intros [d' off] s' Ha.
  rewrite <- (take_drop (Z.to_nat n1) p). eapply appended_trans; [exact Hm|apply (ba_kind _ _ _ _ _ _ _ _ Hat)|exact Ha].
Qed.
(** ** The whole tool *)
Definition super_block : list Z := set_words 0 sb_words zeroes.
(** The image under construction: inodes [T] are on disk, with files [C]. *)
Record built T C s : Prop := {
  bu_image : image_of T C s;
  bu_disk : on_disk T (img s);
  bu_size : forall i, di_size (T i) = Z.of_nat (length (C i));
  bu_super : blk (img s) 1 = super_block;
  bu_free : forall i, freeinode s <= i -> T i = dinode_zero /\ C i = [] }.

Lemma wp_rinode {A} T C s i (f : dinode -> M A) Q : image_of T C s -> on_disk T (img s) -> 0 <= i < NINODES ->
  wp aborts (f (T i) s) Q -> wp aborts ((d <- rinode i ;; f d) s) Q.
Proof.
  intros Him Hd Hi Hk. unfold rinode. apply wp_assoc, wp_rsect. intros _. wp_run. 
  rewrite <- (Hd i Hi) in Hk. exact Hk.
Qed.

Lemma wp_winode {A} T C s i d (f : unit -> M A) Q : image_of (<[i := d]> T) C s -> on_disk T (img s) -> 0 <= i < NINODES ->
  (forall s', image_of (<[i := d]> T) C s' -> on_disk (<[i := d]> T) (img s') -> blk (img s') 1 = blk (img s) 1 ->
    freeinode s' = freeinode s -> wp aborts (f tt s') Q) ->
  wp aborts ((y <- winode i d ;; f y) s) Q.
Proof.
  intros Him Hd Hi Hk. destruct (iblock_range i Hi) as [_ Hr]. pose proof (im_len _ _ _ _ Him) as Hl.
  pose proof (im_blk _ _ _ _ Him) as Hb. pose proof (im_ok _ _ _ _ Him i) as Ho. rewrite fn_lookup_insert in Ho.
  unfold winode. apply wp_assoc, wp_rsect. intros Hlt. apply wp_wsect; [done|]. unfold FSSIZE in *. apply Hk; cbn [img put_blk set_img freeinode]; [| | |done].
  - apply (image_meta _ _ _ _ _ _ Him); [rewrite nmeta_eq; lia|]. rewrite put_dinode_length. apply Hb. lia.
  - apply on_disk_write; try done; [|lia]. intros b Hb'. apply Hb. lia.
  - by rewrite blk_insert, decide_False by lia.
Qed.

(** An inode that refers to the same blocks, and one that refers to none. *)
Lemma image_resize T C s i d : image_of T C s -> dinode_ok d -> di_addrs d = di_addrs (T i) -> image_of (<[i := d]> T) C s.
Proof.
  intros [Hl Hb Hf Ho Hr Hu Hz Hd] Hok Ea.
  assert (forall j k, slot (img s) (<[i := d]> T j) k = slot (img s) (T j) k) as Es.
  { intros j k. destruct (decide (i = j)) as [<-|]; [|by rewrite fn_lookup_insert_ne]. rewrite fn_lookup_insert. unfold slot. by rewrite Ea. }
  split; try done.
  - intros j. destruct (decide (i = j)) as [<-|]; [by rewrite fn_lookup_insert|by rewrite fn_lookup_insert_ne].
  - intros j k. rewrite Es. apply Hr.
  - intros j j' k m. rewrite !Es. apply Hu.
  - intros j o v Hv. rewrite Es. by apply Hd.
Qed.

Definition new_inode (type : Z) : dinode := mkDinode type 0 0 1 0 (replicate (S NDIRECT) 0).

(** What [iappend] does to the file of inode [i]. *)
Record grown T C i (p : list Z) s d s' : Prop := {
  gr_built : built (<[i := d]> T) (<[i := C i ++ p]> C) s';
  gr_kind : di_type d = di_type (T i) /\ di_nlink d = di_nlink (T i);
  gr_inode : freeinode s' = freeinode s }.

Lemma wp_iappend {A} T C s i (p : list Z) (f : unit -> M A) Q : built T C s -> 0 <= i < freeinode s -> freeinode s <= NINODES ->
  (forall d s', grown T C i p s d s' -> wp aborts (f tt s') Q) -> wp aborts ((y <- iappend i p ;; f y) s) Q.
Proof.
  intros [Him Hd Hz Hs Hf] Hi Hn Hk. unfold iappend. apply wp_assoc. apply (wp_rinode T C); [done|done|lia|].
  rewrite Hz. apply wp_assoc, wp_bind. pose proof (do_size _ (im_ok _ _ _ _ Him i)) as Hsz. rewrite Hz in Hsz.
  eapply wp_mono; [apply wp_append_loop; [done|lia|lia]|]. intros [d off] s1 [Hi1 [Eo Ho] [Hm Hfi] Hkd].
  set (d1 := mkDinode _ _ _ _ _ _).
  assert (dinode_ok d1) as Hok1.
  { pose proof (im_ok _ _ _ _ Hi1 i) as Hok. rewrite fn_lookup_insert in Hok. destruct Hok as [H1 H2 H3]. split; cbn; [done|lia|done]. }
  assert (image_of (<[i := d1]> T) (<[i := C i ++ p]> C) s1) as Hi2.
  { pose proof (image_resize _ _ s1 i d1 Hi1 Hok1) as H. rewrite fn_lookup_insert in H. specialize (H eq_refl). unfold image_of in H. by rewrite same_fun_twice in H. }
  apply (wp_winode T _ s1 i d1 f Q Hi2); [|lia|].
  { apply on_disk_ext with (img s); [done|]. intros b Hb. apply Hm. rewrite nmeta_eq. lia. }
  intros s' Hi3 Hd3 Hs3 Hf3. apply (Hk d1 s'). split; [split; try done|unfold d1; cbn; by rewrite Hkd|congruence].
  - intros j. destruct (decide (i = j)) as [<-|]; [by rewrite !fn_lookup_insert|by rewrite !fn_lookup_insert_ne].
  - rewrite Hs3. rewrite Hm by (rewrite nmeta_eq; lia). done.
  - intros j Hj. rewrite Hf3, Hfi in Hj. rewrite !fn_lookup_insert_ne by lia. by apply Hf.
Qed.

Lemma image_new T C s i d : image_of T C s -> dinode_ok d -> di_addrs d = replicate (S NDIRECT) 0 -> C i = [] ->
  image_of (<[i := d]> T) C s.
Proof.
  intros [Hl Hb Hf Ho Hr Hu Hz Hd] Hok Ea Ec.
  assert (forall j k, slot (img s) (<[i := d]> T j) k = if decide (i = j) then 0 else slot (img s) (T j) k) as Es.
  { intros j k. case_decide as E; [subst j; rewrite fn_lookup_insert|by rewrite fn_lookup_insert_ne]. unfold slot. rewrite Ea.
    destruct (Nat.leb_spec k NDIRECT); [|done]. by rewrite lookup_total_replicate_2 by lia. }
  split; try done.
  - intros j. destruct (decide (i = j)) as [<-|]; [by rewrite fn_lookup_insert|by rewrite fn_lookup_insert_ne].
  - intros j k. rewrite Es. case_decide; [done|]. apply Hr.
  - intros j j' k m. rewrite !Es. case_decide; [done|]. intros H0. case_decide; [done|]. by apply Hu.
  - intros j o v Hv. rewrite Es. case_decide as E; [by subst; rewrite Ec in Hv|]. by apply Hd.
Qed.

Lemma wp_ialloc {A} T C s type (f : Z -> M A) Q : built T C s -> 0 <= freeinode s < NINODES -> - 2 ^ 15 <= type < 2 ^ 15 ->
  (forall s', built (<[freeinode s := new_inode type]> T) C s' -> freeinode s' = freeinode s + 1 -> wp aborts (f (freeinode s) s') Q) ->
  wp aborts ((y <- mk_ialloc type ;; f y) s) Q.
Proof.
  intros [Him Hd Hz Hs Hf] Hi Ht Hk. unfold mk_ialloc. wp_run. set (i := freeinode s) in *.
  rewrite u32_small by (unfold NINODES in *; lia). fold i. set (s1 := mkMk _ _ _).
  assert (i16 type = type) as -> by (unfold i16; rewrite Z.mod_small by lia; lia). fold (new_inode type).
  assert (dinode_ok (new_inode type)) as Hok.
  { split; cbn; [repeat constructor; lia|lia|]. split; [done|]. repeat constructor; lia. }
  pose proof (image_new T C s i _ Him Hok eq_refl (proj2 (Hf i ltac:(lia)))) as Hi1.
  apply (wp_winode T C s1 i _ _ _ Hi1 Hd Hi). intros s' Hi2 Hd2 Hs2 Hf2. wp_run. apply Hk; [|done]. split; try done.
  - intros j. destruct (decide (i = j)) as [<-|]; [rewrite !fn_lookup_insert|by rewrite !fn_lookup_insert_ne].
    cbn. by rewrite (proj2 (Hf i ltac:(lia))).
  - by rewrite Hs2.
  - intros j Hj. rewrite Hf2 in Hj. cbn in Hj. rewrite fn_lookup_insert_ne by lia. apply Hf. fold i. lia.
Qed.
#[global] Instance built_proper : Proper (same_fun ==> same_fun ==> eq ==> iff) built.
Proof.
  assert (forall T T' C C' s, same_fun T T' -> same_fun C C' -> built T C s -> built T' C' s) as H.
  { intros T T' C C' s Et Ec [Hi Hd Hz Hs Hf]. split; [unfold image_of in *; by rewrite <- Et, <- Ec|by rewrite <- Et| |done|].
    - intros i. by rewrite <- Et, <- Ec.
    - intros i. rewrite <- Et, <- Ec. apply Hf. }
  intros T T' Et C C' Ec s s' <-. split; apply H; done.
Qed.

Lemma wp_append_all {A} i (chunks : list (list Z)) : forall T C s (f : unit -> M A) Q,
  built T C s -> 0 <= i < freeinode s -> freeinode s <= NINODES ->
  (forall d s', grown T C i (concat chunks) s d s' -> wp aborts (f tt s') Q) -> wp aborts ((y <- append_all i chunks ;; f y) s) Q.
Proof.
  induction chunks as [|c chunks IH]; intros T C s f Q Hb Hi Hn Hk; cbn [append_all].
  - wp_run. apply (Hk (T i)). cbn. split; [by rewrite app_nil_r, !same_fun_id|done|done].
  - apply wp_assoc, (wp_iappend T C); [done|done|done|]. intros d1 s1 [Hb1 Hk1 Hf1].
    eapply IH; [exact Hb1|lia|lia|]. intros d s' [Hb' Hk' Hf']. apply (Hk d). cbn. rewrite fn_lookup_insert in Hk'.
    rewrite fn_lookup_insert, !same_fun_twice, <- app_assoc in Hb'. split; [done| |congruence]. destruct Hk1, Hk'. split; congruence.
Qed.

(** The entries of the root directory for the files, and the bytes of a file. *)
Fixpoint root_entries (n : Z) (files : list host_file) : list Z :=
  match files with
  | [] => []
  | f :: files' => mk_dirent (u16 n) (default [] (shortname f.1)) ++ root_entries (n + 1) files'
  end.
Definition file_bytes (f : host_file) : list Z := concat (default [] f.2).

Record added T C files s T' C' s' : Prop := {
  ad_built : built T' C' s';
  ad_root : C' ROOTINO = C ROOTINO ++ root_entries (freeinode s) files /\
    di_type (T' ROOTINO) = di_type (T ROOTINO) /\ di_nlink (T' ROOTINO) = di_nlink (T ROOTINO);
  ad_files : forall k f, files !! k = Some f -> let i := freeinode s + Z.of_nat k in
    C' i = file_bytes f /\ di_type (T' i) = T_FILE /\ di_nlink (T' i) = 1;
  ad_old : forall i, ROOTINO < i < freeinode s -> C' i = C i /\ T' i = T i;
  ad_inode : freeinode s' = freeinode s + Z.of_nat (length files) }.

Lemma added_cons T C f files s T1 C1 s1 T' C' s' :
  ROOTINO < freeinode s -> added T C [f] s T1 C1 s1 -> added T1 C1 files s1 T' C' s' -> added T C (f :: files) s T' C' s'.
Proof.
  intros Hr [Hb1 (Hr1 & Ht1 & Hn1) Hf1 Ho1 Hi1] [Hb2 (Hr2 & Ht2 & Hn2) Hf2 Ho2 Hi2]. cbn [length root_entries] in Hi1, Hr1. split; [done|..].
  - split_and!; [|congruence|congruence]. cbn [root_entries]. by rewrite Hr2, Hr1, Hi1, app_nil_r, <- app_assoc.
  - intros [|k] g Hg; cbn in Hg; cbv zeta.
    + destruct (Ho2 (freeinode s + Z.of_nat 0) ltac:(lia)) as [-> ->]. by apply Hf1.
    + specialize (Hf2 k g Hg). cbv zeta in Hf2. replace (freeinode s + Z.of_nat (S k)) with (freeinode s1 + Z.of_nat k) by lia. done.
  - intros i Hi. destruct (Ho2 i ltac:(lia)) as [-> ->]. by apply Ho1.
  - cbn [length]. lia.
Qed.

Lemma wp_add_file {A} T C s (h : host_file) (f : unit -> M A) Q : built T C s -> ROOTINO < freeinode s < NINODES ->
  (forall T' C' s', added T C [h] s T' C' s' -> wp aborts (f tt s') Q) -> wp aborts ((y <- add_file ROOTINO h ;; f y) s) Q.
Proof.
  intros Hb Hn Hk. unfold add_file. destruct (shortname h.1) as [nm|] eqn:Enm; [|done]. destruct h.2 as [chunks|] eqn:Ech; [|done]. wp_run.
  unfold ROOTINO in *. apply (wp_ialloc T C); [done|lia|unfold T_FILE; lia|]. intros s1 Hb1 Hi1. set (n := freeinode s) in *. 
  eapply wp_assoc, wp_iappend; [exact Hb1|lia|lia|]. intros d2 s2 [Hb2 Hk2 Hi2].
  eapply wp_append_all; [exact Hb2|lia|lia|]. intros d3 s3 [Hb3 Hk3 Hi3].
  eapply Hk. split; [exact Hb3|..].
  - rewrite !(fn_lookup_insert_ne _ n 1), !fn_lookup_insert by lia. rewrite (fn_lookup_insert_ne _ n 1) in Hk2 by lia. cbn [root_entries]. rewrite Enm, app_nil_r. done.
  - intros [|k] g Hg; [|done]. injection Hg as <-. cbv zeta. rewrite Z.add_0_r. fold n. rewrite fn_lookup_insert_ne, fn_lookup_insert in Hk3 by lia.
    rewrite (fn_lookup_insert_ne _ 1 n), !fn_lookup_insert by lia.    rewrite (proj2 (bu_free _ _ _ Hb n ltac:(lia))). unfold file_bytes. rewrite Ech. by destruct Hk3 as [-> ->].
  - intros i Hi. fold n in Hi. unfold ROOTINO in Hi. by rewrite !fn_lookup_insert_ne by lia.
  - cbn. lia.
Qed.

Lemma wp_add_files {A} (files : list host_file) : forall T C s (f : unit -> M A) Q,
  built T C s -> ROOTINO < freeinode s -> freeinode s + Z.of_nat (length files) <= NINODES ->
  (forall T' C' s', added T C files s T' C' s' -> wp aborts (f tt s') Q) -> wp aborts ((y <- add_files ROOTINO files ;; f y) s) Q.
Proof.
  induction files as [|h files IH]; intros T C s f Q Hb Hr Hn Hk; cbn [add_files length] in *.
  - wp_run. apply (Hk T C). split; [done|..]; try done; cbn; [by rewrite app_nil_r|lia].
  - eapply wp_assoc, wp_add_file; [exact Hb|lia|]. intros T1 C1 s1 Ha1. pose proof (ad_inode _ _ _ _ _ _ _ Ha1) as Hi1. cbn in Hi1.
    eapply IH; [exact (ad_built _ _ _ _ _ _ _ Ha1)|lia|lia|]. intros T' C' s' Ha. eapply Hk. by eapply added_cons.
Qed.
(** The cleared image. *)
Lemma clear_blocks_run (n : nat) : forall s,
  clear_blocks n (Z.of_nat (length (img s))) s = Done tt (set_img (fun l => l ++ replicate n zeroes) s).
Proof.
  induction n as [|n IH]; intros s; cbn [clear_blocks]; [destruct s; unfold ret, set_img; cbn [img freeinode freeblock replicate]; by rewrite app_nil_r|].
  unfold wsect, bind, modify, set_img. cbv beta zeta. rewrite (proj2 (Nat.ltb_ge (Z.to_nat (Z.of_nat (length (img s)))) (length (img s)))) by lia.
  replace (Z.to_nat (Z.of_nat (length (img s))) - length (img s))%nat with 0%nat by lia. cbn [obind replicate app].
  replace (Z.of_nat (length (img s)) + 1) with (Z.of_nat (length (img s ++ [zeroes]))) by (rewrite length_app; cbn; lia).
  pose proof (IH (mkMk (img s ++ [zeroes]) (freeinode s) (freeblock s))) as E. cbn [img] in E. rewrite E. unfold set_img. cbn [img freeinode freeblock].
  by rewrite <- app_assoc.
Qed.

Lemma zero_inode k : (k < 8)%nat -> get_dinode zeroes k = dinode_zero.
Proof. intros Hk. do 8 (destruct k as [|k]; [vm_compute; reflexivity|]). lia. Qed.

Definition cleared : list (list Z) := replicate (Z.to_nat FSSIZE) zeroes.
Lemma cleared_blk b : 0 <= b < FSSIZE -> blk cleared b = zeroes.
Proof. intros Hb. apply lookup_total_replicate_2. lia. Qed.

Definition no_inodes : Z -> dinode := fun _ => dinode_zero.
Definition no_files : Z -> list Z := fun _ => [].

Definition cleared_state : mkstate := mkMk cleared 1 nmeta.
Lemma clear_start : clear_blocks (Z.to_nat FSSIZE) 0 (mkMk [] 1 nmeta) = Done tt cleared_state.
Proof.
  pose proof (clear_blocks_run (Z.to_nat FSSIZE) (mkMk [] 1 nmeta)) as E. change (Z.of_nat (length (img (mkMk [] 1 nmeta)))) with 0 in E.
  unfold set_img in E. cbn [img freeinode freeblock app] in E. exact E.
Qed.

Lemma built_start : built no_inodes no_files (put_blk 1 super_block cleared_state).
Proof.
  assert (image_ok no_inodes no_files cleared nmeta) as H.
  { assert (forall i k, slot cleared (no_inodes i) k = 0) as Es.
    { intros i k. unfold slot, no_inodes. change (di_addrs dinode_zero) with (replicate 13 0).
      destruct (Nat.leb_spec k NDIRECT); [|done]. by rewrite lookup_total_replicate_2 by (unfold NDIRECT in *; lia). }
    split; rewrite ?nmeta_eq.
    - apply length_replicate.
    - intros b Hb. rewrite cleared_blk by done. apply length_replicate.
    - done.
    - intros i. unfold no_inodes. clear i. split; [repeat constructor; cbn; lia|done|]. split; [done|]. repeat constructor; lia.
    - intros i k. by rewrite Es.
    - intros i j k m. by rewrite Es.
    - intros b Hb. apply cleared_blk. lia.
    - intros i o v Hv. done. }
  assert (0 <= 1 < Z.of_nat (length cleared)) as Hl by (unfold cleared; rewrite length_replicate; unfold FSSIZE; lia).
  split.
  - apply (image_meta _ _ _ _ 1 super_block H); [rewrite nmeta_eq; lia|]. unfold super_block. rewrite set_words_length. apply length_replicate.
  - intros i Hi. destruct (iblock_range i Hi) as [_ Hr]. unfold inode_at. cbn [img put_blk set_img cleared_state]. rewrite (blk_insert cleared 1) by lia.
    rewrite decide_False, cleared_blk by (unfold FSSIZE; lia). apply zero_inode. change IPB with 8. pose proof (Z.mod_pos_bound i 8). lia.
  - done.
  - cbn [img put_blk set_img cleared_state]. rewrite (blk_insert cleared 1) by lia. by rewrite decide_True.
  - done.
Qed.

(** The bitmap. *)
Lemma bitmap_bits (n : nat) : let m := foldl (fun buf (q : nat) => set_bit (Z.of_nat q) buf) zeroes (seq 0 n) in
  Z.of_nat n < BPB -> length m = Z.to_nat BSIZE /\ forall b, 0 <= b < BPB -> bit_set m b = (b <? Z.of_nat n).
Proof.
  induction n as [|n IH]; intros m Hn.
  - split; [apply length_replicate|]. intros b Hb. rewrite (proj2 (Z.ltb_ge _ _)) by lia. unfold bit_set, m. cbn [seq foldl].
    unfold zeroes. assert (b / 8 < 512) by (unfold BPB, BSIZE in *; apply Z.div_lt_upper_bound; lia).
    pose proof (Z.div_pos b 8 ltac:(lia) ltac:(lia)). rewrite lookup_total_replicate_2 by (unfold BSIZE; lia). done.
  - destruct IH as [Hl Hb]; [lia|]. unfold m. rewrite seq_S, foldl_app. cbn [foldl Nat.add]. set (m0 := foldl _ _ _) in *.
    split; [unfold set_bit; by rewrite length_alter|]. intros b Hr. rewrite set_bit_spec; [|rewrite Hl; unfold BPB, BSIZE in *; lia|lia].
    rewrite Hb by done. case_decide; [symmetry; apply Z.ltb_lt; lia|]. destruct (Z.ltb_spec b (Z.of_nat n)); symmetry; [apply Z.ltb_lt|apply Z.ltb_ge]; lia.
Qed.

(** The file system the tool promises for a list of files. *)
Record file_system (files : list host_file) s : Prop := {
  fs_size : length (img s) = Z.to_nat FSSIZE;
  fs_super : forall k v, sb_words !! k = Some v -> word (blk (img s) 1) k = v;
  fs_bitmap : forall b, 0 <= b < BPB -> bit_set (blk (img s) (bmapstart mksb)) b = (b <? freeblock s);
  fs_range : forall i k, 0 <= i < NINODES -> slot (img s) (inode_at (img s) i) k <> 0 ->
    nmeta <= slot (img s) (inode_at (img s) i) k < freeblock s /\ freeblock s <= FSSIZE;
  fs_once : forall i j k m, 0 <= i < NINODES -> 0 <= j < NINODES -> slot (img s) (inode_at (img s) i) k <> 0 ->
    slot (img s) (inode_at (img s) i) k = slot (img s) (inode_at (img s) j) m -> i = j /\ k = m;
  fs_root : let d := inode_at (img s) ROOTINO in
    let c := mk_dirent 1 (bytes ".") ++ mk_dirent 1 (bytes "..") ++ root_entries 2 files in
    di_type d = T_DIR /\ di_nlink d = 1 /\ di_size d = (Z.of_nat (length c) / BSIZE + 1) * BSIZE /\ holds_bytes (img s) d c;
  fs_files : forall n f, files !! n = Some f -> let d := inode_at (img s) (2 + Z.of_nat n) in
    di_type d = T_FILE /\ di_nlink d = 1 /\ di_size d = Z.of_nat (length (file_bytes f)) /\ holds_bytes (img s) d (file_bytes f);
  fs_unused : forall i, 2 + Z.of_nat (length files) <= i < NINODES -> inode_at (img s) i = dinode_zero }.
(** The last two writes: the size of the root directory and the bitmap. *)
Lemma sb_words_read k v : sb_words !! k = Some v -> word super_block k = v.
Proof.
  intros Hv. unfold super_block. change k with (0 + k)%nat at 1.
  rewrite (word_set_words sb_words 0 zeroes k v Hv) by (unfold zeroes; rewrite length_replicate; change (Z.to_nat BSIZE) with 512%nat; cbn; lia).
  apply u32_small. do 7 (destruct k as [|k]; [injection Hv as <-; vm_compute; split; congruence|]). done.
Qed.

Lemma file_system_done files T C T' C' s0 s d s' :
  added T C files s0 T' C' s -> freeinode s0 = 2 -> di_type (T ROOTINO) = T_DIR -> di_nlink (T ROOTINO) = 1 ->
  C ROOTINO = mk_dirent 1 (bytes ".") ++ mk_dirent 1 (bytes "..") -> Z.of_nat (length files) + 2 <= NINODES ->
  d = mkDinode (di_type (T' ROOTINO)) (di_major (T' ROOTINO)) (di_minor (T' ROOTINO)) (di_nlink (T' ROOTINO))
    ((Z.of_nat (length (C' ROOTINO)) / BSIZE + 1) * BSIZE) (di_addrs (T' ROOTINO)) ->
  image_of (<[ROOTINO := d]> T') C' s' -> on_disk (<[ROOTINO := d]> T') (img s') -> blk (img s') 1 = super_block ->
  (forall b, 0 <= b < BPB -> bit_set (blk (img s') (bmapstart mksb)) b = (b <? freeblock s')) ->
  file_system files s'.
Proof.
  intros [Hb (Hr & Ht & Hn) Hf Ho Hi] E0 Ety Enl Ec Hlen Ed Him Hdk Hsb Hbm. unfold ROOTINO in *. rewrite E0 in *.
  assert (1 < NINODES) as HN by (unfold NINODES; lia).
  split; [apply Him|by rewrite Hsb; apply sb_words_read|done|..].
  - intros i k Hr' Hne. rewrite Hdk in * by done. split; [by apply Him|by apply Him].
  - intros i j k m Hr1 Hr2. rewrite !Hdk by done. apply Him.
  - cbv zeta. unfold ROOTINO. rewrite Hdk, app_assoc, <- Ec, <- Hr by lia. pose proof (im_data _ _ _ _ Him 1) as Hd.
    rewrite fn_lookup_insert in *. subst d. cbn [di_type di_nlink di_size]. split_and!; [congruence|congruence|done|done].
  - intros n f Hfn. cbv zeta. pose proof (lookup_lt_Some _ _ _ Hfn). rewrite Hdk by lia. pose proof (im_data _ _ _ _ Him (2 + Z.of_nat n)) as Hd.
    rewrite fn_lookup_insert_ne in * by lia. destruct (Hf n f Hfn) as (E1 & E2 & E3). rewrite E1 in Hd. by rewrite (bu_size _ _ _ Hb), E1.
  - intros i Hir. rewrite Hdk, fn_lookup_insert_ne by lia. apply (bu_free _ _ _ Hb). lia.
Qed.

Lemma root_entries_length files : forall n, length (root_entries n files) = (16 * length files)%nat.
Proof. induction files as [|f files IH]; intros n; cbn [root_entries length]; [done|]. rewrite length_app, mk_dirent_length, IH. lia. Qed.

Lemma wp_finish files T C T' C' s0 s :
  added T C files s0 T' C' s -> freeinode s0 = 2 -> di_type (T ROOTINO) = T_DIR -> di_nlink (T ROOTINO) = 1 ->
  C ROOTINO = mk_dirent 1 (bytes ".") ++ mk_dirent 1 (bytes "..") -> Z.of_nat (length files) + 2 <= NINODES ->
  wp aborts ((din <- rinode ROOTINO ;;
    winode ROOTINO (mkDinode (di_type din) (di_major din) (di_minor din) (di_nlink din)
      (u32 ((di_size din / BSIZE + 1) * BSIZE)) (di_addrs din)) ;;
    used <- gets freeblock ;; mk_balloc used) s) (fun _ s' => file_system files s').
Proof.
  intros Ha E0 Ety Enl Ec Hn. pose proof (ad_built _ _ _ _ _ _ _ Ha) as [Him Hd Hz Hs Hf].
  apply (wp_rinode T' C'); [done|done|done|]. rewrite Hz.
  assert (Z.of_nat (length (C' ROOTINO)) < 4096) as Hl.
  { rewrite (proj1 (ad_root _ _ _ _ _ _ _ Ha)), Ec, !length_app, root_entries_length, !mk_dirent_length. unfold NINODES in *. lia. }
  change BSIZE with 512. pose proof (Z.div_pos (Z.of_nat (length (C' ROOTINO))) 512 ltac:(lia) ltac:(lia)).
  pose proof (Z.div_lt_upper_bound (Z.of_nat (length (C' ROOTINO))) 512 8 ltac:(lia) ltac:(lia)). rewrite u32_small by lia.
  set (d := mkDinode _ _ _ _ _ _). assert (dinode_ok d) as Hok.
  { destruct (im_ok _ _ _ _ Him ROOTINO) as [H1 H2 H3]. split; [done|cbn; lia|done]. }
  apply (wp_winode T' C' s ROOTINO d); [by apply image_resize|done|done|]. intros s1 Him1 Hd1 Hs1 _.
  pose proof (im_fb _ _ _ _ Him1) as Hfb. pose proof (im_len _ _ _ _ Him1) as Hlen. rewrite nmeta_eq in Hfb. unfold FSSIZE in Hfb, Hlen.
  apply wp_gets. unfold mk_balloc. destruct (bitmap_bits (Z.to_nat (freeblock s1))) as [Hml Hmb]; [unfold BPB, BSIZE; lia|].
  rewrite (proj2 (Z.ltb_lt (freeblock s1) (BSIZE * 8))) by (unfold BSIZE; lia). cbn [negb]. set (m := foldl _ _ _) in *. clearbody m.
  change (bmapstart mksb) with 58. apply wp_tail, wp_wsect; [lia|]. apply wp_ret.
  assert (0 <= 58 < Z.of_nat (length (img s1))) as Hb58 by lia.
  eapply (file_system_done files T C T' C' s0 s d); try done.
  - apply (image_meta _ _ _ _ 58 m Him1); [rewrite nmeta_eq; lia|done].
  - eapply on_disk_ext; [exact Hd1|]. intros b Hb. cbn [img put_blk set_img]. by rewrite blk_insert, decide_False by lia.
  - cbn [img put_blk set_img]. rewrite blk_insert, decide_False by lia. congruence.
  - intros b Hb. change (bmapstart mksb) with 58. cbn [img put_blk set_img freeblock]. rewrite blk_insert, decide_True by (done || lia).
    rewrite Hmb by done. by rewrite Z2Nat.id by lia.
Qed.

(** C20: what [mkfs] promises: whatever files it is given, if it does not give up
    then the image is a file system: it has the size and the superblock the
    kernel expects; the bitmap marks exactly the blocks below [freeblock];
    every block an inode refers to is a data block, is marked in use and is
    referred to once; the root directory has an entry for each file, in
    order; inode [2 + n] is the [n]th file, with its bytes and size; and the
    other inodes are free. *)
Theorem mkfs_builds files : Z.of_nat (length files) + 2 <= NINODES ->
  wp aborts (mkfs files mkfs_start) (fun _ s => file_system files s).
Proof.
  intros Hn. unfold mkfs. apply wp_modify. unfold mkfs_start. cbn [img freeinode].
  apply wp_bind. rewrite clear_start. cbn [wp]. fold super_block.
  apply wp_wsect; [cbn [img cleared_state]; unfold cleared; rewrite length_replicate; unfold FSSIZE; lia|].
  pose proof built_start as Hb1. assert (freeinode (put_blk 1 super_block cleared_state) = 1) as Hi1 by reflexivity.
  set (s1 := put_blk 1 super_block cleared_state) in *. clearbody s1.
  apply (wp_ialloc no_inodes no_files s1); [done|rewrite Hi1; done|done|]. intros s2 Hb2 Hi2. rewrite Hi1 in *. change (1 + 1) with 2 in Hi2.
  cbn [negb Z.eqb ROOTINO Pos.eqb]. change (u16 1) with 1.
  eapply wp_iappend; [exact Hb2|rewrite Hi2; lia|rewrite Hi2; done|]. intros d3 s3 [Hb3 Hk3 Hi3].
  eapply wp_iappend; [exact Hb3|rewrite Hi3, Hi2; lia|rewrite Hi3, Hi2; done|]. intros d4 s4 [Hb4 Hk4 Hi4].
  eapply wp_add_files; [exact Hb4|rewrite Hi4, Hi3, Hi2; done|rewrite Hi4, Hi3, Hi2; lia|]. intros T' C' s5 Ha.
  eapply wp_finish; [exact Ha|congruence|..|done]; rewrite !fn_lookup_insert in *; [|..|done].
  - destruct Hk4 as [-> _]. by destruct Hk3 as [-> _].
  - destruct Hk4 as [_ ->]. by destruct Hk3 as [_ ->].
Qed.
End steps.

Definition returned {A} (o : outcome mkstate A) : bool := match o with Done _ _ => true | _ => false end.
Lemma mkfs_builds_witness : exists s, mkfs demo_files mkfs_start = Done tt s /\ file_system demo_files s.
Proof.
  assert (Z.of_nat (length demo_files) + 2 <= NINODES) as Hn by (vm_compute; congruence).
  pose proof (mkfs_builds demo_files Hn) as H.
  assert (returned (mkfs demo_files mkfs_start) = true) as Hr by (vm_compute; reflexivity).
  destruct (mkfs demo_files mkfs_start) as [[] s|e|s k]; [by exists s|discriminate Hr|discriminate Hr].
Defined.

(** With more files than there are inodes the tool does not stop: the inode of
    the 207th file falls into the bitmap block and is lost there. *)
Theorem mkfs_inode_overrun :
  match mkfs (replicate 207 (bytes "user/_a", Some [])) mkfs_start with
  | Done _ s => freeinode s = 209 /\ mk_iblock 208 = bmapstart mksb /\ di_type (inode_at (img s) 208) <> T_FILE
  | _ => False
  end.
Proof. vm_compute. split; [reflexivity|]. split; [reflexivity|discriminate]. Qed.
