(* ===== verification/System.v ===== *)
(** * The system as a whole

    A user program on the kernel: every system call of the program is a trap,
    dispatched by [trap] to the modelled handlers, with its arguments in the
    memory of the process and reached through its page table.  [kernel_traps]
    puts the components in the place of the interface of [Trap].  The kernel is
    started the way [main] and the first process start it, on the disk image
    that [mkfs] builds, with the console opened by [init]; the tests of
    [usertests.c] that need no second process then run on it. *)
From S2P Require Import Prelude Types Str Spinlock Queue Kalloc Sched Context Sleeplock Pipe Bio Log Console Vm Fs File Proc Syscall Sysfile Consio Trap Ulib Programs Mkfs Usertests.

(** ** The handlers of the traps *)
(** The next character of the keyboard and of the serial port, or -1. *)
Class Input := { kbdgetc : K Z; uartgetc : K Z }.

Section system.
Context `{Linkage} `{Fuel} `{Disk} `{Serial} `{DevSw} `{Input}.

(** The memory disk has no interrupts, and the end-of-interrupt register is no
    part of the kernel's state. *)
#[export] Instance kernel_traps : TrapOps := {|
  syscall := do_syscall;
  exit := exit_;
  ideintr := ret tt;
  kbdintr := consoleintr kbdgetc;
  uartintr := consoleintr uartgetc;
  lapiceoi := ret tt |}.

(** ** A system call of a user program *)
(** The arguments as the caller pushes them, above the return address. *)
Fixpoint stack_args (a : Z) (args : list Z) : K unit :=
  match args with
  | [] => ret tt
  | x :: args' => vstore32 a (u32 x) ;; stack_args (a + 4) args'
  end.
(** [movl $num, %eax; int $T_SYSCALL], and the result in [%eax]. *)
Definition trap_call (num : Z) (args : list Z) : K Z :=
  p <- curproc ;;
  t <- proc_get p tf ;;
  esp <- Prelude.gets (fun s => load32 (k_mem s) (t + tf_esp)) ;;
  stack_args (esp + 4) args ;;
  modify (upd_mem (store32 (t + tf_eax) num)) ;;
  trap (mkTf t T_SYSCALL 0 0 (Z.lor (Z.shiftl SEG_UCODE 3) DPL_USER) 0) ;;
  Prelude.gets (fun s => i32 (load32 (k_mem s) (t + tf_eax))).

(** Where the program keeps its strings and its buffer. *)
Definition ustr0 : Z := 0x200.
Definition ustr1 : Z := 0x400.
Definition ubuf : Z := 0x1000.
Definition put_string (a : Z) (l : list Z) : K unit := vstore_bytes a (l ++ [0]).
Definition responds (m : K Z) : K uresp := r <- m ;; ret (mkResp r [] (0, 0)).

Definition serve (c : ucall) : K uresp :=
  match c with
  | URead fd n => r <- trap_call 5 [fd; ubuf; n] ;; l <- vload_bytes ubuf (Z.to_nat r) ;; ret (mkResp r l (0, 0))
  | UWrite fd l => vstore_bytes ubuf l ;; responds (trap_call 16 [fd; ubuf; Z.of_nat (length l)])
  | UOpen path mode => put_string ustr0 path ;; responds (trap_call 15 [ustr0; mode])
  | UClose fd => responds (trap_call 21 [fd])
  | UDup fd => responds (trap_call 10 [fd])
  | UPipe =>
      r <- trap_call 4 [ubuf] ;;
      a <- vload32 ubuf ;;
      b <- vload32 (ubuf + 4) ;;
      ret (mkResp r [] (a, b))
  | UFstat fd => r <- trap_call 8 [fd; ubuf] ;; l <- vload_bytes ubuf (Z.to_nat sizeof_stat) ;; ret (mkResp r l (0, 0))
  | UChdir path => put_string ustr0 path ;; responds (trap_call 9 [ustr0])
  | ULink old new => put_string ustr0 old ;; put_string ustr1 new ;; responds (trap_call 19 [ustr0; ustr1])
  | UUnlink path => put_string ustr0 path ;; responds (trap_call 18 [ustr0])
  | UMkdir path => put_string ustr0 path ;; responds (trap_call 20 [ustr0])
  | UMknod path mj mn => put_string ustr0 path ;; responds (trap_call 17 [ustr0; mj; mn])
  | UKill pid => responds (trap_call 6 [pid])
  | USleep n => responds (trap_call 13 [n])
  | UGetpid => responds (trap_call 11 [])
  | UUptime => responds (trap_call 14 [])
  | USbrk n => responds (trap_call 12 [n])
  | UReadAt fd p n => responds (trap_call 5 [fd; p; n])
  | ULinkAt old p => put_string ustr0 old ;; responds (trap_call 19 [ustr0; p])
  | _ => stopm (Fault "call")
  end.

(** The program up to its end, or up to its [exit]: the result, if it returns. *)
Fixpoint run {A} (u : uprog A) : K (option A) :=
  match u with
  | URet a => ret (Some a)
  | UExit => ret None
  | UFuel => stopm NoFuel
  | UCall c k => r <- serve c ;; run (k r)
  end.

(** ** Starting *)
(** The initialisation of the components in [main], the root directory that
    [userinit] gives the first process [p], and its first steps in [forkret],
    which it enters holding the lock of the table. *)
Definition start (p : nat) : K unit :=
  consoleinit ;;
  initlock L_ptable "ptable" ;;
  binit ;;
  fileinit ;;
  c <- namei (bytes "/") ;;
  proc_set p (set_cwd c) ;;
  acquire L_ptable ;;
  forkret.

End system.

(** ** The machine *)
(** The image of a file system with three programs. *)
Definition image_files : list host_file :=
  [(bytes "user/_cat", Some [replicate 512 1; replicate 100 2]); (bytes "user/_echo", Some [replicate 100 3]);
   (bytes "user/_init", Some [replicate 50 4])].
Definition image : list (list Z) := match mkfs image_files mkfs_start with Done _ s => img s | _ => [] end.

(** One process, with four pages at address 0, and its trap frame on a page of its own. *)
Definition user_mem : gmap Z Z :=
  store32 0x80302000 0x303007 (store32 0x80303000 0x304007 (store32 0x80303004 0x305007 (store32 0x80303008 0x306007
    (store32 0x8030300c 0x307007 (store32 (0x80308000 + tf_esp) 0x100 ∅))))).
Definition user_proc : proc := set_pgdir 0x80302000 (set_sz 0x4000 (set_tf 0x80308000 (demo_proc RUNNING 1 0 None None))).
Definition machine : kernel :=
  set_k_disk image (set_k_mem user_mem (set_k_pt (mkPtable (user_proc :: replicate 63 proc_zero) [None; None; None] [None; None; None])
    (kernel_zero (set_h_cr3 0x302000 (demo_hw [] true (Some 0%nat)))))).

(** What the machine sends to the serial port while the program runs to its end. *)
Definition transcript (u : uprog unit) : option (list Z) :=
  let _ := demo_linkage in let _ : Fuel := 0%nat in let _ : Disk := memide_disk in let _ : Serial := true in
  let _ : DevSw := console_devsw in let _ : Input := {| kbdgetc := ret (-1); uartgetc := ret (-1) |} in
  match (start 0 ;; run init_console ;; run u) machine with
  | Done (Some _) s => Some (uart_out (k_cons s))
  | _ => None
  end.

#[local] Open Scope user_scope.
Definition file_tests : uprog unit :=
  let buf := replicate (Z.to_nat BUFLEN) 0 in
  opentest ~;;
  dirtest ~;;
  iputtest ~;;
  rmdot ~;;
  fourteen ~;;
  buf <~ subdir buf ;;
  buf <~ linktest buf ;;
  unlinkread buf ~;;
  dirfile.
#[local] Close Scope user_scope.

Definition text_lines (l : list string) : list Z := concat ((fun s => bytes s ++ [10]) <$> l).

Definition report : list Z := text_lines
  ["sb: size 1000 nblocks 941 ninodes 200 nlog 30 logstart 2 inodestart 32 bmap start 58";
   "open test"; "open test ok"; "mkdir test"; "mkdir test ok"; "iput test"; "iput test ok"; "rmdot test"; "rmdot ok";
   "fourteen test"; "fourteen ok"; "subdir test"; "subdir ok"; "linktest"; "linktest ok"; "unlinkread test"; "unlinkread ok";
   "dir vs file"; "dir vs file OK"]%string.

(** The kernel passes the tests of [usertests.c] on directories, links, path
    names and open files: started on the image that [mkfs] builds, with the
    console made by [init], it sends to the serial port exactly the report of a
    run without failure.  Every call of the tests goes through the trap
    handler, the argument checks, the path lookup, the inode cache, the log, the
    buffer cache and the driver; the run ends without a panic, a fault or a
    loop that exhausts its bound, and no process has to wait. *)
Example file_tests_pass : transcript file_tests = Some report.
Proof. vm_cast_no_check (eq_refl (Some report)). Qed.
